(* ===== verification/_CoqProject ===== *)
-Q . S2P
Prelude.v
KernelH.v
Pmm.v
Paging.v
Malloc.v
Algorithm.v
MallocTests.v
Channel.v
LinkedList.v
Gdt.v
Serial.v
Scheduler.v
Interrupts.v
Syscalls.v
Boot.v
KernelMain.v
KernelTypes.v
UserSyscalls.v
Wait.v
SharedPages.v
Spawn.v
LibcString.v
StartParams.v
Printf.v
Diagnostics.v
CxxString.v
StringOrder.v
Vfs.v
VfsTree.v
Ustar.v
Envp.v
Elf.v
ElfSymbols.v
TaskSwitch.v
Proc.v
Startup.v
Shell.v
Vector.v
UniquePtr.v
Userboot.v
Programs.v
