(* ===== verification/Prelude.v ===== *)
(** * discountOS: a verification development

    discountOS (src/) is a small operating system for 32-bit x86, written in C++: a kernel
    with 4MB pages, preemptive round-robin tasks, byte channels and sixteen system calls
    (src/kernel/), a C and C++ library that the kernel and the user programs share
    (src/libc/, src/libcxx/), and the first user programs, a loader and a shell
    (src/userboot/).

    ** How the parts interact, and which file models them

    The kernel boots through [KernelMain], which marks the usable memory in the page allocator
    [Pmm], sets up the page directories of [Paging], the segments of [Gdt], the vectors of
    [Interrupts], the kernel's heap ([Boot]) and the tasks of [Scheduler], and enters the first
    user task.  Interrupts go through the stubs of [TaskSwitch] to [Syscalls], which dispatches exceptions, the timer (and with
    it the scheduler) and system calls; system calls work on tasks, pages, the channels of
    [Channel] and the memory of both address spaces.  [KernelTypes] bounds every state these
    can reach.  [Diagnostics] is what the kernel prints about an exception, over [Serial].  A program makes a system call through a stub of [UserSyscalls], in which
    [Wait], [SharedPages] and [Spawn] follow conversations from the program's side to the kernel
    and back.  The kernel and every process allocate with [Malloc].  The first program,
    [Userboot], starts the second stage, and that the shell.  A process starts another with
    [execv] ([Proc]), which loads its file ([Elf]) and hands it, over a channel
    ([Startup]), the archive of the file system ([Ustar], [Vfs]), its environment
    ([Envp]) and its arguments ([StartParams]); the child's [__libc_start_main] rebuilds
    them and sets up its heap ([Programs], with the small programs).  [Shell] is the program a
    user types commands to.

    - Prelude (this file): faults, the state-and-failure monad [M], machine integers, arrays,
      tactics, and the predicate [preserves] for computations that leave a part of the
      state alone.
    - KernelH: kernel/include/kernel/kernel.h, the conversions of pages and addresses.
    - Pmm: kernel/pmm.cpp.  State: the bitmap of the pages.
    - Paging: kernel/paging.cpp.  State: the physical memory, the page directories, the
      current directory, the page allocator.
    - Malloc: libc/malloc.cpp, also behind kernel/kmalloc.cpp.  State: the regions of the
      heap as memory with their headers in it.
    - Channel: kernel/channel.cpp, on the vector of libcxx.  State: the vector of channels, the buffers.
    - LinkedList: kernel/include/kernel/linkedlist.h.
    - Gdt: kernel/gdt.cpp.  Interrupts: idt.cpp, isr.cpp, irq.cpp and timer.cpp of the kernel.
      Serial: kernel/serial.cpp over a device that is a parameter.
    - Scheduler: kernel/scheduler.cpp.  State: the tasks, their queue, and the machine of [Paging].
    - Syscalls: kernel/syscalls.cpp, kernel/exceptions.cpp.  Boot: kernel/kmalloc.cpp and the
      use of multiboot's memory map in kernel/main.cpp.
    - KernelMain: kernel_main and KernelSetup of kernel/main.cpp, kernel/tests.cpp, and the entry of the
      first user task.
    - TaskSwitch: kernel/isr.S and kernel/switchtask.S.  State: the registers and the stacks.
    - Diagnostics: kernel/stacktrace.cpp, kernel/panic.cpp and what isr.cpp, paging.cpp, pmm.cpp,
      exceptions.cpp and scheduler.cpp print about the state they find.
    - KernelTypes: the kernel as a transition system ([step], [reachable]): boot, then any
      interrupts and stores of programs, with an invariant of its memory structures.
    - UserSyscalls: userboot/syscalls.cpp and userboot/include/syscalls.h, against the
      dispatcher of [Syscalls].  Wait: libc/wait.cpp.  SharedPages: MapPage as seen by two tasks.
      Spawn: the system calls with which libc/elf.cpp starts a process, over these handlers.
    - LibcString: libc/string.cpp, libc/ctype.cpp, over a memory of bytes that the files below share.
    - StartParams: libc/startparams.cpp.  Printf: libc/printf.cpp.
    - CxxString: libcxx/include/string, with its orderings in StringOrder.  Vfs: libc/vfs.cpp and libc/include/libc/startup/vfs.h, with
      the drawing of a directory in VfsTree.
    - Ustar: libc/ustar.cpp.  Envp: libc/globalstate.cpp, libc/getenv.cpp and the buffers of
      libc/include/libc/resizable_buffer.h.
    - Elf: libc/elf.cpp (building the image) and libc/include/libc/elf/elf.h, with the section
      and symbol tables in ElfSymbols.
    - Proc: chdir, getcwd, opendir, exec of libc.  Startup: the end of libc/elf.cpp and
      libc/__libc_start_main.cpp, against the class [StartChannel], of which the kernel's
      channels are an instance.  Shell: userboot/shell.cpp.
    - Vector: libcxx/include/vector.  UniquePtr: libcxx/include/memory.  Userboot: the two stages of userboot.
    - Programs: the programs of userboot that are small, setenv of libc with the table that [environ]
      points to, and the heap that libc/__libc_start_main.cpp sets up.
    - Algorithm: libcxx/include/iterator and libcxx/include/algorithm, over a class of iterators.
      MallocTests: libc/tests/malloc.cpp, the tests that run at every start.

    Each routine is a function of its own, named as in the source, that threads the
    component's state through [M] and stops with a [fault] where the program traps, fails an
    assertion, or does what C++ leaves undefined.  A loop has its own Fixpoint.

    ** What the theorems show

    - Memory: the bitmap is a set of pages (C24) that fits the memory the machine has (C27), a
      directory is a partial map (C17), and a copy between address spaces copies exactly the
      bytes (C2).
    - The allocator: over any sequence of calls allocations never overlap and survive (C14);
      what [malloc] and [free] do on every heap that can arise (C15, C10); its tests pass (C16).
    - Channels: bytes arrive in order whatever happens at the other channels, as long as the vector does not
      have to grow and no earlier channel is removed (C1; lemmas [growing_breaks_channels] and
      [removing_reuses_live_handles] show what happens then), also between tasks through the system calls (C25); the
      death of an owner closes its ends (lemma [CloseEndpointsOwnedByTask_closes]).
    - Tasks: a tick saves, rotates and resumes (C3), returns in every sound state (C18), is
      fair (C21); exit (C28); and the registers of an interrupted task come back, all of them (C20).
    - Boot: what is in use after boot (C23), that [kernel_main] passes its tests and the state it
      leaves, with every vector but 30 in place (C9; lemma [vector_30_is_empty]), and the first
      interrupt, which enters user code (C19).
    - In every state that boot and any interrupts reach, directory entries are words that are
      zero or present, memory holds bytes and the bitmap has its 128 bytes, as long as no store
      goes to where the kernel keeps these structures (C8); SYS_MapPage can give a program the kernel's page
      and with it the means to do so (lemma [MapPage_gives_away_kernel_page]).
    - System calls: AllocPage (C4) and its scoped use in a program (C26); MapPage gives two
      tasks one memory, in both directions, or is refused (C7); [wait] returns what the child exits with (C5).
    - Reports: an exception in a process is reported, whatever is on its stack, and nothing else changes
      (C34); the serial port sends and receives every character (C36); the drawing of a directory shows
      which entry is where (C33).
    - Library: formats (C35), ownership (C37), permutations (C38), strings and vectors as lists
      (C39, C40); lemmas in LibcString and Printf for the memory functions and the numbers.
    - A new process: the system calls that start it (C6), the image of the file (C13), the hand-over of
      file system, environment, working directory and arguments (C11), its heap (C12), the file system
      (C22, C31) and its environment (C32); lemmas in Userboot, Envp and StartParams for the stages and
      for the buffers.
    - The shell: what is typed is what is run (C29), the working directory (C30).

    A theorem about the state of a component assumes the component's invariant ([wf], [rep],
    [inv], [wf_nodes]) and shows it again afterwards.  Lemmas after a component's properties
    show by evaluation what the code does where it does not do what it means to.

    ** Bounds and fuel

    Integers have the width of the source: [u8] and [u32] are written where the code wraps.
    A loop that is not structural has fuel that is a bound on its rounds: the length
    of the array or list it walks, the bytes that are mapped (a loop over a C string visits
    distinct addresses), the keys that are left, or 2^16 for the 16-bit counter of the ELF
    header.  [NoFuel] is thus never the result on the inputs of a theorem, and the theorems
    show results, not just results if there are any; a loop of the program that does not end
    shows as [NoFuel] for every fuel.

    ** What is not modelled

    The entry points in assembly (boot.S, start.S, userstart.S), which set a stack and call C++, and the
    loading of tables into the processor (gdt.S); devices other than through the ports the drivers use;
    what the kernel prints about the multiboot information and the progress of its own start; the type
    traits of libcxx, which compute nothing at run time; the macros of the unit tests, of which the tests of
    the allocator are modelled as the checks they make.  The contents of
    uninitialised memory and the addresses that allocation returns are arguments where
    they matter.  The instructions a user task runs are not modelled: between two system calls its registers
    and the memory of its pages are what the theorem says they are. *)
From stdpp Require Export base tactics list gmap numbers strings.
From Stdlib Require Export ZArith Lia.
#[global] Open Scope Z_scope.

(** * Faults and results

    The program stops in a handful of ways: a failed [assert] (which traps), an
    explicit [abort()] / [__builtin_trap()], an access outside of an array, an
    access to a virtual address that no page backs, a dereference of a null or
    dead object.  [NoFuel] is the model's own: a loop bound was exhausted. *)
Inductive fault :=
  | AssertFailed
  | Aborted
  | OutOfBounds
  | PageFault
  | BadPointer
  | NoFuel.

Inductive result (A : Type) :=
  | Ok (a : A)
  | Fault (f : fault).
Arguments Ok {A} a.
Arguments Fault {A} f.

#[export] Instance fault_eq_dec : EqDecision fault.
Proof. solve_decision. Defined.

#[export] Instance result_ret : MRet result := λ A a, Ok a.
#[export] Instance result_bind : MBind result := λ A B k r,
  match r with Ok a => k a | Fault f => Fault f end.

(** State and failure: every stateful routine of the program is an [M S A]. *)
Definition M (S A : Type) : Type := S → result (A * S).

#[export] Instance M_ret {S} : MRet (M S) := λ A a s, Ok (a, s).
#[export] Instance M_bind {S} : MBind (M S) := λ A B k m s,
  match m s with Ok (a, s') => k a s' | Fault f => Fault f end.

Definition fail {S A} (f : fault) : M S A := λ _, Fault f.
Definition gets {S A} (f : S → A) : M S A := λ s, Ok (f s, s).
Definition modify {S} (f : S → S) : M S unit := λ s, Ok (tt, f s).
Definition liftR {S A} (r : result A) : M S A :=
  λ s, match r with Ok a => Ok (a, s) | Fault f => Fault f end.

(** [assert(cond)] of libc/assert.cpp: a false condition traps. *)
Definition assert_ {S} (b : bool) : M S unit :=
  if b then mret tt else fail AssertFailed.

(** The same for code that only computes. *)
Definition assertR (b : bool) : result unit := if b then Ok tt else Fault AssertFailed.

(** Run a computation on a part of the state. *)
Definition zoom {S T A} (get : S → T) (set : T → S → S) (m : M T A) : M S A :=
  λ s, match m (get s) with
       | Ok (a, t) => Ok (a, set t s)
       | Fault f => Fault f
       end.

(** * Machine integers: unsigned values of a given width, in [Z]. *)
Definition u8 (z : Z) : Z := z mod 2 ^ 8.
Definition u16 (z : Z) : Z := z mod 2 ^ 16.
Definition u32 (z : Z) : Z := z mod 2 ^ 32.
Definition u64 (z : Z) : Z := z mod 2 ^ 64.

Definition is_u8 (z : Z) : Prop := 0 ≤ z < 2 ^ 8.
Definition is_u32 (z : Z) : Prop := 0 ≤ z < 2 ^ 32.

(** An integer read as a condition. *)
Definition tobool (z : Z) : bool := negb (z =? 0).

(** * Arrays with an integer index; an index out of range is undefined behaviour. *)
Definition nthZ {A} (l : list A) (i : Z) : option A :=
  if i <? 0 then None else l !! Z.to_nat i.

Definition aread {A} (l : list A) (i : Z) : result A :=
  match nthZ l i with Some a => Ok a | None => Fault OutOfBounds end.

Definition awrite {A} (l : list A) (i : Z) (a : A) : result (list A) :=
  match nthZ l i with
  | Some _ => Ok (<[Z.to_nat i := a]> l)
  | None => Fault OutOfBounds
  end.

(** * Tactics *)

(** [lia] with division and modulo by constants. *)
Ltac dlia := Z.to_euclidean_division_equations; lia.

(** Case analysis on the outermost [match] of hypothesis [H]. *)
Ltac case_in H :=
  match type of H with
  | context [match ?x with _ => _ end] =>
      lazymatch x with
      | context [match _ with _ => _ end] => fail
      | _ => let E := fresh "E" in destruct x eqn:E
      end
  end.

(** Invert a successful monadic run in [H] one bind at a time. *)
Ltac minv H :=
  unfold assert_, fail, gets, modify, liftR, zoom, mbind, M_bind, mret, M_ret in H;
  repeat (case_in H; try discriminate H; simplify_eq/=).

(** Unfold the monad's operations in the goal. *)
Ltac munfold :=
  unfold assert_, fail, gets, modify, liftR, zoom, mbind, M_bind, mret, M_ret;
  cbv beta iota.

Create HintDb kern.

(** * Generic lemmas *)

Lemma bind_Ok {S A B} (m : M S A) (k : A → M S B) s a s1 :
  m s = Ok (a, s1) → (m ≫= k) s = k a s1.
Proof. intros H. unfold mbind, M_bind. by rewrite H. Qed.

Lemma bind_Ok_inv {S A B} (m : M S A) (k : A → M S B) s r :
  (m ≫= k) s = Ok r → ∃ a s1, m s = Ok (a, s1) ∧ k a s1 = Ok r.
Proof.
  unfold mbind, M_bind. destruct (m s) as [[a s1]|]; [|done]. eauto.
Qed.

Lemma u8_range z : is_u8 (u8 z).
Proof. apply Z.mod_pos_bound. lia. Qed.

Lemma u32_range z : is_u32 (u32 z).
Proof. apply Z.mod_pos_bound. lia. Qed.

Lemma u8_id z : is_u8 z → u8 z = z.
Proof. apply Z.mod_small. Qed.

Lemma u32_id z : is_u32 z → u32 z = z.
Proof. apply Z.mod_small. Qed.

#[export] Hint Resolve u8_range u32_range : kern.

Lemma nthZ_Some {A} (l : list A) i a :
  nthZ l i = Some a → 0 ≤ i < Z.of_nat (length l) ∧ l !! Z.to_nat i = Some a.
Proof.
  unfold nthZ. destruct (Z.ltb_spec i 0); [done|]. intros Hl. split; [|done].
  apply lookup_lt_Some in Hl. lia.
Qed.

Lemma nthZ_lookup {A} (l : list A) i : 0 ≤ i → nthZ l i = l !! Z.to_nat i.
Proof. intros H. unfold nthZ. destruct (Z.ltb_spec i 0); [lia|done]. Qed.

Lemma nthZ_is_Some {A} (l : list A) i :
  0 ≤ i < Z.of_nat (length l) → ∃ a, nthZ l i = Some a.
Proof.
  intros H. rewrite nthZ_lookup by lia.
  destruct (lookup_lt_is_Some_2 l (Z.to_nat i)) as [a Ha]; [lia|eauto].
Qed.

Lemma aread_Ok {A} (l : list A) i a :
  aread l i = Ok a ↔ nthZ l i = Some a.
Proof. unfold aread. destruct (nthZ l i); naive_solver. Qed.

Lemma awrite_Ok {A} (l : list A) i a l' :
  awrite l i a = Ok l' →
  0 ≤ i < Z.of_nat (length l) ∧ l' = <[Z.to_nat i := a]> l.
Proof.
  unfold awrite. destruct (nthZ l i) eqn:E; [|done].
  apply nthZ_Some in E as [? _]. by intros [= <-].
Qed.

Lemma awrite_in_range {A} (l : list A) i a :
  0 ≤ i < Z.of_nat (length l) → awrite l i a = Ok (<[Z.to_nat i := a]> l).
Proof.
  intros H. unfold awrite. destruct (nthZ_is_Some l i H) as [? ->]. done.
Qed.

(** A boolean property of bytes is settled by its 256 instances. *)
Lemma byte_ind (P : Z → bool) :
  forallb P (seqZ 0 256) = true → ∀ x, is_u8 x → P x = true.
Proof.
  intros H x Hx. rewrite forallb_forall in H. apply H.
  apply list_elem_of_In, elem_of_seqZ. unfold is_u8 in Hx. lia.
Qed.

(** Testing a bit with a mask, as C does. *)
Lemma tobool_land_bit b k : 0 ≤ k → tobool (Z.land b (Z.shiftl 1 k)) = Z.testbit b k.
Proof.
  intros Hk. unfold tobool. rewrite Z.shiftl_1_l.
  destruct (Z.testbit b k) eqn:E.
  - apply negb_true_iff, Z.eqb_neq. intros H0.
    apply (f_equal (λ z, Z.testbit z k)) in H0.
    rewrite Z.land_spec, E, Z.pow2_bits_true, Z.bits_0 in H0 by done. done.
  - apply negb_false_iff, Z.eqb_eq, Z.bits_inj_0. intros n.
    rewrite Z.land_spec. destruct (Z.eq_dec n k) as [->|Hn]; [by rewrite E|].
    rewrite Z.pow2_bits_false by done. apply andb_false_r.
Qed.

Lemma testbit_lor_bit b k n : 0 ≤ k →
  Z.testbit (Z.lor b (Z.shiftl 1 k)) n = (n =? k) || Z.testbit b n.
Proof.
  intros Hk. rewrite Z.lor_spec, Z.shiftl_1_l, Z.pow2_bits_eqb by done.
  rewrite (Z.eqb_sym k n). apply orb_comm.
Qed.

Lemma testbit_land_lnot_bit b k n : 0 ≤ k → 0 ≤ n →
  Z.testbit (Z.land b (Z.lnot (Z.shiftl 1 k))) n = negb (n =? k) && Z.testbit b n.
Proof.
  intros Hk Hn. rewrite Z.land_spec, Z.lnot_spec, Z.shiftl_1_l, Z.pow2_bits_eqb by done.
  rewrite (Z.eqb_sym k n). apply andb_comm.
Qed.

Lemma testbit_u8 b n : 0 ≤ n < 8 → Z.testbit (u8 b) n = Z.testbit b n.
Proof. intros Hn. unfold u8. apply Z.mod_pow2_bits_low. lia. Qed.

Lemma seqZ_lookup_filter_count (P : Z → Prop) `{∀ x, Decision (P x)} a n m :
  0 ≤ n → 0 ≤ m →
  length (filter P (seqZ a (n + m))) =
    (length (filter P (seqZ a n)) + length (filter P (seqZ (a + n) m)))%nat.
Proof.
  intros Hn Hm. rewrite seqZ_app by done. by rewrite filter_app, length_app.
Qed.

Lemma list_length_filter_ext {A} (P Q : A → Prop)
    `{∀ x, Decision (P x)} `{∀ x, Decision (Q x)} (l : list A) :
  (∀ x, x ∈ l → P x ↔ Q x) → length (filter P l) = length (filter Q l).
Proof.
  induction l as [|x l IH]; intros HPQ; [done|].
  rewrite !filter_cons.
  destruct (decide (P x)) as [HP|HP], (decide (Q x)) as [HQ|HQ]; simpl.
  - f_equal. apply IH. intros; apply HPQ; by right.
  - destruct HQ. apply HPQ; [by left|done].
  - destruct HP. apply HPQ; [by left|done].
  - apply IH. intros; apply HPQ; by right.
Qed.

Lemma length_filter_fmap {A B} (f : A → B) (P : B → Prop) `{∀ x, Decision (P x)}
    (l : list A) :
  length (filter P (f <$> l)) = length (filter (λ x, P (f x)) l).
Proof.
  induction l as [|x l IH]; [done|].
  rewrite fmap_cons, !filter_cons. destruct (decide (P (f x))); simpl; by rewrite IH.
Qed.

(** Counting over a shifted interval. *)
Lemma length_filter_seqZ_shift (P : Z → Prop) `{∀ x, Decision (P x)} a n :
  length (filter P (seqZ a n)) = length (filter (λ k, P (a + k)) (seqZ 0 n)).
Proof.
  rewrite <- (length_filter_fmap (Z.add a)), fmap_add_seqZ. by rewrite Z.add_0_r.
Qed.

Lemma length_filter_none {A} (P : A → Prop) `{∀ x, Decision (P x)} (l : list A) :
  (∀ x, x ∈ l → ¬ P x) → length (filter P l) = 0%nat.
Proof.
  induction l as [|x l IH]; intros HP; [done|].
  rewrite filter_cons. rewrite decide_False by (apply HP; by left).
  apply IH. intros; apply HP; by right.
Qed.

Lemma length_filter_all {A} (P : A → Prop) `{∀ x, Decision (P x)} (l : list A) :
  (∀ x, x ∈ l → P x) → length (filter P l) = length l.
Proof.
  induction l as [|x l IH]; intros HP; [done|].
  rewrite filter_cons. rewrite decide_True by (apply HP; by left). simpl. f_equal.
  apply IH. intros; apply HP; by right.
Qed.

(** A multiple of [2 ^ k] and a value below [2 ^ k] have no bit in common. *)
Lemma land_disjoint a b k : 0 ≤ k → a mod 2 ^ k = 0 → 0 ≤ b < 2 ^ k → Z.land a b = 0.
Proof.
  intros Hk Ha Hb. apply Z.bits_inj_0. intros n.
  destruct (Z.lt_ge_cases n 0) as [Hn|Hn]; [by apply Z.testbit_neg_r|].
  rewrite Z.land_spec. destruct (Z.lt_ge_cases n k).
  - rewrite <- (Z.mod_pow2_bits_low a k n) by lia. by rewrite Ha, Z.bits_0.
  - rewrite <- (Z.mod_small b (2 ^ k)) by lia.
    rewrite Z.mod_pow2_bits_high by lia. apply andb_false_r.
Qed.

Lemma lor_disjoint a b k : 0 ≤ k → a mod 2 ^ k = 0 → 0 ≤ b < 2 ^ k → Z.lor a b = a + b.
Proof.
  intros Hk Ha Hb. pose proof (land_disjoint a b k Hk Ha Hb) as H0.
  rewrite Z.add_nocarry_lxor by done. symmetry. by apply Z.lxor_lor.
Qed.

Lemma lor_u8 a b : is_u8 a → is_u8 b → is_u8 (Z.lor a b).
Proof.
  unfold is_u8. intros Ha Hb. split; [apply Z.lor_nonneg; lia|].
  destruct (Z.eq_dec (Z.lor a b) 0) as [->|Hne]; [done|].
  apply Z.log2_lt_pow2; [pose proof (Z.lor_nonneg a b); lia|].
  rewrite Z.log2_lor by lia. apply Z.max_lub_lt.
  - destruct (Z.eq_dec a 0) as [->|]; [done|]. apply Z.log2_lt_pow2; lia.
  - destruct (Z.eq_dec b 0) as [->|]; [done|]. apply Z.log2_lt_pow2; lia.
Qed.

(** * Computations that leave a part of the state alone *)
Definition preserves {S T A} (f : S → T) (m : M S A) : Prop :=
  ∀ s a s', m s = Ok (a, s') → f s' = f s.

Section preserves.
  Context {S T : Type} (f : S → T).

Lemma preserves_bind {A B} (m : M S A) (k : A → M S B) :
  preserves f m → (∀ a, preserves f (k a)) → preserves f (m ≫= k).
Proof.
  intros Hm Hk s b s' H. apply bind_Ok_inv in H as (a & s1 & H1 & H2).
  rewrite (Hk _ _ _ _ H2). by eapply Hm.
Qed.

Lemma preserves_ret {A} (a : A) : preserves f (mret a).
Proof. by intros s a' s' [= _ <-]. Qed.

Lemma preserves_fail {A} e : preserves f (fail e : M S A).
Proof. by intros s a s'. Qed.

Lemma preserves_assert b : preserves f (assert_ b).
Proof. destruct b; [apply preserves_ret|apply preserves_fail]. Qed.

Lemma preserves_gets {A} (g : S → A) : preserves f (gets g).
Proof. by intros s a s' [= _ <-]. Qed.

Lemma preserves_liftR {A} (r : result A) : preserves f (liftR r).
Proof. destruct r; [by intros s a' s' [= _ <-]|by intros s a s']. Qed.

Lemma preserves_modify g : (∀ s, f (g s) = f s) → preserves f (modify g).
Proof. intros H s a s' [= _ <-]. apply H. Qed.

Lemma preserves_zoom {U A} (get : S → U) (set : U → S → S) (m : M U A) :
  (∀ u s, f (set u s) = f s) → preserves f (zoom get set m).
Proof.
  intros H s a s'. unfold zoom. destruct (m (get s)) as [[b u]|]; [|done]. intros [= _ <-]. apply H.
Qed.

(** A part of the part that is worked on. *)
Lemma preserves_zoom_in {U V A} (g : U → V) (h : S → V) (get : S → U) (set : U → S → S) (m : M U A) :
  preserves g m → (∀ s, h s = g (get s)) → (∀ u s, get (set u s) = u) → preserves h (zoom get set m).
Proof.
  intros Hm Hh Hs s a s'. unfold zoom. destruct (m (get s)) as [[b u]|] eqn:E; [|done].
  intros [= _ <-]. rewrite !Hh, Hs. by eapply Hm.
Qed.

End preserves.

Create HintDb preserves.
#[export] Hint Resolve preserves_ret preserves_fail preserves_assert preserves_gets preserves_liftR : preserves.
#[export] Hint Extern 1 (preserves _ (modify _)) => apply preserves_modify; intros; reflexivity : preserves.
#[export] Hint Extern 1 (preserves _ (zoom _ _ _)) => apply preserves_zoom; intros; reflexivity : preserves.

(** Walk through a computation, bind by bind and branch by branch. *)
Ltac preserves :=
  cbv zeta;
  repeat first
    [ solve [auto with preserves]
    | apply preserves_bind; [|intros ?]
    | match goal with |- preserves _ (match ?x with _ => _ end) => destruct x end ].
