(* ===== verification/KernelH.v ===== *)
(** The helpers of kernel/include/kernel/kernel.h (repeated in libc/malloc.cpp for
    user programs): [IsPowerOf2], the two [RoundUp] templates, and the scope guard
    [DisableInterruptsRAII] over the CPU's interrupt flag. *)
From S2P Require Import Prelude.

(** [IsPowerOf2<T>]: [x != 0 && ((x & (x - 1)) == 0)]. *)
Definition IsPowerOf2 (x : Z) : bool :=
  negb (x =? 0) && (Z.land x (x - 1) =? 0).

(** [(x + (align - 1)) & ~(align - 1)] in an unsigned type of [w] bits. *)
Definition RoundUp (w x align : Z) : Z :=
  Z.land ((x + (align - 1)) mod 2 ^ w) (Z.lnot (align - 1) mod 2 ^ w).

(** The overload with a run-time alignment asserts it is a power of two. *)
Definition RoundUpChecked {S} (w x align : Z) : M S Z :=
  assert_ (IsPowerOf2 align);; mret (RoundUp w x align).

(** [DisableInterruptsRAII]: remember the flag, clear it for the scope, and set it
    again at the end of the scope only if it was set.  [get]/[set] access the flag
    in the state. *)
Definition DisableInterruptsRAII {S A} (get : S → bool) (set : bool → S → S)
    (scope : M S A) : M S A :=
  interrupts_enabled ← gets get;
  modify (set false);;
  a ← scope;
  (if (interrupts_enabled : bool) then modify (set true) else mret tt);;
  mret a.

(** * Lemmas *)

Lemma IsPowerOf2_pow k : 0 ≤ k → IsPowerOf2 (2 ^ k) = true.
Proof.
  intros Hk. unfold IsPowerOf2. apply andb_true_intro; split.
  - apply negb_true_iff, Z.eqb_neq. lia.
  - apply Z.eqb_eq. rewrite Z.sub_1_r, <- Z.ones_equiv.
    apply Z.bits_inj_0. intros n. destruct (Z.lt_ge_cases n 0) as [Hn|Hn].
    { by apply Z.testbit_neg_r. }
    rewrite Z.land_spec, Z.pow2_bits_eqb, Z.testbit_ones_nonneg by lia.
    destruct (Z.eqb_spec k n), (Z.ltb_spec n k); try done; lia.
Qed.

Lemma IsPowerOf2_inv x : 0 ≤ x → IsPowerOf2 x = true → ∃ k, 0 ≤ k ∧ x = 2 ^ k.
Proof.
  unfold IsPowerOf2. intros Hx [H1 H2]%andb_prop.
  apply negb_true_iff, Z.eqb_neq in H1. apply Z.eqb_eq in H2.
  exists (Z.log2 x). split; [apply Z.log2_nonneg|].
  destruct (Z.log2_spec x) as [Hlo Hhi]; [lia|].
  destruct (Z.eq_dec x (2 ^ Z.log2 x)) as [|Hne]; [done|exfalso].
  assert (0 < 2 ^ Z.log2 x) by (apply Z.pow_pos_nonneg; [lia|apply Z.log2_nonneg]).
  assert (Hb : Z.testbit (Z.land x (x - 1)) (Z.log2 x) = true).
  { rewrite Z.land_spec. rewrite Z.bit_log2 by lia. simpl.
    rewrite <- (Z.bit_log2 (x - 1)) by lia. f_equal.
    symmetry. apply Z.log2_unique; [apply Z.log2_nonneg|lia]. }
  rewrite H2, Z.bits_0 in Hb. done.
Qed.

(** Masking off the low [k] bits is rounding down to a multiple of [2 ^ k]. *)
Lemma land_lnot_ones x k : 0 ≤ k → Z.land x (Z.lnot (2 ^ k - 1)) = x / 2 ^ k * 2 ^ k.
Proof.
  intros Hk. rewrite <- Z.shiftr_div_pow2, <- Z.shiftl_mul_pow2 by lia.
  apply Z.bits_inj'. intros n Hn.
  rewrite Z.land_spec, Z.lnot_spec by lia.
  rewrite Z.sub_1_r, <- Z.ones_equiv, Z.testbit_ones_nonneg by lia.
  destruct (Z.ltb_spec n k).
  - rewrite Z.shiftl_spec_low by lia. by rewrite andb_false_r.
  - rewrite Z.shiftl_spec, Z.shiftr_spec by lia.
    rewrite andb_true_r. f_equal. lia.
Qed.

(** In general the sum wraps before it is rounded down. *)
Lemma RoundUp_wrap w x k : 0 ≤ k < w →
  RoundUp w x (2 ^ k) = (x + (2 ^ k - 1)) mod 2 ^ w / 2 ^ k * 2 ^ k.
Proof.
  intros Hk. unfold RoundUp.
  assert (Hm : 0 < 2 ^ w) by lia.
  pose proof (Z.mod_pos_bound (x + (2 ^ k - 1)) (2 ^ w) Hm) as Hy.
  set (y := (x + (2 ^ k - 1)) mod 2 ^ w) in *.
  rewrite <- land_lnot_ones by lia.
  rewrite <- (Z.land_ones (Z.lnot (2 ^ k - 1)) w) by lia.
  rewrite (Z.land_comm (Z.lnot _)), Z.land_assoc, Z.land_ones by lia.
  rewrite (Z.mod_small y) by lia. done.
Qed.

Lemma RoundUp_spec w x k :
  0 ≤ k < w → 0 ≤ x → x + (2 ^ k - 1) < 2 ^ w →
  RoundUp w x (2 ^ k) = (x + (2 ^ k - 1)) / 2 ^ k * 2 ^ k.
Proof.
  intros Hk Hx Hw. assert (0 < 2 ^ k) by lia.
  rewrite RoundUp_wrap by done. rewrite Z.mod_small by lia. done.
Qed.

(** The rounded value is an aligned upper bound, less than one step above. *)
Lemma RoundUp_bounds w x k :
  0 ≤ k < w → 0 ≤ x → x + (2 ^ k - 1) < 2 ^ w →
  x ≤ RoundUp w x (2 ^ k) < x + 2 ^ k ∧ RoundUp w x (2 ^ k) mod 2 ^ k = 0.
Proof.
  intros Hk Hx Hw. rewrite RoundUp_spec by done.
  assert (0 < 2 ^ k) by lia.
  rewrite Z.mod_mul by lia. split; [|done].
  pose proof (Z.div_mod (x + (2 ^ k - 1)) (2 ^ k)) as E.
  pose proof (Z.mod_pos_bound (x + (2 ^ k - 1)) (2 ^ k)). lia.
Qed.

(** The scope guard leaves the flag as it found it, and the scope runs with
    interrupts off. *)
Lemma DisableInterruptsRAII_Ok {S A} (get : S → bool) (set : bool → S → S)
    (scope : M S A) s a s1 :
  scope (set false s) = Ok (a, s1) →
  DisableInterruptsRAII get set scope s =
    Ok (a, if get s then set true s1 else s1).
Proof.
  intros H. unfold DisableInterruptsRAII. munfold. rewrite H.
  by destruct (get s).
Qed.

Lemma DisableInterruptsRAII_Fault {S A} (get : S → bool) (set : bool → S → S)
    (scope : M S A) s f :
  scope (set false s) = Fault f → DisableInterruptsRAII get set scope s = Fault f.
Proof. intros H. unfold DisableInterruptsRAII. munfold. by rewrite H. Qed.
