(* ===== verification/Pmm.v ===== *)
(** The physical memory manager: kernel/pmm.cpp and kernel/include/kernel/pmm.h.

    State: the number of 4MB pages of the machine and a bitmap of 1024 bits, one per
    page of a 4GB address space, a set bit meaning that the page is in use.  The
    abstract view of the bitmap is the finite set [used_set] of used page numbers. *)
From S2P Require Import Prelude KernelH.

Module Pmm.

(** * Constants (pmm.h) *)
Definition CHAR_BIT : Z := 8.
Definition kPageSize4M : Z := 0x400000.
Definition kNumPageDirEntries : Z := 1024.

(** * State (pmm.cpp, anonymous namespace) *)
Record state := mkState {
  gNum4MPages : Z;
  gPhysicalBitmap : list Z;
}.

Definition set_bitmap (b : list Z) (s : state) : state := mkState (gNum4MPages s) b.

(** * Operations *)

Definition GetNum4MPages : M state Z := gets gNum4MPages.

Definition read_byte (i : Z) : M state Z :=
  bm ← gets gPhysicalBitmap; liftR (aread bm i).

Definition write_byte (i b : Z) : M state unit :=
  bm ← gets gPhysicalBitmap; bm' ← liftR (awrite bm i b); modify (set_bitmap bm').

Definition PageIsUsed (page : Z) : M state bool :=
  assert_ (page <=? kNumPageDirEntries);;
  b ← read_byte (page / CHAR_BIT);
  mret (tobool (Z.land b (Z.shiftl 1 (page mod CHAR_BIT)))).

Definition SetPageUsed (page : Z) : M state unit :=
  used ← PageIsUsed page;
  assert_ (negb used);;
  b ← read_byte (page / CHAR_BIT);
  write_byte (page / CHAR_BIT) (u8 (Z.lor b (Z.shiftl 1 (page mod CHAR_BIT)))).

Definition SetPageFree (page : Z) : M state unit :=
  used ← PageIsUsed page;
  assert_ used;;
  b ← read_byte (page / CHAR_BIT);
  write_byte (page / CHAR_BIT)
    (u8 (Z.land b (Z.lnot (Z.shiftl 1 (page mod CHAR_BIT))))).

(** [num_zero_bits]: the lambda of [GetNumFree4MPages].  A byte is shifted out in at
    most 8 steps, the fuel of its loop. *)
Fixpoint count_ones (fuel : nat) (x n : Z) : Z :=
  match fuel with
  | O => n
  | S fuel => if x =? 0 then n else count_ones fuel (Z.shiftr x 1) (n + Z.land x 1)
  end.

Definition num_zero_bits (x : Z) : Z := count_ones 8 (u8 (Z.lnot x)) 0.

(** The [for] loop of [GetNumFree4MPages] over bytes [i .. i + n - 1]. *)
Fixpoint sum_zero_bits (n : nat) (i num : Z) : M state Z :=
  match n with
  | O => mret num
  | S n => b ← read_byte i; sum_zero_bits n (i + 1) (num + num_zero_bits b)
  end.

Definition GetNumFree4MPages : M state Z :=
  n ← GetNum4MPages;
  num ← sum_zero_bits (Z.to_nat (n / CHAR_BIT)) 0 0;
  if tobool (n mod CHAR_BIT) then
    b ← read_byte (n / CHAR_BIT); mret (num + num_zero_bits b)
  else mret num.

Definition GetNumUsed4MPages : M state Z :=
  available ← GetNumFree4MPages;
  n ← GetNum4MPages;
  assert_ (available <=? n);;
  mret (n - available).

(** [memset(gPhysicalBitmap, v, n)]. *)
Definition memset_bitmap (v : Z) (n : nat) (bm : list Z) : list Z :=
  replicate n v ++ drop n bm.

Definition Initialize (mem_upper : Z) : M state unit :=
  let total_mem := RoundUp 32 (u32 (mem_upper * 1024)) kPageSize4M in
  let n := total_mem / kPageSize4M in
  modify (λ s, mkState n (gPhysicalBitmap s));;
  assert_ (tobool n && (n <=? kNumPageDirEntries));;
  (if n =? kNumPageDirEntries then
     modify (λ s, set_bitmap (memset_bitmap 0 128 (gPhysicalBitmap s)) s)
   else
     modify (λ s, set_bitmap (memset_bitmap 0xFF 128 (gPhysicalBitmap s)) s);;
     modify (λ s, set_bitmap
       (memset_bitmap 0 (Z.to_nat (n / CHAR_BIT + 1)) (gPhysicalBitmap s)) s);;
     write_byte (n / CHAR_BIT)
       (u8 (Z.lnot (Z.shiftl 1 (n mod CHAR_BIT) - 1))));;
  free ← GetNumFree4MPages;
  assert_ (free =? n).

(** The inner [while (x & 1)] loop of [GetNextFreePage] on a byte that is not 0xFF. *)
Fixpoint first_zero_bit (fuel : nat) (x idx : Z) : Z :=
  match fuel with
  | O => idx
  | S fuel => if tobool (Z.land x 1) then first_zero_bit fuel (Z.shiftr x 1) (idx + 1)
              else idx
  end.

(** The outer loop of [GetNextFreePage] from byte [i], [n] bytes left. *)
Fixpoint find_free (n : nat) (i : Z) : M state Z :=
  match n with
  | O => mret (-1)
  | S n =>
      x ← read_byte i;
      if x =? 0xFF then find_free n (i + 1)
      else mret (i * CHAR_BIT + first_zero_bit 8 x 0)
  end.

Definition GetNextFreePage : M state Z :=
  n ← GetNum4MPages; find_free (Z.to_nat (n / CHAR_BIT)) 0.

(** Address arithmetic (pmm.h). *)
Definition AddrToPage (addr : Z) : Z := addr / kPageSize4M.
Definition PageToAddr (page : Z) : Z := u32 (page * kPageSize4M).
Definition PageAddress (addr : Z) : Z := PageToAddr (AddrToPage addr).

(** * Abstraction and invariants *)

(** Whether the bit of page [p] is set. *)
Definition used (s : state) (p : Z) : bool :=
  match nthZ (gPhysicalBitmap s) (p / CHAR_BIT) with
  | Some b => Z.testbit b (p mod CHAR_BIT)
  | None => false
  end.

(** The abstract state: the set of used pages. *)
Definition used_set (s : state) : gset Z :=
  list_to_set (filter (λ p, used s p = true) (seqZ 0 kNumPageDirEntries)).

(** The bitmap has its 128 bytes, each a byte, and the page count is in range. *)
Definition wf (s : state) : Prop :=
  length (gPhysicalBitmap s) = 128%nat ∧ Forall is_u8 (gPhysicalBitmap s) ∧
  0 ≤ gNum4MPages s ≤ kNumPageDirEntries.

(** Pages the machine does not have are marked as used. *)
Definition absent_used (s : state) : Prop :=
  ∀ p, gNum4MPages s ≤ p < kNumPageDirEntries → used s p = true.

(** The pages of the machine that are free, in increasing order. *)
Definition free_pages (s : state) : list Z :=
  filter (λ p, used s p = false) (seqZ 0 (gNum4MPages s)).

(** A state in which every page of the bitmap is free. *)
Definition fresh (n : Z) : state := mkState n (replicate 128 0).

(** * Lemmas *)

Lemma read_byte_Ok s i : wf s → 0 ≤ i < 128 →
  ∃ b, nthZ (gPhysicalBitmap s) i = Some b ∧ is_u8 b ∧ read_byte i s = Ok (b, s).
Proof.
  intros (Hlen & Hb & _) Hi.
  destruct (nthZ_is_Some (gPhysicalBitmap s) i) as [b E]; [lia|].
  exists b. split; [done|]. split.
  - apply nthZ_Some in E as [_ E]. by eapply Forall_lookup_1 in Hb.
  - unfold read_byte. munfold. unfold aread. by rewrite E.
Qed.

Lemma page_byte p : 0 ≤ p < kNumPageDirEntries →
  0 ≤ p / CHAR_BIT < 128 ∧ 0 ≤ p mod CHAR_BIT < 8.
Proof. unfold kNumPageDirEntries, CHAR_BIT. dlia. Qed.

Lemma PageIsUsed_Ok s p : wf s → 0 ≤ p < kNumPageDirEntries →
  PageIsUsed p s = Ok (used s p, s).
Proof.
  intros Hwf Hp. destruct (page_byte p Hp) as [Hi Hk].
  destruct (read_byte_Ok s _ Hwf Hi) as (b & E & _ & Hr).
  unfold PageIsUsed. munfold.
  destruct (Z.leb_spec p kNumPageDirEntries); [|lia]. cbv beta iota.
  rewrite Hr. unfold used. rewrite E. by rewrite tobool_land_bit by lia.
Qed.

(** What changing one byte of the bitmap does to the bits. *)
Lemma used_set_byte s i b p : length (gPhysicalBitmap s) = 128%nat →
  0 ≤ i < 128 → 0 ≤ p →
  used (set_bitmap (<[Z.to_nat i := b]> (gPhysicalBitmap s)) s) p =
    if p / CHAR_BIT =? i then Z.testbit b (p mod CHAR_BIT) else used s p.
Proof.
  intros Hlen Hi Hp. unfold used; simpl.
  assert (0 ≤ p / CHAR_BIT) by (unfold CHAR_BIT; dlia).
  rewrite !nthZ_lookup by done.
  destruct (Z.eqb_spec (p / CHAR_BIT) i) as [<-|Hne].
  - rewrite list_lookup_insert_eq by lia. done.
  - rewrite list_lookup_insert_ne by lia. done.
Qed.

(** Writing a byte keeps the bitmap well-formed. *)
Lemma write_byte_Ok s i b : wf s → 0 ≤ i < 128 → is_u8 b →
  write_byte i b s =
    Ok (tt, set_bitmap (<[Z.to_nat i := b]> (gPhysicalBitmap s)) s) ∧
  wf (set_bitmap (<[Z.to_nat i := b]> (gPhysicalBitmap s)) s).
Proof.
  intros (Hlen & Hb & Hn) Hi H8. split.
  - unfold write_byte. munfold. rewrite awrite_in_range by lia. done.
  - split; [|split]; simpl; [by rewrite length_insert| |done].
    by apply Forall_insert.
Qed.

Lemma same_page p q : 0 ≤ p → 0 ≤ q →
  (q / CHAR_BIT =? p / CHAR_BIT) && (q mod CHAR_BIT =? p mod CHAR_BIT) = (q =? p).
Proof.
  intros Hp Hq. unfold CHAR_BIT.
  destruct (Z.eqb_spec q p) as [->|Hne]; [by rewrite !Z.eqb_refl|].
  destruct (Z.eqb_spec (q / 8) (p / 8)); [|done].
  simpl. apply Z.eqb_neq. dlia.
Qed.

(** Marking a free page: it succeeds and changes exactly that page's bit. *)
Lemma SetPageUsed_Ok s p : wf s → 0 ≤ p < kNumPageDirEntries → used s p = false →
  ∃ s', SetPageUsed p s = Ok (tt, s') ∧ wf s' ∧ gNum4MPages s' = gNum4MPages s ∧
        ∀ q, 0 ≤ q → used s' q = (q =? p) || used s q.
Proof.
  intros Hwf Hp Hu. destruct (page_byte p Hp) as [Hi Hk].
  destruct (read_byte_Ok s _ Hwf Hi) as (b & E & H8 & Hr).
  destruct (write_byte_Ok s _ (u8 (Z.lor b (Z.shiftl 1 (p mod CHAR_BIT)))) Hwf Hi)
    as [Hw Hwf']; [apply u8_range|].
  eexists. split_and!; [|exact Hwf'|done|].
  - unfold SetPageUsed. rewrite (bind_Ok _ _ _ _ _ (PageIsUsed_Ok s p Hwf Hp)), Hu.
    munfold. simpl. by rewrite Hr.
  - intros q Hq. rewrite used_set_byte by (done || apply Hwf).
    rewrite <- (same_page p q) by lia.
    destruct (Z.eqb_spec (q / CHAR_BIT) (p / CHAR_BIT)) as [Eq|]; [|done].
    rewrite testbit_u8 by (unfold CHAR_BIT; dlia).
    rewrite testbit_lor_bit by lia. unfold used. by rewrite Eq, E.
Qed.

Lemma SetPageUsed_used s p : wf s → 0 ≤ p < kNumPageDirEntries → used s p = true →
  SetPageUsed p s = Fault AssertFailed.
Proof.
  intros Hwf Hp Hu. unfold SetPageUsed.
  by rewrite (bind_Ok _ _ _ _ _ (PageIsUsed_Ok s p Hwf Hp)), Hu.
Qed.

Lemma SetPageFree_Ok s p : wf s → 0 ≤ p < kNumPageDirEntries → used s p = true →
  ∃ s', SetPageFree p s = Ok (tt, s') ∧ wf s' ∧ gNum4MPages s' = gNum4MPages s ∧
        ∀ q, 0 ≤ q → used s' q = negb (q =? p) && used s q.
Proof.
  intros Hwf Hp Hu. destruct (page_byte p Hp) as [Hi Hk].
  destruct (read_byte_Ok s _ Hwf Hi) as (b & E & H8 & Hr).
  destruct (write_byte_Ok s _ (u8 (Z.land b (Z.lnot (Z.shiftl 1 (p mod CHAR_BIT))))) Hwf Hi)
    as [Hw Hwf']; [apply u8_range|].
  eexists. split_and!; [|exact Hwf'|done|].
  - unfold SetPageFree. rewrite (bind_Ok _ _ _ _ _ (PageIsUsed_Ok s p Hwf Hp)), Hu.
    munfold. simpl. by rewrite Hr.
  - intros q Hq. rewrite used_set_byte by (done || apply Hwf).
    rewrite <- (same_page p q) by lia.
    destruct (Z.eqb_spec (q / CHAR_BIT) (p / CHAR_BIT)) as [Eq|]; [|done].
    rewrite testbit_u8 by (unfold CHAR_BIT; dlia).
    rewrite testbit_land_lnot_bit by (unfold CHAR_BIT; dlia).
    unfold used. by rewrite Eq, E.
Qed.

Lemma SetPageFree_free s p : wf s → 0 ≤ p < kNumPageDirEntries → used s p = false →
  SetPageFree p s = Fault AssertFailed.
Proof.
  intros Hwf Hp Hu. unfold SetPageFree.
  by rewrite (bind_Ok _ _ _ _ _ (PageIsUsed_Ok s p Hwf Hp)), Hu.
Qed.

Lemma elem_of_used_set s p :
  p ∈ used_set s ↔ 0 ≤ p < kNumPageDirEntries ∧ used s p = true.
Proof.
  unfold used_set. rewrite elem_of_list_to_set, list_elem_of_filter, elem_of_seqZ.
  unfold kNumPageDirEntries. split; intros [? ?]; split; (done || lia).
Qed.

(** ** Counting free pages *)

Lemma num_zero_bits_spec b : is_u8 b →
  num_zero_bits b = Z.of_nat (length (filter (λ k, Z.testbit b k = false) (seqZ 0 8))).
Proof.
  intros Hb. apply Z.eqb_eq. revert b Hb.
  refine (byte_ind (λ b, _ =? Z.of_nat (length (filter _ _))) _).
  vm_compute. reflexivity.
Qed.

(** The free pages among [n] pages from page [a]. *)
Definition num_free_from (s : state) (a n : Z) : Z :=
  Z.of_nat (length (filter (λ p, used s p = false) (seqZ a n))).

Lemma num_free_from_add s a n m : 0 ≤ n → 0 ≤ m →
  num_free_from s a (n + m) = num_free_from s a n + num_free_from s (a + n) m.
Proof.
  intros Hn Hm. unfold num_free_from.
  rewrite seqZ_lookup_filter_count by done. lia.
Qed.

(** One byte of the bitmap counts its eight pages. *)
Lemma num_zero_bits_pages s i b : 0 ≤ i → is_u8 b →
  nthZ (gPhysicalBitmap s) i = Some b →
  num_zero_bits b = num_free_from s (CHAR_BIT * i) CHAR_BIT.
Proof.
  intros Hi Hb E. rewrite num_zero_bits_spec by done. unfold num_free_from. f_equal.
  rewrite (length_filter_seqZ_shift _ (CHAR_BIT * i)). apply list_length_filter_ext.
  intros k [Hk1 Hk2]%elem_of_seqZ. unfold used, CHAR_BIT in *.
  replace ((8 * i + k) / 8) with i by dlia.
  replace ((8 * i + k) mod 8) with k by dlia. by rewrite E.
Qed.

Lemma sum_zero_bits_Ok s n i num : wf s → 0 ≤ i → i + Z.of_nat n ≤ 128 →
  sum_zero_bits n i num s =
    Ok (num + num_free_from s (CHAR_BIT * i) (CHAR_BIT * Z.of_nat n), s).
Proof.
  intros Hwf. revert i num. induction n as [|n IH]; intros i num Hi Hn.
  - simpl. unfold num_free_from, CHAR_BIT. simpl. by rewrite Z.add_0_r.
  - cbn [sum_zero_bits].
    destruct (read_byte_Ok s i Hwf) as (b & E & Hb & Hr); [lia|].
    rewrite (bind_Ok _ _ _ _ _ Hr), IH by lia.
    rewrite (num_zero_bits_pages s i) by done.
    replace (CHAR_BIT * Z.of_nat (S n)) with (CHAR_BIT + CHAR_BIT * Z.of_nat n)
      by (unfold CHAR_BIT; lia).
    rewrite (num_free_from_add s (CHAR_BIT * i) CHAR_BIT) by (unfold CHAR_BIT; lia).
    replace (CHAR_BIT * (i + 1)) with (CHAR_BIT * i + CHAR_BIT) by (unfold CHAR_BIT; lia).
    by rewrite Z.add_assoc.
Qed.

Lemma num_free_from_used s a n : (∀ p, a ≤ p < a + n → used s p = true) →
  num_free_from s a n = 0.
Proof.
  intros H. unfold num_free_from. rewrite length_filter_none; [done|].
  intros p Hp%elem_of_seqZ. rewrite H; [done|lia].
Qed.

Lemma GetNumFree4MPages_Ok s : wf s → absent_used s →
  GetNumFree4MPages s = Ok (Z.of_nat (length (free_pages s)), s).
Proof.
  intros Hwf Habs. pose proof Hwf as (_ & _ & Hn).
  unfold GetNumFree4MPages, GetNum4MPages.
  set (n := gNum4MPages s) in *. unfold kNumPageDirEntries in Hn.
  rewrite (bind_Ok _ _ s n s) by done.
  assert (0 ≤ n / CHAR_BIT ≤ 128) by (unfold CHAR_BIT; dlia).
  erewrite bind_Ok by (apply sum_zero_bits_Ok; [done|lia..]).
  rewrite Z.mul_0_r, Z.add_0_l, Z2Nat.id by lia.
  change (Z.of_nat (length (free_pages s))) with (num_free_from s 0 n). unfold tobool.
  destruct (Z.eqb_spec (n mod CHAR_BIT) 0) as [E0|E0]; simpl.
  - munfold. replace (CHAR_BIT * (n / CHAR_BIT)) with n by (unfold CHAR_BIT in *; dlia).
    done.
  - assert (Hlt : 0 ≤ n / CHAR_BIT < 128) by (unfold CHAR_BIT in *; dlia).
    destruct (read_byte_Ok s _ Hwf Hlt) as (b & E & Hb & Hr).
    rewrite (bind_Ok _ _ _ _ _ Hr). munfold. do 2 f_equal.
    rewrite (num_zero_bits_pages s (n / CHAR_BIT)) by (done || lia).
    pose proof (Z.div_mod n CHAR_BIT ltac:(done)) as Hdm.
    pose proof (Z.mod_pos_bound n CHAR_BIT ltac:(done)) as Hmb.
    set (k := n mod CHAR_BIT) in *. set (q := CHAR_BIT * (n / CHAR_BIT)) in *.
    replace CHAR_BIT with (k + (CHAR_BIT - k)) by lia.
    rewrite (num_free_from_add s q) by lia.
    rewrite (num_free_from_used s (q + k)).
    2: { intros p Hp. apply Habs. fold n. unfold CHAR_BIT, kNumPageDirEntries in *.
         subst q; dlia. }
    assert (Hq : 0 ≤ q) by (subst q; unfold CHAR_BIT in *; lia).
    pose proof (num_free_from_add s 0 q k Hq) as Ha. rewrite Z.add_0_l in Ha.
    by rewrite Z.add_0_r, <- Ha, <- Hdm by lia.
Qed.

(** ** The search for a free page *)

Lemma first_zero_bit_spec b : is_u8 b → b ≠ 0xFF →
  let k := first_zero_bit 8 b 0 in
  0 ≤ k < 8 ∧ Z.testbit b k = false ∧ ∀ j, 0 ≤ j < k → Z.testbit b j = true.
Proof.
  intros Hb Hff k.
  assert (H : ((b =? 0xFF) || ((0 <=? k) && (k <? 8) && negb (Z.testbit b k) &&
              forallb (Z.testbit b) (seqZ 0 k))) = true).
  { subst k. clear Hff. revert b Hb.
    refine (byte_ind (λ b, _ || (_ && _ && _ && forallb _ _)) _).
    vm_compute. reflexivity. }
  apply orb_prop in H as [H%Z.eqb_eq|H]; [done|].
  apply andb_prop in H as [[[Hlo Hhi]%andb_prop Hk]%andb_prop Hall].
  apply negb_true_iff in Hk. rewrite forallb_forall in Hall.
  split_and!; [lia..|done|]. intros j Hj. apply Hall.
  apply list_elem_of_In, elem_of_seqZ. lia.
Qed.

Lemma byte_full_used s i p : nthZ (gPhysicalBitmap s) i = Some 0xFF →
  CHAR_BIT * i ≤ p < CHAR_BIT * i + CHAR_BIT → used s p = true.
Proof.
  intros E Hp. unfold used, CHAR_BIT in *.
  replace (p / 8) with i by dlia. rewrite E.
  change 0xFF with (Z.ones 8). rewrite Z.testbit_ones_nonneg; dlia.
Qed.

Lemma find_free_Ok s n i : wf s → 0 ≤ i → i + Z.of_nat n ≤ 128 →
  ∃ r, find_free n i s = Ok (r, s) ∧
    ((r = -1 ∧
      ∀ p, CHAR_BIT * i ≤ p < CHAR_BIT * (i + Z.of_nat n) → used s p = true) ∨
     (CHAR_BIT * i ≤ r < CHAR_BIT * (i + Z.of_nat n) ∧ used s r = false ∧
      ∀ p, CHAR_BIT * i ≤ p < r → used s p = true)).
Proof.
  intros Hwf. revert i. induction n as [|n IH]; intros i Hi Hn.
  { exists (-1). split; [done|]. left. split; [done|]. lia. }
  cbn [find_free]. destruct (read_byte_Ok s i Hwf) as (b & E & Hb & Hr); [lia|].
  setoid_rewrite (bind_Ok _ _ _ _ _ Hr).
  destruct (Z.eqb_spec b 0xFF) as [->|Hff].
  - destruct (IH (i + 1)) as (r & -> & Hcase); [lia..|]. exists r. split; [done|].
    assert (Hfull : ∀ p, CHAR_BIT * i ≤ p < CHAR_BIT * (i + 1) → used s p = true).
    { intros p Hp. apply (byte_full_used s i); [done|unfold CHAR_BIT in *; lia]. }
    destruct Hcase as [[-> Hall]|(Hr1 & Hr2 & Hall)]; [left|right].
    + split; [done|]. intros p Hp. destruct (Z.lt_ge_cases p (CHAR_BIT * (i + 1))).
      * apply Hfull. lia.
      * apply Hall. lia.
    + split_and!; [unfold CHAR_BIT in *; lia..|done|]. intros p Hp.
      destruct (Z.lt_ge_cases p (CHAR_BIT * (i + 1))).
      * apply Hfull. lia.
      * apply Hall. lia.
  - eexists. split; [reflexivity|]. right.
    destruct (first_zero_bit_spec b Hb Hff) as (Hk & Hz & Hones).
    set (k := first_zero_bit 8 b 0) in *. unfold used, CHAR_BIT in *.
    split_and!; [lia..| |].
    + replace ((i * 8 + k) / 8) with i by dlia.
      replace ((i * 8 + k) mod 8) with k by dlia. by rewrite E.
    + intros p Hp. replace (p / 8) with i by dlia. rewrite E. apply Hones. dlia.
Qed.

(** The highest page number the search looks at: the last bytes of a page count that
    is not a multiple of eight are left out. *)
Definition searched_pages (s : state) : Z := CHAR_BIT * (gNum4MPages s / CHAR_BIT).

(** [GetNextFreePage] never fails and never changes the bitmap.  It returns the
    lowest free page among the pages that fill whole bytes of the bitmap, or -1 when
    all of those are used; pages after the last multiple of eight are not
    considered. *)
Lemma GetNextFreePage_Ok s : wf s →
  ∃ r, GetNextFreePage s = Ok (r, s) ∧
    ((r = -1 ∧ ∀ p, 0 ≤ p < searched_pages s → used s p = true) ∨
     (0 ≤ r < searched_pages s ∧ used s r = false ∧
      ∀ p, 0 ≤ p < r → used s p = true)).
Proof.
  intros Hwf. pose proof Hwf as (_ & _ & Hn). unfold kNumPageDirEntries in Hn.
  unfold GetNextFreePage, GetNum4MPages.
  setoid_rewrite (bind_Ok _ _ s (gNum4MPages s) s); [|done].
  assert (0 ≤ gNum4MPages s / CHAR_BIT ≤ 128) by (unfold CHAR_BIT; dlia).
  destruct (find_free_Ok s (Z.to_nat (gNum4MPages s / CHAR_BIT)) 0 Hwf)
    as (r & Hr & Hcase); [lia..|].
  exists r. split; [done|]. unfold searched_pages.
  rewrite Z.add_0_l, Z.mul_0_r, Z2Nat.id in Hcase by lia. done.
Qed.

(** ** Initialisation *)

Lemma total_pages_lt x : is_u32 x → RoundUp 32 x kPageSize4M / kPageSize4M < kNumPageDirEntries.
Proof.
  intros Hx. change kPageSize4M with (2 ^ 22). rewrite RoundUp_wrap by lia.
  rewrite Z.div_mul by lia. unfold kNumPageDirEntries.
  pose proof (Z.mod_pos_bound (x + (2 ^ 22 - 1)) (2 ^ 32)). dlia.
Qed.

(** The page count of [Initialize]: the memory size in 4MB units, rounded up. *)
Definition num_pages (mem_upper : Z) : Z := (mem_upper * 1024 + (kPageSize4M - 1)) / kPageSize4M.

Lemma num_pages_Initialize m : 0 < m → m * 1024 ≤ 2 ^ 32 - kPageSize4M →
  RoundUp 32 (u32 (m * 1024)) kPageSize4M / kPageSize4M = num_pages m ∧
  0 < num_pages m < kNumPageDirEntries.
Proof.
  unfold num_pages, kNumPageDirEntries. change kPageSize4M with (2 ^ 22). intros Hm Hle.
  rewrite u32_id by (unfold is_u32; lia).
  rewrite RoundUp_spec by lia. rewrite Z.div_mul by lia. split; [done|dlia].
Qed.

(** The bitmap [Initialize] builds for [n] pages. *)
Definition init_bitmap (n : Z) : list Z :=
  replicate (Z.to_nat (n / CHAR_BIT)) 0 ++
  [u8 (Z.lnot (Z.shiftl 1 (n mod CHAR_BIT) - 1))] ++
  replicate (Z.to_nat (127 - n / CHAR_BIT)) 0xFF.

Lemma init_bitmap_nth n i : 0 ≤ n < kNumPageDirEntries → 0 ≤ i < 128 →
  nthZ (init_bitmap n) i =
    Some (if i <? n / CHAR_BIT then 0
          else if i =? n / CHAR_BIT then u8 (Z.lnot (Z.shiftl 1 (n mod CHAR_BIT) - 1))
          else 0xFF).
Proof.
  unfold kNumPageDirEntries. intros Hn Hi. rewrite nthZ_lookup by lia. unfold init_bitmap.
  assert (0 ≤ n / CHAR_BIT < 128) by (unfold CHAR_BIT; dlia).
  destruct (Z.ltb_spec i (n / CHAR_BIT)).
  - rewrite lookup_app_l by (rewrite length_replicate; lia).
    rewrite lookup_replicate. split; [done|lia].
  - rewrite lookup_app_r by (rewrite length_replicate; lia).
    rewrite length_replicate. destruct (Z.eqb_spec i (n / CHAR_BIT)) as [->|].
    + by rewrite Nat.sub_diag.
    + rewrite lookup_app_r by (simpl; lia). rewrite lookup_replicate.
      split; [done|]. simpl. lia.
Qed.

Lemma init_byte_bit k j : 0 ≤ k < 8 → 0 ≤ j < 8 →
  Z.testbit (u8 (Z.lnot (Z.shiftl 1 k - 1))) j = (k <=? j).
Proof.
  intros Hk Hj. rewrite testbit_u8, Z.lnot_spec by lia.
  rewrite Z.shiftl_1_l, Z.sub_1_r, <- Z.ones_equiv, Z.testbit_ones_nonneg by lia.
  destruct (Z.leb_spec k j), (Z.ltb_spec j k); (done || lia).
Qed.

Lemma init_wf n : 0 ≤ n < kNumPageDirEntries → wf (mkState n (init_bitmap n)).
Proof.
  unfold kNumPageDirEntries. intros Hn.
  assert (0 ≤ n / CHAR_BIT < 128) by (unfold CHAR_BIT; dlia).
  unfold wf, init_bitmap, kNumPageDirEntries; simpl. split_and!; [|  |lia..].
  - rewrite length_app, length_replicate. simpl. rewrite length_replicate. lia.
  - apply Forall_app. split; [by apply Forall_replicate|].
    apply Forall_cons. split; [apply u8_range|by apply Forall_replicate].
Qed.

(** In the initial bitmap a page is used exactly when the machine does not have it. *)
Lemma init_used n p : 0 ≤ n < kNumPageDirEntries → 0 ≤ p < kNumPageDirEntries →
  used (mkState n (init_bitmap n)) p = (n <=? p).
Proof.
  intros Hn Hp. destruct (page_byte p Hp) as [Hi Hk]. unfold used; simpl.
  rewrite init_bitmap_nth by done. unfold CHAR_BIT, kNumPageDirEntries in *.
  destruct (Z.ltb_spec (p / 8) (n / 8)).
  { rewrite Z.bits_0. symmetry. apply Z.leb_gt. dlia. }
  destruct (Z.eqb_spec (p / 8) (n / 8)) as [E|].
  - rewrite init_byte_bit by dlia.
    destruct (Z.leb_spec (n mod 8) (p mod 8)), (Z.leb_spec n p); (done || dlia).
  - change 0xFF with (Z.ones 8). rewrite Z.testbit_ones_nonneg by lia.
    destruct (Z.ltb_spec (p mod 8) 8), (Z.leb_spec n p); (done || dlia).
Qed.

Lemma length_free_pages_init n : 0 ≤ n < kNumPageDirEntries →
  Z.of_nat (length (free_pages (mkState n (init_bitmap n)))) = n.
Proof.
  intros Hn. unfold free_pages; simpl.
  rewrite length_filter_all; [rewrite length_seqZ; lia|].
  intros p Hp%elem_of_seqZ. rewrite init_used by lia.
  apply Z.leb_gt. lia.
Qed.

Lemma memset_bitmap_all v bm : length bm = 128%nat →
  memset_bitmap v 128 bm = replicate 128 v.
Proof. intros H. unfold memset_bitmap. rewrite drop_ge by lia. by rewrite app_nil_r. Qed.

(** The two [memset]s and the byte in between build [init_bitmap]. *)
Lemma init_bitmap_build n : 0 ≤ n < kNumPageDirEntries →
  <[Z.to_nat (n / CHAR_BIT) := u8 (Z.lnot (Z.shiftl 1 (n mod CHAR_BIT) - 1))]>
    (memset_bitmap 0 (Z.to_nat (n / CHAR_BIT + 1)) (replicate 128 0xFF)) = init_bitmap n.
Proof.
  intros Hn.
  assert (Hq : 0 ≤ n / CHAR_BIT < 128)
    by (unfold CHAR_BIT, kNumPageDirEntries in *; dlia).
  unfold memset_bitmap, init_bitmap.
  set (q := n / CHAR_BIT) in *. set (b := u8 _). clearbody q b.
  replace (Z.to_nat (q + 1)) with (S (Z.to_nat q)) by lia.
  rewrite drop_replicate, replicate_S_end, <- app_assoc.
  rewrite insert_app_r_alt by (rewrite length_replicate; lia).
  rewrite length_replicate, Nat.sub_diag. cbn [app]. f_equal.
  cbn [insert list_insert]. f_equal. f_equal. lia.
Qed.

Lemma Initialize_Ok s m : length (gPhysicalBitmap s) = 128%nat →
  0 < m → m * 1024 ≤ 2 ^ 32 - kPageSize4M →
  Initialize m s = Ok (tt, mkState (num_pages m) (init_bitmap (num_pages m))).
Proof.
  intros Hlen Hm Hle. destruct (num_pages_Initialize m Hm Hle) as [Hn Hpos].
  unfold Initialize. rewrite Hn. set (n := num_pages m) in *. clearbody n.
  munfold. unfold tobool.
  destruct (Z.eqb_spec n 0); [lia|]. destruct (Z.leb_spec n kNumPageDirEntries); [|lia].
  destruct (Z.eqb_spec n kNumPageDirEntries); [lia|]. simpl.
  unfold set_bitmap; simpl. rewrite (memset_bitmap_all _ _ Hlen).
  assert (Hq : 0 ≤ n / CHAR_BIT < 128)
    by (unfold CHAR_BIT, kNumPageDirEntries in *; dlia).
  unfold write_byte. munfold. simpl.
  rewrite awrite_in_range.
  2: { unfold memset_bitmap. rewrite length_app, length_drop, !length_replicate. lia. }
  unfold set_bitmap; simpl. rewrite init_bitmap_build by lia.
  rewrite GetNumFree4MPages_Ok.
  - rewrite length_free_pages_init by lia. by rewrite Z.eqb_refl.
  - apply init_wf. lia.
  - intros p Hp; simpl in Hp. rewrite init_used by lia. lia.
Qed.


Lemma used_set_add s s' p : 0 ≤ p < kNumPageDirEntries →
  (∀ q, 0 ≤ q → used s' q = (q =? p) || used s q) →
  used_set s' = {[p]} ∪ used_set s.
Proof.
  intros Hp Hq. apply set_eq. intros q.
  rewrite elem_of_union, elem_of_singleton, !elem_of_used_set.
  destruct (decide (0 ≤ q < kNumPageDirEntries)) as [H|]; [|naive_solver lia].
  rewrite Hq by lia. destruct (Z.eqb_spec q p); simpl; naive_solver lia.
Qed.

Lemma used_set_remove s s' p :
  (∀ q, 0 ≤ q → used s' q = negb (q =? p) && used s q) →
  used_set s' = used_set s ∖ {[p]}.
Proof.
  intros Hq. apply set_eq. intros q.
  rewrite elem_of_difference, elem_of_singleton, !elem_of_used_set.
  destruct (decide (0 ≤ q < kNumPageDirEntries)) as [H|]; [|naive_solver lia].
  rewrite Hq by lia. destruct (Z.eqb_spec q p); simpl; naive_solver lia.
Qed.

(** * Properties *)

(** C24: on a well-formed bitmap the three bit operations implement a set of page
    numbers.  [PageIsUsed] decides membership; [SetPageUsed] adds a page that is not
    in the set, [SetPageFree] removes one that is, each leaving every other page and
    the page count as they were and the bitmap well-formed; marking a used page or
    releasing a free one fails the assertion and nothing else does. *)
Theorem bitmap_implements_set s p :
  wf s → 0 ≤ p < kNumPageDirEntries →
  PageIsUsed p s = Ok (bool_decide (p ∈ used_set s), s) ∧
  match SetPageUsed p s with
  | Ok (_, s') => (p ∉ used_set s) ∧ used_set s' = {[p]} ∪ used_set s ∧ wf s' ∧
                  gNum4MPages s' = gNum4MPages s
  | Fault f => p ∈ used_set s ∧ f = AssertFailed
  end ∧
  match SetPageFree p s with
  | Ok (_, s') => p ∈ used_set s ∧ used_set s' = used_set s ∖ {[p]} ∧ wf s' ∧
                  gNum4MPages s' = gNum4MPages s
  | Fault f => (p ∉ used_set s) ∧ f = AssertFailed
  end.
Proof.
  intros Hwf Hp.
  assert (Hin : p ∈ used_set s ↔ used s p = true) by (rewrite elem_of_used_set; tauto).
  split; [|destruct (used s p) eqn:Hu; split].
  - rewrite PageIsUsed_Ok by done. do 2 f_equal.
    destruct (used s p); symmetry; [by apply bool_decide_eq_true, Hin|].
    apply bool_decide_eq_false. by rewrite Hin.
  - rewrite SetPageUsed_used by done. split; [by apply Hin|done].
  - destruct (SetPageFree_Ok s p Hwf Hp Hu) as (s' & -> & Hwf' & Hn & Hq).
    split_and!; [by apply Hin|by apply used_set_remove|done..].
  - destruct (SetPageUsed_Ok s p Hwf Hp Hu) as (s' & -> & Hwf' & Hn & Hq).
    split_and!; [by rewrite Hin|by apply used_set_add|done..].
  - rewrite SetPageFree_free by done. split; [by rewrite Hin|done].
Qed.

(** A machine with 20 pages, all free but page 3. *)
Definition example_state : state := mkState 20 (8 :: 0 :: 0xF0 :: replicate 125 0xFF).

Lemma example_wf : wf example_state.
Proof.
  split_and!; [done| |done..]. repeat (apply Forall_cons; split; [done|]). done.
Qed.

Lemma bitmap_implements_set_witness :
  SetPageUsed 3 example_state = Fault AssertFailed ∧ 3 ∈ used_set example_state ∧
  ∃ s', SetPageFree 3 example_state = Ok (tt, s') ∧
        used_set s' = used_set example_state ∖ {[3]}.
Proof.
  destruct (bitmap_implements_set example_state 3 example_wf) as (H1 & H2 & H3);
    [done|].
  assert (E : SetPageUsed 3 example_state = Fault AssertFailed) by reflexivity.
  rewrite E in H2. split_and!; [exact E|apply H2|].
  destruct (SetPageFree 3 example_state) as [[[] s']|f] eqn:E3; [|by vm_compute in E3].
  destruct H3 as (_ & H3 & _). exists s'. split; [reflexivity|exact H3].
Defined.

(** On a well-formed bitmap whose pages beyond the machine's memory are marked as
    used, [GetNumFree4MPages] returns the number of the machine's pages whose bit is
    clear, [GetNumUsed4MPages] the number whose bit is set, and neither fails or
    changes the state. *)
Lemma page_counts s :
  wf s → absent_used s →
  GetNumFree4MPages s = Ok (Z.of_nat (length (free_pages s)), s) ∧
  GetNumUsed4MPages s =
    Ok (Z.of_nat (length (filter (λ p, used s p = true) (seqZ 0 (gNum4MPages s)))), s).
Proof.
  intros Hwf Habs. split; [by apply GetNumFree4MPages_Ok|].
  unfold GetNumUsed4MPages. rewrite (bind_Ok _ _ _ _ _ (GetNumFree4MPages_Ok s Hwf Habs)).
  assert (Hsum : (length (free_pages s) +
      length (filter (λ p, used s p = true) (seqZ 0 (gNum4MPages s))) =
      Z.to_nat (gNum4MPages s))%nat).
  { unfold free_pages. rewrite <- (length_seqZ 0 (gNum4MPages s)).
    induction (seqZ 0 (gNum4MPages s)) as [|q l IH]; [done|].
    rewrite !filter_cons. destruct (used s q); simpl; lia. }
  destruct Hwf as (_ & _ & Hn). unfold GetNum4MPages. munfold.
  destruct (Z.leb_spec (Z.of_nat (length (free_pages s))) (gNum4MPages s)); [|lia].
  do 2 f_equal. lia.
Qed.

(** [Initialize] on a memory size (in KB) between 1KB and 4GB - 4MB succeeds
    whatever the bitmap held: the page count is the size in 4MB units rounded up,
    every page of the machine is free and every other page of the address space is
    used, so its own final check of the free count passes. *)
Lemma Initialize_frees_memory s m :
  length (gPhysicalBitmap s) = 128%nat → 0 < m → m * 1024 ≤ 2 ^ 32 - kPageSize4M →
  ∃ s', Initialize m s = Ok (tt, s') ∧ wf s' ∧
        gNum4MPages s' = (m * 1024 + (kPageSize4M - 1)) / kPageSize4M ∧
        ∀ p, 0 ≤ p < kNumPageDirEntries → used s' p = (gNum4MPages s' <=? p).
Proof.
  intros Hlen Hm Hle. destruct (num_pages_Initialize m Hm Hle) as [_ Hn].
  eexists. split; [by apply Initialize_Ok|].
  split_and!; [apply init_wf; lia|done|]. intros p Hp.
  apply (init_used (num_pages m)); [lia|done].
Qed.

(** The search misses the pages of a partly filled last byte: a machine with fewer
    than eight pages gets "no free page" with all its pages free. *)
Lemma GetNextFreePage_misses_last_byte n : 0 < n < 8 →
  GetNextFreePage (fresh n) = Ok (-1, fresh n) ∧ used (fresh n) 0 = false.
Proof.
  intros Hn. split; [|done]. unfold GetNextFreePage, GetNum4MPages, fresh. munfold. simpl.
  replace (n / CHAR_BIT) with 0 by (unfold CHAR_BIT; dlia). done.
Qed.

(** Memory in the last 4MB of the address space makes the rounded size wrap to zero:
    [Initialize] stops at its assertion, and the branch for a full address space
    cannot be taken (see [total_pages_lt]). *)
Lemma Initialize_last_page_fails s m :
  2 ^ 32 - kPageSize4M < m * 1024 < 2 ^ 32 → Initialize m s = Fault AssertFailed.
Proof.
  intros Hm. unfold Initialize.
  replace (RoundUp 32 (u32 (m * 1024)) kPageSize4M / kPageSize4M) with 0; [done|].
  change kPageSize4M with (2 ^ 22) in *. rewrite u32_id by (unfold is_u32; lia).
  rewrite RoundUp_wrap by lia. rewrite Z.div_mul by lia. dlia.
Qed.

(** The size in bytes is computed modulo 4GB. *)
Lemma Initialize_modulo s m : Initialize m s = Initialize (m mod 2 ^ 22) s.
Proof.
  unfold Initialize. replace (u32 (m * 1024)) with (u32 (m mod 2 ^ 22 * 1024)); [done|].
  unfold u32. change (2 ^ 32) with (2 ^ 22 * 1024). by rewrite !Z.mul_mod_distr_r, Z.mod_mod by done.
Qed.

(** C27: How much memory the kernel sees, for every 32-bit value that the boot loader can
    report.  The size in bytes wraps at 4GB.  When the wrapped size is 0, or within the last 4MB
    of the address space, [Initialize] stops at its assertion.  Otherwise it succeeds: the page
    count is between 1 and 1023 and the least that covers the size, and exactly the pages below
    it are free. *)
Theorem Initialize_bounds s m :
  length (gPhysicalBitmap s) = 128%nat → is_u32 m →
  let bytes := u32 (m * 1024) in
  if (0 <? bytes) && (bytes <=? 2 ^ 32 - kPageSize4M) then
    ∃ s', Initialize m s = Ok (tt, s') ∧ wf s' ∧ 1 ≤ gNum4MPages s' ≤ 1023 ∧
      (gNum4MPages s' - 1) * kPageSize4M < bytes ≤ gNum4MPages s' * kPageSize4M ∧
      ∀ p, 0 ≤ p < kNumPageDirEntries → used s' p = (gNum4MPages s' <=? p)
  else Initialize m s = Fault AssertFailed.
Proof.
  intros Hl Hm bytes. set (m' := m mod 2 ^ 22).
  assert (E : bytes = m' * 1024) by (unfold bytes, u32, m'; change (2 ^ 32) with (2 ^ 22 * 1024); by rewrite Z.mul_mod_distr_r).
  assert (Hm' : 0 ≤ m' < 2 ^ 22) by (apply Z.mod_pos_bound; done). rewrite Initialize_modulo. fold m'.
  destruct (Z.ltb_spec 0 bytes); cbn [andb].
  - destruct (Z.leb_spec bytes (2 ^ 32 - kPageSize4M)) as [Hle|Hgt]; [|apply Initialize_last_page_fails; lia].
    rewrite E in Hle. destruct (Initialize_frees_memory s m' Hl ltac:(lia) Hle) as (s' & Hrun & Hwf & Hn & Hu).
    exists s'. split; [exact Hrun|]. split; [exact Hwf|]. rewrite Hn, E. unfold kPageSize4M in *. split; [dlia|]. split; [dlia|]. by rewrite <- Hn.
  - replace m' with 0 by lia. done.
Qed.

Lemma Initialize_bounds_witness : ∃ s', Initialize (2 ^ 22 + 130048) (fresh 0) = Ok (tt, s') ∧ gNum4MPages s' ≤ 1023.
Proof.
  pose proof (Initialize_bounds (fresh 0) (2 ^ 22 + 130048) eq_refl ltac:(split; done)) as H.
  change ((0 <? u32 ((2 ^ 22 + 130048) * 1024)) && (u32 ((2 ^ 22 + 130048) * 1024) <=? 2 ^ 32 - kPageSize4M)) with true in H.
  destruct H as (s' & Hrun & _ & Hn & _). exists s'. split; [exact Hrun|apply Hn].
Defined.

(** An address and its page: the round trip through the page number is the start of
    the page. *)
Lemma PageAddress_spec a : is_u32 a → PageAddress a = a - a mod kPageSize4M.
Proof.
  intros Ha. unfold is_u32 in Ha. unfold PageAddress, PageToAddr, AddrToPage, kPageSize4M.
  rewrite u32_id by (unfold is_u32; dlia). dlia.
Qed.

Lemma AddrToPage_PageToAddr p : 0 ≤ p < kNumPageDirEntries → AddrToPage (PageToAddr p) = p.
Proof.
  unfold kNumPageDirEntries. intros Hp. unfold AddrToPage, PageToAddr, kPageSize4M.
  rewrite u32_id by (unfold is_u32; lia). dlia.
Qed.

Lemma PageToAddr_aligned p : 0 ≤ p < kNumPageDirEntries → PageToAddr p mod kPageSize4M = 0.
Proof.
  unfold kNumPageDirEntries. intros Hp. unfold PageToAddr, kPageSize4M.
  rewrite u32_id by (unfold is_u32; lia). dlia.
Qed.

End Pmm.
