(* ===== verification/Paging.v ===== *)
(** Page directories and memory access through them: kernel/paging.cpp and
    kernel/include/kernel/paging.h.

    The state is the part of the machine this code works on: the physical memory
    manager, the live [PageDirectory4M] objects by address (1024 entries each), the
    pointer [gCurrentPageDir], the control registers, the interrupt flag and the bytes
    of physical memory.  Every memory access of the kernel goes through the current
    page directory ([translate] is the processor's walk of a directory of 4MB pages);
    the TLB is not modelled. *)
From S2P Require Import Prelude KernelH Pmm.

Module Paging.
Import Pmm.

(** * Constants (paging.h) *)
Definition PG_PRESENT : Z := 0x1.
Definition PG_WRITE : Z := 0x2.
Definition PG_USER : Z := 0x4.
Definition PG_PWT : Z := 0x8.
Definition PG_PCD : Z := 0x10.
Definition PG_4MB : Z := 0x80.
Definition PG_GLOBAL : Z := 0x100.
Definition kPageMask4M : Z := u32 (Z.lnot 0x3FFFFF).

(** * State *)
Record machine := mkMachine {
  pmm : Pmm.state;
  pds : gmap Z (list Z);
  gKernelPageDir : Z;
  gCurrentPageDir : Z;
  cr0 : Z;
  cr4 : Z;
  iflag : bool;
  mem : gmap Z Z;
}.

Definition set_pmm x (s : machine) := mkMachine x (pds s) (gKernelPageDir s)
  (gCurrentPageDir s) (cr0 s) (cr4 s) (iflag s) (mem s).
Definition set_pds x (s : machine) := mkMachine (pmm s) x (gKernelPageDir s)
  (gCurrentPageDir s) (cr0 s) (cr4 s) (iflag s) (mem s).
Definition set_current x (s : machine) := mkMachine (pmm s) (pds s) (gKernelPageDir s)
  x (cr0 s) (cr4 s) (iflag s) (mem s).
Definition set_crs x y (s : machine) := mkMachine (pmm s) (pds s) (gKernelPageDir s)
  (gCurrentPageDir s) x y (iflag s) (mem s).
Definition set_iflag x (s : machine) := mkMachine (pmm s) (pds s) (gKernelPageDir s)
  (gCurrentPageDir s) (cr0 s) (cr4 s) x (mem s).
Definition set_mem x (s : machine) := mkMachine (pmm s) (pds s) (gKernelPageDir s)
  (gCurrentPageDir s) (cr0 s) (cr4 s) (iflag s) x.

(** Calls into the physical memory manager. *)
Definition in_pmm {A} (m : M Pmm.state A) : M machine A := zoom pmm set_pmm m.

(** * Page directory objects *)

(** Dereference a [PageDirectory4M *]. *)
Definition get_pd (this : Z) : M machine (list Z) :=
  t ← gets pds;
  match t !! this with Some pd => mret pd | None => fail BadPointer end.

Definition put_pd (this : Z) (pd : list Z) : M machine unit :=
  modify (λ s, set_pds (<[this := pd]> (pds s)) s).

Definition getPDE (this vaddr : Z) : M machine Z :=
  assert_ (vaddr mod kPageSize4M =? 0);;
  pd ← get_pd this;
  liftR (aread pd (vaddr / kPageSize4M)).

(** Assignment through the reference [getPDE] returns. *)
Definition setPDE (this vaddr v : Z) : M machine unit :=
  assert_ (vaddr mod kPageSize4M =? 0);;
  pd ← get_pd this;
  pd' ← liftR (awrite pd (vaddr / kPageSize4M) v);
  put_pd this pd'.

(** The entry [MapPage] stores; [flags] is a byte. *)
Definition new_pde (paddr flags : Z) : Z :=
  Z.lor paddr (Z.lor (Z.lor (Z.lor PG_PRESENT PG_4MB) PG_WRITE) flags).

Definition MapPage (this vaddr paddr flags : Z) : M machine unit :=
  DisableInterruptsRAII iflag set_iflag (
    assert_ (paddr mod kPageSize4M =? 0);;
    pde ← getPDE this vaddr;
    assert_ (negb (tobool (Z.land pde PG_PRESENT)));;
    setPDE this vaddr (new_pde paddr flags);;
    assert_ (negb (tobool (Z.land (new_pde paddr flags) PG_GLOBAL)))).

Definition UnmapPage (this vaddr : Z) : M machine unit :=
  DisableInterruptsRAII iflag set_iflag (
    pde ← getPDE this vaddr;
    assert_ (tobool (Z.land pde PG_PRESENT));;
    setPDE this vaddr 0).

Definition VaddrIsMapped (this vaddr : Z) : M machine bool :=
  pde ← getPDE this vaddr; mret (tobool (Z.land pde PG_PRESENT)).

Definition Clear (this : Z) : M machine unit :=
  get_pd this;; put_pd this (replicate 1024 0).

(** [n += !bool(pd_impl_[i] & PG_PRESENT)] over the entries. *)
Fixpoint count_free (pd : list Z) (n : Z) : Z :=
  match pd with
  | [] => n
  | pde :: pd => count_free pd (n + (if tobool (Z.land pde PG_PRESENT) then 0 else 1))
  end.

Definition getNumFreeVPages (this : Z) : M machine Z :=
  pd ← get_pd this; mret (count_free pd 0).

(** The loop of [getNextFreePage] at index [i] with [n] entries left. *)
Fixpoint next_free (n : nat) (i : Z) (pd : list Z) : result Z :=
  match n with
  | O => Ok (-1)
  | S n => pde ← aread pd i;
           if tobool (Z.land pde PG_PRESENT) then next_free n (i + 1) pd else Ok i
  end.

Definition getNextFreePage (this lower_bound : Z) : M machine Z :=
  pd ← get_pd this;
  liftR (next_free (Z.to_nat (kNumPageDirEntries - lower_bound)) lower_bound pd).

(** [new PageDirectory4M( *this)]; [addr] is what the allocator returned. *)
Definition Clone (addr this : Z) : M machine Z :=
  pd ← get_pd this;
  assert_ (tobool addr);;
  put_pd addr pd;; mret addr.

Definition getPhysicalAddr (this vaddr : Z) : M machine Z :=
  pde ← getPDE this vaddr;
  assert_ (tobool (Z.land pde PG_PRESENT));;
  mret (Z.land pde kPageMask4M).

Definition GetCurrentPageDirectory : M machine Z := gets gCurrentPageDir.
Definition GetKernelPageDirectory : M machine Z := gets gKernelPageDir.
Definition SwitchPageDirectory (pd : Z) : M machine unit := modify (set_current pd).

Definition isKernelPageDir (this : Z) : M machine bool :=
  cur ← GetCurrentPageDirectory; mret (this =? cur).

(** * Memory through the current page directory *)

(** The processor's translation with 4MB pages. *)
Definition translate (pd : list Z) (vaddr : Z) : option Z :=
  match nthZ pd (vaddr / kPageSize4M) with
  | Some pde => if tobool (Z.land pde PG_PRESENT)
                then Some (Z.land pde kPageMask4M + vaddr mod kPageSize4M)
                else None
  | None => None
  end.

Definition phys (vaddr : Z) : M machine Z :=
  cur ← GetCurrentPageDirectory;
  pd ← get_pd cur;
  match translate pd vaddr with Some p => mret p | None => fail PageFault end.

Definition byte_at (m : gmap Z Z) (p : Z) : Z := default 0 (m !! p).

Definition load8 (vaddr : Z) : M machine Z :=
  p ← phys vaddr; gets (λ s, byte_at (mem s) p).

Definition store8 (vaddr b : Z) : M machine unit :=
  p ← phys vaddr; modify (λ s, set_mem (<[p := u8 b]> (mem s)) s).

Definition load32 (vaddr : Z) : M machine Z :=
  b0 ← load8 vaddr; b1 ← load8 (u32 (vaddr + 1));
  b2 ← load8 (u32 (vaddr + 2)); b3 ← load8 (u32 (vaddr + 3));
  mret (b0 + Z.shiftl b1 8 + Z.shiftl b2 16 + Z.shiftl b3 24).

(** [memcpy] of libc/string.cpp: [num] bytes, upwards, one at a time. *)
Fixpoint memcpy (num : nat) (dst src : Z) : M machine unit :=
  match num with
  | O => mret tt
  | S num => b ← load8 src; store8 dst b;; memcpy num (u32 (dst + 1)) (u32 (src + 1))
  end.

(** Map the page of [vaddr] in [other_pd] at a free page of the current directory. *)
Definition TempMap (other_pd vaddr : Z) : M machine Z :=
  current_pd ← GetCurrentPageDirectory;
  assert_ (negb (other_pd =? current_pd));;
  let page_vaddr := PageAddress vaddr in
  let vaddr_offset := u32 (vaddr - page_vaddr) in
  mapped ← VaddrIsMapped other_pd page_vaddr;
  assert_ mapped;;
  paddr ← getPhysicalAddr other_pd page_vaddr;
  free_vpage ← getNextFreePage current_pd 0;
  assert_ (0 <=? free_vpage);;
  let new_page_vaddr := PageToAddr free_vpage in
  MapPage current_pd new_page_vaddr paddr 0;;
  mret (u32 (new_page_vaddr + vaddr_offset)).

(** The file-local [Memcpy(src_pd, dst_pd, src, dst, size)]. *)
Definition Memcpy (src_pd dst_pd src dst size : Z) : M machine unit :=
  current_pd ← GetCurrentPageDirectory;
  if (src_pd =? dst_pd) && (current_pd =? src_pd) then
    memcpy (Z.to_nat size) dst src
  else
    this_pd_src ← (if src_pd =? current_pd then mret src else TempMap src_pd src);
    this_pd_dst ← (if dst_pd =? current_pd then mret dst else TempMap dst_pd dst);
    memcpy (Z.to_nat size) this_pd_dst this_pd_src;;
    (if src_pd =? current_pd then mret tt
     else UnmapPage current_pd (PageAddress this_pd_src));;
    (if dst_pd =? current_pd then mret tt
     else UnmapPage current_pd (PageAddress this_pd_dst)).

(** The two methods: from the current directory, and from another one. *)
Definition Memcpy_from_current (this dst src size : Z) : M machine unit :=
  cur ← GetCurrentPageDirectory; Memcpy cur this src dst size.

Definition Memcpy_from (this other_pd dst src size : Z) : M machine unit :=
  Memcpy other_pd this src dst size.

(** The printing loop of [InspectPhysicalMem]: the words from [begin] below [end_]. *)
Fixpoint inspect_words (fuel : nat) (begin_ end_ : Z) : M machine (list Z) :=
  match fuel with
  | O => fail NoFuel
  | S fuel => if begin_ <? end_ then
                w ← load32 begin_;
                ws ← inspect_words fuel (u32 (begin_ + 4)) end_;
                mret (w :: ws)
              else mret []
  end.

Definition InspectPhysicalMem (start end_ : Z) : M machine (list Z) :=
  assert_ (start <=? end_);;
  let page_start := PageAddress start in
  let page_end := PageAddress end_ in
  assert_ (page_start =? page_end);;
  pd ← GetCurrentPageDirectory;
  free_vpage ← getNextFreePage pd 0;
  assert_ (0 <=? free_vpage);;
  MapPage pd free_vpage page_start 0;;
  ws ← inspect_words (S (Z.to_nat (end_ - start)))
         (u32 (start - page_start + free_vpage)) (u32 (end_ - page_end + free_vpage));
  UnmapPage pd free_vpage;;
  mret ws.

Definition MapKernelPage (kernel_start pd : Z) : M machine unit :=
  MapPage pd kernel_start kernel_start (Z.lor (Z.lor PG_PRESENT PG_WRITE) PG_4MB).

Definition kPagingFlag : Z := 0x80000000.
Definition kPseFlag : Z := 0x10.

(** [kernel_start] and [kernel_end] are the addresses of the linker's symbols. *)
Definition Initialize (kernel_start kernel_end : Z) : M machine unit :=
  kpd ← GetKernelPageDirectory;
  Clear kpd;;
  assert_ (u32 (kernel_end - kernel_start) <=? kPageSize4M);;
  assert_ (kernel_start mod kPageSize4M =? 0);;
  used ← in_pmm (PageIsUsed (kernel_start / kPageSize4M));
  assert_ used;;
  MapKernelPage kernel_start kpd;;
  SwitchPageDirectory kpd;;
  modify (λ s, set_crs (Z.lor (cr0 s) kPagingFlag) (Z.lor (cr4 s) kPseFlag) s);;
  r4 ← gets cr4; assert_ (r4 =? kPseFlag);;
  r0 ← gets cr0; assert_ (r0 =? 0x80000011).

(** * Invariant and abstraction *)

(** An entry is zero or present (there is no third form). *)
Definition pde_ok (pde : Z) : Prop :=
  is_u32 pde ∧ (pde = 0 ∨ tobool (Z.land pde PG_PRESENT) = true).

Definition pd_ok (pd : list Z) : Prop := length pd = 1024%nat ∧ Forall pde_ok pd.

Definition wf (s : machine) : Prop :=
  map_Forall (λ _, pd_ok) (pds s) ∧ is_Some (pds s !! gCurrentPageDir s) ∧
  map_Forall (λ _, is_u8) (mem s).

(** The mapping a directory stands for: virtual page number to the address of the
    physical page behind it. *)
Definition mapping (pd : list Z) (vpage : Z) : option Z :=
  match nthZ pd vpage with
  | Some pde => if tobool (Z.land pde PG_PRESENT)
                then Some (Z.land pde kPageMask4M) else None
  | None => None
  end.

(** The directory with one entry replaced. *)
Definition upd (pd : list Z) (vpage pde : Z) : list Z := <[Z.to_nat vpage := pde]> pd.

(** The state with directory [this] replaced. *)
Definition with_pd (this : Z) (pd : list Z) (s : machine) : machine :=
  set_pds (<[this := pd]> (pds s)) s.

(** The physical address behind [vaddr] in the address space [pd]. *)
Definition vtranslate (s : machine) (pd vaddr : Z) : option Z :=
  match pds s !! pd with Some l => translate l vaddr | None => None end.

(** The range [vaddr .. vaddr + n) lies in one page. *)
Definition in_page (vaddr n : Z) : Prop :=
  is_u32 vaddr ∧ 0 ≤ n ∧ vaddr mod kPageSize4M + n ≤ kPageSize4M.

(** Memory after copying [n] bytes from physical address [ps] to [pd]. *)
Definition copied (m m' : gmap Z Z) (ps pd n : Z) : Prop :=
  ∀ p, byte_at m' p = if (pd <=? p) && (p <? pd + n) then byte_at m (ps + (p - pd))
                      else byte_at m p.

(** * Lemmas *)

Lemma land_mask x : is_u32 x → Z.land x kPageMask4M = x / kPageSize4M * kPageSize4M.
Proof.
  unfold is_u32. intros Hx. change kPageSize4M with (2 ^ 22).
  rewrite <- land_lnot_ones by lia. change kPageMask4M with (Z.land (Z.lnot (2 ^ 22 - 1)) (Z.ones 32)).
  rewrite (Z.land_comm (Z.lnot _)), Z.land_assoc, Z.land_ones by lia.
  by rewrite Z.mod_small by lia.
Qed.

(** A 4MB-aligned 32-bit address. *)
Definition page_aligned (a : Z) : Prop := is_u32 a ∧ a mod kPageSize4M = 0.

Lemma present_bit pde : tobool (Z.land pde PG_PRESENT) = Z.testbit pde 0.
Proof. apply (tobool_land_bit pde 0). done. Qed.

(** The entry built by [MapPage]: present, pointing at [paddr], never global. *)
Lemma new_pde_spec paddr flags : page_aligned paddr → is_u8 flags →
  let pde := new_pde paddr flags in
  is_u32 pde ∧ tobool (Z.land pde PG_PRESENT) = true ∧
  Z.land pde kPageMask4M = paddr ∧ tobool (Z.land pde PG_GLOBAL) = false.
Proof.
  intros [Hp Ha] Hf pde. unfold pde, new_pde.
  set (f := Z.lor _ flags). assert (H8 : is_u8 f) by (apply lor_u8; done).
  assert (Hf0 : Z.testbit f 0 = true) by (unfold f; by rewrite Z.lor_spec).
  clearbody f. unfold is_u8, is_u32, kPageSize4M in *.
  rewrite (lor_disjoint paddr f 22) by (done || lia).
  assert (Hu : is_u32 (paddr + f)) by (unfold is_u32; dlia).
  split_and!; [apply Hu..| | |].
  - rewrite present_bit.
    rewrite <- (lor_disjoint paddr f 22) by (done || lia). rewrite Z.lor_spec, Hf0.
    apply orb_true_r.
  - rewrite land_mask by done. unfold kPageSize4M. dlia.
  - change PG_GLOBAL with (Z.shiftl 1 8). rewrite tobool_land_bit by lia.
    rewrite <- (lor_disjoint paddr f 22), Z.lor_spec by (done || lia).
    apply orb_false_intro.
    + rewrite <- (Z.mod_pow2_bits_low paddr 22 8) by lia.
      replace (paddr mod 2 ^ 22) with 0 by done. apply Z.bits_0.
    + rewrite <- (Z.mod_small f (2 ^ 8)) by lia. apply Z.mod_pow2_bits_high. lia.
Qed.

Lemma pd_ok_nth pd i : pd_ok pd → 0 ≤ i < kNumPageDirEntries →
  ∃ pde, nthZ pd i = Some pde ∧ pde_ok pde.
Proof.
  intros [Hlen Hall] Hi. unfold kNumPageDirEntries in Hi.
  destruct (nthZ_is_Some pd i) as [pde E]; [lia|].
  exists pde. split; [done|]. apply nthZ_Some in E as [_ E].
  by eapply Forall_lookup_1 in Hall.
Qed.

Lemma page_of_addr a : is_u32 a → 0 ≤ a / kPageSize4M < kNumPageDirEntries.
Proof. unfold is_u32, kPageSize4M, kNumPageDirEntries. dlia. Qed.

Lemma getPDE_Ok s this pd vaddr pde :
  pds s !! this = Some pd → page_aligned vaddr →
  nthZ pd (vaddr / kPageSize4M) = Some pde → getPDE this vaddr s = Ok (pde, s).
Proof.
  intros Hpd [_ Ha] E. unfold getPDE, get_pd. rewrite Ha. munfold. simpl.
  rewrite Hpd. unfold aread. by rewrite E.
Qed.

Lemma setPDE_Ok s this pd vaddr v :
  pds s !! this = Some pd → pd_ok pd → page_aligned vaddr →
  setPDE this vaddr v s = Ok (tt, with_pd this (upd pd (vaddr / kPageSize4M) v) s).
Proof.
  intros Hpd [Hlen _] [Hv Ha]. pose proof (page_of_addr vaddr Hv) as Hi.
  unfold setPDE, get_pd, put_pd. rewrite Ha. munfold. simpl. rewrite Hpd.
  rewrite awrite_in_range by (unfold kNumPageDirEntries in Hi; lia). done.
Qed.

Lemma upd_ok pd i pde : pd_ok pd → pde_ok pde → pd_ok (upd pd i pde).
Proof.
  intros [Hlen Hall] Hp. split; [by unfold upd; rewrite length_insert|].
  by apply Forall_insert.
Qed.

Lemma nthZ_upd pd i j pde : pd_ok pd → 0 ≤ i < kNumPageDirEntries →
  nthZ (upd pd i pde) j = if j =? i then Some pde else nthZ pd j.
Proof.
  intros [Hlen _] Hi. unfold kNumPageDirEntries in Hi. unfold nthZ, upd.
  destruct (Z.ltb_spec j 0), (Z.eqb_spec j i); try lia; try done.
  - subst. rewrite list_lookup_insert_eq by lia. done.
  - rewrite list_lookup_insert_ne by lia. done.
Qed.

Lemma mapping_upd pd i j pde : pd_ok pd → 0 ≤ i < kNumPageDirEntries →
  mapping (upd pd i pde) j =
    if j =? i then (if tobool (Z.land pde PG_PRESENT)
                    then Some (Z.land pde kPageMask4M) else None)
    else mapping pd j.
Proof.
  intros Hok Hi. unfold mapping. rewrite nthZ_upd by done. by destruct (j =? i).
Qed.

(** An unmapped page has a zero entry. *)
Lemma unmapped_zero pd i : pd_ok pd → 0 ≤ i < kNumPageDirEntries →
  mapping pd i = None → nthZ pd i = Some 0.
Proof.
  intros Hok Hi. destruct (pd_ok_nth pd i Hok Hi) as (pde & E & _ & Hz).
  unfold mapping. rewrite E. destruct Hz as [-> | ->]; done.
Qed.

Lemma iflag_restore s pd this :
  (if iflag s then set_iflag true (with_pd this pd (set_iflag false s))
   else with_pd this pd (set_iflag false s)) = with_pd this pd s.
Proof. destruct s as [a1 a2 a3 a4 a5 a6 b a8]. by destruct b. Qed.

Lemma MapPage_Ok s this pd vaddr paddr flags :
  pds s !! this = Some pd → pd_ok pd → page_aligned vaddr → page_aligned paddr →
  is_u8 flags → mapping pd (vaddr / kPageSize4M) = None →
  MapPage this vaddr paddr flags s =
    Ok (tt, with_pd this (upd pd (vaddr / kPageSize4M) (new_pde paddr flags)) s).
Proof.
  intros Hpd Hok Hv Hp Hf Hun.
  pose proof (page_of_addr vaddr (proj1 Hv)) as Hi.
  pose proof (unmapped_zero pd _ Hok Hi Hun) as E.
  destruct (new_pde_spec paddr flags Hp Hf) as (_ & _ & _ & Hg).
  unfold MapPage. erewrite DisableInterruptsRAII_Ok; [by rewrite iflag_restore|].
  destruct Hp as [_ Ha]. rewrite Ha. simpl.
  erewrite bind_Ok by done. erewrite bind_Ok by (eapply getPDE_Ok; done). simpl.
  erewrite bind_Ok by done. erewrite bind_Ok by (apply setPDE_Ok; done).
  by rewrite Hg.
Qed.

Lemma UnmapPage_Ok s this pd vaddr :
  pds s !! this = Some pd → pd_ok pd → page_aligned vaddr →
  is_Some (mapping pd (vaddr / kPageSize4M)) →
  UnmapPage this vaddr s = Ok (tt, with_pd this (upd pd (vaddr / kPageSize4M) 0) s).
Proof.
  intros Hpd Hok Hv [pa Hm].
  unfold mapping in Hm. destruct (nthZ pd _) as [pde|] eqn:E; [|done].
  destruct (tobool (Z.land pde PG_PRESENT)) eqn:Hpr; [|done].
  unfold UnmapPage. erewrite DisableInterruptsRAII_Ok; [by rewrite iflag_restore|].
  erewrite bind_Ok by (eapply getPDE_Ok; done). rewrite Hpr.
  erewrite bind_Ok by done. apply setPDE_Ok; done.
Qed.

Lemma translate_mapping pd v :
  translate pd v = (λ p, p + v mod kPageSize4M) <$> mapping pd (v / kPageSize4M).
Proof.
  unfold translate, mapping. destruct (nthZ pd _) as [pde|]; [|done].
  by destruct (tobool _).
Qed.

Lemma mapping_aligned pd i p : pd_ok pd → mapping pd i = Some p → page_aligned p.
Proof.
  intros [_ Hall]. unfold mapping. destruct (nthZ pd i) as [pde|] eqn:E; [|done].
  destruct (tobool _); [|done]. intros [= <-].
  apply nthZ_Some in E as [_ E]. eapply Forall_lookup_1 in Hall as [Hu _]; [|done].
  rewrite land_mask by done. unfold page_aligned, is_u32, kPageSize4M in *. dlia.
Qed.

Lemma next_free_Ok pd n i : pd_ok pd → 0 ≤ i → i + Z.of_nat n = kNumPageDirEntries →
  ∃ r, next_free n i pd = Ok r ∧
    ((r = -1 ∧ ∀ j, i ≤ j < kNumPageDirEntries → is_Some (mapping pd j)) ∨
     (i ≤ r < kNumPageDirEntries ∧ mapping pd r = None ∧
      ∀ j, i ≤ j < r → is_Some (mapping pd j))).
Proof.
  intros Hok. revert i. induction n as [|n IH]; intros i Hi Hn.
  { exists (-1). split; [done|]. left. split; [done|lia]. }
  destruct (pd_ok_nth pd i Hok) as (pde & E & _); [lia|].
  cbn [next_free]. unfold aread, mbind, result_bind. rewrite E.
  assert (Hm : mapping pd i = if tobool (Z.land pde PG_PRESENT)
                 then Some (Z.land pde kPageMask4M) else None)
    by (unfold mapping; by rewrite E).
  destruct (tobool (Z.land pde PG_PRESENT)).
  - destruct (IH (i + 1)) as (r & -> & Hcase); [lia..|]. exists r. split; [done|].
    destruct Hcase as [[-> Hall]|(Hr & Hun & Hall)]; [left|right]; split_and!; try done; try lia.
    + intros j Hj. destruct (Z.eq_dec j i) as [->|]; [by rewrite Hm; eauto|apply Hall; lia].
    + intros j Hj. destruct (Z.eq_dec j i) as [->|]; [by rewrite Hm; eauto|apply Hall; lia].
  - exists i. split; [done|]. right. split_and!; [lia..|done|lia].
Qed.

Lemma getNextFreePage_Ok s this pd lb :
  pds s !! this = Some pd → pd_ok pd → 0 ≤ lb ≤ kNumPageDirEntries →
  ∃ r, getNextFreePage this lb s = Ok (r, s) ∧
    ((r = -1 ∧ ∀ j, lb ≤ j < kNumPageDirEntries → is_Some (mapping pd j)) ∨
     (lb ≤ r < kNumPageDirEntries ∧ mapping pd r = None ∧
      ∀ j, lb ≤ j < r → is_Some (mapping pd j))).
Proof.
  intros Hpd Hok Hlb.
  destruct (next_free_Ok pd (Z.to_nat (kNumPageDirEntries - lb)) lb Hok)
    as (r & Hr & Hcase); [lia..|].
  exists r. split; [|done]. unfold getNextFreePage, get_pd. munfold. rewrite Hpd.
  by rewrite Hr.
Qed.

(** ** Copying bytes *)

Lemma phys_Ok s cpd v p : pds s !! gCurrentPageDir s = Some cpd →
  translate cpd v = Some p → phys v s = Ok (p, s).
Proof.
  intros Hc Ht. unfold phys, get_pd, GetCurrentPageDirectory. munfold. rewrite Hc.
  by rewrite Ht.
Qed.

(** The next byte of a range that stays in its page. *)
Lemma next_byte v n : in_page v n → 1 < n → u32 (v + 1) = v + 1 ∧ in_page (v + 1) (n - 1) ∧
  (v + 1) / kPageSize4M = v / kPageSize4M ∧
  (v + 1) mod kPageSize4M = v mod kPageSize4M + 1.
Proof.
  unfold in_page, is_u32, kPageSize4M. intros (Hv & Hn & Hp) H1.
  rewrite u32_id by (unfold is_u32; dlia). split_and!; dlia.
Qed.

Lemma byte_at_u8 m p : map_Forall (λ _, is_u8) m → is_u8 (byte_at m p).
Proof.
  intros H. unfold byte_at. destruct (m !! p) as [b|] eqn:E; [|done].
  exact (H _ _ E).
Qed.

Lemma byte_at_insert m p b q : byte_at (<[p := b]> m) q = if q =? p then b else byte_at m q.
Proof.
  unfold byte_at. destruct (Z.eqb_spec q p) as [->|].
  - by rewrite lookup_insert_eq.
  - by rewrite lookup_insert_ne by done.
Qed.

Lemma memcpy_Ok k dst src s cpd ps pd :
  pds s !! gCurrentPageDir s = Some cpd → map_Forall (λ _, is_u8) (mem s) →
  in_page dst (Z.of_nat k) → in_page src (Z.of_nat k) →
  (k ≠ 0%nat → translate cpd src = Some ps ∧ translate cpd dst = Some pd) →
  ps + Z.of_nat k ≤ pd ∨ pd + Z.of_nat k ≤ ps →
  ∃ m', memcpy k dst src s = Ok (tt, set_mem m' s) ∧
        copied (mem s) m' ps pd (Z.of_nat k) ∧ map_Forall (λ _, is_u8) m'.
Proof.
  revert dst src s ps pd. induction k as [|k IH]; intros dst src s ps pd Hc H8 Hd Hs Ht Hdis.
  { exists (mem s). split_and!; [by destruct s| |done].
    intros p. replace (pd + Z.of_nat 0) with pd by lia.
    destruct (Z.leb_spec pd p), (Z.ltb_spec p pd); try done; lia. }
  destruct Ht as [Hts Htd]; [done|].
  cbn [memcpy]. unfold load8, store8.
  erewrite bind_Ok by (erewrite bind_Ok by (by eapply phys_Ok); done).
  erewrite bind_Ok by (erewrite bind_Ok by (by eapply phys_Ok); done).
  rewrite u8_id by (by apply byte_at_u8).
  set (b := byte_at (mem s) ps).
  set (s1 := set_mem (<[pd := b]> (mem s)) s).
  assert (H8' : map_Forall (λ _, is_u8) (mem s1))
    by (apply map_Forall_insert_2; [by apply byte_at_u8|done]).
  destruct (decide (k = 0%nat)) as [->|Hk].
  { exists (mem s1). split_and!; [done| |done]. intros p.
    change (Z.of_nat 1) with 1. simpl. rewrite byte_at_insert.
    destruct (Z.leb_spec pd p), (Z.ltb_spec p (pd + 1)), (Z.eqb_spec p pd) as [->|];
      simpl; try done; try lia.
    rewrite Z.sub_diag, Z.add_0_r. done. }
  destruct (next_byte dst _ Hd) as (-> & Hd' & Hdq & Hdm); [lia|].
  destruct (next_byte src _ Hs) as (-> & Hs' & Hsq & Hsm); [lia|].
  replace (Z.of_nat (S k) - 1) with (Z.of_nat k) in * by lia.
  rewrite !translate_mapping in *.
  destruct (IH (dst + 1) (src + 1) s1 (ps + 1) (pd + 1)) as (m' & Hm & Hcp & H8'');
    [done|done|done|done| |lia|].
  { intros _. rewrite !translate_mapping, Hdq, Hsq, Hdm, Hsm.
    destruct (mapping cpd (src / kPageSize4M)); [|done].
    destruct (mapping cpd (dst / kPageSize4M)); [|done].
    simpl in *. simplify_eq. split; f_equal; lia. }
  exists m'. split_and!; [done| |done].
  intros p. rewrite (Hcp p). simpl. rewrite !byte_at_insert.
  destruct (Z.leb_spec (pd + 1) p), (Z.ltb_spec p (pd + 1 + Z.of_nat k)),
    (Z.leb_spec pd p), (Z.ltb_spec p (pd + Z.of_nat (S k))),
    (Z.eqb_spec p pd); simpl; try lia; try done.
  - destruct (Z.eqb_spec (ps + 1 + (p - (pd + 1))) pd); [lia|]. f_equal. lia.
  - subst p. rewrite Z.sub_diag, Z.add_0_r. done.
Qed.

(** ** Temporary mappings *)

(** The address at offset [v mod 4M] of virtual page [f]. *)
Definition temp_addr (f v : Z) : Z := f * kPageSize4M + v mod kPageSize4M.

Lemma temp_addr_page f v : 0 ≤ f < kNumPageDirEntries →
  is_u32 (temp_addr f v) ∧ temp_addr f v / kPageSize4M = f ∧
  temp_addr f v mod kPageSize4M = v mod kPageSize4M.
Proof. unfold temp_addr, is_u32, kNumPageDirEntries, kPageSize4M. intros. split_and!; dlia. Qed.

Lemma temp_addr_in_page f v n : 0 ≤ f < kNumPageDirEntries → in_page v n →
  in_page (temp_addr f v) n.
Proof.
  intros Hf (_ & Hn & Hp). destruct (temp_addr_page f v Hf) as (H1 & _ & H3).
  split_and!; [apply H1..|done|]. by rewrite H3.
Qed.

Lemma page_start f : 0 ≤ f < kNumPageDirEntries →
  PageToAddr f = f * kPageSize4M ∧ page_aligned (f * kPageSize4M) ∧
  f * kPageSize4M / kPageSize4M = f.
Proof.
  unfold PageToAddr, page_aligned, is_u32, kNumPageDirEntries, kPageSize4M. intros Hf.
  rewrite u32_id by (unfold is_u32; lia). split_and!; dlia.
Qed.

Lemma temp_addr_PageAddress f v : 0 ≤ f < kNumPageDirEntries →
  PageAddress (temp_addr f v) = f * kPageSize4M.
Proof.
  intros Hf. destruct (temp_addr_page f v Hf) as (H1 & H2 & H3).
  rewrite PageAddress_spec, H3 by done. unfold temp_addr. lia.
Qed.

Lemma PageAddress_aligned v : is_u32 v →
  page_aligned (PageAddress v) ∧ PageAddress v / kPageSize4M = v / kPageSize4M ∧
  u32 (v - PageAddress v) = v mod kPageSize4M.
Proof.
  intros Hv. rewrite PageAddress_spec by done. unfold page_aligned, is_u32, kPageSize4M in *.
  rewrite u32_id by (unfold is_u32; dlia). split_and!; dlia.
Qed.

Lemma translate_temp cpd f pde p v : pd_ok cpd → 0 ≤ f < kNumPageDirEntries →
  tobool (Z.land pde PG_PRESENT) = true → Z.land pde kPageMask4M = p →
  translate (upd cpd f pde) (temp_addr f v) = Some (p + v mod kPageSize4M).
Proof.
  intros Hok Hf Hpr Hp. destruct (temp_addr_page f v Hf) as (_ & H2 & H3).
  rewrite translate_mapping, H2, H3, mapping_upd, Z.eqb_refl, Hpr, Hp by done. done.
Qed.

Lemma translate_upd_unmapped cpd f pde v p : pd_ok cpd → 0 ≤ f < kNumPageDirEntries →
  mapping cpd f = None → translate cpd v = Some p → translate (upd cpd f pde) v = Some p.
Proof.
  intros Hok Hf Hun. rewrite !translate_mapping, mapping_upd by done.
  destruct (Z.eqb_spec (v / kPageSize4M) f) as [->|]; [by rewrite Hun|done].
Qed.

Lemma upd_undo cpd f pde : pd_ok cpd → 0 ≤ f < kNumPageDirEntries →
  mapping cpd f = None → upd (upd cpd f pde) f 0 = cpd.
Proof.
  intros Hok Hf Hun. unfold upd. rewrite list_insert_insert_eq.
  apply list_insert_id. pose proof (unmapped_zero cpd f Hok Hf Hun) as E.
  by apply nthZ_Some in E as [_ E].
Qed.

Lemma TempMap_Ok s other v pa cpd i :
  wf s → pds s !! gCurrentPageDir s = Some cpd → other ≠ gCurrentPageDir s →
  is_u32 v → vtranslate s other v = Some pa →
  0 ≤ i < kNumPageDirEntries → mapping cpd i = None →
  ∃ f pde, 0 ≤ f ≤ i ∧ mapping cpd f = None ∧ pde_ok pde ∧
    tobool (Z.land pde PG_PRESENT) = true ∧
    TempMap other v s = Ok (temp_addr f v, with_pd (gCurrentPageDir s) (upd cpd f pde) s) ∧
    translate (upd cpd f pde) (temp_addr f v) = Some pa.
Proof.
  intros (Hall & _ & _) Hc Hne Hv Ht Hi Hun.
  assert (Hcok : pd_ok cpd) by exact (Hall _ _ Hc).
  unfold vtranslate in Ht. destruct (pds s !! other) as [opd|] eqn:Ho; [|done].
  assert (Hook : pd_ok opd) by exact (Hall _ _ Ho).
  destruct (PageAddress_aligned v Hv) as (Hpa & Hq & Hoff).
  rewrite translate_mapping in Ht.
  destruct (mapping opd (v / kPageSize4M)) as [ppage|] eqn:Hm; [|done].
  injection Ht as <-. pose proof (mapping_aligned _ _ _ Hook Hm) as Hal.
  destruct (getNextFreePage_Ok s _ cpd 0 Hc Hcok) as (f & Hf & [[_ Hfull]|(Hfr & Hfn & Hlow)]);
    [done| |].
  { destruct (Hfull i) as [? E]; [done|]. by rewrite Hun in E. }
  assert (Hfi : f ≤ i).
  { destruct (Z.le_gt_cases f i); [done|]. destruct (Hlow i) as [? E]; [lia|].
    by rewrite Hun in E. }
  destruct (page_start f Hfr) as (Hps & Hpal & Hpq).
  destruct (new_pde_spec ppage 0 Hal) as (Hu & Hpr & Hmask & _); [done|].
  exists f, (new_pde ppage 0).
  split_and!; [lia..|done|by split; [|right]|done| |by apply translate_temp].
  unfold mapping in Hm. destruct (nthZ opd _) as [pde|] eqn:Hn; [|done].
  destruct (tobool (Z.land pde PG_PRESENT)) eqn:Hp1; [|done].
  assert (Hg : getPDE other (PageAddress v) s = Ok (pde, s))
    by (eapply getPDE_Ok; [done..|by rewrite Hq]).
  unfold TempMap, GetCurrentPageDirectory, VaddrIsMapped, getPhysicalAddr.
  erewrite bind_Ok by done. apply Z.eqb_neq in Hne. rewrite Hne.
  erewrite bind_Ok by done.
  erewrite bind_Ok by (by rewrite (bind_Ok _ _ _ _ _ Hg)). rewrite Hp1.
  erewrite bind_Ok by done.
  erewrite bind_Ok by (rewrite (bind_Ok _ _ _ _ _ Hg), Hp1; done).
  rewrite (bind_Ok _ _ _ _ _ Hf). destruct (Z.leb_spec 0 f); [|lia].
  erewrite bind_Ok by done. injection Hm as <-. rewrite Hps, Hoff.
  erewrite bind_Ok by (apply MapPage_Ok; rewrite ?Hpq; done).
  rewrite Hpq. munfold. do 2 f_equal.
  apply u32_id. by apply temp_addr_page.
Qed.

Lemma with_pd_wf s this pd : wf s → pd_ok pd → wf (with_pd this pd s).
Proof.
  intros (Hall & [cpd Hc] & H8) Hok. split_and!; [|  |done]; simpl.
  - by apply map_Forall_insert_2.
  - destruct (decide (this = gCurrentPageDir s)) as [->|].
    + rewrite lookup_insert_eq. eauto.
    + rewrite lookup_insert_ne by done. eauto.
Qed.

Lemma with_pd_id s this pd m :
  pds s !! this = Some pd → with_pd this pd (set_mem m s) = set_mem m s.
Proof.
  intros H. destruct s. unfold with_pd, set_pds, set_mem; simpl in *. f_equal.
  by apply insert_id.
Qed.

Lemma with_pd_with_pd s this pd pd' m :
  with_pd this pd (set_mem m (with_pd this pd' s)) = with_pd this pd (set_mem m s).
Proof.
  destruct s. unfold with_pd, set_pds, set_mem; simpl in *. f_equal.
  by rewrite insert_insert_eq.
Qed.

(** Undoing a temporary mapping, whatever happened to memory in between. *)
Lemma UnmapPage_temp s this pd f pde v m :
  pd_ok pd → pde_ok pde → 0 ≤ f < kNumPageDirEntries →
  tobool (Z.land pde PG_PRESENT) = true →
  UnmapPage this (PageAddress (temp_addr f v)) (set_mem m (with_pd this (upd pd f pde) s)) =
    Ok (tt, with_pd this (upd (upd pd f pde) f 0) (set_mem m s)).
Proof.
  intros Hok Hpde Hf Hpr. rewrite temp_addr_PageAddress by done.
  destruct (page_start f Hf) as (_ & Hal & Hq).
  erewrite UnmapPage_Ok; [|by apply lookup_insert_eq|by apply upd_ok|done|].
  - rewrite Hq. by rewrite with_pd_with_pd.
  - rewrite Hq, mapping_upd, Z.eqb_refl, Hpr by done. eauto.
Qed.

(** The three ways a copy between address spaces goes, after the case where both are
    the current one. *)
Lemma Memcpy_from_other s src_pd src dst n ps pd cpd i :
  wf s → pds s !! gCurrentPageDir s = Some cpd → src_pd ≠ gCurrentPageDir s →
  in_page src n → in_page dst n →
  vtranslate s src_pd src = Some ps → translate cpd dst = Some pd →
  ps + n ≤ pd ∨ pd + n ≤ ps → 0 ≤ i < kNumPageDirEntries → mapping cpd i = None →
  ∃ m', Memcpy src_pd (gCurrentPageDir s) src dst n s = Ok (tt, set_mem m' s) ∧
        copied (mem s) m' ps pd n.
Proof.
  intros Hwf Hc Hne Hs Hd Hts Htd Hdis Hi Hun. pose proof Hwf as (Hall & _ & H8).
  assert (Hcok : pd_ok cpd) by exact (Hall _ _ Hc).
  destruct (TempMap_Ok s src_pd src ps cpd i) as (f & pde & Hf & Hfn & Hpde & Hpr & Htm & Htr);
    try done; [apply Hs|].
  assert (Hf' : 0 ≤ f < kNumPageDirEntries) by lia.
  unfold Memcpy, GetCurrentPageDirectory. setoid_rewrite (bind_Ok _ _ s); [|done].
  apply Z.eqb_neq in Hne. rewrite Hne, Z.eqb_refl. simpl.
  setoid_rewrite (bind_Ok _ _ _ _ _ Htm). setoid_rewrite (bind_Ok (mret dst)); [|done].
  destruct (memcpy_Ok (Z.to_nat n) dst (temp_addr f src)
    (with_pd (gCurrentPageDir s) (upd cpd f pde) s) (upd cpd f pde) ps pd)
    as (m' & Hm & Hcp & _); rewrite ?Z2Nat.id by apply Hs; try done.
  - by apply lookup_insert_eq.
  - by apply temp_addr_in_page.
  - intros _. split; [done|]. by apply translate_upd_unmapped.
  - exists m'. rewrite Z2Nat.id in Hcp by apply Hs. split; [|done].
    rewrite (bind_Ok _ _ _ _ _ Hm).
    erewrite bind_Ok by (by apply UnmapPage_temp). munfold.
    rewrite upd_undo by done. do 2 f_equal.
    by apply with_pd_id.
Qed.

Lemma Memcpy_to_other s dst_pd src dst n ps pd cpd i :
  wf s → pds s !! gCurrentPageDir s = Some cpd → dst_pd ≠ gCurrentPageDir s →
  in_page src n → in_page dst n →
  translate cpd src = Some ps → vtranslate s dst_pd dst = Some pd →
  ps + n ≤ pd ∨ pd + n ≤ ps → 0 ≤ i < kNumPageDirEntries → mapping cpd i = None →
  ∃ m', Memcpy (gCurrentPageDir s) dst_pd src dst n s = Ok (tt, set_mem m' s) ∧
        copied (mem s) m' ps pd n.
Proof.
  intros Hwf Hc Hne Hs Hd Hts Htd Hdis Hi Hun. pose proof Hwf as (Hall & _ & H8).
  assert (Hcok : pd_ok cpd) by exact (Hall _ _ Hc).
  destruct (TempMap_Ok s dst_pd dst pd cpd i) as (f & pde & Hf & Hfn & Hpde & Hpr & Htm & Htr);
    try done; [apply Hd|].
  assert (Hf' : 0 ≤ f < kNumPageDirEntries) by lia.
  unfold Memcpy, GetCurrentPageDirectory. setoid_rewrite (bind_Ok _ _ s); [|done].
  apply Z.eqb_neq in Hne.
  rewrite (Z.eqb_sym _ dst_pd), Hne, Z.eqb_refl. simpl.
  setoid_rewrite (bind_Ok (mret src)); [|done]. setoid_rewrite (bind_Ok _ _ _ _ _ Htm).
  destruct (memcpy_Ok (Z.to_nat n) (temp_addr f dst) src
    (with_pd (gCurrentPageDir s) (upd cpd f pde) s) (upd cpd f pde) ps pd)
    as (m' & Hm & Hcp & _); rewrite ?Z2Nat.id by apply Hs; try done.
  - by apply lookup_insert_eq.
  - by apply temp_addr_in_page.
  - intros _. split; [|done]. by apply translate_upd_unmapped.
  - exists m'. rewrite Z2Nat.id in Hcp by apply Hs. split; [|done].
    rewrite (bind_Ok _ _ _ _ _ Hm).
    erewrite bind_Ok by done. rewrite UnmapPage_temp by done.
    rewrite upd_undo by done. do 2 f_equal.
    by apply with_pd_id.
Qed.

(** Both sides are mapped temporarily, the destination after the source. *)
Lemma Memcpy_others s src_pd dst_pd src dst n ps pd cpd i j :
  wf s → pds s !! gCurrentPageDir s = Some cpd →
  src_pd ≠ gCurrentPageDir s → dst_pd ≠ gCurrentPageDir s →
  in_page src n → in_page dst n →
  vtranslate s src_pd src = Some ps → vtranslate s dst_pd dst = Some pd →
  ps + n ≤ pd ∨ pd + n ≤ ps → 0 ≤ i < j → j < kNumPageDirEntries →
  mapping cpd i = None → mapping cpd j = None →
  ∃ m', Memcpy src_pd dst_pd src dst n s = Ok (tt, set_mem m' s) ∧
        copied (mem s) m' ps pd n.
Proof.
  intros Hwf Hc Hne1 Hne2 Hs Hd Hts Htd Hdis Hi Hj Hun Hun2.
  pose proof Hwf as (Hall & _ & H8).
  assert (Hcok : pd_ok cpd) by exact (Hall _ _ Hc).
  destruct (TempMap_Ok s src_pd src ps cpd i) as (f & pde & Hf & Hfn & Hpde & Hpr & Htm & Htr);
    try done; [apply Hs|lia|].
  assert (Hf' : 0 ≤ f < kNumPageDirEntries) by lia.
  set (s1 := with_pd (gCurrentPageDir s) (upd cpd f pde) s) in *.
  assert (Hok1 : pd_ok (upd cpd f pde)) by (by apply upd_ok).
  destruct (TempMap_Ok s1 dst_pd dst pd (upd cpd f pde) j)
    as (g & pde2 & Hg & Hgn & Hpde2 & Hpr2 & Htm2 & Htr2).
  { by apply with_pd_wf. } { by apply lookup_insert_eq. } { done. } { apply Hd. }
  { unfold vtranslate in *. simpl. by rewrite lookup_insert_ne by done. } { lia. }
  { rewrite mapping_upd by done. destruct (Z.eqb_spec j f); [lia|done]. }
  assert (Hg' : 0 ≤ g < kNumPageDirEntries) by lia.
  assert (Hfg : g ≠ f).
  { intros ->. rewrite mapping_upd, Z.eqb_refl, Hpr in Hgn by done. done. }
  assert (Hgn' : mapping cpd g = None).
  { rewrite mapping_upd in Hgn by done. by destruct (Z.eqb_spec g f). }
  unfold Memcpy, GetCurrentPageDirectory. setoid_rewrite (bind_Ok _ _ s); [|done].
  apply Z.eqb_neq in Hne1, Hne2. rewrite (Z.eqb_sym _ src_pd), Hne1, andb_false_r, Hne2.
  setoid_rewrite (bind_Ok _ _ _ _ _ Htm). setoid_rewrite (bind_Ok _ _ _ _ _ Htm2).
  set (pd2 := upd (upd cpd f pde) g pde2) in *.
  set (s2 := with_pd (gCurrentPageDir s1) pd2 s1) in *.
  destruct (memcpy_Ok (Z.to_nat n) (temp_addr g dst) (temp_addr f src) s2 pd2 ps pd)
    as (m' & Hm & Hcp & _); rewrite ?Z2Nat.id by apply Hs; try done.
  - by apply lookup_insert_eq.
  - by apply temp_addr_in_page.
  - by apply temp_addr_in_page.
  - intros _. split; [|done]. by apply translate_upd_unmapped.
  - exists m'. rewrite Z2Nat.id in Hcp by apply Hs. split; [|done].
    rewrite (bind_Ok _ _ _ _ _ Hm).
    assert (Hswap : pd2 = upd (upd cpd g pde2) f pde).
    { unfold pd2, upd. apply list_insert_insert_ne. lia. }
    unfold s2. rewrite Hswap.
    erewrite bind_Ok by (apply UnmapPage_temp; by try apply upd_ok).
    rewrite upd_undo; [|by apply upd_ok|done|].
    2: { rewrite mapping_upd by done. by destruct (Z.eqb_spec f g). }
    unfold s1. simpl.
    rewrite with_pd_with_pd.
    change (with_pd (gCurrentPageDir s) (upd cpd g pde2) (set_mem m' s))
      with (set_mem m' (with_pd (gCurrentPageDir s) (upd cpd g pde2) s)).
    rewrite UnmapPage_temp, upd_undo by done. do 2 f_equal. by apply with_pd_id.
Qed.

Lemma MapPage_mapped s this pd v pa flags :
  pds s !! this = Some pd → page_aligned v → page_aligned pa →
  is_Some (mapping pd (v / kPageSize4M)) → MapPage this v pa flags s = Fault AssertFailed.
Proof.
  intros Hpd Hv [_ Ha] [q Hm]. unfold mapping in Hm.
  destruct (nthZ pd _) as [pde|] eqn:E; [|done].
  destruct (tobool (Z.land pde PG_PRESENT)) eqn:Hpr; [|done].
  unfold MapPage. apply DisableInterruptsRAII_Fault. rewrite Ha. simpl.
  erewrite bind_Ok by done. erewrite bind_Ok by (eapply getPDE_Ok; done). by rewrite Hpr.
Qed.

Lemma UnmapPage_unmapped s this pd v :
  pds s !! this = Some pd → pd_ok pd → page_aligned v →
  mapping pd (v / kPageSize4M) = None → UnmapPage this v s = Fault AssertFailed.
Proof.
  intros Hpd Hok Hv Hm.
  pose proof (unmapped_zero pd _ Hok (page_of_addr v (proj1 Hv)) Hm) as E.
  unfold UnmapPage. apply DisableInterruptsRAII_Fault.
  by erewrite bind_Ok by (eapply getPDE_Ok; done).
Qed.

Lemma VaddrIsMapped_Ok s this pd v :
  pds s !! this = Some pd → pd_ok pd → page_aligned v →
  VaddrIsMapped this v s = Ok (bool_decide (is_Some (mapping pd (v / kPageSize4M))), s).
Proof.
  intros Hpd Hok Hv.
  destruct (pd_ok_nth pd _ Hok (page_of_addr v (proj1 Hv))) as (pde & E & _).
  unfold VaddrIsMapped. erewrite bind_Ok by (eapply getPDE_Ok; done).
  unfold mapping. rewrite E. by destruct (tobool _).
Qed.

Lemma getPhysicalAddr_Ok s this pd v pa :
  pds s !! this = Some pd → page_aligned v →
  mapping pd (v / kPageSize4M) = Some pa → getPhysicalAddr this v s = Ok (pa, s).
Proof.
  intros Hpd Hv Hm. unfold mapping in Hm. destruct (nthZ pd _) as [pde|] eqn:E; [|done].
  destruct (tobool (Z.land pde PG_PRESENT)) eqn:Hpr; [|done]. injection Hm as <-.
  unfold getPhysicalAddr. erewrite bind_Ok by (eapply getPDE_Ok; done). by rewrite Hpr.
Qed.

(** * Properties *)

(** C2: a copy between two address spaces copies the bytes.  Both ranges lie within a
    page and are mapped in their address spaces, the physical ranges do not overlap,
    and the current directory has two unmapped pages.  Then, whichever of the two
    directories is the current one, [Memcpy] succeeds; the [size] physical bytes behind
    [dst] in [dst_pd] are those that were behind [src] in [src_pd], every other byte
    is unchanged, and so is everything else: the temporary mappings are gone and the
    interrupt flag is as before. *)
Theorem Memcpy_copies_between_spaces s src_pd dst_pd src dst size ps pd cpd i j :
  wf s → pds s !! gCurrentPageDir s = Some cpd →
  in_page src size → in_page dst size →
  vtranslate s src_pd src = Some ps → vtranslate s dst_pd dst = Some pd →
  ps + size ≤ pd ∨ pd + size ≤ ps →
  0 ≤ i < j → j < kNumPageDirEntries → mapping cpd i = None → mapping cpd j = None →
  ∃ m', Memcpy src_pd dst_pd src dst size s = Ok (tt, set_mem m' s) ∧
        copied (mem s) m' ps pd size.
Proof.
  intros Hwf Hc Hs Hd Hts Htd Hdis Hi Hj Hun Hun2.
  assert (Hcur : ∀ v, vtranslate s (gCurrentPageDir s) v = translate cpd v)
    by (intros v; unfold vtranslate; by rewrite Hc).
  destruct (decide (src_pd = gCurrentPageDir s)) as [->|Hne1],
    (decide (dst_pd = gCurrentPageDir s)) as [->|Hne2].
  - rewrite Hcur in Hts, Htd. unfold Memcpy, GetCurrentPageDirectory.
    setoid_rewrite (bind_Ok _ _ s); [|done]. rewrite Z.eqb_refl. simpl.
    destruct (memcpy_Ok (Z.to_nat size) dst src s cpd ps pd) as (m' & Hm & Hcp & _);
      rewrite ?Z2Nat.id in * by apply Hs; try done; [apply Hwf|]. eauto.
  - rewrite Hcur in Hts. apply (Memcpy_to_other s dst_pd src dst size ps pd cpd i); try done; lia.
  - rewrite Hcur in Htd. apply (Memcpy_from_other s src_pd src dst size ps pd cpd i); try done; lia.
  - by apply (Memcpy_others s src_pd dst_pd src dst size ps pd cpd i j).
Qed.

(** A machine with a kernel directory at 0x1000 (page 1 mapped to itself) and a user
    directory at 0x2000 (page 3 mapped to physical page 5), the kernel's being current. *)
Definition example_machine : machine :=
  mkMachine (fresh 32)
    (<[0x1000 := upd (replicate 1024 0) 1 (new_pde 0x400000 0)]>
     {[0x2000 := upd (replicate 1024 0) 3 (new_pde 0x1400000 PG_USER)]})
    0x1000 0x1000 0x80000011 0x10 true (<[0x400010 := 65]> {[0x400011 := 66]}).

Lemma example_pd_ok i pa f : page_aligned pa → is_u8 f →
  pd_ok (upd (replicate 1024 0) i (new_pde pa f)).
Proof.
  intros Ha Hf. apply upd_ok.
  - split; [done|]. apply Forall_replicate. split; [done|by left].
  - destruct (new_pde_spec pa f Ha Hf) as (? & ? & _). split; [done|by right].
Qed.

Lemma example_machine_wf : wf example_machine.
Proof.
  split_and!; [|by vm_compute; eauto|].
  - apply map_Forall_insert_2; [|apply map_Forall_singleton]; by apply example_pd_ok.
  - apply map_Forall_insert_2; [done|by apply map_Forall_singleton].
Qed.

Lemma Memcpy_copies_between_spaces_witness :
  ∃ m', Memcpy 0x1000 0x2000 0x400010 0xC00020 2 example_machine =
          Ok (tt, set_mem m' example_machine) ∧
        byte_at m' 0x1400020 = 65 ∧ byte_at m' 0x1400021 = 66.
Proof.
  destruct (Memcpy_copies_between_spaces example_machine 0x1000 0x2000 0x400010 0xC00020 2
    0x400010 0x1400020 (upd (replicate 1024 0) 1 (new_pde 0x400000 0)) 0 2)
    as (m' & H & Hc); try done; [apply example_machine_wf|lia|].
  exists m'. split_and!; [exact H|rewrite Hc; reflexivity|rewrite Hc; reflexivity].
Defined.

(** C17: a page directory implements a partial map from virtual pages to physical
    pages.  [VaddrIsMapped] decides whether a page is mapped.  [MapPage] on an unmapped
    page adds the mapping to [pa], leaves every other page and the rest of the machine
    (interrupt flag included) alone, and is undone exactly by [UnmapPage]; on a mapped
    page it fails its assertion.  [UnmapPage] removes a mapping, or fails its assertion
    on an unmapped page. *)
Theorem page_directory_implements_map s this pd v pa flags :
  pds s !! this = Some pd → pd_ok pd → page_aligned v → page_aligned pa → is_u8 flags →
  let vp := v / kPageSize4M in
  VaddrIsMapped this v s = Ok (bool_decide (is_Some (mapping pd vp)), s) ∧
  match MapPage this v pa flags s with
  | Ok (_, s') =>
      mapping pd vp = None ∧
      (∃ pd', s' = with_pd this pd' s ∧ pd_ok pd' ∧
              ∀ j, mapping pd' j = if j =? vp then Some pa else mapping pd j) ∧
      UnmapPage this v s' = Ok (tt, s)
  | Fault f => is_Some (mapping pd vp) ∧ f = AssertFailed
  end ∧
  match UnmapPage this v s with
  | Ok (_, s') =>
      is_Some (mapping pd vp) ∧
      ∃ pd', s' = with_pd this pd' s ∧ pd_ok pd' ∧
             ∀ j, mapping pd' j = if j =? vp then None else mapping pd j
  | Fault f => mapping pd vp = None ∧ f = AssertFailed
  end.
Proof.
  intros Hpd Hok Hv Hp Hf vp. pose proof (page_of_addr v (proj1 Hv)) as Hi.
  destruct (new_pde_spec pa flags Hp Hf) as (Hu & Hpr & Hmask & _).
  assert (Hpde : pde_ok (new_pde pa flags)) by (split; [done|by right]).
  split; [by apply VaddrIsMapped_Ok|].
  destruct (mapping pd vp) as [q|] eqn:Hm; subst vp; split.
  - rewrite (MapPage_mapped s this pd) by eauto. eauto.
  - rewrite (UnmapPage_Ok s this pd) by eauto. split; [eauto|].
    eexists. split_and!; [done|apply upd_ok; [done|split; [done|by left]]|].
    intros j. by rewrite mapping_upd by done.
  - rewrite (MapPage_Ok s this pd) by done. split_and!; [done| |].
    + eexists. split_and!; [done|by apply upd_ok|].
      intros j. rewrite mapping_upd, Hpr, Hmask by done. done.
    + erewrite UnmapPage_Ok; [|by apply lookup_insert_eq|by apply upd_ok|done|].
      * rewrite upd_undo by done. do 2 f_equal. destruct s.
        unfold with_pd, set_pds; simpl in *. f_equal. by rewrite insert_insert_eq, insert_id.
      * rewrite mapping_upd, Z.eqb_refl, Hpr by done. eauto.
  - rewrite (UnmapPage_unmapped s this pd) by done. done.
Qed.

Lemma page_directory_implements_map_witness :
  ∃ s', MapPage 0x1000 0xC00000 0x1800000 PG_USER example_machine = Ok (tt, s') ∧
        UnmapPage 0x1000 0xC00000 s' = Ok (tt, example_machine).
Proof.
  destruct (page_directory_implements_map example_machine 0x1000
    (upd (replicate 1024 0) 1 (new_pde 0x400000 0)) 0xC00000 0x1800000 PG_USER)
    as (_ & H & _); try done; [by apply example_pd_ok|].
  destruct (MapPage 0x1000 0xC00000 0x1800000 PG_USER example_machine) as [[[] s']|f] eqn:E.
  - destruct H as (_ & _ & H). exists s'. split; [reflexivity|exact H].
  - destruct H as [[q Hq] _]. vm_compute in Hq. discriminate Hq.
Defined.

Lemma Clear_Ok s this pd :
  pds s !! this = Some pd →
  Clear this s = Ok (tt, with_pd this (replicate 1024 0) s).
Proof. intros Hpd. unfold Clear, get_pd, put_pd. munfold. by rewrite Hpd. Qed.

Lemma in_pmm_PageIsUsed s p :
  Pmm.wf (pmm s) → 0 ≤ p < kNumPageDirEntries →
  in_pmm (PageIsUsed p) s = Ok (Pmm.used (pmm s) p, s).
Proof.
  intros Hwf Hp. unfold in_pmm, zoom. rewrite (PageIsUsed_Ok _ _ Hwf Hp). by destruct s.
Qed.

(** The kernel's directory after [Initialize]. *)
Definition kernel_only (ks : Z) : list Z :=
  upd (replicate 1024 0) (ks / kPageSize4M) (new_pde ks (Z.lor (Z.lor PG_PRESENT PG_WRITE) PG_4MB)).

Lemma empty_pd : pd_ok (replicate 1024 0) ∧ ∀ j, 0 ≤ j < kNumPageDirEntries → mapping (replicate 1024 0) j = None.
Proof.
  assert (Hok : pd_ok (replicate 1024 0)) by (split; [done|]; apply Forall_replicate; split; [done|by left]).
  split; [done|]. intros j Hj. destruct (pd_ok_nth _ j Hok Hj) as (pde & E & _).
  unfold mapping. rewrite E. apply nthZ_Some in E as [_ E]. apply lookup_replicate in E as [-> _]. done.
Qed.

Lemma kernel_only_maps ks : page_aligned ks →
  pd_ok (kernel_only ks) ∧
  ∀ j, 0 ≤ j < kNumPageDirEntries → mapping (kernel_only ks) j = if j =? ks / kPageSize4M then Some ks else None.
Proof.
  intros Hks. pose proof (page_of_addr ks (proj1 Hks)) as Hi. destruct empty_pd as [Hok0 Hun].
  destruct (new_pde_spec ks (Z.lor (Z.lor PG_PRESENT PG_WRITE) PG_4MB) Hks) as (Hu32 & Hpr & Hmask & _); [done|].
  split; [apply upd_ok; [done|]; split; [done|by right]|].
  intros j Hj. unfold kernel_only. by rewrite mapping_upd, Hpr, Hmask, Hun by done.
Qed.

(** [Initialize], entered in protected mode with paging off, the kernel's physical page
    marked as used and the kernel aligned and within 4MB, succeeds: the kernel directory is
    current and maps exactly the kernel's page, to itself, and the control registers have
    paging and 4MB pages on. *)
Lemma paging_Initialize_Ok s kpd ks ke :
  pds s !! gKernelPageDir s = Some kpd → page_aligned ks → 0 ≤ ke - ks ≤ kPageSize4M →
  Pmm.wf (pmm s) → Pmm.used (pmm s) (ks / kPageSize4M) = true →
  cr0 s = 0x11 → cr4 s = 0 →
  Initialize ks ke s =
    Ok (tt, set_crs 0x80000011 0x10 (set_current (gKernelPageDir s) (with_pd (gKernelPageDir s) (kernel_only ks) s))).
Proof.
  intros Hk Hks Hsz Hwf Hu H0 H4. pose proof (page_of_addr ks (proj1 Hks)) as Hi. destruct empty_pd as [Hok0 Hun].
  set (pd0 := replicate 1024 0) in *. set (fl := Z.lor (Z.lor PG_PRESENT PG_WRITE) PG_4MB).
  assert (Hmap : MapPage (gKernelPageDir s) ks ks fl (with_pd (gKernelPageDir s) pd0 s) =
    Ok (tt, with_pd (gKernelPageDir s) (kernel_only ks) (with_pd (gKernelPageDir s) pd0 s))).
  { apply MapPage_Ok; try done; [by apply lookup_insert_eq|by apply Hun]. }
  unfold Initialize, GetKernelPageDirectory, MapKernelPage. fold fl.
  erewrite bind_Ok by done. erewrite bind_Ok by (by apply Clear_Ok with kpd). fold pd0.
  rewrite u32_id by (unfold is_u32, kPageSize4M in *; lia).
  rewrite (proj2 (Z.leb_le _ _)), (proj2 Hks) by lia.
  erewrite bind_Ok by done. erewrite bind_Ok by done.
  erewrite bind_Ok by (apply in_pmm_PageIsUsed; [exact Hwf|exact Hi]).
  cbn [pmm with_pd set_pds]. rewrite Hu. erewrite bind_Ok by done. erewrite bind_Ok by exact Hmap.
  unfold SwitchPageDirectory. munfold. cbn [cr0 cr4 set_crs set_current with_pd set_pds set_pmm].
  rewrite H0, H4. cbv beta iota. unfold with_pd, set_pds. cbn [pds]. by rewrite insert_insert_eq.
Qed.

(** [InspectPhysicalMem] passes the free page's number, not its address, to
    [MapPage]: unless that page is page 0 it stops at the alignment assertion. *)
Lemma InspectPhysicalMem_needs_page_zero s start end_ f :
  getNextFreePage (gCurrentPageDir s) 0 s = Ok (f, s) → 0 < f < kNumPageDirEntries →
  start ≤ end_ → PageAddress start = PageAddress end_ →
  InspectPhysicalMem start end_ s = Fault AssertFailed.
Proof.
  intros Hf Hr Hle Hpg. unfold InspectPhysicalMem, GetCurrentPageDirectory.
  munfold. destruct (Z.leb_spec start end_); [|lia]. rewrite Hpg, Z.eqb_refl. simpl.
  rewrite Hf. destruct (Z.leb_spec 0 f); [|lia].
  replace (MapPage _ f _ 0 s) with (Fault (A := unit * machine) AssertFailed); [done|].
  symmetry. unfold MapPage. apply DisableInterruptsRAII_Fault. unfold getPDE. munfold.
  destruct (_ mod _ =? 0); [|done].
  replace (f mod kPageSize4M =? 0) with false; [done|].
  symmetry. apply Z.eqb_neq. unfold kNumPageDirEntries, kPageSize4M in *. dlia.
Qed.

(** [isKernelPageDir] compares with the current directory, not the kernel's. *)
Lemma isKernelPageDir_is_current s this :
  isKernelPageDir this s = Ok (this =? gCurrentPageDir s, s).
Proof. done. Qed.

End Paging.
