(* ===== verification/Malloc.v ===== *)
(** The allocator of libc/malloc.cpp, shared by the kernel and the user programs.

    The heap is a chain of regions.  A region starts with the address of the next
    region and its own size, followed by blocks laid end to end; a block is a 32-bit
    header (31 bits of size, one [used_] bit) followed by that many bytes.  The model
    keeps the memory as 32-bit words: every access of the allocator is to an aligned
    word, and an access to a word that is not there is a fault.

    [Section Iter] is the walk over all headers, [Partition], [MergeMallocHeaders],
    [MallocImpl], [malloc] and [free] follow the source.  The second half relates the
    words to a list of regions, each with its list of blocks ([heap_rep]), and proves
    what the operations do to the set of live allocations. *)
From S2P Require Import Prelude KernelH.

Module Malloc.

Record heap := mkHeap {
  gFirstAlloc : Z;
  (** [ask_for_more_func_t]: the function sets an address and a size; it may map memory. *)
  gAskFunc : option (gmap Z Z → result (Z * Z * gmap Z Z));
  words : gmap Z Z;
}.

Definition set_first x (h : heap) := mkHeap x (gAskFunc h) (words h).
Definition set_ask x (h : heap) := mkHeap (gFirstAlloc h) x (words h).
Definition set_words x (h : heap) := mkHeap (gFirstAlloc h) (gAskFunc h) x.

(** 32-bit accesses.  A misaligned access is undefined for the types involved. *)
Definition load (a : Z) : M heap Z := λ h,
  if negb (a mod 4 =? 0) then Fault BadPointer
  else match words h !! a with Some w => Ok (w, h) | None => Fault PageFault end.

Definition store (a w : Z) : M heap unit := λ h,
  if negb (a mod 4 =? 0) then Fault BadPointer
  else match words h !! a with
       | Some _ => Ok (tt, set_words (<[a := w]> (words h)) h)
       | None => Fault PageFault
       end.

Definition kAllocOffset : Z := 8.
Definition kMinSize : Z := 4.
Definition kSizeBitsMax : Z := 31.
Definition kSizeMax : Z := Z.shiftl 1 kSizeBitsMax - 1.
Definition kMinAlign : Z := kMinSize.
(** [sizeof(MallocHeader)] *)
Definition kHeader : Z := 4.

(** The region's own two words. *)
Definition GetAllocSize (alloc : Z) : M heap Z := load (u32 (alloc + 4)).
Definition SetAllocSize (alloc v : Z) : M heap unit := store (u32 (alloc + 4)) v.
Definition GetNextAlloc (alloc : Z) : M heap Z := load alloc.
Definition SetNextAlloc (alloc v : Z) : M heap unit := store alloc v.

(** Loop bound: a walk over a sound heap visits every word at most once. *)
Definition fuel_of (h : heap) : nat := S (size (words h)).
#[global] Arguments fuel_of : simpl never.

Fixpoint last_alloc (fuel : nat) (alloc : Z) : M heap Z :=
  match fuel with
  | O => fail NoFuel
  | S fuel => next ← GetNextAlloc alloc;
              if tobool next then last_alloc fuel next else mret alloc
  end.

Definition GetLastAlloc : M heap Z :=
  first ← gets gFirstAlloc;
  if negb (tobool first) then mret 0
  else fuel ← gets fuel_of; last_alloc fuel first.

(** [MallocHeader]: [size_ : 31] in the low bits, [used_ : 1] above. *)
Definition hdr_size (w : Z) : Z := w mod 2 ^ kSizeBitsMax.
Definition hdr_used (w : Z) : bool := tobool (w / 2 ^ kSizeBitsMax).
Definition mk_hdr (size : Z) (used : bool) : Z :=
  size + (if used then 2 ^ kSizeBitsMax else 0).

Definition getSize (header : Z) : M heap Z := w ← load header; mret (hdr_size w).
Definition isUsed (header : Z) : M heap bool := w ← load header; mret (hdr_used w).
Definition setUsed (header : Z) (used : bool) : M heap unit :=
  w ← load header; store header (mk_hdr (hdr_size w) used).

Definition SizeFits (s : Z) : bool := s <=? kSizeMax.
Definition SizeFitsInc (s inc : Z) : bool :=
  if u32 (s + inc) <? s then false else u32 (s + inc) <=? kSizeMax.

Definition setSize (header size : Z) : M heap unit :=
  assert_ (SizeFits size);;
  assert_ (size mod kMinSize =? 0);;
  assert_ (tobool size);;
  w ← load header; store header (mk_hdr size (hdr_used w)).

Definition IncSize (header inc : Z) : M heap unit :=
  w ← load header;
  assert_ (SizeFitsInc (hdr_size w) inc);;
  store header (mk_hdr ((hdr_size w + inc) mod 2 ^ kSizeBitsMax) (hdr_used w));;
  n ← getSize header; assert_ (tobool n).

Definition IsValid (header : Z) : M heap bool :=
  n ← getSize header; mret ((header mod kMinAlign =? 0) && (n mod kMinAlign =? 0)).

(** ** [IterMallocHeaders] with a callback that threads [arg] of type [A] *)
Section Iter.
Context {A : Type}.
Variable callback : Z → Z → Z → A → M heap (bool * A).

(** The loop over one region; [false] when the callback stopped the iteration. *)
Fixpoint iter_region (fuel : nat) (alloc alloc_size end_ start : Z) (arg : A) :
    M heap (bool * A) :=
  match fuel with
  | O => fail NoFuel
  | S fuel =>
      if start <? end_ then
        r ← callback start alloc alloc_size arg;
        if negb r.1 then mret (false, r.2)
        else n ← getSize start;
             iter_region fuel alloc alloc_size end_ (u32 (start + (kHeader + n))) r.2
      else mret (true, arg)
  end.

Fixpoint iter_allocs (fuel : nat) (alloc : Z) (arg : A) : M heap A :=
  match fuel with
  | O => fail NoFuel
  | S fuel =>
      if tobool alloc then
        alloc_size ← GetAllocSize alloc;
        let start := u32 (alloc + kAllocOffset) in
        n ← getSize start;
        assert_ (tobool n);;
        f ← gets fuel_of;
        r ← iter_region f alloc alloc_size (u32 (alloc + alloc_size)) start arg;
        if negb r.1 then mret r.2
        else next ← GetNextAlloc alloc; iter_allocs fuel next r.2
      else mret arg
  end.

Definition IterMallocHeaders (arg : A) : M heap A :=
  first ← gets gFirstAlloc; fuel ← gets fuel_of; iter_allocs fuel first arg.

End Iter.

(** The inner loop of the merge callback; [false] when it looked past the region. *)
Fixpoint merge_next (fuel : nat) (header end_ next : Z) : M heap bool :=
  match fuel with
  | O => fail NoFuel
  | S fuel =>
      n ← getSize next;
      used ← isUsed next;
      if (n =? 0) || negb used then
        IncSize header (u32 (kHeader + n));;
        size ← getSize header;
        let next' := u32 (header + kHeader + size) in
        if end_ <=? next' then mret false
        else ok ← IsValid header; assert_ ok;; merge_next fuel header end_ next'
      else mret true
  end.

Definition merge_callback (header alloc alloc_size : Z) (arg : unit) : M heap (bool * unit) :=
  used ← isUsed header;
  if (used : bool) then mret (true, arg)
  else
    let end_ := u32 (alloc + alloc_size) in
    size ← getSize header;
    let next := u32 (header + kHeader + size) in
    if end_ <=? next then mret (false, arg)
    else fuel ← gets fuel_of;
         go ← merge_next fuel header end_ next; mret (go, arg).

Definition MergeMallocHeaders : M heap unit := IterMallocHeaders merge_callback tt.

(** [__builtin_ctz] *)
Fixpoint ctz_pos (p : positive) : Z :=
  match p with xO p => 1 + ctz_pos p | _ => 0 end.

Definition ctz (x : Z) : Z := match x with Zpos p => ctz_pos p | _ => 0 end.

(** Returns the header chosen, or 0.  The recursive call is for a header that is
    aligned already, so that [fuel] 2 is enough. *)
Fixpoint partition (fuel : nat) (header desired_size desired_align : Z) : M heap Z :=
  match fuel with
  | O => fail NoFuel
  | S fuel =>
  used ← isUsed header; assert_ (negb used);;
  valid ← IsValid header; assert_ valid;;
  size ← getSize header;
  let addr := u32 (header + kHeader) in
  let end_ := u32 (addr + size) in
  assert_ (tobool addr);;
  let align := u32 (Z.shiftl 1 (ctz addr)) in
  if size =? desired_size then
    mret (if desired_align <=? align then header else 0)
  else if size <? desired_size then mret 0
  else
    assert_ (kHeader <=? u32 (size - desired_size));;
    if desired_align <=? align then
      if u32 (size - desired_size) =? kHeader then mret header
      else
        let new_header := u32 (addr + desired_size) in
        setSize new_header (u32 (size - desired_size - kHeader));;
        setUsed new_header false;;
        valid ← IsValid new_header; assert_ valid;;
        n ← getSize new_header;
        assert_ (u32 (new_header + n + kHeader) =? end_);;
        setSize header desired_size;;
        valid ← IsValid header; assert_ valid;;
        n ← getSize header;
        assert_ (u32 (addr + n) =? new_header);;
        mret header
    else
      new_addr ← RoundUpChecked 32 addr desired_align;
      assert_ (kHeader <=? u32 (new_addr - addr));;
      assert_ (new_addr mod desired_align =? 0);;
      let new_addr := if u32 (new_addr - addr) =? kHeader
                      then u32 (new_addr + desired_align) else new_addr in
      if end_ <? u32 (new_addr + desired_size) then mret 0
      else
        let new_size := u32 (end_ - new_addr) in
        if negb (SizeFits new_size) then mret 0
        else if new_size =? 0 then mret 0
        else
          let new_header := u32 (new_addr - kHeader) in
          assert_ (negb (new_header =? header));;
          setSize new_header new_size;;
          setUsed new_header false;;
          valid ← IsValid new_header; assert_ valid;;
          setSize header (u32 (new_addr - addr - kHeader));;
          valid ← IsValid header; assert_ valid;;
          new_header ← partition fuel new_header desired_size desired_align;
          assert_ (tobool new_header);;
          used ← isUsed new_header; assert_ (negb used);;
          valid ← IsValid new_header; assert_ valid;;
          mret new_header
  end.

Definition Partition : Z → Z → Z → M heap Z := partition 2.

Definition SetupNewAllocation (alloc_start alloc_size : Z) : M heap unit :=
  assert_ (tobool alloc_start);;
  assert_ (kAllocOffset <? alloc_size);;
  SetNextAlloc alloc_start 0;;
  SetAllocSize alloc_start alloc_size;;
  last ← GetLastAlloc;
  (if tobool last then SetNextAlloc last alloc_start else mret tt);;
  let head := u32 (alloc_start + kAllocOffset) in
  setSize head (u32 (alloc_size - kHeader - kAllocOffset));;
  setUsed head false;;
  valid ← IsValid head; assert_ valid.

Definition GetAvailMemory : M heap Z :=
  IterMallocHeaders (λ header _ _ avail,
    used ← isUsed header;
    if negb used then n ← getSize header; mret (true, u32 (avail + n))
    else mret (true, avail)) 0.

(** The callback of [MallocImpl]; the argument is [args->header]. *)
Definition find_callback (desired_size desired_align header alloc alloc_size : Z)
    (arg : Z) : M heap (bool * Z) :=
  used ← isUsed header;
  if (used : bool) then mret (true, arg)
  else free_header ← Partition header desired_size desired_align;
       if tobool free_header then
         used ← isUsed free_header; assert_ (negb used);;
         setUsed free_header true;;
         mret (false, free_header)
       else mret (true, arg).

(** [nullptr] is 0. *)
Definition MallocImpl (size align : Z) : M heap Z :=
  if size =? 0 then mret 0
  else if negb (IsPowerOf2 align) then mret 0
  else
    size ← RoundUpChecked 32 (Z.max size kMinSize) kMinAlign;
    let align := Z.max align kMinAlign in
    if negb (SizeFits size) then mret 0
    else
      avail ← GetAvailMemory;
      if avail <? size then mret 0
      else
        header ← IterMallocHeaders (find_callback size align) 0;
        MergeMallocHeaders;;
        if negb (tobool header) then mret 0
        else
          let addr := u32 (header + kHeader) in
          n ← getSize header; assert_ (size <=? n);;
          assert_ (addr mod align =? 0);;
          used ← isUsed header; assert_ used;;
          mret addr.

(** The [MALLOC_VALIDATION] pass of [malloc] and [free]. *)
Definition ValidateMalloc : M heap unit :=
  IterMallocHeaders (λ header _ _ arg,
    n ← getSize header; if n =? 0 then fail Aborted else mret (true, arg)) tt.

Definition DumpAllocs : M heap unit :=
  IterMallocHeaders (λ header _ _ arg,
    n ← getSize header; used ← isUsed header; mret (true, arg)) tt.

Definition ask_for_more (ask : gmap Z Z → result (Z * Z * gmap Z Z)) : M heap (Z * Z) := λ h,
  match ask (words h) with
  | Ok (a, n, w) => Ok ((a, n), set_words w h)
  | Fault f => Fault f
  end.

Definition malloc (size align : Z) : M heap Z :=
  res ← MallocImpl size align;
  ValidateMalloc;;
  if tobool res then mret res
  else if size =? 0 then mret res
  else if kSizeMax <? size then mret res
  else
    ask ← gets gAskFunc;
    match ask with
    | Some ask =>
        new ← ask_for_more ask;
        SetupNewAllocation new.1 new.2;;
        res ← MallocImpl size align;
        if tobool res then mret res else DumpAllocs;; mret res
    | None => DumpAllocs;; mret res
    end.

(** [malloc(size_t size)] *)
Definition malloc_default (size : Z) : M heap Z := malloc size kMinAlign.

Definition free_callback (ptr header alloc alloc_size : Z) (found : bool) :
    M heap (bool * bool) :=
  if u32 (header + kHeader) =? ptr then
    used ← isUsed header; assert_ used;;
    setUsed header false;;
    mret (false, true)
  else mret (true, found).

Definition free (ptr : Z) : M heap unit :=
  if negb (tobool ptr) then mret tt
  else
    assert_ (ptr mod kMinAlign =? 0);;
    let header := u32 (ptr - kHeader) in
    saved_header ← load header;
    found ← IterMallocHeaders (free_callback ptr) false;
    assert_ found;;
    used ← isUsed header; assert_ (negb used);;
    MergeMallocHeaders;;
    ValidateMalloc.

Definition Initialize (alloc_start alloc_size : Z)
    (ask : option (gmap Z Z → result (Z * Z * gmap Z Z))) : M heap unit :=
  modify (set_ask ask);;
  SetupNewAllocation alloc_start alloc_size;;
  modify (set_first alloc_start);;
  avail ← GetAvailMemory;
  assert_ (avail =? u32 (alloc_size - kHeader - kAllocOffset));;
  last ← GetLastAlloc;
  assert_ (last =? alloc_start).

(** * The heap as a list of regions of blocks *)

(** A block: its size in bytes and whether it is allocated. *)
Abbreviation block := (Z * bool)%type.

Record region := mkRegion { rbase : Z; rblocks : list block }.

Definition span (bs : list block) : Z := foldr (λ (b : block) n, kHeader + b.1 + n) 0 bs.

Definition rstart (r : region) : Z := rbase r + kAllocOffset.
Definition rsize (r : region) : Z := kAllocOffset + span (rblocks r).
Definition rend (r : region) : Z := rbase r + rsize r.

(** The headers of a run of blocks from address [a]: address, size and use. *)
Fixpoint headers_at (a : Z) (bs : list block) : list (Z * Z * bool) :=
  match bs with
  | [] => []
  | b :: bs => (a, b.1, b.2) :: headers_at (a + (kHeader + b.1)) bs
  end.

Definition headers (rs : list region) : list (Z * Z * bool) :=
  mjoin ((λ r : region, headers_at (rstart r) (rblocks r)) <$> rs).

(** The allocations among headers: the pointer [malloc] returned and the bytes there. *)
Definition live (hs : list (Z * Z * bool)) : list (Z * Z) :=
  omap (λ x : Z * Z * bool, if x.2 then Some (x.1.1 + kHeader, x.1.2) else None) hs.

Definition live_in (rs : list region) : list (Z * Z) := live (headers rs).

(** The bytes in free blocks. *)
Definition free_bytes (rs : list region) : Z :=
  foldr (λ (x : Z * Z * bool) n, (if x.2 then 0 else x.1.2) + n) 0 (headers rs).

Definition block_ok (b : block) : Prop := 0 < b.1 ∧ b.1 mod kMinSize = 0.

Fixpoint rep_blocks (m : gmap Z Z) (a : Z) (bs : list block) : Prop :=
  match bs with
  | [] => True
  | b :: bs => m !! a = Some (mk_hdr b.1 b.2) ∧ rep_blocks m (a + (kHeader + b.1)) bs
  end.

(** The address range of a run of blocks is mapped. *)
Definition mapped (m : gmap Z Z) (lo hi : Z) : Prop :=
  ∀ w, lo ≤ w < hi → w mod 4 = 0 → is_Some (m !! w).

Definition first_of (rs : list region) : Z :=
  match rs with [] => 0 | r :: _ => rbase r end.

(** Regions lie in the lower 2GB. *)
Definition region_ok (r : region) : Prop :=
  0 < rbase r ∧ rbase r mod 4 = 0 ∧ rblocks r ≠ [] ∧ Forall block_ok (rblocks r) ∧
  rend r ≤ 2 ^ kSizeBitsMax.

Definition apart (r r' : region) : Prop := rend r ≤ rbase r' ∨ rend r' ≤ rbase r.

Fixpoint rep_regions (m : gmap Z Z) (rs : list region) : Prop :=
  match rs with
  | [] => True
  | r :: rs =>
      region_ok r ∧ mapped m (rbase r) (rend r) ∧ Forall (apart r) rs ∧
      m !! rbase r = Some (first_of rs) ∧ m !! (rbase r + 4) = Some (rsize r) ∧
      rep_blocks m (rstart r) (rblocks r) ∧ rep_regions m rs
  end.

Definition heap_rep (h : heap) (rs : list region) : Prop :=
  gFirstAlloc h = first_of rs ∧ rep_regions (words h) rs.

(** * What the merge does to the blocks of a region, and to a heap *)
Fixpoint coalesce (bs : list block) : list block :=
  match bs with
  | [] => []
  | (sz, true) :: bs => (sz, true) :: coalesce bs
  | (sz, false) :: bs =>
      match coalesce bs with
      | (sz', false) :: bs' => (sz + (kHeader + sz'), false) :: bs'
      | bs' => (sz, false) :: bs'
      end
  end.

Definition last_used (bs : list block) : bool :=
  match last bs with Some b => b.2 | None => true end.

(** The walk stops after the first region whose last block is free. *)
Fixpoint merge_regions (rs : list region) : list region :=
  match rs with
  | [] => []
  | r :: rs => mkRegion (rbase r) (coalesce (rblocks r)) ::
               (if last_used (rblocks r) then merge_regions rs else rs)
  end.

(** A block of [sz] bytes at [a] can hold [n] bytes at a multiple of [align]: at its
    start, or far enough in to leave a block of its own before. *)
Definition fits (a sz n align : Z) : Prop :=
  ∃ p, p mod align = 0 ∧ (p = a + kHeader ∨ a + 3 * kHeader ≤ p) ∧
       p + n ≤ a + kHeader + sz.

(** The address ranges of the regions. *)
Definition extents (rs : list region) : list (Z * Z) := (λ r, (rbase r, rend r)) <$> rs.

(** Memory outside of the free blocks is untouched: the live allocations of [rs] with
    their headers, and everything outside of the regions. *)
Definition frame (rs : list region) (m m' : gmap Z Z) : Prop :=
  (∀ p n w, (p, n) ∈ live_in rs → p - kHeader ≤ w < p + n → m' !! w = m !! w) ∧
  (∀ w, (∀ e, e ∈ extents rs → ¬ (e.1 ≤ w < e.2)) → m' !! w = m !! w).

(** * Lemmas *)

Lemma kSizeMax_eq : kSizeMax = 2 ^ 31 - 1.
Proof. done. Qed.

Ltac consts := unfold kAllocOffset, kMinAlign, kMinSize, kHeader, kSizeBitsMax, is_u32 in *.
Ltac clia := consts; rewrite ?kSizeMax_eq in *; lia.

Lemma hdr_size_mk sz u : 0 ≤ sz < 2 ^ kSizeBitsMax → hdr_size (mk_hdr sz u) = sz.
Proof.
  intros H. unfold hdr_size, mk_hdr. destruct u.
  - rewrite <- (Z.mul_1_l (2 ^ kSizeBitsMax)) at 1. rewrite Z.mod_add by done.
    by apply Z.mod_small.
  - rewrite Z.add_0_r. by apply Z.mod_small.
Qed.

Lemma hdr_used_mk sz u : 0 ≤ sz < 2 ^ kSizeBitsMax → hdr_used (mk_hdr sz u) = u.
Proof.
  intros H. unfold hdr_used, mk_hdr. destruct u.
  - rewrite <- (Z.mul_1_l (2 ^ kSizeBitsMax)) at 1. rewrite Z.div_add by done.
    by rewrite Z.div_small.
  - by rewrite Z.add_0_r, Z.div_small.
Qed.

Lemma u32_low z : 0 ≤ z < 2 ^ 32 → u32 z = z.
Proof. apply Z.mod_small. Qed.

(** ** Access to one header *)
Definition hdr_at (h : heap) (a sz : Z) (u : bool) : Prop :=
  words h !! a = Some (mk_hdr sz u) ∧ a mod 4 = 0 ∧ 0 ≤ sz < 2 ^ kSizeBitsMax.

Lemma load_Ok h a w : a mod 4 = 0 → words h !! a = Some w → load a h = Ok (w, h).
Proof. intros Ha Hw. unfold load. by rewrite Ha, Hw. Qed.

Lemma store_Ok h a w : a mod 4 = 0 → is_Some (words h !! a) →
  store a w h = Ok (tt, set_words (<[a := w]> (words h)) h).
Proof. intros Ha [x Hw]. unfold store. by rewrite Ha, Hw. Qed.

Lemma getSize_Ok h a sz u : hdr_at h a sz u → getSize a h = Ok (sz, h).
Proof.
  intros (Hw & Ha & Hsz). unfold getSize. rewrite (bind_Ok _ _ _ _ _ (load_Ok _ _ _ Ha Hw)).
  by rewrite hdr_size_mk.
Qed.

Lemma isUsed_Ok h a sz u : hdr_at h a sz u → isUsed a h = Ok (u, h).
Proof.
  intros (Hw & Ha & Hsz). unfold isUsed. rewrite (bind_Ok _ _ _ _ _ (load_Ok _ _ _ Ha Hw)).
  by rewrite hdr_used_mk.
Qed.

Lemma IsValid_Ok h a sz u : hdr_at h a sz u → sz mod 4 = 0 → IsValid a h = Ok (true, h).
Proof.
  intros H Hsz. unfold IsValid. rewrite (bind_Ok _ _ _ _ _ (getSize_Ok _ _ _ _ H)).
  destruct H as (_ & Ha & _). consts. by rewrite Ha, Hsz.
Qed.

Lemma setUsed_Ok h a sz u u' : hdr_at h a sz u →
  setUsed a u' h = Ok (tt, set_words (<[a := mk_hdr sz u']> (words h)) h).
Proof.
  intros (Hw & Ha & Hsz). unfold setUsed. rewrite (bind_Ok _ _ _ _ _ (load_Ok _ _ _ Ha Hw)).
  rewrite hdr_size_mk by done. apply store_Ok; eauto.
Qed.

Lemma setSize_Ok h a n w :
  a mod 4 = 0 → words h !! a = Some w → 0 < n < 2 ^ kSizeBitsMax → n mod 4 = 0 →
  setSize a n h = Ok (tt, set_words (<[a := mk_hdr n (hdr_used w)]> (words h)) h).
Proof.
  intros Ha Hw Hn Hm. unfold setSize, SizeFits, tobool. munfold.
  rewrite (proj2 (Z.leb_le n kSizeMax)), (proj2 (Z.eqb_neq n 0)) by clia.
  consts. rewrite Hm. simpl. rewrite (load_Ok _ _ _ Ha Hw). apply store_Ok; eauto.
Qed.

Lemma hdr_at_insert h a sz u : a mod 4 = 0 → 0 ≤ sz < 2 ^ kSizeBitsMax →
  hdr_at (set_words (<[a := mk_hdr sz u]> (words h)) h) a sz u.
Proof. intros. split; [apply lookup_insert_eq|done]. Qed.

(** A fresh free header over a word of any content. *)
Lemma new_header_Ok {B} h a n (k : M heap B) :
  a mod 4 = 0 → is_Some (words h !! a) → 0 < n < 2 ^ kSizeBitsMax → n mod 4 = 0 →
  (setSize a n;; setUsed a false;; k) h = k (set_words (<[a := mk_hdr n false]> (words h)) h).
Proof.
  intros Ha [w Hw] Hn Hm. rewrite (bind_Ok _ _ _ _ _ (setSize_Ok h a n w Ha Hw Hn Hm)).
  erewrite bind_Ok by (eapply setUsed_Ok, hdr_at_insert; [done|clia]).
  unfold set_words; simpl. by rewrite insert_insert_eq.
Qed.

(** ** Layout *)
Lemma span_app bs1 bs2 : span (bs1 ++ bs2) = span bs1 + span bs2.
Proof. induction bs1 as [|b bs1 IH]; simpl; [done|]. rewrite IH. lia. Qed.

Lemma span_nonneg bs : Forall block_ok bs → 0 ≤ span bs ∧ span bs mod 4 = 0.
Proof.
  induction 1 as [|b bs [H0 H4] _ [IH IH4]]; [done|]. simpl. consts.
  split; [lia|]. dlia.
Qed.

Lemma headers_at_app a bs1 bs2 :
  headers_at a (bs1 ++ bs2) = headers_at a bs1 ++ headers_at (a + span bs1) bs2.
Proof.
  revert a. induction bs1 as [|b bs1 IH]; intros a; simpl; [by rewrite Z.add_0_r|].
  rewrite IH. do 3 f_equal. lia.
Qed.

Lemma headers_app rs1 rs2 : headers (rs1 ++ rs2) = headers rs1 ++ headers rs2.
Proof. unfold headers. by rewrite fmap_app, join_app. Qed.

Lemma headers_cons r rs :
  headers (r :: rs) = headers_at (rstart r) (rblocks r) ++ headers rs.
Proof. done. Qed.

Lemma live_app hs1 hs2 : live (hs1 ++ hs2) = live hs1 ++ live hs2.
Proof. apply omap_app. Qed.

Lemma rep_blocks_app m a bs1 bs2 :
  rep_blocks m a (bs1 ++ bs2) ↔ rep_blocks m a bs1 ∧ rep_blocks m (a + span bs1) bs2.
Proof.
  revert a. induction bs1 as [|b bs1 IH]; intros a; simpl.
  - rewrite Z.add_0_r. tauto.
  - rewrite IH. replace (a + (kHeader + b.1 + span bs1)) with (a + (kHeader + b.1) + span bs1) by lia.
    tauto.
Qed.

(** A run of blocks depends on the words of its range only. *)
Lemma rep_blocks_local m m' a bs :
  Forall block_ok bs → (∀ w, a ≤ w < a + span bs → m' !! w = m !! w) →
  rep_blocks m a bs → rep_blocks m' a bs.
Proof.
  intros Hok. revert a. induction Hok as [|b bs [Hb _] Hbs IH]; intros a Hm; simpl; [done|].
  pose proof (span_nonneg bs Hbs) as [Hs _]. intros [H1 H2]. split.
  - rewrite Hm; [done|]. simpl. clia.
  - apply IH; [|done]. intros w Hw. apply Hm. simpl. clia.
Qed.

(** Every header of a run of blocks lies, with its block, in the run. *)
Lemma headers_at_bounds a bs x :
  Forall block_ok bs → x ∈ headers_at a bs →
  a ≤ x.1.1 ∧ x.1.1 + (kHeader + x.1.2) ≤ a + span bs ∧ 0 < x.1.2 ∧
  x.1.2 mod 4 = 0 ∧ (a mod 4 = 0 → x.1.1 mod 4 = 0).
Proof.
  intros Hok. revert a. induction Hok as [|b bs [Hb H4] Hbs IH]; intros a; simpl.
  { by intros ?%elem_of_nil. }
  pose proof (span_nonneg bs Hbs) as [Hs _].
  intros [-> |Hx]%elem_of_cons; simpl; [clia|].
  destruct (IH _ Hx) as (? & ? & ? & ? & Hm). split_and!; [clia..|].
  intros Ha. apply Hm. consts. dlia.
Qed.

Lemma headers_at_rep m a bs x :
  rep_blocks m a bs → x ∈ headers_at a bs → m !! x.1.1 = Some (mk_hdr x.1.2 x.2).
Proof.
  revert a. induction bs as [|b bs IH]; intros a; simpl; [by intros _ ?%elem_of_nil|].
  intros [H1 H2] [-> |Hx]%elem_of_cons; [done|]. by apply (IH _ H2).
Qed.

Lemma elem_of_live hs p n : (p, n) ∈ live hs ↔ (p - kHeader, n, true) ∈ hs.
Proof.
  unfold live. rewrite list_elem_of_omap. split.
  - intros ([[a sz] u] & Hx & E). simpl in E. destruct u; [|done]. simplify_eq.
    by replace (a + kHeader - kHeader) with a by lia.
  - intros Hx. eexists. split; [exact Hx|]. simpl. do 2 f_equal. lia.
Qed.

Lemma headers_at_NoDup a bs : Forall block_ok bs → NoDup ((λ x, x.1.1) <$> headers_at a bs).
Proof.
  intros Hok. revert a. induction Hok as [|b bs [Hb H4] Hbs IH]; intros a; simpl; [constructor|].
  constructor; [|by apply IH].
  intros (x & -> & Hx)%list_elem_of_fmap. apply headers_at_bounds in Hx; [|done].
  clia.
Qed.

Lemma length_headers_at a bs : length (headers_at a bs) = length bs.
Proof. revert a. induction bs as [|b bs IH]; intros a; simpl; [done|]. by rewrite IH. Qed.

(** The loop bound suffices: distinct words are at most as many as there are words. *)
Lemma NoDup_size (m : gmap Z Z) (l : list Z) :
  NoDup l → (∀ x, x ∈ l → is_Some (m !! x)) → (length l ≤ size m)%nat.
Proof.
  intros Hnd Hl. rewrite <- size_dom, <- (size_list_to_set (C := gset Z) l) by done.
  apply subseteq_size. intros x. rewrite elem_of_list_to_set, elem_of_dom. auto.
Qed.

Lemma fuel_blocks h a bs :
  Forall block_ok bs → rep_blocks (words h) a bs → (S (length bs) ≤ fuel_of h)%nat.
Proof.
  intros Hok Hrep. unfold fuel_of.
  rewrite <- (length_headers_at a), <- (length_fmap (λ x, x.1.1)). apply le_n_S, NoDup_size.
  - by apply headers_at_NoDup.
  - intros ? (x & -> & Hx)%list_elem_of_fmap. eauto using headers_at_rep.
Qed.

Lemma region_ok_bounds r : region_ok r →
  0 < rbase r ∧ rstart r mod 4 = 0 ∧ rbase r + kAllocOffset < rend r ∧
  rend r = rstart r + span (rblocks r) ∧ rend r ≤ 2 ^ kSizeBitsMax.
Proof.
  intros (Hb & H4 & Hne & Hok & He). unfold rstart, rend, rsize in *.
  destruct (rblocks r) as [|b bs] eqn:E; [done|].
  apply Forall_cons in Hok as [[Hb0 _] Hbs]. pose proof (span_nonneg bs Hbs). simpl in *.
  consts. split_and!; [lia| |lia..]. dlia.
Qed.

Lemma fuel_regions h rs : rep_regions (words h) rs → (S (length rs) ≤ fuel_of h)%nat.
Proof.
  intros Hrep. unfold fuel_of. rewrite <- (length_fmap rbase). apply le_n_S, NoDup_size.
  - induction rs as [|r rs IH]; simpl in *; [constructor|].
    destruct Hrep as (Hok & _ & Hap & _ & _ & _ & Hrep). constructor; [|auto].
    intros (r' & E & Hr')%list_elem_of_fmap.
    assert (Hok' : region_ok r').
    { clear -Hrep Hr'. induction rs as [|r rs IH]; [by apply elem_of_nil in Hr'|].
      destruct Hrep as (? & _ & _ & _ & _ & _ & ?). apply elem_of_cons in Hr' as [-> |]; auto. }
    rewrite Forall_forall in Hap. specialize (Hap r' Hr').
    apply region_ok_bounds in Hok, Hok'. unfold apart in Hap. clia.
  - intros ? (r & -> & Hr)%list_elem_of_fmap.
    induction rs as [|r' rs IH]; [by apply elem_of_nil in Hr|].
    destruct Hrep as (? & _ & _ & ? & _ & _ & ?). apply elem_of_cons in Hr as [-> |]; eauto.
Qed.

Lemma rep_regions_elem m rs r :
  rep_regions m rs → r ∈ rs →
  region_ok r ∧ mapped m (rbase r) (rend r) ∧ rep_blocks m (rstart r) (rblocks r).
Proof.
  induction rs as [|r' rs IH]; [by intros _ ?%elem_of_nil|].
  intros (? & ? & _ & _ & _ & ? & ?) [-> |]%elem_of_cons; auto.
Qed.

(** Every header of the heap can be read. *)
Lemma hdr_at_rep h a bs x :
  Forall block_ok bs → rep_blocks (words h) a bs → 0 ≤ a → a mod 4 = 0 →
  a + span bs ≤ 2 ^ kSizeBitsMax →
  x ∈ headers_at a bs → hdr_at h x.1.1 x.1.2 x.2.
Proof.
  intros Hok Hrep H0 Ha He Hx. pose proof (headers_at_bounds _ _ _ Hok Hx) as (? & ? & ? & ? & ?).
  split; [by apply (headers_at_rep _ _ _ _ Hrep)|]. split; [auto|clia].
Qed.

(** The words that start a region. *)
Lemma region_words h rs r rs' :
  rep_regions (words h) (r :: rs) → rs' = rs →
  GetAllocSize (rbase r) h = Ok (rsize r, h) ∧ GetNextAlloc (rbase r) h = Ok (first_of rs', h) ∧
  (∃ n, getSize (rstart r) h = Ok (n, h) ∧ tobool n = true) ∧
  u32 (rbase r + kAllocOffset) = rstart r ∧ u32 (rbase r + rsize r) = rend r.
Proof.
  intros (Hok & Hm & _ & Hn & Hs & Hb & _) ->. pose proof (region_ok_bounds r Hok) as (? & H4 & ? & ? & ?).
  destruct Hok as (_ & Hb4 & Hne & Hblk & _). unfold rend, rsize, rstart in *. split_and!.
  - unfold GetAllocSize. rewrite u32_low by clia. apply load_Ok; [dlia|done].
  - by apply load_Ok.
  - destruct (rblocks r) as [|b bs] eqn:E; [done|]. exists b.1. split.
    + eapply getSize_Ok, (hdr_at_rep h _ (b :: bs) (_, b.1, b.2)); try done; [clia|clia|by left].
    + apply Forall_cons in Hblk as [[? _] _]. unfold tobool. apply negb_true_iff, Z.eqb_neq. lia.
  - apply u32_low. clia.
  - apply u32_low. clia.
Qed.

Lemma tobool_pos z : 0 < z → tobool z = true.
Proof. intros. apply negb_true_iff, Z.eqb_neq. lia. Qed.

(** ** The walk over the headers

    A callback that leaves the heap alone and asks to go on at every header of a part
    of the heap takes the walk through that part, folding [f] over the headers. *)
Section Walk.
Context {A : Type}.
Variable cb : Z → Z → Z → A → M heap (bool * A).
Variable f : A → Z * Z * bool → A.

Definition skips (h : heap) (x : Z * Z * bool) : Prop :=
  ∀ alloc n arg, cb x.1.1 alloc n arg h = Ok ((true, f arg x), h).

Lemma iter_region_skip h fuel alloc n end_ bs : ∀ a arg,
  Forall block_ok bs → rep_blocks (words h) a bs → 0 ≤ a → a mod 4 = 0 →
  a + span bs ≤ end_ → end_ ≤ 2 ^ kSizeBitsMax →
  Forall (skips h) (headers_at a bs) →
  iter_region cb (length bs + fuel) alloc n end_ a arg h =
  iter_region cb fuel alloc n end_ (a + span bs) (foldl f arg (headers_at a bs)) h.
Proof.
  induction bs as [|b bs IH]; intros a arg Hok Hrep H0 Ha He Hend Hsk.
  { simpl. by rewrite Z.add_0_r. }
  assert (Hx : hdr_at h a b.1 b.2).
  { apply (hdr_at_rep h a (b :: bs) (a, b.1, b.2)); try done; [lia|by left]. }
  apply Forall_cons in Hok as [[Hb Hb4] Hok]. pose proof (span_nonneg bs Hok) as [Hs _].
  simpl in Hrep, He, Hsk. destruct Hrep as [_ Hrep]. apply Forall_cons in Hsk as [Hcb Hsk].
  cbn [length Nat.add iter_region]. rewrite (proj2 (Z.ltb_lt a end_)) by clia.
  rewrite (bind_Ok _ _ _ _ _ (Hcb alloc n arg)). cbn [fst snd negb].
  rewrite (bind_Ok _ _ _ _ _ (getSize_Ok _ _ _ _ Hx)).
  rewrite u32_low by clia. rewrite IH; [|done|done|clia| |clia|done|done].
  - simpl. f_equal. lia.
  - consts. dlia.
Qed.

Lemma iter_region_all h alloc n a bs arg :
  Forall block_ok bs → rep_blocks (words h) a bs → 0 ≤ a → a mod 4 = 0 →
  a + span bs ≤ 2 ^ kSizeBitsMax → Forall (skips h) (headers_at a bs) →
  iter_region cb (fuel_of h) alloc n (a + span bs) a arg h =
  Ok ((true, foldl f arg (headers_at a bs)), h).
Proof.
  intros Hok Hrep H0 Ha He Hsk. pose proof (fuel_blocks h a bs Hok Hrep) as Hfuel.
  replace (fuel_of h) with (length bs + S (fuel_of h - S (length bs)))%nat by lia.
  rewrite iter_region_skip by (done || lia). simpl. by rewrite Z.ltb_irrefl.
Qed.

(** One region of the walk. *)
Lemma iter_allocs_region h fuel r rs arg :
  rep_regions (words h) (r :: rs) →
  iter_allocs cb (S fuel) (rbase r) arg h =
  (x ← iter_region cb (fuel_of h) (rbase r) (rsize r) (rend r) (rstart r) arg;
   if negb x.1 then mret x.2 else next ← GetNextAlloc (rbase r); iter_allocs cb fuel next x.2) h.
Proof.
  intros Hrep. destruct (region_words h rs r rs Hrep eq_refl) as (Hs & _ & (n & Hn & Hn0) & E1 & E2).
  destruct Hrep as ((Hb & _) & _). cbn [iter_allocs]. rewrite tobool_pos by done.
  rewrite (bind_Ok _ _ _ _ _ Hs), E1. rewrite (bind_Ok _ _ _ _ _ Hn), Hn0.
  erewrite bind_Ok by done. erewrite bind_Ok by done. by rewrite E2.
Qed.

Lemma iter_allocs_skip h rs1 : ∀ fuel rs2 arg,
  rep_regions (words h) (rs1 ++ rs2) → Forall (skips h) (headers rs1) →
  iter_allocs cb (length rs1 + fuel) (first_of (rs1 ++ rs2)) arg h =
  iter_allocs cb fuel (first_of rs2) (foldl f arg (headers rs1)) h.
Proof.
  induction rs1 as [|r rs1 IH]; intros fuel rs2 arg Hrep Hsk; [done|].
  cbn [length Nat.add app first_of]. rewrite (iter_allocs_region _ _ _ (rs1 ++ rs2)) by done.
  destruct (region_words h _ _ _ Hrep eq_refl) as (_ & Hnext & _).
  destruct Hrep as (Hok & _ & _ & _ & _ & Hblk & Hrep).
  pose proof (region_ok_bounds r Hok) as (? & ? & ? & Hend & ?).
  destruct Hok as (_ & _ & _ & Hbok & _). rewrite headers_cons, Forall_app in Hsk.
  rewrite Hend. unfold rstart in *.
  erewrite bind_Ok by (apply iter_region_all; [done|done|clia|done|clia|apply Hsk]).
  cbn [fst snd negb]. rewrite (bind_Ok _ _ _ _ _ Hnext), IH by (done || apply Hsk).
  by rewrite headers_cons, foldl_app.
Qed.

(** A walk that is never stopped is a fold. *)
Lemma iter_all h rs arg :
  heap_rep h rs → Forall (skips h) (headers rs) →
  IterMallocHeaders cb arg h = Ok (foldl f arg (headers rs), h).
Proof.
  intros [Hf Hrep] Hsk. unfold IterMallocHeaders.
  erewrite bind_Ok by done. erewrite bind_Ok by done. pose proof (fuel_regions h rs Hrep) as Hfuel.
  replace (fuel_of h) with (length rs + S (fuel_of h - S (length rs)))%nat by lia.
  pose proof (iter_allocs_skip h rs (S (fuel_of h - S (length rs))) [] arg) as E.
  rewrite app_nil_r in E. by rewrite Hf, E.
Qed.

(** A walk that is stopped at a header after skipping all those before it. *)
Lemma iter_until h rs1 b bs1 sz u bs2 rs2 arg res :
  heap_rep h (rs1 ++ mkRegion b (bs1 ++ (sz, u) :: bs2) :: rs2) →
  Forall (skips h) (headers rs1) → Forall (skips h) (headers_at (b + kAllocOffset) bs1) →
  (∀ alloc n arg, cb (b + kAllocOffset + span bs1) alloc n arg h =
     match res with Ok (r, h') => Ok ((false, r), h') | Fault e => Fault e end) →
  IterMallocHeaders cb arg h = res.
Proof.
  intros [Hf Hrep] Hsk1 Hsk2 Hcb. unfold IterMallocHeaders.
  erewrite bind_Ok by done. erewrite bind_Ok by done. pose proof (fuel_regions h _ Hrep) as Hfuel.
  rewrite length_app in Hfuel. simpl in Hfuel.
  replace (fuel_of h) with (length rs1 + S (fuel_of h - S (length rs1)))%nat by lia.
  rewrite Hf, iter_allocs_skip by done. cbn [first_of].
  set (rg := mkRegion b _) in *.
  assert (Hrg : rep_regions (words h) (rg :: rs2)).
  { clear -Hrep. induction rs1 as [|r rs1 IH]; [done|]. apply IH, Hrep. }
  rewrite (iter_allocs_region _ _ rg rs2) by done.
  destruct Hrg as (Hok & _ & _ & _ & _ & Hblk & _).
  pose proof (region_ok_bounds rg Hok) as (? & ? & ? & Hend & ?).
  destruct Hok as (_ & _ & _ & Hbok & _). unfold rstart in *. cbn [rbase rblocks rg] in *.
  pose proof (fuel_blocks h _ _ Hbok Hblk) as Hfb. rewrite length_app in Hfb. simpl in Hfb.
  apply Forall_app in Hbok as [Hbok1 Hbok2]. apply Forall_cons in Hbok2 as [[Hsz _] Hbok2].
  pose proof (span_nonneg _ Hbok1) as []. pose proof (span_nonneg _ Hbok2) as [].
  rewrite span_app in Hend. simpl in Hend, Hsz. apply rep_blocks_app in Hblk as [Hblk1 _].
  assert (Hrun : iter_region cb (fuel_of h) b (rsize rg) (rend rg) (b + kAllocOffset)
      (foldl f arg (headers rs1)) h =
    match res with Ok (r, h') => Ok ((false, r), h') | Fault e => Fault e end).
  2:{ unfold mbind, M_bind. rewrite Hrun. by destruct res as [[]|]. }
  replace (fuel_of h) with (length bs1 + S (fuel_of h - S (length bs1)))%nat by lia.
  rewrite iter_region_skip by (done || clia). cbn [iter_region].
  rewrite (proj2 (Z.ltb_lt _ _)) by clia. unfold mbind, M_bind. rewrite Hcb.
  by destruct res as [[]|].
Qed.

Lemma iter_stop h rs1 b bs1 sz u bs2 rs2 arg r h' :
  heap_rep h (rs1 ++ mkRegion b (bs1 ++ (sz, u) :: bs2) :: rs2) →
  Forall (skips h) (headers rs1) → Forall (skips h) (headers_at (b + kAllocOffset) bs1) →
  (∀ alloc n arg, cb (b + kAllocOffset + span bs1) alloc n arg h = Ok ((false, r), h')) →
  IterMallocHeaders cb arg h = Ok (r, h').
Proof. intros Hh H1 H2 Hcb. by eapply iter_until. Qed.

End Walk.

(** ** Replacing a run of blocks by another of the same extent *)
Lemma rep_regions_local m m' rs :
  (∀ r w, r ∈ rs → rbase r ≤ w < rend r → m' !! w = m !! w) →
  rep_regions m rs → rep_regions m' rs.
Proof.
  induction rs as [|r rs IH]; intros Hm; [done|].
  intros (Hok & Hmap & Hap & Hn & Hs & Hb & Hrep).
  pose proof (region_ok_bounds r Hok) as (? & ? & ? & He & ?).
  assert (Hr : ∀ w, rbase r ≤ w < rend r → m' !! w = m !! w) by (intros; eapply Hm; [by left|done]).
  split_and!; try done.
  - intros w Hw H4. rewrite Hr by done. by apply Hmap.
  - rewrite Hr by clia. done.
  - rewrite Hr by clia. done.
  - eapply rep_blocks_local; [apply Hok| |done]. intros w Hw. apply Hr.
    unfold rstart in *. clia.
  - apply IH; [|done]. intros r' w Hr'. apply Hm. by right.
Qed.

Lemma rend_replace b bs1 mid mid' bs2 :
  span mid' = span mid →
  rend (mkRegion b (bs1 ++ mid' ++ bs2)) = rend (mkRegion b (bs1 ++ mid ++ bs2)).
Proof. intros E. unfold rend, rsize. simpl. rewrite !span_app. lia. Qed.

Lemma extents_app rs1 rs2 : extents (rs1 ++ rs2) = extents rs1 ++ extents rs2.
Proof. apply fmap_app. Qed.

(** The heap [rs1 ++ region b (bs1 ++ mid ++ bs2) :: rs2], with [mid] in focus. *)
Definition focus rs1 b bs1 mid bs2 rs2 : list region :=
  rs1 ++ mkRegion b (bs1 ++ mid ++ bs2) :: rs2.

Definition focus_addr b bs1 : Z := b + kAllocOffset + span bs1.

Lemma extents_focus rs1 b bs1 mid mid' bs2 rs2 :
  span mid' = span mid →
  extents (focus rs1 b bs1 mid' bs2 rs2) = extents (focus rs1 b bs1 mid bs2 rs2).
Proof.
  intros E. unfold focus. rewrite !extents_app. f_equal. simpl. f_equal. simpl.
  f_equal. by apply rend_replace.
Qed.

Lemma focus_region m rs1 b bs1 mid bs2 rs2 :
  rep_regions m (focus rs1 b bs1 mid bs2 rs2) →
  let a := focus_addr b bs1 in
  let r := mkRegion b (bs1 ++ mid ++ bs2) in
  region_ok r ∧ mapped m b (rend r) ∧ rep_blocks m a mid ∧
  (Forall block_ok bs1 ∧ Forall block_ok mid ∧ Forall block_ok bs2) ∧
  b + kAllocOffset ≤ a ∧ a mod 4 = 0 ∧ a + span mid ≤ rend r.
Proof.
  intros Hrep a r. destruct (rep_regions_elem m _ r Hrep) as (Hok & Hmap & Hb).
  { apply elem_of_app. right. by left. }
  pose proof (region_ok_bounds r Hok) as (? & ? & ? & He & ?). subst a r.
  pose proof (proj1 (proj2 (proj2 (proj2 Hok)))) as Hbl. simpl in *.
  rewrite !Forall_app in Hbl. destruct Hbl as (Hb1 & Hbm & Hb2).
  pose proof (span_nonneg _ Hb1) as []. pose proof (span_nonneg _ Hb2) as [].
  rewrite !span_app in He. unfold rstart, focus_addr in *. simpl in *.
  apply rep_blocks_app in Hb as [_ Hb]. apply rep_blocks_app in Hb as [Hb _].
  split_and!; try done; [lia| |lia]. rewrite Z.add_mod by done. by rewrite H0, H4.
Qed.

Lemma focus_replace m m' rs1 b bs1 mid mid' bs2 rs2 :
  let a := focus_addr b bs1 in
  rep_regions m (focus rs1 b bs1 mid bs2 rs2) →
  Forall block_ok mid' → mid' ≠ [] → span mid' = span mid →
  (∀ w, ¬ (a ≤ w < a + span mid) → m' !! w = m !! w) →
  (∀ w, is_Some (m !! w) → is_Some (m' !! w)) → rep_blocks m' a mid' →
  rep_regions m' (focus rs1 b bs1 mid' bs2 rs2).
Proof.
  intros a Hrep Hok' Hne Hsp Hm Hdom Hrep'.
  destruct (focus_region _ _ _ _ _ _ _ Hrep) as (_ & _ & _ & _ & Hlo & _ & Hhi).
  fold a in Hlo, Hhi. induction rs1 as [|r rs1 IH].
  - destruct Hrep as ((Hb0 & Hb4 & _ & Hok & He) & Hmap & Hap & Hn & Hs & Hb & Hrep).
    simpl in *. set (r := mkRegion b (bs1 ++ mid ++ bs2)) in *.
    assert (Hend : rend (mkRegion b (bs1 ++ mid' ++ bs2)) = rend r) by by apply rend_replace.
    rewrite !Forall_app in Hok. apply rep_blocks_app in Hb as [Hb1 Hb].
    apply rep_blocks_app in Hb as [_ Hb2]. unfold focus_addr, rstart in *. simpl in *. split_and!.
    + split_and!; try done; simpl; [by intros [_ [? _]%app_nil]%app_nil|rewrite !Forall_app; tauto|by rewrite Hend].
    + rewrite Hend. intros w Hw H4. by apply Hdom, Hmap.
    + eapply Forall_impl; [exact Hap|]. intros r'. unfold apart. by rewrite Hend.
    + rewrite Hm by (unfold a; clia). done.
    + rewrite Hm by (unfold a; clia). rewrite Hs. f_equal. unfold rend in Hend. simpl in Hend. lia.
    + unfold rstart. simpl. rewrite !rep_blocks_app. split_and!; [|done|].
      * eapply rep_blocks_local; [apply Hok| |done]. intros w Hw. apply Hm. unfold a. clia.
      * rewrite Hsp. eapply rep_blocks_local; [apply Hok| |done].
        intros w Hw. apply Hm. unfold a. clia.
    + eapply rep_regions_local; [|done]. intros r' w Hr' Hw. apply Hm.
      rewrite Forall_forall in Hap. destruct (Hap r' Hr') as [Hx|Hx].
      * clia.
      * assert (rend r' ≤ b) by done. clia.
  - destruct Hrep as (Hok & Hmap & Hap & Hn & Hs & Hb & Hrep). unfold focus in *. simpl.
    pose proof (region_ok_bounds r Hok) as (? & ? & ? & He & ?).
    assert (Hr : apart r (mkRegion b (bs1 ++ mid ++ bs2))).
    { rewrite Forall_forall in Hap. apply Hap, elem_of_app. right. by left. }
    assert (Hr' : ∀ w, rbase r ≤ w < rend r → m' !! w = m !! w).
    { intros w Hw. apply Hm. destruct Hr as [Hx|Hx]; simpl in Hx; clia. }
    unfold rstart in *. split_and!; try done.
    + intros w Hw H4. by apply Hdom, Hmap.
    + apply Forall_app. apply Forall_app in Hap as [? Hap]. split; [done|].
      apply Forall_cons in Hap as [_ Hap]. apply Forall_cons. split; [|done].
      unfold apart in *. by rewrite (rend_replace b bs1 mid mid' bs2).
    + rewrite Hr' by clia. rewrite Hn. f_equal. by destruct rs1.
    + rewrite Hr' by clia. done.
    + eapply rep_blocks_local; [apply Hok| |done]. intros w Hw. apply Hr'. clia.
    + by apply IH.
Qed.

(** ** Live allocations and the frame *)
Lemma live_focus rs1 b bs1 mid bs2 rs2 :
  let a := focus_addr b bs1 in
  live_in (focus rs1 b bs1 mid bs2 rs2) =
  (live_in rs1 ++ live (headers_at (b + kAllocOffset) bs1)) ++ live (headers_at a mid) ++
  (live (headers_at (a + span mid) bs2) ++ live_in rs2).
Proof.
  unfold live_in, focus, focus_addr.
  rewrite headers_app, headers_cons, !live_app. unfold rstart. simpl.
  by rewrite !headers_at_app, !live_app, <- !app_assoc.
Qed.

Lemma live_at_bounds a bs p n :
  Forall block_ok bs → (p, n) ∈ live (headers_at a bs) →
  a + kHeader ≤ p ∧ p + n ≤ a + span bs ∧ 0 < n.
Proof.
  intros Hok Hx%elem_of_live. apply headers_at_bounds in Hx; [|done]. simpl in Hx. clia.
Qed.

Lemma rep_regions_ok m rs : rep_regions m rs → Forall region_ok rs.
Proof. intros Hrep. apply Forall_forall. intros r Hr. by eapply rep_regions_elem in Hr as [? _]. Qed.

Lemma live_in_bounds rs p n :
  Forall region_ok rs → (p, n) ∈ live_in rs →
  ∃ r, r ∈ rs ∧ rstart r + kHeader ≤ p ∧ p + n ≤ rend r ∧ 0 < n.
Proof.
  unfold live_in. induction 1 as [|r rs Hok _ IH]; [by intros ?%elem_of_nil|].
  rewrite headers_cons, live_app, elem_of_app. intros [Hx|Hx].
  - exists r. split; [by left|]. pose proof (region_ok_bounds r Hok) as (_ & _ & _ & -> & _).
    apply live_at_bounds in Hx; [done|apply Hok].
  - destruct (IH Hx) as (r' & ? & ?). exists r'. split; [by right|done].
Qed.

(** What is not in the blocks in focus is apart from them. *)
Lemma focus_apart m rs1 b bs1 mid bs2 rs2 p n :
  let a := focus_addr b bs1 in
  rep_regions m (focus rs1 b bs1 mid bs2 rs2) →
  (p, n) ∈ live_in rs1 ++ live (headers_at (b + kAllocOffset) bs1) ∨
  (p, n) ∈ live (headers_at (a + span mid) bs2) ++ live_in rs2 →
  p + n ≤ a ∨ a + span mid + kHeader ≤ p.
Proof.
  intros a Hrep.
  destruct (focus_region _ _ _ _ _ _ _ Hrep) as (_ & _ & _ & (Hb1 & Hbm & Hb2) & Hlo & _ & Hhi).
  fold a in Hlo, Hhi. set (rg := mkRegion b (bs1 ++ mid ++ bs2)) in *.
  assert (Hout : (∃ r, (r ∈ rs1 ∨ r ∈ rs2) ∧ rstart r + kHeader ≤ p ∧ p + n ≤ rend r ∧ 0 < n) →
                 p + n ≤ a ∨ a + span mid + kHeader ≤ p).
  { intros (r & Hr & H1 & H2 & H3).
    assert (Hap : rend r ≤ b ∨ rend rg ≤ rbase r).
    { clear -Hrep Hr. unfold focus in Hrep. fold rg in Hrep. induction rs1 as [|r' rs1 IH].
      - destruct Hr as [Hr|Hr]; [by apply elem_of_nil in Hr|].
        destruct Hrep as (_ & _ & Hap & _). rewrite Forall_forall in Hap.
        destruct (Hap r Hr); [by right|by left].
      - destruct Hrep as (_ & _ & Hap & _ & _ & _ & Hrep). destruct Hr as [Hr|Hr]; [|by apply IH; [|right]].
        apply elem_of_cons in Hr as [-> |Hr]; [|by apply IH; [|left]].
        rewrite Forall_forall in Hap. destruct (Hap rg); [apply elem_of_app; right; by left|..];
          [by left|by right]. }
    unfold rstart in *. clia. }
  pose proof (rep_regions_ok _ _ Hrep) as Hok. apply Forall_app in Hok as [Hok1 Hok2].
  apply Forall_cons in Hok2 as [_ Hok2].
  intros [[Hx|Hx]%elem_of_app|[Hx|Hx]%elem_of_app].
  - apply live_in_bounds in Hx as (r & ? & ?); [|done]. apply Hout. eauto.
  - apply live_at_bounds in Hx; [|done]. left. unfold a, focus_addr. lia.
  - apply live_at_bounds in Hx; [|done]. right. lia.
  - apply live_in_bounds in Hx as (r & ? & ?); [|done]. apply Hout. eauto.
Qed.

Lemma frame_refl rs m : frame rs m m.
Proof. by split. Qed.

Lemma frame_sym rs m m' : frame rs m m' → frame rs m' m.
Proof. intros [Ha Hb]. split; intros; symmetry; eauto. Qed.

Lemma frame_trans rs rs' m1 m2 m3 :
  live_in rs ⊆ live_in rs' → extents rs' = extents rs →
  frame rs m1 m2 → frame rs' m2 m3 → frame rs m1 m3.
Proof.
  intros Hl He [Ha1 Hb1] [Ha2 Hb2]. split.
  - intros p n w Hp Hw. rewrite (Ha2 p n w), (Ha1 p n w); auto.
  - intros w Hw. rewrite (Hb2 w), (Hb1 w); [done|done|by rewrite He].
Qed.

(** A change within the blocks in focus keeps the frame of the rest. *)
Lemma focus_outside (m m' : gmap Z Z) rs1 b bs1 mid bs2 rs2 :
  let a := focus_addr b bs1 in
  rep_regions m (focus rs1 b bs1 mid bs2 rs2) →
  (∀ w, ¬ (a ≤ w < a + span mid) → m' !! w = m !! w) →
  ∀ w, (∀ e, e ∈ extents (focus rs1 b bs1 mid bs2 rs2) → ¬ (e.1 ≤ w < e.2)) → m' !! w = m !! w.
Proof.
  intros a Hrep Hm w Hw.
  destruct (focus_region _ _ _ _ _ _ _ Hrep) as (_ & _ & _ & _ & Hlo & _ & Hhi).
  set (rg := mkRegion b (bs1 ++ mid ++ bs2)) in *. fold a in Hlo, Hhi. apply Hm.
  assert (He : ¬ (b ≤ w < rend rg)); [|clia].
  apply (Hw (b, rend rg)), list_elem_of_fmap. exists rg. split; [done|].
  apply elem_of_app. right. by left.
Qed.

Lemma focus_frame m m' rs1 b bs1 mid bs2 rs2 :
  let a := focus_addr b bs1 in
  rep_regions m (focus rs1 b bs1 mid bs2 rs2) → live (headers_at a mid) = [] →
  (∀ w, ¬ (a ≤ w < a + span mid) → m' !! w = m !! w) →
  frame (focus rs1 b bs1 mid bs2 rs2) m m'.
Proof.
  intros a Hrep Hlive Hm. split; [|by apply focus_outside].
  intros p n w Hp Hw. rewrite live_focus in Hp. fold a in Hp. rewrite Hlive in Hp.
  rewrite app_nil_l in Hp. apply elem_of_app in Hp.
  destruct (focus_apart _ _ _ _ _ _ _ p n Hrep Hp); apply Hm; unfold a; clia.
Qed.

(** ** Walks that only read *)
Lemma headers_hdr h rs x :
  heap_rep h rs → x ∈ headers rs →
  hdr_at h x.1.1 x.1.2 x.2 ∧ 0 < x.1.1 ∧ 0 < x.1.2 ∧ x.1.2 mod 4 = 0 ∧
  x.1.1 + (kHeader + x.1.2) ≤ 2 ^ kSizeBitsMax.
Proof.
  intros [_ Hrep] (l & Hx & (r & -> & Hr)%list_elem_of_fmap)%list_elem_of_join.
  destruct (rep_regions_elem _ _ _ Hrep Hr) as (Hok & _ & Hb).
  pose proof (region_ok_bounds r Hok) as (? & ? & ? & He & ?).
  destruct Hok as (_ & _ & _ & Hblk & _). unfold rstart in *.
  pose proof (headers_at_bounds _ _ _ Hblk Hx) as (? & ? & ? & ? & _).
  split_and!; try clia. eapply hdr_at_rep; try done; clia.
Qed.

Lemma ValidateMalloc_Ok h rs : heap_rep h rs → ValidateMalloc h = Ok (tt, h).
Proof.
  intros Hh. unfold ValidateMalloc. rewrite (iter_all _ (λ _ _, tt) h rs); [by destruct foldl|done|].
  apply Forall_forall. intros x Hx alloc n []. apply (headers_hdr h) in Hx as (Hx & _ & Hs & _); [|done].
  rewrite (bind_Ok _ _ _ _ _ (getSize_Ok _ _ _ _ Hx)).
  by rewrite (proj2 (Z.eqb_neq _ _)) by lia.
Qed.

Lemma DumpAllocs_Ok h rs : heap_rep h rs → DumpAllocs h = Ok (tt, h).
Proof.
  intros Hh. unfold DumpAllocs. rewrite (iter_all _ (λ _ _, tt) h rs); [by destruct foldl|done|].
  apply Forall_forall. intros x Hx alloc n []. apply (headers_hdr h) in Hx as (Hx & _); [|done].
  rewrite (bind_Ok _ _ _ _ _ (getSize_Ok _ _ _ _ Hx)).
  by rewrite (bind_Ok _ _ _ _ _ (isUsed_Ok _ _ _ _ Hx)).
Qed.

Lemma GetAvailMemory_Ok h rs :
  heap_rep h rs → GetAvailMemory h = Ok (u32 (free_bytes rs), h).
Proof.
  intros Hh. unfold GetAvailMemory.
  rewrite (iter_all _ (λ avail (x : Z * Z * bool), if x.2 then avail else u32 (avail + x.1.2)) h rs); [|done|].
  - do 2 f_equal. unfold free_bytes. generalize (headers rs). intros hs.
    assert (E : ∀ n, 0 ≤ n < 2 ^ 32 → foldl (λ avail (x : Z * Z * bool), if x.2 then avail else u32 (avail + x.1.2)) n hs =
      u32 (n + foldr (λ (x : Z * Z * bool) n, (if x.2 then 0 else x.1.2) + n) 0 hs)).
    { induction hs as [|x hs IH]; intros n Hn; simpl; [rewrite Z.add_0_r; by rewrite u32_low|].
      destruct x.2; rewrite IH by (done || apply u32_range); [done|].
      unfold u32. rewrite Zplus_mod_idemp_l. f_equal. lia. }
    by rewrite E.
  - apply Forall_forall. intros x Hx alloc n arg. apply (headers_hdr h) in Hx as (Hx & _); [|done].
    rewrite (bind_Ok _ _ _ _ _ (isUsed_Ok _ _ _ _ Hx)). destruct x.2; cbn [negb]; [done|].
    by rewrite (bind_Ok _ _ _ _ _ (getSize_Ok _ _ _ _ Hx)).
Qed.

(** ** The first header that satisfies a test *)
Lemma headers_at_split (P : Z * Z * bool → Prop) `{∀ x, Decision (P x)} a bs :
  Forall (λ x, ¬ P x) (headers_at a bs) ∨
  ∃ bs1 sz u bs2, bs = bs1 ++ (sz, u) :: bs2 ∧ Forall (λ x, ¬ P x) (headers_at a bs1) ∧
                  P (a + span bs1, sz, u).
Proof.
  revert a. induction bs as [|[sz u] bs IH]; intros a; [by left|].
  destruct (decide (P (a, sz, u))) as [Hp|Hp].
  - right. exists [], sz, u, bs. simpl. by rewrite Z.add_0_r.
  - destruct (IH (a + (kHeader + sz))) as [Hall|(bs1 & sz' & u' & bs2 & -> & Hall & Hp')].
    + left. simpl. by constructor.
    + right. exists ((sz, u) :: bs1), sz', u', bs2. simpl. split_and!; [done|by constructor|].
      by replace (a + (kHeader + sz + span bs1)) with (a + (kHeader + sz) + span bs1) by lia.
Qed.

Lemma headers_split (P : Z * Z * bool → Prop) `{∀ x, Decision (P x)} rs :
  Forall (λ x, ¬ P x) (headers rs) ∨
  ∃ rs1 b bs1 sz u bs2 rs2,
    rs = focus rs1 b bs1 [(sz, u)] bs2 rs2 ∧ Forall (λ x, ¬ P x) (headers rs1) ∧
    Forall (λ x, ¬ P x) (headers_at (b + kAllocOffset) bs1) ∧ P (focus_addr b bs1, sz, u).
Proof.
  induction rs as [|[b bs] rs IH]; [by left|].
  destruct (headers_at_split P (b + kAllocOffset) bs) as [Hall|(bs1 & sz & u & bs2 & -> & Hall & Hp)].
  - destruct IH as [IH|(rs1 & b' & bs1 & sz & u & bs2 & rs2 & -> & H1 & H2 & Hp)].
    + left. rewrite headers_cons. by apply Forall_app.
    + right. exists (mkRegion b bs :: rs1), b', bs1, sz, u, bs2, rs2.
      rewrite headers_cons. split_and!; [done|by apply Forall_app|done|done].
  - right. exists [], b, bs1, sz, u, bs2, rs. by split_and!.
Qed.

Lemma focus_header rs1 b bs1 sz u bs2 rs2 :
  (focus_addr b bs1, sz, u) ∈ headers (focus rs1 b bs1 [(sz, u)] bs2 rs2).
Proof.
  unfold focus. rewrite headers_app, headers_cons, !elem_of_app. right; left.
  unfold rstart. simpl. rewrite headers_at_app, elem_of_app. right. by left.
Qed.

(** ** [Partition] *)
Lemma ctz_pos_spec p : 0 ≤ ctz_pos p ∧ ∃ q, Zpos p = 2 ^ ctz_pos p * (2 * q + 1).
Proof.
  induction p as [p [IH0 [q IH]]|p [IH0 [q IH]]|]; simpl.
  - split; [done|]. exists (Zpos p). lia.
  - split; [lia|]. exists q. rewrite Pos2Z.inj_xO, IH, Z.pow_add_r by lia. lia.
  - split; [done|]. by exists 0.
Qed.

(** The alignment the code derives from an address. *)
Lemma ctz_align a k : 0 < a < 2 ^ 32 → 0 ≤ k →
  (2 ^ k <=? u32 (Z.shiftl 1 (ctz a))) = (a mod 2 ^ k =? 0).
Proof.
  intros Ha Hk. destruct a as [|p|p]; [lia| |lia]. simpl ctz.
  destruct (ctz_pos_spec p) as [Hc [q Hq]]. set (c := ctz_pos p) in *. rewrite Hq in *.
  assert (Hp : 0 < 2 ^ c) by (by apply Z.pow_pos_nonneg).
  assert (Hq0 : 0 < 2 * q + 1) by (apply (Z.mul_pos_cancel_l (2 ^ c)); lia).
  assert (Hc32 : 2 ^ c < 2 ^ 32) by (revert Ha; generalize (2 ^ 32); nia). rewrite Z.shiftl_1_l, u32_low by lia.
  apply eq_true_iff_eq. rewrite Z.leb_le, Z.eqb_eq, <- Z.pow_le_mono_r_iff by lia. split.
  - intros Hkc. replace c with (k + (c - k)) by lia. rewrite Z.pow_add_r, <- Z.mul_assoc by lia.
    rewrite Z.mul_comm. by apply Z.mod_mul, Z.pow_nonzero.
  - intros Hm. destruct (Z.le_gt_cases k c) as [|Hlt]; [done|exfalso].
    apply Z.mod_divide in Hm as [z Hz]; [|by apply Z.pow_nonzero].
    replace k with (c + (1 + (k - c - 1))) in Hz by lia.
    rewrite !Z.pow_add_r in Hz by lia.
    assert (Hz' : 2 ^ c * (2 * q + 1) = 2 ^ c * (z * 2 * 2 ^ (k - c - 1))) by lia.
    apply Z.mul_cancel_l in Hz'; [lia|by apply Z.pow_nonzero].
Qed.

Lemma mod4_of_pow p k : 2 ≤ k → p mod 2 ^ k = 0 → p mod 4 = 0.
Proof.
  intros Hk [z ->]%Z.mod_divide; [|by apply Z.pow_nonzero; lia].
  replace k with (2 + (k - 2)) by lia. rewrite Z.pow_add_r by lia.
  replace (z * (2 ^ 2 * 2 ^ (k - 2))) with (z * 2 ^ (k - 2) * 4) by lia. by apply Z.mod_mul.
Qed.

(** What a successful [Partition] of the free block of [sz] bytes at [a] leaves: the
    chosen block, with at most one free block before and one after it. *)
Definition partitioned (h : heap) (a sz n align c : Z) (h' : heap) : Prop :=
  ∃ m' pre k post,
    h' = set_words m' h ∧ c = a + span pre ∧ (n ≤ k ≤ n + kHeader) ∧ (c + kHeader) mod align = 0 ∧
    Forall block_ok (pre ++ (k, false) :: post) ∧
    span (pre ++ (k, false) :: post) = kHeader + sz ∧
    live (headers_at a pre) = [] ∧ live (headers_at (c + (kHeader + k)) post) = [] ∧
    (∀ w, ¬ (a ≤ w < a + (kHeader + sz)) → m' !! w = words h !! w) ∧
    (∀ w, is_Some (words h !! w) → is_Some (m' !! w)) ∧
    rep_blocks m' a (pre ++ (k, false) :: post).

Section Partition.
Variables (h : heap) (a sz n k : Z).
Hypothesis Hhdr : hdr_at h a sz false.
Hypothesis Ha : 0 < a.
Hypothesis Hsz : 0 < sz ∧ sz mod 4 = 0.
Hypothesis Hend : a + (kHeader + sz) ≤ 2 ^ kSizeBitsMax.
Hypothesis Hmap : mapped (words h) a (a + (kHeader + sz)).
Hypothesis Hn : 0 < n ∧ n mod 4 = 0.
Hypothesis Hk : 2 ≤ k < 32.

(** The common start of [Partition]. *)
Lemma partition_prefix fuel :
  partition (S fuel) a n (2 ^ k) h =
  (let addr := a + kHeader in let end_ := addr + sz in
   if sz =? n then mret (if addr mod 2 ^ k =? 0 then a else 0)
   else if sz <? n then mret 0
   else if addr mod 2 ^ k =? 0 then
      if sz - n =? kHeader then mret a
      else
        let new_header := addr + n in
        setSize new_header (sz - n - kHeader);;
        setUsed new_header false;;
        valid ← IsValid new_header; assert_ valid;;
        n' ← getSize new_header;
        assert_ (u32 (new_header + n' + kHeader) =? end_);;
        setSize a n;;
        valid ← IsValid a; assert_ valid;;
        n' ← getSize a;
        assert_ (u32 (addr + n') =? new_header);;
        mret a
    else
      let new_addr := RoundUp 32 addr (2 ^ k) in
      assert_ (kHeader <=? u32 (new_addr - addr));;
      assert_ (new_addr mod 2 ^ k =? 0);;
      let new_addr := if u32 (new_addr - addr) =? kHeader
                      then u32 (new_addr + 2 ^ k) else new_addr in
      if end_ <? u32 (new_addr + n) then mret 0
      else
        let new_size := u32 (end_ - new_addr) in
        if negb (SizeFits new_size) then mret 0
        else if new_size =? 0 then mret 0
        else
          let new_header := u32 (new_addr - kHeader) in
          assert_ (negb (new_header =? a));;
          setSize new_header new_size;;
          setUsed new_header false;;
          valid ← IsValid new_header; assert_ valid;;
          setSize a (u32 (new_addr - addr - kHeader));;
          valid ← IsValid a; assert_ valid;;
          new_header ← partition fuel new_header n (2 ^ k);
          assert_ (tobool new_header);;
          used ← isUsed new_header; assert_ (negb used);;
          valid ← IsValid new_header; assert_ valid;;
          mret new_header)
   h.
Proof.
  cbn [partition]. rewrite (bind_Ok _ _ _ _ _ (isUsed_Ok _ _ _ _ Hhdr)).
  erewrite bind_Ok by done.
  rewrite (bind_Ok _ _ _ _ _ (IsValid_Ok _ _ _ _ Hhdr (proj2 Hsz))).
  erewrite bind_Ok by done. rewrite (bind_Ok _ _ _ _ _ (getSize_Ok _ _ _ _ Hhdr)).
  cbv zeta. rewrite (u32_low (a + kHeader)) by clia. rewrite (u32_low (a + kHeader + sz)) by clia.
  rewrite tobool_pos by clia. erewrite bind_Ok by done.
  rewrite ctz_align by clia. destruct (Z.eqb_spec sz n); [done|].
  destruct (Z.ltb_spec sz n); [done|]. rewrite (u32_low (sz - n)) by clia.
  rewrite (proj2 (Z.leb_le _ _)) by (consts; dlia). erewrite bind_Ok by done.
  destruct (_ mod _ =? 0).
  - destruct (_ =? kHeader) eqn:E; [done|]. apply Z.eqb_neq in E.
    rewrite (u32_low (a + kHeader + n)), (u32_low (sz - n - kHeader)) by (consts; dlia). done.
  - unfold RoundUpChecked. rewrite IsPowerOf2_pow by lia. done.
Qed.

(** The whole block is taken. *)
Lemma partitioned_whole : n ≤ sz ≤ n + kHeader → (a + kHeader) mod 2 ^ k = 0 → partitioned h a sz n (2 ^ k) a h.
Proof.
  intros [Hle Hle'] Hal. exists (words h), [], sz, []. simpl. split_and!; try done.
  - by destruct h.
  - lia.
  - constructor; [exact Hsz|done].
  - lia.
  - by destruct Hhdr.
Qed.

Lemma partition_aligned fuel :
  (a + kHeader) mod 2 ^ k = 0 →
  if sz <? n then partition (S fuel) a n (2 ^ k) h = Ok (0, h)
  else ∃ h', partition (S fuel) a n (2 ^ k) h = Ok (a, h') ∧ partitioned h a sz n (2 ^ k) a h'.
Proof.
  intros Hal. rewrite partition_prefix. cbv zeta. rewrite Hal.
  destruct (Z.ltb_spec sz n).
  { by rewrite (proj2 (Z.eqb_neq sz n)) by lia. }
  destruct (Z.eqb_spec sz n). { exists h. split; [done|]. apply partitioned_whole; [clia|done]. }
  simpl. destruct (Z.eqb_spec (sz - n) kHeader).
  { exists h. split; [done|]. apply partitioned_whole; [clia|done]. }
  destruct Hhdr as (Hw & Ha4 & Hr). assert (Hgt : 2 * kHeader ≤ sz - n) by (consts; dlia).
  assert (Hh4 : (a + kHeader + n) mod 4 = 0) by (consts; dlia).
  assert (Hs4 : (sz - n - kHeader) mod 4 = 0) by (consts; dlia).
  rewrite new_header_Ok; [|done|apply Hmap; clia|clia|done].
  set (m1 := <[_ := _]> (words h)). set (h1 := set_words m1 h).
  assert (H1 : hdr_at h1 (a + kHeader + n) (sz - n - kHeader) false)
    by (apply hdr_at_insert; [done|clia]).
  erewrite bind_Ok by (by eapply IsValid_Ok). erewrite bind_Ok by done.
  erewrite bind_Ok by (by eapply getSize_Ok).
  rewrite u32_low, (proj2 (Z.eqb_eq _ _)) by clia. erewrite bind_Ok by done.
  assert (Hw1 : words h1 !! a = Some (mk_hdr sz false)).
  { unfold h1, m1. simpl. rewrite lookup_insert_ne by clia. done. }
  erewrite bind_Ok by (eapply setSize_Ok; [done|exact Hw1|clia|apply Hn]).
  rewrite hdr_used_mk by clia. set (h2 := set_words _ h1).
  assert (H2 : hdr_at h2 a n false) by (apply hdr_at_insert; [done|clia]).
  erewrite bind_Ok by (eapply IsValid_Ok; [exact H2|apply Hn]). erewrite bind_Ok by done.
  erewrite bind_Ok by (by eapply getSize_Ok).
  rewrite u32_low, (proj2 (Z.eqb_eq _ _)) by clia. erewrite bind_Ok by done.
  exists h2. split; [done|]. exists (words h2), [], n, [(sz - n - kHeader, false)]. simpl.
  split_and!; try done.
  - lia.
  - clia.
  - repeat constructor; simpl; consts; lia || apply Hn.
  - lia.
  - intros w Hwr. unfold m1. rewrite !lookup_insert_ne by clia. done.
  - intros w Hwr. unfold m1. rewrite !lookup_insert_is_Some'. auto.
  - apply lookup_insert_eq.
  - rewrite lookup_insert_ne by clia. unfold m1.
    replace (a + (kHeader + n)) with (a + kHeader + n) by lia. apply lookup_insert_eq.
Qed.

End Partition.

(** The least multiple of [2 ^ k] from [x] on. *)
Lemma least_multiple x y k p :
  0 ≤ k → y mod 2 ^ k = 0 → y < x + 2 ^ k → p mod 2 ^ k = 0 → x ≤ p → y ≤ p.
Proof.
  intros Hk [z ->]%Z.mod_divide Hy [z' ->]%Z.mod_divide Hp; try by apply Z.pow_nonzero.
  assert (0 < 2 ^ k) by by apply Z.pow_pos_nonneg.
  apply Z.mul_le_mono_nonneg_r; [lia|]. assert (z < z' + 1); [|lia].
  apply (Z.mul_lt_mono_pos_r (2 ^ k)); lia.
Qed.

(** The address [Partition] tries in a block that is not aligned: the least one that
    leaves room for a block before it. *)
Lemma realigned addr end_ n k :
  2 ≤ k < 32 → 0 < addr → addr mod 4 = 0 → addr mod 2 ^ k ≠ 0 →
  0 < n → addr + n + 4 ≤ end_ → end_ ≤ 2 ^ 31 →
  let na0 := RoundUp 32 addr (2 ^ k) in
  let na := if u32 (na0 - addr) =? kHeader then u32 (na0 + 2 ^ k) else na0 in
  kHeader ≤ u32 (na0 - addr) ∧ na0 mod 2 ^ k = 0 ∧ na mod 2 ^ k = 0 ∧ na mod 4 = 0 ∧
  addr + 8 ≤ na ∧ u32 (na + n) = na + n ∧ na + n < 2 ^ 32 ∧
  ∀ p, p mod 2 ^ k = 0 → addr + 8 ≤ p → na ≤ p.
Proof.
  intros Hk Ha Ha4 Hal Hn He1 He2 na0 na.
  assert (HP : 4 ≤ 2 ^ k ≤ 2 ^ 31).
  { split; [change 4 with (2 ^ 2)|]; apply Z.pow_le_mono_r; lia. }
  destruct (RoundUp_bounds 32 addr k) as [Hb Hm]; [lia..|]. fold na0 in Hb, Hm.
  assert (Hna4 : na0 mod 4 = 0) by (apply (mod4_of_pow na0 k); [lia|done]).
  assert (Hne : na0 ≠ addr) by (by intros E; rewrite E in Hm).
  assert (Hgap : addr + 4 ≤ na0) by dlia.
  assert (H31 : na0 ≤ 2 ^ 31).
  { apply (least_multiple addr na0 k); [lia|done|lia| |lia]. apply Z.mod_divide; [lia|].
    exists (2 ^ (31 - k)). rewrite <- Z.pow_add_r by lia. f_equal. lia. }
  assert (HPna : 2 ^ k ≤ na0).
  { assert (Hz : na0 = na0 / 2 ^ k * 2 ^ k) by (pose proof (Z.div_mod na0 (2 ^ k)); lia).
    assert (0 < na0 / 2 ^ k) by (apply (Z.mul_pos_cancel_r _ (2 ^ k)); lia). nia. }
  unfold na. rewrite (u32_low (na0 - addr)) by lia. consts.
  destruct (Z.eqb_spec (na0 - addr) 4) as [E|E].
  - rewrite (u32_low (na0 + 2 ^ k)) by lia.
    assert (Hm2 : (na0 + 2 ^ k) mod 2 ^ k = 0).
    { rewrite <- (Z.mul_1_l (2 ^ k)) at 1. rewrite Z.mod_add by lia. done. }
    split_and!; try lia; try done; [by apply (mod4_of_pow _ k); [lia|]|apply u32_low; lia|].
    intros p Hp Hpa. apply (least_multiple (na0 + 1) _ k); try done; lia.
  - split_and!; try lia; try done; [dlia|apply u32_low; lia|].
    intros p Hp Hpa. apply (least_multiple addr _ k); try done; lia.
Qed.

(** The chosen block of a partition, and a partition behind a leading free block. *)
Lemma partitioned_hdr h a sz n align c h' :
  partitioned h a sz n align c h' → 0 < a → a mod 4 = 0 →
  a + (kHeader + sz) ≤ 2 ^ kSizeBitsMax →
  0 < c ∧ ∃ k, hdr_at h' c k false ∧ k mod 4 = 0 ∧ n ≤ k.
Proof.
  intros (m' & pre & k & post & -> & -> & Hk & _ & Hok & Hsp & _ & _ & _ & _ & Hrep) Ha H4 Hend.
  rewrite span_app in Hsp. simpl in Hsp. apply rep_blocks_app in Hrep as [_ [Hrep _]].
  apply Forall_app in Hok as [Hp [[Hk0 Hk4] Hpost]%Forall_cons]. simpl in *.
  pose proof (span_nonneg _ Hp) as []. pose proof (span_nonneg _ Hpost) as [].
  split; [lia|]. exists k. split_and!; [|exact Hk4|lia]. split_and!; [done| |clia..]. consts. dlia.
Qed.

Lemma partitioned_behind h m a sz p n align c h' :
  block_ok (p, false) → p + kHeader < sz →
  (∀ w, ¬ (a ≤ w < a + (kHeader + sz)) → m !! w = words h !! w) →
  (∀ w, is_Some (words h !! w) → is_Some (m !! w)) → m !! a = Some (mk_hdr p false) →
  partitioned (set_words m h) (a + (kHeader + p)) (sz - (kHeader + p)) n align c h' →
  partitioned h a sz n align c h'.
Proof.
  intros Hp Hlt Hm Hdom Hhdr
    (m' & pre & k & post & -> & -> & Hk & Hal & Hok & Hsp & Hl1 & Hl2 & Hm' & Hdom' & Hrep).
  destruct Hp as [Hp0 Hp4]. simpl in *. exists m', ((p, false) :: pre), k, post. simpl.
  split_and!; try done; try lia.
  - by constructor.
  - intros w Hw. rewrite Hm' by clia. apply Hm. clia.
  - intros w Hw. by apply Hdom', Hdom.
  - rewrite Hm' by clia. done.
Qed.

Section Unaligned.
Variables (h : heap) (a sz n k : Z).
Hypothesis Hhdr : hdr_at h a sz false.
Hypothesis Ha : 0 < a.
Hypothesis Hsz : 0 < sz ∧ sz mod 4 = 0.
Hypothesis Hend : a + (kHeader + sz) ≤ 2 ^ kSizeBitsMax.
Hypothesis Hmap : mapped (words h) a (a + (kHeader + sz)).
Hypothesis Hn : 0 < n ∧ n mod 4 = 0.
Hypothesis Hk : 2 ≤ k < 32.
Hypothesis Hal : (a + kHeader) mod 2 ^ k ≠ 0.
Hypothesis Hlt : n < sz.

Let na0 := RoundUp 32 (a + kHeader) (2 ^ k).
Let na := if u32 (na0 - (a + kHeader)) =? kHeader then u32 (na0 + 2 ^ k) else na0.
Let p := na - (a + kHeader) - kHeader.
Let m2 := <[a := mk_hdr p false]> (<[na - kHeader := mk_hdr (a + kHeader + sz - na) false]> (words h)).

Lemma unaligned_facts :
  kHeader ≤ u32 (na0 - (a + kHeader)) ∧ na0 mod 2 ^ k = 0 ∧ na mod 2 ^ k = 0 ∧ na mod 4 = 0 ∧
  a + kHeader + 8 ≤ na ∧ u32 (na + n) = na + n ∧ na + n < 2 ^ 32 ∧
  ∀ p, p mod 2 ^ k = 0 → a + kHeader + 8 ≤ p → na ≤ p.
Proof.
  pose proof Hhdr as (Hw & Ha4 & Hr).
  assert (Had4 : (a + kHeader) mod 4 = 0) by (consts; dlia).
  apply (realigned (a + kHeader) (a + kHeader + sz) n k); try done; [clia|lia|consts; dlia|clia].
Qed.

Lemma partition_front fuel :
  na + n ≤ a + kHeader + sz →
  partition (S fuel) a n (2 ^ k) h =
  (new_header ← partition fuel (na - kHeader) n (2 ^ k);
   assert_ (tobool new_header);;
   used ← isUsed new_header; assert_ (negb used);;
   valid ← IsValid new_header; assert_ valid;;
   mret new_header) (set_words m2 h).
Proof.
  intros Hfit. pose proof Hhdr as (Hw & Ha4 & Hr).
  destruct unaligned_facts as (Hg & Hm0 & Hm & H4 & Hlo & Hu & H32 & _).
  rewrite (partition_prefix h a sz n k) by done. cbv zeta. fold na0. fold na.
  rewrite (proj2 (Z.eqb_neq sz n)), (proj2 (Z.ltb_ge sz n)) by lia.
  rewrite (proj2 (Z.eqb_neq _ _) Hal), (proj2 (Z.leb_le _ _) Hg), Hm0.
  erewrite bind_Ok by done. erewrite bind_Ok by done. rewrite Hu.
  rewrite (proj2 (Z.ltb_ge _ _)) by done.
  rewrite (u32_low (a + kHeader + sz - na)) by clia.
  unfold SizeFits. rewrite (proj2 (Z.leb_le _ kSizeMax)), (proj2 (Z.eqb_neq (_ - na) 0)) by clia.
  cbn [negb]. rewrite (u32_low (na - kHeader)), (proj2 (Z.eqb_neq _ a)) by clia.
  erewrite bind_Ok by done.
  assert (Hs4 : (a + kHeader + sz - na) mod 4 = 0) by (consts; dlia).
  assert (Hh4 : (na - kHeader) mod 4 = 0) by (consts; dlia).
  rewrite new_header_Ok; [|done|apply Hmap; clia|clia|done].
  set (h1 := set_words _ h).
  assert (H1 : hdr_at h1 (na - kHeader) (a + kHeader + sz - na) false)
    by (apply hdr_at_insert; [done|clia]).
  erewrite bind_Ok by (by eapply IsValid_Ok). erewrite bind_Ok by done.
  rewrite (u32_low (na - (a + kHeader) - kHeader)) by clia.
  assert (Hw1 : words h1 !! a = Some (mk_hdr sz false)).
  { unfold h1. simpl. rewrite lookup_insert_ne by clia. done. }
  assert (Hp4 : (na - (a + kHeader) - kHeader) mod 4 = 0) by (consts; dlia).
  erewrite bind_Ok by (eapply setSize_Ok; [done|exact Hw1|clia|done]).
  rewrite hdr_used_mk by clia.
  erewrite bind_Ok by (eapply IsValid_Ok; [apply hdr_at_insert; [done|clia]|done]).
  erewrite bind_Ok by done. done.
Qed.

Lemma partition_unaligned fuel :
  if a + kHeader + sz <? na + n then partition (S (S fuel)) a n (2 ^ k) h = Ok (0, h)
  else ∃ h', partition (S (S fuel)) a n (2 ^ k) h = Ok (na - kHeader, h') ∧
             partitioned h a sz n (2 ^ k) (na - kHeader) h'.
Proof.
  pose proof Hhdr as (Hw & Ha4 & Hr).
  destruct unaligned_facts as (Hg & Hm0 & Hm & H4 & Hlo & Hu & H32 & _).
  destruct (Z.ltb_spec (a + kHeader + sz) (na + n)) as [|Hfit].
  { rewrite (partition_prefix h a sz n k) by done. cbv zeta. fold na0. fold na.
    rewrite (proj2 (Z.eqb_neq sz n)), (proj2 (Z.ltb_ge sz n)) by lia.
    rewrite (proj2 (Z.eqb_neq _ _) Hal), (proj2 (Z.leb_le _ _) Hg), Hm0.
    erewrite bind_Ok by done. erewrite bind_Ok by done.
    by rewrite Hu, (proj2 (Z.ltb_lt _ _)). }
  rewrite partition_front by done. set (h2 := set_words m2 h).
  assert (Hdom : ∀ w, is_Some (words h !! w) → is_Some (m2 !! w)).
  { intros w Hwr. unfold m2. rewrite !lookup_insert_is_Some'. auto. }
  assert (Hs4 : (a + kHeader + sz - na) mod 4 = 0) by (consts; dlia).
  assert (Hh4 : (na - kHeader) mod 4 = 0) by (consts; dlia).
  pose proof (partition_aligned h2 (na - kHeader) (a + kHeader + sz - na) n k) as Hrec.
  specialize (Hrec ltac:(split; [|split; [done|clia]];
    unfold h2, m2; simpl; rewrite lookup_insert_ne by clia; apply lookup_insert_eq)).
  specialize (Hrec ltac:(clia) ltac:(split; [clia|done]) ltac:(clia)).
  specialize (Hrec ltac:(intros w Hw' Hw4; apply Hdom, Hmap; [clia|done]) Hn Hk fuel).
  specialize (Hrec ltac:(replace (na - kHeader + kHeader) with na by lia; done)).
  rewrite (proj2 (Z.ltb_ge _ n)) in Hrec by lia. destruct Hrec as (h' & Hrun & Hpart).
  exists h'. destruct (partitioned_hdr _ _ _ _ _ _ _ Hpart) as (Hc & k' & Hhdr' & Hk4 & _);
    [clia|done|clia|]. split.
  - rewrite (bind_Ok _ _ _ _ _ Hrun), tobool_pos by done. erewrite bind_Ok by done.
    rewrite (bind_Ok _ _ _ _ _ (isUsed_Ok _ _ _ _ Hhdr')). erewrite bind_Ok by done.
    rewrite (bind_Ok _ _ _ _ _ (IsValid_Ok _ _ _ _ Hhdr' Hk4)). by erewrite bind_Ok by done.
  - apply (partitioned_behind h m2 a sz p); try done.
    + split; simpl; [unfold p; clia|unfold p; consts; dlia].
    + unfold p. clia.
    + intros w Hwr. unfold m2. rewrite !lookup_insert_ne by clia. done.
    + apply lookup_insert_eq.
    + replace (a + (kHeader + p)) with (na - kHeader) by (unfold p; lia).
      replace (sz - (kHeader + p)) with (a + kHeader + sz - na) by (unfold p; lia). exact Hpart.
Qed.

End Unaligned.

(** [Partition] of a free block succeeds exactly when the request fits in it. *)
Lemma Partition_Ok h a sz n k :
  hdr_at h a sz false → 0 < a → 0 < sz ∧ sz mod 4 = 0 → a + (kHeader + sz) ≤ 2 ^ kSizeBitsMax →
  mapped (words h) a (a + (kHeader + sz)) → 0 < n ∧ n mod 4 = 0 → 2 ≤ k < 32 →
  (¬ fits a sz n (2 ^ k) ∧ Partition a n (2 ^ k) h = Ok (0, h)) ∨
  (fits a sz n (2 ^ k) ∧ ∃ c h', Partition a n (2 ^ k) h = Ok (c, h') ∧
     partitioned h a sz n (2 ^ k) c h').
Proof.
  intros Hhdr Ha Hsz Hend Hmap Hn Hk. unfold Partition.
  destruct (decide ((a + kHeader) mod 2 ^ k = 0)) as [Hal|Hal].
  - pose proof (partition_aligned h a sz n k Hhdr Ha Hsz Hend Hmap Hn Hk 1 Hal) as H.
    destruct (Z.ltb_spec sz n); [left|right]; (split; [|by eauto]).
    + intros (p & _ & [-> |] & ?); clia.
    + exists (a + kHeader). split_and!; [done|by left|lia].
  - destruct (Z.le_gt_cases sz n) as [Hle|Hlt].
    { left. split.
      - intros (p & Hp & [-> |] & ?); [done|clia].
      - rewrite (partition_prefix h a sz n k) by done. cbv zeta.
        rewrite (proj2 (Z.eqb_neq _ _) Hal). destruct (Z.eqb_spec sz n); [done|].
        by rewrite (proj2 (Z.ltb_lt sz n)) by lia. }
    pose proof (partition_unaligned h a sz n k Hhdr Ha Hsz Hend Hmap Hn Hk Hal Hlt 0) as H.
    destruct (unaligned_facts h a sz n k Hhdr Ha Hsz Hend Hn Hk Hal Hlt) as
      (_ & _ & Hm & _ & Hlo & _ & _ & Hmin). simpl in H. set (na := if _ =? kHeader then _ else _) in *.
    destruct (Z.ltb_spec (a + kHeader + sz) (na + n)); [left|right]; (split; [|by eauto]).
    + intros (p & Hp & [-> |Hp12] & Hpe); [done|]. specialize (Hmin p Hp ltac:(clia)). lia.
    + exists na. split_and!; [done|right; clia|lia].
Qed.

(** ** [MergeMallocHeaders] *)
Lemma coalesce_facts bs a :
  Forall block_ok bs →
  Forall block_ok (coalesce bs) ∧ span (coalesce bs) = span bs ∧
  live (headers_at a (coalesce bs)) = live (headers_at a bs) ∧ (coalesce bs = [] → bs = []).
Proof.
  intros Hok. revert a. induction Hok as [|[sz u] bs [H0 H4] Hok IH]; intros a; [done|].
  simpl in H0, H4. destruct (IH (a + (kHeader + sz))) as (IH1 & IH2 & IH3 & IH4).
  assert (Hb : block_ok (sz, u)) by done. destruct u; simpl.
  { split_and!; [by constructor|lia| |done]. unfold live in *. simpl. by rewrite IH3. }
  destruct (coalesce bs) as [|[sz' u'] bs'] eqn:E; simpl in *.
  { split_and!; [by constructor|lia|exact IH3|done]. }
  destruct u'; simpl in *; [split_and!; [by constructor|lia|exact IH3|done]|].
  apply Forall_cons in IH1 as [[H0' H4'] IH1]. simpl in *.
  split_and!; [|lia| |done].
  - constructor; [|done]. split; simpl; [clia|]. consts. dlia.
  - rewrite <- IH3. unfold live. simpl. do 2 f_equal. lia.
Qed.

Definition free_run (fs : list block) : Prop := Forall (λ b, b.2 = false) fs.
Definition used_first (bs : list block) : Prop :=
  match bs with [] => True | b :: _ => b.2 = true end.

Lemma blocks_run bs : ∃ fs rest, bs = fs ++ rest ∧ free_run fs ∧ used_first rest.
Proof.
  induction bs as [|[sz u] bs (fs & rest & -> & Hf & Hr)]; [|destruct u].
  - exists [], []. split_and!; [done|constructor|done].
  - exists [], ((sz, true) :: fs ++ rest). split_and!; [done|constructor|done].
  - exists ((sz, false) :: fs), rest. split_and!; [done|by constructor|done].
Qed.

Lemma coalesce_used_first rest :
  used_first rest → match coalesce rest with (_, false) :: _ => False | _ => True end.
Proof. destruct rest as [|[sz []] bs]; done. Qed.

Lemma coalesce_run sz fs rest :
  free_run fs → used_first rest →
  coalesce ((sz, false) :: fs ++ rest) = (sz + span fs, false) :: coalesce rest.
Proof.
  intros Hf Hr. revert sz. induction Hf as [|[sz' u] fs Hu Hf IH]; intros sz.
  - pose proof (coalesce_used_first rest Hr). simpl. rewrite Z.add_0_r.
    by destruct (coalesce rest) as [|[? []] ?].
  - simpl in Hu. subst u. change (coalesce ((sz, false) :: ((sz', false) :: fs) ++ rest)) with
      (match coalesce ((sz', false) :: fs ++ rest) with
       | (n, false) :: bs' => (sz + (kHeader + n), false) :: bs'
       | bs' => (sz, false) :: bs' end).
    rewrite IH. simpl. do 2 f_equal. lia.
Qed.

Lemma last_used_run sz fs rest :
  free_run fs → last_used ((sz, false) :: fs ++ rest) = match rest with [] => false | _ => last_used rest end.
Proof.
  intros Hf. unfold last_used. destruct rest as [|b rest].
  - rewrite app_nil_r, last_cons. destruct (last fs) as [b|] eqn:E; [|done].
    apply last_Some_elem_of in E. unfold free_run in Hf. rewrite Forall_forall in Hf. by rewrite (Hf b E).
  - rewrite last_cons, last_app_cons. by destruct (last (b :: rest)) eqn:E; [|apply last_None in E].
Qed.

Lemma live_free_run a fs : free_run fs → live (headers_at a fs) = [].
Proof.
  intros Hf. revert a. induction Hf as [|[sz u] fs Hu Hf IH]; intros a; [done|].
  simpl in Hu. subst u. unfold live in *. simpl. apply IH.
Qed.

Lemma span_zero bs : Forall block_ok bs → span bs ≤ 0 → bs = [].
Proof.
  destruct 1 as [|b bs [Hb _] Hbs]; [done|]. pose proof (span_nonneg _ Hbs) as [].
  simpl. clia.
Qed.

(** The first header of a run of blocks. *)
Lemma hdr_at_cons h a sz u bs :
  Forall block_ok ((sz, u) :: bs) → rep_blocks (words h) a ((sz, u) :: bs) → 0 ≤ a →
  a mod 4 = 0 → a + span ((sz, u) :: bs) ≤ 2 ^ kSizeBitsMax → hdr_at h a sz u.
Proof. intros Hok Hrep H0 H4 He. apply (hdr_at_rep h a _ (a, sz, u) Hok Hrep); [done..|by left]. Qed.

Lemma IncSize_Ok h a sz inc :
  hdr_at h a sz false → 0 < inc → sz + inc < 2 ^ kSizeBitsMax →
  IncSize a inc h = Ok (tt, set_words (<[a := mk_hdr (sz + inc) false]> (words h)) h).
Proof.
  intros (Hw & Ha & Hsz) Hi Hs. unfold IncSize.
  rewrite (bind_Ok _ _ _ _ _ (load_Ok _ _ _ Ha Hw)), hdr_size_mk, hdr_used_mk by done.
  unfold SizeFitsInc. rewrite (u32_low (sz + inc)) by clia.
  rewrite (proj2 (Z.ltb_ge _ _)), (proj2 (Z.leb_le _ kSizeMax)) by clia.
  erewrite bind_Ok by done. rewrite Z.mod_small by clia.
  erewrite bind_Ok by (apply store_Ok; eauto).
  erewrite bind_Ok by (eapply getSize_Ok, hdr_at_insert; [done|clia]).
  by rewrite tobool_pos by lia.
Qed.

Lemma set_words_id h a w : words h !! a = Some w → set_words (<[a := w]> (words h)) h = h.
Proof. intros H. unfold set_words. rewrite insert_id by done. by destruct h. Qed.

Definition nonempty {A} (l : list A) : bool := match l with [] => false | _ => true end.

Lemma merge_next_Ok a rest end_ fs : ∀ fuel sz h,
  hdr_at h a sz false → 0 < a → 0 < sz → sz mod 4 = 0 → free_run fs → used_first rest →
  Forall block_ok (fs ++ rest) → rep_blocks (words h) (a + (kHeader + sz)) (fs ++ rest) →
  end_ = a + (kHeader + sz) + span (fs ++ rest) → end_ ≤ 2 ^ kSizeBitsMax → fs ++ rest ≠ [] →
  (length fs < fuel)%nat →
  merge_next fuel a end_ (a + kHeader + sz) h =
  Ok (nonempty rest, set_words (<[a := mk_hdr (sz + span fs) false]> (words h)) h).
Proof.
  induction fs as [|[s1 u1] fs IH]; intros fuel sz h Hhdr Ha Hsz H4 Hf Hr Hok Hrep He Hend Hne Hfuel;
    (destruct fuel as [|fuel]; [simpl in Hfuel; lia|]); cbn [merge_next].
  - rewrite app_nil_l in *. destruct rest as [|[s u] rest]; [done|]. simpl in Hr. subst u.
    assert (Hx : hdr_at h (a + kHeader + sz) s true).
    { replace (a + kHeader + sz) with (a + (kHeader + sz)) by lia.
      apply (hdr_at_cons h _ _ _ _ Hok Hrep); [clia| |by subst].
      destruct Hhdr as (_ & ? & _). consts. dlia. }
    rewrite (bind_Ok _ _ _ _ _ (getSize_Ok _ _ _ _ Hx)), (bind_Ok _ _ _ _ _ (isUsed_Ok _ _ _ _ Hx)).
    apply Forall_cons in Hok as [[Hs _] _]. simpl in Hs. rewrite (proj2 (Z.eqb_neq s 0)) by lia.
    simpl. rewrite Z.add_0_r, set_words_id; [done|apply Hhdr].
  - rewrite <- app_comm_cons in *.
    apply Forall_cons in Hf as [Hu Hf]. simpl in Hu. subst u1. simpl in Hrep, He.
    assert (Hx : hdr_at h (a + kHeader + sz) s1 false).
    { replace (a + kHeader + sz) with (a + (kHeader + sz)) by lia.
      apply (hdr_at_cons h _ s1 false (fs ++ rest) Hok); [done|clia| |simpl; clia].
      destruct Hhdr as (_ & ? & _). consts. dlia. }
    rewrite (bind_Ok _ _ _ _ _ (getSize_Ok _ _ _ _ Hx)), (bind_Ok _ _ _ _ _ (isUsed_Ok _ _ _ _ Hx)).
    rewrite orb_true_r. apply Forall_cons in Hok as [[Hs Hs4] Hok]. simpl in Hs, Hs4.
    pose proof (span_nonneg _ Hok) as [Hsp _]. rewrite (u32_low (kHeader + s1)) by clia.
    erewrite bind_Ok by (apply (IncSize_Ok h a sz); [done|clia|clia]).
    set (h1 := set_words _ h).
    assert (H1 : hdr_at h1 a (sz + (kHeader + s1)) false)
      by (apply hdr_at_insert; [apply Hhdr|clia]).
    rewrite (bind_Ok _ _ _ _ _ (getSize_Ok _ _ _ _ H1)), u32_low by clia.
    assert (Hss : span ((s1, false) :: fs) = kHeader + s1 + span fs) by done.
    assert (H14 : (sz + (kHeader + s1)) mod 4 = 0) by (consts; dlia).
    destruct (Z.leb_spec end_ (a + kHeader + (sz + (kHeader + s1)))) as [Hle|Hgt].
    { apply span_zero in Hok as [-> ->]%app_nil; [|lia]. rewrite Hss. simpl. by rewrite Z.add_0_r. }
    rewrite (bind_Ok _ _ _ _ _ (IsValid_Ok _ _ _ _ H1 H14)). erewrite bind_Ok by done.
    rewrite (IH fuel _ h1); try done; try clia.
    + unfold h1. cbn [words set_words]. rewrite Hss. rewrite insert_insert_eq.
      unfold set_words. simpl. by replace (sz + (kHeader + s1) + span fs) with (sz + (kHeader + s1 + span fs)) by lia.
    + apply (rep_blocks_local (words h)); [done| |].
      * intros w Hw. unfold h1. simpl. rewrite lookup_insert_ne; [done|]. clia.
      * replace (a + (kHeader + (sz + (kHeader + s1)))) with (a + (kHeader + sz) + (kHeader + s1)) by lia.
        apply Hrep.
    + intros E. rewrite E in He. simpl in He. lia.
    + simpl in Hfuel. lia.
Qed.

Lemma set_words_words h : set_words (words h) h = h.
Proof. by destruct h. Qed.

(** A change within a run of blocks that spares its live allocations. *)
Definition keeps (a : Z) (bs : list block) (m m' : gmap Z Z) : Prop :=
  (∀ w, ¬ (a ≤ w < a + span bs) → m' !! w = m !! w) ∧
  (∀ p n w, (p, n) ∈ live (headers_at a bs) → p - kHeader ≤ w < p + n → m' !! w = m !! w) ∧
  (∀ w, is_Some (m !! w) → is_Some (m' !! w)).

Lemma keeps_refl a bs m : keeps a bs m m.
Proof. done. Qed.

(** [keeps] of the blocks behind a free run whose first header changes. *)
Lemma keeps_free_run a bs1 bs2 w0 m m' :
  free_run bs1 → Forall block_ok (bs1 ++ bs2) → 0 < span bs1 →
  keeps (a + span bs1) bs2 (<[a := w0]> m) m' → keeps a (bs1 ++ bs2) m m'.
Proof.
  intros Hf [Hok1 Hok2]%Forall_app Hsp (Ho & Hl & Hd).
  pose proof (span_nonneg _ Hok2) as [? _]. unfold keeps.
  rewrite headers_at_app, live_app, (live_free_run a bs1 Hf), span_app, app_nil_l. split_and!.
  - intros w Hw. rewrite Ho, lookup_insert_ne by lia. done.
  - intros p n w Hp Hw. rewrite (Hl p n w Hp Hw), lookup_insert_ne; [done|].
    apply live_at_bounds in Hp; [|done]. lia.
  - intros w Hw. apply Hd. rewrite lookup_insert_is_Some'. auto.
Qed.

Lemma keeps_used a sz bs m m' :
  block_ok (sz, true) → Forall block_ok bs →
  keeps (a + (kHeader + sz)) bs m m' → keeps a ((sz, true) :: bs) m m'.
Proof.
  intros [H0 _] Hok (Ho & Hl & Hd). pose proof (span_nonneg _ Hok) as [? _]. simpl in H0.
  split_and!; [| |done].
  - intros w Hw. apply Ho. simpl in Hw. clia.
  - intros p n w. simpl. unfold live; simpl. intros [Hp|Hp]%elem_of_cons Hw.
    + simplify_eq. apply Ho. clia.
    + by apply (Hl p n w).
Qed.

Lemma merge_callback_used h a sz alloc n arg :
  hdr_at h a sz true → merge_callback a alloc n arg h = Ok ((true, arg), h).
Proof. intros H. unfold merge_callback. by rewrite (bind_Ok _ _ _ _ _ (isUsed_Ok _ _ _ _ H)). Qed.

Lemma merge_callback_free h a sz fs rest alloc n :
  let bs := (sz, false) :: fs ++ rest in
  Forall block_ok bs → rep_blocks (words h) a bs → 0 < a → a mod 4 = 0 →
  free_run fs → used_first rest →
  u32 (alloc + n) = a + span bs → a + span bs ≤ 2 ^ kSizeBitsMax →
  merge_callback a alloc n tt h =
  Ok ((nonempty rest, tt), set_words (<[a := mk_hdr (sz + span fs) false]> (words h)) h).
Proof.
  intros bs Hok Hrep Ha H4 Hf Hr Hend Hle.
  assert (Hx : hdr_at h a sz false) by (apply (hdr_at_cons h a sz false (fs ++ rest)); try done; lia).
  pose proof (fuel_blocks h a bs Hok Hrep) as Hfuel.
  apply Forall_cons in Hok as [[H0 Hs4] Hok]. pose proof (span_nonneg _ Hok) as [Hsp _].
  destruct Hrep as [_ Hrep]. subst bs. simpl in H0, Hs4, Hend, Hle, Hrep.
  unfold merge_callback. rewrite (bind_Ok _ _ _ _ _ (isUsed_Ok _ _ _ _ Hx)).
  rewrite (bind_Ok _ _ _ _ _ (getSize_Ok _ _ _ _ Hx)), Hend, u32_low by clia. cbv zeta.
  destruct (Z.leb_spec (a + (kHeader + sz + span (fs ++ rest))) (a + kHeader + sz)) as [Hz|Hz].
  { apply span_zero in Hok as [-> ->]%app_nil; [|lia]. simpl. rewrite Z.add_0_r, set_words_id; [done|].
    apply Hx. }
  erewrite bind_Ok by done. erewrite bind_Ok; [done|].
  apply merge_next_Ok; try done; [lia| |].
  - intros E. rewrite E in Hz. simpl in Hz. lia.
  - simpl in Hfuel. rewrite length_app in Hfuel. lia.
Qed.

Lemma iter_region_merge alloc n end_ N : ∀ bs fuel a h,
  (length bs ≤ N)%nat → Forall block_ok bs → rep_blocks (words h) a bs → 0 < a → a mod 4 = 0 →
  end_ = a + span bs → end_ ≤ 2 ^ kSizeBitsMax → u32 (alloc + n) = end_ → (length bs < fuel)%nat →
  ∃ m', iter_region merge_callback fuel alloc n end_ a tt h = Ok ((last_used bs, tt), set_words m' h) ∧
        rep_blocks m' a (coalesce bs) ∧ keeps a bs (words h) m'.
Proof.
  induction N as [|N IH]; intros bs fuel a h HN Hok Hrep Ha H4 He Hle Hal Hfuel;
    (destruct fuel as [|fuel]; [lia|]); cbn [iter_region];
    (destruct bs as [|[sz u] bs];
     [exists (words h); simpl in He; rewrite (proj2 (Z.ltb_ge a end_)), set_words_words by lia;
      split_and!; try done; apply keeps_refl|]); simpl in HN, Hfuel; [lia|].
  assert (Hx : hdr_at h a sz u) by (apply (hdr_at_cons h a sz u bs); try done; lia).
  pose proof Hok as [[H0 Hs4] Hok']%Forall_cons. simpl in H0, Hs4.
  pose proof (span_nonneg _ Hok') as [Hsp _]. pose proof Hrep as [_ Hrep'].
  assert (Hspan : span ((sz, u) :: bs) = kHeader + sz + span bs) by done.
  rewrite (proj2 (Z.ltb_lt a end_)) by clia. destruct u.
  - rewrite (bind_Ok _ _ _ _ _ (merge_callback_used h a sz alloc n tt Hx)). cbn [fst snd negb].
    rewrite (bind_Ok _ _ _ _ _ (getSize_Ok _ _ _ _ Hx)), u32_low by clia.
    destruct (IH bs fuel (a + (kHeader + sz)) h) as (m' & Hrun & Hm' & Hk); try done; try clia.
    { consts. dlia. }
    exists m'. split_and!.
    + rewrite Hrun. do 3 f_equal. unfold last_used. rewrite last_cons. by destruct (last bs).
    + simpl. split; [|done]. destruct Hk as (Ho & _). rewrite Ho by clia. apply Hrep.
    + by apply keeps_used.
  - destruct (blocks_run bs) as (fs & rest & -> & Hf & Hr).
    pose proof Hok' as [Hokf Hokr]%Forall_app. pose proof (span_nonneg _ Hokf) as [Hspf Hspf4].
    pose proof (span_nonneg _ Hokr) as [Hspr _]. rewrite span_app in Hspan.
    assert (Hrun : free_run ((sz, false) :: fs)) by by constructor.
    erewrite bind_Ok by (apply (merge_callback_free h a sz fs rest); try done; lia).
    set (h1 := set_words _ h). rewrite coalesce_run, last_used_run by done. cbn [fst snd].
    assert (Hsame : (sz, false) :: fs ++ rest = ((sz, false) :: fs) ++ rest) by done.
    assert (Hspan1 : span ((sz, false) :: fs) = kHeader + sz + span fs) by done.
    destruct rest as [|b rest]; cbn [nonempty negb].
    { exists (words h1). split_and!; [done|split; [apply lookup_insert_eq|done]|].
      rewrite Hsame. eapply keeps_free_run; [done|done|clia|apply keeps_refl]. }
    assert (H1 : hdr_at h1 a (sz + span fs) false) by (apply hdr_at_insert; [done|simpl in *; clia]).
    rewrite (bind_Ok _ _ _ _ _ (getSize_Ok _ _ _ _ H1)), u32_low by clia.
    destruct (IH (b :: rest) fuel (a + (kHeader + (sz + span fs))) h1) as (m' & Hr' & Hm' & Hk);
      try done; try clia.
    + rewrite length_app in HN. simpl in *. lia.
    + apply (rep_blocks_local (words h)); [done| |].
      * intros w Hw. unfold h1. simpl. rewrite lookup_insert_ne; [done|clia].
      * apply rep_blocks_app in Hrep' as [_ Hrep'].
        by replace (a + (kHeader + (sz + span fs))) with (a + (kHeader + sz) + span fs) by lia.
    + consts. dlia.
    + rewrite length_app in Hfuel. simpl in *. lia.
    + exists m'. split_and!; [exact Hr'| |].
      * split; [|done]. destruct Hk as (Ho & _). rewrite Ho by clia. apply lookup_insert_eq.
      * rewrite Hsame. eapply keeps_free_run; [done|done|clia|].
        rewrite Hspan1. replace (a + (kHeader + sz + span fs)) with (a + (kHeader + (sz + span fs))) by lia.
        exact Hk.
Qed.

Lemma focus_whole rs1 b bs rs2 : focus rs1 b [] bs [] rs2 = rs1 ++ mkRegion b bs :: rs2.
Proof. unfold focus. by rewrite app_nil_r. Qed.

Lemma rep_regions_drop m rs1 rs2 : rep_regions m (rs1 ++ rs2) → rep_regions m rs2.
Proof. induction rs1 as [|r rs1 IH]; [done|]. intros (_ & _ & _ & _ & _ & _ & H). auto. Qed.

(** Merging the blocks of one region. *)
Lemma merge_region m m' rs1 b bs rs2 :
  rep_regions m (rs1 ++ mkRegion b bs :: rs2) →
  rep_blocks m' (b + kAllocOffset) (coalesce bs) → keeps (b + kAllocOffset) bs m m' →
  let rs' := rs1 ++ mkRegion b (coalesce bs) :: rs2 in
  rep_regions m' rs' ∧ frame (rs1 ++ mkRegion b bs :: rs2) m m' ∧
  live_in rs' = live_in (rs1 ++ mkRegion b bs :: rs2) ∧
  extents rs' = extents (rs1 ++ mkRegion b bs :: rs2).
Proof.
  intros Hrep Hb (Ho & Hl & Hd) rs'. subst rs'. rewrite <- !focus_whole in *.
  assert (Ea : focus_addr b [] = b + kAllocOffset) by (unfold focus_addr; simpl; lia).
  destruct (focus_region _ _ _ _ _ _ _ Hrep) as (Hok & _ & _ & (_ & Hbs & _) & _).
  destruct (coalesce_facts bs (b + kAllocOffset) Hbs) as (Hok' & Hsp & Hlive & Hnil).
  split_and!.
  - apply (focus_replace m m' rs1 b [] bs); rewrite ?Ea; try done.
    destruct Hok as (_ & _ & Hne & _). intros E. by apply Hnil in E as ->.
  - split.
    + intros p n w Hp Hw. pose proof (focus_apart _ _ _ _ _ _ _ p n Hrep) as Hap.
      rewrite live_focus, Ea in Hp. rewrite Ea in Hap.
      apply elem_of_app in Hp as [Hp|[Hp|Hp]%elem_of_app]; [|by apply (Hl p n)|].
      * destruct (Hap (or_introl Hp)); apply Ho; clia.
      * destruct (Hap (or_intror Hp)); apply Ho; clia.
    + by apply (focus_outside m m' rs1 b []); [done|rewrite Ea].
  - rewrite !live_focus, Ea, Hlive, Hsp. done.
  - by apply extents_focus.
Qed.

Lemma iter_allocs_merge rs : ∀ fuel pre h,
  rep_regions (words h) (pre ++ rs) → (length rs < fuel)%nat →
  ∃ m', iter_allocs merge_callback fuel (first_of rs) tt h = Ok (tt, set_words m' h) ∧
        rep_regions m' (pre ++ merge_regions rs) ∧ frame (pre ++ rs) (words h) m' ∧
        live_in (pre ++ merge_regions rs) = live_in (pre ++ rs) ∧
        extents (pre ++ merge_regions rs) = extents (pre ++ rs).
Proof.
  induction rs as [|[b bs] rs IH]; intros fuel pre h Hrep Hfuel; (destruct fuel as [|fuel]; [lia|]).
  { exists (words h). rewrite set_words_words. split_and!; try done. }
  pose proof (rep_regions_drop _ _ _ Hrep) as Hr. cbn [first_of rbase].
  rewrite (iter_allocs_region _ h fuel (mkRegion b bs) rs tt Hr).
  pose proof Hr as (Hok & _ & _ & _ & _ & Hblk & _).
  pose proof (region_ok_bounds _ Hok) as (Hb0 & Hs4 & _ & Hend & Hle).
  destruct (region_words _ _ _ rs Hr eq_refl) as (_ & _ & _ & _ & Hu).
  destruct Hok as (_ & _ & _ & Hbok & _). unfold rstart in *. cbn [rbase rblocks] in *.
  pose proof (fuel_blocks h _ _ Hbok Hblk) as Hfb.
  destruct (iter_region_merge b (rsize (mkRegion b bs)) (rend (mkRegion b bs)) (length bs) bs
    (fuel_of h) (b + kAllocOffset) h) as (m1 & Hrun & Hm1 & Hk); try done; [clia|].
  destruct (merge_region _ _ _ _ _ _ Hrep Hm1 Hk) as (Hrep1 & Hfr & Hlv & Hex).
  rewrite (bind_Ok _ _ _ _ _ Hrun). cbn [merge_regions rbase rblocks fst snd].
  destruct (last_used bs); cbn [negb]; [|exists m1; by split_and!].
  set (h1 := set_words m1 h). set (r' := mkRegion b (coalesce bs)) in *.
  destruct (region_words h1 rs r' rs) as (_ & Hnext & _);
    [apply (rep_regions_drop m1 pre), Hrep1|done|].
  rewrite (bind_Ok _ _ _ _ _ Hnext).
  destruct (IH fuel (pre ++ [r']) h1) as (m' & Hrun' & Hrep' & Hfr' & Hlv' & Hex');
    [by rewrite <- app_assoc|simpl in Hfuel; lia|]. rewrite <- !app_assoc in *. simpl in *.
  exists m'. split_and!; [exact Hrun'|done| |by rewrite Hlv'|by rewrite Hex'].
  eapply frame_trans; [|exact Hex|exact Hfr|exact Hfr']. by rewrite Hlv.
Qed.

Lemma merge_regions_first rs : first_of (merge_regions rs) = first_of rs.
Proof. by destruct rs. Qed.

Lemma MergeMallocHeaders_Ok h rs :
  heap_rep h rs →
  ∃ h', MergeMallocHeaders h = Ok (tt, h') ∧ heap_rep h' (merge_regions rs) ∧
        frame rs (words h) (words h') ∧ live_in (merge_regions rs) = live_in rs ∧
        extents (merge_regions rs) = extents rs ∧ gAskFunc h' = gAskFunc h.
Proof.
  intros [Hf Hrep]. unfold MergeMallocHeaders, IterMallocHeaders.
  destruct (iter_allocs_merge rs (fuel_of h) [] h Hrep) as (m' & Hrun & Hrep' & Hfr & Hlv & Hex).
  { pose proof (fuel_regions h rs Hrep). lia. }
  exists (set_words m' h). split_and!; try done; [|by rewrite <- merge_regions_first in Hf].
  erewrite bind_Ok by done. erewrite bind_Ok by done. by rewrite Hf.
Qed.

(** ** Space: the free bytes of a heap are fewer than 2GB, so they are counted exactly *)
Definition addresses (rs : list region) : list Z :=
  mjoin ((λ r : region, seqZ (rbase r) (rsize r)) <$> rs).

Lemma addresses_in m rs w :
  rep_regions m rs → w ∈ addresses rs → ∃ r, r ∈ rs ∧ rbase r ≤ w < rend r.
Proof.
  intros Hrep (l & Hw & (r & -> & Hr)%list_elem_of_fmap)%list_elem_of_join.
  apply elem_of_seqZ in Hw. exists r. split; [done|]. unfold rend. lia.
Qed.

Lemma addresses_NoDup m rs : rep_regions m rs → NoDup (addresses rs).
Proof.
  induction rs as [|r rs IH]; [constructor|]. intros (Hok & _ & Hap & _ & _ & _ & Hrep).
  unfold addresses. simpl. apply NoDup_app. split_and!; [apply NoDup_seqZ| |by apply IH].
  intros w Hw%elem_of_seqZ (r' & Hr' & Hw')%(addresses_in m); [|done].
  rewrite Forall_forall in Hap. specialize (Hap r' Hr'). unfold apart, rend in *. lia.
Qed.

Lemma length_addresses m rs :
  rep_regions m rs → Z.of_nat (length (addresses rs)) ≤ 2 ^ kSizeBitsMax.
Proof.
  intros Hrep.
  assert (Hs : addresses rs ⊆+ seqZ 0 (2 ^ kSizeBitsMax)).
  { apply NoDup_submseteq; [by eapply addresses_NoDup|].
    intros w (r & Hr & Hw)%(addresses_in m); [|done]. apply elem_of_seqZ.
    destruct (rep_regions_elem _ _ _ Hrep Hr) as (Hok & _).
    apply region_ok_bounds in Hok. lia. }
  apply submseteq_length in Hs. rewrite length_seqZ in Hs. clia.
Qed.

Definition count_free (hs : list (Z * Z * bool)) : Z :=
  foldr (λ (x : Z * Z * bool) n, (if x.2 then 0 else x.1.2) + n) 0 hs.

Lemma count_free_app hs1 hs2 : count_free (hs1 ++ hs2) = count_free hs1 + count_free hs2.
Proof. induction hs1 as [|x hs1 IH]; [done|]. simpl. rewrite IH. lia. Qed.

Lemma count_free_span a bs : Forall block_ok bs → 0 ≤ count_free (headers_at a bs) ≤ span bs.
Proof.
  intros Hok. revert a. induction Hok as [|[sz u] bs [H0 _] _ IH]; intros a; simpl; [done|].
  specialize (IH (a + (kHeader + sz))). simpl in H0. destruct u; clia.
Qed.

Lemma free_bytes_bounds m rs : rep_regions m rs → 0 ≤ free_bytes rs ≤ 2 ^ kSizeBitsMax.
Proof.
  intros Hrep. pose proof (length_addresses m rs Hrep) as Hlen.
  cut (0 ≤ free_bytes rs ≤ Z.of_nat (length (addresses rs))); [lia|]. clear Hlen.
  induction rs as [|r rs IH]; [done|]. destruct Hrep as (Hok & _ & _ & _ & _ & _ & Hrep).
  specialize (IH Hrep). change (free_bytes (r :: rs)) with (count_free (headers (r :: rs))).
  change (free_bytes rs) with (count_free (headers rs)) in IH.
  rewrite headers_cons, count_free_app.
  pose proof (count_free_span (rstart r) (rblocks r) (proj1 (proj2 (proj2 (proj2 Hok))))).
  change (addresses (r :: rs)) with (seqZ (rbase r) (rsize r) ++ addresses rs).
  rewrite length_app, length_seqZ. unfold rsize. clia.
Qed.

Lemma free_block_bytes h rs a sz :
  heap_rep h rs → (a, sz, false) ∈ headers rs → sz ≤ free_bytes rs.
Proof.
  intros Hh Hx. change (free_bytes rs) with (count_free (headers rs)).
  assert (Hpos : Forall (λ x, 0 ≤ (x : Z * Z * bool).1.2) (headers rs)).
  { apply Forall_forall. intros x Hin. apply (headers_hdr h) in Hin as (_ & _ & ? & _); [lia|done]. }
  apply list_elem_of_split in Hx as (l1 & l2 & E). rewrite E in *.
  apply Forall_app in Hpos as [H1 [_ H2]%Forall_cons]. rewrite count_free_app. simpl.
  assert (Hnn : ∀ l, Forall (λ x, 0 ≤ (x : Z * Z * bool).1.2) l → 0 ≤ count_free l).
  { induction 1 as [|[[? ?] []] l ? _ IH]; simpl in *; lia. }
  pose proof (Hnn _ H1). pose proof (Hnn _ H2). lia.
Qed.

(** ** [MallocImpl] *)

(** Some free block has room. *)
Definition has_room (rs : list region) (n align : Z) : Prop :=
  ∃ a sz, (a, sz, false) ∈ headers rs ∧ fits a sz n align.

Lemma focus_mapped h rs1 b bs1 sz u bs2 rs2 :
  heap_rep h (focus rs1 b bs1 [(sz, u)] bs2 rs2) →
  mapped (words h) (focus_addr b bs1) (focus_addr b bs1 + (kHeader + sz)).
Proof.
  intros [_ Hrep]. destruct (focus_region _ _ _ _ _ _ _ Hrep) as (_ & Hm & _ & _ & Hlo & _ & Hhi).
  change (span [(sz, u)]) with (kHeader + sz + 0) in Hhi. intros w Hw. apply Hm. clia.
Qed.

(** The callback at the header in focus, once [Partition] has chosen a block of it. *)
Lemma find_callback_partitioned h rs1 b bs1 sz bs2 rs2 n k c h1 :
  let rs := focus rs1 b bs1 [(sz, false)] bs2 rs2 in
  let a := focus_addr b bs1 in
  heap_rep h rs → Partition a n (2 ^ k) h = Ok (c, h1) → partitioned h a sz n (2 ^ k) c h1 →
  ∃ pre sz' post m', (∀ alloc asz arg, find_callback n (2 ^ k) a alloc asz arg h =
                     Ok ((false, c), set_words m' h)) ∧
    let rs' := focus rs1 b bs1 (pre ++ (sz', true) :: post) bs2 rs2 in
    heap_rep (set_words m' h) rs' ∧ frame rs (words h) m' ∧ extents rs' = extents rs ∧
    0 < c ∧ c = a + span pre ∧ n ≤ sz' ≤ n + kHeader ∧ (c + kHeader) mod 2 ^ k = 0 ∧
    span (pre ++ (sz', true) :: post) = span [(sz, false)] ∧ Forall block_ok (pre ++ (sz', true) :: post) ∧
    live (headers_at (c + (kHeader + sz')) post) = [] ∧
    live_in rs' ≡ₚ (c + kHeader, sz') :: live_in rs.
Proof.
  intros rs a Hh Hrun Hpart. pose proof Hh as [Hf Hrep].
  pose proof (headers_hdr h rs _ Hh (focus_header _ _ _ _ _ _ _)) as (Hhdr & Ha & Hsz & Hs4 & Hend).
  simpl in Hhdr, Ha, Hsz, Hs4, Hend. fold a in Hhdr, Ha, Hend.
  pose proof Hhdr as (_ & Ha4 & _).
  destruct (partitioned_hdr _ _ _ _ _ _ _ Hpart Ha Ha4 Hend) as (Hc & _).
  destruct Hpart as (m1 & pre & sz' & post & -> & Ec & Hle & Hal & Hok & Hsp & Hl1 & Hl2 & Ho & Hd & Hb).
  rewrite span_app in Hsp. simpl in Hsp. rewrite Forall_app in Hok.
  destruct Hok as (Hok1 & [[H0 H4] Hok2]%Forall_cons). simpl in H0, H4.
  pose proof (span_nonneg _ Hok1) as [Hs1 Hs14]. pose proof (span_nonneg _ Hok2) as [Hs2 _].
  apply rep_blocks_app in Hb as [Hb1 [Hb2 Hb3]]. rewrite <- Ec in *. simpl in Hb2, Hb3.
  set (m2 := <[c := mk_hdr sz' true]> m1).
  assert (Hx : hdr_at (set_words m1 h) c sz' false).
  { split_and!; [done| |clia..]. subst c. rewrite Z.add_mod by done. by rewrite Ha4, Hs14. }
  assert (Ho2 : ∀ w, ¬ (a ≤ w < a + (kHeader + sz)) → m2 !! w = words h !! w).
  { intros w Hw. unfold m2. rewrite lookup_insert_ne by clia. by apply Ho. }
  assert (Hsp2 : span (pre ++ (sz', true) :: post) = span [(sz, false)]).
  { rewrite span_app. simpl. lia. }
  exists pre, sz', post, m2. split; [|cbv zeta; split_and!; try done].
  - intros alloc asz arg. unfold find_callback.
    rewrite (bind_Ok _ _ _ _ _ (isUsed_Ok _ _ _ _ Hhdr)), (bind_Ok _ _ _ _ _ Hrun).
    rewrite tobool_pos by done. rewrite (bind_Ok _ _ _ _ _ (isUsed_Ok _ _ _ _ Hx)).
    erewrite bind_Ok by done. by rewrite (bind_Ok _ _ _ _ _ (setUsed_Ok _ _ _ _ true Hx)).
  - split.
    + change (gFirstAlloc (set_words m2 h)) with (gFirstAlloc h). rewrite Hf. by destruct rs1.
    + apply (focus_replace (words h) m2 rs1 b bs1 [(sz, false)]); try done.
      * rewrite Forall_app. split; [done|]. by constructor.
      * by destruct pre.
      * intros w Hw. apply Ho2. simpl in Hw. fold a in Hw. lia.
      * intros w Hw. unfold m2. rewrite lookup_insert_is_Some'. auto.
      * fold a. apply rep_blocks_app. split.
        { eapply rep_blocks_local; [done| |done]. intros w Hw. unfold m2.
          rewrite lookup_insert_ne; [done|]. lia. }
        rewrite <- Ec. split; [apply lookup_insert_eq|].
        eapply rep_blocks_local; [done| |done]. intros w Hw. unfold m2.
        rewrite lookup_insert_ne; [done|]. simpl in Hw. clia.
  - apply focus_frame; [done|done|]. intros w Hw. apply Ho2. simpl in Hw. fold a in Hw. lia.
  - by apply extents_focus.
  - apply Hle.
  - apply Hle.
  - rewrite Forall_app. split; [done|]. by constructor.
  - assert (E1 : live (headers_at a (pre ++ (sz', true) :: post)) = [(c + kHeader, sz')]).
    { rewrite headers_at_app, live_app, Hl1, <- Ec.
      change ((c + kHeader, sz') :: live (headers_at (c + (kHeader + sz')) post) = [(c + kHeader, sz')]).
      by rewrite Hl2. }
    unfold rs. rewrite !live_focus, Hsp2. fold a. rewrite E1.
    change (live (headers_at a [(sz, false)])) with (@nil (Z * Z)).
    symmetry. apply Permutation_middle.
Qed.

Lemma find_callback_free h rs1 b bs1 sz bs2 rs2 n k :
  let rs := focus rs1 b bs1 [(sz, false)] bs2 rs2 in
  let a := focus_addr b bs1 in
  heap_rep h rs → 0 < n ∧ n mod 4 = 0 → 2 ≤ k < 32 → fits a sz n (2 ^ k) →
  ∃ c sz' rs' m', (∀ alloc asz arg, find_callback n (2 ^ k) a alloc asz arg h =
                     Ok ((false, c), set_words m' h)) ∧
    heap_rep (set_words m' h) rs' ∧ frame rs (words h) m' ∧ extents rs' = extents rs ∧
    0 < c ∧ n ≤ sz' ∧ (c + kHeader) mod 2 ^ k = 0 ∧ live_in rs' ≡ₚ (c + kHeader, sz') :: live_in rs.
Proof.
  intros rs a Hh Hn Hk Hfit.
  pose proof (headers_hdr h rs _ Hh (focus_header _ _ _ _ _ _ _)) as (Hhdr & Ha & Hsz & Hs4 & Hend).
  simpl in Hhdr, Ha, Hsz, Hs4, Hend. fold a in Hhdr, Ha, Hend.
  destruct (Partition_Ok h a sz n k) as [[Hno _]|[_ (c & h1 & Hrun & Hpart)]]; try done.
  { by eapply focus_mapped. }
  destruct (find_callback_partitioned h rs1 b bs1 sz bs2 rs2 n k c h1 Hh Hrun Hpart) as
    (pre & sz' & post & m' & Hcb & H1 & H2 & H3 & H4 & _ & [H5 _] & H6 & _ & _ & _ & H7).
  by exists c, sz', (focus rs1 b bs1 (pre ++ (sz', true) :: post) bs2 rs2), m'.
Qed.

(** Whether [Partition] would serve the request from this header. *)
Definition serves (h : heap) (n align : Z) (x : Z * Z * bool) : Prop :=
  x.2 = false ∧
  (match Partition x.1.1 n align h with Ok (c, _) => tobool c | Fault _ => false end) = true.

#[local] Instance serves_dec h n align x : Decision (serves h n align x).
Proof. unfold serves. apply _. Defined.

Lemma headers_mapped h rs x :
  heap_rep h rs → x ∈ headers rs → mapped (words h) x.1.1 (x.1.1 + (kHeader + x.1.2)).
Proof.
  intros [_ Hrep] (l & Hx & (r & -> & Hr)%list_elem_of_fmap)%list_elem_of_join.
  destruct (rep_regions_elem _ _ _ Hrep Hr) as (Hok & Hm & _).
  pose proof (region_ok_bounds r Hok) as (? & ? & ? & He & ?).
  destruct Hok as (_ & _ & _ & Hblk & _). unfold rstart in *.
  pose proof (headers_at_bounds _ _ _ Hblk Hx) as (? & ? & _).
  intros w Hw. apply Hm. clia.
Qed.

Lemma serves_fits h rs a sz n k :
  heap_rep h rs → (a, sz, false) ∈ headers rs → 0 < n ∧ n mod 4 = 0 → 2 ≤ k < 32 →
  (serves h n (2 ^ k) (a, sz, false) → fits a sz n (2 ^ k)) ∧
  (¬ serves h n (2 ^ k) (a, sz, false) →
   ¬ fits a sz n (2 ^ k) ∧ Partition a n (2 ^ k) h = Ok (0, h)).
Proof.
  intros Hh Hx Hn Hk. pose proof (headers_hdr h rs _ Hh Hx) as (Hhdr & Ha & Hsz & Hs4 & Hend).
  pose proof (headers_mapped h rs _ Hh Hx) as Hm. simpl in *. unfold serves. simpl.
  destruct (Partition_Ok h a sz n k) as [[Hno E]|[Hfit (c & h1 & E & Hpart)]]; try done.
  - rewrite E. split; [by intros [_ ?]|done].
  - split; [done|]. intros []. split; [done|]. rewrite E.
    apply tobool_pos. pose proof Hhdr as (_ & Ha4 & _).
    by destruct (partitioned_hdr _ _ _ _ _ _ _ Hpart Ha Ha4 Hend).
Qed.

Lemma find_callback_skip h rs n k x :
  heap_rep h rs → x ∈ headers rs → 0 < n ∧ n mod 4 = 0 → 2 ≤ k < 32 →
  ¬ serves h n (2 ^ k) x → skips (find_callback n (2 ^ k)) (λ arg _, arg) h x.
Proof.
  intros Hh Hx Hn Hk Hs alloc asz arg. unfold find_callback.
  pose proof (headers_hdr h rs _ Hh Hx) as (Hhdr & _).
  rewrite (bind_Ok _ _ _ _ _ (isUsed_Ok _ _ _ _ Hhdr)).
  destruct x as [[a sz] []]; [done|]. simpl.
  destruct (serves_fits h rs a sz n k) as [_ H]; try done. destruct (H Hs) as [_ E].
  by rewrite (bind_Ok _ _ _ _ _ E).
Qed.

Lemma foldl_const {A B} (a : A) (l : list B) : foldl (λ arg _, arg) a l = a.
Proof. induction l as [|x l IH]; [done|]. apply IH. Qed.

(** The search of [MallocImpl]. *)
Lemma find_Ok h rs n k :
  heap_rep h rs → 0 < n ∧ n mod 4 = 0 → 2 ≤ k < 32 →
  (¬ has_room rs n (2 ^ k) ∧ IterMallocHeaders (find_callback n (2 ^ k)) 0 h = Ok (0, h)) ∨
  (has_room rs n (2 ^ k) ∧ ∃ c sz' rs' m',
     IterMallocHeaders (find_callback n (2 ^ k)) 0 h = Ok (c, set_words m' h) ∧
     heap_rep (set_words m' h) rs' ∧ frame rs (words h) m' ∧ extents rs' = extents rs ∧
     0 < c ∧ n ≤ sz' ∧ (c + kHeader) mod 2 ^ k = 0 ∧
     live_in rs' ≡ₚ (c + kHeader, sz') :: live_in rs).
Proof.
  intros Hh Hn Hk. destruct (headers_split (serves h n (2 ^ k)) rs) as
    [Hall|(rs1 & b & bs1 & sz & u & bs2 & rs2 & -> & H1 & H2 & Hs)].
  - left. split.
    + intros (a & sz & Hx & Hf). rewrite Forall_forall in Hall.
      destruct (serves_fits h rs a sz n k) as [_ H]; try done.
      destruct (H (Hall _ Hx)) as [Hno _]. done.
    + rewrite (iter_all _ (λ arg _, arg) h rs); [|done|].
      * by rewrite foldl_const.
      * apply Forall_forall. intros x Hx. rewrite Forall_forall in Hall.
        by apply (find_callback_skip h rs); auto.
  - right. destruct u; [by destruct Hs|]. set (rs := focus _ _ _ _ _ _) in *.
    pose proof (focus_header rs1 b bs1 sz false bs2 rs2) as Hx. fold rs in Hx.
    destruct (serves_fits h rs (focus_addr b bs1) sz n k) as [Hf _]; try done.
    specialize (Hf Hs). split; [by exists (focus_addr b bs1), sz|].
    destruct (find_callback_free h rs1 b bs1 sz bs2 rs2 n k) as
      (c & sz' & rs' & m' & Hcb & Hrest); try done.
    exists c, sz', rs', m'. split; [|done].
    apply (iter_stop _ (λ arg _, arg) h rs1 b bs1 sz false bs2 rs2); [done| | |done];
      apply Forall_forall; intros x Hx'; rewrite Forall_forall in H1, H2;
      (apply (find_callback_skip h rs); [done| |done|done|auto]); unfold rs, focus;
      rewrite headers_app, headers_cons, !elem_of_app; [by left|right; left].
    unfold rstart. simpl. rewrite headers_at_app, elem_of_app. by left.
Qed.

(** The size a request is rounded up to. *)
Definition request (size : Z) : Z := (Z.max size kMinSize + 3) / 4 * 4.

Lemma request_spec size : 0 < size ≤ kSizeMax →
  RoundUp 32 (Z.max size kMinSize) kMinAlign = request size ∧
  size ≤ request size ≤ 2 ^ 31 ∧ 0 < request size ∧ request size mod 4 = 0.
Proof.
  intros Hs. rewrite kSizeMax_eq in Hs. unfold request. consts.
  change 4 with (2 ^ 2) at 2. rewrite RoundUp_spec by lia. split; [done|]. dlia.
Qed.

Lemma align_pow align : 0 ≤ align < 2 ^ 32 → IsPowerOf2 align = true →
  ∃ k, 2 ≤ k < 32 ∧ Z.max align kMinAlign = 2 ^ k ∧ ∀ p, p mod 2 ^ k = 0 → p mod align = 0.
Proof.
  intros Ha (k & Hk & ->)%IsPowerOf2_inv; [|lia]. consts.
  assert (Hk32 : k < 32) by (apply (Z.pow_lt_mono_r_iff 2); lia).
  destruct (Z.le_gt_cases 2 k) as [H2|H2].
  - exists k. assert (2 ^ 2 ≤ 2 ^ k) by (apply Z.pow_le_mono_r; lia). split_and!; [lia..|done].
  - exists 2. assert (E : k = 0 ∨ k = 1) by lia. destruct E as [-> | ->]; (split_and!; [lia..|]);
      intros p Hp; change (2 ^ 2) with 4 in Hp; simpl; dlia.
Qed.

(** A live allocation of a heap has its header there. *)
Lemma live_hdr h rs p n :
  heap_rep h rs → (p, n) ∈ live_in rs → hdr_at h (p - kHeader) n true ∧ 0 < p - kHeader ∧ 0 < n ∧
  p + n ≤ 2 ^ kSizeBitsMax.
Proof.
  intros Hh Hp%elem_of_live. pose proof (headers_hdr _ _ _ Hh Hp) as (? & ? & ? & _ & ?).
  simpl in *. split_and!; [done..|lia].
Qed.

Section MallocImpl.
Variables (h : heap) (rs : list region) (size align : Z).
Hypothesis Hh : heap_rep h rs.
Hypothesis Hs : 0 < size ≤ kSizeMax.
Hypothesis Ha : 0 ≤ align < 2 ^ 32.
Hypothesis Hpow : IsPowerOf2 align = true.

(** The early exits of [MallocImpl] and what follows the search. *)
Lemma MallocImpl_prefix :
  MallocImpl size align h =
  (if negb (SizeFits (request size)) || (free_bytes rs <? request size) then mret 0
   else
     header ← IterMallocHeaders (find_callback (request size) (Z.max align kMinAlign)) 0;
     MergeMallocHeaders;;
     if negb (tobool header) then mret 0
     else
       let addr := u32 (header + kHeader) in
       n ← getSize header; assert_ (request size <=? n);;
       assert_ (addr mod Z.max align kMinAlign =? 0);;
       used ← isUsed header; assert_ used;;
       mret addr) h.
Proof.
  destruct (request_spec size Hs) as (Hru & _).
  unfold MallocImpl, RoundUpChecked. rewrite Hru, Hpow, (proj2 (Z.eqb_neq size 0)) by lia.
  cbn [negb]. erewrite bind_Ok by done.
  destruct (SizeFits (request size)) eqn:Hfits; [|done]. cbn [negb orb].
  rewrite (bind_Ok _ _ _ _ _ (GetAvailMemory_Ok h rs Hh)).
  pose proof (free_bytes_bounds _ _ (proj2 Hh)). rewrite u32_low by clia.
  by destruct (free_bytes rs <? request size).
Qed.

Lemma no_room :
  negb (SizeFits (request size)) || (free_bytes rs <? request size) = true →
  ¬ has_room rs (request size) (Z.max align kMinAlign).
Proof.
  intros Hno (a & sz & Hx & p & _ & Hp & Hp2).
  pose proof (headers_hdr _ _ _ Hh Hx) as (_ & ? & _ & _ & Hend). simpl in *.
  pose proof (free_block_bytes _ _ _ _ Hh Hx).
  apply orb_true_iff in Hno as [Hf|Hlt%Z.ltb_lt].
  - apply negb_true_iff, Z.leb_gt in Hf. clia.
  - clia.
Qed.

(** What follows a successful search. *)
Lemma MallocImpl_found k c n rs1 m1 :
  Z.max align kMinAlign = 2 ^ k →
  negb (SizeFits (request size)) || (free_bytes rs <? request size) = false →
  IterMallocHeaders (find_callback (request size) (2 ^ k)) 0 h = Ok (c, set_words m1 h) →
  heap_rep (set_words m1 h) rs1 → 0 < c → request size ≤ n → (c + kHeader) mod 2 ^ k = 0 →
  (c + kHeader, n) ∈ live_in rs1 →
  ∃ h2, MallocImpl size align h = Ok (c + kHeader, h2) ∧ heap_rep h2 (merge_regions rs1) ∧
    frame rs1 m1 (words h2) ∧ live_in (merge_regions rs1) = live_in rs1 ∧
    extents (merge_regions rs1) = extents rs1 ∧ gAskFunc h2 = gAskFunc h.
Proof.
  intros Hal Hno Hrun Hh1 Hc Hn Hmod Hp. rewrite MallocImpl_prefix, Hno, Hal.
  destruct (MergeMallocHeaders_Ok _ _ Hh1) as (h2 & Hm & Hh2 & Hfr & Hlv & Hex & Hask).
  rewrite <- Hlv in Hp. destruct (live_hdr _ _ _ _ Hh2 Hp) as (Hhdr & _ & Hn0 & Hend).
  replace (c + kHeader - kHeader) with c in Hhdr by lia.
  exists h2. split_and!; try done.
  rewrite (bind_Ok _ _ _ _ _ Hrun), (bind_Ok _ _ _ _ _ Hm), tobool_pos by done. cbn [negb].
  cbv zeta. rewrite u32_low by clia. rewrite (bind_Ok _ _ _ _ _ (getSize_Ok _ _ _ _ Hhdr)).
  rewrite (proj2 (Z.leb_le _ _)), Hmod by lia. erewrite bind_Ok by done. erewrite bind_Ok by done.
  by rewrite (bind_Ok _ _ _ _ _ (isUsed_Ok _ _ _ _ Hhdr)).
Qed.

Lemma MallocImpl_Ok :
  ∃ p h' rs', MallocImpl size align h = Ok (p, h') ∧ heap_rep h' rs' ∧
    frame rs (words h) (words h') ∧ extents rs' = extents rs ∧ gAskFunc h' = gAskFunc h ∧
    ((p = 0 ∧ ¬ has_room rs (request size) (Z.max align kMinAlign) ∧ live_in rs' = live_in rs) ∨
     (0 < p ∧ has_room rs (request size) (Z.max align kMinAlign) ∧ p mod align = 0 ∧
      ∃ n, size ≤ n ∧ live_in rs' ≡ₚ (p, n) :: live_in rs)).
Proof.
  destruct (negb (SizeFits (request size)) || (free_bytes rs <? request size)) eqn:Hno.
  { exists 0, h, rs. rewrite MallocImpl_prefix, Hno. split_and!; try done. left. split_and!; try done. by apply no_room. }
  destruct (align_pow align Ha Hpow) as (k & Hk & Hal2 & Hdiv). rewrite Hal2.
  destruct (request_spec size Hs) as (_ & Hle & Hrq).
  destruct (find_Ok h rs (request size) k Hh Hrq Hk) as
    [[Hroom Hrun]|[Hroom (c & n & rs1 & m1 & Hrun & Hh1 & Hfr1 & Hex1 & Hc & Hn & Hal & Hlv1)]].
  - destruct (MergeMallocHeaders_Ok h rs Hh) as (h2 & Hm & Hh2 & Hfr & Hlv & Hex & Hask).
    exists 0, h2, (merge_regions rs). split_and!; try done.
    + rewrite MallocImpl_prefix, Hno, Hal2, (bind_Ok _ _ _ _ _ Hrun). by rewrite (bind_Ok _ _ _ _ _ Hm).
    + by left.
  - destruct (MallocImpl_found k c n rs1 m1) as (h2 & Hrun2 & Hh2 & Hfr & Hlv & Hex & Hask); try done.
    { rewrite Hlv1. by left. }
    exists (c + kHeader), h2, (merge_regions rs1). split_and!; try done.
    + eapply frame_trans; [|exact Hex1|exact Hfr1|exact Hfr].
      intros x Hx. rewrite Hlv1. by right.
    + by rewrite Hex.
    + right. split_and!; [clia|done|by apply Hdiv|]. exists n. split; [lia|by rewrite Hlv].
Qed.

End MallocImpl.

(** ** [free] *)
Lemma mk_hdr_inj sz u sz' u' :
  0 ≤ sz < 2 ^ kSizeBitsMax → 0 ≤ sz' < 2 ^ kSizeBitsMax →
  mk_hdr sz u = mk_hdr sz' u' → sz = sz' ∧ u = u'.
Proof.
  intros H H' E. split.
  - by rewrite <- (hdr_size_mk sz u), <- (hdr_size_mk sz' u'), E.
  - by rewrite <- (hdr_used_mk sz u), <- (hdr_used_mk sz' u'), E.
Qed.

Lemma hdr_at_inj h a sz u sz' u' : hdr_at h a sz u → hdr_at h a sz' u' → sz = sz' ∧ u = u'.
Proof. intros (E & _ & ?) (E' & _ & ?). apply mk_hdr_inj; [done..|congruence]. Qed.

Lemma free_callback_skip h rs p x :
  heap_rep h rs → x ∈ headers rs → x.1.1 + kHeader ≠ p →
  skips (free_callback p) (λ arg _, arg) h x.
Proof.
  intros Hh Hx Hp alloc n arg. unfold free_callback.
  pose proof (headers_hdr _ _ _ Hh Hx) as (_ & ? & ? & _ & ?). rewrite u32_low by clia.
  by rewrite (proj2 (Z.eqb_neq _ _) Hp).
Qed.

(** Freeing the block in focus. *)
Lemma free_focus h rs1 b bs1 sz bs2 rs2 :
  let rs := focus rs1 b bs1 [(sz, true)] bs2 rs2 in
  let rs' := focus rs1 b bs1 [(sz, false)] bs2 rs2 in
  let a := focus_addr b bs1 in
  let h' := set_words (<[a := mk_hdr sz false]> (words h)) h in
  heap_rep h rs →
  heap_rep h' rs' ∧ extents rs' = extents rs ∧ live_in rs ≡ₚ (a + kHeader, sz) :: live_in rs' ∧
  frame rs' (words h) (words h').
Proof.
  intros rs rs' a h' Hh.
  pose proof (headers_hdr _ _ _ Hh (focus_header rs1 b bs1 sz true bs2 rs2)) as (Hhdr & Ha & Hsz & H4 & Hend).
  simpl in Hhdr, Ha, Hsz, H4, Hend.
  assert (Ho : ∀ w, ¬ (a ≤ w < a + span [(sz, true)]) → words h' !! w = words h !! w).
  { intros w Hw. unfold h'. simpl. rewrite lookup_insert_ne; [done|]. simpl in Hw. clia. }
  assert (Hrep' : rep_regions (words h') rs').
  { apply (focus_replace (words h) (words h') rs1 b bs1 [(sz, true)]); try done; [apply Hh|by constructor| |].
    - intros w Hw. unfold h'. simpl. rewrite lookup_insert_is_Some'. auto.
    - split; [apply lookup_insert_eq|done]. }
  split_and!.
  - split; [|done]. destruct Hh as [Hf _]. unfold h', set_words. simpl. rewrite Hf. by destruct rs1.
  - by apply extents_focus.
  - unfold rs, rs'. rewrite !live_focus. fold a.
    change (live (headers_at a [(sz, true)])) with [(a + kHeader, sz)].
    change (live (headers_at a [(sz, false)])) with (@nil (Z * Z)).
    symmetry. apply Permutation_middle.
  - apply frame_sym, (focus_frame (words h') (words h) rs1 b bs1 [(sz, false)]); [done|done|].
    intros w Hw. symmetry. by apply Ho.
Qed.

(** The search of [free]: the block is found and becomes free, or there is none. *)
Lemma free_find h rs p :
  heap_rep h rs →
  (∃ n h' rs', IterMallocHeaders (free_callback p) false h = Ok (true, h') ∧ heap_rep h' rs' ∧
     extents rs' = extents rs ∧ gAskFunc h' = gAskFunc h ∧
     live_in rs ≡ₚ (p, n) :: live_in rs' ∧ frame rs' (words h) (words h') ∧
     hdr_at h' (p - kHeader) n false) ∨
  ((∀ n, (p, n) ∉ live_in rs) ∧
   (IterMallocHeaders (free_callback p) false h = Ok (false, h) ∨
    IterMallocHeaders (free_callback p) false h = Fault AssertFailed)).
Proof.
  intros Hh. destruct (headers_split (λ x, x.1.1 + kHeader = p) rs) as
    [Hall|(rs1 & b & bs1 & sz & u & bs2 & rs2 & -> & H1 & H2 & Hp)].
  - right. rewrite Forall_forall in Hall. split.
    + intros n Hn%elem_of_live. apply (Hall _ Hn). simpl. lia.
    + left. rewrite (iter_all _ (λ arg _, arg) h rs); [by rewrite foldl_const|done|].
      apply Forall_forall. intros x Hx. by apply (free_callback_skip h rs); auto.
  - simpl in Hp. set (a := focus_addr b bs1) in *. set (rs := focus _ _ _ _ _ _) in *.
    pose proof (focus_header rs1 b bs1 sz u bs2 rs2) as Hx. fold rs a in Hx.
    pose proof (headers_hdr _ _ _ Hh Hx) as (Hhdr & Ha & Hsz & H4 & Hend). simpl in *.
    assert (Hskip : Forall (skips (free_callback p) (λ arg _, arg) h) (headers rs1) ∧
      Forall (skips (free_callback p) (λ arg _, arg) h) (headers_at (b + kAllocOffset) bs1)).
    { rewrite Forall_forall in H1, H2. split; apply Forall_forall; intros x Hx';
        (apply (free_callback_skip h rs); [done| |auto]);
        unfold rs, focus; rewrite headers_app, headers_cons, !elem_of_app; [by left|right; left].
      unfold rstart. simpl. rewrite headers_at_app, elem_of_app. by left. }
    destruct Hskip as [Hsk1 Hsk2].
    assert (Hrun : ∀ alloc n arg, free_callback p a alloc n arg h =
      match (if u then Ok (true, set_words (<[a := mk_hdr sz false]> (words h)) h)
             else Fault AssertFailed) with Ok (r, h') => Ok ((false, r), h') | Fault e => Fault e end).
    { intros alloc n arg. unfold free_callback. rewrite u32_low, Hp, Z.eqb_refl by clia.
      rewrite (bind_Ok _ _ _ _ _ (isUsed_Ok _ _ _ _ Hhdr)). destruct u; [|done].
      erewrite bind_Ok by done. by rewrite (bind_Ok _ _ _ _ _ (setUsed_Ok _ _ _ _ false Hhdr)). }
    apply (iter_until _ (λ arg _, arg) h rs1 b bs1 sz u bs2 rs2 false) in Hrun; [|done..].
    rewrite Hrun. destruct u.
    + left. destruct (free_focus h rs1 b bs1 sz bs2 rs2 Hh) as (? & ? & Hlv & ?).
      fold a rs in Hlv. rewrite Hp in Hlv. eexists sz, _, _. split_and!; try done.
      replace (p - kHeader) with a by lia. apply hdr_at_insert; apply Hhdr.
    + right. split; [|by right]. intros n Hn%(live_hdr h); [|done]. destruct Hn as [Hn _].
      replace (p - kHeader) with a in Hn by lia.
      by destruct (hdr_at_inj _ _ _ _ _ _ Hhdr Hn).
Qed.

Lemma free_live h rs p n :
  heap_rep h rs → (p, n) ∈ live_in rs →
  ∃ h' rs', free p h = Ok (tt, h') ∧ heap_rep h' rs' ∧ extents rs' = extents rs ∧
    gAskFunc h' = gAskFunc h ∧ live_in rs ≡ₚ (p, n) :: live_in rs' ∧ frame rs' (words h) (words h') ∧
    ∃ rs0, rs' = merge_regions rs0.
Proof.
  intros Hh Hp. destruct (live_hdr _ _ _ _ Hh Hp) as (Hhdr & Hp0 & Hn0 & Hend).
  pose proof Hhdr as (Hw & H4 & _).
  destruct (free_find h rs p Hh) as [(n' & h1 & rs1 & Hrun & Hh1 & Hex & Hask & Hlv & Hfr & Hhdr1)|[Hno _]];
    [|by destruct (Hno n)].
  destruct (MergeMallocHeaders_Ok _ _ Hh1) as (h2 & Hm & Hh2 & Hfr2 & Hlv2 & Hex2 & Hask2).
  assert (n' = n) as ->.
  { assert (Hp' : (p, n') ∈ live_in rs) by (rewrite Hlv; by left).
    destruct (live_hdr _ _ _ _ Hh Hp') as [Hhdr' _]. by destruct (hdr_at_inj _ _ _ _ _ _ Hhdr Hhdr'). }
  exists h2, (merge_regions rs1). split_and!; [|done|congruence|congruence| | |by exists rs1].
  - unfold free. rewrite tobool_pos by clia. cbn [negb]. cbv zeta.
    replace (p mod kMinAlign) with 0 by (consts; dlia). erewrite bind_Ok by done.
    rewrite u32_low by clia. rewrite (bind_Ok _ _ _ _ _ (load_Ok _ _ _ H4 Hw)).
    rewrite (bind_Ok _ _ _ _ _ Hrun). erewrite bind_Ok by done.
    rewrite (bind_Ok _ _ _ _ _ (isUsed_Ok _ _ _ _ Hhdr1)). erewrite bind_Ok by done.
    rewrite (bind_Ok _ _ _ _ _ Hm). by eapply ValidateMalloc_Ok.
  - by rewrite Hlv2.
  - unfold frame. rewrite Hlv2, Hex2. by apply (frame_trans rs1 rs1 _ (words h1)).
Qed.

(** [free] of anything else stops the program. *)
Lemma free_dead h rs p :
  heap_rep h rs → 0 < p < 2 ^ 32 → (∀ n, (p, n) ∉ live_in rs) →
  free p h = Fault AssertFailed ∨ free p h = Fault PageFault.
Proof.
  intros Hh Hp Hno. unfold free. rewrite tobool_pos by lia. cbn [negb].
  destruct (Z.eqb_spec (p mod kMinAlign) 0) as [H4|H4]; [|by left].
  erewrite bind_Ok by done. cbv zeta.
  assert (Hu : u32 (p - kHeader) = p - kHeader) by (apply u32_low; consts; dlia).
  rewrite Hu. destruct (words h !! (p - kHeader)) as [w|] eqn:Hw.
  - left. erewrite bind_Ok by (apply load_Ok; [consts; dlia|exact Hw]).
    destruct (free_find h rs p Hh) as [(n & h1 & rs1 & _ & _ & _ & _ & Hlv & _)|[_ [Hrun|Hrun]]].
    + destruct (Hno n). rewrite Hlv. by left.
    + by rewrite (bind_Ok _ _ _ _ _ Hrun).
    + unfold mbind, M_bind. by rewrite Hrun.
  - right. unfold mbind, M_bind, load. rewrite Hw.
    destruct (Z.eqb_spec ((p - kHeader) mod 4) 0) as [|E]; [done|].
    destruct E. consts. dlia.
Qed.

(** ** New regions *)
Definition last_base (rs : list region) : Z := default 0 (rbase <$> last rs).

Lemma last_alloc_Ok h rs : ∀ fuel r,
  rep_regions (words h) (r :: rs) → (length rs < fuel)%nat →
  last_alloc fuel (rbase r) h = Ok (last_base (r :: rs), h).
Proof.
  induction rs as [|r' rs IH]; intros fuel r Hrep Hfuel; (destruct fuel as [|fuel]; [simpl in Hfuel; lia|]);
    cbn [last_alloc]; destruct (region_words h _ r _ Hrep eq_refl) as (_ & Hnext & _);
    rewrite (bind_Ok _ _ _ _ _ Hnext); [done|].
  destruct Hrep as (_ & _ & _ & _ & _ & _ & Hrep). cbn [first_of].
  rewrite tobool_pos by apply Hrep. rewrite IH; [done|done|simpl in Hfuel; lia].
Qed.

Lemma GetLastAlloc_Ok h rs :
  gFirstAlloc h = first_of rs → rep_regions (words h) rs → GetLastAlloc h = Ok (last_base rs, h).
Proof.
  intros Hf Hrep. unfold GetLastAlloc. erewrite bind_Ok by done. rewrite Hf.
  pose proof (fuel_regions h rs Hrep) as Hfuel. destruct rs as [|r rs]; [done|].
  cbn [first_of]. rewrite tobool_pos by apply Hrep. cbn [negb]. erewrite bind_Ok by done.
  apply last_alloc_Ok; [done|simpl in Hfuel; lia].
Qed.

Lemma last_base_elem r rs : ∃ r', r' ∈ r :: rs ∧ last_base (r :: rs) = rbase r'.
Proof.
  unfold last_base. destruct (last (r :: rs)) as [r'|] eqn:E; [|by apply last_None in E].
  exists r'. split; [by eapply last_Some_elem_of|done].
Qed.

Lemma rep_regions_snoc m m' rs r :
  rep_regions m rs → region_ok r → mapped m' (rbase r) (rend r) → Forall (apart r) rs →
  m' !! rbase r = Some 0 → m' !! (rbase r + 4) = Some (rsize r) →
  rep_blocks m' (rstart r) (rblocks r) →
  (∀ r' w, r' ∈ rs → rbase r' ≤ w < rend r' → w ≠ last_base rs → m' !! w = m !! w) →
  (rs ≠ [] → m' !! last_base rs = Some (rbase r)) →
  rep_regions m' (rs ++ [r]).
Proof.
  intros Hrep Hok Hmap Hap H0 Hs Hb. induction rs as [|r0 rs IH]; intros Hm Hl.
  { simpl. split_and!; try done. }
  destruct Hrep as (Hok0 & Hmap0 & Hap0 & Hn0 & Hs0 & Hb0 & Hrep).
  apply Forall_cons in Hap as [Hr Hap]. pose proof (region_ok_bounds _ Hok0) as (? & ? & ? & He0 & ?).
  assert (Hlast : last_base (r0 :: rs) = rbase r0 ∧ rs = [] ∨
    last_base (r0 :: rs) = last_base rs ∧ rs ≠ [] ∧ (last_base rs < rbase r0 ∨ rend r0 ≤ last_base rs)).
  { destruct rs as [|r1 rs]; [by left|right]. destruct (last_base_elem r1 rs) as (r' & Hr' & E).
    split_and!; [done|done|]. rewrite E. rewrite Forall_forall in Hap0.
    destruct (rep_regions_elem _ _ _ Hrep Hr') as (Hok' & _). apply region_ok_bounds in Hok'.
    destruct (Hap0 r' Hr'); clia. }
  assert (Hkeep : ∀ w, rbase r0 < w < rend r0 → m' !! w = m !! w).
  { intros w Hw. apply (Hm r0); [by left|lia|]. destruct Hlast as [[-> _]|(-> & _ & ?)]; lia. }
  unfold rstart in *. simpl. split_and!; try done.
  - intros w Hw Hw4. destruct (decide (w = last_base (r0 :: rs))) as [-> |Hne].
    + rewrite Hl by done. eauto.
    + rewrite (Hm r0 w) by (done || by left). by apply Hmap0.
  - apply Forall_app. split; [done|]. apply Forall_singleton. unfold apart in *. lia.
  - destruct Hlast as [[E ->]|(E & Hne & Hout)].
    + rewrite <- E. by apply Hl.
    + rewrite (Hm r0); [|by left|clia|rewrite E; clia]. rewrite Hn0. by destruct rs.
  - rewrite Hkeep by clia. done.
  - eapply rep_blocks_local; [apply Hok0| |done]. intros w Hw. apply Hkeep. unfold rstart in *. clia.
  - destruct Hlast as [[_ ->]|(E & Hne & _)]; [simpl; by split_and!|].
    apply IH; try done; rewrite <- E; [|auto]. intros r' w Hr' Hw Hwl. apply (Hm r'); [by right|done..].
Qed.

(** A range of memory that can become a region of the heap. *)
Definition usable (m : gmap Z Z) (rs : list region) (b n : Z) : Prop :=
  0 < b ∧ b mod 4 = 0 ∧ n mod 4 = 0 ∧ kAllocOffset + kHeader < n ∧ b + n ≤ 2 ^ kSizeBitsMax ∧
  mapped m b (b + n) ∧ Forall (λ r, b + n ≤ rbase r ∨ rend r ≤ b) rs.

Definition new_region (b n : Z) : region := mkRegion b [(n - kHeader - kAllocOffset, false)].

Lemma new_region_ok m rs b n :
  usable m rs b n →
  region_ok (new_region b n) ∧ rsize (new_region b n) = n ∧ rend (new_region b n) = b + n ∧
  Forall (apart (new_region b n)) rs.
Proof.
  intros (Hb & Hb4 & Hn4 & Hn & Hend & _ & Hap).
  assert (Es : rsize (new_region b n) = n) by (unfold rsize; simpl; lia).
  assert (Ee : rend (new_region b n) = b + n) by (unfold rend; rewrite Es; done).
  split_and!; [|done..|].
  - split_and!; try done; [|by rewrite Ee].
    constructor; [|done]. split; simpl; [clia|]. consts. dlia.
  - eapply Forall_impl; [exact Hap|]. intros r Hr. unfold apart. rewrite Ee. exact Hr.
Qed.

(** The memory [SetupNewAllocation] leaves. *)
Definition setup_start (m : gmap Z Z) (b n : Z) : gmap Z Z := <[b + 4 := n]> (<[b := 0]> m).
Definition setup_link (m : gmap Z Z) (rs : list region) (b : Z) : gmap Z Z :=
  if tobool (last_base rs) then <[last_base rs := b]> m else m.
Definition setup_mem (m : gmap Z Z) (rs : list region) (b n : Z) : gmap Z Z :=
  <[b + kAllocOffset := mk_hdr (n - kHeader - kAllocOffset) false]>
    (setup_link (setup_start m b n) rs b).

Section Setup.
Variables (h : heap) (rs : list region) (b n : Z).
Hypothesis Hf : gFirstAlloc h = first_of rs.
Hypothesis Hrep : rep_regions (words h) rs.
Hypothesis Hus : usable (words h) rs b n.

Let m1 := setup_start (words h) b n.

Lemma setup_start_rep : rep_regions m1 rs.
Proof.
  pose proof Hus as (Hb & Hb4 & Hn4 & Hn & Hend & Hmap & Hap).
  eapply rep_regions_local; [|exact Hrep]. intros r w Hr Hw. unfold m1, setup_start.
  rewrite Forall_forall in Hap. specialize (Hap r Hr). simpl in Hap.
  rewrite !lookup_insert_ne; [done|clia..].
Qed.

Lemma setup_start_dom w : is_Some (words h !! w) → is_Some (m1 !! w).
Proof. intros Hw. unfold m1, setup_start. rewrite !lookup_insert_is_Some'. auto. Qed.

Lemma setup_last :
  rs = [] ∧ last_base rs = 0 ∨ rs ≠ [] ∧ 0 < last_base rs ∧ last_base rs mod 4 = 0 ∧
  is_Some (m1 !! last_base rs) ∧ (b + n ≤ last_base rs ∨ last_base rs < b).
Proof.
  pose proof Hus as (Hb & Hb4 & Hn4 & Hn & Hend & Hmap & Hap). pose proof setup_start_rep as Hrep1.
  destruct rs as [|r rs']; [by left|right]. destruct (last_base_elem r rs') as (r' & Hr' & ->).
  destruct (rep_regions_elem _ _ _ Hrep1 Hr') as (Hok' & Hmap' & _). split; [done|].
  pose proof (region_ok_bounds _ Hok') as Hb'. destruct Hok' as (? & H4' & _). split_and!; try done.
  - apply Hmap'; [clia|done].
  - rewrite Forall_forall in Hap. destruct (Hap r' Hr'); clia.
Qed.

Lemma SetupNewAllocation_run :
  SetupNewAllocation b n h = Ok (tt, set_words (setup_mem (words h) rs b n) h).
Proof.
  pose proof Hus as (Hb & Hb4 & Hn4 & Hn & Hend & Hmap & _).
  unfold SetupNewAllocation, SetNextAlloc, SetAllocSize.
  rewrite tobool_pos, (proj2 (Z.ltb_lt _ _)) by clia. erewrite bind_Ok by done. erewrite bind_Ok by done.
  erewrite bind_Ok by (apply store_Ok; [done|apply Hmap; [clia|done]]).
  rewrite (u32_low (b + 4)), (u32_low (b + kAllocOffset)), (u32_low (n - kHeader - kAllocOffset)) by clia.
  erewrite bind_Ok.
  2:{ apply store_Ok; [dlia|]. simpl. rewrite lookup_insert_is_Some'. right. apply Hmap; [clia|dlia]. }
  change (set_words (<[b + 4 := n]> _) _) with (set_words m1 h).
  rewrite (bind_Ok _ _ _ _ _ (GetLastAlloc_Ok (set_words m1 h) rs Hf setup_start_rep)).
  rewrite (bind_Ok _ _ _ tt (set_words (setup_link m1 rs b) h)).
  2:{ unfold setup_link. destruct setup_last as [[-> ->]|(_ & Hl & Hl4 & Hls & _)]; [done|].
      rewrite tobool_pos by done. apply (store_Ok (set_words m1 h) _ b); done. }
  cbv zeta. rewrite new_header_Ok; [|consts; dlia| |clia|consts; dlia].
  - erewrite bind_Ok by (eapply IsValid_Ok; [apply hdr_at_insert; [consts; dlia|clia]|consts; dlia]).
    done.
  - simpl. unfold setup_link. destruct (tobool _); rewrite ?lookup_insert_is_Some'; [right|];
      (apply setup_start_dom, Hmap; [clia|consts; dlia]).
Qed.

(** Outside of the new region only the link of the last region changes. *)
Lemma setup_mem_outside w :
  ¬ (b ≤ w < b + n) → (rs = [] ∨ w ≠ last_base rs) → setup_mem (words h) rs b n !! w = words h !! w.
Proof.
  pose proof Hus as (_ & _ & _ & Hn & _). intros Hw Hl.
  unfold setup_mem, setup_link, setup_start. rewrite lookup_insert_ne by clia.
  destruct setup_last as [[_ ->]|(Hne & _)]; simpl.
  - rewrite !lookup_insert_ne by clia. done.
  - destruct Hl as [|Hl]; [done|].
    destruct (tobool _); rewrite ?(lookup_insert_ne _ (last_base rs)), !lookup_insert_ne by clia; done.
Qed.

Lemma setup_mem_rep : rep_regions (setup_mem (words h) rs b n) (rs ++ [new_region b n]).
Proof.
  pose proof Hus as (Hb & Hb4 & Hn4 & Hn & Hend & Hmap & Hap').
  destruct (new_region_ok _ _ _ _ Hus) as (Hok & Es & Ee & Hap).
  assert (Hnew : ∀ w, b ≤ w < b + n → w ≠ b + kAllocOffset → setup_mem (words h) rs b n !! w = m1 !! w).
  { intros w Hw Hne. unfold setup_mem, setup_link. rewrite lookup_insert_ne by done.
    destruct setup_last as [[_ ->]|(_ & _ & _ & _ & Hl)]; [done|].
    destruct (tobool _); [|done]. rewrite lookup_insert_ne by lia. done. }
  apply (rep_regions_snoc (words h)); rewrite ?Ee, ?Es; try done.
  - intros w Hw Hw4. destruct (decide (w = b + kAllocOffset)) as [-> |Hne].
    + unfold setup_mem. rewrite lookup_insert_is_Some'. by left.
    + rewrite Hnew by done. by apply setup_start_dom, Hmap.
  - simpl. rewrite Hnew by clia. unfold m1, setup_start.
    rewrite lookup_insert_ne by lia. apply lookup_insert_eq.
  - simpl. rewrite Hnew by clia. apply lookup_insert_eq.
  - simpl. split; [|done]. apply lookup_insert_eq.
  - intros r w Hr Hw Hl. apply setup_mem_outside; [|by right].
    rewrite Forall_forall in Hap'. specialize (Hap' r Hr). simpl in Hap'. lia.
  - intros Hne. destruct setup_last as [[? _]|(_ & Hl & _ & _ & Hlb)]; [done|].
    unfold setup_mem, setup_link. rewrite lookup_insert_ne by clia.
    rewrite tobool_pos by done. apply lookup_insert_eq.
Qed.

End Setup.

Lemma heap_Initialize_Ok h b n ask :
  gFirstAlloc h = 0 → usable (words h) [] b n →
  ∃ h', Initialize b n ask h = Ok (tt, h') ∧ heap_rep h' [new_region b n] ∧ gAskFunc h' = ask ∧
        ∀ w, ¬ (b ≤ w < b + n) → words h' !! w = words h !! w.
Proof.
  intros H0 Hus. set (h1 := set_ask ask h).
  set (h2 := set_first b (set_words (setup_mem (words h) [] b n) h1)).
  assert (Hh2 : heap_rep h2 [new_region b n]).
  { split; [done|]. by apply (setup_mem_rep h1 [] b n). }
  exists h2. split_and!; [|done|done|].
  - unfold Initialize. erewrite bind_Ok by done.
    erewrite bind_Ok by (by apply (SetupNewAllocation_run h1 [])).
    erewrite bind_Ok by done. rewrite (bind_Ok _ _ _ _ _ (GetAvailMemory_Ok _ _ Hh2)).
    replace (free_bytes [new_region b n]) with (n - kHeader - kAllocOffset) by (unfold free_bytes; simpl; lia).
    rewrite Z.eqb_refl. erewrite bind_Ok by done.
    rewrite (bind_Ok _ _ _ _ _ (GetLastAlloc_Ok h2 _ (proj1 Hh2) (proj2 Hh2))).
    change (last_base [new_region b n]) with b. by rewrite Z.eqb_refl.
  - intros w Hw. apply (setup_mem_outside h1 [] b n); try done; by left.
Qed.

(** ** The function that supplies more memory

    What the allocator relies on: when it returns at all, the range is usable and apart
    from the heap, and the memory outside of it is unchanged. *)
Class MemorySource (ask : gmap Z Z → result (Z * Z * gmap Z Z)) : Prop :=
  source_fresh m rs b n m' :
    rep_regions m rs → ask m = Ok (b, n, m') →
    usable m' rs b n ∧ ∀ w, ¬ (b ≤ w < b + n) → m' !! w = m !! w.

(** The bytes of the live allocations are kept. *)
Definition live_kept (rs : list region) (m m' : gmap Z Z) : Prop :=
  ∀ p n w, (p, n) ∈ live_in rs → p - kHeader ≤ w < p + n → m' !! w = m !! w.

Lemma frame_live_kept rs m m' : frame rs m m' → live_kept rs m m'.
Proof. by intros [Hl _]. Qed.

(** A live allocation is apart from the links of the regions and from new regions. *)
Lemma live_apart h rs p n w :
  heap_rep h rs → (p, n) ∈ live_in rs → p - kHeader ≤ w < p + n →
  (rs = [] ∨ w ≠ last_base rs) ∧ ∀ m b k, usable m rs b k → ¬ (b ≤ w < b + k).
Proof.
  intros Hh Hp Hw. split.
  - destruct rs as [|r rs]; [by left|right]. intros E.
    destruct (last_base_elem r rs) as (r' & Hr' & E'). rewrite E' in E. subst w.
    destruct Hh as [_ Hrep]. destruct (rep_regions_elem _ _ _ Hrep Hr') as (Hok' & _ & _).
    pose proof (live_in_bounds _ _ _ (rep_regions_ok _ _ Hrep) Hp) as (r1 & Hr1 & H1 & H2 & H3).
    assert (Hsame : r1 = r' ∨ apart r1 r' ∨ apart r' r1).
    { clear -Hrep Hr' Hr1. revert Hrep Hr' Hr1. generalize (r :: rs). intros l.
      induction l as [|r0 l IH]; [by intros _ ?%elem_of_nil|].
      intros (_ & _ & Hap & _ & _ & _ & Hrep). rewrite Forall_forall in Hap.
      rewrite !elem_of_cons. intros [-> |?] [-> |?]; auto. }
    apply region_ok_bounds in Hok'. unfold apart, rstart in *.
    destruct Hsame as [-> |[Hs|Hs]]; clia.
  - intros m b k (_ & _ & _ & _ & _ & _ & Hap). destruct Hh as [_ Hrep].
    pose proof (live_in_bounds _ _ _ (rep_regions_ok _ _ Hrep) Hp) as (r1 & Hr1 & H1 & H2 & H3).
    rewrite Forall_forall in Hap. specialize (Hap r1 Hr1). simpl in Hap. unfold rstart in *. clia.
Qed.

(** [malloc] with a source of memory behind it. *)
Section MallocTop.
Variables (h : heap) (rs : list region) (size align : Z).
Variable ask : gmap Z Z → result (Z * Z * gmap Z Z).
Hypothesis Hh : heap_rep h rs.
Hypothesis Hne : rs ≠ [].
Hypothesis Hs : 0 < size ≤ kSizeMax.
Hypothesis Ha : 0 ≤ align < 2 ^ 32.
Hypothesis Hpow : IsPowerOf2 align = true.

(** What the caller of [malloc] can count on. *)
Definition malloc_post (p : Z) (h' : heap) : Prop :=
  ∃ rs', heap_rep h' rs' ∧ rs' ≠ [] ∧ gAskFunc h' = gAskFunc h ∧
    live_kept rs (words h) (words h') ∧
    ((p = 0 ∧ live_in rs' = live_in rs) ∨
     (0 < p ∧ p mod align = 0 ∧ ∃ n, size ≤ n ∧ live_in rs' ≡ₚ (p, n) :: live_in rs)).

Lemma extents_nil rs1 : rs1 = [] ↔ extents rs1 = [].
Proof. by destruct rs1. Qed.

Lemma MallocImpl_post :
  ∃ p h' rs', MallocImpl size align h = Ok (p, h') ∧ heap_rep h' rs' ∧ rs' ≠ [] ∧ malloc_post p h' ∧
    gAskFunc h' = gAskFunc h ∧ live_kept rs (words h) (words h') ∧ extents rs' = extents rs ∧
    (0 ≤ p ∧ (p = 0 → live_in rs' = live_in rs ∧ ¬ has_room rs (request size) (Z.max align kMinAlign)) ∧
     (0 < p → has_room rs (request size) (Z.max align kMinAlign))).
Proof.
  destruct (MallocImpl_Ok h rs size align Hh Hs Ha Hpow) as
    (p & h' & rs' & Hrun & Hh' & Hfr & Hex & Hask & Hcase).
  assert (Hne' : rs' ≠ []) by (rewrite extents_nil, Hex, <- extents_nil; done).
  pose proof (frame_live_kept _ _ _ Hfr) as Hkept.
  exists p, h', rs'. split_and!; try done.
  - exists rs'. split_and!; try done. naive_solver.
  - naive_solver lia.
  - naive_solver lia.
  - naive_solver lia.
Qed.

Lemma malloc_no_source :
  gAskFunc h = None →
  ∃ p h', malloc size align h = Ok (p, h') ∧ malloc_post p h' ∧
          (p = 0 ↔ ¬ has_room rs (request size) (Z.max align kMinAlign)).
Proof.
  intros Hnone.
  destruct MallocImpl_post as (p & h' & rs' & Hrun & Hh' & _ & Hpost & Hask & _ & _ & Hp & Hp0 & Hp1).
  exists p, h'. split_and!; [|done|].
  - unfold malloc. rewrite (bind_Ok _ _ _ _ _ Hrun), (bind_Ok _ _ _ _ _ (ValidateMalloc_Ok _ _ Hh')).
    destruct (tobool p) eqn:E; [done|]. apply negb_false_iff, Z.eqb_eq in E. subst p.
    rewrite (proj2 (Z.eqb_neq size 0)), (proj2 (Z.ltb_ge kSizeMax size)) by lia.
    erewrite bind_Ok by done. rewrite Hask, Hnone. by rewrite (bind_Ok _ _ _ _ _ (DumpAllocs_Ok _ _ Hh')).
  - split; [naive_solver|]. intros Hno. destruct (Z.eq_dec p 0); [done|]. naive_solver lia.
Qed.

(** A new region joins the heap. *)
Lemma grow_Ok h1 rs1 b n m' :
  heap_rep h1 rs1 → rs1 ≠ [] → usable m' rs1 b n →
  (∀ w, ¬ (b ≤ w < b + n) → m' !! w = words h1 !! w) →
  ∃ h2, SetupNewAllocation b n (set_words m' h1) = Ok (tt, h2) ∧
        heap_rep h2 (rs1 ++ [new_region b n]) ∧ gAskFunc h2 = gAskFunc h1 ∧
        live_in (rs1 ++ [new_region b n]) = live_in rs1 ∧ live_kept rs1 (words h1) (words h2).
Proof.
  intros Hh1 Hne1 Hus Hm. pose proof Hh1 as [Hf Hrep].
  assert (Hrep' : rep_regions m' rs1).
  { eapply rep_regions_local; [|exact Hrep]. intros r w Hr Hw. apply Hm.
    destruct Hus as (_ & _ & _ & _ & _ & _ & Hap). rewrite Forall_forall in Hap.
    specialize (Hap r Hr). simpl in Hap. lia. }
  eexists. split_and!.
  - by apply (SetupNewAllocation_run (set_words m' h1) rs1).
  - split; [|by apply (setup_mem_rep (set_words m' h1) rs1)].
    change (gFirstAlloc h1 = first_of (rs1 ++ [new_region b n])). rewrite Hf. by destruct rs1.
  - done.
  - unfold live_in. rewrite headers_app, live_app. by rewrite app_nil_r.
  - intros p q w Hp Hw. destruct (live_apart h1 rs1 p q w Hh1 Hp Hw) as [Hl Hout].
    specialize (Hout m' b n Hus). rewrite <- (Hm w Hout).
    by apply (setup_mem_outside (set_words m' h1) rs1 b n).
Qed.

End MallocTop.

(** [malloc] when there is a source: it fails only if the source does. *)
Lemma malloc_Ok h rs size align ask :
  heap_rep h rs → rs ≠ [] → 0 < size ≤ kSizeMax → 0 ≤ align < 2 ^ 32 → IsPowerOf2 align = true →
  gAskFunc h = Some ask → MemorySource ask →
  match malloc size align h with
  | Ok (p, h') => malloc_post h rs size align p h'
  | Fault f => ¬ has_room rs (request size) (Z.max align kMinAlign) ∧ ∃ m, ask m = Fault f
  end.
Proof.
  intros Hh Hne Hs Ha Hpow Hsrc Hok.
  destruct (MallocImpl_post h rs size align Hh Hne Hs Ha Hpow) as
    (p & h1 & rs1 & Hrun & Hh1 & Hne1 & Hpost & Hask & Hkept & Hex & Hp & Hp0 & Hp1).
  unfold malloc. rewrite (bind_Ok _ _ _ _ _ Hrun), (bind_Ok _ _ _ _ _ (ValidateMalloc_Ok _ _ Hh1)).
  destruct (tobool p) eqn:E; [done|]. apply negb_false_iff, Z.eqb_eq in E. subst p.
  rewrite (proj2 (Z.eqb_neq size 0)), (proj2 (Z.ltb_ge kSizeMax size)) by lia.
  erewrite bind_Ok by done. rewrite Hask, Hsrc. destruct (Hp0 eq_refl) as [Hlv Hroom].
  destruct (ask (words h1)) as [[[b n] m']|f] eqn:Eask.
  2:{ unfold mbind, M_bind, ask_for_more. rewrite Eask. eauto. }
  erewrite bind_Ok by (unfold ask_for_more; rewrite Eask; done). cbn [fst snd].
  destruct (Hok _ _ _ _ _ (proj2 Hh1) Eask) as [Hus Hm].
  destruct (grow_Ok h1 rs1 b n m' Hh1 Hne1 Hus Hm) as (h2 & Hset & Hh2 & Hask2 & Hlv2 & Hkept2).
  rewrite (bind_Ok _ _ _ _ _ Hset).
  destruct (MallocImpl_post h2 _ size align Hh2) as
    (p & h3 & rs3 & Hrun3 & Hh3 & Hne3 & (rs4 & Hpost3) & Hask3 & Hkept3 & _); try done; [by destruct rs1|].
  rewrite (bind_Ok _ _ _ _ _ Hrun3). rewrite Hlv2, Hlv in Hpost3.
  assert (Hfinal : malloc_post h rs size align p h3).
  { exists rs4. destruct Hpost3 as (? & ? & Hask4 & Hk4 & Hcase). split_and!; try done; [congruence|].
    intros q k w Hq Hw. rewrite (Hk4 q k), (Hkept2 q k), (Hkept q k); try done; by rewrite ?Hlv2, ?Hlv. }
  destruct (tobool p); [done|]. by rewrite (bind_Ok _ _ _ _ _ (DumpAllocs_Ok _ _ Hh3)).
Qed.

(** ** Clients

    A client calls [malloc] and [free] and writes words of the allocations it holds.
    The ghost list [L] has what it was given: pointer and size asked for. *)
Inductive client_step : heap * list (Z * Z) → heap * list (Z * Z) → Prop :=
  | client_malloc h L size align p h' :
      0 < size ≤ kSizeMax → 0 ≤ align < 2 ^ 32 → IsPowerOf2 align = true →
      malloc size align h = Ok (p, h') → p ≠ 0 → client_step (h, L) (h', (p, size) :: L)
  | client_malloc_null h L size align h' :
      0 < size ≤ kSizeMax → 0 ≤ align < 2 ^ 32 → IsPowerOf2 align = true →
      malloc size align h = Ok (0, h') → client_step (h, L) (h', L)
  | client_free h L1 p n L2 h' :
      free p h = Ok (tt, h') → client_step (h, L1 ++ (p, n) :: L2) (h', L1 ++ L2)
  | client_write h L p n w v :
      (p, n) ∈ L → p ≤ w → w + 4 ≤ p + n → w mod 4 = 0 →
      client_step (h, L) (set_words (<[w := v]> (words h)) h, L).

(** The client's view of an allocation and the heap's: same pointer, at least the size. *)
Definition granted (l k : Z * Z) : Prop := l.1 = k.1 ∧ 0 < l.2 ≤ k.2.

Definition sound (ask : gmap Z Z → result (Z * Z * gmap Z Z)) (s : heap * list (Z * Z)) : Prop :=
  ∃ rs K, heap_rep s.1 rs ∧ rs ≠ [] ∧ gAskFunc s.1 = Some ask ∧ live_in rs ≡ₚ K ∧
          Forall2 granted s.2 K.

Lemma granted_elem L K l : Forall2 granted L K → l ∈ L → ∃ k, k ∈ K ∧ granted l k.
Proof.
  intros HL [i Hi]%list_elem_of_lookup. destruct (Forall2_lookup_l _ _ _ _ _ HL Hi) as (k & Hk & Hg).
  exists k. split; [|done]. by eapply list_elem_of_lookup_2.
Qed.

Lemma headers_focus rs a sz u :
  (a, sz, u) ∈ headers rs →
  ∃ rs1 b bs1 bs2 rs2, rs = focus rs1 b bs1 [(sz, u)] bs2 rs2 ∧ a = focus_addr b bs1.
Proof.
  intros Hx. destruct (headers_split (λ x, x = (a, sz, u)) rs) as
    [Hall|(rs1 & b & bs1 & sz' & u' & bs2 & rs2 & -> & _ & _ & E)].
  - rewrite Forall_forall in Hall. by destruct (Hall _ Hx).
  - simplify_eq. by exists rs1, b, bs1, bs2, rs2.
Qed.

(** A write into a live allocation leaves the structure of the heap alone. *)
Lemma write_Ok h rs p n w v :
  heap_rep h rs → (p, n) ∈ live_in rs → p ≤ w < p + n →
  heap_rep (set_words (<[w := v]> (words h)) h) rs.
Proof.
  intros [Hf Hrep] Hp%elem_of_live Hw. split; [done|].
  destruct (headers_focus _ _ _ _ Hp) as (rs1 & b & bs1 & bs2 & rs2 & -> & Ea).
  destruct (focus_region _ _ _ _ _ _ _ Hrep) as (_ & _ & Hb & (_ & Hok & _) & _).
  apply (focus_replace (words h) _ rs1 b bs1 [(n, true)]); try done.
  - intros w' Hw'. simpl. rewrite lookup_insert_ne; [done|]. simpl in Hw'. clia.
  - intros w' Hw'. simpl. rewrite lookup_insert_is_Some'. auto.
  - simpl. split; [|done]. rewrite lookup_insert_ne by clia. apply Hb.
Qed.

Lemma sound_step ask s s' :
  MemorySource ask → sound ask s → client_step s s' → sound ask s'.
Proof.
  intros Hsrc (rs & K & Hh & Hne & Hask & HK & HL) Hstep.
  destruct Hstep as [h L size align p h' Hs Ha Hp Hrun Hp0|h L size align h' Hs Ha Hp Hrun
    |h L1 p n L2 h' Hrun|h L p n w v Hin Hw1 Hw2 Hw4]; simpl in *.
  - pose proof (malloc_Ok h rs size align ask Hh Hne Hs Ha Hp Hask Hsrc) as Hpost.
    rewrite Hrun in Hpost. destruct Hpost as (rs' & Hh' & Hne' & Hask' & _ & [[? _]|(_ & _ & n & Hn & Hlv)]); [done|].
    exists rs', ((p, n) :: K). simpl. split_and!; try done; [by rewrite Hask'|by rewrite Hlv, HK|].
    constructor; [|done]. split; simpl; [done|lia].
  - pose proof (malloc_Ok h rs size align ask Hh Hne Hs Ha Hp Hask Hsrc) as Hpost.
    rewrite Hrun in Hpost. destruct Hpost as (rs' & Hh' & Hne' & Hask' & _ & [[_ Hlv]|(? & _)]); [|lia].
    exists rs', K. simpl. split_and!; try done; [by rewrite Hask'|by rewrite Hlv].
  - apply Forall2_app_inv_l in HL as (K1 & K2' & HL1 & HL2 & ->).
    apply Forall2_cons_inv_l in HL2 as ([p' k] & K2 & [Ep Hk] & HL2 & ->). simpl in Ep, Hk. subst p'.
    assert (Hin : (p, k) ∈ live_in rs).
    { rewrite HK, elem_of_app, elem_of_cons. auto. }
    destruct (free_live h rs p k Hh Hin) as (h1 & rs1 & Hrun1 & Hh1 & Hex & Hask1 & Hlv & _).
    assert (h1 = h') as -> by congruence. exists rs1, (K1 ++ K2). simpl. split_and!; try done.
    + rewrite extents_nil, Hex, <- extents_nil. done.
    + by rewrite Hask1.
    + apply (Permutation_cons_inv (a := (p, k))). rewrite <- Hlv, HK. symmetry. apply Permutation_middle.
    + by apply Forall2_app.
  - destruct (granted_elem _ _ _ HL Hin) as ([p' k] & Hk & [Ep Hle]).
    simpl in Ep, Hle. subst p'. exists rs, K. simpl. split_and!; try done.
    apply (write_Ok h rs p k); [done|by rewrite HK|lia].
Qed.

(** Two allocations of a heap do not overlap, headers included. *)
Lemma live_disjoint h rs p n q k :
  heap_rep h rs → (p, n) ∈ live_in rs → (q, k) ∈ live_in rs → p ≠ q →
  p + n + kHeader ≤ q ∨ q + k + kHeader ≤ p.
Proof.
  intros [Hf Hrep] Hp Hq Hne. pose proof Hp as Hp'. apply elem_of_live in Hp'.
  destruct (headers_focus _ _ _ _ Hp') as (rs1 & b & bs1 & bs2 & rs2 & -> & Ea).
  rewrite live_focus in Hq. set (a := focus_addr b bs1) in *.
  change (live (headers_at a [(n, true)])) with [(a + kHeader, n)] in Hq.
  apply elem_of_app in Hq as [Hq|[Hq|Hq]%elem_of_app].
  - destruct (focus_apart _ _ _ _ _ _ _ q k Hrep (or_introl Hq)) as [H|H];
      fold a in H; simpl in H; clia.
  - apply list_elem_of_singleton in Hq. simplify_eq. destruct Hne. lia.
  - destruct (focus_apart _ _ _ _ _ _ _ q k Hrep (or_intror Hq)) as [H|H];
      fold a in H; simpl in H; clia.
Qed.

Lemma live_NoDup h rs : heap_rep h rs → NoDup (live_in rs).*1.
Proof.
  intros [_ Hrep]. unfold live_in. induction rs as [|r rs IH]; [constructor|].
  rewrite headers_cons, live_app, fmap_app. pose proof Hrep as (Hok & _ & Hap & _ & _ & _ & Hrep').
  apply NoDup_app. split_and!; [|intros p Hp Hp'|by apply IH].
  - pose proof (headers_at_NoDup (rstart r) _ (proj1 (proj2 (proj2 (proj2 Hok))))) as Hnd.
    revert Hnd. generalize (headers_at (rstart r) (rblocks r)). intros hs.
    induction hs as [|[[a sz] u] hs IHh]; [constructor|]. simpl. intros [Hin Hnd]%NoDup_cons.
    destruct u; [|by apply IHh]. unfold live. simpl. constructor; [|by apply IHh].
    intros ([p n] & E & Hx)%list_elem_of_fmap. simpl in E. apply elem_of_live in Hx. apply Hin.
    apply list_elem_of_fmap. exists (p - kHeader, n, true). simpl. split; [lia|done].
  - apply list_elem_of_fmap in Hp as ([p1 n1] & -> & Hp). apply list_elem_of_fmap in Hp' as ([p2 n2] & E & Hp').
    simpl in E. subst p2. apply live_at_bounds in Hp; [|apply Hok].
    apply (live_in_bounds rs) in Hp' as (r' & Hr' & ? & ? & ?); [|by eapply rep_regions_ok].
    rewrite Forall_forall in Hap. specialize (Hap r' Hr').
    pose proof (region_ok_bounds r Hok) as (_ & _ & _ & He & _). unfold apart, rstart in *. clia.
Qed.

(** ** Concrete heaps *)

(** [n] zero words from [b] on. *)
Definition zeroes (b n : Z) : gmap Z Z := list_to_map ((λ i, (b + 4 * i, 0)) <$> seqZ 0 n).

Lemma zeroes_mapped b n : b mod 4 = 0 → mapped (zeroes b n) b (b + 4 * n).
Proof.
  intros Hb w Hw H4. apply elem_of_dom. unfold zeroes. rewrite dom_list_to_map_L, elem_of_list_to_set.
  apply list_elem_of_fmap. exists (w, 0). split; [done|].
  apply list_elem_of_fmap. exists ((w - b) / 4). split; [f_equal; dlia|].
  apply elem_of_seqZ. dlia.
Qed.

Lemma zeroes_outside b n w : ¬ (b ≤ w < b + 4 * n) → zeroes b n !! w = None.
Proof.
  intros Hw. apply not_elem_of_dom. unfold zeroes. rewrite dom_list_to_map_L, elem_of_list_to_set.
  intros ([w' v] & -> & (i & [= -> _] & Hi%elem_of_seqZ)%list_elem_of_fmap)%list_elem_of_fmap.
  simpl in Hw. lia.
Qed.

(** A source that has one spare range of memory. *)
Definition spare (b n : Z) (m : gmap Z Z) : result (Z * Z * gmap Z Z) :=
  if forallb (λ i, bool_decide (m !! (b + 4 * i) = None)) (seqZ 0 n)
  then Ok (b, 4 * n, zeroes b n ∪ m) else Fault Aborted.

Lemma spare_source b n :
  0 < b → b mod 4 = 0 → 3 < n → b + 4 * n ≤ 2 ^ kSizeBitsMax → MemorySource (spare b n).
Proof.
  intros Hb H4 Hn Hend m rs b' n' m' Hrep. unfold spare.
  destruct (forallb _ _) eqn:Hfree; [|done]. intros [= <- <- <-]. split.
  - split_and!; try done; [dlia|clia| |].
    + intros w Hw Hw4. apply lookup_union_is_Some. left. by apply zeroes_mapped.
    + apply Forall_forall. intros r Hr. destruct (rep_regions_elem _ _ _ Hrep Hr) as (Hok & Hmap & _).
      pose proof (region_ok_bounds r Hok) as Hbr. destruct Hok as (_ & Hr4 & _).
      destruct (Z.le_gt_cases (b + 4 * n) (rbase r)); [by left|].
      destruct (Z.le_gt_cases (rend r) b); [by right|exfalso].
      assert (∃ w, w mod 4 = 0 ∧ b ≤ w < b + 4 * n ∧ rbase r ≤ w < rend r) as (w & Hw4 & Hwb & Hwr).
      { destruct (Z.le_gt_cases b (rbase r)); [exists (rbase r)|exists b]; clia. }
      destruct (Hmap w Hwr Hw4) as [x Hx].
      rewrite forallb_forall in Hfree. specialize (Hfree ((w - b) / 4)).
      assert (Hin : List.In ((w - b) / 4) (seqZ 0 n)).
      { apply list_elem_of_In, elem_of_seqZ. dlia. }
      apply Hfree, bool_decide_eq_true_1 in Hin.
      replace (b + 4 * ((w - b) / 4)) with w in Hin by dlia. congruence.
  - intros w Hw. rewrite lookup_union. rewrite zeroes_outside by done. by destruct (m !! w).
Qed.

Definition example_start : heap := mkHeap 0 None (zeroes 0x1000 32).

Lemma example_usable : usable (zeroes 0x1000 32) [] 0x1000 128.
Proof. split_and!; try done. by apply (zeroes_mapped 0x1000 32). Qed.

#[export] Instance example_source : MemorySource (spare 0x2000 32).
Proof. by apply spare_source. Qed.

(** The heap right after [Initialize]. *)
Definition example_heap : heap :=
  mkHeap 0x1000 (Some (spare 0x2000 32)) (setup_mem (zeroes 0x1000 32) [] 0x1000 128).

Lemma example_heap_rep : heap_rep example_heap [new_region 0x1000 128].
Proof.
  split; [done|]. apply (setup_mem_rep example_start [] 0x1000 128); [done..|apply example_usable].
Qed.

(** * Properties *)

(** C14: whatever a client does with a heap set up by [Initialize], as long as it frees
    only what it holds and writes only within what it holds: the allocations it holds
    are distinct and do not overlap, each of them can be freed, and a request for more
    succeeds unless the function that supplies memory fails. *)
Theorem heap_safety ask h0 b n :
  MemorySource ask → gFirstAlloc h0 = 0 → usable (words h0) [] b n →
  ∃ h1, Initialize b n (Some ask) h0 = Ok (tt, h1) ∧
  ∀ s, rtc client_step (h1, []) s →
    NoDup s.2.*1 ∧
    (∀ p n q k, (p, n) ∈ s.2 → (q, k) ∈ s.2 → p ≠ q → p + n ≤ q ∨ q + k ≤ p) ∧
    (∀ p n, (p, n) ∈ s.2 → 0 < p ∧ 0 < n ∧ ∃ h', free p s.1 = Ok (tt, h')) ∧
    (∀ size align f, 0 < size ≤ kSizeMax → 0 ≤ align < 2 ^ 32 → IsPowerOf2 align = true →
       malloc size align s.1 = Fault f → ∃ m, ask m = Fault f).
Proof.
  intros Hsrc H0 Hus. destruct (heap_Initialize_Ok h0 b n (Some ask) H0 Hus) as (h1 & Hrun & Hh1 & Hask & _).
  exists h1. split; [done|]. intros s Hsteps.
  assert (Hs : sound ask s).
  { assert (Hs1 : sound ask (h1, [])).
    { exists [new_region b n], []. split_and!; try done; constructor. }
    induction Hsteps; [done|]. eauto using sound_step. }
  destruct Hs as (rs & K & Hh & Hne & Hask' & HK & HL). split_and!.
  - assert (E : s.2.*1 = K.*1).
    { clear -HL. induction HL as [|l k L K [E _] _ IH]; [done|]. csimpl. by rewrite E, IH. }
    rewrite E, <- HK. by eapply live_NoDup.
  - intros p k q k' Hp Hq Hpq.
    destruct (granted_elem _ _ _ HL Hp) as ([? x] & Hx & [E1 ?]).
    destruct (granted_elem _ _ _ HL Hq) as ([? y] & Hy & [E2 ?]). simpl in *. subst.
    rewrite <- HK in Hx, Hy. pose proof (live_disjoint _ _ _ _ _ _ Hh Hx Hy Hpq). clia.
  - intros p k Hp. destruct (granted_elem _ _ _ HL Hp) as ([? x] & Hx & [E1 ?]). simpl in *. subst.
    rewrite <- HK in Hx. destruct (live_hdr _ _ _ _ Hh Hx) as (_ & ? & _).
    destruct (free_live _ _ _ _ Hh Hx) as (h' & _ & Hf & _). split_and!; [clia|lia|eauto].
  - intros size align f Hsz Hal Hpow Hfault.
    pose proof (malloc_Ok s.1 rs size align ask Hh Hne Hsz Hal Hpow Hask' Hsrc) as H.
    rewrite Hfault in H. by destruct H.
Qed.

Lemma heap_safety_witness :
  ∃ h1, Initialize 0x1000 128 (Some (spare 0x2000 32)) example_start = Ok (tt, h1).
Proof.
  destruct (heap_safety (spare 0x2000 32) example_start 0x1000 128) as (h1 & H & _);
    [apply example_source|reflexivity|apply example_usable|]. exists h1. exact H.
Defined.

(** C15: [malloc] of a valid request on a sound heap with a source of memory.  A pointer it
    returns is a multiple of the alignment and is a new live allocation of at least the
    size asked for; the other live allocations stay, with their contents.  A null result
    changes no allocation.  It stops the program only when no free block of the heap
    has room and the source of memory stops. *)
Theorem malloc_spec h rs size align ask :
  heap_rep h rs → rs ≠ [] → 0 < size ≤ kSizeMax → 0 ≤ align < 2 ^ 32 → IsPowerOf2 align = true →
  gAskFunc h = Some ask → MemorySource ask →
  match malloc size align h with
  | Ok (p, h') =>
      ∃ rs', heap_rep h' rs' ∧ live_kept rs (words h) (words h') ∧
        ((p = 0 ∧ live_in rs' = live_in rs) ∨
         (0 < p ∧ p mod align = 0 ∧ ∃ n, size ≤ n ∧ live_in rs' ≡ₚ (p, n) :: live_in rs))
  | Fault f => ¬ has_room rs (request size) (Z.max align kMinAlign) ∧ ∃ m, ask m = Fault f
  end.
Proof.
  intros Hh Hne Hs Ha Hpow Hask Hsrc.
  pose proof (malloc_Ok h rs size align ask Hh Hne Hs Ha Hpow Hask Hsrc) as H.
  destruct (malloc size align h) as [[p h']|f]; [|done].
  destruct H as (rs' & ? & _ & _ & ? & ?). eauto.
Qed.

Lemma malloc_spec_witness :
  ∃ h' rs', malloc 10 16 example_heap = Ok (0x1020, h') ∧ heap_rep h' rs'.
Proof.
  pose proof (malloc_spec example_heap [new_region 0x1000 128] 10 16 (spare 0x2000 32)
    example_heap_rep ltac:(discriminate) ltac:(clia) ltac:(lia) eq_refl eq_refl example_source) as H.
  destruct (malloc 10 16 example_heap) as [[p h']|f] eqn:E.
  - destruct H as (rs' & H & _). exists h', rs'. split; [|exact H].
    assert (Hp : p = 0x1020); [|rewrite Hp; reflexivity].
    apply (f_equal (λ r, match r with Ok (p, _) => p | _ => 0 end)) in E. vm_compute in E. exact (eq_sym E).
  - exfalso. apply (f_equal (λ r, match r with Ok (p, _) => p | _ => 0 end)) in E.
    vm_compute in E. discriminate E.
Defined.

(** C10: on a sound heap, [free] of a live allocation removes exactly it, keeping the
    contents of the others; [free] of any other address (freed before, or never
    allocated) stops the program. *)
Theorem free_spec h rs p :
  heap_rep h rs → 0 < p < 2 ^ 32 →
  match free p h with
  | Ok (_, h') =>
      ∃ n rs', live_in rs ≡ₚ (p, n) :: live_in rs' ∧ heap_rep h' rs' ∧
               live_kept rs' (words h) (words h')
  | Fault _ => ∀ n, (p, n) ∉ live_in rs
  end.
Proof.
  intros Hh Hp. destruct (decide (p ∈ (live_in rs).*1)) as [Hin|Hno].
  - apply list_elem_of_fmap in Hin as ([p' n] & E & Hin). simpl in E. subst p'.
    destruct (free_live h rs p n Hh Hin) as (h' & rs' & -> & Hh' & _ & _ & Hlv & Hfr & _).
    exists n, rs'. split_and!; [done|done|]. by apply frame_live_kept.
  - assert (Hd : ∀ n, (p, n) ∉ live_in rs).
    { intros n Hn. apply Hno, list_elem_of_fmap. by exists (p, n). }
    destruct (free_dead h rs p Hh Hp Hd) as [-> | ->]; exact Hd.
Qed.

Lemma free_spec_witness :
  match free 0x1010 example_heap with
  | Ok _ => False
  | Fault _ => ∀ n, (0x1010, n) ∉ live_in [new_region 0x1000 128]
  end.
Proof.
  pose proof (free_spec example_heap _ 0x1010 example_heap_rep ltac:(lia)) as H.
  destruct (free 0x1010 example_heap) as [[[] h']|f] eqn:E; [|exact H].
  apply (f_equal (λ r, match r with Ok _ => true | _ => false end)) in E.
  vm_compute in E. discriminate E.
Defined.

(** No two neighbouring blocks are both free. *)
Fixpoint no_adjacent_free (bs : list block) : bool :=
  match bs with
  | (_, false) :: (((_, false) :: _) as bs') => false
  | _ :: bs' => no_adjacent_free bs'
  | [] => true
  end.

Lemma coalesce_no_adjacent bs : no_adjacent_free (coalesce bs) = true.
Proof.
  induction bs as [|[sz []] bs IH]; [done| |].
  - simpl. by destruct (coalesce bs).
  - simpl. destruct (coalesce bs) as [|[sz' []] bs'] eqn:E; [done|done|].
    simpl in IH |- *. destruct bs' as [|[? []] ?]; done.
Qed.

(** [MergeMallocHeaders] on a sound heap succeeds and changes no live allocation
    and no byte of one; in every region up to and including the first one that ends in
    a free block, no two neighbouring blocks are free afterwards. *)
Lemma MergeMallocHeaders_merges h rs1 r rs2 :
  heap_rep h (rs1 ++ r :: rs2) → Forall (λ r, last_used (rblocks r) = true) rs1 →
  ∃ h' rs1' r', MergeMallocHeaders h = Ok (tt, h') ∧
    heap_rep h' (merge_regions (rs1 ++ r :: rs2)) ∧
    merge_regions (rs1 ++ r :: rs2) = rs1' ++ r' :: (if last_used (rblocks r) then merge_regions rs2 else rs2) ∧
    Forall (λ r, no_adjacent_free (rblocks r) = true) (rs1' ++ [r']) ∧
    length rs1' = length rs1 ∧
    live_in (merge_regions (rs1 ++ r :: rs2)) = live_in (rs1 ++ r :: rs2) ∧
    live_kept (rs1 ++ r :: rs2) (words h) (words h').
Proof.
  intros Hh Hl. destruct (MergeMallocHeaders_Ok _ _ Hh) as (h' & Hrun & Hh' & Hfr & Hlv & _).
  exists h', ((λ r, mkRegion (rbase r) (coalesce (rblocks r))) <$> rs1),
    (mkRegion (rbase r) (coalesce (rblocks r))).
  split_and!; try done.
  - clear -Hl. induction Hl as [|r0 rs1 E _ IH]; [done|]. simpl. by rewrite E, IH.
  - apply Forall_app. split; [|constructor; [apply coalesce_no_adjacent|done]].
    apply Forall_fmap, Forall_true. intros r0. apply coalesce_no_adjacent.
  - apply length_fmap.
  - by apply frame_live_kept.
Qed.

(** * Remarks on the code *)

(** A size within 3 bytes of 4GB rounds up to 0: it passes the size limit and the
    program stops in [setSize] instead of returning null. *)
Lemma malloc_wrapping_size_stops : malloc 0xFFFFFFFD 4 example_heap = Fault AssertFailed.
Proof. vm_compute. reflexivity. Qed.

(** The merge does not look at the regions behind the first one that ends in a free
    block: the callback's [return false] ends the whole walk. *)
Lemma merge_skips_later_regions r rs :
  last_used (rblocks r) = false →
  merge_regions (r :: rs) = mkRegion (rbase r) (coalesce (rblocks r)) :: rs.
Proof. intros E. simpl. by rewrite E. Qed.

(** In a block above 2GB the test [new_addr + desired_size > end] can wrap around; the
    block is then split and the assertion on the recursive call fails. *)
Lemma Partition_wraps_in_high_memory :
  Partition 0x90000000 0x50000000 0x40000000
    (mkHeap 0 None {[0x90000000 := mk_hdr 0x5FFFFFFC false; 0xBFFFFFFC := 0]}) = Fault AssertFailed.
Proof. vm_compute. reflexivity. Qed.

End Malloc.
