(* ===== verification/Algorithm.v ===== *)
(** Iterators and algorithms: libcxx/include/iterator and libcxx/include/algorithm.

    The templates are functions over a type class of iterators, [Iterator], with instances for
    pointers (positions of an array), for [std::iterator], which wraps one, and for
    [std::reverse_iterator].  [IteratorLaws] states what the algorithms rely on; the loops
    are proved against it.  The array that an algorithm works on is its state; an access
    outside of it is a fault. *)
From Stdlib Require Import Sorted Permutation.
From S2P Require Import Prelude.

Module Algorithm.

(** * Iterators *)

(** What the algorithms use of an iterator: the position in the array that [*it] is, [++it],
    [--it], [it += n], [last - first], [a != b] and [a < b]. *)
Class Iterator (It : Type) := {
  position : It → Z;
  incr : It → It;
  decr : It → It;
  add : It → Z → It;
  sub : It → It → Z;
  ne : It → It → bool;
  before : It → It → bool }.

Class IteratorLaws (It : Type) `{Iterator It} := {
  ne_false i j : ne i j = false ↔ i = j;
  add_0 i : add i 0 = i;
  add_add i m n : add (add i m) n = add i (m + n);
  incr_add i : incr i = add i 1;
  decr_add i : decr i = add i (-1);
  sub_add i n : sub (add i n) i = n }.

(** A pointer, as the index of the element that it points to. *)
#[export] Instance pointer : Iterator Z := {
  position i := i;
  incr i := i + 1;
  decr i := i - 1;
  add i n := i + n;
  sub i j := i - j;
  ne i j := negb (i =? j);
  before i j := i <? j }.

#[export] Instance pointer_laws : IteratorLaws Z.
Proof.
  split; simpl; intros; lia.
Qed.

(** ** The categories of iterators *)
Section categories.
  Context {It : Type} `{Iterator It}.

(** [do_advance] for each category. *)
Fixpoint advance_up (n : nat) (it : It) : It :=
  match n with O => it | S n => advance_up n (incr it) end.

Fixpoint advance_down (n : nat) (it : It) : It :=
  match n with O => it | S n => advance_down n (decr it) end.

Definition do_advance_input (it : It) (n : Z) : It := advance_up (Z.to_nat n) it.

Definition do_advance_bidirectional (it : It) (n : Z) : It :=
  advance_down (Z.to_nat (- n)) (advance_up (Z.to_nat n) it).

Definition do_advance_random_access (it : It) (n : Z) : It := add it n.

(** [do_distance] for each category. *)
Fixpoint distance_loop (fuel : nat) (first last : It) (res : Z) : result Z :=
  match fuel with
  | O => Fault NoFuel
  | S fuel => if ne first last then distance_loop fuel (incr first) last (res + 1) else Ok res
  end.

Definition do_distance_input (fuel : nat) (first last : It) : result Z := distance_loop fuel first last 0.

Definition do_distance_random_access (first last : It) : Z := sub last first.

(** All iterators of the library are of the last category. *)
Definition advance (it : It) (n : Z) : It := do_advance_random_access it n.
Definition distance (first last : It) : Z := do_distance_random_access first last.
Definition prev (it : It) (n : Z) : It := advance it (- n).
Definition next (it : It) (n : Z) : It := advance it n.

End categories.

(** ** [std::iterator] *)
Record iterator (It : Type) := MkIterator { __i : It }.
Arguments MkIterator {It} __i.
Arguments __i {It} i.

Section wrapper.
  Context {It : Type} `{Iterator It}.

Definition iterator_incr (it : iterator It) : iterator It := MkIterator (incr (__i it)).

(** The postfix operators return the old value and the new one. *)
Definition iterator_post_incr (it : iterator It) : iterator It * iterator It := (it, iterator_incr it).

Definition iterator_decr (it : iterator It) : iterator It := MkIterator (decr (__i it)).

Definition iterator_post_decr (it : iterator It) : iterator It * iterator It := (it, iterator_decr it).

Definition iterator_plus_assign (it : iterator It) (n : Z) : iterator It := MkIterator (add (__i it) n).

Definition iterator_plus (it : iterator It) (n : Z) : iterator It := iterator_plus_assign it n.

Definition iterator_minus (it : iterator It) (n : Z) : iterator It := iterator_plus it (- n).

Definition iterator_minus_assign (it : iterator It) (n : Z) : iterator It := iterator_plus_assign it (- n).

Definition iterator_ne (it other : iterator It) : bool := ne (__i it) (__i other).
Definition iterator_eq (it other : iterator It) : bool := negb (ne (__i it) (__i other)).

Definition iterator_lt (x y : iterator It) : bool := before (__i x) (__i y).
Definition iterator_gt (x y : iterator It) : bool := before (__i y) (__i x).
Definition iterator_le (x y : iterator It) : bool := negb (before (__i y) (__i x)).

Definition iterator_sub (x y : iterator It) : Z := sub (__i x) (__i y).

#[export] Instance iterator_Iterator : Iterator (iterator It) := {
  position it := position (__i it);
  incr := iterator_incr;
  decr := iterator_decr;
  add := iterator_plus_assign;
  sub := iterator_sub;
  ne := iterator_ne;
  before := iterator_lt }.

End wrapper.

#[export] Instance iterator_laws `{IteratorLaws It} : IteratorLaws (iterator It).
Proof.
  split; simpl; unfold iterator_ne, iterator_plus_assign, iterator_incr, iterator_decr, iterator_sub.
  - intros [i] [j]. simpl. rewrite ne_false. split; [by intros ->|by intros [= ->]].
  - intros [i]. simpl. by rewrite add_0.
  - intros [i] m n. simpl. by rewrite add_add.
  - intros [i]. simpl. by rewrite incr_add.
  - intros [i]. simpl. by rewrite decr_add.
  - intros [i] n. simpl. apply sub_add.
Qed.

(** ** [std::reverse_iterator] *)
Record reverse_iterator (It : Type) := MkReverse { itr : It }.
Arguments MkReverse {It} itr.
Arguments itr {It} r.

Section reversed.
  Context {It : Type} `{Iterator It}.

Definition make_reverse_iterator (i : It) : reverse_iterator It := MkReverse i.
Definition base (r : reverse_iterator It) : It := itr r.

(** [*r] is the element before the one of the base. *)
Definition reverse_position (r : reverse_iterator It) : Z := position (prev (itr r) 1).

Definition reverse_incr (r : reverse_iterator It) : reverse_iterator It := MkReverse (decr (itr r)).

Definition reverse_ne (a b : reverse_iterator It) : bool := ne (itr a) (itr b).

Definition reverse_minus (r : reverse_iterator It) (n : Z) : reverse_iterator It := MkReverse (add (itr r) n).

(** [itr -= n] *)
Definition reverse_plus_assign (r : reverse_iterator It) (n : Z) : reverse_iterator It :=
  MkReverse (add (itr r) (- n)).

Definition reverse_sub (x y : reverse_iterator It) : Z := sub (base y) (base x).

(** The class has no [--] and no [<]; no algorithm that uses them is applied to it. *)
#[export] Instance reverse_Iterator : Iterator (reverse_iterator It) := {
  position := reverse_position;
  incr := reverse_incr;
  decr r := reverse_minus r 1;
  add := reverse_plus_assign;
  sub := reverse_sub;
  ne := reverse_ne;
  before a b := before (itr b) (itr a) }.

End reversed.

#[export] Instance reverse_laws `{IteratorLaws It} : IteratorLaws (reverse_iterator It).
Proof.
  split; simpl; unfold reverse_ne, reverse_plus_assign, reverse_incr, reverse_minus, reverse_sub, base.
  - intros [i] [j]. simpl. rewrite ne_false. split; [by intros ->|by intros [= ->]].
  - intros [i]. simpl. by rewrite add_0.
  - intros [i] m n. simpl. rewrite add_add. do 2 f_equal. lia.
  - intros [i]. simpl. by rewrite decr_add.
  - intros [i]. simpl. done.
  - intros [i] n. simpl.
    assert (i = add (add i (- n)) n) as E by (rewrite add_add; rewrite <- (add_0 i) at 1; f_equal; lia).
    rewrite E at 1. apply sub_add.
Qed.

(** * Algorithms *)
Section algorithms.
  Context {It : Type} `{Iterator It} {T : Type}.

(** [*it] *)
Definition deref (a : list T) (it : It) : result T := aread a (position it).

(** [iter_swap], and the [swap] of the two elements in it. *)
Definition iter_swap {It2} `{Iterator It2} (a : list T) (i : It) (j : It2) : result (list T) :=
  temp ← aread a (position i);
  y ← aread a (position j);
  a ← awrite a (position i) y;
  awrite a (position j) temp.

(** The loop of [is_sorted_until]: [first] is the element before [++next]. *)
Fixpoint is_sorted_until_loop (fuel : nat) (comp : T → T → bool) (a : list T) (first nxt last : It) : result It :=
  match fuel with
  | O => Fault NoFuel
  | S fuel =>
      let nxt := incr nxt in
      if ne nxt last then
        x ← deref a nxt;
        y ← deref a first;
        if comp x y then Ok nxt else is_sorted_until_loop fuel comp a nxt nxt last
      else Ok last
  end.

Definition is_sorted_until (comp : T → T → bool) (a : list T) (first last : It) : result It :=
  if ne first last then is_sorted_until_loop (length a) comp a first first last else Ok last.

(** [count] elements from [first] are left. *)
Fixpoint upper_bound_loop (fuel : nat) (comp : T → T → bool) (a : list T) (value : T) (first : It) (count : Z) : result It :=
  match fuel with
  | O => Fault NoFuel
  | S fuel =>
      if 0 <? count then
        let step := Z.quot count 2 in
        let it := advance first step in
        x ← deref a it;
        if negb (comp value x)
        then upper_bound_loop fuel comp a value (incr it) (count - (step + 1))
        else upper_bound_loop fuel comp a value first step
      else Ok first
  end.

Definition upper_bound (comp : T → T → bool) (a : list T) (first last : It) (value : T) : result It :=
  let count := distance first last in
  upper_bound_loop (S (Z.to_nat count)) comp a value first count.

(** [reverse] of random access iterators. *)
Fixpoint reverse_loop (fuel : nat) (a : list T) (first last : It) : result (list T) :=
  match fuel with
  | O => Fault NoFuel
  | S fuel =>
      if before first last then
        a ← iter_swap a first last;
        reverse_loop fuel a (incr first) (decr last)
      else Ok a
  end.

Definition reverse_random_access (a : list T) (first last : It) : result (list T) :=
  if ne first last then reverse_loop (S (length a)) a first (decr last) else Ok a.

(** [reverse] of the others. *)
Fixpoint reverse_bidirectional (fuel : nat) (a : list T) (first last : It) : result (list T) :=
  match fuel with
  | O => Fault NoFuel
  | S fuel =>
      if ne first last then
        let last := decr last in
        if ne first last then
          a ← iter_swap a first last;
          reverse_bidirectional fuel a (incr first) last
        else Ok a
      else Ok a
  end.

Fixpoint find_if_loop (fuel : nat) (p : T → bool) (a : list T) (first last : It) : result It :=
  match fuel with
  | O => Fault NoFuel
  | S fuel =>
      if ne first last then
        x ← deref a first;
        if p x then Ok first else find_if_loop fuel p a (incr first) last
      else Ok last
  end.

Definition find_if (p : T → bool) (a : list T) (first last : It) : result It :=
  find_if_loop (S (length a)) p a first last.

Definition any_of (p : T → bool) (a : list T) (first last : It) : result bool :=
  it ← find_if p a first last; Ok (ne it last).

Definition none_of (p : T → bool) (a : list T) (first last : It) : result bool :=
  it ← find_if p a first last; Ok (negb (ne it last)).

End algorithms.

(** [next_permutation] with [<] of the elements. *)
Definition next_permutation {It T} `{Iterator It} (less : T → T → bool) (a : list T) (first last : It)
    : result (bool * list T) :=
  let r_first := make_reverse_iterator last in
  let r_last := make_reverse_iterator first in
  left ← is_sorted_until less a r_first r_last;
  a ← (if ne left r_last then
         v ← deref a left;
         right ← upper_bound less a r_first left v;
         iter_swap a left right
       else Ok a);
  a ← reverse_random_access a (base left) last;
  Ok (ne left r_last, a).

(** [min] and [max] *)
Definition min {T} (less : T → T → bool) (a b : T) : T := if less b a then b else a.
Definition max {T} (less : T → T → bool) (a b : T) : T := if less a b then b else a.

Example next_permutation_123 :
  next_permutation Z.ltb [1; 2; 3] 0 3 = Ok (true, [1; 3; 2]) ∧
  next_permutation Z.ltb [3; 1; 2; 9] 0 3 = Ok (true, [3; 2; 1; 9]) ∧
  next_permutation Z.ltb [2; 3; 1] 0 3 = Ok (true, [3; 1; 2]) ∧
  next_permutation Z.ltb [3; 2; 1] 0 3 = Ok (false, [1; 2; 3]) ∧
  next_permutation Z.ltb [2; 2; 1; 7] 0 4 = Ok (true, [2; 2; 7; 1]).
Proof. done. Qed.

(** * Lemmas *)

(** ** Iterators *)
Section laws.
  Context {It : Type} `{IteratorLaws It}.

Lemma ne_add (i : It) m n : ne (add i m) (add i n) = negb (m =? n).
Proof.
  destruct (ne (add i m) (add i n)) eqn:E; symmetry.
  - apply negb_true_iff, Z.eqb_neq. intros ->.
    assert (ne (add i n) (add i n) = false) by (by apply ne_false). congruence.
  - apply ne_false in E. apply negb_false_iff, Z.eqb_eq.
    by rewrite <- (sub_add i m), E, sub_add.
Qed.

Lemma ne_end (i : It) n : ne i (add i n) = negb (n =? 0).
Proof. rewrite <- (add_0 i) at 1. rewrite ne_add. by rewrite Z.eqb_sym. Qed.

(** The three categories agree. *)
Lemma advance_up_add n (i : It) : advance_up n i = add i (Z.of_nat n).
Proof.
  revert i. induction n as [|n IH]; intros i; simpl; [by rewrite add_0|].
  rewrite IH, incr_add, add_add. f_equal. lia.
Qed.

Lemma advance_down_add n (i : It) : advance_down n i = add i (- Z.of_nat n).
Proof.
  revert i. induction n as [|n IH]; intros i; simpl; [by rewrite add_0|].
  rewrite IH, decr_add, add_add. f_equal. lia.
Qed.

Lemma do_advance_agree (i : It) n :
  do_advance_bidirectional i n = do_advance_random_access i n ∧
  (0 ≤ n → do_advance_input i n = do_advance_random_access i n).
Proof.
  unfold do_advance_bidirectional, do_advance_input, do_advance_random_access.
  rewrite advance_down_add, !advance_up_add, add_add. split; intros; f_equal; lia.
Qed.

Lemma do_distance_agree (i : It) n fuel : (n < fuel)%nat →
  do_distance_input fuel i (add i (Z.of_nat n)) = Ok (do_distance_random_access i (add i (Z.of_nat n))).
Proof.
  unfold do_distance_input, do_distance_random_access. rewrite sub_add.
  assert (∀ r, (n < fuel)%nat → distance_loop fuel i (add i (Z.of_nat n)) r = Ok (r + Z.of_nat n)) as L;
    [|intros; rewrite L by done; f_equal; lia].
  revert i fuel. induction n as [|n IH]; intros i [|fuel] r Hf; try lia; simpl distance_loop.
  - rewrite ne_end. simpl. f_equal. lia.
  - rewrite ne_end, (proj2 (Z.eqb_neq _ 0)) by lia. simpl negb. cbv iota.
    replace (add i (Z.of_nat (S n))) with (add (incr i) (Z.of_nat n))
      by (rewrite incr_add, add_add; f_equal; lia).
    rewrite IH by lia. f_equal. lia.
Qed.

(** ** What the range [first, add first (length l)) holds *)
Definition view {T} (a : list T) (first : It) (l : list T) : Prop :=
  ∀ k x, l !! k = Some x → deref a (add first (Z.of_nat k)) = Ok x.

Lemma view_app {T} (a : list T) first l1 l2 :
  view a first (l1 ++ l2) → view a first l1 ∧ view a (add first (Z.of_nat (length l1))) l2.
Proof.
  intros V. split; intros k x Hk.
  - apply V. by apply lookup_app_l_Some.
  - rewrite add_add, <- Nat2Z.inj_add. apply V. rewrite lookup_app_r by lia.
    by replace (length l1 + k - length l1)%nat with k by lia.
Qed.

Lemma view_cons {T} (a : list T) first x l :
  view a first (x :: l) → deref a first = Ok x ∧ view a (incr first) l.
Proof.
  intros V. split.
  - specialize (V O x eq_refl). by rewrite add_0 in V.
  - rewrite incr_add. apply (view_app _ _ [x] l V).
Qed.

Lemma add_cons (first : It) {T} (x : T) l :
  add first (Z.of_nat (length (x :: l))) = add (incr first) (Z.of_nat (length l)).
Proof. rewrite incr_add, add_add. f_equal. simpl. lia. Qed.

(** [find_if] finds the first. *)
Lemma find_if_loop_spec {T} (p : T → bool) (a : list T) l first fuel :
  view a first l → (length l < fuel)%nat →
  find_if_loop fuel p a first (add first (Z.of_nat (length l))) =
    Ok (add first (Z.of_nat (from_option fst (length l) (list_find p l)))).
Proof.
  revert first fuel. induction l as [|x l IH]; intros first [|fuel] V Hf; simpl in Hf; try lia.
  - simpl. by rewrite ne_end.
  - destruct (view_cons _ _ _ _ V) as [E V']. cbn [find_if_loop]. rewrite ne_end.
    rewrite (proj2 (Z.eqb_neq _ 0)) by (simpl; lia). simpl negb. cbv iota.
    rewrite E. cbn [mbind result_bind]. cbn [list_find]. destruct (decide (p x)) as [Hp|Hp].
    + destruct (p x) eqn:Ep; [|done]. simpl. by rewrite add_0.
    + destruct (p x) eqn:Ep; [by destruct Hp|].
      rewrite add_cons, IH by (done || lia). f_equal.
      destruct (list_find p l) as [[k y]|]; simpl; rewrite incr_add, add_add; f_equal; lia.
Qed.

Lemma none_of_spec {T} (p : T → bool) (a : list T) l first :
  view a first l → (length l ≤ length a)%nat →
  none_of p a first (add first (Z.of_nat (length l))) = Ok (negb (existsb p l)) ∧
  any_of p a first (add first (Z.of_nat (length l))) = Ok (existsb p l).
Proof.
  intros V Hl. unfold none_of, any_of, find_if.
  rewrite find_if_loop_spec by (done || lia). cbn [mbind result_bind].
  rewrite ne_add. destruct (list_find p l) as [[k y]|] eqn:E; simpl.
  - apply list_find_Some in E as (Hk & Hp & _).
    assert (existsb p l = true) as ->.
    { apply existsb_exists. exists y. split; [by eapply list_elem_of_In, list_elem_of_lookup_2|by destruct (p y)]. }
    apply lookup_lt_Some in Hk. by rewrite (proj2 (Z.eqb_neq _ _)) by lia.
  - apply list_find_None in E. rewrite Z.eqb_refl. simpl.
    assert (existsb p l = false) as ->; [|done].
    apply not_true_iff_false. intros (y & Hy & Hp)%existsb_exists.
    rewrite Forall_forall in E. apply (E y); [by apply list_elem_of_In|by rewrite Hp].
Qed.

End laws.

(** ** Sorted ranges *)

(** Where an ascending run stops: the next element is smaller than the last of the run. *)
Definition stops (l1 l2 : list Z) : Prop :=
  match l2 with [] => True | y :: _ => ∃ x, last l1 = Some x ∧ y < x end.

Section sorted.
  Context {It : Type} `{IteratorLaws It}.

Lemma is_sorted_until_loop_spec (a : list Z) l x first fuel :
  view a first (x :: l) → (length l < fuel)%nat →
  ∃ l1 l2, l = l1 ++ l2 ∧ Sorted Z.le (x :: l1) ∧ stops (x :: l1) l2 ∧
    is_sorted_until_loop fuel Z.ltb a first first (add first (Z.of_nat (S (length l)))) =
      Ok (add first (Z.of_nat (S (length l1)))).
Proof.
  revert x first fuel. induction l as [|y l IH]; intros x first [|fuel] V Hf; simpl in Hf; try lia.
  - exists [], []. repeat split; [by repeat constructor|]. cbn [is_sorted_until_loop length].
    rewrite incr_add, ne_add. done.
  - destruct (view_cons _ _ _ _ V) as [Ex V']. destruct (view_cons _ _ _ _ V') as [Ey _].
    assert (add first (Z.of_nat (S (length (y :: l)))) = add (incr first) (Z.of_nat (S (length l)))) as El
      by (rewrite incr_add, add_add; f_equal; simpl; lia).
    cbn [is_sorted_until_loop]. rewrite El, ne_end, (proj2 (Z.eqb_neq _ 0)) by lia.
    simpl negb. cbv iota. rewrite Ex, Ey. cbn [mbind result_bind].
    destruct (Z.ltb_spec y x) as [Hlt|Hge].
    + exists [], (y :: l). repeat split; [by repeat constructor|by exists x|]. by rewrite incr_add.
    + destruct (IH y (incr first) fuel V' ltac:(lia)) as (l1 & l2 & -> & S1 & S2 & E).
      exists (y :: l1), l2. repeat split; [by constructor; [|constructor]|by destruct l2|].
      rewrite E. f_equal. rewrite incr_add, add_add. f_equal. simpl. lia.
Qed.

(** [is_sorted_until] splits the range after its longest ascending prefix. *)
Lemma is_sorted_until_spec (a : list Z) l first :
  view a first l → (length l ≤ length a)%nat →
  ∃ l1 l2, l = l1 ++ l2 ∧ Sorted Z.le l1 ∧ stops l1 l2 ∧
    is_sorted_until Z.ltb a first (add first (Z.of_nat (length l))) = Ok (add first (Z.of_nat (length l1))).
Proof.
  intros V Hl. unfold is_sorted_until. rewrite ne_end. destruct l as [|x l].
  - by exists [], [].
  - rewrite (proj2 (Z.eqb_neq _ 0)) by (simpl; lia). simpl negb. cbv iota.
    destruct (is_sorted_until_loop_spec a l x first (length a) V) as (l1 & l2 & -> & S1 & S2 & E);
      [simpl in Hl; lia|].
    by exists (x :: l1), l2.
Qed.

Lemma Sorted_app_inv (l1 l2 : list Z) : Sorted Z.le (l1 ++ l2) →
  Sorted Z.le l1 ∧ Sorted Z.le l2 ∧ Forall (λ x, Forall (Z.le x) l2) l1.
Proof.
  intros Hs%Sorted_StronglySorted; [|intros ? ? ?; lia].
  induction l1 as [|x l1 IH]; [split; [done|split; [by apply StronglySorted_Sorted|done]]|].
  inversion Hs as [|? ? Hs' HF]; subst. destruct (IH Hs') as (S1 & S2 & F).
  apply Forall_app in HF as [HF1 HF2]. split; [|split; [done|by constructor]].
  constructor; [done|]. destruct l1; constructor. by inversion HF1.
Qed.

Lemma Sorted_split (l1 l2 : list Z) :
  Sorted Z.le l1 → Sorted Z.le l2 → Forall (λ x, Forall (Z.le x) l2) l1 → Sorted Z.le (l1 ++ l2).
Proof.
  intros S1 S2. induction S1 as [|x l1 S1 IH Hh]; intros F; [done|].
  inversion F as [|? ? Fx Fl]; subst. simpl. constructor; [by apply IH|].
  destruct l1; simpl.
  - destruct l2; constructor. by inversion Fx.
  - constructor. by inversion Hh.
Qed.

(** The binary search of [upper_bound] finds where the elements become greater. *)
Lemma upper_bound_loop_spec (a : list Z) v fuel : ∀ l first,
  view a first l → Sorted Z.le l → (length l < fuel)%nat →
  ∃ l1 l2, l = l1 ++ l2 ∧ Forall (λ x, x ≤ v) l1 ∧ Forall (Z.lt v) l2 ∧
    upper_bound_loop fuel Z.ltb a v first (Z.of_nat (length l)) = Ok (add first (Z.of_nat (length l1))).
Proof.
  induction fuel as [|fuel IH]; intros l first V Hs Hf; [lia|]. cbn [upper_bound_loop].
  destruct (Z.ltb_spec 0 (Z.of_nat (length l))) as [Hpos|Hz]; cycle 1.
  { destruct l; [|simpl in Hz; lia]. exists [], []. simpl. by rewrite add_0. }
  set (n := (length l / 2)%nat).
  assert (Z.quot (Z.of_nat (length l)) 2 = Z.of_nat n) as ->
    by (rewrite Z.quot_div_nonneg by lia; unfold n; by rewrite Nat2Z.inj_div).
  assert (n < length l)%nat as Hn by (apply Nat.div_lt; lia).
  destruct (lookup_lt_is_Some_2 l n Hn) as [y Hy].
  rewrite <- (take_drop_middle l n y Hy) in V, Hs.
  assert (length (take n l) = n) as Ln by (rewrite length_take; lia).
  destruct (view_app _ _ _ _ V) as [V1 V2]. rewrite Ln in V2.
  destruct (Sorted_app_inv _ _ Hs) as (Hs1 & Hs2 & HF). apply view_cons in V2 as [Ey V2].
  unfold advance, do_advance_random_access. rewrite Ey. cbn [mbind result_bind].
  destruct (Z.ltb_spec v y) as [Hlt|Hge]; cbn [negb].
  - destruct (IH (take n l) first V1 Hs1 ltac:(lia)) as (l1 & l2 & E & F1 & F2 & R).
    rewrite Ln in R. exists l1, (l2 ++ y :: drop (S n) l).
    split; [by rewrite app_assoc, <- E, take_drop_middle|]. split; [done|]. split; [|done].
    apply Forall_app. split; [done|]. constructor; [done|].
    apply Sorted_StronglySorted in Hs2; [|intros ? ? ?; lia].
    inversion Hs2 as [|? ? _ HFy]; subst. eapply Forall_impl; [exact HFy|]. simpl. lia.
  - inversion Hs2 as [|? ? Hs2' _]; subst.
    destruct (IH (drop (S n) l) (incr (add first (Z.of_nat n))) V2 Hs2') as (l1 & l2 & E & F1 & F2 & R);
      [rewrite length_drop; lia|].
    exists (take n l ++ y :: l1), l2.
    split; [rewrite <- app_assoc; simpl; by rewrite <- E, take_drop_middle|]. split; [|split; [done|]].
    + apply Forall_app. split; [|by constructor].
      eapply Forall_impl; [exact HF|]. intros x Hx. inversion Hx; subst. lia.
    + replace (Z.of_nat (length l) - (Z.of_nat n + 1)) with (Z.of_nat (length (drop (S n) l)))
        by (rewrite length_drop; lia).
      rewrite R. f_equal. rewrite incr_add, !add_add. f_equal. rewrite length_app, Ln. simpl. lia.
Qed.

Lemma upper_bound_spec (a : list Z) v l first :
  view a first l → Sorted Z.le l →
  ∃ l1 l2, l = l1 ++ l2 ∧ Forall (λ x, x ≤ v) l1 ∧ Forall (Z.lt v) l2 ∧
    upper_bound Z.ltb a first (add first (Z.of_nat (length l))) v = Ok (add first (Z.of_nat (length l1))).
Proof.
  intros V Hs. unfold upper_bound, distance, do_distance_random_access. rewrite sub_add.
  apply upper_bound_loop_spec; [done|done|lia].
Qed.

End sorted.

(** ** Ranges of an array *)

(** The array [pre ++ xs ++ post] seen through pointers, and in reverse. *)
Lemma view_pointer {T} (pre xs post : list T) :
  view (pre ++ xs ++ post) (Z.of_nat (length pre)) xs.
Proof.
  intros k x Hk. apply aread_Ok. simpl. rewrite nthZ_lookup by lia.
  replace (Z.to_nat _) with (length pre + k)%nat by lia.
  rewrite lookup_app_r by lia. replace (length pre + k - length pre)%nat with k by lia.
  by apply lookup_app_l_Some.
Qed.

Lemma view_reverse {T} (pre xs post : list T) :
  view (pre ++ xs ++ post) (make_reverse_iterator (Z.of_nat (length pre + length xs))) (reverse xs).
Proof.
  intros k x Hk. pose proof (lookup_lt_Some _ _ _ Hk) as Hl. rewrite length_reverse in Hl.
  rewrite reverse_lookup in Hk by done. apply (view_pointer pre xs post) in Hk. rewrite <- Hk.
  unfold deref. f_equal. simpl. unfold reverse_position, reverse_plus_assign, prev, advance,
    do_advance_random_access. simpl. lia.
Qed.

Lemma lookup_mid {T} (pre post : list T) x : nthZ (pre ++ x :: post) (Z.of_nat (length pre)) = Some x.
Proof. rewrite nthZ_lookup by lia. rewrite Nat2Z.id. by apply list_lookup_middle. Qed.

Lemma iter_swap_pointers (pre mid post : list Z) x y i j :
  i = Z.of_nat (length pre) → j = Z.of_nat (length pre + S (length mid)) →
  iter_swap (pre ++ x :: mid ++ y :: post) i j = Ok (pre ++ y :: mid ++ x :: post).
Proof.
  intros -> ->. unfold iter_swap. simpl position.
  assert (pre ++ x :: mid ++ y :: post = (pre ++ x :: mid) ++ y :: post) as E by (by rewrite <- app_assoc).
  assert (Z.of_nat (length pre + S (length mid)) = Z.of_nat (length (pre ++ x :: mid))) as Ej
    by (rewrite length_app; simpl; lia).
  assert (Z.of_nat (length pre + S (length mid)) = Z.of_nat (length (pre ++ y :: mid))) as Ej'
    by (rewrite length_app; simpl; lia).
  rewrite (proj2 (aread_Ok _ _ _) (lookup_mid pre (mid ++ y :: post) x)). cbn [mbind result_bind].
  rewrite E at 1. rewrite Ej. rewrite (proj2 (aread_Ok _ _ _) (lookup_mid (pre ++ x :: mid) post y)).
  cbn [mbind result_bind]. unfold awrite at 2. rewrite lookup_mid. rewrite Nat2Z.id.
  rewrite insert_app_r_alt by lia. rewrite Nat.sub_diag. simpl.
  rewrite <- Ej, Ej'. replace (pre ++ y :: mid ++ y :: post) with ((pre ++ y :: mid) ++ y :: post)
    by (by rewrite <- app_assoc).
  unfold awrite. rewrite lookup_mid, Nat2Z.id, insert_app_r_alt by lia.
  rewrite Nat.sub_diag. simpl. by rewrite <- app_assoc.
Qed.

(** A list of at least two elements, its ends apart. *)
Lemma ends_case {T} (xs : list T) : xs = [] ∨ (∃ x, xs = [x]) ∨ ∃ x mid y, xs = x :: mid ++ [y].
Proof.
  destruct xs as [|x xs]; [by left|]. right.
  destruct xs as [|y mid _] using rev_ind; [left; by exists x|right; by exists x, mid, y].
Qed.

Lemma reverse_ends {T} (x y : T) mid : reverse (x :: mid ++ [y]) = y :: reverse mid ++ [x].
Proof. by rewrite reverse_cons, reverse_snoc. Qed.

Lemma reverse_loop_spec fuel : ∀ pre xs post : list Z, (length xs < fuel)%nat →
  reverse_loop fuel (pre ++ xs ++ post) (Z.of_nat (length pre)) (Z.of_nat (length pre + length xs) - 1)
    = Ok (pre ++ reverse xs ++ post).
Proof.
  induction fuel as [|fuel IH]; intros pre xs post Hf; [lia|]. cbn [reverse_loop].
  destruct (ends_case xs) as [->|[[x ->]|(x & mid & y & ->)]].
  - simpl. by rewrite (proj2 (Z.ltb_ge _ _)) by lia.
  - simpl. by rewrite (proj2 (Z.ltb_ge _ _)) by lia.
  - simpl in Hf |- *. rewrite length_app in Hf |- *. simpl in Hf |- *.
    rewrite (proj2 (Z.ltb_lt _ _)) by lia. rewrite <- app_assoc. simpl.
    rewrite iter_swap_pointers by lia. cbn [mbind result_bind].
    specialize (IH (pre ++ [y]) mid (x :: post) ltac:(lia)).
    rewrite length_app, <- !app_assoc in IH. simpl in IH.
    replace (Z.of_nat (length pre) + 1) with (Z.of_nat (length pre + 1)) by lia.
    replace (Z.of_nat (length pre + S (length mid + 1)) - 1 - 1) with (Z.of_nat (length pre + 1 + length mid) - 1) by lia.
    rewrite IH, reverse_ends. simpl. by rewrite <- app_assoc.
Qed.

Lemma reverse_random_access_spec (pre xs post : list Z) :
  reverse_random_access (pre ++ xs ++ post) (Z.of_nat (length pre)) (Z.of_nat (length pre + length xs))
    = Ok (pre ++ reverse xs ++ post).
Proof.
  unfold reverse_random_access. simpl ne.
  destruct (Z.eqb_spec (Z.of_nat (length pre)) (Z.of_nat (length pre + length xs))) as [E|E]; simpl.
  - destruct xs; [done|simpl in E; lia].
  - apply (reverse_loop_spec (S _) pre xs post). rewrite !length_app. lia.
Qed.

(** The loop for the other categories gives the same. *)
Lemma reverse_bidirectional_spec fuel : ∀ pre xs post : list Z, (length xs < fuel)%nat →
  reverse_bidirectional fuel (pre ++ xs ++ post) (Z.of_nat (length pre)) (Z.of_nat (length pre + length xs))
    = Ok (pre ++ reverse xs ++ post).
Proof.
  induction fuel as [|fuel IH]; intros pre xs post Hf; [lia|]. cbn [reverse_bidirectional].
  destruct (ends_case xs) as [->|[[x ->]|(x & mid & y & ->)]].
  - simpl. by rewrite (proj2 (Z.eqb_eq _ _)) by lia.
  - simpl. rewrite (proj2 (Z.eqb_neq _ _)) by lia. by rewrite (proj2 (Z.eqb_eq _ _)) by lia.
  - simpl in Hf |- *. rewrite length_app in Hf |- *. simpl in Hf |- *.
    rewrite !(proj2 (Z.eqb_neq _ _)) by lia. simpl. rewrite <- app_assoc. simpl.
    rewrite iter_swap_pointers by lia. cbn [mbind result_bind].
    specialize (IH (pre ++ [y]) mid (x :: post) ltac:(lia)).
    rewrite length_app, <- !app_assoc in IH. simpl in IH.
    replace (Z.of_nat (length pre) + 1) with (Z.of_nat (length pre + 1)) by lia.
    replace (Z.of_nat (length pre + S (length mid + 1)) - 1) with (Z.of_nat (length pre + 1 + length mid)) by lia.
    rewrite IH, reverse_ends. simpl. by rewrite <- app_assoc.
Qed.

Lemma reverse_categories_agree (pre xs post : list Z) :
  let a := pre ++ xs ++ post in
  let f := Z.of_nat (length pre) in let l := Z.of_nat (length pre + length xs) in
  reverse_bidirectional (S (length a)) a f l = reverse_random_access a f l.
Proof.
  cbv zeta. rewrite reverse_random_access_spec. apply reverse_bidirectional_spec.
  rewrite !length_app. lia.
Qed.

(** ** The order of permutations *)

(** The dictionary order of lists. *)
Fixpoint lex (xs ys : list Z) : Prop :=
  match xs, ys with
  | x :: xs, y :: ys => x < y ∨ x = y ∧ lex xs ys
  | _, _ => False
  end.

Lemma lex_app p xs ys : lex (p ++ xs) (p ++ ys) ↔ lex xs ys.
Proof. induction p as [|x p IH]; simpl; [done|]. rewrite IH. split; [intros [?|[_ ?]]; [lia|done]|by right]. Qed.

Lemma lex_irrefl xs : ~ lex xs xs.
Proof. induction xs as [|x xs IH]; simpl; [tauto|]. intros [?|[_ ?]]; [lia|tauto]. Qed.

Lemma lex_trans xs ys zs : lex xs ys → lex ys zs → lex xs zs.
Proof.
  revert ys zs. induction xs as [|x xs IH]; intros [|y ys] [|z zs]; simpl; try done.
  intros [?|[-> ?]] [?|[-> ?]]; [left; lia|by left|by left|]. right. split; [done|]. by eapply IH.
Qed.

(** An ascending list is the first of its permutations, a descending one the last. *)
Lemma ascending_first xs : Sorted Z.le xs → ∀ zs, zs ≡ₚ xs → zs = xs ∨ lex xs zs.
Proof.
  intros Hs%Sorted_StronglySorted; [|intros ? ? ?; lia].
  induction Hs as [|x xs Hs IH HF]; intros zs Hp; [left; by apply Permutation_nil_r|].
  destruct zs as [|z zs]; [by apply Permutation_nil_cons in Hp|].
  assert (z ∈ x :: xs) as Hz by (rewrite <- Hp; left).
  apply elem_of_cons in Hz as [->|Hz].
  - apply Permutation_cons_inv in Hp. destruct (IH zs Hp) as [->|?]; [by left|right]. simpl. by right.
  - rewrite Forall_forall in HF. specialize (HF z Hz). destruct (decide (x = z)) as [<-|Hne].
    + apply Permutation_cons_inv in Hp. destruct (IH zs Hp) as [->|?]; [by left|right]. simpl. by right.
    + right. simpl. left. lia.
Qed.

Lemma descending_last xs : Sorted Z.le (reverse xs) → ∀ zs, zs ≡ₚ xs → ~ lex xs zs.
Proof.
  induction xs as [|x xs IH]; intros Hs zs Hp Hl; [done|].
  destruct zs as [|z zs]; [done|]. rewrite reverse_cons in Hs.
  destruct (Sorted_app_inv _ _ Hs) as (Hs1 & _ & HF).
  assert (z ≤ x) as Hz.
  { assert (z ∈ x :: xs) as Hz by (rewrite <- Hp; left). apply elem_of_cons in Hz as [->|Hz]; [done|].
    rewrite Forall_forall in HF. specialize (HF z). rewrite elem_of_reverse in HF. specialize (HF Hz).
    by inversion HF. }
  simpl in Hl. destruct Hl as [?|[<- Hl]]; [lia|]. apply Permutation_cons_inv in Hp. by apply (IH Hs1 zs).
Qed.

(** [ys] is the permutation after [xs]. *)
Definition next_after (xs ys : list Z) : Prop :=
  ys ≡ₚ xs ∧ lex xs ys ∧ ∀ zs, zs ≡ₚ xs → lex xs zs → zs = ys ∨ lex ys zs.

Lemma next_after_app p xs ys : next_after xs ys → next_after (p ++ xs) (p ++ ys).
Proof.
  intros (Hp & Hl & Hm). split; [by rewrite Hp|]. split; [by apply lex_app|].
  intros zs Hz Lz. assert ((∃ zs', zs = p ++ zs') ∨ (∀ ws, length ws = length xs → lex (p ++ ws) zs)) as C.
  { clear Hp Hl Hm Hz. revert zs Lz. induction p as [|x p IH]; intros zs Lz; [left; by exists zs|].
    destruct zs as [|z zs]; [done|]. simpl in Lz. destruct Lz as [Lz|[<- Lz]].
    - right. intros ws _. simpl. by left.
    - destruct (IH zs Lz) as [[zs' ->]|R]; [left; by exists zs'|]. right. intros ws Hw. simpl.
      right. split; [done|]. by apply R. }
  destruct C as [[zs' ->]|R].
  - apply (Permutation_app_inv_l p) in Hz. apply lex_app in Lz.
    destruct (Hm zs' Hz Lz) as [->|?]; [by left|right; by apply lex_app].
  - right. apply R. by rewrite Hp.
Qed.

(** The step: [x] is followed by a descending list; the last element of it that is greater
    than [x] takes its place, and the rest follows ascending. *)
Lemma next_after_step x q1 y q2 :
  Sorted Z.le (reverse (q1 ++ y :: q2)) → x < y → Forall (λ z, z ≤ x) q2 →
  next_after (x :: q1 ++ y :: q2) (y :: reverse (q1 ++ x :: q2)).
Proof.
  intros Hs Hxy Hq2. rewrite reverse_app, reverse_cons, <- app_assoc in Hs. simpl in Hs.
  destruct (Sorted_app_inv _ _ Hs) as (S2 & S1 & F). destruct (Sorted_app_inv [y] _ S1) as (_ & S1' & Fy).
  inversion Fy as [|? ? Fy' _]; subst.
  assert (Sorted Z.le (reverse (q1 ++ x :: q2))) as Sr.
  { rewrite reverse_app, reverse_cons, <- app_assoc. simpl. apply Sorted_split; [done| |].
    - apply (Sorted_split [x]); [by repeat constructor|done|]. constructor; [|done].
      eapply Forall_impl; [exact Fy'|]. simpl. lia.
    - rewrite Forall_forall in F |- *. intros z Hz. specialize (F z Hz). inversion F; subst.
      constructor; [|done]. rewrite Forall_forall in Hq2. apply Hq2. by rewrite <- elem_of_reverse. }
  assert (y :: reverse (q1 ++ x :: q2) ≡ₚ x :: q1 ++ y :: q2) as Pm.
  { rewrite reverse_Permutation. rewrite <- !Permutation_middle. apply Permutation_swap. }
  split; [done|]. split; [by left|]. intros [|z zs] Hz Lz; [done|]. simpl in Lz.
  destruct Lz as [Lz|[<- Lz]].
  - assert (z = y ∨ y < z) as [->|Hlt].
    { assert (z ∈ x :: q1 ++ y :: q2) as Hin by (rewrite <- Hz; left).
      rewrite elem_of_cons, elem_of_app, elem_of_cons in Hin. destruct Hin as [->|[Hin|[->|Hin]]].
      - lia. - rewrite Forall_forall in Fy'. specialize (Fy' z). rewrite elem_of_reverse in Fy'.
        specialize (Fy' Hin). lia. - by left. - rewrite Forall_forall in Hq2. specialize (Hq2 z Hin). lia. }
    + assert (zs ≡ₚ reverse (q1 ++ x :: q2)) as Pz.
      { apply (Permutation_cons_inv (a := y)). by rewrite Hz, Pm. }
      destruct (ascending_first _ Sr zs Pz) as [->|?]; [by left|right]. simpl. by right.
    + right. simpl. by left.
  - exfalso. apply Permutation_cons_inv in Hz. revert Lz. apply descending_last; [|done].
    by rewrite reverse_app, reverse_cons, <- app_assoc.
Qed.

(** What remains of [next_permutation] once the descending end of the range is known. *)
Lemma next_permutation_false (pre xs post : list Z) l :
  is_sorted_until Z.ltb (pre ++ xs ++ post) (make_reverse_iterator (Z.of_nat (length pre + length xs)))
    (make_reverse_iterator (Z.of_nat (length pre))) = Ok (MkReverse l) →
  l = Z.of_nat (length pre) →
  next_permutation Z.ltb (pre ++ xs ++ post) (Z.of_nat (length pre)) (Z.of_nat (length pre + length xs))
    = Ok (false, pre ++ reverse xs ++ post).
Proof.
  intros E ->. unfold next_permutation. rewrite E. cbn [mbind result_bind].
  assert (ne (MkReverse (Z.of_nat (length pre))) (make_reverse_iterator (Z.of_nat (length pre))) = false) as ->
    by (by apply ne_false).
  cbn [mbind result_bind base itr]. by rewrite reverse_random_access_spec.
Qed.

Lemma next_permutation_true (pre p q1 q2 post : list Z) x y xs :
  xs = p ++ x :: q1 ++ y :: q2 →
  let a := pre ++ xs ++ post in
  let l := Z.of_nat (length pre + length p) + 1 in
  let r_first := make_reverse_iterator (Z.of_nat (length pre + length xs)) in
  is_sorted_until Z.ltb a r_first (make_reverse_iterator (Z.of_nat (length pre))) = Ok (MkReverse l) →
  upper_bound Z.ltb a r_first (MkReverse l) x = Ok (MkReverse (l + Z.of_nat (length q1) + 1)) →
  next_permutation Z.ltb a (Z.of_nat (length pre)) (Z.of_nat (length pre + length xs))
    = Ok (true, pre ++ (p ++ y :: reverse (q1 ++ x :: q2)) ++ post).
Proof.
  intros Exs a l r_first E1 E2. unfold next_permutation. fold r_first. rewrite E1. cbn [mbind result_bind].
  assert (ne (MkReverse l) (make_reverse_iterator (Z.of_nat (length pre))) = true) as ->.
  { simpl. unfold reverse_ne. simpl. apply negb_true_iff, Z.eqb_neq. unfold l. lia. }
  assert (a = (pre ++ p) ++ x :: q1 ++ y :: q2 ++ post) as Ea
    by (unfold a; rewrite Exs, <- !app_assoc; simpl; by rewrite <- app_assoc).
  assert (deref a (MkReverse l) = Ok x) as ->.
  { apply aread_Ok. rewrite Ea. simpl. unfold reverse_position, prev, advance, do_advance_random_access.
    simpl. replace (l + - (1)) with (Z.of_nat (length (pre ++ p))) by (rewrite length_app; unfold l; lia).
    apply lookup_mid. }
  cbn [mbind result_bind]. rewrite E2. cbn [mbind result_bind].
  assert (iter_swap a (MkReverse l) (MkReverse (l + Z.of_nat (length q1) + 1)) =
          Ok ((pre ++ p) ++ y :: q1 ++ x :: q2 ++ post)) as ->.
  { rewrite Ea. change (iter_swap ((pre ++ p) ++ x :: q1 ++ y :: q2 ++ post) (l + -1) (l + Z.of_nat (length q1) + 1 + -1) =
      Ok ((pre ++ p) ++ y :: q1 ++ x :: q2 ++ post)).
    apply iter_swap_pointers; rewrite length_app; unfold l; lia. }
  cbn [mbind result_bind base itr].
  pose proof (reverse_random_access_spec ((pre ++ p) ++ [y]) (q1 ++ x :: q2) post) as R.
  rewrite <- !app_assoc in R. simpl in R. rewrite <- app_assoc. simpl.
  replace l with (Z.of_nat (length (pre ++ p ++ [y]))) by (rewrite !length_app; simpl; unfold l; lia).
  replace (Z.of_nat (length pre + length xs)) with (Z.of_nat (length (pre ++ p ++ [y]) + length (q1 ++ x :: q2)))
    by (rewrite Exs; rewrite !length_app; simpl; rewrite !length_app; simpl; lia).
  rewrite R. cbn [mbind result_bind]. by rewrite <- !app_assoc.
Qed.

(** Where the descending end of a list starts, and the element that is put before it. *)
Lemma pivot_split l1 x m1 m2 :
  stops l1 (x :: m2) → Forall (λ z, z ≤ x) m1 → l1 = m1 → False.
Proof.
  intros (z & Hz & Hlt) F ->. rewrite Forall_forall in F.
  assert (z ≤ x); [|lia]. apply F. by apply last_Some_elem_of.
Qed.

(** C38: [next_permutation] of a part of an array changes just that part.  It becomes the next
    of its permutations in dictionary order, and the result is true; or, if the part was the
    last of its permutations, it becomes the first, ascending one, and the result is false. *)
Theorem next_permutation_is_next (pre xs post : list Z) :
  ∃ b ys, next_permutation Z.ltb (pre ++ xs ++ post) (Z.of_nat (length pre)) (Z.of_nat (length pre + length xs))
            = Ok (b, pre ++ ys ++ post) ∧
  if b then next_after xs ys
  else ys ≡ₚ xs ∧ (∀ zs, zs ≡ₚ xs → ~ lex xs zs) ∧ (∀ zs, zs ≡ₚ xs → zs = ys ∨ lex ys zs).
Proof.
  set (a := pre ++ xs ++ post). set (r_first := make_reverse_iterator (Z.of_nat (length pre + length xs))).
  pose proof (view_reverse pre xs post) as V. fold a r_first in V.
  destruct (is_sorted_until_spec a (reverse xs) r_first V) as (l1 & l2 & El & S1 & S2 & E);
    [rewrite length_reverse; unfold a; rewrite !length_app; lia|].
  assert (add r_first (Z.of_nat (length (reverse xs))) = make_reverse_iterator (Z.of_nat (length pre))) as Er.
  { simpl. unfold reverse_plus_assign. simpl. rewrite length_reverse. unfold make_reverse_iterator. f_equal. lia. }
  rewrite Er in E. destruct l2 as [|x l2].
  - rewrite app_nil_r in El. exists false, (reverse xs). split.
    + eapply next_permutation_false; [exact E|]. simpl. rewrite <- El, length_reverse. lia.
    + rewrite <- El in S1. rewrite reverse_Permutation. split; [done|].
      split; [by apply descending_last|]. intros zs Hz. apply ascending_first; [done|].
      by rewrite reverse_Permutation.
  - rewrite El in V. destruct (view_app _ _ _ _ V) as [V1 _].
    destruct (upper_bound_spec a x l1 r_first V1 S1) as (m1 & m2 & Em & F1 & F2 & U).
    destruct m2 as [|y m2]; [rewrite app_nil_r in Em; by destruct (pivot_split l1 x m1 l2)|].
    assert (xs = reverse l2 ++ x :: reverse m2 ++ y :: reverse m1) as Exs.
    { rewrite <- (reverse_involutive xs), El, Em, !reverse_app, !reverse_cons, <- !app_assoc. done. }
    assert (length xs = length l2 + length l1 + 1)%nat as Ll
      by (rewrite <- (length_reverse xs), El, length_app; simpl; lia).
    assert (length l1 = length m1 + length m2 + 1)%nat as Lm by (rewrite Em, length_app; simpl; lia).
    exists true, (reverse l2 ++ y :: reverse (reverse m2 ++ x :: reverse m1)). split.
    + apply (next_permutation_true pre (reverse l2) (reverse m2) (reverse m1) post x y xs Exs).
      * etransitivity; [exact E|]. simpl. unfold reverse_plus_assign. do 2 f_equal. simpl. rewrite length_reverse. lia.
      * replace (MkReverse (Z.of_nat (length pre + length (reverse l2)) + 1))
          with (add r_first (Z.of_nat (length l1)))
          by (simpl; unfold reverse_plus_assign; f_equal; simpl; rewrite length_reverse; lia).
        etransitivity; [exact U|]. simpl. unfold reverse_plus_assign. do 2 f_equal. simpl. rewrite !length_reverse. lia.
    + rewrite Exs. apply next_after_app, next_after_step.
      * rewrite reverse_app, reverse_cons, !reverse_involutive, <- app_assoc. simpl. by rewrite <- Em.
      * by inversion F2.
      * rewrite Forall_forall in F1 |- *. intros z Hz. apply F1. by rewrite <- elem_of_reverse.
Qed.

End Algorithm.
