(* ===== verification/MallocTests.v ===== *)
(** The allocator's own tests, which the kernel runs at every start: libc/tests/malloc.cpp, on the
    framework of libc/include/libc/tests/test.h.

    The tests work on the heap of Malloc.v, and walk through the permutations of a list of
    sizes with [next_permutation] of Algorithm.v.  What is printed is left out; a failed check
    ends in [abort()]. *)
From S2P Require Import Prelude KernelH Malloc Algorithm.
Import Algorithm.Algorithm Malloc.Malloc.

Module MallocTests.

(** * The framework *)
Definition AssertEq (found expected : Z) : M heap unit :=
  if negb (found =? expected) then fail Aborted else mret tt.

Definition AssertNe (found expected : Z) : M heap unit :=
  if found =? expected then fail Aborted else mret tt.

(** [starting_avail_mem_] *)
Definition Setup : M heap Z := GetAvailMemory.

Definition Teardown (starting_avail_mem_ : Z) : M heap unit :=
  avail ← GetAvailMemory; AssertEq starting_avail_mem_ avail.

Definition Run (func : M heap unit) : M heap unit :=
  starting_avail_mem_ ← Setup;
  func;;
  Teardown starting_avail_mem_.

(** * The tests *)
Definition kTestSizeMax : nat := 1000.
Definition kAlignBitsMax : nat := 21.

(** The inner loop: [n] shifts from [shift] on. *)
Fixpoint align_loop (avail size : Z) (shift : Z) (n : nat) : M heap unit :=
  match n with
  | O => mret tt
  | S n =>
      ptr ← malloc size (u32 (Z.shiftl 1 shift));
      AssertNe ptr 0;;
      free ptr;;
      a ← GetAvailMemory; AssertEq avail a;;
      align_loop avail size (shift + 1) n
  end.

Fixpoint size_loop (avail size : Z) (n : nat) : M heap unit :=
  match n with
  | O => mret tt
  | S n => align_loop avail size 0 kAlignBitsMax;; size_loop avail (size + 1) n
  end.

Definition TestBasicMalloc : M heap unit :=
  avail ← GetAvailMemory;
  size_loop avail 1 kTestSizeMax.

Definition kNumSizes : nat := 7.
Definition sizes : list Z := [1; 10; 100; 1000; 10000; 100000; 1000000].

(** One allocation of each size, in their order. *)
Fixpoint alloc_all (sizes : list Z) : M heap (list Z) :=
  match sizes with
  | [] => mret []
  | s :: sizes => p ← malloc_default s; AssertNe p 0;; ps ← alloc_all sizes; mret (p :: ps)
  end.

Fixpoint free_all (ptrs : list Z) : M heap unit :=
  match ptrs with [] => mret tt | p :: ptrs => free p;; free_all ptrs end.

(** The loop ends after the last permutation of the elements before [end], which is
    [&sizes[kNumSizes - 1]]. *)
Fixpoint permutation_loop (fuel : nat) (avail : Z) (sizes : list Z) : M heap unit :=
  match fuel with
  | O => fail NoFuel
  | S fuel =>
      ptrs ← alloc_all sizes;
      free_all ptrs;;
      a ← GetAvailMemory; AssertEq avail a;;
      r ← liftR (next_permutation Z.ltb sizes 0 (Z.of_nat kNumSizes - 1));
      if r.1 : bool then permutation_loop fuel avail r.2 else mret tt
  end.

(** There are at most 6! rounds. *)
Definition TestMultipleMallocs : M heap unit :=
  avail ← GetAvailMemory;
  permutation_loop 720 avail sizes.

Definition RunAllMallocTests : M heap unit := Run TestBasicMalloc;; Run TestMultipleMallocs.

(** * Lemmas *)

(** ** A heap whose allocations are one behind the other *)

(** A heap of one region: used blocks, then one free block of [f] bytes. *)
Definition front (b : Z) (us : list block) (f : Z) : list region := [mkRegion b (us ++ [(f, false)])].

Definition all_used (us : list block) : Prop := Forall (λ x, x.2 = true) us.

Lemma new_region_front b n : [new_region b n] = front b [] (n - kHeader - kAllocOffset).
Proof. done. Qed.

Lemma live_nil_free a bs : live (headers_at a bs) = [] → free_run bs.
Proof.
  revert a. induction bs as [|[sz u] bs IH]; intros a Hl; [constructor|].
  destruct u; [discriminate Hl|]. constructor; [done|]. exact (IH _ Hl).
Qed.

Lemma one_free_block bs :
  free_run bs → no_adjacent_free bs = true → bs ≠ [] → ∃ sz, bs = [(sz, false)].
Proof.
  intros Hf Hn Hne. destruct Hf as [|[sz u] bs Hu Hf]; [done|]. simpl in Hu. subst u.
  destruct Hf as [|[sz' u'] bs Hu' Hf]; [by exists sz|]. simpl in Hu'. by subst u'.
Qed.

(** The allocations among blocks from address [a] on are behind it. *)
Lemma live_above bs : ∀ a p n, Forall block_ok bs → (p, n) ∈ live (headers_at a bs) → a + kHeader ≤ p.
Proof.
  induction bs as [|[sz u] bs IH]; intros a p n Hok Hin; [by apply elem_of_nil in Hin|].
  apply Forall_cons in Hok as [[Hsz _] Hok]. simpl in Hsz.
  destruct u; simpl in Hin; [apply elem_of_cons in Hin as [Hin|Hin]; [injection Hin as -> _; lia|]|];
    specialize (IH _ _ _ Hok Hin); clia.
Qed.

(** Blocks without adjacent free ones are determined by their allocations and their extent. *)
Lemma front_blocks us f : all_used us → Forall block_ok us → ∀ a bs,
  Forall block_ok bs → no_adjacent_free bs = true → bs ≠ [] → span bs = span (us ++ [(f, false)]) → 0 < f →
  live (headers_at a bs) ≡ₚ live (headers_at a (us ++ [(f, false)])) → bs = us ++ [(f, false)].
Proof.
  intros Hu. induction Hu as [|[k u] us Ek Hu IH]; intros Hus a bs Hok Hna Hne Hsp Hf Hlv.
  - simpl in Hlv. apply Permutation_nil_r, live_nil_free in Hlv.
    destruct (one_free_block bs Hlv Hna Hne) as [sz ->]. simpl in Hsp |- *. do 2 f_equal. lia.
  - simpl in Ek. subst u. apply Forall_cons in Hus as [[Hk _] Hus]. simpl in Hk.
    destruct bs as [|[sz u] bs]; [done|]. apply Forall_cons in Hok as [[Hsz _] Hok]. simpl in Hsz.
    assert (Hin : (a + kHeader, k) ∈ live (headers_at a ((sz, u) :: bs))) by (rewrite Hlv; simpl; by left).
    destruct u; simpl in Hin.
    2:{ pose proof (live_above bs _ _ _ Hok Hin). clia. }
    apply elem_of_cons in Hin as [Hin|Hin]; [injection Hin as <-|pose proof (live_above bs _ _ _ Hok Hin); clia].
    simpl in Hlv. apply Permutation_cons_inv in Hlv. cbn [app]. f_equal.
    apply (IH Hus (a + (kHeader + k))); [done| | |simpl in Hsp; lia|done|done].
    + by destruct bs as [|[] ?].
    + intros ->. simpl in Hsp. assert (0 ≤ span us) by (clear -Hus; induction Hus as [|[] ? [? _]]; simpl in *; clia).
      assert (span (us ++ [(f, false)]) = span us + (kHeader + f)) as E by (clear; induction us as [|[] us IH]; simpl; [lia|rewrite IH; lia]).
      rewrite E in Hsp. clia.
Qed.

(** After a merge, a heap of one region that has the allocations it started with is as it was. *)
Lemma front_heap h0 h rs rs0 b us f :
  heap_rep h0 (front b us f) → all_used us →
  heap_rep h rs → rs = merge_regions rs0 → extents rs = extents (front b us f) → live_in rs ≡ₚ live_in (front b us f) →
  rs = front b us f.
Proof.
  intros [_ Hrep0] Hu Hh E0 He Hl. destruct Hrep0 as [(_ & _ & _ & Hok0 & _) _].
  apply Forall_app in Hok0 as [Hus [[Hf _] _]%Forall_cons].
  destruct rs as [|r [|r' rs]]; try done. destruct rs0 as [|r0 rs0]; [done|].
  simpl in E0. injection E0 as Er _. destruct Hh as [_ [(_ & _ & Hne & Hok & _) _]].
  destruct r as [b' bs]. simpl in *. injection He as Eb Ee. subst b'. unfold front. do 2 f_equal.
  unfold live_in in Hl. unfold front in Hl. rewrite !headers_cons, !live_app in Hl.
  change (live (headers [])) with (@nil (Z * Z)) in Hl. rewrite !app_nil_r in Hl.
  apply (front_blocks us f Hu Hus (b + kAllocOffset)); [done| |done| |done|exact Hl].
  - injection Er as _ ->. apply coalesce_no_adjacent.
  - unfold rend, rsize in Ee. simpl in Ee. lia.
Qed.

Lemma malloc_served size align h p h' rs' :
  MallocImpl size align h = Ok (p, h') → 0 < p → heap_rep h' rs' → malloc size align h = Ok (p, h').
Proof.
  intros Hrun Hp Hh'. unfold malloc.
  rewrite (bind_Ok _ _ _ _ _ Hrun), (bind_Ok _ _ _ _ _ (ValidateMalloc_Ok _ _ Hh')), tobool_pos by done. done.
Qed.

(** ** One allocation behind the others *)
Section whole.
  Context (b : Z) (us : list block) (f : Z).
  Hypothesis Hus : all_used us.
  Hypothesis Hf : 1500000 ≤ f.

Lemma front_room size k :
  0 < size ≤ 1000 → 2 ≤ k ≤ 20 → has_room (front b us f) (request size) (2 ^ k).
Proof using Hf.
  intros Hs Hk. exists (focus_addr b us), f. split; [apply (focus_header [] b us f false [] [])|].
  assert (2 ^ k ≤ 2 ^ 20) by (apply Z.pow_le_mono_r; lia). assert (0 < 2 ^ k) by lia.
  set (x := focus_addr b us + 3 * kHeader). exists (x + (- x) mod 2 ^ k).
  pose proof (Z.mod_pos_bound (- x) (2 ^ k) ltac:(lia)). split_and!.
  - rewrite Z.add_mod_idemp_r by lia. replace (x + - x) with 0 by lia. by apply Z.mod_0_l; lia.
  - right. fold x. lia.
  - assert (request size ≤ 1004) by (unfold request; consts; dlia).
    set (m := (- x) mod 2 ^ k) in *. unfold x. clia.
Qed.

Lemma alloc_free_round size shift h :
  heap_rep h (front b us f) → 0 < size ≤ 1000 → 0 ≤ shift ≤ 20 →
  ∃ p h1 h2, malloc size (u32 (Z.shiftl 1 shift)) h = Ok (p, h1) ∧ 0 < p ∧ free p h1 = Ok (tt, h2) ∧
    heap_rep h2 (front b us f).
Proof using Hus Hf.
  intros Hh Hs Hk. rewrite Z.shiftl_1_l.
  assert (2 ^ 0 ≤ 2 ^ shift ≤ 2 ^ 20) by (split; apply Z.pow_le_mono_r; lia).
  rewrite u32_low by lia.
  assert (Hs' : 0 < size ≤ kSizeMax) by (rewrite kSizeMax_eq; lia).
  destruct (align_pow (2 ^ shift)) as (k & Hk2 & Hal & _); [lia|apply IsPowerOf2_pow; lia|].
  assert (Hroom : has_room (front b us f) (request size) (Z.max (2 ^ shift) kMinAlign)).
  { rewrite Hal. apply front_room; [done|]. split; [lia|]. apply (Z.pow_le_mono_r_iff 2); clia. }
  destruct (MallocImpl_Ok h (front b us f) size (2 ^ shift) Hh Hs' ltac:(lia) ltac:(apply IsPowerOf2_pow; lia)) as
    (p & h1 & rs1 & Hrun & Hh1 & _ & Hex & _ & [(_ & Hno & _)|(Hp & _ & _ & m & _ & Hlv)]); [done|].
  destruct (free_live h1 rs1 p m Hh1) as (h2 & rs2 & Hfr & Hh2 & Hex2 & _ & Hlv2 & _ & rs0 & E0); [rewrite Hlv; by left|].
  exists p, h1, h2. split_and!; [by eapply malloc_served|done|done|].
  assert (rs2 = front b us f) as <-; [|done]. apply (front_heap h h2 rs2 rs0); [done|done|done|done|congruence|].
  rewrite Hlv in Hlv2. by apply Permutation_cons_inv in Hlv2.
Qed.

Definition avail : Z := u32 (free_bytes (front b us f)).

Lemma avail_whole h : heap_rep h (front b us f) → GetAvailMemory h = Ok (avail, h).
Proof. apply GetAvailMemory_Ok. Qed.

(** ** The first test *)
Lemma AssertEq_Ok x h : AssertEq x x h = Ok (tt, h).
Proof. unfold AssertEq. by rewrite Z.eqb_refl. Qed.

Lemma AssertNe_Ok p h : 0 < p → AssertNe p 0 h = Ok (tt, h).
Proof. intros Hp. unfold AssertNe. by rewrite (proj2 (Z.eqb_neq p 0)) by lia. Qed.

Lemma align_loop_Ok size m : ∀ shift h,
  heap_rep h (front b us f) → 0 < size ≤ 1000 → 0 ≤ shift → shift + Z.of_nat m ≤ 21 →
  ∃ h', align_loop avail size shift m h = Ok (tt, h') ∧ heap_rep h' (front b us f).
Proof using Hus Hf.
  induction m as [|m IH]; intros shift h Hh Hs Hk Hm; [by exists h|]. cbn [align_loop].
  destruct (alloc_free_round size shift h) as (p & h1 & h2 & Hrun & Hp & Hfr & Hh2); [done|done|lia|].
  rewrite (bind_Ok _ _ _ _ _ Hrun), (bind_Ok _ _ _ _ _ (AssertNe_Ok _ _ Hp)), (bind_Ok _ _ _ _ _ Hfr).
  rewrite (bind_Ok _ _ _ _ _ (avail_whole _ Hh2)), (bind_Ok _ _ _ _ _ (AssertEq_Ok _ _)).
  apply IH; [done|done|lia|lia].
Qed.

Lemma size_loop_Ok m : ∀ size h,
  heap_rep h (front b us f) → 0 < size → size + Z.of_nat m ≤ 1001 →
  ∃ h', size_loop avail size m h = Ok (tt, h') ∧ heap_rep h' (front b us f).
Proof using Hus Hf.
  induction m as [|m IH]; intros size h Hh Hs Hm; [by exists h|]. cbn [size_loop].
  destruct (align_loop_Ok size kAlignBitsMax 0 h) as (h1 & Hrun & Hh1); [done|lia|lia|done|].
  rewrite (bind_Ok _ _ _ _ _ Hrun). apply IH; [done|lia|lia].
Qed.

Lemma TestBasicMalloc_Ok h : heap_rep h (front b us f) →
  ∃ h', TestBasicMalloc h = Ok (tt, h') ∧ heap_rep h' (front b us f).
Proof using Hus Hf.
  intros Hh. unfold TestBasicMalloc. rewrite (bind_Ok _ _ _ _ _ (avail_whole _ Hh)).
  by apply size_loop_Ok.
Qed.

End whole.

(** ** Allocations one behind the other *)

Lemma coalesce_all_used us r : all_used us → coalesce (us ++ r) = us ++ coalesce r.
Proof. induction 1 as [|[sz u] us Hu _ IH]; [done|]. simpl in Hu. subst u. simpl. by rewrite IH. Qed.

Lemma coalesce_free post : free_run post → post ≠ [] → coalesce post = [(span post - kHeader, false)].
Proof.
  intros Hf Hne. destruct Hf as [|[s u] fs Hu Hf]; [done|]. simpl in Hu. subst u.
  rewrite <- (app_nil_r fs). rewrite coalesce_run by done. simpl. rewrite app_nil_r. do 3 f_equal. clia.
Qed.

Lemma live_all_used_skip h rs n k us a :
  heap_rep h rs → all_used us → (∀ x, x ∈ headers_at a us → x ∈ headers rs) →
  Forall (skips (find_callback n (2 ^ k)) (λ arg _, arg) h) (headers_at a us).
Proof.
  intros Hh Hu Hin. apply Forall_forall. intros x Hx.
  assert (x.2 = true) as E.
  { clear -Hu Hx. revert a Hx. induction Hu as [|[sz u] us E _ IH]; intros a Hx; [by apply elem_of_nil in Hx|].
    simpl in Hx. apply elem_of_cons in Hx as [->|Hx]; [done|]. by eapply IH. }
  intros alloc asz arg. unfold find_callback.
  destruct (headers_hdr h rs x Hh (Hin x Hx)) as (Hhdr & _). rewrite E in Hhdr.
  by rewrite (bind_Ok _ _ _ _ _ (isUsed_Ok _ _ _ _ Hhdr)).
Qed.

Lemma front_alloc h b us f size :
  heap_rep h (front b us f) → all_used us → 0 < size ≤ kSizeMax → request size + 2 * kHeader ≤ f →
  ∃ p k h', malloc_default size h = Ok (p, h') ∧ 0 < p ∧ k ≤ request size + kHeader ∧
    heap_rep h' (front b (us ++ [(k, true)]) (f - k - kHeader)) ∧
    live_in (front b (us ++ [(k, true)]) (f - k - kHeader)) ≡ₚ (p, k) :: live_in (front b us f) ∧
    extents (front b (us ++ [(k, true)]) (f - k - kHeader)) = extents (front b us f).
Proof.
  intros Hh Hus Hs Hf. set (n := request size) in *. set (a := focus_addr b us).
  destruct (request_spec size Hs) as (_ & _ & Hn & Hn4). fold n in Hn, Hn4.
  assert (Hx : (a, f, false) ∈ headers (front b us f)) by apply (focus_header [] b us f false [] []).
  pose proof (headers_hdr _ _ _ Hh Hx) as (Hhdr & Ha & Hf0 & Hf4 & Hend). simpl in Hhdr, Ha, Hf0, Hf4, Hend.
  pose proof Hhdr as (_ & Ha4 & _).
  assert (Hpart : ∃ h1, Partition a n (2 ^ 2) h = Ok (a, h1) ∧ partitioned h a f n (2 ^ 2) a h1).
  { pose proof (partition_aligned h a f n 2 Hhdr Ha (conj Hf0 Hf4) Hend
      (headers_mapped _ _ _ Hh Hx) (conj Hn Hn4) ltac:(lia) 1 ltac:(change (2 ^ 2) with 4; consts; dlia)) as H.
    by rewrite (proj2 (Z.ltb_ge f n)) in H by clia. }
  destruct Hpart as (h1 & Hrun1 & Hpart).
  destruct (find_callback_partitioned h [] b us f [] [] n 2 a h1 Hh Hrun1 Hpart) as
    (pre & k & post & m' & Hcb & Hh1 & _ & Hex1 & _ & Ec & [Hk1 Hk2] & Hal & Hsp & Hok & Hl2 & Hlv1).
  apply Forall_app in Hok as [Hok1 [_ Hok2]%Forall_cons].
  assert (pre = []) as -> by (apply span_zero; [done|fold a in Ec; lia]).
  assert (span post = f - k) as Hspost by (simpl in Hsp; lia).
  apply live_nil_free in Hl2.
  assert (post ≠ []) as Hne by (intros ->; simpl in Hspost; clia).
  cbn [app] in Hh1, Hlv1, Hex1.
  set (rs1 := focus [] b us ((k, true) :: post) [] []) in *.
  assert (Em : merge_regions rs1 = front b (us ++ [(k, true)]) (f - k - kHeader)).
  { unfold rs1, focus, front. simpl. rewrite app_nil_r, coalesce_all_used by done. simpl.
    rewrite coalesce_free by done. rewrite Hspost, <- app_assoc. by destruct (last_used _). }
  assert (Hno : negb (SizeFits n) || (free_bytes (front b us f) <? n) = false).
  { pose proof (free_block_bytes _ _ _ _ Hh Hx). unfold SizeFits. apply orb_false_iff. split.
    - apply negb_false_iff, Z.leb_le. clia.
    - apply Z.ltb_ge. clia. }
  destruct (MallocImpl_found h (front b us f) size kMinAlign Hh Hs ltac:(done) 2 a k rs1 m') as
    (h2 & Hrun & Hh2 & _ & Hlv2 & Hex2 & _); try done.
  { apply (iter_stop _ (λ arg _, arg) h [] b us f false [] []); [done|constructor| |done].
    apply (live_all_used_skip h (front b us f)); [done|done|]. intros x Hx'. unfold front.
    rewrite headers_cons. apply elem_of_app. left. unfold rstart. simpl. rewrite headers_at_app.
    apply elem_of_app. by left. }
  { rewrite Hlv1. by left. }
  rewrite Em in Hh2, Hlv2, Hex2. exists (a + kHeader), k, h2. split_and!.
  - by eapply malloc_served; [|clia|].
  - clia.
  - done.
  - done.
  - by rewrite Hlv2.
  - by rewrite Hex2.
Qed.

(** ** A round of the second test *)

(** The bytes that allocations of these sizes take at most, headers included. *)
Definition need (sizes : list Z) : Z := foldr (λ s n, request s + 2 * kHeader + n) 0 sizes.

Definition good_sizes (sizes : list Z) : Prop := Forall (λ s, 0 < s ≤ kSizeMax) sizes.

Lemma need_nonneg sizes : good_sizes sizes → 0 ≤ need sizes.
Proof.
  induction 1 as [|s l Hs _ IH]; simpl; [done|].
  destruct (request_spec s Hs) as (_ & _ & Hr & _). clia.
Qed.

Lemma alloc_all_Ok b l : ∀ us f h,
  heap_rep h (front b us f) → all_used us → good_sizes l → need l ≤ f →
  ∃ L us' f' h', alloc_all l h = Ok (L.*1, h') ∧ length L = length l ∧ heap_rep h' (front b us' f') ∧
    live_in (front b us' f') ≡ₚ L ++ live_in (front b us f) ∧
    extents (front b us' f') = extents (front b us f) ∧ all_used us' ∧ f - need l ≤ f'.
Proof.
  induction l as [|s l IH]; intros us f h Hh Hu Hg Hf; [exists [], us, f, h; split_and!; try done; simpl; lia|].
  apply Forall_cons in Hg as [Hs Hg]. cbn [need foldr] in Hf. fold (need l) in Hf.
  pose proof (need_nonneg l Hg).
  destruct (front_alloc h b us f s Hh Hu Hs) as (p & k & h1 & Hrun & Hp & Hk & Hh1 & Hlv1 & Hex1); [lia|].
  destruct (IH (us ++ [(k, true)]) (f - k - kHeader) h1) as (L & us' & f' & h' & Hrun' & HL & Hh' & Hlv & Hex & Hu' & Hf');
    [done|by apply Forall_app; split; [|constructor]|done|lia|].
  exists ((p, k) :: L), us', f', h'. split_and!; [|by simpl; rewrite HL|done| |congruence|done|cbn [need foldr]; fold (need l); lia].
  - cbn [alloc_all]. rewrite (bind_Ok _ _ _ _ _ Hrun), (bind_Ok _ _ _ _ _ (AssertNe_Ok _ _ Hp)).
    by rewrite (bind_Ok _ _ _ _ _ Hrun').
  - rewrite Hlv, Hlv1. symmetry. apply Permutation_middle.
Qed.

Lemma free_all_Ok L l0 : ∀ h rs, heap_rep h rs → live_in rs ≡ₚ L ++ l0 → L ≠ [] →
  ∃ h' rs' rs0, free_all L.*1 h = Ok (tt, h') ∧ heap_rep h' rs' ∧ extents rs' = extents rs ∧
    live_in rs' ≡ₚ l0 ∧ rs' = merge_regions rs0.
Proof.
  induction L as [|[p k] L IH]; intros h rs Hh Hlv Hne; [done|].
  destruct (free_live h rs p k Hh) as (h1 & rs1 & Hf & Hh1 & Hex & _ & Hlv1 & _ & rs0 & E0); [rewrite Hlv; by left|].
  rewrite Hlv in Hlv1. cbn [app] in Hlv1. apply Permutation_cons_inv in Hlv1. cbn [free_all fmap list_fmap fst].
  rewrite (bind_Ok _ _ _ _ _ Hf). destruct L as [|q L].
  - exists h1, rs1, rs0. split_and!; done.
  - destruct (IH h1 rs1 Hh1) as (h' & rs' & rs0' & Hrun & Hh' & Hex' & Hl & E); [done|done|].
    exists h', rs', rs0'. split_and!; try done. congruence.
Qed.

Section multiple.
  Context (b : Z) (us : list block) (f : Z).
  Hypothesis Hus : all_used us.

Lemma round_Ok l h : heap_rep h (front b us f) → good_sizes l → l ≠ [] → need l ≤ f →
  ∃ ps h1 h2, alloc_all l h = Ok (ps, h1) ∧ free_all ps h1 = Ok (tt, h2) ∧ heap_rep h2 (front b us f).
Proof using Hus.
  intros Hh Hg Hne Hn.
  destruct (alloc_all_Ok b l us f h Hh) as (L & us1 & f1 & h1 & Hrun & HL & Hh1 & Hlv & Hex & _); [done|done|done|].
  destruct (free_all_Ok L _ h1 _ Hh1 Hlv) as (h2 & rs2 & rs0 & Hfr & Hh2 & Hex2 & Hl2 & E0);
    [by intros ->; destruct l|].
  exists L.*1, h1, h2. split_and!; [done|done|].
  assert (rs2 = front b us f) as <-; [|done]. apply (front_heap h h2 rs2 rs0); [done|done|done|done| |done].
  by rewrite Hex2, Hex.
Qed.

(** The arrays that the loop goes through, and whether it ends. *)
Fixpoint visits (fuel : nat) (sizes : list Z) : list (list Z) * bool :=
  match fuel with
  | O => ([], false)
  | S fuel =>
      match next_permutation Z.ltb sizes 0 (Z.of_nat kNumSizes - 1) with
      | Ok (true, l) => let r := visits fuel l in (sizes :: r.1, r.2)
      | Ok (false, _) => ([sizes], true)
      | Fault _ => ([sizes], false)
      end
  end.

Lemma permutation_loop_Ok fuel : ∀ l h, heap_rep h (front b us f) → (visits fuel l).2 = true →
  Forall (λ l, good_sizes l ∧ l ≠ [] ∧ need l ≤ f) (visits fuel l).1 →
  ∃ h', permutation_loop fuel (avail b us f) l h = Ok (tt, h') ∧ heap_rep h' (front b us f).
Proof using Hus.
  induction fuel as [|fuel IH]; intros l h Hh Hend Hall; [done|]. cbn [visits] in Hend, Hall. cbn [permutation_loop].
  assert (Hl : good_sizes l ∧ l ≠ [] ∧ need l ≤ f).
  { destruct (next_permutation Z.ltb l 0 (Z.of_nat kNumSizes - 1)) as [[[] l']|]; by inversion Hall. }
  destruct Hl as (Hg & Hne & Hn). destruct (round_Ok l h Hh Hg Hne Hn) as (ps & h1 & h2 & Hrun & Hfr & Hh2).
  rewrite (bind_Ok _ _ _ _ _ Hrun), (bind_Ok _ _ _ _ _ Hfr).
  rewrite (bind_Ok _ _ _ _ _ (avail_whole _ _ _ _ Hh2)), (bind_Ok _ _ _ _ _ (AssertEq_Ok _ _)).
  unfold mbind at 1, M_bind at 1, liftR.
  destruct (next_permutation Z.ltb l 0 (Z.of_nat kNumSizes - 1)) as [[[] l']|]; [|by exists h2|done].
  cbn [fst snd]. apply IH; [done|done|]. by inversion Hall.
Qed.

(** There are 720 rounds, one per order of the six smaller sizes. *)
Definition good_rounds : bool :=
  let r := visits 720 sizes in
  r.2 && forallb (λ l, forallb (λ s, (0 <? s) && (s <=? kSizeMax)) l &&
                   match l with [] => false | _ => true end && (need l <=? 1200000)) r.1.

Lemma good_rounds_true : good_rounds = true.
Proof. vm_compute. reflexivity. Qed.

Lemma TestMultipleMallocs_Ok h : 1500000 ≤ f → heap_rep h (front b us f) →
  ∃ h', TestMultipleMallocs h = Ok (tt, h') ∧ heap_rep h' (front b us f).
Proof using Hus.
  intros Hn Hh. unfold TestMultipleMallocs. rewrite (bind_Ok _ _ _ _ _ (avail_whole _ _ _ _ Hh)).
  pose proof good_rounds_true as G. unfold good_rounds in G. apply andb_true_iff in G as [Ge Ga].
  apply permutation_loop_Ok; [done|done|]. rewrite forallb_forall in Ga. apply Forall_forall.
  intros l Hl%list_elem_of_In%Ga. rewrite !andb_true_iff in Hl. destruct Hl as ((Hg & Hne) & Hneed%Z.leb_le).
  split_and!; [|by intros ->|lia]. rewrite forallb_forall in Hg. apply Forall_forall.
  intros s Hs%list_elem_of_In%Hg. rewrite andb_true_iff, Z.ltb_lt, Z.leb_le in Hs. done.
Qed.

End multiple.

Section all_tests.
  Context (b : Z) (us : list block) (f : Z).
  Hypothesis Hus : all_used us.
  Hypothesis Hf : 1500000 ≤ f.

Lemma Run_Ok (test : M heap unit) h :
  (∀ h, heap_rep h (front b us f) → ∃ h', test h = Ok (tt, h') ∧ heap_rep h' (front b us f)) →
  heap_rep h (front b us f) → ∃ h', Run test h = Ok (tt, h') ∧ heap_rep h' (front b us f).
Proof.
  intros Ht Hh. destruct (Ht h Hh) as (h' & Hrun & Hh'). exists h'. split; [|done].
  unfold Run, Setup, Teardown. rewrite (bind_Ok _ _ _ _ _ (avail_whole _ _ _ _ Hh)), (bind_Ok _ _ _ _ _ Hrun).
  rewrite (bind_Ok _ _ _ _ _ (avail_whole _ _ _ _ Hh')). apply AssertEq_Ok.
Qed.

(** The tests pass behind any allocations that leave enough room. *)
Lemma RunAllMallocTests_front h : heap_rep h (front b us f) →
  ∃ h', RunAllMallocTests h = Ok (tt, h') ∧ heap_rep h' (front b us f).
Proof using Hus Hf.
  intros Hh. destruct (Run_Ok TestBasicMalloc h) as (h2 & Hb & Hh2);
    [intros; by apply TestBasicMalloc_Ok|done|].
  destruct (Run_Ok TestMultipleMallocs h2) as (h3 & Hm & Hh3);
    [intros; by apply TestMultipleMallocs_Ok|done|].
  exists h3. split; [|done]. unfold RunAllMallocTests. by rewrite (bind_Ok _ _ _ _ _ Hb).
Qed.
End all_tests.

Lemma RunAllMallocTests_Ok b n h : 2 ^ 21 ≤ n → heap_rep h [new_region b n] →
  ∃ h', RunAllMallocTests h = Ok (tt, h') ∧ heap_rep h' [new_region b n].
Proof.
  intros Hn. rewrite new_region_front. apply RunAllMallocTests_front; [constructor|clia].
Qed.

(** A heap in which the tests pass: allocations one behind the other, and a free block of a
    megabyte and a half or more. *)
Definition tests_room (h : heap) : Prop :=
  ∃ b us f, all_used us ∧ 1500000 ≤ f ∧ heap_rep h (front b us f).

Lemma tests_pass h : tests_room h → ∃ h', RunAllMallocTests h = Ok (tt, h') ∧ tests_room h'.
Proof.
  intros (b & us & f & Hu & Hf & Hh). destruct (RunAllMallocTests_front b us f Hu Hf h Hh) as (h' & R & Hh').
  exists h'. split; [done|]. by exists b, us, f.
Qed.

(** What [Initialize] and any allocations that leave the room make. *)
Lemma allocations_leave_room h0 b n ask l :
  gFirstAlloc h0 = 0 → usable (words h0) [] b n → good_sizes l → need l + 1500000 + kHeader + kAllocOffset ≤ n →
  ∃ h1 ps h2, Initialize b n ask h0 = Ok (tt, h1) ∧ alloc_all l h1 = Ok (ps, h2) ∧ tests_room h2.
Proof.
  intros H0 Hus Hg Hn. destruct (heap_Initialize_Ok h0 b n ask H0 Hus) as (h1 & Hrun & Hh1 & _).
  rewrite new_region_front in Hh1. pose proof (need_nonneg l Hg).
  destruct (alloc_all_Ok b l [] _ h1 Hh1) as (L & us & f & h2 & Ha & _ & Hh2 & _ & _ & Hu & Hf); [constructor|done|lia|].
  exists h1, L.*1, h2. split; [done|]. split; [done|]. exists b, us, f. split; [done|]. split; [lia|done].
Qed.

(** * Properties *)

(** C16: on a heap that [Initialize] has set up with 2MB or more, all tests of the allocator
    pass: each of the 21000 pairs of a size and an alignment, and each of the 720 rounds of
    seven allocations, is served without asking for more memory, and freeing them gives all
    memory back: the heap is one free block again, as it was set up. *)
Theorem malloc_tests_pass h0 b n ask :
  gFirstAlloc h0 = 0 → usable (words h0) [] b n → 2 ^ 21 ≤ n →
  ∃ h1 h2, Initialize b n ask h0 = Ok (tt, h1) ∧ RunAllMallocTests h1 = Ok (tt, h2) ∧
    heap_rep h1 [new_region b n] ∧ heap_rep h2 [new_region b n].
Proof.
  intros H0 Hus Hn. destruct (heap_Initialize_Ok h0 b n ask H0 Hus) as (h1 & Hrun & Hh1 & _).
  destruct (RunAllMallocTests_Ok b n h1 Hn Hh1) as (h2 & Ht & Hh2). by exists h1, h2.
Qed.

(** The kernel's heap: one page of 4MB. *)
Definition kernel_page : heap := mkHeap 0 None (zeroes 0x400000 (2 ^ 20)).

Lemma kernel_page_usable : usable (words kernel_page) [] 0x400000 (2 ^ 22).
Proof.
  split; [lia|]. split; [reflexivity|]. split; [reflexivity|]. split; [clia|]. split; [clia|].
  split; [|constructor]. exact (zeroes_mapped 0x400000 (2 ^ 20) eq_refl).
Qed.

Lemma malloc_tests_pass_witness :
  ∃ h1 h2, Initialize 0x400000 (2 ^ 22) None kernel_page = Ok (tt, h1) ∧ RunAllMallocTests h1 = Ok (tt, h2).
Proof.
  destruct (malloc_tests_pass kernel_page 0x400000 (2 ^ 22) None eq_refl kernel_page_usable ltac:(lia))
    as (h1 & h2 & H1 & H2 & _).
  exists h1, h2. split; [exact H1|exact H2].
Defined.

(** * Remarks on the code *)

(** [end] points to the last size, not behind it: the largest size is last in every round, and
    just 720 of the 5040 orders are tried. *)
Lemma largest_size_never_moves :
  length (visits 720 sizes).1 = 720%nat ∧ Forall (λ l, last l = Some 1000000) (visits 720 sizes).1.
Proof.
  split; [vm_compute; reflexivity|]. apply Forall_forall. intros l Hl%list_elem_of_In.
  assert (forallb (λ l, bool_decide (last l = Some 1000000)) (visits 720 sizes).1 = true) as F
    by (vm_compute; reflexivity).
  rewrite forallb_forall in F. by apply F, bool_decide_eq_true in Hl.
Qed.

End MallocTests.
