(* ===== verification/Channel.v ===== *)
(** The channels of kernel/channel.cpp and kernel/include/kernel/channel.h.

    A channel is a pair of endpoints with a byte buffer each; the kernel keeps all
    channels by value in one [std::vector], and an [Endpoint *], which is also the handle
    user programs hold, is an address inside the vector's storage.  The model keeps that
    storage: [slots] is the storage at address [elements] (its length is the vector's
    [_space]), of which the first [vsize] slots are elements.  Growing the vector moves
    the elements to a new storage and erasing an element shifts the later ones, both bit
    by bit, without updating any pointer to them.

    Buffers ([data_]) are a map from the address of an allocation to its bytes.  The
    addresses that [malloc] returns are arguments of the operations that allocate. *)
From S2P Require Import Prelude.

Module Channel.

Record Endpoint := mkEndpoint { other_ : Z; size_ : Z; capacity_ : Z; data_ : Z }.

Record Channel := mkChannel { end1 : Endpoint; end2 : Endpoint; owner1 : Z; owner2 : Z }.

(** [gChannels] and the allocated buffers. *)
Record state := mkState {
  elements : Z;
  vsize : nat;
  slots : list (option Channel);
  bufs : gmap Z (list Z);
}.

Definition set_slots x (s : state) := mkState (elements s) (vsize s) x (bufs s).
Definition set_bufs x (s : state) := mkState (elements s) (vsize s) (slots s) x.
Definition set_vsize x (s : state) := mkState (elements s) x (slots s) (bufs s).

(** [sizeof(Endpoint)] and [sizeof(Channel)]. *)
Definition kEndpointSize : Z := 16.
Definition kChannelSize : Z := 40.

(** [&gChannels[i].end1] and [&gChannels[i].end2] *)
Definition addr1 (s : state) (i : nat) : Z := elements s + kChannelSize * Z.of_nat i.
Definition addr2 (s : state) (i : nat) : Z := addr1 s i + kEndpointSize.

Inductive side := First | Second.

#[export] Instance side_eq_dec : EqDecision side.
Proof. solve_decision. Defined.

Definition ep_of (c : Channel) (d : side) : Endpoint :=
  match d with First => end1 c | Second => end2 c end.
Definition set_ep_of (c : Channel) (d : side) (e : Endpoint) : Channel :=
  match d with
  | First => mkChannel e (end2 c) (owner1 c) (owner2 c)
  | Second => mkChannel (end1 c) e (owner1 c) (owner2 c)
  end.
Definition addr_of (s : state) (i : nat) (d : side) : Z :=
  match d with First => addr1 s i | Second => addr2 s i end.

(** The slot and side an [Endpoint *] points to. *)
Definition decode (s : state) (p : Z) : option (nat * side) :=
  let off := p - elements s in
  if off <? 0 then None
  else if off mod kChannelSize =? 0 then Some (Z.to_nat (off / kChannelSize), First)
  else if off mod kChannelSize =? kEndpointSize then Some (Z.to_nat (off / kChannelSize), Second)
  else None.

(** Slots hold raw memory: one that was never written is an invalid object, and so is
    any address outside of the current storage. *)
Definition get_slot (i : nat) : M state Channel := λ s,
  match slots s !! i with Some (Some c) => Ok (c, s) | _ => Fault BadPointer end.

Definition put_slot (i : nat) (c : Channel) : M state unit :=
  modify (λ s, set_slots (<[i := Some c]> (slots s)) s).

Definition locate (p : Z) : M state (nat * side) := λ s,
  match decode s p with Some x => Ok (x, s) | None => Fault BadPointer end.

Definition get_ep (p : Z) : M state Endpoint :=
  x ← locate p; c ← get_slot x.1; mret (ep_of c x.2).

Definition put_ep (p : Z) (e : Endpoint) : M state unit :=
  x ← locate p; c ← get_slot x.1; put_slot x.1 (set_ep_of c x.2 e).

(** ** Buffers *)

(** [malloc]: the new allocation at [p], or null. *)
Definition alloc (p n : Z) : M state unit :=
  if p =? 0 then mret tt
  else modify (λ s, set_bufs (<[p := replicate (Z.to_nat n) 0]> (bufs s)) s).

Definition release (p : Z) : M state unit :=
  if p =? 0 then mret tt
  else λ s, match bufs s !! p with
            | Some _ => Ok (tt, set_bufs (delete p (bufs s)) s)
            | None => Fault AssertFailed
            end.

Definition read_buf (p : Z) (off n : nat) : M state (list Z) :=
  match n with
  | O => mret []
  | _ => λ s, match bufs s !! p with
              | Some b => if (off + n <=? length b)%nat then Ok (take n (drop off b), s)
                          else Fault OutOfBounds
              | None => Fault BadPointer
              end
  end.

Definition write_buf (p : Z) (off : nat) (bs : list Z) : M state unit :=
  match bs with
  | [] => mret tt
  | _ => λ s, match bufs s !! p with
              | Some b =>
                  if (off + length bs <=? length b)%nat
                  then Ok (tt, set_bufs (<[p := take off b ++ bs ++ drop (off + length bs) b]> (bufs s)) s)
                  else Fault OutOfBounds
              | None => Fault BadPointer
              end
  end.

(** ** [Endpoint] *)
Definition kDefaultCapacity : Z := 8.

Definition set_data (e : Endpoint) (cap data : Z) : Endpoint :=
  mkEndpoint (other_ e) (size_ e) cap data.
Definition set_size (e : Endpoint) (n : Z) : Endpoint :=
  mkEndpoint (other_ e) n (capacity_ e) (data_ e).
Definition set_other (e : Endpoint) (p : Z) : Endpoint :=
  mkEndpoint p (size_ e) (capacity_ e) (data_ e).

Definition ReserveIfNeeded (newdata this amt : Z) : M state unit :=
  e ← get_ep this;
  if capacity_ e <? amt then
    alloc newdata amt;;
    assert_ (tobool newdata);;
    bs ← read_buf (data_ e) 0 (Z.to_nat (size_ e));
    write_buf newdata 0 bs;;
    release (data_ e);;
    put_ep this (set_data e amt newdata)
  else mret tt.

Definition ShrinkCapacity (newdata this amt : Z) : M state unit :=
  e ← get_ep this;
  if (size_ e <=? amt) && (amt <? capacity_ e) then
    if amt =? 0 then
      release (data_ e);; put_ep this (set_data e amt 0)
    else
      alloc newdata amt;;
      assert_ (tobool newdata);;
      bs ← read_buf (data_ e) 0 (Z.to_nat (size_ e));
      write_buf newdata 0 bs;;
      release (data_ e);;
      put_ep this (set_data e amt newdata)
  else mret tt.

(** [bytes] are the [size] bytes at [src]. *)
Definition WriteSelf (newdata this : Z) (bytes : list Z) : M state unit :=
  let size := Z.of_nat (length bytes) in
  e ← get_ep this;
  ReserveIfNeeded newdata this (u32 (size_ e + size));;
  e ← get_ep this;
  write_buf (data_ e) (Z.to_nat (size_ e)) bytes;;
  put_ep this (set_size e (u32 (size_ e + size))).

(** The bytes that are stored at [dst], or the number of bytes available. *)
Definition ReadSelf (newdata this size : Z) : M state (Z + list Z) :=
  if size =? 0 then mret (inr [])
  else
    e ← get_ep this;
    if size_ e <? size then mret (inl (size_ e))
    else
      out ← read_buf (data_ e) 0 (Z.to_nat size);
      rest ← read_buf (data_ e) (Z.to_nat size) (Z.to_nat (size_ e - size));
      write_buf (data_ e) 0 rest;;
      put_ep this (set_size e (size_ e - size));;
      ShrinkCapacity newdata this (size_ e - size);;
      mret (inr out).

Definition Read (newdata this size : Z) : M state (Z + list Z) := ReadSelf newdata this size.

Definition Write (newdata this : Z) (bytes : list Z) : M state unit :=
  e ← get_ep this;
  if tobool (other_ e) then WriteSelf newdata (other_ e) bytes else mret tt.

(** ** The vector *)

(** [reserve]: new storage at [p]; the elements are copied bit by bit. *)
Definition reserve (p : Z) (n : nat) : M state unit := λ s,
  if (n <=? length (slots s))%nat then Ok (tt, s)
  else Ok (tt, mkState p (vsize s)
                 (take (vsize s) (slots s) ++ replicate (n - vsize s) None) (bufs s)).

Definition ReserveMoreIfNeeded (p : Z) : M state unit :=
  space ← gets (λ s, length (slots s));
  n ← gets vsize;
  if (space =? 0)%nat then reserve p 8
  else if (n =? space)%nat then reserve p (2 * space)
  else mret tt.

(** [Endpoint()]: no peer, no bytes, a buffer of [kDefaultCapacity]. *)
Definition new_endpoint (data : Z) : M state Endpoint :=
  alloc data (Z.max 0 kDefaultCapacity);;
  mret (mkEndpoint 0 0 (Z.max 0 kDefaultCapacity) data).

(** [emplace_back] of [Channel(owner)]. *)
Definition emplace_back (p d1 d2 owner : Z) : M state nat :=
  ReserveMoreIfNeeded p;;
  i ← gets vsize;
  e1 ← new_endpoint d1;
  e2 ← new_endpoint d2;
  put_slot i (mkChannel e1 e2 owner owner);;
  modify (set_vsize (S i));;
  mret i.

Definition Init (this other : Z) : M state unit :=
  e ← get_ep this; put_ep this (set_other e other).

(** [storage], [d1] and [d2] are what [malloc] returns; [current] is the current task. *)
Definition Create (storage d1 d2 current : Z) : M state (Z * Z) :=
  i ← emplace_back storage d1 d2 current;
  p1 ← gets (λ s, addr1 s i);
  p2 ← gets (λ s, addr2 s i);
  Init p1 p2;;
  Init p2 p1;;
  mret (p1, p2).

(** [erase]: destroy the element, then move each later one down by a slot. *)
Definition erase (i : nat) : M state unit :=
  c ← get_slot i;
  release (data_ (end2 c));;
  release (data_ (end1 c));;
  modify (λ s, let n := vsize s in
    set_vsize (n - 1) (set_slots
      (take i (slots s) ++ drop (S i) (take n (slots s)) ++ drop (n - 1) (slots s)) s)).

(** The search of [Close]; [n] slots are left. *)
Fixpoint close_search (this : Z) (n i : nat) : M state bool :=
  match n with
  | O => mret false
  | S n =>
      c ← get_slot i;
      p1 ← gets (λ s, addr1 s i);
      p2 ← gets (λ s, addr2 s i);
      if ((p1 =? this) && negb (tobool (other_ (end2 c)))) ||
         ((p2 =? this) && negb (tobool (other_ (end1 c))))
      then erase i;; mret true
      else close_search this n (S i)
  end.

Definition Close (this : Z) : M state bool :=
  e ← get_ep this;
  if negb (tobool (other_ e)) then mret false
  else
    put_ep this (set_other e 0);;
    n ← gets vsize;
    close_search this n 0.

(** The loop of [CloseEndpointsOwnedByTask] at slot [i]. *)
Fixpoint close_owned (fuel : nat) (owner : Z) (i : nat) : M state unit :=
  match fuel with
  | O => fail NoFuel
  | S fuel =>
      n ← gets vsize;
      if (i =? n)%nat then mret tt
      else
        c ← get_slot i;
        p1 ← gets (λ s, addr1 s i);
        r1 ← (if owner1 c =? owner then Close p1 else mret false);
        c ← get_slot i;
        p2 ← gets (λ s, addr2 s i);
        r2 ← (if owner2 c =? owner then Close p2 else mret false);
        if (r1 || r2 : bool) then close_owned fuel owner 0
        else close_owned fuel owner (S i)
  end.

(** Every restart follows the removal of a channel. *)
Definition CloseEndpointsOwnedByTask (owner : Z) : M state unit :=
  n ← gets vsize; close_owned (S n * S n) owner 0.

Fixpoint transfer_search (this newowner : Z) (n i : nat) : M state unit :=
  match n with
  | O => mret tt
  | S n =>
      c ← get_slot i;
      p1 ← gets (λ s, addr1 s i);
      p2 ← gets (λ s, addr2 s i);
      if p1 =? this then put_slot i (mkChannel (end1 c) (end2 c) newowner (owner2 c))
      else if p2 =? this then put_slot i (mkChannel (end1 c) (end2 c) (owner1 c) newowner)
      else transfer_search this newowner n (S i)
  end.

Definition TransferOwner (this newowner : Z) : M state unit :=
  n ← gets vsize; transfer_search this newowner n 0.

(** [new std::vector<Channel>]: an empty vector. *)
Definition Initialize : M state unit :=
  modify (λ s, mkState 0 0 [] (bufs s)).

(** * The channels as a list, and their contents *)

Definition ep_ok (m : gmap Z (list Z)) (e : Endpoint) : Prop :=
  0 ≤ size_ e ≤ capacity_ e ∧
  ((data_ e = 0 ∧ capacity_ e = 0) ∨
   (data_ e ≠ 0 ∧ ∃ b, m !! data_ e = Some b ∧ Z.of_nat (length b) = capacity_ e)).

(** The bytes waiting at an endpoint. *)
Definition contents (m : gmap Z (list Z)) (e : Endpoint) : list Z :=
  take (Z.to_nat (size_ e)) (default [] (m !! data_ e)).

(** The endpoints own their buffers. *)
Definition bufs_ok (m : gmap Z (list Z)) (cs : list Channel) : Prop :=
  (∀ i c d, cs !! i = Some c → ep_ok m (ep_of c d)) ∧
  (∀ i c d j c' d', cs !! i = Some c → cs !! j = Some c' →
     data_ (ep_of c d) = data_ (ep_of c' d') → data_ (ep_of c d) ≠ 0 → i = j ∧ d = d').

(** The vector holds the channels [cs]. *)
Definition rep (s : state) (cs : list Channel) : Prop :=
  vsize s = length cs ∧ take (length cs) (slots s) = Some <$> cs ∧ bufs_ok (bufs s) cs.

(** * Lemmas *)

Lemma ep_of_set c d e d' :
  ep_of (set_ep_of c d e) d' = if decide (d = d') then e else ep_of c d'.
Proof. destruct d, d'; done. Qed.

Lemma decode_addr s i d : decode s (addr_of s i d) = Some (i, d).
Proof.
  unfold decode, addr_of, addr2, addr1, kChannelSize, kEndpointSize. destruct d.
  - destruct (Z.ltb_spec (elements s + 40 * Z.of_nat i - elements s) 0); [lia|].
    replace ((elements s + 40 * Z.of_nat i - elements s) mod 40) with 0 by dlia. simpl.
    do 2 f_equal. dlia.
  - destruct (Z.ltb_spec (elements s + 40 * Z.of_nat i + 16 - elements s) 0); [lia|].
    replace ((elements s + 40 * Z.of_nat i + 16 - elements s) mod 40) with 16 by dlia. simpl.
    do 2 f_equal. dlia.
Qed.

Lemma addr_of_inj s i d j d' : addr_of s i d = addr_of s j d' → i = j ∧ d = d'.
Proof.
  intros E. apply (f_equal (decode s)) in E. rewrite !decode_addr in E. by simplify_eq.
Qed.

Lemma rep_lookup s cs i c : rep s cs → cs !! i = Some c → slots s !! i = Some (Some c).
Proof.
  intros (_ & Ht & _) Hi. assert (Hlt : (i < length cs)%nat) by by eapply lookup_lt_Some.
  rewrite <- (lookup_take_lt (slots s) (length cs)) by done.
  by rewrite Ht, list_lookup_fmap, Hi.
Qed.

Lemma rep_length s cs : rep s cs → (length cs ≤ length (slots s))%nat.
Proof.
  intros (_ & Ht & _). apply (f_equal length) in Ht. rewrite length_take, length_fmap in Ht. lia.
Qed.

Lemma get_slot_Ok s i c : slots s !! i = Some (Some c) → get_slot i s = Ok (c, s).
Proof. intros H. unfold get_slot. by rewrite H. Qed.

Lemma get_ep_Ok s i d c :
  slots s !! i = Some (Some c) → get_ep (addr_of s i d) s = Ok (ep_of c d, s).
Proof. intros H. unfold get_ep, locate, get_slot. munfold. rewrite decode_addr. simpl. by rewrite H. Qed.

Lemma put_ep_Ok s i d c e :
  slots s !! i = Some (Some c) →
  put_ep (addr_of s i d) e s = Ok (tt, set_slots (<[i := Some (set_ep_of c d e)]> (slots s)) s).
Proof.
  intros H. unfold put_ep, locate, get_slot, put_slot. munfold. rewrite decode_addr. simpl. by rewrite H.
Qed.

(** Replace one endpoint, and its buffer or a fresh one with it. *)
Definition update (s : state) (i : nat) (d : side) (c : Channel) (e : Endpoint)
    (m : gmap Z (list Z)) : state :=
  set_bufs m (set_slots (<[i := Some (set_ep_of c d e)]> (slots s)) s).

Section Update.
Variables (s : state) (cs : list Channel) (i : nat) (d : side) (c : Channel).
Variables (e : Endpoint) (m : gmap Z (list Z)) (nd : Z).
Hypothesis Hrep : rep s cs.
Hypothesis Hi : cs !! i = Some c.
Hypothesis Hok : ep_ok m e.
Hypothesis Hdata : data_ e = data_ (ep_of c d) ∨ data_ e = 0 ∨ (data_ e = nd ∧ bufs s !! nd = None).
Hypothesis Hm : ∀ k, k ≠ data_ (ep_of c d) → k ≠ nd ∨ is_Some (bufs s !! nd) → m !! k = bufs s !! k.

(** The buffer of another endpoint is neither the one replaced nor the fresh one. *)
Lemma update_other j c' d' :
  cs !! j = Some c' → (j, d') ≠ (i, d) → data_ (ep_of c' d') ≠ 0 →
  data_ (ep_of c' d') ≠ data_ (ep_of c d) ∧
  (data_ (ep_of c' d') ≠ nd ∨ is_Some (bufs s !! nd)).
Proof.
  intros Hj Hne H0. destruct Hrep as (_ & _ & Hoks & Hinj). split.
  - intros E. destruct (Hinj j c' d' i c d Hj Hi E H0) as [-> ->]. done.
  - destruct (decide (data_ (ep_of c' d') = nd)) as [E|]; [|by left]. right.
    destruct (Hoks j c' d' Hj) as [_ [[? _]|(_ & b & Hb & _)]]; [done|]. rewrite <- E. eauto.
Qed.

Lemma update_kept j c' d' :
  cs !! j = Some c' → (j, d') ≠ (i, d) →
  ep_ok m (ep_of c' d') ∧ contents m (ep_of c' d') = contents (bufs s) (ep_of c' d').
Proof.
  intros Hj Hne. pose proof Hrep as (_ & _ & Hoks & _). destruct (Hoks j c' d' Hj) as [Hs Hb].
  destruct (decide (data_ (ep_of c' d') = 0)) as [E0|H0].
  - destruct Hb as [[_ Hc]|[? _]]; [|done]. split; [split; [done|by left]|].
    unfold contents. replace (Z.to_nat (size_ (ep_of c' d'))) with 0%nat by lia. done.
  - destruct (update_other j c' d' Hj Hne H0) as [Hd Hn]. unfold contents, ep_ok.
    by rewrite (Hm _ Hd Hn).
Qed.

Lemma update_rep : rep (update s i d c e m) (<[i := set_ep_of c d e]> cs).
Proof.
  pose proof Hrep as (Hv & Ht & Hoks & Hinj). assert (Hlt : (i < length cs)%nat) by by eapply lookup_lt_Some.
  split_and!; simpl; [by rewrite length_insert| |split; simpl].
  - rewrite length_insert, take_insert_lt by done. rewrite Ht. by rewrite list_fmap_insert.
  - intros j c' d' Hj. destruct (decide (i = j)) as [<-|Hne].
    + rewrite list_lookup_insert_eq in Hj by done. simplify_eq. rewrite ep_of_set.
      case_decide; [done|]. by apply (update_kept i c d'); [|congruence].
    + rewrite list_lookup_insert_ne in Hj by done. by apply (update_kept j c' d'); [|congruence].
  - assert (Hnew : ∀ j c' d', cs !! j = Some c' → (j, d') ≠ (i, d) →
      data_ (ep_of c' d') = data_ e → data_ e ≠ 0 → False).
    { intros j c' d' Hj Hne E H0. rewrite <- E in H0.
      destruct (update_other j c' d' Hj Hne H0) as [Hd Hn]. rewrite E in Hd, Hn, H0.
      destruct Hdata as [?|[?|[Hnd Hnone]]]; [done|done|]. destruct Hn as [?|[? Hx]]; congruence. }
    assert (Hlook : ∀ j c' d', <[i := set_ep_of c d e]> cs !! j = Some c' →
      (j = i ∧ d' = d ∧ ep_of c' d' = e) ∨ (∃ c0, cs !! j = Some c0 ∧ ep_of c' d' = ep_of c0 d' ∧ (j, d') ≠ (i, d))).
    { intros j c' d' Hj. destruct (decide (i = j)) as [<-|Hne].
      - rewrite list_lookup_insert_eq in Hj by done. simplify_eq. rewrite ep_of_set.
        case_decide; [by left|right]. exists c. split_and!; [done..|congruence].
      - rewrite list_lookup_insert_ne in Hj by done. right. exists c'. split_and!; [done..|congruence]. }
    intros j c1 d1 k c2 d2 H1 H2 E H0.
    destruct (Hlook j c1 d1 H1) as [(-> & -> & E1)|(c1' & H1' & E1 & N1)];
      destruct (Hlook k c2 d2 H2) as [(-> & -> & E2)|(c2' & H2' & E2 & N2)];
      rewrite E1, E2 in *; [done| | |by eapply Hinj].
    + destruct (Hnew _ _ _ H2' N2); congruence.
    + destruct (Hnew _ _ _ H1' N1); congruence.
Qed.

End Update.

(** ** Buffers *)
Lemma contents_length m e : ep_ok m e → Z.of_nat (length (contents m e)) = size_ e.
Proof.
  unfold contents. intros [Hs [[_ Hc]|(_ & b & -> & Hb)]].
  - rewrite length_take. replace (Z.to_nat (size_ e)) with 0%nat by lia. simpl. lia.
  - simpl. rewrite length_take. lia.
Qed.

Lemma read_ep s e off n :
  ep_ok (bufs s) e → (off + n ≤ Z.to_nat (size_ e))%nat →
  read_buf (data_ e) off n s = Ok (take n (drop off (contents (bufs s) e)), s).
Proof.
  intros [Hs Hb] Hle. destruct n as [|n]; [done|]. unfold read_buf, contents.
  destruct Hb as [[_ Hc]|(_ & b & -> & Hb)]; [lia|]. simpl default.
  rewrite (proj2 (Nat.leb_le _ _)) by lia.
  rewrite !take_drop_commute, take_take. do 4 f_equal. lia.
Qed.

Lemma write_buf_Ok s p off bs b :
  bufs s !! p = Some b → (off + length bs ≤ length b)%nat →
  ∃ b', write_buf p off bs s = Ok (tt, set_bufs (<[p := b']> (bufs s)) s) ∧ length b' = length b ∧
        take (off + length bs) b' = take off b ++ bs.
Proof.
  intros Hb Hle. destruct bs as [|x bs].
  - exists b. rewrite insert_id by done. destruct s; split_and!; [done..|].
    simpl. by rewrite Nat.add_0_r, app_nil_r.
  - exists (take off b ++ (x :: bs) ++ drop (off + length (x :: bs)) b). unfold write_buf.
    rewrite Hb, (proj2 (Nat.leb_le _ _)) by done. split_and!; [done| |].
    + rewrite !length_app, length_take, length_drop. lia.
    + rewrite app_assoc, take_app_length'; [done|]. rewrite length_app, length_take. lia.
Qed.

Lemma alloc_Ok s nd n : nd ≠ 0 →
  alloc nd n s = Ok (tt, set_bufs (<[nd := replicate (Z.to_nat n) 0]> (bufs s)) s).
Proof. intros H. unfold alloc. by rewrite (proj2 (Z.eqb_neq _ _) H). Qed.

Lemma release_ep s e :
  ep_ok (bufs s) e → ∃ m, release (data_ e) s = Ok (tt, set_bufs m s) ∧
                          ∀ k, k ≠ data_ e → m !! k = bufs s !! k.
Proof.
  intros [_ Hb]. unfold release. destruct (Z.eqb_spec (data_ e) 0) as [E|E].
  - exists (bufs s). by destruct s.
  - destruct Hb as [[? _]|(_ & b & -> & _)]; [done|]. exists (delete (data_ e) (bufs s)).
    split; [done|]. intros k Hk. by rewrite lookup_delete_ne.
Qed.

(** Moving the bytes of an endpoint to a new buffer. *)
Lemma regrow_Ok {B} s e nd amt (k : M state B) :
  ep_ok (bufs s) e → size_ e ≤ amt → nd ≠ 0 → bufs s !! nd = None →
  ∃ m b, (alloc nd amt;; assert_ (tobool nd);;
          bs ← read_buf (data_ e) 0 (Z.to_nat (size_ e));
          write_buf nd 0 bs;; release (data_ e);; k) s = k (set_bufs m s) ∧
    m !! nd = Some b ∧ Z.of_nat (length b) = amt ∧
    take (Z.to_nat (size_ e)) b = contents (bufs s) e ∧
    ∀ k, k ≠ data_ e → k ≠ nd → m !! k = bufs s !! k.
Proof.
  intros Hok Hle Hnd Hfresh. pose proof (contents_length _ _ Hok) as Hlen. pose proof Hok as [Hs Hb].
  assert (Hdn : data_ e ≠ nd).
  { intros E. destruct Hb as [[? _]|(_ & b & Hb & _)]; [congruence|]. by rewrite E, Hfresh in Hb. }
  set (s1 := set_bufs (<[nd := replicate (Z.to_nat amt) 0]> (bufs s)) s).
  assert (Hc1 : contents (bufs s1) e = contents (bufs s) e).
  { unfold contents, s1. simpl. by rewrite lookup_insert_ne by done. }
  assert (Hok1 : ep_ok (bufs s1) e).
  { unfold ep_ok, s1. simpl. rewrite lookup_insert_ne by done. done. }
  destruct (write_buf_Ok s1 nd 0 (contents (bufs s) e) (replicate (Z.to_nat amt) 0)) as (b & Hw & Hlb & Htb).
  { apply lookup_insert_eq. }
  { rewrite length_replicate. lia. }
  set (s2 := set_bufs (<[nd := b]> (bufs s1)) s1) in *.
  destruct (release_ep s2 e) as (m & Hr & Hm).
  { unfold ep_ok, s2, s1. simpl. rewrite !lookup_insert_ne by done. done. }
  exists m, b. split_and!.
  - rewrite (bind_Ok _ _ _ _ _ (alloc_Ok s nd amt Hnd)). fold s1. unfold tobool.
    rewrite (proj2 (Z.eqb_neq _ _) Hnd). erewrite bind_Ok by done.
    erewrite bind_Ok by (apply read_ep; [exact Hok1|lia]). rewrite Hc1, drop_0.
    rewrite take_ge by lia. rewrite (bind_Ok _ _ _ _ _ Hw), (bind_Ok _ _ _ _ _ Hr). done.
  - rewrite Hm by done. apply lookup_insert_eq.
  - rewrite Hlb, length_replicate. lia.
  - simpl in Htb. rewrite <- Htb. f_equal. lia.
  - intros j Hj1 Hj2. rewrite Hm by done. unfold s2, s1. simpl. by rewrite !lookup_insert_ne.
Qed.

(** ** Reading and writing at an endpoint *)
Lemma set_ep_of_id c d : set_ep_of c d (ep_of c d) = c.
Proof. by destruct c, d. Qed.

Lemma update_id s i d c :
  slots s !! i = Some (Some c) → update s i d c (ep_of c d) (bufs s) = s.
Proof.
  intros H. unfold update. rewrite set_ep_of_id, list_insert_id by done. by destruct s.
Qed.

Lemma update_update s i d c e m e' m' :
  update (update s i d c e m) i d (set_ep_of c d e) e' m' = update s i d c e' m'.
Proof.
  unfold update, set_bufs, set_slots. simpl. rewrite list_insert_insert_eq.
  by replace (set_ep_of (set_ep_of c d e) d e') with (set_ep_of c d e') by (by destruct d).
Qed.

Lemma update_bufs s i d c e m m' : set_bufs m' (update s i d c e m) = update s i d c e m'.
Proof. done. Qed.

Lemma update_slot s i d c e m :
  (i < length (slots s))%nat → slots (update s i d c e m) !! i = Some (Some (set_ep_of c d e)).
Proof. intros Hi. simpl. by apply list_lookup_insert_eq. Qed.

(** [moved s i d c e m]: the endpoint has the same bytes and peer, maybe elsewhere. *)
Definition moved (s : state) (nd : Z) (e e1 : Endpoint) (m : gmap Z (list Z)) : Prop :=
  ep_ok m e1 ∧ contents m e1 = contents (bufs s) e ∧ other_ e1 = other_ e ∧ size_ e1 = size_ e ∧
  (data_ e1 = data_ e ∨ data_ e1 = 0 ∨ data_ e1 = nd) ∧
  ∀ k, k ≠ data_ e → k ≠ nd → m !! k = bufs s !! k.

Lemma moved_refl s nd e : ep_ok (bufs s) e → moved s nd e e (bufs s).
Proof. intros H. split_and!; auto. Qed.

Section Regrow.
Variables (s : state) (i : nat) (d : side) (c : Channel) (nd : Z).
Hypothesis Hi : slots s !! i = Some (Some c).
Hypothesis Hok : ep_ok (bufs s) (ep_of c d).
Hypothesis Hnd : nd ≠ 0.
Hypothesis Hfresh : bufs s !! nd = None.

Let e := ep_of c d.
Let this := addr_of s i d.

(** The common part of [ReserveIfNeeded] and [ShrinkCapacity]. *)
Lemma regrow_put amt :
  size_ e ≤ amt →
  ∃ m, (alloc nd amt;; assert_ (tobool nd);;
        bs ← read_buf (data_ e) 0 (Z.to_nat (size_ e));
        write_buf nd 0 bs;; release (data_ e);; put_ep this (set_data e amt nd)) s =
       Ok (tt, update s i d c (set_data e amt nd) m) ∧ moved s nd e (set_data e amt nd) m.
Proof.
  intros Hle. destruct (regrow_Ok s e nd amt (put_ep this (set_data e amt nd)) Hok Hle Hnd Hfresh)
    as (m & b & Hrun & Hb & Hlb & Htb & Hm).
  exists m. split.
  - rewrite Hrun. rewrite (put_ep_Ok (set_bufs m s) i d c) by done. done.
  - pose proof Hok as [Hs _]. fold e in Hs. split_and!; simpl; auto.
    + split; simpl; [lia|]. right. eauto.
    + unfold contents. simpl. by rewrite Hb.
Qed.

Lemma ReserveIfNeeded_Ok amt :
  size_ e ≤ amt →
  ∃ e1 m, ReserveIfNeeded nd this amt s = Ok (tt, update s i d c e1 m) ∧ moved s nd e e1 m ∧
          amt ≤ capacity_ e1.
Proof.
  intros Hle. unfold ReserveIfNeeded. rewrite (bind_Ok _ _ _ _ _ (get_ep_Ok s i d c Hi)). fold e.
  destruct (Z.ltb_spec (capacity_ e) amt) as [|Hcap].
  - destruct (regrow_put amt Hle) as (m & Hrun & Hmv). exists (set_data e amt nd), m.
    split_and!; [exact Hrun|done|done].
  - exists e, (bufs s). split_and!; [|by apply moved_refl|done]. by rewrite update_id.
Qed.

Lemma ShrinkCapacity_Ok amt :
  0 ≤ amt →
  ∃ e1 m, ShrinkCapacity nd this amt s = Ok (tt, update s i d c e1 m) ∧ moved s nd e e1 m.
Proof.
  intros H0. unfold ShrinkCapacity. rewrite (bind_Ok _ _ _ _ _ (get_ep_Ok s i d c Hi)). fold e.
  destruct (Z.leb_spec (size_ e) amt) as [Hle|], (Z.ltb_spec amt (capacity_ e)); simpl;
    try (exists e, (bufs s); split; [by rewrite update_id|by apply moved_refl]).
  destruct (Z.eqb_spec amt 0) as [-> |].
  - destruct (release_ep s e Hok) as (m & Hrun & Hm). exists (set_data e 0 0), m. split.
    + rewrite (bind_Ok _ _ _ _ _ Hrun). by rewrite (put_ep_Ok (set_bufs m s) i d c).
    + pose proof Hok as [Hs _]. fold e in Hs. split_and!; simpl; auto.
      * split; simpl; [lia|by left].
      * unfold contents. replace (Z.to_nat (size_ (set_data e 0 0))) with 0%nat by (simpl; lia).
        by replace (Z.to_nat (size_ e)) with 0%nat by lia.
  - destruct (regrow_put amt Hle) as (m & Hrun & Hmv). by exists (set_data e amt nd), m.
Qed.

End Regrow.

Section Endpoint.
Variables (s : state) (i : nat) (d : side) (c : Channel) (nd : Z).
Hypothesis Hi : slots s !! i = Some (Some c).
Hypothesis Hok : ep_ok (bufs s) (ep_of c d).
Hypothesis Hnd : nd ≠ 0.
Hypothesis Hfresh : bufs s !! nd = None.

Let e := ep_of c d.
Let this := addr_of s i d.

Lemma WriteSelf_Ok bs :
  size_ e + Z.of_nat (length bs) < 2 ^ 32 →
  ∃ e1 m, WriteSelf nd this bs s = Ok (tt, update s i d c e1 m) ∧ ep_ok m e1 ∧
    contents m e1 = contents (bufs s) e ++ bs ∧ other_ e1 = other_ e ∧
    (data_ e1 = data_ e ∨ data_ e1 = 0 ∨ data_ e1 = nd) ∧
    ∀ k, k ≠ data_ e → k ≠ nd → m !! k = bufs s !! k.
Proof.
  intros Hlt. pose proof Hok as [Hs _]. fold e in Hs. set (n := size_ e + Z.of_nat (length bs)) in *.
  destruct (ReserveIfNeeded_Ok s i d c nd Hi Hok Hnd Hfresh n) as (e1 & m & Hrun & (Hok1 & Hc1 & Ho1 & Hs1 & Hd1 & Hm1) & Hcap); [fold e; lia|].
  fold e this in Hrun, Hc1, Ho1, Hs1, Hd1, Hm1.
  unfold WriteSelf. rewrite (bind_Ok _ _ _ _ _ (get_ep_Ok s i d c Hi)). fold e n.
  rewrite (u32_id n) by (unfold is_u32; lia). rewrite (bind_Ok _ _ _ _ _ Hrun).
  assert (Hi1 : slots (update s i d c e1 m) !! i = Some (Some (set_ep_of c d e1)))
    by (apply update_slot; by eapply lookup_lt_Some).
  set (s1 := update s i d c e1 m) in *.
  assert (Hget : get_ep this s1 = Ok (e1, s1)).
  { pose proof (get_ep_Ok s1 i d _ Hi1) as H. by rewrite ep_of_set, decide_True in H. }
  rewrite (bind_Ok _ _ _ _ _ Hget), Hs1. fold n. rewrite (u32_id n) by (unfold is_u32; lia).
  assert (Hw : ∃ m2, write_buf (data_ e1) (Z.to_nat (size_ e)) bs s1 = Ok (tt, set_bufs m2 s1) ∧
    ep_ok m2 (set_size e1 n) ∧ contents m2 (set_size e1 n) = contents m e1 ++ bs ∧
    ∀ k, (k ≠ data_ e1 ∨ data_ e1 = 0) → m2 !! k = m !! k).
  { pose proof Hok1 as [Hs1' [[H0 Hc0]|(H0 & b & Hb & Hlb)]].
    - assert (bs = []) as -> by (apply length_zero_iff_nil; lia). exists m.
      assert (En : n = size_ e1) by (unfold n; simpl; lia).
      replace (set_size e1 n) with e1 by (rewrite En; by destruct e1).
      split_and!; try done. by rewrite app_nil_r.
    - destruct (write_buf_Ok s1 (data_ e1) (Z.to_nat (size_ e)) bs b) as (b' & Hw & Hlb' & Htb);
        [done|lia|]. eexists. split_and!; [exact Hw| | |].
      + split; simpl; [lia|]. right. split; [done|]. exists b'. rewrite lookup_insert_eq. split; [done|lia].
      + unfold contents. simpl. rewrite lookup_insert_eq, Hb. simpl.
        replace (Z.to_nat n) with (Z.to_nat (size_ e) + length bs)%nat by lia. by rewrite Htb, Hs1.
      + intros k [Hk|?]; [|done]. by rewrite lookup_insert_ne. }
  destruct Hw as (m2 & Hw & Hok2 & Hc2 & Hm2). rewrite (bind_Ok _ _ _ _ _ Hw).
  exists (set_size e1 n), m2. split_and!; try done.
  - rewrite (put_ep_Ok (set_bufs m2 s1) i d (set_ep_of c d e1)) by done.
    pose proof (update_update s i d c e1 m (set_size e1 n) m2) as E.
    unfold update at 1 in E. fold s1 in E. rewrite <- E. done.
  - by rewrite Hc2, Hc1.
  - intros k Hk1 Hk2. rewrite Hm2; [by apply Hm1|].
    destruct Hd1 as [?|[?|?]]; [left|right|left]; congruence.
Qed.

(** The bytes left are moved to the front of the buffer. *)
Lemma read_shift size :
  0 < size ≤ size_ e →
  ∃ m, write_buf (data_ e) 0 (drop (Z.to_nat size) (contents (bufs s) e)) s = Ok (tt, set_bufs m s) ∧
    ep_ok m (set_size e (size_ e - size)) ∧
    contents m (set_size e (size_ e - size)) = drop (Z.to_nat size) (contents (bufs s) e) ∧
    m !! nd = None ∧ ∀ k, k ≠ data_ e → m !! k = bufs s !! k.
Proof.
  intros Hsz. pose proof (contents_length _ _ Hok) as Hlen. fold e in Hlen.
  pose proof Hok as [Hs [[H0 Hc0]|(H0 & b & Hb & Hlb)]]; fold e in Hs; [fold e in Hc0; lia|].
  fold e in H0, Hb, Hlb.
  destruct (write_buf_Ok s (data_ e) 0 (drop (Z.to_nat size) (contents (bufs s) e)) b) as
    (b' & Hw & Hlb' & Htb); [done|rewrite length_drop; lia|].
  eexists. split_and!; [exact Hw| | | |].
  - split; simpl; [lia|]. right. split; [done|]. exists b'. rewrite lookup_insert_eq. split; [done|lia].
  - unfold contents at 1. simpl. rewrite lookup_insert_eq. simpl in *. rewrite <- Htb. f_equal.
    rewrite length_drop. lia.
  - rewrite lookup_insert_ne; [done|]. intros E. rewrite E in Hb. congruence.
  - intros k Hk. by rewrite lookup_insert_ne.
Qed.

Lemma ReadSelf_Ok size :
  0 < size ≤ size_ e →
  ∃ e1 m, ReadSelf nd this size s =
      Ok (inr (take (Z.to_nat size) (contents (bufs s) e)), update s i d c e1 m) ∧
    ep_ok m e1 ∧ contents m e1 = drop (Z.to_nat size) (contents (bufs s) e) ∧
    other_ e1 = other_ e ∧ (data_ e1 = data_ e ∨ data_ e1 = 0 ∨ data_ e1 = nd) ∧
    ∀ k, k ≠ data_ e → k ≠ nd → m !! k = bufs s !! k.
Proof.
  intros Hsz. pose proof (contents_length _ _ Hok) as Hlen. fold e in Hlen.
  destruct (read_shift size Hsz) as (m1 & Hw & Hok1 & Hc1 & Hfr1 & Hm1).
  set (e1 := set_size e (size_ e - size)) in *. set (s1 := update s i d c e1 m1).
  assert (Hi1 : slots s1 !! i = Some (Some (set_ep_of c d e1)))
    by (apply update_slot; by eapply lookup_lt_Some).
  assert (Eep : ep_of (set_ep_of c d e1) d = e1) by by rewrite ep_of_set, decide_True.
  destruct (ShrinkCapacity_Ok s1 i d (set_ep_of c d e1) nd) with (amt := size_ e - size)
    as (e2 & m2 & Hrun & (Hok2 & Hc2 & Ho2 & Hs2 & Hd2 & Hm2)); try done; [by rewrite Eep|lia|].
  rewrite Eep in *. exists e2, m2. split_and!; try done.
  - unfold ReadSelf. rewrite (proj2 (Z.eqb_neq size 0)) by lia.
    rewrite (bind_Ok _ _ _ _ _ (get_ep_Ok s i d c Hi)). fold e.
    rewrite (proj2 (Z.ltb_ge _ _)) by lia.
    erewrite bind_Ok by (apply read_ep; [exact Hok|fold e; lia]). fold e. rewrite drop_0.
    erewrite bind_Ok by (apply read_ep; [exact Hok|fold e; lia]). fold e.
    rewrite (take_ge (drop _ _)) by (rewrite length_drop; lia).
    rewrite (bind_Ok _ _ _ _ _ Hw).
    erewrite bind_Ok by (apply (put_ep_Ok (set_bufs m1 s) i d c); done).
    change (set_slots _ (set_bufs m1 s)) with s1. change this with (addr_of s1 i d).
    rewrite (bind_Ok _ _ _ _ _ Hrun). unfold s1. by rewrite update_update.
  - by rewrite Hc2.
  - intros k Hk1 Hk2. rewrite Hm2 by done. by apply Hm1.
Qed.

Lemma ReadSelf_short size :
  size_ e < size → ReadSelf nd this size s = Ok (inl (size_ e), s).
Proof.
  intros Hsz. pose proof Hok as [Hs _]. fold e in Hs. unfold ReadSelf.
  rewrite (proj2 (Z.eqb_neq size 0)) by lia.
  rewrite (bind_Ok _ _ _ _ _ (get_ep_Ok s i d c Hi)). fold e.
  by rewrite (proj2 (Z.ltb_lt _ _)).
Qed.

End Endpoint.

(** ** The vector of channels under reads and writes *)
Definition peer (d : side) : side := match d with First => Second | Second => First end.

(** The bytes waiting at end [d] of channel [i]. *)
Definition waiting (s : state) (cs : list Channel) (i : nat) (d : side) : list Z :=
  match cs !! i with Some c => contents (bufs s) (ep_of c d) | None => [] end.

(** What reading and writing does not change: peers and owners. *)
Definition links (cs : list Channel) : list (Z * Z * Z * Z) :=
  (λ c, (other_ (end1 c), other_ (end2 c), owner1 c, owner2 c)) <$> cs.

(** Both ends of channel [i] are open, and point at each other. *)
Definition linked (s : state) (cs : list Channel) (i : nat) : Prop :=
  ∃ c, cs !! i = Some c ∧ addr1 s i ≠ 0 ∧ addr2 s i ≠ 0 ∧
       ∀ d, other_ (ep_of c d) = addr_of s i (peer d).

(** After [update] of one endpoint that keeps its peer. *)
Lemma update_view s cs i d c e m nd :
  rep s cs → cs !! i = Some c → ep_ok m e → other_ e = other_ (ep_of c d) → bufs s !! nd = None →
  (data_ e = data_ (ep_of c d) ∨ data_ e = 0 ∨ data_ e = nd) →
  (∀ k, k ≠ data_ (ep_of c d) → k ≠ nd → m !! k = bufs s !! k) →
  let s' := update s i d c e m in
  ∃ cs', rep s' cs' ∧ links cs' = links cs ∧ length cs' = length cs ∧ elements s' = elements s ∧
         waiting s' cs' i d = contents m e ∧
         ∀ j d', (j, d') ≠ (i, d) → waiting s' cs' j d' = waiting s cs j d'.
Proof.
  intros Hrep Hi Hok Ho Hfr Hd Hm s'. exists (<[i := set_ep_of c d e]> cs).
  assert (Hlt : (i < length cs)%nat) by by eapply lookup_lt_Some.
  assert (Hd' : data_ e = data_ (ep_of c d) ∨ data_ e = 0 ∨ data_ e = nd ∧ bufs s !! nd = None) by tauto.
  assert (Hm' : ∀ k, k ≠ data_ (ep_of c d) → k ≠ nd ∨ is_Some (bufs s !! nd) → m !! k = bufs s !! k).
  { intros k Hk [Hk'|[? Hs]]; [by apply Hm|congruence]. }
  split_and!.
  - by apply (update_rep s cs i d c e m nd).
  - unfold links. rewrite list_fmap_insert. apply list_insert_id.
    rewrite list_lookup_fmap, Hi. simpl. destruct d; simpl in *; by rewrite Ho.
  - apply length_insert.
  - done.
  - unfold waiting. rewrite list_lookup_insert_eq by done. by rewrite ep_of_set, decide_True.
  - intros j d' Hne. unfold waiting. destruct (decide (j = i)) as [-> |Hj].
    + rewrite list_lookup_insert_eq, Hi by done. rewrite ep_of_set, decide_False by congruence.
      by apply (update_kept s cs i d c m nd Hrep Hi Hm' i c d').
    + rewrite list_lookup_insert_ne by done. destruct (cs !! j) as [c'|] eqn:Ej; [|done].
      by apply (update_kept s cs i d c m nd Hrep Hi Hm' j c' d').
Qed.

Lemma links_lookup cs cs' i c : links cs' = links cs → cs !! i = Some c →
  ∃ c', cs' !! i = Some c' ∧ owner1 c' = owner1 c ∧ owner2 c' = owner2 c ∧ ∀ d, other_ (ep_of c' d) = other_ (ep_of c d).
Proof.
  intros Hl Hc. assert (Hi : links cs' !! i = Some (other_ (end1 c), other_ (end2 c), owner1 c, owner2 c))
    by (rewrite Hl; unfold links; by rewrite list_lookup_fmap, Hc).
  unfold links in Hi. rewrite list_lookup_fmap in Hi. destruct (cs' !! i) as [c'|]; [|done]. simpl in Hi. simplify_eq.
  exists c'. split_and!; try done. by intros [].
Qed.

Lemma linked_links s s' cs cs' i :
  elements s' = elements s → links cs' = links cs → linked s cs i → linked s' cs' i.
Proof.
  intros He Hl (c & Hc & H1 & H2 & Hd). destruct (links_lookup _ _ _ _ Hl Hc) as (c' & Hc' & _ & _ & Ho).
  exists c'. unfold addr_of, addr1, addr2, addr1 in *. rewrite He. split_and!; try done. intros d. by rewrite Ho, Hd.
Qed.

(** [Write] at an end that points at end [d'] of channel [k]. *)
Lemma Write_to s cs i d c k d' nd bs :
  rep s cs → cs !! i = Some c → other_ (ep_of c d) = addr_of s k d' → addr_of s k d' ≠ 0 → (k < length cs)%nat →
  nd ≠ 0 → bufs s !! nd = None →
  Z.of_nat (length (waiting s cs k d')) + Z.of_nat (length bs) < 2 ^ 32 →
  ∃ s' cs', Write nd (addr_of s i d) bs s = Ok (tt, s') ∧ rep s' cs' ∧ links cs' = links cs ∧
    length cs' = length cs ∧ elements s' = elements s ∧
    waiting s' cs' k d' = waiting s cs k d' ++ bs ∧
    ∀ j d0, (j, d0) ≠ (k, d') → waiting s' cs' j d0 = waiting s cs j d0.
Proof.
  intros Hrep Hc Hd H0 Hk Hnd Hfr Hlen. pose proof (rep_lookup _ _ _ _ Hrep Hc) as Hi.
  destruct (lookup_lt_is_Some_2 cs k Hk) as [ck Hck]. pose proof (rep_lookup _ _ _ _ Hrep Hck) as Hik.
  pose proof Hrep as (_ & _ & Hoks & _). pose proof (Hoks k ck d' Hck) as Hok.
  unfold waiting in Hlen. rewrite Hck, (contents_length _ _ Hok) in Hlen.
  destruct (WriteSelf_Ok s k d' ck nd Hik Hok Hnd Hfr bs Hlen) as
    (e1 & m & Hrun & Hok1 & Hcon & Ho & Hdt & Hm).
  destruct (update_view s cs k d' ck e1 m nd) as (cs' & Hrep' & Hl & Hlen' & He & Hw & Hrest); try done.
  exists (update s k d' ck e1 m), cs'. split_and!; try done.
  - unfold Write. rewrite (bind_Ok _ _ _ _ _ (get_ep_Ok s i d c Hi)), Hd.
    assert (Ht : tobool (addr_of s k d') = true) by (by apply negb_true_iff, Z.eqb_neq). by rewrite Ht.
  - rewrite Hw. unfold waiting. by rewrite Hck.
Qed.

(** [Write] appends to what waits at the other end. *)
Lemma Write_Ok s cs i d nd bs :
  rep s cs → linked s cs i → nd ≠ 0 → bufs s !! nd = None →
  Z.of_nat (length (waiting s cs i (peer d))) + Z.of_nat (length bs) < 2 ^ 32 →
  ∃ s' cs', Write nd (addr_of s i d) bs s = Ok (tt, s') ∧ rep s' cs' ∧ links cs' = links cs ∧
    length cs' = length cs ∧ elements s' = elements s ∧
    waiting s' cs' i (peer d) = waiting s cs i (peer d) ++ bs ∧
    ∀ j d', (j, d') ≠ (i, peer d) → waiting s' cs' j d' = waiting s cs j d'.
Proof.
  intros Hrep (c & Hc & H1 & H2 & Hd) Hnd Hfr Hlen.
  apply (Write_to s cs i d c i (peer d)); try done; [by destruct d|by eapply lookup_lt_Some].
Qed.

(** [Read] takes from the front of what waits, all or nothing. *)
Lemma Read_Ok s cs i d c nd size :
  rep s cs → cs !! i = Some c → nd ≠ 0 → bufs s !! nd = None → 0 ≤ size →
  if size <=? Z.of_nat (length (waiting s cs i d)) then
    ∃ s' cs', Read nd (addr_of s i d) size s = Ok (inr (take (Z.to_nat size) (waiting s cs i d)), s') ∧
      rep s' cs' ∧ links cs' = links cs ∧ length cs' = length cs ∧ elements s' = elements s ∧
      waiting s' cs' i d = drop (Z.to_nat size) (waiting s cs i d) ∧
      ∀ j d', (j, d') ≠ (i, d) → waiting s' cs' j d' = waiting s cs j d'
  else Read nd (addr_of s i d) size s = Ok (inl (Z.of_nat (length (waiting s cs i d))), s).
Proof.
  intros Hrep Hc Hnd Hfr H0. pose proof (rep_lookup _ _ _ _ Hrep Hc) as Hi.
  pose proof Hrep as (_ & _ & Hoks & _). pose proof (Hoks i c d Hc) as Hok.
  assert (Hw : waiting s cs i d = contents (bufs s) (ep_of c d)) by (unfold waiting; by rewrite Hc).
  rewrite Hw, (contents_length _ _ Hok). destruct (Z.leb_spec size (size_ (ep_of c d))) as [Hle|Hgt].
  - destruct (Z.eq_dec size 0) as [-> |Hne].
    { exists s, cs. split_and!; try done. }
    destruct (ReadSelf_Ok s i d c nd Hi Hok Hnd Hfr size) as
      (e1 & m & Hrun & Hok1 & Hcon & Ho & Hdt & Hm); [lia|].
    destruct (update_view s cs i d c e1 m nd) as (cs' & Hrep' & Hl & Hlen' & He & Hw' & Hrest); try done.
    exists (update s i d c e1 m), cs'. split_and!; try done. by rewrite Hw'.
  - by apply ReadSelf_short.
Qed.

(** ** Creating channels *)
Lemma fresh_endpoint s d0 :
  d0 ≠ 0 → new_endpoint d0 s =
    Ok (mkEndpoint 0 0 8 d0, set_bufs (<[d0 := replicate 8 0]> (bufs s)) s).
Proof. intros H. unfold new_endpoint. by rewrite (bind_Ok _ _ _ _ _ (alloc_Ok s d0 _ H)). Qed.

Definition new_channel (s : state) (n : nat) (d1 d2 owner : Z) : Channel :=
  mkChannel (mkEndpoint (addr2 s n) 0 8 d1) (mkEndpoint (addr1 s n) 0 8 d2) owner owner.

Definition with_new (s : state) (d1 d2 owner : Z) : state :=
  let n := vsize s in
  mkState (elements s) (S n) (<[n := Some (new_channel s n d1 d2 owner)]> (slots s))
    (<[d2 := replicate 8 0]> (<[d1 := replicate 8 0]> (bufs s))).

Lemma Init_Ok s i d c q :
  slots s !! i = Some (Some c) →
  Init (addr_of s i d) q s =
    Ok (tt, set_slots (<[i := Some (set_ep_of c d (set_other (ep_of c d) q))]> (slots s)) s).
Proof.
  intros Hi. unfold Init. rewrite (bind_Ok _ _ _ _ _ (get_ep_Ok s i d c Hi)). by apply put_ep_Ok.
Qed.

Lemma emplace_back_Ok s p d1 d2 owner :
  (vsize s < length (slots s))%nat → d1 ≠ 0 → d2 ≠ 0 →
  emplace_back p d1 d2 owner s =
    Ok (vsize s, mkState (elements s) (S (vsize s))
      (<[vsize s := Some (mkChannel (mkEndpoint 0 0 8 d1) (mkEndpoint 0 0 8 d2) owner owner)]> (slots s))
      (<[d2 := replicate 8 0]> (<[d1 := replicate 8 0]> (bufs s)))).
Proof.
  intros Hlt H1 H2. unfold emplace_back.
  assert (Hr : ReserveMoreIfNeeded p s = Ok (tt, s)).
  { unfold ReserveMoreIfNeeded. erewrite bind_Ok by done. erewrite bind_Ok by done.
    destruct (Nat.eqb_spec (length (slots s)) 0); [lia|].
    by destruct (Nat.eqb_spec (vsize s) (length (slots s))); [lia|]. }
  rewrite (bind_Ok _ _ _ _ _ Hr). erewrite bind_Ok by done.
  rewrite (bind_Ok _ _ _ _ _ (fresh_endpoint s d1 H1)).
  erewrite bind_Ok by (by apply fresh_endpoint). done.
Qed.

Lemma Create_run s p d1 d2 owner :
  (vsize s < length (slots s))%nat → d1 ≠ 0 → d2 ≠ 0 →
  Create p d1 d2 owner s =
    Ok ((addr1 s (vsize s), addr2 s (vsize s)), with_new s d1 d2 owner).
Proof.
  intros Hlt H1 H2. unfold Create. rewrite (bind_Ok _ _ _ _ _ (emplace_back_Ok s p d1 d2 owner Hlt H1 H2)).
  set (n := vsize s) in *. set (s1 := mkState _ _ _ _).
  erewrite bind_Ok by done. erewrite bind_Ok by done.
  assert (Hn : slots s1 !! n = Some (Some (mkChannel (mkEndpoint 0 0 8 d1) (mkEndpoint 0 0 8 d2) owner owner)))
    by (by apply list_lookup_insert_eq).
  rewrite (bind_Ok _ _ _ _ _ (Init_Ok s1 n First _ (addr2 s1 n) Hn)).
  set (s2 := set_slots _ s1).
  assert (Hn2 : slots s2 !! n = Some (Some (mkChannel (mkEndpoint (addr2 s n) 0 8 d1) (mkEndpoint 0 0 8 d2) owner owner))).
  { simpl. apply list_lookup_insert_eq. by rewrite length_insert. }
  change (addr2 s1 n) with (addr_of s2 n Second) at 1.
  rewrite (bind_Ok _ _ _ _ _ (Init_Ok s2 n Second _ (addr1 s1 n) Hn2)).
  unfold s2, s1, set_slots, with_new. simpl. by rewrite !list_insert_insert_eq.
Qed.

Lemma lookup_snoc_cases {A} (l : list A) x i y :
  (l ++ [x]) !! i = Some y → (l !! i = Some y ∧ (i < length l)%nat) ∨ (i = length l ∧ y = x).
Proof.
  intros H. destruct (decide (i < length l)%nat) as [Hlt|Hge].
  - left. by rewrite lookup_app_l in H.
  - right. rewrite lookup_app_r in H by lia. apply list_lookup_singleton_Some in H as [? ->].
    split; [lia|done].
Qed.

Lemma Create_rep s cs d1 d2 owner :
  rep s cs → (length cs < length (slots s))%nat → d1 ≠ 0 → d2 ≠ 0 → d1 ≠ d2 →
  bufs s !! d1 = None → bufs s !! d2 = None →
  let n := length cs in
  let cs' := cs ++ [new_channel s n d1 d2 owner] in
  rep (with_new s d1 d2 owner) cs' ∧
  ∀ i d, waiting (with_new s d1 d2 owner) cs' i d = waiting s cs i d.
Proof.
  intros Hrep Hlt H1 H2 Hne Hf1 Hf2 n cs'. pose proof Hrep as (Hv & Ht & Hoks & Hinj).
  set (m := <[d2 := replicate 8 0]> (<[d1 := replicate 8 0]> (bufs s))).
  assert (Hold : ∀ i c d, cs !! i = Some c → data_ (ep_of c d) ≠ 0 →
    data_ (ep_of c d) ≠ d1 ∧ data_ (ep_of c d) ≠ d2 ∧ m !! data_ (ep_of c d) = bufs s !! data_ (ep_of c d)).
  { intros i c d Hi H0. destruct (Hoks i c d Hi) as [_ [[? _]|(_ & b & Hb & _)]]; [done|].
    assert (data_ (ep_of c d) ≠ d1) by congruence. assert (data_ (ep_of c d) ≠ d2) by congruence.
    unfold m. by rewrite !lookup_insert_ne. }
  assert (Hd : ∀ d, data_ (ep_of (new_channel s n d1 d2 owner) d) = match d with First => d1 | Second => d2 end)
    by (by intros []).
  split; [split_and!|].
  - simpl. rewrite Hv. unfold cs'. rewrite length_app. simpl. lia.
  - unfold cs'. rewrite length_app, fmap_app. simpl. rewrite Hv. fold n.
    rewrite Nat.add_1_r, (take_S_r _ _ (Some (new_channel s n d1 d2 owner))).
    + f_equal. rewrite take_insert_ge by lia. done.
    + by apply list_lookup_insert_eq.
  - change (bufs (with_new s d1 d2 owner)) with m. split.
    + intros i c d [[Hi _]|[-> ->]]%lookup_snoc_cases.
      * destruct (Hoks i c d Hi) as [Hs Hb]. split; [done|].
        destruct Hb as [?|(H0 & b & Hb & Hl)]; [by left|right]. split; [done|].
        exists b. destruct (Hold i c d Hi H0) as (_ & _ & ->). done.
      * split; [by destruct d|]. right. rewrite Hd. split; [by destruct d|].
        exists (replicate 8 0). split; [|by destruct d]. unfold m.
        destruct d; [by rewrite lookup_insert_ne, lookup_insert_eq|apply lookup_insert_eq].
    + intros i c d j c' d' [[Hi Hil]|[-> ->]]%lookup_snoc_cases [[Hj Hjl]|[-> ->]]%lookup_snoc_cases E H0.
      * by eapply Hinj.
      * destruct (Hold i c d Hi H0) as (? & ? & _). rewrite Hd in E. by destruct d'.
      * rewrite E in H0. destruct (Hold j c' d' Hj H0) as (? & ? & _). rewrite Hd in E. by destruct d.
      * rewrite !Hd in E. split; [done|]. by destruct d, d'.
  - intros i d. unfold waiting. destruct (cs' !! i) as [c|] eqn:Ei.
    + apply lookup_snoc_cases in Ei as [[Hi _]|[-> ->]].
      * rewrite Hi. unfold contents. change (bufs (with_new s d1 d2 owner)) with m. destruct (decide (data_ (ep_of c d) = 0)) as [E|E].
        { destruct (Hoks i c d Hi) as [Hs [[_ Hc]|[? _]]]; [|done].
          by replace (Z.to_nat (size_ (ep_of c d))) with 0%nat by lia. }
        destruct (Hold i c d Hi E) as (_ & _ & ->). done.
      * rewrite lookup_ge_None_2 by done. by destruct d.
    + unfold cs' in Ei. apply lookup_ge_None in Ei. rewrite length_app in Ei.
      by rewrite lookup_ge_None_2 by lia.
Qed.

(** ** Closing *)
Lemma lookup_delete_cases {A} (l : list A) i j x :
  delete i l !! j = Some x →
  ∃ k, l !! k = Some x ∧ k ≠ i ∧ (k = if decide (j < i)%nat then j else S j).
Proof.
  intros H. case_decide as Hlt.
  - rewrite list_lookup_delete_lt in H by done. exists j. split_and!; [done|lia|done].
  - rewrite list_lookup_delete_ge in H by lia. exists (S j). split_and!; [done|lia|done].
Qed.

Lemma delete_insert_list {A} (l : list A) i x : delete i (<[i := x]> l) = delete i l.
Proof. rewrite !delete_take_drop. by rewrite take_insert_ge, drop_insert_lt by lia. Qed.

Lemma bufs_ok_delete m m' cs i c :
  bufs_ok m cs → cs !! i = Some c →
  (∀ k, k ≠ data_ (end1 c) → k ≠ data_ (end2 c) → m' !! k = m !! k) → bufs_ok m' (delete i cs).
Proof.
  intros [Hoks Hinj] Hi Hm.
  assert (Hd : ∀ k c' d, cs !! k = Some c' → k ≠ i → data_ (ep_of c' d) ≠ 0 →
    m' !! data_ (ep_of c' d) = m !! data_ (ep_of c' d)).
  { intros k c' d Hk Hne H0. apply Hm; intros E.
    - by destruct (Hinj k c' d i c First Hk Hi E H0).
    - by destruct (Hinj k c' d i c Second Hk Hi E H0). }
  split.
  - intros j c' d (k & Hk & Hne & _)%lookup_delete_cases. destruct (Hoks k c' d Hk) as [Hs Hb].
    split; [done|]. destruct Hb as [?|(H0 & b & Hb & Hl)]; [by left|right]. split; [done|].
    exists b. by rewrite (Hd k c' d Hk Hne H0).
  - intros j c1 d1 j' c2 d2 (k1 & Hk1 & N1 & E1)%lookup_delete_cases
      (k2 & Hk2 & N2 & E2)%lookup_delete_cases E H0.
    destruct (Hinj k1 c1 d1 k2 c2 d2 Hk1 Hk2 E H0) as [Ek ->]. split; [|done].
    repeat case_decide; lia.
Qed.

Lemma erase_Ok s cs i c :
  rep s cs → cs !! i = Some c →
  ∃ s', erase i s = Ok (tt, s') ∧ rep s' (delete i cs) ∧ elements s' = elements s ∧
        (S i = length cs → slots s' !! i = Some (Some c)) ∧
        ∀ p, p ≠ data_ (end1 c) → p ≠ data_ (end2 c) → bufs s' !! p = bufs s !! p.
Proof.
  intros Hrep Hc. pose proof Hrep as (Hv & Ht & Hoks & Hinj). pose proof (rep_lookup _ _ _ _ Hrep Hc) as Hi.
  pose proof (rep_length _ _ Hrep) as Hlen. assert (Hlt : (i < length cs)%nat) by by eapply lookup_lt_Some.
  destruct (release_ep s (end2 c) (Hoks i c Second Hc)) as (m1 & Hr1 & Hm1).
  assert (Hok1 : ep_ok m1 (end1 c)).
  { destruct (Hoks i c First Hc) as [Hs Hb]. split; [done|].
    destruct Hb as [?|(H0 & b & Hb & Hl)]; [by left|right]. split; [done|]. exists b.
    split; [|done]. rewrite Hm1; [done|]. intros E. by destruct (Hinj i c First i c Second Hc Hc E H0). }
  destruct (release_ep (set_bufs m1 s) (end1 c) Hok1) as (m2 & Hr2 & Hm2).
  eexists. split_and!.
  - unfold erase. rewrite (bind_Ok _ _ _ _ _ (get_slot_Ok s i c Hi)).
    rewrite (bind_Ok _ _ _ _ _ Hr1), (bind_Ok _ _ _ _ _ Hr2). reflexivity.
  - cbv zeta. split_and!; simpl.
    + rewrite length_delete, Hv by (by eexists). lia.
    + rewrite length_delete, Hv, Ht by (by eexists). rewrite app_assoc.
      assert (Hd : take i (slots s) ++ drop (S i) (Some <$> cs) = Some <$> delete i cs).
      { rewrite delete_take_drop, fmap_app, fmap_take, fmap_drop. f_equal.
        rewrite <- Ht, take_take. f_equal. lia. }
      rewrite Hd. rewrite take_app_length'; [done|]. rewrite length_fmap, length_delete by (by eexists). done.
    + apply (bufs_ok_delete (bufs s) m2 cs i c); [done|done|].
      intros k H1 H2. rewrite Hm2 by done. simpl. by apply Hm1.
  - done.
  - intros El. simpl. rewrite Hv, Ht. rewrite lookup_app_r by (rewrite length_take; lia).
    rewrite length_take. rewrite lookup_app_r by (rewrite length_drop, length_fmap; lia).
    rewrite length_drop, length_fmap, lookup_drop. rewrite <- Hi. f_equal. lia.
  - intros p H1 H2. simpl. rewrite Hm2 by done. by apply Hm1.
Qed.

(** The channel with end [d] closed. *)
Definition closed (c : Channel) (d : side) : Channel := set_ep_of c d (set_other (ep_of c d) 0).

(** The bytes stay when an end is closed. *)
Lemma waiting_closed s s' cs i c d : cs !! i = Some c → bufs s' = bufs s →
  ∀ j d', waiting s' (<[i := closed c d]> cs) j d' = waiting s cs j d'.
Proof.
  intros Hc Hb j d'. unfold waiting. destruct (decide (i = j)) as [<-|Hne].
  - rewrite list_lookup_insert_eq by (by eapply lookup_lt_Some). rewrite Hc, Hb. by destruct d, d'.
  - by rewrite list_lookup_insert_ne, Hb.
Qed.

Lemma update_closed s cs i d c :
  rep s cs → cs !! i = Some c →
  rep (update s i d c (set_other (ep_of c d) 0) (bufs s)) (<[i := closed c d]> cs).
Proof.
  intros Hrep Hc. pose proof Hrep as (_ & _ & Hoks & _).
  apply (update_rep s cs i d c (set_other (ep_of c d) 0) (bufs s) 0); try done.
  - apply (Hoks i c d Hc).
  - by left.
Qed.

Lemma close_search_Ok s cs i d c : rep s cs → cs !! i = Some c → ∀ n j,
  (j + n)%nat = length cs → ((j ≤ i)%nat ∨ other_ (ep_of c (peer d)) ≠ 0) →
  if other_ (ep_of c (peer d)) =? 0 then
    ∃ s', close_search (addr_of s i d) n j s = Ok (true, s') ∧ erase i s = Ok (tt, s')
  else close_search (addr_of s i d) n j s = Ok (false, s).
Proof.
  intros Hrep Hc. assert (Hlt : (i < length cs)%nat) by by eapply lookup_lt_Some.
  induction n as [|n IH]; intros j Hj Hij.
  { destruct (Z.eqb_spec (other_ (ep_of c (peer d))) 0); [lia|done]. }
  destruct (lookup_lt_is_Some_2 cs j) as [c' Hc']; [lia|].
  cbn [close_search]. pose proof (get_slot_Ok _ _ _ (rep_lookup _ _ _ _ Hrep Hc')) as Hg.
  assert (Hcond : ((addr1 s j =? addr_of s i d) && negb (tobool (other_ (end2 c')))) ||
    ((addr2 s j =? addr_of s i d) && negb (tobool (other_ (end1 c')))) =
    bool_decide (j = i) && (other_ (ep_of c (peer d)) =? 0)).
  { assert (E : ∀ d', (addr_of s j d' =? addr_of s i d) = bool_decide (j = i ∧ d' = d)).
    { intros d'. apply eq_true_iff_eq. rewrite Z.eqb_eq, bool_decide_eq_true. split.
      - apply addr_of_inj.
      - by intros [-> ->]. }
    change (addr1 s j) with (addr_of s j First). change (addr2 s j) with (addr_of s j Second).
    rewrite !E. unfold tobool. rewrite !negb_involutive. destruct (decide (j = i)) as [-> |Hne].
    - simplify_eq. rewrite (bool_decide_eq_true_2 (i = i)) by done. destruct d; simpl.
      + rewrite bool_decide_eq_true_2, (bool_decide_eq_false_2 (_ ∧ Second = First)) by naive_solver.
        by rewrite orb_false_r.
      + by rewrite bool_decide_eq_false_2, bool_decide_eq_true_2 by naive_solver.
    - rewrite !bool_decide_eq_false_2 by naive_solver. done. }
  destruct (Z.eqb_spec (other_ (ep_of c (peer d))) 0) as [E0|E0].
  - destruct (decide (j = i)) as [-> |Hne].
    + destruct (erase_Ok s cs i c Hrep Hc) as (s' & He & _). exists s'. split; [|done].
      rewrite (bind_Ok _ _ _ _ _ Hg). erewrite bind_Ok by done. erewrite bind_Ok by done.
      rewrite Hcond, bool_decide_eq_true_2 by done. simpl. by rewrite (bind_Ok _ _ _ _ _ He).
    + destruct (IH (S j)) as (s' & Hrun & He); [lia|lia|]. exists s'. split; [|done].
      rewrite (bind_Ok _ _ _ _ _ Hg). erewrite bind_Ok by done. erewrite bind_Ok by done.
      by rewrite Hcond, bool_decide_eq_false_2.
  - rewrite (bind_Ok _ _ _ _ _ Hg). erewrite bind_Ok by done. erewrite bind_Ok by done.
    rewrite Hcond, andb_false_r. apply IH; [lia|by right].
Qed.

(** What [Close] of end [d] of channel [i] does to the channels. *)
Lemma Close_Ok s cs i d c :
  rep s cs → cs !! i = Some c →
  if other_ (ep_of c d) =? 0 then Close (addr_of s i d) s = Ok (false, s)
  else if other_ (ep_of c (peer d)) =? 0 then
    ∃ s', Close (addr_of s i d) s = Ok (true, s') ∧ rep s' (delete i cs) ∧ elements s' = elements s ∧
          (S i = length cs → slots s' !! i = Some (Some (closed c d))) ∧
          ∀ p, p ≠ data_ (end1 c) → p ≠ data_ (end2 c) → bufs s' !! p = bufs s !! p
  else ∃ s', Close (addr_of s i d) s = Ok (false, s') ∧ rep s' (<[i := closed c d]> cs) ∧
             elements s' = elements s ∧ bufs s' = bufs s.
Proof.
  intros Hrep Hc. pose proof (rep_lookup _ _ _ _ Hrep Hc) as Hi. unfold Close, tobool.
  assert (Hlt : (i < length cs)%nat) by by eapply lookup_lt_Some.
  rewrite (bind_Ok _ _ _ _ _ (get_ep_Ok s i d c Hi)), negb_involutive.
  destruct (Z.eqb_spec (other_ (ep_of c d)) 0) as [E|E]; [done|].
  pose proof (update_closed s cs i d c Hrep Hc) as Hrep1.
  set (s1 := update s i d c (set_other (ep_of c d) 0) (bufs s)) in *.
  assert (Hput : put_ep (addr_of s i d) (set_other (ep_of c d) 0) s = Ok (tt, s1))
    by (by rewrite (put_ep_Ok s i d c)).
  assert (Hc1 : <[i := closed c d]> cs !! i = Some (closed c d)) by by apply list_lookup_insert_eq.
  assert (Epeer : ep_of (closed c d) (peer d) = ep_of c (peer d)) by by destruct d.
  pose proof (close_search_Ok s1 _ i d (closed c d) Hrep1 Hc1 (length cs) 0) as Hs.
  rewrite length_insert, Epeer in Hs. specialize (Hs eq_refl ltac:(left; lia)).
  rewrite (bind_Ok _ _ _ _ _ Hput). erewrite bind_Ok by done.
  replace (vsize s1) with (length cs) by (symmetry; apply Hrep).
  destruct (other_ (ep_of c (peer d)) =? 0); [|by exists s1].
  destruct Hs as (s' & Hrun & He). exists s'.
  destruct (erase_Ok s1 _ i (closed c d) Hrep1 Hc1) as (s'' & He' & Hrep' & Hel & Hlast & Hframe).
  rewrite He in He'. simplify_eq. split_and!; try done.
  - by rewrite delete_insert_list in Hrep'.
  - intros El. apply Hlast. by rewrite length_insert.
  - intros p H1 H2. rewrite Hframe; [done|by destruct d..].
Qed.

(** ** The death of a task *)
Definition owner_of (c : Channel) (d : side) : Z :=
  match d with First => owner1 c | Second => owner2 c end.

Definition both_closed (c : Channel) : bool := (other_ (end1 c) =? 0) && (other_ (end2 c) =? 0).

(** The channel with the ends of [owner] closed, and what is left of it. *)
Definition close_ends (owner : Z) (c : Channel) : Channel :=
  let c1 := if owner1 c =? owner then closed c First else c in
  if owner2 c =? owner then closed c1 Second else c1.

Definition after_close (owner : Z) (c : Channel) : option Channel :=
  let c' := close_ends owner c in if both_closed c' then None else Some c'.

Lemma omap_insert_same {A B} (f : A → option B) (l : list A) (i : nat) x y :
  l !! i = Some x → f y = f x → omap f (<[i := y]> l) = omap f l.
Proof.
  revert i. induction l as [|z l IH]; intros [|i] Hi E; simplify_eq/=; [by rewrite E|].
  by rewrite (IH i).
Qed.

Lemma omap_delete_None {A B} (f : A → option B) (l : list A) (i : nat) x :
  l !! i = Some x → f x = None → omap f (delete i l) = omap f l.
Proof.
  revert i. induction l as [|z l IH]; intros [|i] Hi E; simplify_eq/=; [by rewrite E|].
  by rewrite (IH i).
Qed.

Lemma closed_id c d : other_ (ep_of c d) = 0 → closed c d = c.
Proof. destruct c as [[? ? ? ?] [? ? ? ?] ? ?], d; simpl; intros ->; done. Qed.

Lemma close_ends_closed owner c d :
  owner_of c d = owner → close_ends owner (closed c d) = close_ends owner c.
Proof.
  destruct c as [[? ? ? ?] [? ? ? ?] o1 o2], d; simpl; intros <-; unfold close_ends; simpl;
    rewrite Z.eqb_refl; repeat case_match; done.
Qed.

Section CloseOwned.
Variable owner : Z.
(** What every [Close] of an end of the task keeps. *)
Variable P : state → Prop.
Hypothesis HP : ∀ s cs j d c r s', rep s cs → cs !! j = Some c → owner_of c d = owner → P s →
  Close (addr_of s j d) s = Ok (r, s') → P s'.

(** The loop's two conditional [Close] calls, one at a time. *)
Lemma half_close s cs i c d :
  rep s cs → cs !! i = Some c → Forall (λ c, both_closed c = false) cs →
  ∃ r s' cs', (if owner_of c d =? owner then Close (addr_of s i d) else mret false) s = Ok (r, s') ∧
    rep s' cs' ∧ elements s' = elements s ∧ Forall (λ c, both_closed c = false) cs' ∧
    omap (after_close owner) cs' = omap (after_close owner) cs ∧
    ((r = false ∧ ∃ c', cs' = <[i := c']> cs ∧ owner1 c' = owner1 c ∧ owner2 c' = owner2 c ∧
        (owner_of c d = owner → other_ (ep_of c' d) = 0) ∧ ep_of c' (peer d) = ep_of c (peer d)) ∨
     (r = true ∧ cs' = delete i cs ∧ other_ (ep_of c (peer d)) = 0 ∧
        (S i = length cs → slots s' !! i = Some (Some (closed c d))))) ∧ (P s → P s').
Proof.
  intros Hrep Hc Hopen. pose proof (Close_Ok s cs i d c Hrep Hc) as Hclose.
  assert (Hci : both_closed c = false) by (eapply Forall_lookup_1 in Hopen; done).
  destruct (Z.eqb_spec (owner_of c d) owner) as [Ho|Ho].
  2:{ exists false, s, cs. split_and!; try done. left. split; [done|]. exists c.
      by rewrite list_insert_id. }
  destruct (Z.eqb_spec (other_ (ep_of c d)) 0) as [E|E].
  { exists false, s, cs. split_and!; try done. left. split; [done|]. exists c.
    by rewrite list_insert_id. }
  assert (Hcl : both_closed (closed c d) = (other_ (ep_of c (peer d)) =? 0)).
  { unfold both_closed. destruct d; simpl; [done|by rewrite andb_true_r]. }
  assert (Hce : after_close owner (closed c d) = after_close owner c)
    by (unfold after_close; by rewrite close_ends_closed).
  destruct (Z.eqb_spec (other_ (ep_of c (peer d))) 0) as [Ep|Ep]; destruct Hclose as (s' & Hrun & Hrep' & He).
  - exists true, s', (delete i cs). destruct He as (He & Hlast & _). split_and!; try done.
    + by apply Forall_delete.
    + apply (omap_delete_None _ _ _ c Hc). rewrite <- Hce. unfold after_close.
      assert (Hb : both_closed (close_ends owner (closed c d)) = true); [|by rewrite Hb].
      unfold close_ends, both_closed in *. destruct d; simpl in *; rewrite ?Ep in *;
        repeat case_match; simpl; rewrite ?Ep; done.
    + by right.
    + intros HPs. by apply (HP s cs i d c true s').
  - destruct He as [He _]. exists false, s', (<[i := closed c d]> cs). split_and!; try done.
    + by apply Forall_insert.
    + by apply (omap_insert_same _ _ _ c).
    + left. split; [done|]. exists (closed c d). split_and!; try done; by destruct d.
    + intros HPs. by apply (HP s cs i d c false s').
Qed.

(** The body of the loop at slot [i]. *)
Lemma close_owned_body s cs i c (k : bool → M state unit) :
  rep s cs → cs !! i = Some c → Forall (λ c, both_closed c = false) cs →
  ∃ r s' cs',
    (c ← get_slot i;
     p1 ← gets (λ s, addr1 s i);
     r1 ← (if owner1 c =? owner then Close p1 else mret false);
     c ← get_slot i;
     p2 ← gets (λ s, addr2 s i);
     r2 ← (if owner2 c =? owner then Close p2 else mret false);
     k (r1 || r2)) s = k r s' ∧
    rep s' cs' ∧ elements s' = elements s ∧ Forall (λ c, both_closed c = false) cs' ∧
    omap (after_close owner) cs' = omap (after_close owner) cs ∧
    ((r = false ∧ ∃ c', cs' = <[i := c']> cs ∧ close_ends owner c' = c') ∨
     (r = true ∧ (length cs' < length cs)%nat)) ∧ (P s → P s').
Proof.
  intros Hrep Hc Hopen. assert (Hlt : (i < length cs)%nat) by by eapply lookup_lt_Some.
  destruct (half_close s cs i c First Hrep Hc Hopen) as
    (r1 & s1 & cs1 & Hrun1 & Hrep1 & He1 & Hop1 & Hom1 & Hcase1 & HP1).
  erewrite bind_Ok by (apply get_slot_Ok; by eapply rep_lookup). erewrite bind_Ok by done.
  rewrite (bind_Ok _ _ _ _ _ Hrun1).
  destruct Hcase1 as [(-> & c1 & -> & Ho1 & Ho2 & Hd1 & Hp1)|(-> & -> & Hp1 & Hlast)].
  - assert (Hc1 : <[i := c1]> cs !! i = Some c1) by by apply list_lookup_insert_eq.
    destruct (half_close s1 _ i c1 Second Hrep1 Hc1 Hop1) as
      (r2 & s2 & cs2 & Hrun2 & Hrep2 & He2 & Hop2 & Hom2 & Hcase2 & HP2).
    erewrite bind_Ok by (apply get_slot_Ok; by eapply rep_lookup). erewrite bind_Ok by done.
    rewrite (bind_Ok _ _ _ _ _ Hrun2). simpl orb.
    exists r2, s2, cs2. split_and!; [done..|congruence|done|congruence| |by auto].
    destruct Hcase2 as [(-> & c2 & -> & Ho1' & Ho2' & Hd2 & Hp2)|(-> & -> & _)]; [left|right].
    + split; [done|]. exists c2. rewrite list_insert_insert_eq. split; [done|].
      simpl in Hd1, Hd2, Hp1, Hp2. unfold close_ends. rewrite Ho1', Ho1, Ho2', Ho2.
      assert (E1 : (owner1 c =? owner) = true → closed c2 First = c2).
      { intros E%Z.eqb_eq. apply closed_id. simpl. rewrite Hp2. by apply Hd1. }
      assert (E2 : (owner2 c =? owner) = true → closed c2 Second = c2).
      { intros E%Z.eqb_eq. apply closed_id. simpl. apply Hd2. congruence. }
      destruct (owner1 c =? owner), (owner2 c =? owner); rewrite ?E1, ?E2 by done; done.
    + split; [done|]. rewrite length_delete, length_insert by (by eexists). lia.
  - assert (Hlen : length (delete i cs) = (length cs - 1)%nat) by (rewrite length_delete; [lia|by eexists]).
    destruct (decide (S i = length cs)) as [El|El].
    + specialize (Hlast El). rewrite (bind_Ok _ _ _ _ _ (get_slot_Ok _ _ _ Hlast)).
      erewrite bind_Ok by done. simpl in Hp1.
      assert (Hskip : (if owner2 (closed c First) =? owner then Close (addr2 s1 i) else mret false) s1 = Ok (false, s1)).
      { destruct (owner2 (closed c First) =? owner); [|done]. change (addr2 s1 i) with (addr_of s1 i Second). unfold Close.
        rewrite (bind_Ok _ _ _ _ _ (get_ep_Ok s1 i Second _ Hlast)). simpl. by rewrite Hp1. }
      rewrite (bind_Ok _ _ _ _ _ Hskip). exists true, s1, (delete i cs). split_and!; try done.
      right. split; [done|lia].
    + destruct (lookup_lt_is_Some_2 (delete i cs) i) as [c1 Hc1]; [lia|].
      destruct (half_close s1 _ i c1 Second Hrep1 Hc1 Hop1) as
        (r2 & s2 & cs2 & Hrun2 & Hrep2 & He2 & Hop2 & Hom2 & Hcase2 & HP2).
      erewrite bind_Ok by (apply get_slot_Ok; by eapply rep_lookup). erewrite bind_Ok by done.
      rewrite (bind_Ok _ _ _ _ _ Hrun2). simpl orb.
      exists true, s2, cs2. split_and!; [done..|congruence|done|congruence| |by auto].
      right. split; [done|].
      destruct Hcase2 as [(_ & c2 & -> & _)|(_ & -> & _)]; rewrite ?length_insert, ?(length_delete (delete i cs)); try lia.
      by eexists.
Qed.

Lemma omap_done cs :
  Forall (λ c, both_closed c = false) cs → Forall (λ c, close_ends owner c = c) cs →
  omap (after_close owner) cs = cs.
Proof.
  intros Hop Hd. induction cs as [|c cs IH]; [done|].
  apply Forall_cons in Hop as [Hc Hop]. apply Forall_cons in Hd as [Hcd Hd].
  csimpl. unfold after_close at 1. rewrite Hcd, Hc. by rewrite IH.
Qed.

Lemma close_owned_Ok fuel : ∀ s cs i,
  rep s cs → Forall (λ c, both_closed c = false) cs → (i ≤ length cs)%nat →
  Forall (λ c, close_ends owner c = c) (take i cs) →
  (length cs * S (length cs) + (length cs - i) < fuel)%nat →
  ∃ s', close_owned fuel owner i s = Ok (tt, s') ∧ rep s' (omap (after_close owner) cs) ∧
        elements s' = elements s ∧ (P s → P s').
Proof.
  induction fuel as [|fuel IH]; intros s cs i Hrep Hop Hi Hdone Hfuel; [lia|].
  cbn [close_owned]. pose proof Hrep as (Hv & _).
  setoid_rewrite (bind_Ok (gets vsize) _ s (vsize s) s); [|done]. rewrite Hv.
  destruct (Nat.eqb_spec i (length cs)) as [-> |Hne].
  { exists s. rewrite take_ge in Hdone by done. by rewrite omap_done. }
  destruct (lookup_lt_is_Some_2 cs i) as [c Hc]; [lia|].
  destruct (close_owned_body s cs i c (λ r : bool, if r then close_owned fuel owner 0 else close_owned fuel owner (S i)) Hrep Hc Hop) as
    (r & s1 & cs1 & Hrun & Hrep1 & He1 & Hop1 & Hom1 & Hcase & HP1).
  rewrite <- Hom1, <- He1.
  destruct Hcase as [(-> & c' & -> & Hc')|(-> & Hlt)].
  - destruct (IH s1 (<[i := c']> cs) (S i)) as (s' & Hrun' & Hrep' & He' & HP'); try done.
    + rewrite length_insert. lia.
    + rewrite (take_S_r _ _ c') by (apply list_lookup_insert_eq; lia). rewrite take_insert_ge by lia.
      apply Forall_app. split; [done|]. by constructor.
    + rewrite length_insert. lia.
    + exists s'. split_and!; try done; [|by auto]. rewrite <- Hrun'. exact Hrun.
  - destruct (IH s1 cs1 0%nat) as (s' & Hrun' & Hrep' & He' & HP'); try done; [lia|nia|].
    exists s'. split_and!; try done; [|by auto]. rewrite <- Hrun'. exact Hrun.
Qed.

End CloseOwned.

(** * A small example *)
Definition empty : state := mkState 0 0 [] ∅.

(** One channel, created by task 7; the vector's storage is at 0x1000. *)
Definition example_state : state := with_new (mkState 0x1000 0 (replicate 8 None) ∅) 100 200 7.
Definition example_channels : list Channel :=
  [new_channel (mkState 0x1000 0 (replicate 8 None) ∅) 0 100 200 7].

Lemma example_created : Create 0x1000 100 200 7 empty = Ok ((0x1000, 0x1010), example_state).
Proof. reflexivity. Qed.

Lemma example_rep : rep example_state example_channels.
Proof.
  destruct (Create_rep (mkState 0x1000 0 (replicate 8 None) ∅) [] 100 200 7) as [H _]; try done.
  simpl. lia.
Qed.

Lemma example_linked i : (i < length example_channels)%nat → linked example_state example_channels i.
Proof.
  intros Hi. assert (i = 0%nat) as -> by (simpl in Hi; lia). eexists. split; [reflexivity|].
  split_and!; [done|done|]. by intros [].
Qed.

(** ** Creating a channel, and giving one of its ends away *)

(** While the storage of the vector has room, [Create] adds one channel owned by the
    current task, with both ends empty and pointing at each other; the other channels
    keep their bytes and their links. *)
Lemma Create_adds_channel s cs storage d1 d2 current :
  rep s cs → (length cs < length (slots s))%nat → 0 < elements s →
  d1 ≠ 0 → d2 ≠ 0 → d1 ≠ d2 → bufs s !! d1 = None → bufs s !! d2 = None →
  let n := length cs in
  ∃ s' c, Create storage d1 d2 current s = Ok ((addr1 s n, addr2 s n), s') ∧
    rep s' (cs ++ [c]) ∧ linked s' (cs ++ [c]) n ∧ owner1 c = current ∧ owner2 c = current ∧
    (∀ d, waiting s' (cs ++ [c]) n d = []) ∧
    (∀ i d, waiting s' (cs ++ [c]) i d = waiting s cs i d) ∧ elements s' = elements s ∧
    (∀ i, linked s cs i → linked s' (cs ++ [c]) i).
Proof.
  intros Hrep Hlt He H1 H2 Hne Hf1 Hf2 n. pose proof Hrep as (Hv & _).
  destruct (Create_rep s cs d1 d2 current) as [Hrep' Hw]; try done.
  exists (with_new s d1 d2 current), (new_channel s n d1 d2 current). split_and!; try done.
  - rewrite Create_run by (done || lia). by rewrite Hv.
  - exists (new_channel s n d1 d2 current). rewrite lookup_app_r, Nat.sub_diag by done.
    unfold addr1, addr2, addr1. simpl. unfold kChannelSize, kEndpointSize.
    split_and!; [done|lia|lia|]. by intros [].
  - intros d. rewrite Hw. unfold waiting. by rewrite lookup_ge_None_2 by done.
  - intros i (c & Hc & Hd). exists c. split; [|done]. by apply lookup_app_l_Some.
Qed.

(** [TransferOwner] of an end changes its owner and nothing else. *)
Definition given (c : Channel) (d : side) (o : Z) : Channel :=
  match d with
  | First => mkChannel (end1 c) (end2 c) o (owner2 c)
  | Second => mkChannel (end1 c) (end2 c) (owner1 c) o
  end.

Lemma ep_of_given c d o d' : ep_of (given c d o) d' = ep_of c d'.
Proof. by destruct d, d'. Qed.

Lemma transfer_search_Ok s cs i d c o : rep s cs → cs !! i = Some c → ∀ n j, (j ≤ i)%nat → (i < j + n)%nat →
  transfer_search (addr_of s i d) o n j s = Ok (tt, set_slots (<[i := Some (given c d o)]> (slots s)) s).
Proof.
  intros Hrep Hc n. induction n as [|n IH]; intros j Hj Hn; [lia|]. cbn [transfer_search].
  destruct (lookup_lt_is_Some_2 cs j) as [cj Hcj]; [apply lookup_lt_Some in Hc; lia|].
  rewrite (bind_Ok _ _ _ _ _ (get_slot_Ok _ _ _ (rep_lookup _ _ _ _ Hrep Hcj))).
  erewrite bind_Ok by done. erewrite bind_Ok by done.
  destruct (decide (j = i)) as [->|Hne].
  - replace cj with c by congruence. destruct d; cbn [addr_of].
    + by rewrite Z.eqb_refl.
    + rewrite (proj2 (Z.eqb_neq (addr1 s i) (addr2 s i))) by (unfold addr2, kEndpointSize; lia). by rewrite Z.eqb_refl.
  - assert (∀ d', addr_of s j d' ≠ addr_of s i d) as Ha.
    { intros d'. destruct d, d'; simpl; unfold addr2, addr1, kChannelSize, kEndpointSize; lia. }
    rewrite (proj2 (Z.eqb_neq (addr1 s j) _) (Ha First)), (proj2 (Z.eqb_neq (addr2 s j) _) (Ha Second)).
    apply IH; lia.
Qed.

Lemma TransferOwner_Ok s cs i d c o : rep s cs → cs !! i = Some c →
  let s' := set_slots (<[i := Some (given c d o)]> (slots s)) s in
  TransferOwner (addr_of s i d) o s = Ok (tt, s') ∧ rep s' (<[i := given c d o]> cs) ∧
  ∀ j d', waiting s' (<[i := given c d o]> cs) j d' = waiting s cs j d'.
Proof.
  intros Hrep Hc s'. pose proof Hrep as (Hv & Ht & Hoks & Hinj). pose proof (lookup_lt_Some _ _ _ Hc) as Hlt.
  assert (Hep : ∀ j c' d', <[i := given c d o]> cs !! j = Some c' → ∃ c0, cs !! j = Some c0 ∧ ep_of c' d' = ep_of c0 d').
  { intros j c' d' Hj. destruct (decide (i = j)) as [<-|Hne].
    - rewrite list_lookup_insert_eq in Hj by done. injection Hj as <-. exists c. by rewrite ep_of_given.
    - rewrite list_lookup_insert_ne in Hj by done. eauto. }
  split; [|split; [split_and!; [| |split]|]].
  - unfold TransferOwner. erewrite bind_Ok by done. rewrite Hv. apply (transfer_search_Ok s cs); [done|done|lia|lia].
  - simpl. by rewrite length_insert.
  - simpl. rewrite length_insert, take_insert_lt by done. rewrite Ht. by rewrite list_fmap_insert.
  - intros j c' d' Hj. destruct (Hep j c' d' Hj) as (c0 & Hc0 & ->). by apply (Hoks j).
  - intros j1 c1 d1 j2 c2 d2 Hj1 Hj2. destruct (Hep j1 c1 d1 Hj1) as (c1' & H1 & ->). destruct (Hep j2 c2 d2 Hj2) as (c2' & H2 & ->).
    by apply Hinj.
  - intros j d'. unfold waiting. destruct (decide (i = j)) as [<-|Hne].
    + rewrite list_lookup_insert_eq by done. by rewrite Hc, ep_of_given.
    + by rewrite list_lookup_insert_ne.
Qed.

Lemma CloseEndpointsOwnedByTask_Ok s cs owner :
  rep s cs → Forall (λ c, both_closed c = false) cs →
  ∃ s', CloseEndpointsOwnedByTask owner s = Ok (tt, s') ∧ rep s' (omap (after_close owner) cs).
Proof.
  intros Hrep Hop. pose proof Hrep as (Hv & _).
  destruct (close_owned_Ok owner (λ _, True) ltac:(done) (S (length cs) * S (length cs)) s cs 0) as (s' & Hrun & Hrep' & _);
    try done; [lia|lia|].
  exists s'. split; [|done]. unfold CloseEndpointsOwnedByTask. erewrite bind_Ok by done. by rewrite Hv.
Qed.

(** [CloseEndpointsOwnedByTask], called when a task dies, terminates without fault.
    Every end the task owned is closed; a channel is removed, with its buffers, exactly
    when its other end was closed too; the channels of other tasks stay as they are. *)
Lemma CloseEndpointsOwnedByTask_closes s cs owner :
  rep s cs → Forall (λ c, both_closed c = false) cs →
  ∃ s', CloseEndpointsOwnedByTask owner s = Ok (tt, s') ∧
    rep s' (omap (after_close owner) cs) ∧
    (∀ c d, c ∈ omap (after_close owner) cs → owner_of c d = owner → other_ (ep_of c d) = 0) ∧
    (∀ c, c ∈ cs → owner1 c ≠ owner → owner2 c ≠ owner → c ∈ omap (after_close owner) cs).
Proof.
  intros Hrep Hop. destruct (CloseEndpointsOwnedByTask_Ok s cs owner Hrep Hop) as (s' & Hrun & Hrep').
  exists s'. split_and!; try done.
  - intros c d (c0 & Hc0 & E)%list_elem_of_omap Ho. unfold after_close in E.
    destruct (both_closed _); [done|]. injection E as <-.
    destruct c0 as [[? ? ? ?] [? ? ? ?] o1 o2]. unfold close_ends in *. simpl in *.
    destruct d; destruct (Z.eqb_spec o1 owner), (Z.eqb_spec o2 owner); simpl in *; congruence.
  - intros c Hc H1 H2. apply list_elem_of_omap. exists c. split; [done|].
    unfold after_close, close_ends. rewrite (proj2 (Z.eqb_neq _ _) H1), (proj2 (Z.eqb_neq _ _) H2).
    rewrite Forall_forall in Hop. by rewrite (Hop c Hc).
Qed.

(** * Properties *)

(** Everything that happens to the channels, seen from end [d] of channel [i]: [step i d s
    sent got s'] leads from [s] to [s'], sends [sent] at that end and receives [got] at the
    other one.  A read or a write at any other end, a new channel while the vector has room,
    a new owner of any end, closing any other end and the death of a task are steps
    that send and receive nothing.  Three things are left out: the sending end is not closed,
    no channel in front of [i] is removed, and nothing is written at an end that points out of the
    vector, as one behind a channel that was removed may do. *)
Inductive step (i : nat) (d : side) (s : state) : list Z → list Z → state → Prop :=
  | step_send cs bs nd s' :
      rep s cs → nd ≠ 0 → bufs s !! nd = None →
      Z.of_nat (length (waiting s cs i (peer d))) + Z.of_nat (length bs) < 2 ^ 32 →
      Write nd (addr_of s i d) bs s = Ok (tt, s') → step i d s bs [] s'
  | step_receive size nd out s' :
      0 ≤ size → nd ≠ 0 → bufs s !! nd = None →
      Read nd (addr_of s i (peer d)) size s = Ok (inr out, s') → step i d s [] out s'
  | step_too_short size nd n s' :
      0 ≤ size → nd ≠ 0 → bufs s !! nd = None →
      Read nd (addr_of s i (peer d)) size s = Ok (inl n, s') → step i d s [] [] s'
  | step_other_write cs j d' c k d'' bs nd s' :
      rep s cs → cs !! j = Some c → (j, d') ≠ (i, d) → nd ≠ 0 → bufs s !! nd = None →
      (other_ (ep_of c d') = 0 ∨
       other_ (ep_of c d') = addr_of s k d'' ∧ (k < length cs)%nat ∧
       Z.of_nat (length (waiting s cs k d'')) + Z.of_nat (length bs) < 2 ^ 32) →
      Write nd (addr_of s j d') bs s = Ok (tt, s') → step i d s [] [] s'
  | step_other_read cs j d' size nd r s' :
      rep s cs → (j < length cs)%nat → (j, d') ≠ (i, peer d) → 0 ≤ size → nd ≠ 0 → bufs s !! nd = None →
      Read nd (addr_of s j d') size s = Ok (r, s') → step i d s [] [] s'
  | step_create cs storage d1 d2 current r s' :
      rep s cs → (length cs < length (slots s))%nat → d1 ≠ 0 → d2 ≠ 0 → d1 ≠ d2 → bufs s !! d1 = None → bufs s !! d2 = None →
      Create storage d1 d2 current s = Ok (r, s') → step i d s [] [] s'
  | step_transfer cs j d' o s' :
      rep s cs → (j < length cs)%nat → TransferOwner (addr_of s j d') o s = Ok (tt, s') → step i d s [] [] s'
  | step_close cs j d' c r s' :
      rep s cs → cs !! j = Some c → (j, d') ≠ (i, d) →
      ((j < i)%nat → other_ (ep_of c (peer d')) ≠ 0) →
      Close (addr_of s j d') s = Ok (r, s') → step i d s [] [] s'
  | step_task_ends cs owner s' :
      rep s cs → (∀ c, cs !! i = Some c → owner_of c d ≠ owner) →
      Forall (λ c, is_Some (after_close owner c)) (take i cs) →
      CloseEndpointsOwnedByTask owner s = Ok (tt, s') → step i d s [] [] s'.

Inductive run (i : nat) (d : side) : state → list Z → list Z → state → Prop :=
  | run_done s : run i d s [] [] s
  | run_step s sent got s1 sent' got' s2 :
      step i d s sent got s1 → run i d s1 sent' got' s2 → run i d s (sent ++ sent') (got ++ got') s2.

(** The sending end is open and points at the receiving one, and no other end does. *)
Definition ready (i : nat) (d : side) (s : state) (cs : list Channel) : Prop :=
  rep s cs ∧ 0 < elements s ∧ Forall (λ c, both_closed c = false) cs ∧
  (∃ c, cs !! i = Some c ∧ other_ (ep_of c d) = addr_of s i (peer d)) ∧
  ∀ j c d', cs !! j = Some c → other_ (ep_of c d') = addr_of s i (peer d) → (j, d') = (i, d).

Lemma rep_unique s cs cs' : rep s cs → rep s cs' → cs = cs'.
Proof.
  intros (Hv & Ht & _) (Hv' & Ht' & _). apply (inj (fmap Some)). rewrite <- Ht, <- Ht'. congruence.
Qed.

Lemma addr_pos s i d : 0 < elements s → addr_of s i d ≠ 0.
Proof. intros. destruct d; simpl; unfold addr2, addr1, kChannelSize, kEndpointSize; lia. Qed.

Lemma addr_of_elements s s' i d : elements s' = elements s → addr_of s' i d = addr_of s i d.
Proof. intros E. unfold addr_of, addr2, addr1. by rewrite E. Qed.

(** The channels after a step that neither opens nor closes an end of the channels it keeps. *)
Lemma ready_kept i d s cs s' cs' :
  ready i d s cs → rep s' cs' → elements s' = elements s → Forall (λ c, both_closed c = false) cs' →
  (∀ c, cs !! i = Some c → ∃ c', cs' !! i = Some c' ∧ other_ (ep_of c' d) = other_ (ep_of c d)) →
  (∀ j c' d', cs' !! j = Some c' → other_ (ep_of c' d') = addr_of s i (peer d) →
     ∃ k c, cs !! k = Some c ∧ other_ (ep_of c d') = addr_of s i (peer d) ∧ ((k, d') = (i, d) → j = i)) →
  ready i d s' cs'.
Proof.
  intros (Hrep & Hel & _ & (c & Hc & Ho) & Hone) Hrep' He Hop Hi Hback. split_and!; [done|lia|done|..].
  - destruct (Hi c Hc) as (c' & Hc' & E). exists c'. by rewrite E, (addr_of_elements s).
  - intros j c' d' Hj E. rewrite (addr_of_elements s) in E by done. destruct (Hback j c' d' Hj E) as (k & c0 & Hk & E0 & Hji).
    pose proof (Hone k c0 d' Hk E0) as Ek. rewrite (Hji Ek). by simplify_eq.
Qed.

Lemma both_closed_links cs cs' : links cs' = links cs → Forall (λ c, both_closed c = false) cs →
  Forall (λ c, both_closed c = false) cs'.
Proof.
  intros Hl H. apply Forall_lookup. intros j c' Hj. destruct (links_lookup cs' cs j c' (eq_sym Hl) Hj) as (c & Hc & _ & _ & Ho).
  rewrite Forall_lookup in H. rewrite <- (H j c Hc). unfold both_closed.
  pose proof (Ho First) as H1. pose proof (Ho Second) as H2. simpl in H1, H2. by rewrite H1, H2.
Qed.

Lemma ready_links i d s cs s' cs' :
  ready i d s cs → rep s' cs' → elements s' = elements s → links cs' = links cs → ready i d s' cs'.
Proof.
  intros Hr Hrep' He Hl. apply (ready_kept i d s cs); try done.
  - eapply both_closed_links; [done|apply Hr].
  - intros c Hc. destruct (links_lookup _ _ _ _ Hl Hc) as (c' & Hc' & _ & _ & Ho). by exists c'.
  - intros j c' d' Hj E. destruct (links_lookup cs' cs j c' (eq_sym Hl) Hj) as (c & Hc & _ & _ & Ho).
    exists j, c. rewrite Ho. split_and!; [done|done|]. by intros [= -> _].
Qed.

(** What a step keeps, when nothing is sent or received. *)
Definition quiet (i : nat) (d : side) (s : state) (cs : list Channel) (s' : state) : Prop :=
  ∃ cs', ready i d s' cs' ∧ elements s' = elements s ∧ waiting s' cs' i (peer d) = waiting s cs i (peer d).

Lemma quiet_id i d s cs : ready i d s cs → quiet i d s cs s.
Proof. by exists cs. Qed.

Lemma both_closed_new s n d1 d2 o : 0 < elements s → both_closed (new_channel s n d1 d2 o) = false.
Proof.
  intros H. pose proof (addr_pos s n Second H) as H2. unfold both_closed. simpl in *. by rewrite (proj2 (Z.eqb_neq _ _) H2).
Qed.

Lemma create_quiet i d s cs storage d1 d2 current r s' :
  ready i d s cs → (length cs < length (slots s))%nat → d1 ≠ 0 → d2 ≠ 0 → d1 ≠ d2 → bufs s !! d1 = None → bufs s !! d2 = None →
  Create storage d1 d2 current s = Ok (r, s') → quiet i d s cs s'.
Proof.
  intros Hr Hlt H1 H2 Hne Hf1 Hf2 Hrun. pose proof Hr as (Hrep & Hel & Hop & (c & Hc & _) & _). pose proof Hrep as (Hv & _).
  pose proof (lookup_lt_Some _ _ _ Hc) as Hi. rewrite Create_run in Hrun by (done || lia). simplify_eq.
  destruct (Create_rep s cs d1 d2 current) as [Hrep' Hw]; try done.
  exists (cs ++ [new_channel s (length cs) d1 d2 current]). split_and!; [|done|apply Hw].
  apply (ready_kept i d s cs); try done.
  - apply Forall_app. split; [done|]. constructor; [by apply both_closed_new|constructor].
  - intros c0 Hc0. exists c0. split; [|done]. by apply lookup_app_l_Some.
  - intros j c' d' [[Hj _]|[-> ->]]%lookup_snoc_cases E; [by exists j, c'; split_and!; [| |intros [= -> _]]|].
    exfalso. assert (E' : addr_of s (length cs) (peer d') = addr_of s i (peer d)) by (by destruct d').
    apply addr_of_inj in E' as [E1 _]. lia.
Qed.

Lemma transfer_quiet i d s cs j d' o s' :
  ready i d s cs → (j < length cs)%nat → TransferOwner (addr_of s j d') o s = Ok (tt, s') → quiet i d s cs s'.
Proof.
  intros Hr Hj Hrun. destruct (lookup_lt_is_Some_2 cs j Hj) as [c Hc].
  destruct (TransferOwner_Ok s cs j d' c o (proj1 Hr) Hc) as (Hrun' & Hrep' & Hw). rewrite Hrun in Hrun'. simplify_eq.
  exists (<[j := given c d' o]> cs). split_and!; [|done|apply Hw]. destruct Hr as (Hrep & Hel & Hop & Hs & Hone).
  apply (ready_kept i d s cs); try done.
  - apply Forall_insert; [done|]. rewrite Forall_lookup in Hop. rewrite <- (Hop j c Hc). by destruct d'.
  - intros c0 Hc0. destruct (decide (j = i)) as [->|Hne].
    + exists (given c d' o). rewrite list_lookup_insert_eq by done. rewrite ep_of_given. by simplify_eq.
    + exists c0. by rewrite list_lookup_insert_ne.
  - intros k c' d0 Hk E. destruct (decide (j = k)) as [<-|Hne].
    + rewrite list_lookup_insert_eq in Hk by done. simplify_eq. rewrite ep_of_given in E. exists j, c. by split_and!; [| |intros [= -> _]].
    + rewrite list_lookup_insert_ne in Hk by done. exists k, c'. by split_and!; [| |intros [= -> _]].
Qed.

Lemma contents_frame m m' e : ep_ok m e → (data_ e ≠ 0 → m' !! data_ e = m !! data_ e) → contents m' e = contents m e.
Proof.
  intros [Hs Hb] H. unfold contents. destruct (decide (data_ e = 0)) as [E|E]; [|by rewrite H].
  destruct Hb as [[_ Hc]|[? _]]; [|done]. by replace (Z.to_nat (size_ e)) with 0%nat by lia.
Qed.

(** The bytes of an earlier channel stay when a channel is removed. *)
Lemma waiting_removed s s' cs i j c d : rep s cs → cs !! j = Some c → (i < j)%nat →
  (∀ p, p ≠ data_ (end1 c) → p ≠ data_ (end2 c) → bufs s' !! p = bufs s !! p) →
  waiting s' (delete j cs) i d = waiting s cs i d.
Proof.
  intros (_ & _ & Hoks & Hinj) Hj Hlt Hframe. unfold waiting. rewrite list_lookup_delete_lt by done.
  destruct (cs !! i) as [ci|] eqn:Hi; [|done]. apply contents_frame; [by apply (Hoks i)|]. intros H0.
  apply Hframe; intros E.
  - destruct (Hinj i ci d j c First Hi Hj E H0). lia.
  - destruct (Hinj i ci d j c Second Hi Hj E H0). lia.
Qed.

Lemma close_quiet i d s cs j d' c r s' :
  ready i d s cs → cs !! j = Some c → (j, d') ≠ (i, d) → ((j < i)%nat → other_ (ep_of c (peer d')) ≠ 0) →
  Close (addr_of s j d') s = Ok (r, s') → quiet i d s cs s'.
Proof.
  intros Hr Hj Hne Hstay Hrun. pose proof Hr as (Hrep & Hel & Hop & (ci & Hci & Ho) & Hone).
  pose proof (Close_Ok s cs j d' c Hrep Hj) as H. destruct (Z.eqb_spec (other_ (ep_of c d')) 0) as [E|E].
  { rewrite Hrun in H. simplify_eq. by apply quiet_id. }
  destruct (Z.eqb_spec (other_ (ep_of c (peer d'))) 0) as [Ep|Ep].
  - destruct H as (s1 & Hrun' & Hrep' & He & _ & Hframe). rewrite Hrun in Hrun'. simplify_eq.
    assert (Hij : (i < j)%nat).
    { destruct (Nat.lt_trichotomy j i) as [?|[->|?]]; [by destruct Hstay| |done]. simplify_eq.
      pose proof (addr_pos s i (peer d) Hel). destruct d, d'; simpl in *; congruence. }
    exists (delete j cs). split_and!; [|done|by apply (waiting_removed s s1 cs i j c)].
    apply (ready_kept i d s cs); try done.
    + by apply Forall_delete.
    + intros c0 Hc0. exists c0. by rewrite list_lookup_delete_lt.
    + intros k c' d0 (k' & Hk & Hk' & Ek)%lookup_delete_cases E0. exists k', c'. split_and!; [done|done|].
      intros [= -> _]. case_decide; lia.
  - destruct H as (s1 & Hrun' & Hrep' & He & Hb). rewrite Hrun in Hrun'. simplify_eq.
    pose proof (lookup_lt_Some _ _ _ Hj) as Hlt.
    exists (<[j := closed c d']> cs). split_and!; [|done|by apply waiting_closed].
    apply (ready_kept i d s cs); try done.
    + apply Forall_insert; [done|]. unfold both_closed. pose proof (proj2 (Z.eqb_neq _ _) Ep) as Ep'.
      destruct d'; simpl in *; rewrite Ep'; [done|by rewrite andb_false_l].
    + intros c0 Hc0. destruct (decide (j = i)) as [->|Hji]; [|exists c0; by rewrite list_lookup_insert_ne].
      exists (closed c d'). rewrite list_lookup_insert_eq by done. simplify_eq. destruct d, d'; simpl; done.
    + intros k c' d0 Hk E0. destruct (decide (j = k)) as [<-|Hjk].
      * rewrite list_lookup_insert_eq in Hk by done. simplify_eq. exists j, c. split_and!; [done| |by intros [= -> _]].
        rewrite <- E0. pose proof (addr_pos s i (peer d) Hel). unfold closed in *. rewrite ep_of_set in *. by case_decide.
      * rewrite list_lookup_insert_ne in Hk by done. exists k, c'. by split_and!; [| |intros [= -> _]].
Qed.

(** The death of [owner] closes neither the sending end nor the last end of an earlier channel. *)
Definition survives (owner : Z) (i : nat) (d : side) (cs : list Channel) : Prop :=
  (∀ c, cs !! i = Some c → owner_of c d ≠ owner) ∧ Forall (λ c, is_Some (after_close owner c)) (take i cs).

Lemma survives_stays owner i d cs j c d' : survives owner i d cs → cs !! j = Some c → owner_of c d' = owner →
  (j, d') ≠ (i, d) ∧ ((j < i)%nat → other_ (ep_of c (peer d')) ≠ 0).
Proof.
  intros [Hi Ht] Hj Ho. split; [intros [= -> ->]; by apply (Hi c)|]. intros Hlt E.
  rewrite Forall_lookup in Ht. destruct (Ht j c) as [c' Hc']; [by rewrite lookup_take_lt|].
  unfold after_close in Hc'. assert (Hb : both_closed (close_ends owner c) = true); [|by rewrite Hb in Hc'].
  unfold close_ends, both_closed. destruct d'; simpl in *; rewrite Ho, Z.eqb_refl; repeat case_match; simpl; rewrite ?E; done.
Qed.

Lemma survives_insert owner i d cs j c d' : survives owner i d cs → cs !! j = Some c → owner_of c d' = owner →
  survives owner i d (<[j := closed c d']> cs).
Proof.
  intros [Hi Ht] Hj Ho. pose proof (lookup_lt_Some _ _ _ Hj) as Hlt. split.
  - intros c0 H0. destruct (decide (j = i)) as [->|Hne]; [|rewrite list_lookup_insert_ne in H0 by done; by apply Hi].
    rewrite list_lookup_insert_eq in H0 by done. simplify_eq. pose proof (Hi c Hj). by destruct d, d'.
  - destruct (decide (j < i)%nat) as [Hji|Hji]; [|by rewrite take_insert_ge by lia]. rewrite take_insert_lt by done.
    apply Forall_insert; [done|]. rewrite Forall_lookup in Ht. unfold after_close. rewrite close_ends_closed by done.
    apply (Ht j). by rewrite lookup_take_lt.
Qed.

Lemma close_survives owner i d s cs j c d' r s' : ready i d s cs → survives owner i d cs →
  cs !! j = Some c → owner_of c d' = owner → Close (addr_of s j d') s = Ok (r, s') →
  ∃ cs', ready i d s' cs' ∧ elements s' = elements s ∧ waiting s' cs' i (peer d) = waiting s cs i (peer d) ∧ survives owner i d cs'.
Proof.
  intros Hr Hs Hj Ho Hrun. destruct (survives_stays owner i d cs j c d' Hs Hj Ho) as [Hne Hstay].
  destruct (close_quiet i d s cs j d' c r s' Hr Hj Hne Hstay Hrun) as (cs' & Hr' & He & Hw). exists cs'. split_and!; [done..|].
  pose proof Hr as (Hrep & Hel & _ & (ci & Hci & Hoi) & _). pose proof (Close_Ok s cs j d' c Hrep Hj) as H.
  destruct (_ =? 0) eqn:E; [rewrite Hrun in H; simplify_eq; by rewrite (rep_unique _ _ _ (proj1 Hr') Hrep)|].
  destruct (Z.eqb_spec (other_ (ep_of c (peer d'))) 0) as [Ep|Ep]; destruct H as (s1 & Hrun' & Hrep' & _);
    rewrite Hrun in Hrun'; simplify_eq; rewrite (rep_unique _ _ _ (proj1 Hr') Hrep'); [|by apply survives_insert].
  assert (Hij : (i < j)%nat).
  { destruct (Nat.lt_trichotomy j i) as [?|[->|?]]; [by destruct Hstay| |done]. simplify_eq.
    pose proof (addr_pos s i (peer d) Hel). destruct d, d'; simpl in *; congruence. }
  destruct Hs as [Hi Ht]. split; [intros c0; rewrite list_lookup_delete_lt by done; apply Hi|].
  rewrite delete_take_drop, take_app_le, take_take, Nat.min_l by (rewrite ?length_take; apply lookup_lt_Some in Hj; lia). done.
Qed.

Lemma task_ends_quiet i d s cs owner s' :
  ready i d s cs → survives owner i d cs → CloseEndpointsOwnedByTask owner s = Ok (tt, s') → quiet i d s cs s'.
Proof.
  intros Hr Hs Hrun. pose proof Hr as (Hrep & _ & Hop & _). pose proof Hrep as (Hv & _).
  set (P := λ s1, ∃ cs1, ready i d s1 cs1 ∧ elements s1 = elements s ∧
    waiting s1 cs1 i (peer d) = waiting s cs i (peer d) ∧ survives owner i d cs1).
  assert (HP : ∀ s0 cs0 j d0 c r s1, rep s0 cs0 → cs0 !! j = Some c → owner_of c d0 = owner → P s0 →
    Close (addr_of s0 j d0) s0 = Ok (r, s1) → P s1).
  { intros s0 cs0 j d0 c r s1 Hrep0 Hj Ho (cs1 & Hr1 & He1 & Hw1 & Hs1) Hc.
    rewrite (rep_unique _ _ _ Hrep0 (proj1 Hr1)) in Hj.
    destruct (close_survives owner i d s0 cs1 j c d0 r s1 Hr1 Hs1 Hj Ho Hc) as (cs2 & Hr2 & He2 & Hw2 & Hs2).
    exists cs2. split_and!; [done|congruence|congruence|exact Hs2]. }
  destruct (close_owned_Ok owner P HP (S (length cs) * S (length cs)) s cs 0) as (s1 & Hrun' & _ & _ & HP');
    try done; [lia|lia|].
  unfold CloseEndpointsOwnedByTask in Hrun. erewrite bind_Ok in Hrun by done. rewrite Hv, Hrun' in Hrun. simplify_eq.
  destruct HP' as (cs1 & Hr1 & He1 & Hw1 & _); [by exists cs|]. by exists cs1.
Qed.

Lemma read_step i d s cs j d' size nd r s' :
  ready i d s cs → (j < length cs)%nat → 0 ≤ size → nd ≠ 0 → bufs s !! nd = None →
  Read nd (addr_of s j d') size s = Ok (r, s') →
  ∃ cs', ready i d s' cs' ∧ elements s' = elements s ∧
    waiting s cs j d' = match r with inr out => out | inl _ => [] end ++ waiting s' cs' j d' ∧
    ∀ k d0, (k, d0) ≠ (j, d') → waiting s' cs' k d0 = waiting s cs k d0.
Proof.
  intros Hr Hj H0 Hnd Hfr Hrun. destruct (lookup_lt_is_Some_2 cs j Hj) as [c Hc].
  pose proof (Read_Ok s cs j d' c nd size (proj1 Hr) Hc Hnd Hfr H0) as H. destruct (_ <=? _).
  - destruct H as (s1 & cs1 & Hrun' & Hrep1 & Hl & _ & He & Hw & Hrest). rewrite Hrun in Hrun'. simplify_eq.
    exists cs1. split_and!; [by apply (ready_links i d s cs)|done| |done]. by rewrite Hw, take_drop.
  - rewrite Hrun in H. simplify_eq. by exists cs.
Qed.

Lemma write_step i d s cs j d' c k d'' bs nd s' :
  ready i d s cs → cs !! j = Some c → other_ (ep_of c d') = addr_of s k d'' → (k < length cs)%nat →
  nd ≠ 0 → bufs s !! nd = None → Z.of_nat (length (waiting s cs k d'')) + Z.of_nat (length bs) < 2 ^ 32 →
  Write nd (addr_of s j d') bs s = Ok (tt, s') →
  ∃ cs', ready i d s' cs' ∧ elements s' = elements s ∧ waiting s' cs' k d'' = waiting s cs k d'' ++ bs ∧
    ∀ j0 d0, (j0, d0) ≠ (k, d'') → waiting s' cs' j0 d0 = waiting s cs j0 d0.
Proof.
  intros Hr Hj Ho Hk Hnd Hfr Hlen Hrun. pose proof Hr as (Hrep & Hel & _).
  destruct (Write_to s cs j d' c k d'' nd bs Hrep Hj Ho (addr_pos s k d'' Hel) Hk Hnd Hfr Hlen) as
    (s1 & cs1 & Hrun' & Hrep1 & Hl & _ & He & Hw & Hrest). rewrite Hrun in Hrun'. simplify_eq.
  exists cs1. split_and!; [by apply (ready_links i d s cs)|done|done|done].
Qed.

(** One step: what was waiting and what is sent is what is received and what waits then. *)
Lemma step_fifo i d s cs sent got s' : ready i d s cs → step i d s sent got s' →
  ∃ cs', ready i d s' cs' ∧ elements s' = elements s ∧
    waiting s cs i (peer d) ++ sent = got ++ waiting s' cs' i (peer d).
Proof.
  intros Hr Hstep. pose proof Hr as (Hrep & Hel & Hop & (ci & Hci & Hoi) & Hone).
  pose proof (lookup_lt_Some _ _ _ Hci) as Hi.
  assert (Hq : quiet i d s cs s' → ∃ cs', ready i d s' cs' ∧ elements s' = elements s ∧
    waiting s cs i (peer d) ++ [] = [] ++ waiting s' cs' i (peer d)).
  { intros (cs' & Hr' & He & Hw). exists cs'. by rewrite app_nil_r. }
  destruct Hstep as [cs0 bs nd s' Hrep0 Hnd Hfr Hlen Hw|size nd out s' H0 Hnd Hfr Hw|size nd n s' H0 Hnd Hfr Hw
    |cs0 j d' c k d'' bs nd s' Hrep0 Hj Hne Hnd Hfr Hcase Hw|cs0 j d' size nd r s' Hrep0 Hj Hne H0 Hnd Hfr Hw
    |cs0 storage d1 d2 current r s' Hrep0 Hlt H1 H2 Hne Hf1 Hf2 Hw|cs0 j d' o s' Hrep0 Hj Hw
    |cs0 j d' c r s' Hrep0 Hj Hne Hst Hw|cs0 owner s' Hrep0 Ho Ht Hw];
    try (rewrite (rep_unique _ _ _ Hrep0 Hrep) in *).
  - destruct (write_step i d s cs i d ci i (peer d) bs nd s') as (cs' & Hr' & He & Hw' & _); try done.
    exists cs'. by rewrite Hw'.
  - destruct (read_step i d s cs i (peer d) size nd _ s' Hr Hi H0 Hnd Hfr Hw) as (cs' & Hr' & He & Hw' & _).
    exists cs'. by rewrite app_nil_r, Hw'.
  - destruct (read_step i d s cs i (peer d) size nd _ s' Hr Hi H0 Hnd Hfr Hw) as (cs' & Hr' & He & Hw' & _).
    exists cs'. by rewrite app_nil_r, Hw'.
  - destruct Hcase as [E|(E & Hk & Hlen)].
    + apply Hq. assert (s' = s) as ->; [|by apply quiet_id]. unfold Write in Hw.
      rewrite (bind_Ok _ _ _ _ _ (get_ep_Ok s j d' c (rep_lookup _ _ _ _ Hrep Hj))), E in Hw. by injection Hw.
    + destruct (write_step i d s cs j d' c k d'' bs nd s') as (cs' & Hr' & He & _ & Hrest); try done.
      apply Hq. exists cs'. split_and!; [done|done|]. apply Hrest. intros [= <- <-]. by destruct Hne, (Hone j c d' Hj E).
  - destruct (read_step i d s cs j d' size nd r s' Hr Hj H0 Hnd Hfr Hw) as (cs' & Hr' & He & _ & Hrest).
    apply Hq. exists cs'. split_and!; [done|done|]. by apply Hrest.
  - apply Hq. by apply (create_quiet i d s cs storage d1 d2 current r).
  - apply Hq. by apply (transfer_quiet i d s cs j d' o).
  - apply Hq. by apply (close_quiet i d s cs j d' c r).
  - apply Hq. by apply (task_ends_quiet i d s cs owner).
Qed.

(** C1: a channel delivers the bytes in the order they were sent, none lost, repeated
    or altered: what waited at the receiving end followed by what was sent is what was
    received followed by what still waits, through any sequence of sends and receives
    at the channel and of writes, reads, creations, transfers, closings and deaths of tasks
    elsewhere, as long as the vector has room for the channels that are created, the sending end
    stays open, no earlier channel is removed and every write goes to an end in the vector.
    The two handles stay good: at the end the sender's still sends and the receiver's gives the bytes
    that wait, or their number when it asks for more. *)
Theorem channel_fifo i d s cs sent got s' :
  ready i d s cs → run i d s sent got s' →
  ∃ cs', ready i d s' cs' ∧ elements s' = elements s ∧
    let w := waiting s' cs' i (peer d) in
    waiting s cs i (peer d) ++ sent = got ++ w ∧
    ∀ nd, nd ≠ 0 → bufs s' !! nd = None →
      (∀ bs, Z.of_nat (length w) + Z.of_nat (length bs) < 2 ^ 32 →
         ∃ s'', Write nd (addr_of s i d) bs s' = Ok (tt, s'')) ∧
      (∀ size, 0 ≤ size →
         ∃ s'', Read nd (addr_of s i (peer d)) size s' =
           Ok (if size <=? Z.of_nat (length w) then inr (take (Z.to_nat size) w) else inl (Z.of_nat (length w)), s'')).
Proof.
  intros Hr Hrun.
  assert (∃ cs', ready i d s' cs' ∧ elements s' = elements s ∧
    waiting s cs i (peer d) ++ sent = got ++ waiting s' cs' i (peer d)) as (cs' & Hr' & He & Hw).
  { revert cs Hr. induction Hrun as [s|s sent got s1 sent' got' s2 Hst _ IH]; intros cs Hr.
    - exists cs. by rewrite app_nil_r.
    - destruct (step_fifo i d s cs sent got s1 Hr Hst) as (cs1 & Hr1 & He1 & Hw1).
      destruct (IH cs1 Hr1) as (cs2 & Hr2 & He2 & Hw2). exists cs2. split_and!; [done|congruence|].
      by rewrite app_assoc, Hw1, <- !app_assoc, Hw2. }
  exists cs'. split; [done|]. split; [done|]. intros w. split; [done|]. intros nd Hnd Hfr.
  destruct Hr' as (Hrep & Hel & _ & (c & Hc & Ho) & _). rewrite <- !(addr_of_elements s s') by done. split.
  - intros bs Hb. destruct (Write_to s' cs' i d c i (peer d) nd bs Hrep Hc Ho) as (s'' & _ & Hrun' & _); try done.
    + by apply addr_pos.
    + by eapply lookup_lt_Some.
    + by exists s''.
  - intros size H0. pose proof (Read_Ok s' cs' i (peer d) c nd size Hrep Hc Hnd Hfr H0) as H. fold w in H.
    destruct (size <=? _); [destruct H as (s'' & _ & H & _)|]; eauto.
Qed.

Definition state_of {A} (r : result (A * state)) : state :=
  match r with Ok (_, s) => s | Fault _ => empty end.

Lemma example_ready : ready 0 First example_state example_channels.
Proof.
  split_and!; [apply example_rep|done|by repeat constructor|eexists; split; reflexivity|].
  intros [|j] c d' Hj E; [|done]. destruct d'; [done|]. vm_compute in Hj. injection Hj as <-. by vm_compute in E.
Qed.

(** Between a send and a receive a second channel is created, an end of it is given away, and the
    task that owns all the ends but one dies. *)
Lemma channel_fifo_witness :
  ∃ s' cs', run 0 First example_state [1; 2; 3] [1; 2] s' ∧ ready 0 First s' cs' ∧
            waiting example_state example_channels 0 Second ++ [1; 2; 3] =
            [1; 2] ++ waiting s' cs' 0 Second.
Proof.
  set (s1 := state_of (Write 300 0x1000 [1; 2; 3] example_state)).
  set (s2 := state_of (Create 0x2000 500 600 8 s1)).
  set (s3 := state_of (TransferOwner 0x1038 9 s2)).
  set (s4 := state_of (CloseEndpointsOwnedByTask 8 s3)).
  set (s5 := state_of (Close 0x1038 s4)).
  set (s6 := state_of (Read 400 0x1010 2 s5)).
  assert (Hs1 : step 0 First example_state [1; 2; 3] [] s1).
  { apply (step_send 0 First example_state example_channels [1; 2; 3] 300 s1);
      [apply example_rep|done|reflexivity|vm_compute; reflexivity|vm_compute; reflexivity]. }
  destruct (step_fifo 0 First example_state example_channels _ _ s1 example_ready Hs1) as (cs1 & Hr1 & _).
  assert (E1 : length cs1 = 1%nat) by (transitivity (vsize s1); [symmetry; apply Hr1|vm_compute; reflexivity]).
  assert (Hs2 : step 0 First s1 [] [] s2).
  { apply (step_create 0 First s1 cs1 0x2000 500 600 8 (0x1028, 0x1038) s2);
      [apply Hr1|rewrite E1; vm_compute; lia|done|done|done|vm_compute; reflexivity..]. }
  destruct (step_fifo 0 First s1 cs1 _ _ s2 Hr1 Hs2) as (cs2 & Hr2 & _).
  assert (E2 : length cs2 = 2%nat) by (transitivity (vsize s2); [symmetry; apply Hr2|vm_compute; reflexivity]).
  assert (Hs3 : step 0 First s2 [] [] s3).
  { apply (step_transfer 0 First s2 cs2 1 Second 9 s3); [apply Hr2|lia|vm_compute; reflexivity]. }
  destruct (step_fifo 0 First s2 cs2 _ _ s3 Hr2 Hs3) as (cs3 & Hr3 & _).
  assert (E3 : Some <$> cs3 = take 2 (slots s3)).
  { destruct Hr3 as ((Hv & Ht & _) & _). rewrite <- Ht, <- Hv. reflexivity. }
  assert (Hs4 : step 0 First s3 [] [] s4).
  { apply (step_task_ends 0 First s3 cs3 8 s4); [apply Hr3| |constructor|vm_compute; reflexivity].
    intros c Hc. apply (f_equal (lookup 0%nat)) in E3. rewrite list_lookup_fmap, Hc in E3. vm_compute in E3.
    injection E3 as ->. done. }
  destruct (step_fifo 0 First s3 cs3 _ _ s4 Hr3 Hs4) as (cs4 & Hr4 & _).
  assert (E4 : length cs4 = 2%nat) by (transitivity (vsize s4); [symmetry; apply Hr4|vm_compute; reflexivity]).
  destruct (lookup_lt_is_Some_2 cs4 1) as [c Hc]; [lia|].
  assert (Hs5 : step 0 First s4 [] [] s5).
  { apply (step_close 0 First s4 cs4 1 Second c true s5); [apply Hr4|exact Hc|done|lia|vm_compute; reflexivity]. }
  assert (Hs6 : step 0 First s5 [] [1; 2] s6).
  { apply (step_receive 0 First s5 2 400 [1; 2] s6); [done|done|vm_compute; reflexivity|vm_compute; reflexivity]. }
  assert (Hrun : run 0 First example_state [1; 2; 3] [1; 2] s6).
  { exact (run_step _ _ _ _ _ _ _ _ _ Hs1 (run_step _ _ _ _ _ _ _ _ _ Hs2 (run_step _ _ _ _ _ _ _ _ _ Hs3
      (run_step _ _ _ _ _ _ _ _ _ Hs4 (run_step _ _ _ _ _ _ _ _ _ Hs5 (run_step _ _ _ _ _ _ _ _ _ Hs6 (run_done _ _ s6))))))). }
  destruct (channel_fifo 0 First example_state example_channels [1; 2; 3] [1; 2] s6 example_ready Hrun) as (cs' & Hr' & _ & E & _).
  exists s6, cs'. split; [exact Hrun|]. split; [exact Hr'|exact E].
Defined.

(** * Remarks on the code *)

(** The ninth channel makes the vector move to new storage: the [other_] pointers of the
    earlier channels still point into the old storage, and so do the handles. *)
Fixpoint create_many (n : nat) : M state unit :=
  match n with
  | O => mret tt
  | S n => create_many n;;
           Create (0x1000 * Z.of_nat (S (n / 8))) (100 + 2 * Z.of_nat n) (101 + 2 * Z.of_nat n) 7;;
           mret tt
  end.

Lemma growing_breaks_channels :
  ∃ s, create_many 9 empty = Ok (tt, s) ∧
       Write 500 0x1000 [1] s = Fault BadPointer ∧ Write 500 0x2000 [1] s = Fault BadPointer.
Proof. eexists. split; [vm_compute; reflexivity|]. split; vm_compute; reflexivity. Qed.

(** Removing a channel shifts the later ones: the next channel created gets the handles
    that the owner of a live channel still holds. *)
Lemma removing_reuses_live_handles :
  ∃ a b c s, (a ← Create 0x1000 100 101 7; b ← Create 0x1000 102 103 8;
              Close a.1;; Close a.2;; c ← Create 0x1000 104 105 9; mret (a, b, c)) empty =
             Ok ((a, b, c), s) ∧ b = c.
Proof. do 4 eexists. split; vm_compute; reflexivity. Qed.

End Channel.
