(* ===== verification/LinkedList.v ===== *)
(** The singly linked list of kernel/include/kernel/linkedlist.h, which holds the queue of
    tasks.  Nodes are objects in a store, a node is its address, null is 0; [back],
    [Append] and [Cycle] change the nodes in place.  [chain] relates a node to the list of
    nodes and values reachable from it, and the lemmas say what the operations do to it. *)
From S2P Require Import Prelude.

Module LinkedList.

(** A node: its value and the address of the next one. *)
Abbreviation store := (gmap Z (Z * Z)).

Definition deref (n : Z) : M store (Z * Z) := λ m,
  if n =? 0 then Fault BadPointer
  else match m !! n with Some x => Ok (x, m) | None => Fault BadPointer end.

Definition get (n : Z) : M store Z := x ← deref n; mret x.1.
Definition next (n : Z) : M store Z := x ← deref n; mret x.2.
Definition setNext (n p : Z) : M store unit :=
  x ← deref n; modify (<[n := (x.1, p)]>).

(** A walk over a list without cycles visits each node once. *)
Definition fuel_of (m : store) : nat := S (size m).
#[global] Arguments fuel_of : simpl never.

Fixpoint back_rec (fuel : nat) (this : Z) : M store Z :=
  match fuel with
  | O => fail NoFuel
  | S fuel => n ← next this;
              if negb (tobool n) then mret this else back_rec fuel n
  end.

Definition back (this : Z) : M store Z := fuel ← gets fuel_of; back_rec fuel this.

Definition Cycle (this : Z) : M store Z :=
  n ← next this;
  if negb (tobool n) then mret this
  else
    back_ ← back this;
    new_front ← next this;
    setNext this 0;;
    setNext back_ this;;
    mret new_front.

(** [new Node(val)] at the address [p]. *)
Definition new_node (p val : Z) : M store unit := modify (<[p := (val, 0)]>).

Fixpoint append_rec (fuel : nat) (this p val : Z) : M store Z :=
  match fuel with
  | O => fail NoFuel
  | S fuel =>
      n ← next this;
      if tobool n then append_rec fuel n p val
      else new_node p val;; setNext this p;; mret p
  end.

Definition Append (this p val : Z) : M store Z :=
  fuel ← gets fuel_of; append_rec fuel this p val.

(** * The list of a node *)

(** [chain m n l]: from [n] on, the nodes and their values are [l]. *)
Fixpoint chain (m : store) (n : Z) (l : list (Z * Z)) : Prop :=
  match l with
  | [] => n = 0
  | x :: l => n = x.1 ∧ n ≠ 0 ∧ ∃ n', m !! n = Some (x.2, n') ∧ chain m n' l
  end.

(** The node of a list and the list, without cycles. *)
Definition is_list (m : store) (n : Z) (l : list (Z * Z)) : Prop :=
  chain m n l ∧ NoDup l.*1.

Definition first (l : list (Z * Z)) : Z := match l with [] => 0 | x :: _ => x.1 end.

(** * Lemmas *)
Lemma chain_first m n l : chain m n l → n = first l.
Proof. destruct l; [done|]. by intros [? _]. Qed.

Lemma chain_local m m' n l :
  (∀ a, a ∈ l.*1 → m' !! a = m !! a) → chain m n l → chain m' n l.
Proof.
  revert n. induction l as [|[a v] l IH]; intros n Hm; [done|]. simpl.
  intros (-> & H0 & n' & Ha & Hc). split_and!; try done. exists n'. split.
  - rewrite Hm; [done|]. by left.
  - apply IH; [|done]. intros b Hb. apply Hm. by right.
Qed.

Lemma chain_lookup m n l a v : chain m n l → (a, v) ∈ l → a ≠ 0 ∧ ∃ n', m !! a = Some (v, n').
Proof.
  revert n. induction l as [|[b w] l IH]; intros n; [by intros _ ?%elem_of_nil|].
  intros (-> & H0 & n' & Hb & Hc) [E|Hin]%elem_of_cons; [simplify_eq/=; eauto|eauto].
Qed.

Lemma chain_tail m n l1 l2 : chain m n (l1 ++ l2) → chain m (first l2) l2.
Proof.
  revert n. induction l1 as [|x l1 IH]; intros n H.
  - simpl in H. by rewrite (chain_first _ _ _ H) in H.
  - destruct H as (_ & _ & n' & _ & H). by eapply IH.
Qed.

Lemma deref_Ok m a x : a ≠ 0 → m !! a = Some x → deref a m = Ok (x, m).
Proof. intros H0 H. unfold deref. by rewrite (proj2 (Z.eqb_neq _ _) H0), H. Qed.

Lemma next_Ok m a v n : a ≠ 0 → m !! a = Some (v, n) → next a m = Ok (n, m).
Proof. intros H0 H. unfold next. by rewrite (bind_Ok _ _ _ _ _ (deref_Ok _ _ _ H0 H)). Qed.

Lemma get_Ok m a v n : a ≠ 0 → m !! a = Some (v, n) → get a m = Ok (v, m).
Proof. intros H0 H. unfold get. by rewrite (bind_Ok _ _ _ _ _ (deref_Ok _ _ _ H0 H)). Qed.

Lemma setNext_Ok m a v n p : a ≠ 0 → m !! a = Some (v, n) →
  setNext a p m = Ok (tt, <[a := (v, p)]> m).
Proof. intros H0 H. unfold setNext. by rewrite (bind_Ok _ _ _ _ _ (deref_Ok _ _ _ H0 H)). Qed.

Lemma chain_fuel m n l : is_list m n l → (length l < fuel_of m)%nat.
Proof.
  intros [Hc Hnd]. unfold fuel_of. apply Nat.lt_succ_r.
  rewrite <- (length_fmap fst), <- size_dom, <- (size_list_to_set (C := gset Z) l.*1) by done.
  apply subseteq_size. intros a. rewrite elem_of_list_to_set, elem_of_dom.
  intros ([b v] & -> & Hin)%list_elem_of_fmap. destruct (chain_lookup _ _ _ _ _ Hc Hin) as (_ & n' & E).
  simpl. rewrite E. eauto.
Qed.

Lemma tobool_ne n : n ≠ 0 → tobool n = true.
Proof. intros H. unfold tobool. by rewrite (proj2 (Z.eqb_neq _ _) H). Qed.

(** [back] is the last node. *)
Lemma back_rec_Ok m l : ∀ fuel n x,
  chain m n (l ++ [x]) → (length l < fuel)%nat → back_rec fuel n m = Ok (x.1, m).
Proof.
  induction l as [|y l IH]; intros fuel n x Hc Hf; (destruct fuel as [|fuel]; [simpl in Hf; lia|]);
    cbn [back_rec]; destruct Hc as (-> & H0 & n' & Hn & Hc).
  - simpl in Hc. subst n'. rewrite (bind_Ok _ _ _ _ _ (next_Ok _ _ _ _ H0 Hn)). done.
  - rewrite (bind_Ok _ _ _ _ _ (next_Ok _ _ _ _ H0 Hn)).
    assert (Hn0 : n' ≠ 0) by (destruct l; destruct Hc as (_ & ? & _); done).
    rewrite tobool_ne by done. cbn [negb]. apply IH; [done|simpl in Hf; lia].
Qed.

(** Changing the last node's [next_]. *)
Lemma chain_snoc m m' n l x l' :
  chain m n (l ++ [x]) → NoDup (l ++ [x]).*1 →
  (∀ a, a ∈ l.*1 → m' !! a = m !! a) → m' !! x.1 = Some (x.2, first l') →
  chain m' (first l') l' → chain m' n (l ++ x :: l').
Proof.
  intros Hc Hnd Hm Hx Hl'. revert n Hc. induction l as [|[b w] l IH]; intros n Hc.
  - simpl in *. destruct Hc as (-> & H0 & _). split_and!; try done. eauto.
  - simpl in Hc |- *. destruct Hc as (-> & H0 & n' & Hb & Hc). split_and!; try done.
    exists n'. split; [rewrite Hm; [done|by left]|].
    apply IH; [|intros a Ha; apply Hm; by right|done].
    simpl in Hnd. by apply NoDup_cons in Hnd as [_ ?].
Qed.

(** [Cycle] moves the front node to the back and returns the new front. *)
Lemma Cycle_Ok m x l :
  is_list m x.1 (x :: l) →
  ∃ m', Cycle x.1 m = Ok (first (l ++ [x]), m') ∧ is_list m' (first (l ++ [x])) (l ++ [x]) ∧
        ∀ a, a ∉ (x :: l).*1 → m' !! a = m !! a.
Proof.
  intros Hl. pose proof Hl as [Hc Hnd]. pose proof Hc as (_ & H0 & n' & Hx & Hc').
  destruct l as [|y l].
  { simpl in Hc'. subst n'. exists m. unfold Cycle.
    rewrite (bind_Ok _ _ _ _ _ (next_Ok _ _ _ _ H0 Hx)). done. }
  assert (exists l0 z, y :: l = l0 ++ [z]) as (l0 & z & Elast).
  { destruct (exists_last (l := y :: l)) as (l0 & z & E); [done|]. eauto. }
  pose proof (chain_fuel _ _ _ Hl) as Hfuel. rewrite Elast in *.
  assert (Hn0 : n' ≠ 0) by (destruct l0; destruct Hc' as (_ & ? & _); done).
  pose proof (chain_tail _ _ _ _ Hc') as (_ & Hz0 & nz & Hz & Hnz). simpl in Hz0, Hz, Hnz. subst nz.
  pose proof (Hnd : NoDup (x.1 :: (l0 ++ [z]).*1)) as [Hxl Hnd']%NoDup_cons.
  assert (Hxz : x.1 ≠ z.1).
  { intros E. apply Hxl. rewrite fmap_app, E. apply elem_of_app. right. by left. }
  set (m2 := <[z.1 := (z.2, x.1)]> (<[x.1 := (x.2, 0)]> m)).
  assert (Efirst : n' = first ((l0 ++ [z]) ++ [x])).
  { rewrite (chain_first _ _ _ Hc'). by destruct l0. }
  assert (Hl0 : ∀ a, a ∈ l0.*1 → a ≠ z.1 ∧ a ≠ x.1).
  { intros a Ha. rewrite fmap_app in Hxl, Hnd'. split; intros ->.
    - apply NoDup_app in Hnd' as (_ & Hd & _). apply (Hd _ Ha). by left.
    - apply Hxl, elem_of_app. by left. }
  exists m2. split_and!.
  - unfold Cycle. rewrite (bind_Ok _ _ _ _ _ (next_Ok _ _ _ _ H0 Hx)).
    rewrite tobool_ne by done. cbn [negb].
    rewrite (bind_Ok _ _ _ z.1 m).
    2:{ unfold back. erewrite bind_Ok by done. apply (back_rec_Ok m (x :: l0)); [exact Hc|].
        simpl in *. rewrite length_app in Hfuel. simpl in Hfuel. lia. }
    rewrite (bind_Ok _ _ _ _ _ (next_Ok _ _ _ _ H0 Hx)).
    rewrite (bind_Ok _ _ _ _ _ (setNext_Ok _ _ _ _ 0 H0 Hx)).
    erewrite bind_Ok by (apply (setNext_Ok _ _ z.2 0); [done|by rewrite lookup_insert_ne]).
    by rewrite Efirst.
  - split.
    + rewrite <- Efirst. rewrite <- app_assoc. apply (chain_snoc m m2 n' l0 z [x]); try done.
      * intros a Ha. destruct (Hl0 a Ha). unfold m2. by rewrite !lookup_insert_ne.
      * apply lookup_insert_eq.
      * simpl. split_and!; try done. exists 0. split; [|done]. unfold m2.
        by rewrite lookup_insert_ne, lookup_insert_eq by done.
    + rewrite fmap_app. apply NoDup_app. split_and!; try done.
      * intros a Ha ->%list_elem_of_singleton. done.
      * apply NoDup_singleton.
  - intros a Ha. unfold m2. rewrite !lookup_insert_ne; [done| |]; intros E; apply Ha; rewrite <- E.
    + by left.
    + change (z.1 ∈ x.1 :: (l0 ++ [z]).*1). right. rewrite fmap_app. apply elem_of_app. right. by left.
Qed.

(** [Append] adds a node at the end. *)
Lemma append_rec_Ok m l : ∀ fuel n x p val,
  chain m n (l ++ [x]) → NoDup (l ++ [x]).*1 → p ≠ 0 → m !! p = None → (length l < fuel)%nat →
  ∃ m', append_rec fuel n p val m = Ok (p, m') ∧ m' = <[x.1 := (x.2, p)]> (<[p := (val, 0)]> m).
Proof.
  induction l as [|y l IH]; intros fuel n x p val Hc Hnd Hp Hfr Hf;
    (destruct fuel as [|fuel]; [simpl in Hf; lia|]); cbn [append_rec];
    destruct Hc as (-> & H0 & n' & Hn & Hc).
  - simpl in Hc. subst n'. eexists. split; [|done].
    rewrite (bind_Ok _ _ _ _ _ (next_Ok _ _ _ _ H0 Hn)). simpl. erewrite bind_Ok by done.
    erewrite bind_Ok; [done|]. apply (setNext_Ok _ _ x.2 0); [done|].
    rewrite lookup_insert_ne; [done|]. congruence.
  - assert (Hn0 : n' ≠ 0) by (destruct l; destruct Hc as (_ & ? & _); done).
    destruct (IH fuel n' x p val) as (m' & Hrun & ->); try done.
    { by apply NoDup_cons in Hnd as [_ ?]. }
    { simpl in Hf. lia. }
    eexists. split; [|done]. rewrite (bind_Ok _ _ _ _ _ (next_Ok _ _ _ _ H0 Hn)).
    by rewrite tobool_ne.
Qed.

Lemma Append_Ok m n l p val :
  is_list m n l → l ≠ [] → p ≠ 0 → m !! p = None →
  ∃ m', Append n p val m = Ok (p, m') ∧ is_list m' n (l ++ [(p, val)]) ∧
        ∀ a, a ∉ l.*1 → a ≠ p → m' !! a = m !! a.
Proof.
  intros Hl Hne Hp Hfr. pose proof (chain_fuel _ _ _ Hl) as Hfuel. destruct Hl as [Hc Hnd].
  destruct (exists_last Hne) as (l0 & x & ->). rewrite length_app in Hfuel. simpl in Hfuel.
  destruct (append_rec_Ok m l0 (fuel_of m) n x p val) as (m' & Hrun & ->); try done; [lia|].
  assert (Hnp : p ∉ (l0 ++ [x]).*1).
  { intros ([a v] & -> & Hin)%list_elem_of_fmap.
    destruct (chain_lookup _ _ _ _ _ Hc Hin) as (_ & n' & E). simpl in *. congruence. }
  assert (Hxp : p ≠ x.1).
  { intros ->. apply Hnp. rewrite fmap_app. apply elem_of_app. right. by left. }
  eexists. split_and!; [exact Hrun| |].
  - split.
    + rewrite <- app_assoc. apply (chain_snoc m _ n l0 x [(p, val)]); try done.
      * intros a Ha. rewrite fmap_app in Hnd, Hnp. apply NoDup_app in Hnd as (_ & Hd & _).
        rewrite !lookup_insert_ne; [done| |].
        -- intros E. apply Hnp, elem_of_app. left. by rewrite E.
        -- intros E. apply (Hd _ Ha). rewrite <- E. by left.
      * apply lookup_insert_eq.
      * simpl. split_and!; try done. exists 0. split; [|done].
        by rewrite lookup_insert_ne, lookup_insert_eq by done.
    + rewrite fmap_app. apply NoDup_app. split_and!; try done; [|apply NoDup_singleton].
      intros a Ha ->%list_elem_of_singleton. done.
  - intros a Ha Hap. rewrite !lookup_insert_ne; [done|done|]. intros E. apply Ha.
    rewrite <- E, fmap_app. apply elem_of_app. right. by left.
Qed.

End LinkedList.
