(* ===== verification/Gdt.v ===== *)
(** The segment descriptors and the task state segment of kernel/gdt.cpp and
    kernel/include/kernel/gdt.h.  [GDTSetGate] packs base, limit and flags into the
    processor's 8-byte layout; [dbase], [dlimit] and the bits of [access] are how the
    processor reads an entry.  Loading the tables ([GDTFlush], [TSSFlush]) is assembly and
    not modelled. *)
From S2P Require Import Prelude.

Module Gdt.

Definition kKernCodeSeg : Z := 0x08.
Definition kKernDataSeg : Z := 0x10.
Definition kUserCodeSeg : Z := 0x18.
Definition kUserDataSeg : Z := 0x20.
Definition kRing0 : Z := 0.
Definition kRing3 : Z := 3.

Record gdt_entry_t := mkEntry {
  limit_low : Z; base_low : Z; base_middle : Z; access : Z; granularity : Z; base_high : Z;
}.

Record tss_entry_t := mkTss {
  prev_tss : Z; esp0 : Z; ss0 : Z; esp1 : Z; ss1 : Z; esp2 : Z; ss2 : Z; cr3 : Z; eip : Z;
  eflags : Z; eax : Z; ecx : Z; edx : Z; ebx : Z; esp : Z; ebp : Z; esi : Z; edi : Z; es : Z;
  cs : Z; ss : Z; ds : Z; fs : Z; gs : Z; ldt : Z; trap : Z; iomap_base : Z;
}.

Definition kNumGDTEntries : Z := 6.

Record state := mkState {
  gdt_entries : list gdt_entry_t;
  gdt_ptr : Z * Z;
  tss_entry : tss_entry_t;
}.

Definition set_entries x (s : state) := mkState x (gdt_ptr s) (tss_entry s).
Definition set_ptr x (s : state) := mkState (gdt_entries s) x (tss_entry s).
Definition set_tss x (s : state) := mkState (gdt_entries s) (gdt_ptr s) x.

(** The fields that [GDTSetGate] assigns. *)
Definition gate (base limit access gran : Z) : gdt_entry_t :=
  mkEntry (Z.land limit 0xFFFF) (Z.land base 0xFFFF)
    (Z.land (Z.shiftr base 16) 0xFF) access
    (Z.lor (Z.land (Z.shiftr limit 16) 0x0F) (Z.land gran 0xF0))
    (Z.land (Z.shiftr base 24) 0xFF).

Definition GDTSetGate (num base limit access gran : Z) : M state unit :=
  s ← gets gdt_entries;
  s' ← liftR (awrite s num (gate base limit access gran));
  modify (set_entries s').

Definition tss_zero : tss_entry_t :=
  mkTss 0 0 0 0 0 0 0 0 0 0 0 0 0 0 0 0 0 0 0 0 0 0 0 0 0 0 0.

(** [sizeof(tss_entry)]: 25 words and two half words. *)
Definition kTssSize : Z := 104.

(** The TSS after [WriteTSS]. *)
Definition tss_of (ss0 esp0 : Z) : tss_entry_t :=
  mkTss 0 esp0 ss0 0 0 0 0 0 0 0 0 0 0 0 0 0 0 0 0x13 0x0b 0x13 0x13 0x13 0x13 0 0 kTssSize.

(** [addr] is the address of [tss_entry]. *)
Definition WriteTSS (addr num ss0 esp0 : Z) : M state unit :=
  modify (set_tss tss_zero);;
  modify (set_tss (tss_of ss0 esp0));;
  GDTSetGate num addr kTssSize 0xE9 0x00.

(** [entries_addr] and [tss_addr] are the addresses of the two tables. *)
Definition Initialize (entries_addr tss_addr : Z) : M state unit :=
  modify (set_ptr (8 * kNumGDTEntries - 1, entries_addr));;
  GDTSetGate 0 0 0 0 0;;
  GDTSetGate 1 0 0xFFFFFFFF 0x9A 0xCF;;
  GDTSetGate 2 0 0xFFFFFFFF 0x92 0xCF;;
  GDTSetGate 3 0 0xFFFFFFFF 0xFA 0xCF;;
  GDTSetGate 4 0 0xFFFFFFFF 0xF2 0xCF;;
  WriteTSS tss_addr 5 0x10 0.

Definition SetKernelStack (stack : Z) : M state unit :=
  modify (λ s, let t := tss_entry s in
    set_tss (mkTss (prev_tss t) stack (ss0 t) (esp1 t) (ss1 t) (esp2 t) (ss2 t) (cr3 t) (eip t)
      (eflags t) (eax t) (ecx t) (edx t) (ebx t) (esp t) (ebp t) (esi t) (edi t) (es t) (cs t)
      (ss t) (ds t) (fs t) (gs t) (ldt t) (trap t) (iomap_base t)) s).

(** * How the processor reads an entry *)
Definition dbase (e : gdt_entry_t) : Z :=
  Z.lor (base_low e) (Z.lor (Z.shiftl (base_middle e) 16) (Z.shiftl (base_high e) 24)).
Definition dlimit (e : gdt_entry_t) : Z :=
  Z.lor (limit_low e) (Z.shiftl (Z.land (granularity e) 0x0F) 16).
Definition dflags (e : gdt_entry_t) : Z := Z.land (granularity e) 0xF0.
(** The present bit, the privilege level and the executable bit of [access]. *)
Definition dpresent (e : gdt_entry_t) : bool := Z.testbit (access e) 7.
Definition dpl (e : gdt_entry_t) : Z := Z.land (Z.shiftr (access e) 5) 3.
Definition dcode (e : gdt_entry_t) : bool := Z.testbit (access e) 3.

(** The entry a selector names, and the ring it asks for. *)
Definition selected (s : state) (sel : Z) : option gdt_entry_t :=
  nthZ (gdt_entries s) (Z.shiftr sel 3).
Definition rpl (sel : Z) : Z := Z.land sel 3.

(** * Lemmas *)
Lemma gate_fields base limit access gran :
  is_u32 base → is_u32 limit → is_u8 gran →
  dbase (gate base limit access gran) = base ∧
  dlimit (gate base limit access gran) = limit mod 2 ^ 20 ∧
  dflags (gate base limit access gran) = gran / 16 * 16.
Proof.
  intros Hb Hl Hg. unfold dbase, dlimit, dflags, gate. simpl. split_and!.
  - change 0xFFFF with (Z.ones 16). change 0xFF with (Z.ones 8).
    rewrite !Z.land_ones, !Z.shiftr_div_pow2, !Z.shiftl_mul_pow2 by lia.
    unfold is_u32 in Hb. rewrite (Z.lor_comm ((base / 2 ^ 16) mod 2 ^ 8 * 2 ^ 16)).
    rewrite (lor_disjoint ((base / 2 ^ 24) mod 2 ^ 8 * 2 ^ 24) _ 24) by dlia.
    rewrite Z.lor_comm, (lor_disjoint _ _ 16) by dlia. dlia.
  - change 0xFFFF with (Z.ones 16). change 0x0F with (Z.ones 4).
    assert (E : Z.land (Z.lor (Z.land (Z.shiftr limit 16) (Z.ones 4)) (Z.land gran 0xF0)) (Z.ones 4) =
      Z.land (Z.shiftr limit 16) (Z.ones 4)).
    { rewrite Z.land_lor_distr_l, <- !Z.land_assoc. change (Z.land (Z.ones 4) (Z.ones 4)) with (Z.ones 4).
      change (Z.land 0xF0 (Z.ones 4)) with 0. by rewrite Z.land_0_r, Z.lor_0_r. }
    rewrite E, !Z.land_ones, !Z.shiftr_div_pow2, !Z.shiftl_mul_pow2 by lia.
    unfold is_u32 in Hl. rewrite Z.lor_comm, (lor_disjoint _ _ 16) by dlia. dlia.
  - rewrite Z.land_lor_distr_l, <- !Z.land_assoc. change (Z.land 0x0F 0xF0) with 0.
    change (Z.land 0xF0 0xF0) with 0xF0. rewrite Z.land_0_r, Z.lor_0_l.
    apply Z.eqb_eq, (byte_ind (λ g, Z.land g 0xF0 =? g / 16 * 16)); [by vm_compute|done].
Qed.

Lemma GDTSetGate_Ok s num base limit access gran :
  0 ≤ num < Z.of_nat (length (gdt_entries s)) →
  GDTSetGate num base limit access gran s =
    Ok (tt, set_entries (<[Z.to_nat num := gate base limit access gran]> (gdt_entries s)) s).
Proof.
  intros H. unfold GDTSetGate. munfold. by rewrite awrite_in_range.
Qed.

(** * Properties *)

(** [Initialize] succeeds and leaves, for each of the four selectors that tasks run
    with, a present flat segment (base 0, 4GB) of the right kind, code or data, whose
    privilege level is the ring of the selector; the last entry describes the task state
    segment, with kernel stack segment 0x10 and no I/O ports open to user code. *)
Lemma Initialize_segments s entries_addr tss_addr :
  length (gdt_entries s) = 6%nat → is_u32 tss_addr →
  ∃ s', Initialize entries_addr tss_addr s = Ok (tt, s') ∧
    Forall (λ x : Z * Z * bool, ∃ e, selected s' (x.1.1) = Some e ∧ dpresent e = true ∧
              dbase e = 0 ∧ dlimit e = 0xFFFFF ∧ Z.testbit (granularity e) 7 = true ∧
              dpl e = x.1.2 ∧ dcode e = x.2)
      [(kKernCodeSeg, kRing0, true); (kKernDataSeg, kRing0, false);
       (Z.lor kUserCodeSeg kRing3, kRing3, true); (Z.lor kUserDataSeg kRing3, kRing3, false)] ∧
    (∃ e, selected s' 0x28 = Some e ∧ dbase e = tss_addr ∧ dlimit e = kTssSize ∧ dpl e = kRing3) ∧
    ss0 (tss_entry s') = kKernDataSeg ∧ iomap_base (tss_entry s') = kTssSize ∧
    gdt_ptr s' = (47, entries_addr).
Proof.
  intros Hlen Ht. destruct (gdt_entries s) as [|e0 [|e1 [|e2 [|e3 [|e4 [|e5 [|? ?]]]]]]] eqn:E; try done.
  eexists. split; [unfold Initialize, WriteTSS, GDTSetGate; munfold; simpl; rewrite E; reflexivity|].
  simpl. split_and!; try done.
  - repeat (constructor; [eexists; split_and!; try reflexivity|]). constructor.
  - exists (gate tss_addr kTssSize 0xE9 0). split; [done|].
    destruct (gate_fields tss_addr kTssSize 0xE9 0) as (Hb & Hl & _); try done.
Qed.


(** An entry written by [GDTSetGate] is read back by the processor with the base, the
    low 20 bits of the limit, the access byte and the flags it was given; the other
    entries are unchanged. *)
Lemma GDTSetGate_roundtrip s num base limit acc gran :
  0 ≤ num < Z.of_nat (length (gdt_entries s)) → is_u32 base → is_u32 limit → is_u8 gran →
  ∃ s' e, GDTSetGate num base limit acc gran s = Ok (tt, s') ∧
    nthZ (gdt_entries s') num = Some e ∧ dbase e = base ∧ dlimit e = limit mod 2 ^ 20 ∧
    access e = acc ∧ dflags e = gran / 16 * 16 ∧
    ∀ i, i ≠ num → nthZ (gdt_entries s') i = nthZ (gdt_entries s) i.
Proof.
  intros Hn Hb Hl Hg. destruct (gate_fields base limit acc gran Hb Hl Hg) as (E1 & E2 & E3).
  eexists _, (gate base limit acc gran). split; [by apply GDTSetGate_Ok|]. simpl. split_and!; try done.
  - rewrite nthZ_lookup by lia. apply list_lookup_insert_eq. lia.
  - intros i Hi. unfold nthZ. destruct (Z.ltb_spec i 0); [done|]. apply list_lookup_insert_ne. lia.
Qed.

End Gdt.
