(* ===== verification/Serial.v ===== *)
(** The serial port: kernel/serial.cpp, over the port accesses of kernel/include/kernel/io.h.

    The device is not part of the source: [Uart] has what the processor can do with its ports and
    what can be seen of it from outside, [UartLaws] what its documentation promises.  A string that
    is written is the list of its characters. *)
From S2P Require Import Prelude.

Module Serial.

Definition kCOM1 : Z := 0x3f8.

(** [inb] and [outb] of the device; the latch bit and the divisor it gives access to, the enabled
    interrupts, what has been sent, and what has arrived and was not read. *)
Class Uart (D : Type) := {
  inb : Z → D → Z * D;
  outb : Z → Z → D → D;
  dlab : D → bool;
  divisor : D → Z * Z;
  line : D → list Z;
  pending : D → list Z }.

Section serial.
  Context {D : Type} `{Uart D}.

(** ** io.h *)
Definition Write8 (port value : Z) : M D unit := modify (outb (u16 port) (u8 value)).
Definition Read8 (port : Z) : M D Z := λ d, let '(v, d) := inb (u16 port) d in Ok (u8 v, d).

(** ** serial.cpp *)
Definition Received : M D bool := v ← Read8 (kCOM1 + 5); mret (tobool (Z.land v 1)).
Definition IsTransmitEmpty : M D bool := v ← Read8 (kCOM1 + 5); mret (tobool (Z.land v 0x20)).

Definition Initialize : M D unit :=
  Write8 (kCOM1 + 1) 0x00;;
  Write8 (kCOM1 + 3) 0x80;;
  Write8 (kCOM1 + 0) 0x03;;
  Write8 (kCOM1 + 1) 0x00;;
  Write8 (kCOM1 + 3) 0x03;;
  Write8 (kCOM1 + 2) 0xC7;;
  Write8 (kCOM1 + 4) 0x0B.

(** The character, if there is one. *)
Definition TryRead : M D (option Z) :=
  b ← Received;
  if (b : bool) then c ← Read8 kCOM1; mret (Some c) else mret None.

Definition TryPut (c : Z) : M D bool :=
  b ← IsTransmitEmpty;
  if (b : bool) then Write8 kCOM1 c;; mret true else mret false.

(** [while (!cond()) {}] *)
Fixpoint wait_for (fuel : nat) (cond : M D bool) : M D unit :=
  match fuel with
  | O => fail NoFuel
  | S fuel => b ← cond; if (b : bool) then mret tt else wait_for fuel cond
  end.

Definition Read (fuel : nat) : M D Z := wait_for fuel Received;; Read8 kCOM1.
Definition Put (fuel : nat) (c : Z) : M D unit := wait_for fuel IsTransmitEmpty;; Write8 kCOM1 c.

Fixpoint Write (fuel : nat) (str : list Z) : M D unit :=
  match str with [] => mret tt | c :: str => Put fuel c;; Write fuel str end.

(** * The device *)

(** [d'] comes after [d]: characters may have arrived, nothing else changed. *)
Definition later (d d' : D) : Prop :=
  line d' = line d ∧ dlab d' = dlab d ∧ divisor d' = divisor d ∧ ∃ arrived, pending d' = pending d ++ arrived.

(** The state after [k] reads of the line status. *)
Fixpoint polls (k : nat) (d : D) : D := match k with O => d | S k => polls k (inb (kCOM1 + 5) d).2 end.

(** [patience] bounds the polls until a character has been sent. *)
Class UartLaws (patience : nat) : Prop := {
  status_byte d : is_u8 (inb (kCOM1 + 5) d).1;
  status_reads d : later d (inb (kCOM1 + 5) d).2;
  status_data d : Z.testbit (inb (kCOM1 + 5) d).1 0 = negb (bool_decide (pending (inb (kCOM1 + 5) d).2 = []));
  status_empty d : ∃ k, (k < patience)%nat ∧ Z.testbit (inb (kCOM1 + 5) (polls k d)).1 5 = true;
  receives d c l : dlab d = false → pending d = c :: l →
    u8 (inb kCOM1 d).1 = c ∧ line (inb kCOM1 d).2 = line d ∧ dlab (inb kCOM1 d).2 = false ∧ ∃ arrived, pending (inb kCOM1 d).2 = l ++ arrived;
  transmits d c : dlab d = false → is_u8 c → Z.testbit (inb (kCOM1 + 5) d).1 5 = true →
    let d' := outb kCOM1 c (inb (kCOM1 + 5) d).2 in
    line d' = line d ++ [c] ∧ dlab d' = false ∧ divisor d' = divisor d ∧ ∃ arrived, pending d' = pending d ++ arrived;
  line_control d v : let d' := outb (kCOM1 + 3) v d in line d' = line d ∧ dlab d' = Z.testbit v 7 ∧ divisor d' = divisor d;
  latch_low d v : dlab d = true → let d' := outb kCOM1 v d in line d' = line d ∧ dlab d' = true ∧ divisor d' = (v, (divisor d).2);
  latch_high d v : let d' := outb (kCOM1 + 1) v d in
    line d' = line d ∧ dlab d' = dlab d ∧ divisor d' = if dlab d then ((divisor d).1, v) else divisor d;
  other_control d v p : p = kCOM1 + 2 ∨ p = kCOM1 + 4 →
    let d' := outb p v d in line d' = line d ∧ dlab d' = dlab d ∧ divisor d' = divisor d }.

(** * Lemmas *)
Lemma later_trans d1 d2 d3 : later d1 d2 → later d2 d3 → later d1 d3.
Proof.
  intros (L1 & D1 & V1 & a1 & P1) (L2 & D2 & V2 & a2 & P2). split; [congruence|]. split; [congruence|]. split; [congruence|].
  exists (a1 ++ a2). by rewrite P2, P1, app_assoc.
Qed.

Lemma bit_of v i : is_u8 v → 0 ≤ i → tobool (Z.land v (2 ^ i)) = Z.testbit v i.
Proof.
  intros Hv Hi. unfold tobool. destruct (Z.testbit v i) eqn:E.
  - apply negb_true_iff, Z.eqb_neq. intros E0. apply (f_equal (λ x, Z.testbit x i)) in E0.
    rewrite Z.land_spec, E, Z.pow2_bits_true, Z.bits_0 in E0 by done. done.
  - apply negb_false_iff, Z.eqb_eq, Z.bits_inj'. intros j Hj. rewrite Z.land_spec, Z.bits_0, Z.pow2_bits_eqb by done.
    destruct (Z.eqb_spec i j) as [->|]; [by rewrite E|by rewrite andb_false_r].
Qed.

  Context (patience : nat) `{!UartLaws patience}.

Lemma status_Ok d i : 0 ≤ i → (v ← Read8 (kCOM1 + 5); mret (tobool (Z.land v (2 ^ i)))) d =
  Ok (Z.testbit (inb (kCOM1 + 5) d).1 i, (inb (kCOM1 + 5) d).2).
Proof using UartLaws0.
  intros Hi. pose proof (status_byte d) as Hb. unfold Read8. munfold. change (u16 (kCOM1 + 5)) with (kCOM1 + 5).
  destruct (inb (kCOM1 + 5) d) as [v d']. cbn in *. by rewrite u8_id, bit_of.
Qed.

(** The loop ends at the first poll that says so. *)
Lemma wait_for_Ok i k : 0 ≤ i → ∀ fuel d, (k < fuel)%nat → Z.testbit (inb (kCOM1 + 5) (polls k d)).1 i = true →
  ∃ e, wait_for fuel (v ← Read8 (kCOM1 + 5); mret (tobool (Z.land v (2 ^ i)))) d = Ok (tt, (inb (kCOM1 + 5) e).2) ∧
    later d e ∧ Z.testbit (inb (kCOM1 + 5) e).1 i = true.
Proof using UartLaws0.
  intros Hi. induction k as [|k IH]; intros [|fuel] d Hk Hb; try lia; cbn [wait_for]; rewrite (bind_Ok _ _ _ _ _ (status_Ok d i Hi)).
  - cbn [polls] in Hb. rewrite Hb. exists d. split; [done|]. split; [|exact Hb]. repeat split. exists []. by rewrite app_nil_r.
  - destruct (Z.testbit (inb (kCOM1 + 5) d).1 i) eqn:E.
    + exists d. split; [done|]. split; [|exact E]. repeat split. exists []. by rewrite app_nil_r.
    + destruct (IH fuel (inb (kCOM1 + 5) d).2) as (e & Hr & Hl & He); [lia|exact Hb|]. exists e. split; [exact Hr|]. split; [|exact He].
      by eapply later_trans; [apply status_reads|].
Qed.

Lemma Put_Ok fuel c d : (patience ≤ fuel)%nat → dlab d = false → is_u8 c →
  ∃ d', Put fuel c d = Ok (tt, d') ∧ line d' = line d ++ [c] ∧ dlab d' = false ∧ divisor d' = divisor d ∧
    ∃ arrived, pending d' = pending d ++ arrived.
Proof using UartLaws0.
  intros Hf Hd Hc. destruct (status_empty d) as (k & Hk & Hb).
  destruct (wait_for_Ok 5 k ltac:(lia) fuel d ltac:(lia) Hb) as (e & Hr & (Hl & Hde & Hv & a1 & Hp) & He).
  destruct (transmits e c ltac:(congruence) Hc He) as (Hl' & Hd' & Hv' & a2 & Hp').
  eexists. split; [unfold Put; rewrite (bind_Ok _ _ _ _ _ Hr); unfold Write8; rewrite u8_id by done; change (u16 kCOM1) with kCOM1; reflexivity|].
  split; [by rewrite Hl', Hl|]. split; [exact Hd'|]. split; [by rewrite Hv', Hv|]. exists (a1 ++ a2). by rewrite Hp', Hp, app_assoc.
Qed.

Lemma serial_Write_Ok fuel str : ∀ d, (patience ≤ fuel)%nat → dlab d = false → Forall is_u8 str →
  ∃ d', Write fuel str d = Ok (tt, d') ∧ line d' = line d ++ str ∧ dlab d' = false ∧ divisor d' = divisor d ∧
    ∃ arrived, pending d' = pending d ++ arrived.
Proof using UartLaws0.
  induction str as [|c str IH]; intros d Hf Hd Hs; cbn [Write].
  { exists d. split; [done|]. rewrite app_nil_r. repeat split; [done|]. exists []. by rewrite app_nil_r. }
  apply Forall_cons in Hs as [Hc Hs]. destruct (Put_Ok fuel c d Hf Hd Hc) as (d1 & R1 & L1 & D1 & V1 & a1 & P1).
  destruct (IH d1 Hf D1 Hs) as (d2 & R2 & L2 & D2 & V2 & a2 & P2). exists d2.
  split; [by rewrite (bind_Ok _ _ _ _ _ R1)|]. split; [by rewrite L2, L1, <- app_assoc|]. split; [exact D2|]. split; [congruence|].
  exists (a1 ++ a2). by rewrite P2, P1, app_assoc.
Qed.

Lemma serial_Initialize_Ok d : ∃ d', Initialize d = Ok (tt, d') ∧ line d' = line d ∧ dlab d' = false ∧ divisor d' = (3, 0).
Proof using UartLaws0.
  eexists. split; [reflexivity|].
  change (u16 (kCOM1 + 1)) with (kCOM1 + 1). change (u16 (kCOM1 + 3)) with (kCOM1 + 3). change (u16 (kCOM1 + 0)) with kCOM1.
  change (u16 (kCOM1 + 2)) with (kCOM1 + 2). change (u16 (kCOM1 + 4)) with (kCOM1 + 4).
  set (d1 := outb (kCOM1 + 1) (u8 0) d). set (d2 := outb (kCOM1 + 3) (u8 128) d1). set (d3 := outb kCOM1 (u8 3) d2).
  set (d4 := outb (kCOM1 + 1) (u8 0) d3). set (d5 := outb (kCOM1 + 3) (u8 3) d4). set (d6 := outb (kCOM1 + 2) (u8 199) d5).
  destruct (latch_high d (u8 0)) as (L1 & _). destruct (line_control d1 (u8 128)) as (L2 & D2 & _).
  destruct (latch_low d2 (u8 3) D2) as (L3 & D3 & V3). destruct (latch_high d3 (u8 0)) as (L4 & D4 & V4). fold d3 in D3, V3. rewrite D3 in V4.
  destruct (line_control d4 (u8 3)) as (L5 & D5 & V5). destruct (other_control d5 (u8 199) (kCOM1 + 2) ltac:(by left)) as (L6 & D6 & V6).
  destruct (other_control d6 (u8 11) (kCOM1 + 4) ltac:(by right)) as (L7 & D7 & V7).
  fold d1 in L1. fold d2 in L2. fold d3 in L3. fold d4 in L4, V4. fold d5 in L5, D5, V5. fold d6 in L6, D6, V6.
  split; [congruence|]. split; [rewrite D7, D6; exact D5|]. by rewrite V7, V6, V5, V4, V3.
Qed.

Lemma received_Ok d : Received d = Ok (negb (bool_decide (pending (inb (kCOM1 + 5) d).2 = [])), (inb (kCOM1 + 5) d).2).
Proof using UartLaws0. rewrite <- status_data. apply (status_Ok d 0). lia. Qed.

Lemma Read8_data d c l : dlab d = false → pending d = c :: l →
  ∃ d', Read8 kCOM1 d = Ok (c, d') ∧ line d' = line d ∧ dlab d' = false ∧ ∃ arrived, pending d' = l ++ arrived.
Proof using UartLaws0.
  intros Hd Hp. destruct (receives d c l Hd Hp) as (Hc & H1 & H2 & H3). unfold Read8. change (u16 kCOM1) with kCOM1.
  destruct (inb kCOM1 d) as [v d']. cbn in *. exists d'. by rewrite Hc.
Qed.

(** * Properties *)

(** C36: the serial port works in both directions.  [Initialize] sets the divisor for 38400 baud and
    sends nothing; then [Write], whose loops end as soon as the device is ready, sends exactly the
    characters of the string, in order.  [TryRead] returns the first character that arrived and was
    not read, so that none is lost or repeated, and nothing only when there is none; [Read] returns
    at once when a character is there. *)
Theorem serial_transfers fuel str d : (patience ≤ fuel)%nat → Forall is_u8 str →
  (∃ d', (Initialize;; Write fuel str) d = Ok (tt, d') ∧ divisor d' = (3, 0) ∧ dlab d' = false ∧ line d' = line d ++ str) ∧
  (dlab d = false → ∃ r d', TryRead d = Ok (r, d') ∧ line d' = line d ∧
     match r with
     | Some c => ∃ arrived, c :: pending d' = pending d ++ arrived
     | None => pending d = [] ∧ pending d' = []
     end) ∧
  (dlab d = false → ∀ c l, pending d = c :: l → fuel ≠ O → ∃ d', Read fuel d = Ok (c, d') ∧ ∃ arrived, pending d' = l ++ arrived).
Proof using UartLaws0.
  intros Hf Hs. split; [|split].
  - destruct (serial_Initialize_Ok d) as (d1 & R1 & L1 & D1 & V1). destruct (serial_Write_Ok fuel str d1 Hf D1 Hs) as (d2 & R2 & L2 & D2 & V2 & _).
    exists d2. split; [by rewrite (bind_Ok _ _ _ _ _ R1)|]. split; [congruence|]. split; [done|congruence].
  - intros Hd. unfold TryRead. rewrite (bind_Ok _ _ _ _ _ (received_Ok d)). destruct (status_reads d) as (L & D1 & _ & a & P).
    set (d1 := (inb (kCOM1 + 5) d).2) in *. destruct (pending d1) as [|c l] eqn:E.
    + rewrite bool_decide_true by done. eexists None, d1. split; [done|]. split; [done|]. symmetry in P. by apply app_nil in P as [-> _].
    + rewrite bool_decide_false by done. cbn [negb]. destruct (Read8_data d1 c l ltac:(congruence) E) as (d2 & R2 & L2 & _ & a2 & P2). exists (Some c), d2.
      split; [by rewrite (bind_Ok _ _ _ _ _ R2)|]. split; [congruence|]. exists (a ++ a2). by rewrite P2, app_assoc, <- P.
  - intros Hd c l Hp H0. destruct fuel as [|fuel]; [done|]. destruct (status_reads d) as (L & D1 & _ & a & P).
    unfold Read. erewrite bind_Ok.
    2:{ cbn [wait_for]. rewrite (bind_Ok _ _ _ _ _ (received_Ok d)), P, Hp, bool_decide_false by done. reflexivity. }
    rewrite Hp in P. destruct (Read8_data (inb (kCOM1 + 5) d).2 c (l ++ a) (eq_trans D1 Hd) P) as (d2 & R2 & _ & _ & a2 & P2). exists d2.
    split; [exact R2|]. exists (a ++ a2). by rewrite P2, app_assoc.
Qed.

End serial.

(** * An example

    A device that takes two polls to send a character. *)
Inductive load := Idle | Half | Full.
Definition drain (l : load) : load := match l with Full => Half | _ => Idle end.
Definition is_idle (l : load) : bool := match l with Idle => true | _ => false end.

Record port := mkPort { busy : load; latch : bool; lo : Z; hi : Z; sent : list Z; arrived : list Z }.

Definition status (d : port) : Z := (match arrived d with [] => 0 | _ => 1 end) + (if is_idle (busy d) then 32 else 0).

#[export] Instance port_uart : Uart port := {|
  inb p d :=
    if p =? kCOM1 + 5 then (status d, mkPort (drain (busy d)) (latch d) (lo d) (hi d) (sent d) (arrived d))
    else if p =? kCOM1 then (default 0 (head (arrived d)), mkPort (busy d) (latch d) (lo d) (hi d) (sent d) (tail (arrived d)))
    else (0, d);
  outb p v d :=
    if p =? kCOM1 + 3 then mkPort (busy d) (Z.testbit v 7) (lo d) (hi d) (sent d) (arrived d)
    else if p =? kCOM1 then
      if latch d then mkPort (busy d) true v (hi d) (sent d) (arrived d)
      else mkPort Full false (lo d) (hi d) (sent d ++ [v]) (arrived d)
    else if (p =? kCOM1 + 1) && latch d then mkPort (busy d) true (lo d) v (sent d) (arrived d)
    else d;
  dlab := latch;
  divisor d := (lo d, hi d);
  line := sent;
  pending d := u8 <$> arrived d |}.

Lemma none_arrived (l : list Z) : l = l ++ [].
Proof. by rewrite app_nil_r. Qed.

#[export] Instance port_laws : UartLaws 3.
Proof.
  split.
  - intros [b ? ? ? ? [|]]; by destruct b.
  - intros d. repeat split. exists []. apply none_arrived.
  - intros [b ? ? ? ? [|]]; by destruct b.
  - intros [b ? ? ? ? r]. exists (match b with Idle => 0 | Half => 1 | Full => 2 end)%nat. split; [destruct b; lia|]. by destruct b, r.
  - intros [b lt ? ? ? [|v r]] c l Hd Hp; [done|]. cbn in *. injection Hp as <- <-. split; [done|]. split; [done|]. split; [done|].
    exists []. apply none_arrived.
  - intros [b lt ? ? ? r] c Hd _ _. cbn in *. rewrite Hd. cbn. repeat split. exists []. apply none_arrived.
  - intros d v. repeat split.
  - intros [? lt ? ? ? ?] v Hd. cbn in *. by rewrite Hd.
  - intros [? lt ? ? ? ?] v. by destruct lt.
  - intros d v p [->| ->]; repeat split.
Qed.

Lemma serial_transfers_witness :
  let d := mkPort Half false 0 0 [] [65; 66] in
  (∃ d', (Initialize;; Write 3 [72; 105]) d = Ok (tt, d') ∧ line d' = [72; 105]) ∧ ∃ d', Read 3 d = Ok (65, d').
Proof.
  intros d. destruct (serial_transfers 3 3 [72; 105] d) as ((d1 & R1 & _ & _ & L1) & _ & H);
    [done|by repeat constructor|]. split; [exists d1; split; [exact R1|exact L1]|].
  destruct (H eq_refl 65 [66] eq_refl ltac:(discriminate)) as (d2 & R2 & _). exists d2. exact R2.
Defined.

(** A port on which nothing arrives: [Read] polls without end. *)
Lemma Read_waits_forever fuel : ∀ b, wait_for fuel Received (mkPort b false 3 0 [] []) = Fault NoFuel.
Proof. induction fuel as [|fuel IH]; intros b; [done|]. cbn [wait_for]. destruct b; apply IH. Qed.

End Serial.
