(* ===== verification/Scheduler.v ===== *)
(** The tasks and the scheduler of kernel/scheduler.cpp and kernel/include/kernel/scheduler.h.

    The state of the kernel puts the components together: the machine with its page
    directories ([Paging.machine]), the channels ([Channel.state]), the descriptor tables
    ([Gdt.state]), the nodes of the task queue ([LinkedList.store]) and the tasks, an object
    store indexed by address.  A task that was deleted is not in the store, and using it is
    a [BadPointer] fault.  The addresses that [new] and [kmalloc] return are arguments of the
    operations that allocate.

    [Schedule] either returns to the interrupted code or switches to a task, with the
    registers that [switch_task] loads. *)
From S2P Require Import Prelude KernelH Pmm Paging Channel LinkedList Gdt.
Import Pmm.Pmm Paging.Paging.

Module Scheduler.

Record registers_t := mkRegs {
  gs : Z; fs : Z; es : Z; ds : Z;
  edi : Z; esi : Z; ebp : Z; esp : Z; ebx : Z; edx : Z; ecx : Z; eax : Z;
  int_no : Z; err_code : Z;
  eip : Z; cs : Z; eflags : Z; useresp : Z; ss : Z;
}.

Definition zero_regs : registers_t := mkRegs 0 0 0 0 0 0 0 0 0 0 0 0 0 0 0 0 0 0 0.

(** [Task::signal_t] *)
Definition kReady : Z := 0x1.
Definition kRunning : Z := 0x2.
Definition kTerminated : Z := 0x4.

Definition kDefaultKernStackSize : Z := 0x2000.
Definition kMaxPages : nat := 256.

(** [Task::Signals] *)
Record Signals := mkSignals {
  sig_task : Z; expecting_signals : Z; sig_value : Z; received_signal : Z;
}.

Record Task := mkTask {
  is_user_ : bool;
  regs_ : registers_t;
  kernel_stack_allocation_ : Z;
  pd_ : Z;
  parent_ : Z;
  owned_phys_pages_ : list Z;
  waiting_on_signals_ : list Signals;
  listening_for_signals_ : list Z;
}.

Definition set_regs x (t : Task) := mkTask (is_user_ t) x (kernel_stack_allocation_ t) (pd_ t)
  (parent_ t) (owned_phys_pages_ t) (waiting_on_signals_ t) (listening_for_signals_ t).
Definition set_owned x (t : Task) := mkTask (is_user_ t) (regs_ t) (kernel_stack_allocation_ t) (pd_ t)
  (parent_ t) x (waiting_on_signals_ t) (listening_for_signals_ t).
Definition set_waiting x (t : Task) := mkTask (is_user_ t) (regs_ t) (kernel_stack_allocation_ t) (pd_ t)
  (parent_ t) (owned_phys_pages_ t) x (listening_for_signals_ t).
Definition set_listening x (t : Task) := mkTask (is_user_ t) (regs_ t) (kernel_stack_allocation_ t) (pd_ t)
  (parent_ t) (owned_phys_pages_ t) (waiting_on_signals_ t) x.

Record kernel := mkKernel {
  mach : machine;
  chans : Channel.state;
  gdt : Gdt.state;
  nodes : LinkedList.store;
  tasks : gmap Z Task;
  stacks : gset Z;
  gTaskQueue : Z;
  gKernelTask : Z;
}.

Definition set_mach x (k : kernel) := mkKernel x (chans k) (gdt k) (nodes k) (tasks k) (stacks k)
  (gTaskQueue k) (gKernelTask k).
Definition set_chans x (k : kernel) := mkKernel (mach k) x (gdt k) (nodes k) (tasks k) (stacks k)
  (gTaskQueue k) (gKernelTask k).
Definition set_gdt x (k : kernel) := mkKernel (mach k) (chans k) x (nodes k) (tasks k) (stacks k)
  (gTaskQueue k) (gKernelTask k).
Definition set_nodes x (k : kernel) := mkKernel (mach k) (chans k) (gdt k) x (tasks k) (stacks k)
  (gTaskQueue k) (gKernelTask k).
Definition set_tasks x (k : kernel) := mkKernel (mach k) (chans k) (gdt k) (nodes k) x (stacks k)
  (gTaskQueue k) (gKernelTask k).
Definition set_stacks x (k : kernel) := mkKernel (mach k) (chans k) (gdt k) (nodes k) (tasks k) x
  (gTaskQueue k) (gKernelTask k).
Definition set_queue x (k : kernel) := mkKernel (mach k) (chans k) (gdt k) (nodes k) (tasks k) (stacks k)
  x (gKernelTask k).
Definition set_ktask x (k : kernel) := mkKernel (mach k) (chans k) (gdt k) (nodes k) (tasks k) (stacks k)
  (gTaskQueue k) x.

Definition on_mach {A} (m : M machine A) : M kernel A := zoom mach set_mach m.
Definition on_pmm {A} (m : M Pmm.state A) : M kernel A := on_mach (in_pmm m).
Definition on_chans {A} (m : M Channel.state A) : M kernel A := zoom chans set_chans m.
Definition on_gdt {A} (m : M Gdt.state A) : M kernel A := zoom gdt set_gdt m.
Definition on_nodes {A} (m : M LinkedList.store A) : M kernel A := zoom nodes set_nodes m.

(** ** Tasks *)
Definition get_task (t : Z) : M kernel Task := λ k,
  match tasks k !! t with Some x => Ok (x, k) | None => Fault BadPointer end.
Definition put_task (t : Z) (x : Task) : M kernel unit :=
  modify (λ k, set_tasks (<[t := x]> (tasks k)) k).
Definition with_task (t : Z) (f : Task → Task) : M kernel unit :=
  x ← get_task t; put_task t (f x).

Definition SegmentRegisterValueIsValid (reg : Z) : bool :=
  if Z.lor Gdt.kUserDataSeg Gdt.kRing3 <? reg then false
  else let kMask := 0xFC in
       (Z.land reg kMask =? 0x08) || (Z.land reg kMask =? 0x10) ||
       (Z.land reg kMask =? 0x18) || (Z.land reg kMask =? 0x20).

Definition ValidateRegs (task : Task) (regs : registers_t) : M kernel unit :=
  assert_ (SegmentRegisterValueIsValid (cs regs));;
  assert_ (SegmentRegisterValueIsValid (ds regs));;
  assert_ (SegmentRegisterValueIsValid (gs regs));;
  assert_ (SegmentRegisterValueIsValid (fs regs));;
  assert_ (SegmentRegisterValueIsValid (es regs));;
  assert_ (SegmentRegisterValueIsValid (ds regs));;
  if is_user_ task then assert_ (u16 (ss regs) =? 0x23) else mret tt.

Definition isWaitingOnSignal (t : Task) : bool :=
  match waiting_on_signals_ t with [] => false | _ => true end.

(** The signal received, its value and the task that sent it. *)
Fixpoint received (l : list Signals) : option (Z * Z * Z) :=
  match l with
  | [] => None
  | s :: l => if tobool (received_signal s) then Some (received_signal s, sig_value s, sig_task s)
              else received l
  end.

Definition getReceivedSignal (t : Task) : option (Z * Z * Z) := received (waiting_on_signals_ t).

Definition canRunTask (t : Task) : bool :=
  if isWaitingOnSignal t then
    match getReceivedSignal t with Some _ => true | None => false end
  else true.

(** [GetSignal(other)]: the index of the entry for [other]. *)
Definition GetSignal (t : Task) (other : Z) : option nat :=
  fst <$> list_find (λ s, sig_task s = other) (waiting_on_signals_ t).

Definition GetOrCreateSignal (this other : Z) : M kernel nat :=
  t ← get_task this;
  match GetSignal t other with
  | Some i => mret i
  | None =>
      put_task this (set_waiting (waiting_on_signals_ t ++ [mkSignals other 0 0 0]) t);;
      mret (length (waiting_on_signals_ t))
  end.

Definition AddListener (this waiting_task : Z) : M kernel unit :=
  t ← get_task this;
  if bool_decide (waiting_task ∈ listening_for_signals_ t) then mret tt
  else put_task this (set_listening (listening_for_signals_ t ++ [waiting_task]) t).

(** One turn of the loop of [SendSignal]. *)
Definition deliver (this signals value listener : Z) : M kernel unit :=
  l ← get_task listener;
  match GetSignal l this with
  | Some i =>
      match waiting_on_signals_ l !! i with
      | Some s =>
          if tobool (Z.land (expecting_signals s) signals) then
            put_task listener (set_waiting
              (<[i := mkSignals (sig_task s) (expecting_signals s) value signals]> (waiting_on_signals_ l)) l)
          else mret tt
      | None => mret tt
      end
  | None => mret tt
  end.

Fixpoint deliver_all (this signals value : Z) (listeners : list Z) : M kernel unit :=
  match listeners with
  | [] => mret tt
  | l :: ls => deliver this signals value l;; deliver_all this signals value ls
  end.

Definition SendSignal (this signals value : Z) : M kernel unit :=
  assert_ (tobool signals);;
  t ← get_task this;
  deliver_all this signals value (listening_for_signals_ t).

Definition WaitOn (this other_task signals : Z) : M kernel unit :=
  assert_ (tobool signals);;
  i ← GetOrCreateSignal this other_task;
  t ← get_task this;
  match waiting_on_signals_ t !! i with
  | Some s => put_task this (set_waiting (<[i := mkSignals (sig_task s)
                (Z.lor (expecting_signals s) signals) (sig_value s) (received_signal s)]>
                (waiting_on_signals_ t)) t)
  | None => fail OutOfBounds
  end;;
  AddListener other_task this.

Definition RemoveSignal (this task : Z) : M kernel unit :=
  t ← get_task this;
  match GetSignal t task with
  | Some i => put_task this (set_waiting (delete i (waiting_on_signals_ t)) t)
  | None => fail Aborted
  end.

Definition getKernelStackBase (t : Task) : M kernel Z :=
  assert_ (tobool (kernel_stack_allocation_ t));;
  let stack_bottom := u32 (kernel_stack_allocation_ t + kDefaultKernStackSize) in
  assert_ (stack_bottom mod 4 =? 0);;
  mret stack_bottom.

(** [Task::Task] at the address [t]; [stack] is what [kmalloc] returns. *)
Definition new_task (t stack : Z) (user : bool) (pd parent : Z) : M kernel unit :=
  modify (λ k, set_stacks (if stack =? 0 then stacks k else {[stack]} ∪ stacks k) k);;
  let d := if user then Z.lor Gdt.kUserDataSeg Gdt.kRing3 else Gdt.kKernDataSeg in
  let c := if user then Z.lor Gdt.kUserCodeSeg Gdt.kRing3 else Gdt.kKernCodeSeg in
  put_task t (mkTask user (mkRegs d d d d 0 0 0 0 0 0 0 0 0 0 0 c 0 0 d) stack pd parent
    (replicate kMaxPages 0) [] []).

Definition kfree (p : Z) : M kernel unit :=
  if p =? 0 then mret tt
  else s ← gets stacks;
       assert_ (bool_decide (p ∈ s));; modify (λ k, set_stacks (stacks k ∖ {[p]}) k).

Fixpoint free_pages_of (pages : list Z) : M kernel unit :=
  match pages with
  | [] => mret tt
  | p :: ps =>
      (if tobool p then
         used ← on_pmm (PageIsUsed p); assert_ used;; on_pmm (SetPageFree p)
       else mret tt);;
      free_pages_of ps
  end.

(** [Task::~Task], and the task is gone. *)
Definition delete_task (t : Z) : M kernel unit :=
  x ← get_task t;
  on_chans (Channel.CloseEndpointsOwnedByTask t);;
  kfree (kernel_stack_allocation_ x);;
  free_pages_of (owned_phys_pages_ x);;
  kpd ← on_mach GetKernelPageDirectory;
  (if pd_ x =? kpd then mret tt
   else modify (λ k, set_mach (set_pds (delete (pd_ x) (pds (mach k))) (mach k)) k));;
  modify (λ k, set_tasks (delete t (tasks k)) k).

Definition PageIsRecorded (t : Task) (ppage : Z) : bool :=
  bool_decide (ppage ∈ owned_phys_pages_ t).

Definition RecordOwnedPage (this ppage : Z) : M kernel unit :=
  t ← get_task this;
  assert_ (negb (PageIsRecorded t ppage));;
  match list_find (λ p, p = 0) (owned_phys_pages_ t) with
  | Some (i, _) =>
      put_task this (set_owned (<[i := ppage]> (owned_phys_pages_ t)) t);;
      on_pmm (SetPageUsed ppage)
  | None => fail Aborted
  end.

Definition RemoveOwnedPage (this ppage : Z) : M kernel unit :=
  t ← get_task this;
  assert_ (PageIsRecorded t ppage);;
  match list_find (λ p, p = ppage) (owned_phys_pages_ t) with
  | Some (i, _) =>
      put_task this (set_owned (<[i := 0]> (owned_phys_pages_ t)) t);;
      on_pmm (SetPageFree ppage)
  | None => fail Aborted
  end.

(** ** The queue *)
Definition GetCurrentTask : M kernel Z := q ← gets gTaskQueue; on_nodes (LinkedList.get q).
Definition GetMainKernelTask : M kernel Z := gets gKernelTask.

Inductive outcome :=
  | Returned
  | SwitchTask (args : registers_t).

(** [while (next_node && !next_node->get()->canRunTask()) next_node = next_node->next();] *)
Fixpoint find_runnable (fuel : nat) (n : Z) : M kernel Z :=
  match fuel with
  | O => fail NoFuel
  | S fuel =>
      if tobool n then
        t ← on_nodes (LinkedList.get n);
        x ← get_task t;
        if canRunTask x then mret n
        else n' ← on_nodes (LinkedList.next n); find_runnable fuel n'
      else mret n
  end.

(** [while (gTaskQueue != next_node) gTaskQueue = gTaskQueue->Cycle();] *)
Fixpoint cycle_to (fuel : nat) (n : Z) : M kernel unit :=
  match fuel with
  | O => fail NoFuel
  | S fuel =>
      q ← gets gTaskQueue;
      if q =? n then mret tt
      else q' ← on_nodes (LinkedList.Cycle q); modify (set_queue q');; cycle_to fuel n
  end.

Definition queue_fuel (k : kernel) : nat := LinkedList.fuel_of (nodes k).

(** The checks on the stack of an interrupted kernel task. *)
Definition check_kernel_stack (regs : registers_t) : M kernel unit :=
  assert_ (esp regs mod 4 =? 0);;
  w0 ← on_mach (load32 (esp regs)); assert_ (w0 =? int_no regs);;
  w1 ← on_mach (load32 (u32 (esp regs + 4))); assert_ (w1 =? err_code regs);;
  w2 ← on_mach (load32 (u32 (esp regs + 8))); assert_ (w2 =? eip regs);;
  w3 ← on_mach (load32 (u32 (esp regs + 12))); assert_ (w3 =? cs regs);;
  w4 ← on_mach (load32 (u32 (esp regs + 16))); assert_ (w4 =? eflags regs).

Definition set_signal_regs (sig val : Z) (r : registers_t) : registers_t :=
  mkRegs (gs r) (fs r) (es r) (ds r) (edi r) (esi r) (ebp r) (esp r) sig (edx r) val (eax r)
    (int_no r) (err_code r) (eip r) (cs r) (eflags r) (useresp r) (ss r).

Definition enable_interrupts (r : registers_t) : registers_t :=
  mkRegs (gs r) (fs r) (es r) (ds r) (edi r) (esi r) (ebp r) (esp r) (ebx r) (edx r) (ecx r) (eax r)
    (int_no r) (err_code r) (eip r) (cs r) (Z.lor (eflags r) 0x200) (useresp r) (ss r).

(** The rest of [Schedule], once [new_task] is at the front of the queue. *)
Definition receive_signal (new_task : Z) : M kernel unit :=
  x ← get_task new_task;
  if isWaitingOnSignal x then
    match getReceivedSignal x with
    | Some (sig, val, sender) =>
        (if is_user_ x then assert_ (eax (regs_ x) =? 0) else mret tt);;
        put_task new_task (set_regs (set_signal_regs sig val (regs_ x)) x);;
        RemoveSignal new_task sender
    | None => mret tt
    end
  else mret tt.

Definition switch_to (new_task : Z) : M kernel outcome :=
  receive_signal new_task;;
  x ← get_task new_task;
  ValidateRegs x (regs_ x);;
  base ← getKernelStackBase x;
  on_gdt (Gdt.SetKernelStack base);;
  SendSignal new_task kRunning 0;;
  x ← get_task new_task;
  on_mach (SwitchPageDirectory (pd_ x));;
  mret (SwitchTask (enable_interrupts (regs_ x))).

(** The current task is saved, or it is deleted. *)
Definition leave_current (regs : option registers_t) (retval current_node current_task next_node : Z) :
    M kernel unit :=
  fuel ← gets queue_fuel;
  match regs with
  | Some r =>
      cycle_to fuel next_node;;
      with_task current_task (set_regs r)
  | None =>
      n ← on_nodes (LinkedList.next current_node);
      modify (set_queue n);;
      cycle_to fuel next_node;;
      SendSignal current_task kTerminated retval;;
      delete_task current_task;;
      modify (λ k, set_nodes (delete current_node (nodes k)) k)
  end.

Definition Schedule (regs : option registers_t) (retval : Z) : M kernel outcome :=
  match regs with
  | Some r => t ← GetCurrentTask; x ← get_task t; ValidateRegs x r
  | None => mret tt
  end;;
  current_node ← gets gTaskQueue;
  assert_ (tobool current_node);;
  current_task ← on_nodes (LinkedList.get current_node);
  assert_ (tobool current_task);;
  next ← on_nodes (LinkedList.next current_node);
  if negb (tobool next) then
    kt ← gets gKernelTask; assert_ (current_task =? kt);; mret Returned
  else
    fuel ← gets queue_fuel;
    next_node ← find_runnable fuel next;
    kt ← GetMainKernelTask;
    if negb (tobool next_node) && (current_task =? kt) then mret Returned
    else
      assert_ (tobool next_node);;
      new_task ← on_nodes (LinkedList.get next_node);
      x ← get_task current_task;
      match regs with
      | Some r => if negb (is_user_ x) then check_kernel_stack r else mret tt
      | None => mret tt
      end;;
      leave_current regs retval current_node current_task next_node;;
      switch_to new_task.

(** [node] is the address of the new node. *)
Definition RegisterTask (node task : Z) : M kernel unit :=
  q ← gets gTaskQueue;
  assert_ (tobool q);;
  on_nodes (LinkedList.Append q node task);;
  SendSignal task kReady 0.

Fixpoint is_running (fuel : nat) (n task : Z) : M kernel bool :=
  match fuel with
  | O => fail NoFuel
  | S fuel =>
      t ← on_nodes (LinkedList.get n);
      if t =? task then mret true
      else n' ← on_nodes (LinkedList.next n);
           if tobool n' then is_running fuel n' task else mret false
  end.

Definition IsRunningTask (task : Z) : M kernel bool :=
  q ← gets gTaskQueue;
  assert_ (tobool q);;
  fuel ← gets queue_fuel;
  is_running fuel q task.

(** [IterateTasks] with a callback that reads the task. *)
Fixpoint iterate_tasks {A} (fuel : nat) (n : Z) (f : Z → Task → A → A) (a : A) : M kernel A :=
  match fuel with
  | O => fail NoFuel
  | S fuel =>
      t ← on_nodes (LinkedList.get n);
      x ← get_task t;
      n' ← on_nodes (LinkedList.next n);
      if tobool n' then iterate_tasks fuel n' f (f t x a) else mret (f t x a)
  end.

Definition getChildren (this : Z) : M kernel (list Z) :=
  q ← gets gTaskQueue;
  assert_ (tobool q);;
  fuel ← gets queue_fuel;
  iterate_tasks fuel q (λ t x acc, if parent_ x =? this then acc ++ [t] else acc) [].

(** [task], [stack] and [node] are the addresses of the allocations. *)
Definition Initialize (task stack node : Z) : M kernel unit :=
  kpd ← on_mach GetKernelPageDirectory;
  new_task task stack false kpd 0;;
  modify (set_ktask task);;
  x ← get_task task;
  base ← getKernelStackBase x;
  on_gdt (Gdt.SetKernelStack base);;
  on_nodes (LinkedList.new_node node task);;
  modify (set_queue node).

Definition Destroy : M kernel unit :=
  q ← gets gTaskQueue;
  assert_ (tobool q);;
  n ← on_nodes (LinkedList.next q);
  assert_ (negb (tobool n));;
  modify (λ k, set_nodes (delete q (nodes k)) k);;
  kt ← gets gKernelTask;
  delete_task kt.

(** * Invariant and abstraction *)

(** The queue: the nodes in order, each with its task. *)
Definition queue (k : kernel) (l : list (Z * Z)) : Prop :=
  LinkedList.is_list (nodes k) (gTaskQueue k) l.

(** The task of a queue entry is there and can run. *)
Definition runs (k : kernel) (x : Z * Z) : bool :=
  match tasks k !! x.2 with Some t => canRunTask t | None => false end.

Definition alive (k : kernel) (t : Z) : Prop := is_Some (tasks k !! t).

(** The checks of [ValidateRegs], as a condition. *)
Definition valid_regs (user : bool) (r : registers_t) : bool :=
  SegmentRegisterValueIsValid (cs r) && SegmentRegisterValueIsValid (ds r) &&
  SegmentRegisterValueIsValid (gs r) && SegmentRegisterValueIsValid (fs r) &&
  SegmentRegisterValueIsValid (es r) && (negb user || (u16 (ss r) =? 0x23)).

(** A sound scheduler state: the queue holds distinct living tasks, the main kernel task
    is one of them and waits for nothing. *)
Definition wf (k : kernel) (l : list (Z * Z)) : Prop :=
  queue k l ∧ NoDup l.*2 ∧ Forall (alive k) l.*2 ∧ Forall (λ t, t ≠ 0) l.*2 ∧
  gKernelTask k ∈ l.*2 ∧
  ∃ x, tasks k !! gKernelTask k = Some x ∧ waiting_on_signals_ x = [].

(** * Lemmas *)
Lemma set_nodes_id k : set_nodes (nodes k) k = k.
Proof. by destruct k. Qed.

Lemma on_nodes_Ok {A} (m : M LinkedList.store A) k a n :
  m (nodes k) = Ok (a, n) → on_nodes m k = Ok (a, set_nodes n k).
Proof. intros H. unfold on_nodes, zoom. by rewrite H. Qed.

Lemma on_nodes_read {A} (m : M LinkedList.store A) k a :
  m (nodes k) = Ok (a, nodes k) → on_nodes m k = Ok (a, k).
Proof. intros H. by rewrite (on_nodes_Ok _ _ _ _ H), set_nodes_id. Qed.

Lemma get_task_Ok k t x : tasks k !! t = Some x → get_task t k = Ok (x, k).
Proof. intros H. unfold get_task. by rewrite H. Qed.

Lemma ValidateRegs_Ok k x r : valid_regs (is_user_ x) r = true → ValidateRegs x r k = Ok (tt, k).
Proof.
  unfold valid_regs. intros [[[[[H1 H2]%andb_prop H3]%andb_prop H4]%andb_prop H5]%andb_prop H6]%andb_prop.
  unfold ValidateRegs. munfold. rewrite H1, H2, H3, H4, H5. destruct (is_user_ x); [|done].
  simpl in H6. by rewrite H6.
Qed.

(** A node of the queue can be read. *)
Lemma chain_head k n x l :
  LinkedList.chain (nodes k) n (x :: l) →
  on_nodes (LinkedList.get n) k = Ok (x.2, k) ∧
  on_nodes (LinkedList.next n) k = Ok (LinkedList.first l, k) ∧
  LinkedList.chain (nodes k) (LinkedList.first l) l ∧ n ≠ 0 ∧ n = x.1.
Proof.
  intros (-> & H0 & n' & Hn & Hc). pose proof (LinkedList.chain_first _ _ _ Hc) as ->. split_and!; try done.
  - apply on_nodes_read. by eapply LinkedList.get_Ok.
  - apply on_nodes_read. by eapply LinkedList.next_Ok.
Qed.

Lemma find_runnable_Ok k l : ∀ fuel n,
  LinkedList.chain (nodes k) n l → Forall (alive k) l.*2 → (length l < fuel)%nat →
  find_runnable fuel n k =
    Ok (match list_find (λ x, runs k x = true) l with Some (_, x) => x.1 | None => 0 end, k).
Proof.
  induction l as [|x l IH]; intros fuel n Hc Hal Hf; (destruct fuel as [|fuel]; [simpl in Hf; lia|]);
    cbn [find_runnable].
  - simpl in Hc. by subst n.
  - destruct (chain_head _ _ _ _ Hc) as (Hg & Hnx & Hc' & H0 & En). rewrite LinkedList.tobool_ne by done.
    rewrite (bind_Ok _ _ _ _ _ Hg). simpl in Hal. apply Forall_cons in Hal as [[t Ht] Hal].
    rewrite (bind_Ok _ _ _ _ _ (get_task_Ok _ _ _ Ht)).
    assert (Er : runs k x = canRunTask t) by (unfold runs; by rewrite Ht).
    cbn [list_find]. destruct (canRunTask t) eqn:Ec; [by rewrite decide_True, En|].
    rewrite decide_False by (rewrite Er; done). rewrite (bind_Ok _ _ _ _ _ Hnx), (IH fuel) by (done || (simpl in Hf; lia)).
    by destruct (list_find _ l) as [[? ?]|].
Qed.

(** Cycling brings a node of the queue to the front. *)
Lemma cycle_to_Ok x pre : ∀ fuel k post,
  queue k (pre ++ x :: post) → (length pre < fuel)%nat →
  ∃ m, cycle_to fuel x.1 k = Ok (tt, set_queue x.1 (set_nodes m k)) ∧
       LinkedList.is_list m x.1 (x :: post ++ pre) ∧
       ∀ a, a ∉ (pre ++ x :: post).*1 → m !! a = nodes k !! a.
Proof.
  induction pre as [|y pre IH]; intros fuel k post Hl Hf; (destruct fuel as [|fuel]; [simpl in Hf; lia|]);
    cbn [cycle_to]; pose proof Hl as [(E & H0 & _) Hnd]; erewrite bind_Ok by done.
  - rewrite app_nil_r. exists (nodes k). unfold queue in Hl. rewrite E, Z.eqb_refl.
    rewrite E in Hl. split_and!; try done. rewrite <- E. by destruct k.
  - assert (Hne : y.1 ≠ x.1).
    { pose proof (Hnd : NoDup (y.1 :: (pre ++ x :: post).*1)) as [Hy _]%NoDup_cons. intros Exy. apply Hy.
      rewrite Exy, fmap_app. apply elem_of_app. right. by left. }
    unfold queue in Hl. rewrite E, (proj2 (Z.eqb_neq _ _) Hne). rewrite E in Hl.
    destruct (LinkedList.Cycle_Ok _ _ _ Hl) as (m1 & Hrun & Hl1 & Hm1).
    erewrite bind_Ok by (by apply on_nodes_Ok). erewrite bind_Ok by done.
    set (q1 := LinkedList.first _) in *.
    destruct (IH fuel (set_queue q1 (set_nodes m1 k)) (post ++ [y])) as (m & Hc & Hl2 & Hm).
    { unfold queue. cbn [nodes gTaskQueue set_queue set_nodes]. by rewrite <- app_assoc in Hl1. }
    { simpl in Hf. lia. }
    exists m. split_and!.
    + exact Hc.
    + by rewrite <- app_assoc in Hl2.
    + intros a Ha. rewrite Hm.
      * apply Hm1. exact Ha.
      * intros Hin. apply Ha. rewrite !fmap_app, !fmap_cons, !fmap_app, !fmap_cons in *. set_solver.
Qed.

(** ** Signals *)

(** What [deliver] does to the listener. *)
Definition delivered (this signals value : Z) (l : Task) : Task :=
  match GetSignal l this with
  | Some i =>
      match waiting_on_signals_ l !! i with
      | Some s =>
          if tobool (Z.land (expecting_signals s) signals) then
            set_waiting (<[i := mkSignals (sig_task s) (expecting_signals s) value signals]>
              (waiting_on_signals_ l)) l
          else l
      | None => l
      end
  | None => l
  end.

(** A task that differs in the received signals only. *)
Definition same_but_signals (x y : Task) : Prop :=
  y = set_waiting (waiting_on_signals_ y) x ∧
  sig_task <$> waiting_on_signals_ y = sig_task <$> waiting_on_signals_ x.

Lemma set_waiting_id x : set_waiting (waiting_on_signals_ x) x = x.
Proof. by destruct x. Qed.

Lemma same_but_signals_refl x : same_but_signals x x.
Proof. split; [by rewrite set_waiting_id|done]. Qed.

Lemma sig_task_insert (l : list Signals) i s v w e :
  l !! i = Some s → sig_task <$> <[i := mkSignals (sig_task s) e v w]> l = sig_task <$> l.
Proof.
  intros H. rewrite list_fmap_insert. apply list_insert_id. by rewrite list_lookup_fmap, H.
Qed.

Lemma same_but_signals_trans x y z : same_but_signals x y → same_but_signals y z → same_but_signals x z.
Proof. intros [Hy Ey] [Hz Ez]. split; [rewrite Hz, Hy; by destruct x|congruence]. Qed.

Lemma delivered_same this signals value x : same_but_signals x (delivered this signals value x).
Proof.
  unfold delivered. destruct (GetSignal x this) as [i|]; [|apply same_but_signals_refl].
  destruct (waiting_on_signals_ x !! i) as [s|] eqn:E; [|apply same_but_signals_refl].
  destruct (tobool _); [|apply same_but_signals_refl]. split; [done|]. by apply sig_task_insert.
Qed.

Lemma find_fmap (l : list Signals) other :
  fst <$> list_find (λ s, sig_task s = other) l = fst <$> list_find (λ t, t = other) (sig_task <$> l).
Proof.
  induction l as [|s l IH]; [done|]. rewrite fmap_cons. cbn [list_find].
  destruct (decide (sig_task s = other)); [done|]. revert IH.
  destruct (list_find (λ s, sig_task s = other) l) as [[? ?]|], (list_find (λ t, t = other) (sig_task <$> l)) as [[? ?]|];
    simpl; congruence.
Qed.

Lemma GetSignal_same x y other : same_but_signals x y → GetSignal y other = GetSignal x other.
Proof. intros [_ H]. unfold GetSignal. by rewrite !find_fmap, H. Qed.

Lemma GetSignal_Some x other i : GetSignal x other = Some i →
  ∃ s, waiting_on_signals_ x !! i = Some s ∧ sig_task s = other.
Proof.
  unfold GetSignal. destruct (list_find _ _) as [[j s]|] eqn:E; [|done]. intros [= ->].
  apply list_find_Some in E as (H & Hs & _). eauto.
Qed.

Lemma twice_delivered_same (b1 b2 : bool) this1 s1 v1 this2 s2 v2 x :
  same_but_signals x ((λ x, if b2 then delivered this2 s2 v2 x else x) (if b1 then delivered this1 s1 v1 x else x)).
Proof.
  eapply (same_but_signals_trans _ (if b1 then delivered this1 s1 v1 x else x)); cbv beta.
  - destruct b1; [apply delivered_same|apply same_but_signals_refl].
  - destruct b2; [apply delivered_same|apply same_but_signals_refl].
Qed.

(** What a waiting task finds in its entry. *)
Lemma delivered_signal this signals value x i s :
  GetSignal x this = Some i → waiting_on_signals_ x !! i = Some s → tobool (Z.land (expecting_signals s) signals) = true →
  waiting_on_signals_ (delivered this signals value x) !! i = Some (mkSignals this (expecting_signals s) value signals).
Proof.
  intros Hi Hs He. destruct (GetSignal_Some _ _ _ Hi) as (s' & Hs' & Ht). simplify_eq. unfold delivered.
  rewrite Hi, Hs, He. cbn. by rewrite list_lookup_insert_eq by by eapply lookup_lt_Some.
Qed.

(** A signal of one task leaves the entry for another alone. *)
Lemma delivered_elsewhere other this signals value x i :
  GetSignal x other = Some i → other ≠ this → waiting_on_signals_ (delivered this signals value x) !! i = waiting_on_signals_ x !! i.
Proof.
  intros Hi Hne. destruct (GetSignal_Some _ _ _ Hi) as (s & Hs & Ht). unfold delivered. destruct (GetSignal x this) as [j|] eqn:Hj; [|done].
  destruct (GetSignal_Some _ _ _ Hj) as (s' & Hs' & Ht'). rewrite Hs'. destruct (tobool _); [|done]. cbn.
  apply list_lookup_insert_ne. intros ->. congruence.
Qed.

(** Receiving a signal twice is receiving it once. *)
Lemma delivered_twice this signals value x :
  delivered this signals value (delivered this signals value x) = delivered this signals value x.
Proof.
  pose proof (GetSignal_same _ _ this (delivered_same this signals value x)) as Eg.
  unfold delivered at 1. rewrite Eg. unfold delivered. destruct (GetSignal x this) as [i|] eqn:Ei; [|done].
  destruct (GetSignal_Some _ _ _ Ei) as (s & Es & _). rewrite Es.
  destruct (tobool (Z.land (expecting_signals s) signals)) eqn:Et; [|by rewrite Es, Et].
  cbn [waiting_on_signals_ set_waiting]. rewrite list_lookup_insert_eq by (by eapply lookup_lt_Some).
  cbn [expecting_signals]. rewrite Et. unfold set_waiting. simpl. by rewrite list_insert_insert_eq.
Qed.

Lemma deliver_Ok this signals value l k x :
  tasks k !! l = Some x →
  deliver this signals value l k = Ok (tt, set_tasks (<[l := delivered this signals value x]> (tasks k)) k).
Proof.
  intros Hx. unfold deliver, delivered. rewrite (bind_Ok _ _ _ _ _ (get_task_Ok _ _ _ Hx)).
  assert (Hid : Ok (tt, k) = Ok (tt, set_tasks (<[l := x]> (tasks k)) k)).
  { rewrite insert_id by done. by destruct k. }
  destruct (GetSignal x this) as [i|]; [|exact Hid].
  destruct (waiting_on_signals_ x !! i) as [s|]; [|exact Hid].
  destruct (tobool _); [done|exact Hid].
Qed.

(** The tasks after the listeners [ls] got a signal. *)
Definition all_delivered (this signals value : Z) (ls : list Z) (ts : gmap Z Task) : gmap Z Task :=
  map_imap (λ t x, Some (if bool_decide (t ∈ ls) then delivered this signals value x else x)) ts.

Lemma lookup_all_delivered this signals value ls ts t :
  all_delivered this signals value ls ts !! t =
    (λ x, if bool_decide (t ∈ ls) then delivered this signals value x else x) <$> ts !! t.
Proof. unfold all_delivered. rewrite map_lookup_imap. by destruct (ts !! t). Qed.

Lemma deliver_all_Ok this signals value ls : ∀ k,
  Forall (alive k) ls →
  deliver_all this signals value ls k = Ok (tt, set_tasks (all_delivered this signals value ls (tasks k)) k).
Proof.
  induction ls as [|l ls IH]; intros k Hal; cbn [deliver_all].
  - do 2 f_equal. replace (all_delivered _ _ _ _ _) with (tasks k); [by destruct k|].
    apply map_eq. intros t. rewrite lookup_all_delivered. by destruct (tasks k !! t).
  - apply Forall_cons in Hal as [[x Hx] Hal]. rewrite (bind_Ok _ _ _ _ _ (deliver_Ok _ _ _ _ _ _ Hx)).
    rewrite IH.
    + do 2 f_equal. unfold set_tasks. simpl. f_equal. apply map_eq. intros t.
      rewrite !lookup_all_delivered. destruct (decide (t = l)) as [->|Hne].
      * rewrite lookup_insert_eq, Hx. simpl. rewrite (bool_decide_true (l ∈ l :: ls)) by (by left).
        case_bool_decide; [by rewrite delivered_twice|done].
      * rewrite lookup_insert_ne by done. destruct (tasks k !! t); [|done]. simpl. f_equal.
        rewrite (bool_decide_ext (t ∈ ls) (t ∈ l :: ls)); [done|]. rewrite elem_of_cons. naive_solver.
    + eapply Forall_impl; [exact Hal|]. intros t [y Hy]. unfold alive. simpl.
      destruct (decide (t = l)) as [->|Hne]; [rewrite lookup_insert_eq; eauto|].
      rewrite lookup_insert_ne, Hy by done. eauto.
Qed.

Lemma SendSignal_Ok this signals value k x :
  tasks k !! this = Some x → Forall (alive k) (listening_for_signals_ x) → signals ≠ 0 →
  SendSignal this signals value k =
    Ok (tt, set_tasks (all_delivered this signals value (listening_for_signals_ x) (tasks k)) k).
Proof.
  intros Hx Hal Hs. unfold SendSignal. rewrite LinkedList.tobool_ne by done. erewrite bind_Ok by done.
  rewrite (bind_Ok _ _ _ _ _ (get_task_Ok _ _ _ Hx)). by apply deliver_all_Ok.
Qed.

(** ** Switching to a task *)

(** What a task must satisfy to be switched to. *)
Definition task_ok (x : Task) : Prop :=
  valid_regs (is_user_ x) (regs_ x) = true ∧
  kernel_stack_allocation_ x ≠ 0 ∧
  u32 (kernel_stack_allocation_ x + kDefaultKernStackSize) mod 4 = 0 ∧
  (is_user_ x = true → waiting_on_signals_ x ≠ [] → eax (regs_ x) = 0).

(** No task has a listener that is gone. *)
Definition no_dangling (k : kernel) : Prop :=
  ∀ t x, tasks k !! t = Some x → Forall (alive k) (listening_for_signals_ x).

(** The task as it resumes: a received signal is in its registers and its entry is gone. *)
Definition resumed (x : Task) : Task :=
  match getReceivedSignal x with
  | Some (sig, val, sender) =>
      set_waiting (match GetSignal x sender with
                   | Some i => delete i (waiting_on_signals_ x)
                   | None => waiting_on_signals_ x
                   end)
        (set_regs (set_signal_regs sig val (regs_ x)) x)
  | None => x
  end.

Lemma received_Some l sig val sender :
  received l = Some (sig, val, sender) →
  ∃ s, s ∈ l ∧ sig_task s = sender ∧ sig_value s = val ∧ received_signal s = sig ∧ sig ≠ 0.
Proof.
  induction l as [|s l IH]; [done|]. simpl. unfold tobool. destruct (Z.eqb_spec (received_signal s) 0); simpl.
  - intros (s' & ? & ?)%IH. exists s'. split; [by right|done].
  - intros [= <- <- <-]. exists s. split; [by left|done].
Qed.

Lemma GetSignal_elem x s : s ∈ waiting_on_signals_ x → is_Some (GetSignal x (sig_task s)).
Proof.
  intros Hs. unfold GetSignal. destruct (list_find _ _) eqn:E; [simpl; eauto|].
  apply list_find_None in E. rewrite Forall_forall in E. by destruct (E _ Hs).
Qed.

Lemma resumed_keeps x :
  is_user_ (resumed x) = is_user_ x ∧ pd_ (resumed x) = pd_ x ∧
  kernel_stack_allocation_ (resumed x) = kernel_stack_allocation_ x ∧
  listening_for_signals_ (resumed x) = listening_for_signals_ x ∧
  eax (regs_ (resumed x)) = eax (regs_ x) ∧
  valid_regs (is_user_ x) (regs_ (resumed x)) = valid_regs (is_user_ x) (regs_ x).
Proof. unfold resumed. by destruct (getReceivedSignal x) as [[[? ?] ?]|]. Qed.

Lemma resumed_nowait x : waiting_on_signals_ x = [] → waiting_on_signals_ (resumed x) = [].
Proof. intros H. unfold resumed, getReceivedSignal. by rewrite H. Qed.

Lemma resumed_ok x : task_ok x → task_ok (resumed x).
Proof.
  intros (H1 & H2 & H3 & H4). destruct (resumed_keeps x) as (Eu & _ & Es & _ & Ea & Ev).
  unfold task_ok. rewrite Eu, Es, Ea, Ev. split_and!; try done. intros Hu Hw. apply H4; [done|].
  intros E. by apply Hw, resumed_nowait.
Qed.

Lemma same_ok x y : same_but_signals x y → task_ok x → task_ok y.
Proof.
  intros [E Ew] (H1 & H2 & H3 & H4). unfold task_ok. rewrite E. simpl. split_and!; try done.
  intros Hu Hw. apply H4; [done|]. intros Ex. rewrite Ex in Ew. simpl in Ew. by apply fmap_nil_inv in Ew.
Qed.

Lemma receive_signal_Ok t k x :
  tasks k !! t = Some x → task_ok x →
  receive_signal t k = Ok (tt, set_tasks (<[t := resumed x]> (tasks k)) k).
Proof.
  intros Hx (_ & _ & _ & Hok). unfold receive_signal, resumed. rewrite (bind_Ok _ _ _ _ _ (get_task_Ok _ _ _ Hx)).
  assert (Hid : Ok (tt, k) = Ok (tt, set_tasks (<[t := x]> (tasks k)) k)).
  { rewrite insert_id by done. by destruct k. }
  unfold isWaitingOnSignal. destruct (getReceivedSignal x) as [[[sig val] sender]|] eqn:Er.
  2:{ destruct (waiting_on_signals_ x) eqn:E; exact Hid. }
  destruct (received_Some _ _ _ _ Er) as (s & Hin & <- & _).
  assert (Hne : waiting_on_signals_ x ≠ []) by (intros E; rewrite E in Hin; by apply elem_of_nil in Hin).
  destruct (GetSignal_elem _ _ Hin) as [i Hi]. rewrite Hi.
  destruct (waiting_on_signals_ x) as [|w ws] eqn:Ew; [done|].
  assert (Ha : (if is_user_ x then assert_ (eax (regs_ x) =? 0) else mret tt) k = Ok (tt, k)).
  { destruct (is_user_ x); [|done]. by rewrite Hok. }
  rewrite (bind_Ok _ _ _ _ _ Ha). erewrite bind_Ok by done. unfold RemoveSignal.
  erewrite bind_Ok by (apply get_task_Ok; simpl; apply lookup_insert_eq).
  change (GetSignal (set_regs _ x) (sig_task s)) with (GetSignal x (sig_task s)). rewrite Hi.
  unfold put_task, modify. simpl. rewrite insert_insert_eq, Ew. done.
Qed.

(** The machine and the tables once a task with this stack and page directory runs. *)
Definition switched (x : Task) (ts : gmap Z Task) (k : kernel) : kernel :=
  set_tasks ts (set_mach (set_current (pd_ x) (mach k))
    (set_gdt (match Gdt.SetKernelStack (u32 (kernel_stack_allocation_ x + kDefaultKernStackSize)) (gdt k) with
              | Ok (_, g) => g | Fault _ => gdt k end) k)).

(** The tasks once [t] runs: it has resumed, and its listeners know. *)
Definition running_tasks (t : Z) (x : Task) (ts : gmap Z Task) : gmap Z Task :=
  all_delivered t kRunning 0 (listening_for_signals_ x) (<[t := resumed x]> ts).

Lemma switch_to_Ok t k x :
  tasks k !! t = Some x → task_ok x → Forall (alive k) (listening_for_signals_ x) →
  switch_to t k = Ok (SwitchTask (enable_interrupts (regs_ (resumed x))),
                      switched x (running_tasks t x (tasks k)) k).
Proof.
  intros Hx Hok Hal. unfold switch_to. rewrite (bind_Ok _ _ _ _ _ (receive_signal_Ok _ _ _ Hx Hok)).
  destruct (resumed_ok _ Hok) as (Hv & Hs & Hm & _).
  destruct (resumed_keeps x) as (Eu & Ep & Es & El & _ & _).
  erewrite bind_Ok by (apply get_task_Ok; simpl; apply lookup_insert_eq).
  erewrite bind_Ok by (by apply ValidateRegs_Ok).
  rewrite Es in Hs, Hm. unfold getKernelStackBase. rewrite Es, LinkedList.tobool_ne, Hm by done.
  erewrite bind_Ok by done. erewrite bind_Ok by done.
  erewrite bind_Ok.
  2:{ eapply SendSignal_Ok; [simpl; apply lookup_insert_eq| |done]. rewrite El.
      eapply Forall_impl; [exact Hal|]. intros l [y Hy]. unfold alive. simpl.
      destruct (decide (l = t)) as [->|]; [rewrite lookup_insert_eq; eauto|].
      rewrite lookup_insert_ne, Hy by done. eauto. }
  rewrite El. simpl tasks.
  set (ts := all_delivered _ _ _ _ _).
  assert (∃ y, ts !! t = Some y ∧ regs_ y = regs_ (resumed x) ∧ pd_ y = pd_ x) as (y & Hy & Er & Epd).
  { unfold ts. rewrite lookup_all_delivered, lookup_insert_eq. simpl. eexists. split; [done|].
    rewrite <- Ep. case_bool_decide; [|done].
    destruct (delivered_same t kRunning 0 (resumed x)) as [-> _]. done. }
  erewrite bind_Ok by (apply get_task_Ok; exact Hy).
  rewrite <- Er. unfold switched. rewrite <- Epd. done.
Qed.

(** ** The invariant of the scheduler *)

(** Every task but the current one can be switched to. *)
Definition tasks_ok (k : kernel) (l : list (Z * Z)) : Prop :=
  ∀ t x, tasks k !! t = Some x → head l.*2 ≠ Some t → task_ok x.

Definition inv (k : kernel) (l : list (Z * Z)) : Prop := wf k l ∧ tasks_ok k l ∧ no_dangling k.

(** A task changed by the scheduler: nobody's list of listeners changed, and a task that
    waits for nothing still waits for nothing. *)
Definition evolves (x y : Task) : Prop :=
  listening_for_signals_ y = listening_for_signals_ x ∧
  (waiting_on_signals_ x = [] → waiting_on_signals_ y = []).

Definition tasks_evolve (ts ts' : gmap Z Task) : Prop :=
  (∀ t, is_Some (ts !! t) → is_Some (ts' !! t)) ∧
  ∀ t y, ts' !! t = Some y → ∃ x, ts !! t = Some x ∧ evolves x y.

Lemma same_evolves x y : same_but_signals x y → evolves x y.
Proof.
  intros [E Ew]. split; [by rewrite E|]. intros H. rewrite H in Ew. by apply fmap_nil_inv in Ew.
Qed.

Lemma resumed_evolves x : evolves x (resumed x).
Proof. split; [apply resumed_keeps|apply resumed_nowait]. Qed.

Lemma evolves_trans x y z : evolves x y → evolves y z → evolves x z.
Proof. intros [E1 H1] [E2 H2]. split; [congruence|auto]. Qed.

Lemma tasks_evolve_trans t1 t2 t3 : tasks_evolve t1 t2 → tasks_evolve t2 t3 → tasks_evolve t1 t3.
Proof.
  intros [H1 E1] [H2 E2]. split; [auto|]. intros t z (y & Hy & Eyz)%E2.
  destruct (E1 _ _ Hy) as (x & Hx & Exy). exists x. eauto using evolves_trans.
Qed.

Lemma tasks_evolve_insert (ts : gmap Z Task) t x y :
  ts !! t = Some x → evolves x y → tasks_evolve ts (<[t := y]> ts).
Proof.
  intros Hx Hxy. split; intros t'; destruct (decide (t' = t)) as [->|Hne].
  - rewrite lookup_insert_eq. eauto.
  - by rewrite lookup_insert_ne.
  - rewrite lookup_insert_eq. intros y' [= <-]. eauto.
  - rewrite lookup_insert_ne by done. intros z Hz. exists z. split; [done|]. by split.
Qed.

Lemma all_delivered_same this signals value ls ts t y :
  all_delivered this signals value ls ts !! t = Some y → ∃ x, ts !! t = Some x ∧ same_but_signals x y.
Proof.
  rewrite lookup_all_delivered. intros (x & -> & Hx)%fmap_Some. exists x. split; [done|].
  case_bool_decide; subst y; [apply delivered_same|apply same_but_signals_refl].
Qed.

Lemma tasks_evolve_delivered this signals value ls ts :
  tasks_evolve ts (all_delivered this signals value ls ts).
Proof.
  split.
  - intros t [x Hx]. rewrite lookup_all_delivered, Hx. simpl. eauto.
  - intros t y (x & Hx & Hs)%all_delivered_same. eauto using same_evolves.
Qed.

Lemma tasks_evolve_running t x ts : ts !! t = Some x → tasks_evolve ts (running_tasks t x ts).
Proof.
  intros Hx. eapply tasks_evolve_trans; [|apply tasks_evolve_delivered].
  apply tasks_evolve_insert with x; [done|apply resumed_evolves].
Qed.

(** Rotating the queue and updating the tasks keeps the invariant. *)
Lemma inv_evolve k k' l l' :
  inv k l → l' ≡ₚ l → queue k' l' → gKernelTask k' = gKernelTask k →
  tasks_evolve (tasks k) (tasks k') → tasks_ok k' l' → inv k' l'.
Proof.
  intros [(_ & Hnd & Hal & H0 & Hk & x & Hx & Hw) [_ Hdan]] Hp Hq Ek [Hd He] Hok.
  assert (Hal' : ∀ t, alive k t → alive k' t) by (intros t; apply Hd).
  assert (Hp2 : l'.*2 ≡ₚ l.*2) by (by rewrite Hp). split_and!; try done.
  - split_and!; [done|by rewrite Hp2| |by rewrite Hp2|by rewrite Ek, Hp2|].
    + rewrite Hp2. eapply Forall_impl; [exact Hal|exact Hal'].
    + destruct (Hd (gKernelTask k)) as [y Hy]; [eauto|]. rewrite Ek. exists y. split; [done|].
      destruct (He _ _ Hy) as (x' & Hx' & Ev). simplify_eq. by apply Ev.
  - intros t y Hy. destruct (He _ _ Hy) as (x' & Hx' & Ev & _). rewrite Ev.
    eapply Forall_impl; [by eapply Hdan|exact Hal'].
Qed.

Lemma running_tasks_ok t x ts :
  (∀ t' y, ts !! t' = Some y → task_ok y) → ts !! t = Some x →
  ∀ t' y, running_tasks t x ts !! t' = Some y → task_ok y.
Proof.
  intros Hok Hx t' y (z & Hz & Hs)%all_delivered_same. apply same_ok with z; [done|].
  destruct (decide (t' = t)) as [->|Hne].
  - rewrite lookup_insert_eq in Hz. simplify_eq. apply resumed_ok. by eapply Hok.
  - rewrite lookup_insert_ne in Hz by done. by eapply Hok.
Qed.

(** The search finds the first task that can run. *)
Lemma list_find_runs k skip x rest :
  Forall (λ y, runs k y = false) skip → runs k x = true →
  list_find (λ y, runs k y = true) (skip ++ x :: rest) = Some (length skip, x).
Proof.
  intros Hs Hx. apply list_find_Some. split_and!.
  - rewrite lookup_app_r, Nat.sub_diag by done. done.
  - done.
  - intros j y Hj Hlt. rewrite lookup_app_l in Hj by done. rewrite Forall_forall in Hs.
    rewrite (Hs y); [done|]. by eapply list_elem_of_lookup_2.
Qed.

(** The start of [Schedule] up to the choice of the next task. *)
Definition schedule_rest (regs : option registers_t) (retval n0 t0 n1 : Z) : M kernel outcome :=
  new_task ← on_nodes (LinkedList.get n1);
  x ← get_task t0;
  match regs with
  | Some r => if negb (is_user_ x) then check_kernel_stack r else mret tt
  | None => mret tt
  end;;
  leave_current regs retval n0 t0 n1;;
  switch_to new_task.

Lemma Schedule_choose regs retval k n0 t0 skip n1 t1 rest x0 :
  inv k ((n0, t0) :: skip ++ (n1, t1) :: rest) →
  Forall (λ y, runs k y = false) skip → runs k (n1, t1) = true →
  tasks k !! t0 = Some x0 → (∀ r, regs = Some r → valid_regs (is_user_ x0) r = true) →
  Schedule regs retval k = schedule_rest regs retval n0 t0 n1 k.
Proof.
  intros [(Hq & _ & Hal & H0 & _) _] Hs Hr Hx0 Hv. pose proof Hq as [Hc _].
  destruct (chain_head _ _ _ _ Hc) as (Hg & Hnx & Hc' & Hq0 & En). simpl in Hg, En. rewrite En in Hg, Hnx, Hq0.
  unfold Schedule. erewrite bind_Ok.
  2:{ destruct regs as [r|]; [|done]. unfold GetCurrentTask. erewrite bind_Ok.
      2:{ erewrite bind_Ok by done. rewrite En. exact Hg. }
      rewrite (bind_Ok _ _ _ _ _ (get_task_Ok _ _ _ Hx0)). by apply ValidateRegs_Ok, Hv. }
  erewrite bind_Ok by done. rewrite En, LinkedList.tobool_ne by done. erewrite bind_Ok by done.
  rewrite (bind_Ok _ _ _ _ _ Hg). simpl in H0. apply Forall_cons in H0 as [Ht0 _].
  rewrite LinkedList.tobool_ne by done. erewrite bind_Ok by done. rewrite (bind_Ok _ _ _ _ _ Hnx).
  assert (Hf0 : LinkedList.first (skip ++ (n1, t1) :: rest) ≠ 0).
  { destruct skip; destruct Hc' as (_ & ? & _); done. }
  rewrite LinkedList.tobool_ne by done. cbn [negb]. erewrite bind_Ok by done.
  pose proof (LinkedList.chain_fuel _ _ _ Hq) as Hfuel. simpl in Hal. apply Forall_cons in Hal as [_ Hal].
  erewrite bind_Ok by (apply find_runnable_Ok; [exact Hc'|exact Hal|unfold queue_fuel; simpl in Hfuel; lia]).
  rewrite (list_find_runs _ _ _ _ Hs Hr). erewrite bind_Ok by done. simpl fst.
  destruct (LinkedList.chain_tail _ _ _ _ Hc') as (_ & Hn1 & _). simpl in Hn1.
  rewrite LinkedList.tobool_ne by done. done.
Qed.

(** What the interrupted task must satisfy: its registers are those of a task of its kind,
    and a kernel task is interrupted on its own stack. *)
Definition tick_pre (k : kernel) (t0 : Z) (x0 : Task) (r : registers_t) : Prop :=
  tasks k !! t0 = Some x0 ∧ task_ok (set_regs r x0) ∧
  (is_user_ x0 = true ∨ check_kernel_stack r k = Ok (tt, k)).

Lemma Schedule_switch retval k n0 t0 skip n1 t1 rest x0 x1 r :
  inv k ((n0, t0) :: skip ++ (n1, t1) :: rest) →
  Forall (λ y, runs k y = false) skip → runs k (n1, t1) = true →
  tick_pre k t0 x0 r → tasks k !! t1 = Some x1 →
  ∃ m, Schedule (Some r) retval k =
    Ok (SwitchTask (enable_interrupts (regs_ (resumed x1))),
        switched x1 (running_tasks t1 x1 (<[t0 := set_regs r x0]> (tasks k))) (set_queue n1 (set_nodes m k))) ∧
    LinkedList.is_list m n1 ((n1, t1) :: rest ++ (n0, t0) :: skip).
Proof.
  intros Hinv Hs Hr (Hx0 & Hok & Hst) Hx1.
  rewrite (Schedule_choose _ _ _ _ _ _ _ _ _ _ Hinv Hs Hr Hx0) by (intros ? [= <-]; apply Hok).
  destruct Hinv as [(Hq & Hnd & Hal & H0 & _) [Htok Hdan]].
  assert (Hne : t1 ≠ t0).
  { simpl in Hnd. apply NoDup_cons in Hnd as [Hn _]. intros ->. apply Hn. rewrite fmap_app.
    apply elem_of_app. right. by left. }
  assert (Hok1 : task_ok x1) by (apply (Htok t1); [done|simpl; congruence]).
  destruct (cycle_to_Ok (n1, t1) ((n0, t0) :: skip) (queue_fuel k) k rest) as (m & Hc & Hl & _).
  { exact Hq. } { pose proof (LinkedList.chain_fuel _ _ _ Hq) as Hf. unfold queue_fuel. simpl in *.
    rewrite length_app in Hf. simpl in Hf. lia. }
  exists m. split; [|exact Hl]. unfold schedule_rest.
  destruct Hq as [Hch _]. destruct Hch as (_ & _ & n' & _ & Hch).
  destruct (LinkedList.chain_tail _ _ _ _ Hch) as (_ & Hn1 & n'' & Hn1s & _). simpl in Hn1, Hn1s.
  erewrite bind_Ok by (apply on_nodes_read; by eapply LinkedList.get_Ok).
  rewrite (bind_Ok _ _ _ _ _ (get_task_Ok _ _ _ Hx0)). cbn beta iota.
  erewrite bind_Ok. 2:{ destruct Hst as [->|Hst]; [done|]. by destruct (is_user_ x0). }
  unfold leave_current, with_task. erewrite bind_Ok.
  2:{ erewrite bind_Ok by done. simpl in Hc. rewrite (bind_Ok _ _ _ _ _ Hc).
      by erewrite bind_Ok by (apply get_task_Ok; exact Hx0). }
  erewrite switch_to_Ok; [done| |exact Hok1|].
  - simpl. by rewrite lookup_insert_ne by done.
  - eapply Forall_impl; [by eapply Hdan|]. intros t [y Hy]. unfold alive. simpl.
    apply lookup_insert_is_Some'. right. eauto.
Qed.

(** Nothing to switch to. *)
Lemma Schedule_idle retval k n0 t0 rest x0 r :
  inv k ((n0, t0) :: rest) → Forall (λ y, runs k y = false) rest → tick_pre k t0 x0 r →
  t0 = gKernelTask k ∧ Schedule (Some r) retval k = Ok (Returned, k).
Proof.
  intros [(Hq & _ & Hal & H0 & Hkt & xk & Hxk & Hw) _] Hs (Hx0 & [Hv _] & _).
  assert (Et : t0 = gKernelTask k).
  { simpl in Hkt. apply elem_of_cons in Hkt as [E|Hin]; [done|]. exfalso.
    apply list_elem_of_fmap in Hin as ([n t] & Et & Hin). simpl in Et. subst t.
    rewrite Forall_forall in Hs. specialize (Hs _ Hin). unfold runs in Hs. simpl in Hs. rewrite Hxk in Hs.
    unfold canRunTask, isWaitingOnSignal in Hs. by rewrite Hw in Hs. }
  split; [done|]. pose proof Hq as [Hc _].
  destruct (chain_head _ _ _ _ Hc) as (Hg & Hnx & Hc' & Hq0 & En). simpl in Hg, En. rewrite En in Hg, Hnx, Hq0.
  unfold Schedule. erewrite bind_Ok.
  2:{ unfold GetCurrentTask. erewrite bind_Ok.
      2:{ erewrite bind_Ok by done. rewrite En. exact Hg. }
      rewrite (bind_Ok _ _ _ _ _ (get_task_Ok _ _ _ Hx0)). by apply ValidateRegs_Ok. }
  erewrite bind_Ok by done. rewrite En, LinkedList.tobool_ne by done. erewrite bind_Ok by done.
  rewrite (bind_Ok _ _ _ _ _ Hg). simpl in H0. apply Forall_cons in H0 as [Ht0 _].
  rewrite LinkedList.tobool_ne by done. erewrite bind_Ok by done. rewrite (bind_Ok _ _ _ _ _ Hnx).
  unfold GetMainKernelTask. destruct rest as [|y rest].
  { simpl. rewrite Et. munfold. by rewrite Z.eqb_refl. }
  rewrite LinkedList.tobool_ne by (by destruct Hc' as (_ & ? & _)). cbn [negb]. erewrite bind_Ok by done.
  pose proof (LinkedList.chain_fuel _ _ _ Hq) as Hfuel.
  pose proof (Hal : Forall (alive k) (t0 :: (y :: rest).*2)) as [_ Hal']%Forall_cons.
  erewrite bind_Ok by (apply find_runnable_Ok; [exact Hc'|exact Hal'|unfold queue_fuel; simpl in *; lia]).
  rewrite (proj2 (list_find_None _ _)).
  2:{ eapply Forall_impl; [exact Hs|]. intros z Hz. simpl in Hz. rewrite Hz. done. }
  erewrite bind_Ok by done. by rewrite Et, Z.eqb_refl.
Qed.

(** Every queue splits at the first task that can run. *)
Lemma queue_split k (l : list (Z * Z)) :
  Forall (λ y, runs k y = false) l ∨
  ∃ skip x rest, l = skip ++ x :: rest ∧ Forall (λ y, runs k y = false) skip ∧ runs k x = true.
Proof.
  induction l as [|y l IH]; [by left|]. destruct (runs k y) eqn:E.
  - right. by exists [], y, l.
  - destruct IH as [IH|(skip & x & rest & -> & Hs & Hx)]; [left; by constructor|].
    right. exists (y :: skip), x, rest. split_and!; [done|by constructor|done].
Qed.

Lemma received_insert (l : list Signals) : ∀ i s,
  (i < length l)%nat → tobool (received_signal s) = true → is_Some (received (<[i := s]> l)).
Proof.
  induction l as [|a l IH]; intros i s Hi Hs; [simpl in Hi; lia|]. destruct i as [|i]; simpl.
  - rewrite Hs. eauto.
  - destruct (tobool (received_signal a)); [eauto|]. apply IH; [simpl in Hi; lia|done].
Qed.

(** A signal never blocks a task. *)
Lemma delivered_canRun this signals value x :
  signals ≠ 0 → canRunTask x = true → canRunTask (delivered this signals value x) = true.
Proof.
  intros Hs Hx. unfold delivered. destruct (GetSignal x this) as [i|]; [|done].
  destruct (waiting_on_signals_ x !! i) as [s|] eqn:E; [|done]. destruct (tobool _); [|done].
  unfold canRunTask, isWaitingOnSignal, getReceivedSignal. cbn [waiting_on_signals_ set_waiting].
  destruct (received_insert (waiting_on_signals_ x) i
    (mkSignals (sig_task s) (expecting_signals s) value signals)) as [? ->].
  { by eapply lookup_lt_Some. } { by apply LinkedList.tobool_ne. }
  by destruct (<[i := _]> _).
Qed.

(** The state after a switch is sound. *)
Lemma switched_inv k n0 t0 skip n1 t1 rest x0 x1 r m :
  inv k ((n0, t0) :: skip ++ (n1, t1) :: rest) →
  tick_pre k t0 x0 r → tasks k !! t1 = Some x1 →
  LinkedList.is_list m n1 ((n1, t1) :: rest ++ (n0, t0) :: skip) →
  inv (switched x1 (running_tasks t1 x1 (<[t0 := set_regs r x0]> (tasks k))) (set_queue n1 (set_nodes m k)))
    ((n1, t1) :: rest ++ (n0, t0) :: skip).
Proof.
  intros Hinv (Hx0 & Hok & _) Hx1 Hl.
  assert (Hne : t0 ≠ t1).
  { destruct Hinv as [(_ & Hnd & _) _]. simpl in Hnd. apply NoDup_cons in Hnd as [Hn _]. intros ->.
    apply Hn. rewrite fmap_app. apply elem_of_app. right. by left. }
  assert (Hx1' : <[t0 := set_regs r x0]> (tasks k) !! t1 = Some x1) by (by rewrite lookup_insert_ne).
  eapply inv_evolve; [exact Hinv| |exact Hl|done| |].
  - change ((n0, t0) :: skip ++ (n1, t1) :: rest) with (((n0, t0) :: skip) ++ (n1, t1) :: rest).
    rewrite (Permutation_app_comm ((n0, t0) :: skip)). done.
  - simpl. eapply tasks_evolve_trans; [apply (tasks_evolve_insert _ t0 x0 (set_regs r x0)); [done|]|].
    { by split. } { by apply tasks_evolve_running. }
  - intros t y Hy _. simpl in Hy. revert t y Hy. apply running_tasks_ok; [|done]. intros t y.
    destruct Hinv as [_ [Htok _]]. destruct (decide (t = t0)) as [->|Hnt].
    + rewrite lookup_insert_eq. by intros [= <-].
    + rewrite lookup_insert_ne by done. intros Hy. apply (Htok t); [done|simpl; congruence].
Qed.

(** A tick of the timer while some task runs. *)
Inductive tick (k k' : kernel) : Prop :=
  | Tick n0 t0 l x0 r o :
      queue k ((n0, t0) :: l) → tick_pre k t0 x0 r → Schedule (Some r) 0 k = Ok (o, k') → tick k k'.

Lemma queue_unique k l l' : queue k l → queue k l' → l = l'.
Proof.
  intros [H _] [H' _]. revert H H'. generalize (gTaskQueue k). revert l'.
  induction l as [|x l IH]; intros [|y l'] n; try done.
  - intros -> (? & ? & _). done.
  - intros (? & ? & _) ->. done.
  - intros (E & _ & n1 & H1 & Hc1) (E' & _ & n2 & H2 & Hc2). rewrite H1 in H2. simplify_eq.
    f_equal; [|by eapply IH]. destruct x, y. simpl in *. congruence.
Qed.

(** One tick brings a task that can run closer to the front. *)
Lemma tick_step k k' n0 t0 l p x :
  inv k ((n0, t0) :: l) → l !! p = Some x → runs k x = true → tick k k' →
  ∃ y l', inv k' (y :: l') ∧ (y = x ∨ ∃ q, (q < p)%nat ∧ l' !! q = Some x ∧ runs k' x = true).
Proof.
  intros Hinv Hp Hr [n0' t0' l1 x0 r o Hq Hpre Hrun].
  pose proof Hinv as [(Hq0 & Hnd & _) _]. pose proof (queue_unique _ _ _ Hq Hq0). simplify_eq.
  destruct (queue_split k l) as [Hall|(skip & [n1 t1] & rest & -> & Hs & Hr1)].
  { rewrite Forall_forall in Hall. apply list_elem_of_lookup_2, Hall in Hp. congruence. }
  assert (∃ x1, tasks k !! t1 = Some x1) as [x1 Hx1].
  { unfold runs in Hr1. simpl in Hr1. destruct (tasks k !! t1); [eauto|done]. }
  destruct (Schedule_switch 0 _ _ _ _ _ _ _ _ _ _ Hinv Hs Hr1 Hpre Hx1) as (m & Hrun' & Hl).
  rewrite Hrun in Hrun'. simplify_eq. pose proof (switched_inv _ _ _ _ _ _ _ _ _ _ _ Hinv Hpre Hx1 Hl) as Hinv'.
  eexists _, _. split; [exact Hinv'|]. destruct (decide (p < length skip)%nat) as [Hlt|Hge].
  { rewrite lookup_app_l in Hp by done. rewrite Forall_forall in Hs.
    apply list_elem_of_lookup_2, Hs in Hp. congruence. }
  rewrite lookup_app_r in Hp by lia. destruct (p - length skip)%nat as [|q] eqn:Eq; simpl in Hp.
  { left. congruence. }
  right. exists q. split_and!; [lia|rewrite lookup_app_l; [done|by eapply lookup_lt_Some]|].
  apply list_elem_of_lookup_2 in Hp. rewrite fmap_cons, fmap_app, fmap_cons in Hnd. simpl in Hnd.
  assert (Hx2 : x.2 ∈ rest.*2) by (apply list_elem_of_fmap; eauto).
  apply NoDup_cons in Hnd as [Hn0 [_ [_ [Hn1 _]%NoDup_cons]]%NoDup_app].
  assert (x.2 ≠ t0) by (intros E; rewrite E in Hx2; apply Hn0, elem_of_app; right; by right).
  assert (x.2 ≠ t1) by (intros E; rewrite E in Hx2; done).
  unfold runs. simpl. unfold running_tasks. rewrite lookup_all_delivered, !lookup_insert_ne by done.
  unfold runs in Hr. destruct (tasks k !! x.2) as [t|]; [|done]. simpl.
  case_bool_decide; [by apply delivered_canRun|done].
Qed.

(** ** Deleting a task *)

(** The physical pages a task owns, and what deleting it needs of them: each is in use and
    recorded once. *)
Definition owned_pages (pages : list Z) : list Z := filter (λ p, p ≠ 0) pages.

Definition owned_ok (s : Pmm.state) (pages : list Z) : Prop :=
  NoDup (owned_pages pages) ∧
  Forall (λ p, 0 ≤ p < kNumPageDirEntries ∧ Pmm.used s p = true) (owned_pages pages).

Lemma on_pmm_Ok {A} (m : M Pmm.state A) k a s :
  m (pmm (mach k)) = Ok (a, s) → on_pmm m k = Ok (a, set_mach (Paging.set_pmm s (mach k)) k).
Proof. intros H. unfold on_pmm, on_mach, in_pmm, zoom. by rewrite H. Qed.

Lemma set_pmm_id k : set_mach (Paging.set_pmm (pmm (mach k)) (mach k)) k = k.
Proof. by destruct k as [[] ? ? ? ? ? ? ?]. Qed.

Lemma free_pages_Ok pages : ∀ k,
  Pmm.wf (pmm (mach k)) → owned_ok (pmm (mach k)) pages →
  ∃ s, free_pages_of pages k = Ok (tt, set_mach (Paging.set_pmm s (mach k)) k) ∧ Pmm.wf s ∧
       ∀ q, 0 ≤ q → Pmm.used s q = negb (bool_decide (q ∈ owned_pages pages)) && Pmm.used (pmm (mach k)) q.
Proof.
  induction pages as [|p ps IH]; intros k Hwf [Hnd Hu]; cbn [free_pages_of].
  { exists (pmm (mach k)). rewrite set_pmm_id. done. }
  unfold owned_pages in *. rewrite filter_cons in Hnd, Hu |- *. unfold tobool.
  destruct (Z.eqb_spec p 0) as [->|Hp]; cbn [negb].
  { erewrite bind_Ok by done. rewrite decide_False in * by (intros H; by apply H). by apply IH. }
  rewrite decide_True in * by done. apply NoDup_cons in Hnd as [Hin Hnd].
  apply Forall_cons in Hu as [[Hr Hpu] Hu].
  destruct (SetPageFree_Ok _ _ Hwf Hr Hpu) as (s1 & Hrun & Hwf1 & _ & Hu1).
  erewrite bind_Ok.
  2:{ erewrite bind_Ok by (apply on_pmm_Ok; by apply PageIsUsed_Ok). rewrite Hpu, set_pmm_id.
      erewrite bind_Ok by done. by apply on_pmm_Ok. }
  destruct (IH (set_mach (Paging.set_pmm s1 (mach k)) k)) as (s & Hrest & Hwfs & Hus).
  { done. }
  { split; [done|]. simpl. rewrite Forall_forall in Hu |- *. intros q Hq. destruct (Hu q Hq) as [Hqr Hqu].
    split; [done|]. rewrite Hu1, Hqu by lia. destruct (Z.eqb_spec q p) as [->|]; [|done]. by destruct Hin. }
  exists s. split_and!; [exact Hrest|done|]. intros q Hq. rewrite Hus by done. simpl. rewrite Hu1 by done.
  rewrite (bool_decide_ext (q ∈ p :: _) (q = p ∨ q ∈ filter (λ p, p ≠ 0) ps)) by apply elem_of_cons.
  destruct (Z.eqb_spec q p) as [->|Hqp].
  - rewrite (bool_decide_true (p = p ∨ _)) by (by left). by destruct (bool_decide _).
  - simpl. rewrite (bool_decide_ext (q = p ∨ _) (q ∈ filter (λ p, p ≠ 0) ps)) by naive_solver. done.
Qed.

(** What deleting the task [x] at [t] needs. *)
Definition delete_pre (k : kernel) (x : Task) (cs : list Channel.Channel) : Prop :=
  Channel.rep (chans k) cs ∧ Forall (λ c, Channel.both_closed c = false) cs ∧
  kernel_stack_allocation_ x ∈ stacks k ∧
  Pmm.wf (pmm (mach k)) ∧ owned_ok (pmm (mach k)) (owned_phys_pages_ x).

(** The task is gone with all it owned; the queue and the other tasks are as before. *)
Definition released (t : Z) (x : Task) (cs : list Channel.Channel) (k k' : kernel) : Prop :=
  Channel.rep (chans k') (omap (Channel.after_close t) cs) ∧
  stacks k' = stacks k ∖ {[kernel_stack_allocation_ x]} ∧
  Pmm.wf (pmm (mach k')) ∧
  (∀ q, 0 ≤ q → Pmm.used (pmm (mach k')) q =
     negb (bool_decide (q ∈ owned_pages (owned_phys_pages_ x))) && Pmm.used (pmm (mach k)) q) ∧
  pds (mach k') = (if pd_ x =? gKernelPageDir (mach k) then pds (mach k) else delete (pd_ x) (pds (mach k))).

Lemma delete_task_Ok t k x cs :
  tasks k !! t = Some x → kernel_stack_allocation_ x ≠ 0 → delete_pre k x cs →
  ∃ k', delete_task t k = Ok (tt, k') ∧ released t x cs k k' ∧ tasks k' = delete t (tasks k) ∧
        nodes k' = nodes k ∧ gTaskQueue k' = gTaskQueue k ∧ gKernelTask k' = gKernelTask k ∧
        gdt k' = gdt k.
Proof.
  intros Hx Hs0 (Hrep & Hop & Hst & Hwf & Hown). unfold delete_task.
  rewrite (bind_Ok _ _ _ _ _ (get_task_Ok _ _ _ Hx)).
  destruct (Channel.CloseEndpointsOwnedByTask_Ok (chans k) cs t Hrep Hop) as (c' & Hc & Hrep').
  erewrite bind_Ok by (unfold on_chans, zoom; by rewrite Hc).
  erewrite bind_Ok.
  2:{ unfold kfree. rewrite (proj2 (Z.eqb_neq _ _) Hs0). erewrite bind_Ok by done. simpl stacks.
      rewrite bool_decide_true by done. by erewrite bind_Ok by done. }
  set (k2 := set_stacks _ _). destruct (free_pages_Ok (owned_phys_pages_ x) k2) as (s & Hf & Hwfs & Hus);
    [done|done|].
  rewrite (bind_Ok _ _ _ _ _ Hf). erewrite bind_Ok by done.
  change (gKernelPageDir (mach (set_mach _ k2))) with (gKernelPageDir (mach k)).
  unfold released.
  destruct (pd_ x =? gKernelPageDir (mach k)); (eexists; split; [by erewrite bind_Ok by done|]);
    simpl; by split_and!.
Qed.

(** Removing the task at the front, which nobody has as a listener, keeps the invariant. *)
Lemma inv_remove k kd n0 t0 l l' signals value ls :
  inv k ((n0, t0) :: l) → l' ≡ₚ l → queue kd l' → gKernelTask kd = gKernelTask k → t0 ≠ gKernelTask k →
  tasks kd = delete t0 (all_delivered t0 signals value ls (tasks k)) →
  (∀ t x, tasks k !! t = Some x → t ≠ t0 → t0 ∉ listening_for_signals_ x) →
  inv kd l' ∧ ∀ t x, tasks kd !! t = Some x → task_ok x.
Proof.
  intros [(_ & Hnd & Hal & H0 & Hk & xk & Hxk & Hw) [Htok Hdan]] Hp Hq Ek Hnk Et Hlis.
  simpl in Hnd, Hal, H0, Hk. apply NoDup_cons in Hnd as [Hn0 Hnd]. apply Forall_cons in Hal as [_ Hal].
  apply Forall_cons in H0 as [_ H0].
  assert (Hlook : ∀ t y, tasks kd !! t = Some y → t ≠ t0 ∧ ∃ x, tasks k !! t = Some x ∧ same_but_signals x y).
  { intros t y. rewrite Et. intros [Hne (x & Hx & Hs)%all_delivered_same]%lookup_delete_Some. eauto. }
  assert (Hal' : ∀ t, alive k t → t ≠ t0 → alive kd t).
  { intros t [x Hx] Hne. unfold alive. rewrite Et, lookup_delete_ne, lookup_all_delivered, Hx by done.
    simpl. eauto. }
  assert (Hok : ∀ t x, tasks kd !! t = Some x → task_ok x).
  { intros t y (Hne & x & Hx & Hs)%Hlook. apply same_ok with x; [done|]. apply (Htok t); [done|].
    simpl. congruence. }
  assert (Hp2 : l'.*2 ≡ₚ l.*2) by (by rewrite Hp). split; [|done]. split_and!.
  - split_and!; [done|by rewrite Hp2| |by rewrite Hp2| |].
    + rewrite Hp2. rewrite Forall_forall in Hal |- *. intros t Ht. apply Hal'; [by apply Hal|].
      intros ->. done.
    + rewrite Ek, Hp2. apply elem_of_cons in Hk as [?|?]; [congruence|done].
    + destruct (Hal' (gKernelTask k)) as [y Hy]; [by exists xk|done|]. rewrite Ek. exists y. split; [done|].
      destruct (Hlook _ _ Hy) as (_ & x & Hx & Hs). simplify_eq. by apply (same_evolves _ _ Hs).
  - intros t x Hx _. by eapply Hok.
  - intros t y Hy. destruct (Hlook _ _ Hy) as (Hne & x & Hx & Hs). apply same_evolves in Hs as [-> _].
    rewrite Forall_forall. intros u Hu. apply Hal'.
    + pose proof (Hdan _ _ Hx) as Hd. rewrite Forall_forall in Hd. by apply Hd.
    + intros ->. by apply (Hlis _ _ Hx Hne).
Qed.

(** The exit path up to the switch. *)
Lemma leave_None retval k n0 t0 skip n1 t1 rest x0 cs :
  inv k ((n0, t0) :: skip ++ (n1, t1) :: rest) →
  tasks k !! t0 = Some x0 → kernel_stack_allocation_ x0 ≠ 0 → delete_pre k x0 cs →
  ∃ kd, leave_current None retval n0 t0 n1 k = Ok (tt, kd) ∧
    queue kd ((n1, t1) :: rest ++ skip) ∧ gKernelTask kd = gKernelTask k ∧ gdt kd = gdt k ∧
    tasks kd = delete t0 (all_delivered t0 kTerminated retval (listening_for_signals_ x0) (tasks k)) ∧
    released t0 x0 cs k kd ∧ nodes kd !! n0 = None.
Proof.
  intros [(Hq & Hnd & _) [_ Hdan]] Hx0 Hs0 Hdel. pose proof Hq as [Hc Hndn].
  destruct (chain_head _ _ _ _ Hc) as (_ & Hnx & Hc' & Hq0 & En). simpl in En. rewrite En in Hnx, Hq0.
  pose proof (LinkedList.chain_fuel _ _ _ Hq) as Hf.
  pose proof (Hndn : NoDup (n0 :: (skip ++ (n1, t1) :: rest).*1)) as [Hn0 Hndn']%NoDup_cons.
  unfold leave_current. erewrite bind_Ok by done. rewrite (bind_Ok _ _ _ _ _ Hnx). erewrite bind_Ok by done.
  set (q := LinkedList.first _) in *.
  destruct (cycle_to_Ok (n1, t1) skip (queue_fuel k) (set_queue q k) rest) as (m & Hcyc & Hl & _).
  { by split. } { unfold queue_fuel. simpl in Hf. rewrite length_app in Hf. simpl in Hf. lia. }
  simpl in Hcyc. rewrite (bind_Ok _ _ _ _ _ Hcyc).
  erewrite bind_Ok by (eapply SendSignal_Ok; [exact Hx0|by eapply Hdan|done]).
  set (ks := set_tasks _ _).
  assert (∃ y, tasks ks !! t0 = Some y ∧ y = set_waiting (waiting_on_signals_ y) x0) as (y & Hy & Ey).
  { unfold ks. simpl. rewrite lookup_all_delivered, Hx0. simpl. eexists. split; [done|].
    case_bool_decide; [apply delivered_same|by rewrite set_waiting_id]. }
  assert (Est : kernel_stack_allocation_ y = kernel_stack_allocation_ x0 ∧
    owned_phys_pages_ y = owned_phys_pages_ x0 ∧ pd_ y = pd_ x0) by (by rewrite Ey).
  destruct Est as (Est & Eow & Epd).
  destruct (delete_task_Ok t0 ks y cs Hy) as (kd & Hdt & Hrel & Etd & Hnd' & Hqd & Hkd & Hgd).
  { by rewrite Est. } { unfold delete_pre in *. rewrite Est, Eow. exact Hdel. }
  erewrite bind_Ok by exact Hdt. eexists. split; [done|]. cbn [gKernelTask gdt tasks set_nodes nodes].
  split_and!; try done.
  - unfold queue. cbn [nodes gTaskQueue set_nodes]. rewrite Hnd', Hqd. destruct Hl as [Hl1 Hl2].
    split; [|exact Hl2]. eapply LinkedList.chain_local; [|exact Hl1]. intros a Ha.
    rewrite lookup_delete_ne; [done|]. intros <-. apply Hn0. rewrite fmap_app, fmap_cons.
    rewrite fmap_cons, fmap_app in Ha. set_solver.
  - unfold released in *. rewrite Est, Eow, Epd in Hrel. exact Hrel.
  - apply lookup_delete_eq.
Qed.

(** ** Waiting *)

Lemma GetOrCreate_new k this other x :
  tasks k !! this = Some x → waiting_on_signals_ x = [] →
  GetOrCreateSignal this other k =
    Ok (0%nat, set_tasks (<[this := set_waiting [mkSignals other 0 0 0] x]> (tasks k)) k).
Proof.
  intros Hx Hw. unfold GetOrCreateSignal. rewrite (bind_Ok _ _ _ _ _ (get_task_Ok _ _ _ Hx)).
  unfold GetSignal. by rewrite Hw.
Qed.

(** The listeners of a task once [this] waits for it. *)
Definition with_listener (this : Z) (y : Task) : Task :=
  if bool_decide (this ∈ listening_for_signals_ y) then y
  else set_listening (listening_for_signals_ y ++ [this]) y.

Lemma AddListener_Ok k other this y :
  tasks k !! other = Some y →
  AddListener other this k = Ok (tt, set_tasks (<[other := with_listener this y]> (tasks k)) k).
Proof.
  intros Hy. unfold AddListener, with_listener. rewrite (bind_Ok _ _ _ _ _ (get_task_Ok _ _ _ Hy)).
  case_bool_decide; [|done]. rewrite insert_id by done. by destruct k.
Qed.

Lemma with_listener_elem this y : this ∈ listening_for_signals_ (with_listener this y).
Proof.
  unfold with_listener. case_bool_decide; [done|]. simpl. apply elem_of_app. right. by left.
Qed.

Lemma with_listener_alive k this y :
  alive k this → Forall (alive k) (listening_for_signals_ y) →
  Forall (alive k) (listening_for_signals_ (with_listener this y)).
Proof.
  intros Ht Hy. unfold with_listener. case_bool_decide; [done|]. simpl. apply Forall_app. by repeat constructor.
Qed.

(** A task that waits for one signal of one task. *)
Definition waits (other sigs : Z) (x : Task) : Task := set_waiting [mkSignals other sigs 0 0] x.

Lemma WaitOn_Ok k this other sigs x y :
  tasks k !! this = Some x → waiting_on_signals_ x = [] → tasks k !! other = Some y →
  this ≠ other → sigs ≠ 0 →
  WaitOn this other sigs k =
    Ok (tt, set_tasks (<[other := with_listener this y]> (<[this := waits other sigs x]> (tasks k))) k).
Proof.
  intros Hx Hw Hy Hne Hs. unfold WaitOn. rewrite LinkedList.tobool_ne by done. erewrite bind_Ok by done.
  rewrite (bind_Ok _ _ _ _ _ (GetOrCreate_new _ _ other _ Hx Hw)).
  erewrite bind_Ok by (apply get_task_Ok; apply lookup_insert_eq). cbn [waiting_on_signals_ set_waiting].
  simpl lookup. erewrite bind_Ok by done. erewrite AddListener_Ok.
  2:{ simpl. rewrite !lookup_insert_ne by done. exact Hy. }
  simpl. by rewrite insert_insert_eq.
Qed.

Lemma delivered_waits other sigs s v x :
  delivered other s v (waits other sigs x) =
    if tobool (Z.land sigs s) then set_waiting [mkSignals other sigs v s] x else waits other sigs x.
Proof.
  unfold delivered, GetSignal, waits. cbn [waiting_on_signals_ set_waiting list_find].
  rewrite decide_True by done. simpl. by destruct (tobool _).
Qed.

Lemma SendSignal_waiter k this other sigs s v x y :
  tasks k !! this = Some (waits other sigs x) → tasks k !! other = Some y →
  this ∈ listening_for_signals_ y → Forall (alive k) (listening_for_signals_ y) → s ≠ 0 →
  ∃ k', SendSignal other s v k = Ok (tt, k') ∧
    tasks k' !! this = Some (if tobool (Z.land sigs s) then set_waiting [mkSignals other sigs v s] x
                             else waits other sigs x).
Proof.
  intros Hx Hy Hin Hal Hs. eexists. split; [by eapply SendSignal_Ok|]. simpl.
  rewrite lookup_all_delivered, Hx. simpl. rewrite bool_decide_true by done. by rewrite delivered_waits.
Qed.

(** ** New tasks *)
Lemma with_task_Ok k t x f : tasks k !! t = Some x → with_task t f k = Ok (tt, set_tasks (<[t := f x]> (tasks k)) k).
Proof. intros H. unfold with_task. by rewrite (bind_Ok _ _ _ _ _ (get_task_Ok _ _ _ H)). Qed.

(** A task that nobody listens to goes to the end of the queue. *)
Lemma RegisterTask_Ok k l n t x :
  queue k l → l ≠ [] → n ≠ 0 → nodes k !! n = None → tasks k !! t = Some x → listening_for_signals_ x = [] →
  ∃ nd, RegisterTask n t k = Ok (tt, set_nodes nd k) ∧ LinkedList.is_list nd (gTaskQueue k) (l ++ [(n, t)]).
Proof.
  intros Hq Hl Hn Hf Hx Hls. destruct (LinkedList.Append_Ok (nodes k) (gTaskQueue k) l n t Hq Hl Hn Hf) as (nd & RA & Hlist & _).
  exists nd. split; [|exact Hlist]. unfold RegisterTask. erewrite bind_Ok by done.
  rewrite LinkedList.tobool_ne by (destruct l; [done|apply Hq]). erewrite bind_Ok by done.
  erewrite bind_Ok by (apply on_nodes_Ok; exact RA). unfold SendSignal. erewrite bind_Ok by done.
  rewrite (bind_Ok _ _ _ _ _ (get_task_Ok (set_nodes nd k) _ _ Hx)), Hls. done.
Qed.

(** ** The pages of a task *)
Lemma RecordOwnedPage_Ok k this x p i z :
  tasks k !! this = Some x → Pmm.wf (pmm (mach k)) → 0 ≤ p < kNumPageDirEntries →
  p ∉ owned_phys_pages_ x → list_find (λ q, q = 0) (owned_phys_pages_ x) = Some (i, z) →
  Pmm.used (pmm (mach k)) p = false →
  ∃ s, RecordOwnedPage this p k =
         Ok (tt, set_mach (Paging.set_pmm s (mach k))
                   (set_tasks (<[this := set_owned (<[i := p]> (owned_phys_pages_ x)) x]> (tasks k)) k)) ∧
       Pmm.wf s ∧ ∀ q, 0 ≤ q → Pmm.used s q = (q =? p) || Pmm.used (pmm (mach k)) q.
Proof.
  intros Hx Hwf Hp Hnin Hfind Hu. destruct (SetPageUsed_Ok _ _ Hwf Hp Hu) as (s & Hrun & Hwfs & _ & Hus).
  exists s. split_and!; try done. unfold RecordOwnedPage, PageIsRecorded.
  rewrite (bind_Ok _ _ _ _ _ (get_task_Ok _ _ _ Hx)). rewrite bool_decide_false by done.
  erewrite bind_Ok by done. rewrite Hfind. erewrite bind_Ok by done.
  erewrite on_pmm_Ok by exact Hrun. done.
Qed.

Lemma RemoveOwnedPage_Ok k this x p i :
  tasks k !! this = Some x → Pmm.wf (pmm (mach k)) → 0 ≤ p < kNumPageDirEntries →
  list_find (λ q, q = p) (owned_phys_pages_ x) = Some (i, p) → Pmm.used (pmm (mach k)) p = true →
  ∃ s, RemoveOwnedPage this p k =
         Ok (tt, set_mach (Paging.set_pmm s (mach k))
                   (set_tasks (<[this := set_owned (<[i := 0]> (owned_phys_pages_ x)) x]> (tasks k)) k)) ∧
       Pmm.wf s ∧ ∀ q, 0 ≤ q → Pmm.used s q = negb (q =? p) && Pmm.used (pmm (mach k)) q.
Proof.
  intros Hx Hwf Hp Hfind Hu. destruct (SetPageFree_Ok _ _ Hwf Hp Hu) as (s & Hrun & Hwfs & _ & Hus).
  exists s. split_and!; try done. unfold RemoveOwnedPage, PageIsRecorded.
  rewrite (bind_Ok _ _ _ _ _ (get_task_Ok _ _ _ Hx)). pose proof Hfind as (Hl & _)%list_find_Some.
  rewrite bool_decide_true by (by eapply list_elem_of_lookup_2). erewrite bind_Ok by done.
  rewrite Hfind. erewrite bind_Ok by done.
  erewrite on_pmm_Ok by exact Hrun. done.
Qed.

Lemma find_inserted (l : list Z) i p z :
  p ∉ l → list_find (λ q, q = 0) l = Some (i, z) → list_find (λ q, q = p) (<[i := p]> l) = Some (i, p).
Proof.
  intros Hnin (Hl & _ & _)%list_find_Some. apply list_find_Some. split_and!.
  - apply list_lookup_insert_eq. by eapply lookup_lt_Some.
  - done.
  - intros j q Hj Hlt ->. rewrite list_lookup_insert_ne in Hj by lia. by apply list_elem_of_lookup_2 in Hj.
Qed.

(** * A small example

    Task 200 runs and owns the physical page 5; task 300 waits for the signals [w], or for
    task 200 to terminate; task 100 is the kernel's. *)
Definition example_pmm : Pmm.state :=
  match SetPageUsed 5 (fresh 32) with Ok (_, s) => s | Fault _ => fresh 32 end.

Definition example_user_regs : registers_t :=
  mkRegs 0x23 0x23 0x23 0x23 0 0 0 0 0 0 0 0 0 0 0x400000 0x1B 0 0 0x23.
Definition example_kernel_regs : registers_t :=
  mkRegs 0x10 0x10 0x10 0x10 0 0 0 0 0 0 0 0 0 0 0x100000 0x08 0 0 0x10.

Definition example_task (user : bool) (stack pd : Z) (owned : list Z) (w : list Signals) (l : list Z) : Task :=
  mkTask user (if user then example_user_regs else example_kernel_regs) stack pd 0 owned w l.

Definition example_200 : Task := example_task true 0x40000 0x2000 (5 :: replicate 255 0) [] [300].
Definition example_300 (w : list Signals) : Task := example_task true 0x50000 0x3000 (replicate 256 0) w [].
Definition example_100 : Task := example_task false 0x30000 0x1000 (replicate 256 0) [] [].

Definition example_of (w : list Signals) : kernel :=
  mkKernel (set_pmm example_pmm example_machine) Channel.empty
    (Gdt.mkState [] (0, 0) (Gdt.tss_of 0x10 0))
    (<[20 := (200, 30)]> (<[30 := (300, 10)]> {[10 := (100, 0)]}))
    (<[200 := example_200]> (<[300 := example_300 w]> {[100 := example_100]}))
    (list_to_set [0x30000; 0x40000; 0x50000]) 20 100.

Definition example_kernel : kernel := example_of [mkSignals 200 kTerminated 0 0].

Definition example_queue : list (Z * Z) := [(20, 200); (30, 300); (10, 100)].

Lemma example_lookup w t x : tasks (example_of w) !! t = Some x →
  (t = 200 ∧ x = example_200) ∨ (t = 300 ∧ x = example_300 w) ∨ (t = 100 ∧ x = example_100).
Proof.
  unfold example_of. simpl.
  intros [[<- <-]|[_ [[<- <-]|[_ [<- <-]%lookup_singleton_Some]]%lookup_insert_Some]]%lookup_insert_Some; auto.
Qed.

Lemma example_inv w : inv (example_of w) example_queue.
Proof.
  split_and!.
  - split_and!.
    + split.
      * simpl. repeat (split_and!; try done; eexists; split; [reflexivity|]). done.
      * apply (bool_decide_unpack _). by vm_compute.
    + apply (bool_decide_unpack _). by vm_compute.
    + repeat constructor; eexists; reflexivity.
    + repeat constructor; done.
    + right. right. by left.
    + by exists example_100.
  - intros t x [[-> ->]|[[-> ->]|[-> ->]]]%example_lookup _; split_and!; done.
  - intros t x [[-> ->]|[[-> ->]|[-> ->]]]%example_lookup; repeat constructor. by exists (example_300 w).
Qed.

Lemma example_tick w : tick_pre (example_of w) 200 example_200 example_user_regs.
Proof. split_and!; [done|done|by left]. Qed.

(** * Theorems *)

(** C3: a timer tick switches round-robin.  When the first task after the current one that
    can run is [t1], [Schedule] saves the registers of the interrupted task, rotates the
    queue so that [t1] is at the front and the tasks it passed are behind the interrupted
    one, loads [t1]'s page directory and kernel stack, and resumes [t1] with interrupts
    enabled and with the signal it received, if it waited for one.  Nothing else of the
    machine or of the channels changes, and the state is sound again. *)
Theorem Schedule_round_robin retval k n0 t0 skip n1 t1 rest x0 x1 r :
  inv k ((n0, t0) :: skip ++ (n1, t1) :: rest) →
  Forall (λ y, runs k y = false) skip → runs k (n1, t1) = true →
  tick_pre k t0 x0 r → tasks k !! t1 = Some x1 →
  ∃ k', Schedule (Some r) retval k = Ok (SwitchTask (enable_interrupts (regs_ (resumed x1))), k') ∧
    inv k' ((n1, t1) :: rest ++ (n0, t0) :: skip) ∧
    (∃ y0, tasks k' !! t0 = Some y0 ∧ regs_ y0 = r) ∧
    mach k' = set_current (pd_ x1) (mach k) ∧ chans k' = chans k ∧
    Gdt.esp0 (Gdt.tss_entry (gdt k')) = u32 (kernel_stack_allocation_ x1 + kDefaultKernStackSize).
Proof.
  intros Hinv Hs Hr Hpre Hx1.
  destruct (Schedule_switch retval _ _ _ _ _ _ _ _ _ _ Hinv Hs Hr Hpre Hx1) as (m & Hrun & Hl).
  eexists. split_and!; [exact Hrun|by eapply switched_inv| |done|done|done].
  assert (Hne : t0 ≠ t1).
  { destruct Hinv as [(_ & Hnd & _) _]. simpl in Hnd. apply NoDup_cons in Hnd as [Hn _]. intros ->.
    apply Hn. rewrite fmap_app. apply elem_of_app. right. by left. }
  simpl. unfold running_tasks. rewrite lookup_all_delivered, lookup_insert_ne, lookup_insert_eq by done. simpl.
  eexists. split; [done|]. case_bool_decide; [|done].
  destruct (delivered_same t1 kRunning 0 (set_regs r x0)) as [-> _]. done.
Qed.

Lemma Schedule_round_robin_witness :
  ∃ k', Schedule (Some example_user_regs) 0 example_kernel =
          Ok (SwitchTask (enable_interrupts example_kernel_regs), k') ∧
        inv k' [(10, 100); (20, 200); (30, 300)].
Proof.
  destruct (Schedule_round_robin 0 example_kernel 20 200 [(30, 300)] 10 100 [] example_200 example_100
    example_user_regs (example_inv _) ltac:(by repeat constructor) eq_refl (example_tick _) eq_refl) as (k' & H & Hi & _).
  exists k'. split; [exact H|exact Hi].
Defined.

(** C18: a tick never traps.  In a sound state [Schedule] returns, whatever the tasks wait
    for: it switches, or the current task is the main kernel task and nothing changed.  The
    assertion that some task must be runnable cannot fail, since the main kernel task
    always is. *)
Theorem Schedule_total retval k n0 t0 l x0 r :
  inv k ((n0, t0) :: l) → tick_pre k t0 x0 r →
  ∃ o k' l', Schedule (Some r) retval k = Ok (o, k') ∧ inv k' l' ∧ l' ≡ₚ (n0, t0) :: l ∧
    match o with Returned => k' = k ∧ t0 = gKernelTask k | SwitchTask _ => head l'.*2 ≠ Some t0 end.
Proof.
  intros Hinv Hpre. destruct (queue_split k l) as [Hall|(skip & [n1 t1] & rest & -> & Hs & Hr)].
  - destruct (Schedule_idle retval _ _ _ _ _ _ Hinv Hall Hpre) as [Ht Hrun].
    by exists Returned, k, ((n0, t0) :: l).
  - assert (∃ x1, tasks k !! t1 = Some x1) as [x1 Hx1].
    { unfold runs in Hr. simpl in Hr. destruct (tasks k !! t1); [eauto|done]. }
    destruct (Schedule_switch retval _ _ _ _ _ _ _ _ _ _ Hinv Hs Hr Hpre Hx1) as (m & Hrun & Hl).
    eexists _, _, _. split_and!; [exact Hrun|by eapply switched_inv| |].
    + change ((n0, t0) :: skip ++ (n1, t1) :: rest) with (((n0, t0) :: skip) ++ (n1, t1) :: rest).
      rewrite (Permutation_app_comm ((n0, t0) :: skip)). done.
    + simpl. intros [= ->]. destruct Hinv as [(_ & Hnd & _) _]. simpl in Hnd.
      apply NoDup_cons in Hnd as [Hn _]. apply Hn. rewrite fmap_app. apply elem_of_app. right. by left.
Qed.

Lemma Schedule_total_witness :
  ∃ o k' l', Schedule (Some example_user_regs) 0 example_kernel = Ok (o, k') ∧ inv k' l'.
Proof.
  destruct (Schedule_total 0 example_kernel 20 200 [(30, 300); (10, 100)] example_200 example_user_regs
    (example_inv _) (example_tick _)) as (o & k' & l' & H & Hi & _).
  exists o, k', l'. by split.
Defined.

(** The states that ticks lead through. *)
Fixpoint ticks (k : kernel) (ks : list kernel) : Prop :=
  match ks with
  | [] => True
  | k' :: ks => tick k k' ∧ ticks k' ks
  end.

(** The task that runs. *)
Definition current (k : kernel) (t : Z) : Prop := ∃ n l, queue k ((n, t) :: l).

(** C21: the scheduler is fair.  A task that can run and is [p] places behind the one after
    the current task runs within [p + 1] ticks, whatever the others do. *)
Theorem round_robin_fair p : ∀ k n0 t0 l x ks,
  inv k ((n0, t0) :: l) → l !! p = Some x → runs k x = true →
  ticks k ks → length ks = S p → ∃ k', k' ∈ ks ∧ current k' x.2.
Proof.
  induction p as [p IH] using lt_wf_ind. intros k n0 t0 l x ks Hinv Hp Hr Ht Hlen.
  destruct ks as [|k1 ks]; [done|]. destruct Ht as [Ht Hts].
  destruct (tick_step _ _ _ _ _ _ _ Hinv Hp Hr Ht) as ([n1 t1] & l' & Hinv' & Hcase).
  destruct Hcase as [<-|(q & Hq & Hl' & Hr')].
  - exists k1. split; [by left|]. exists n1, l'. apply Hinv'.
  - destruct (IH q Hq k1 n1 t1 l' x (take (S q) ks) Hinv' Hl' Hr') as (k' & Hin & Hcur).
    + clear -Hts. revert k1 Hts. generalize (S q). intros n. revert n.
      induction ks as [|k2 ks IHk]; intros [|n] k1 Hts; simpl; try done. destruct Hts. split; [done|].
      by apply IHk.
    + rewrite length_take. simpl in Hlen. lia.
    + exists k'. split; [|done]. right. apply list_elem_of_lookup_1 in Hin as [i Hi].
      apply lookup_take_Some in Hi as [Hi _]. by eapply list_elem_of_lookup_2.
Qed.

Definition next_state (k : kernel) : kernel :=
  match Schedule (Some example_user_regs) 0 k with Ok (_, k') => k' | Fault _ => k end.

Lemma round_robin_fair_witness :
  let k0 := example_of [] in let k1 := next_state k0 in let k2 := next_state k1 in
  ticks k0 [k1; k2] ∧ ∃ k', k' ∈ [k1; k2] ∧ current k' 100.
Proof.
  intros k0 k1 k2.
  assert (Ht : ticks k0 [k1; k2]).
  { split; [|split; [|done]].
    - eapply (Tick _ _ 20 200 _ example_200 example_user_regs); [apply (example_inv [])|apply example_tick|].
      unfold k1, k0. vm_compute. reflexivity.
    - eapply (Tick _ _ 30 300 [(10, 100); (20, 200)] (resumed (example_300 [])) example_user_regs).
      + split.
        * simpl. repeat (split_and!; try done; eexists; split; [vm_compute; reflexivity|]). done.
        * apply (bool_decide_unpack _). by vm_compute.
      + split_and!; [by vm_compute|done|by left].
      + unfold k2, k1, k0. vm_compute. reflexivity. }
  split; [exact Ht|].
  apply (round_robin_fair 1 k0 20 200 [(30, 300); (10, 100)] (10, 100) [k1; k2]);
    [apply (example_inv [])|done|done|exact Ht|done].
Defined.

(** The exit of the current task: the tasks after the signal, without it, and the switch. *)
Lemma Schedule_exit_Ok retval k n0 t0 skip n1 t1 rest x0 cs :
  inv k ((n0, t0) :: skip ++ (n1, t1) :: rest) →
  Forall (λ y, runs k y = false) skip → runs k (n1, t1) = true →
  t0 ≠ gKernelTask k → tasks k !! t0 = Some x0 → kernel_stack_allocation_ x0 ≠ 0 → delete_pre k x0 cs →
  (∀ t x, tasks k !! t = Some x → t ≠ t0 → t0 ∉ listening_for_signals_ x) →
  ∃ kd x1, tasks kd = delete t0 (all_delivered t0 kTerminated retval (listening_for_signals_ x0) (tasks k)) ∧
    tasks kd !! t1 = Some x1 ∧ released t0 x0 cs k kd ∧ nodes kd !! n0 = None ∧ gKernelTask kd = gKernelTask k ∧
    let k' := switched x1 (running_tasks t1 x1 (tasks kd)) kd in
    Schedule None retval k = Ok (SwitchTask (enable_interrupts (regs_ (resumed x1))), k') ∧ inv k' ((n1, t1) :: rest ++ skip).
Proof.
  intros Hinv Hs Hr Hnk Hx0 Hs0 Hdel Hlis.
  rewrite (Schedule_choose _ _ _ _ _ _ _ _ _ _ Hinv Hs Hr Hx0) by done.
  destruct (leave_None retval _ _ _ _ _ _ _ _ _ Hinv Hx0 Hs0 Hdel) as (kd & Hrun & Hq & Ek & Eg & Et & Hrel & Hn0).
  assert (Hp : (n1, t1) :: rest ++ skip ≡ₚ skip ++ (n1, t1) :: rest) by (by rewrite (Permutation_app_comm skip)).
  destruct (inv_remove _ _ _ _ _ _ _ _ _ Hinv Hp Hq Ek Hnk Et Hlis) as [Hinvd Hok].
  pose proof Hinvd as [(_ & _ & Hald & _) [_ Hdand]]. simpl in Hald. apply Forall_cons in Hald as [[x1 Hx1] _].
  destruct Hinv as [(Hqk & _) _]. pose proof Hqk as [(_ & _ & n' & _ & Hch) _].
  destruct (LinkedList.chain_tail _ _ _ _ Hch) as (_ & Hn1 & n'' & Hn1s & _). simpl in Hn1, Hn1s, Hx1.
  exists kd, x1. do 5 (split; [done|]). cbv zeta. split.
  - unfold schedule_rest. erewrite bind_Ok by (apply on_nodes_read; by eapply LinkedList.get_Ok).
    rewrite (bind_Ok _ _ _ _ _ (get_task_Ok _ _ _ Hx0)). erewrite bind_Ok by done.
    rewrite (bind_Ok _ _ _ _ _ Hrun). apply switch_to_Ok; [exact Hx1|by eapply Hok|by eapply Hdand].
  - eapply inv_evolve; [exact Hinvd|done|exact Hq|done|by apply tasks_evolve_running|].
    intros t x Hx _. simpl in Hx. by eapply running_tasks_ok.
Qed.


Lemma example_owned : Pmm.wf example_pmm ∧ owned_ok example_pmm (owned_phys_pages_ example_200).
Proof.
  assert (Hwf : Pmm.wf (fresh 32)).
  { split_and!; [done|by apply Forall_replicate|done|done]. }
  destruct (SetPageUsed_Ok (fresh 32) 5 Hwf) as (s & Hrun & Hwfs & _ & Hu); [done|done|].
  unfold example_pmm. rewrite Hrun. split; [done|].
  assert (E : owned_pages (owned_phys_pages_ example_200) = [5]) by reflexivity.
  unfold owned_ok. rewrite E. split; [apply NoDup_singleton|]. repeat constructor; try done. by rewrite Hu.
Qed.


(** Waiting and signalling fit together.  A task that waits for signals of another task
    cannot run; a signal that is not one of them leaves it blocked; one of them makes it
    runnable, and it resumes with the signal and its value in its registers, waiting for
    nothing any more. *)
Lemma WaitOn_SendSignal k this other sigs x y :
  tasks k !! this = Some x → waiting_on_signals_ x = [] → tasks k !! other = Some y →
  this ≠ other → sigs ≠ 0 → no_dangling k →
  ∃ k1, WaitOn this other sigs k = Ok (tt, k1) ∧ no_dangling k1 ∧
    (∃ x1, tasks k1 !! this = Some x1 ∧ canRunTask x1 = false) ∧
    ∀ s v, s ≠ 0 → ∃ k2 x2, SendSignal other s v k1 = Ok (tt, k2) ∧ tasks k2 !! this = Some x2 ∧
      canRunTask x2 = tobool (Z.land sigs s) ∧
      (Z.land sigs s ≠ 0 → getReceivedSignal x2 = Some (s, v, other) ∧
                          resumed x2 = set_regs (set_signal_regs s v (regs_ x)) x).
Proof.
  intros Hx Hw Hy Hne Hs Hdan. eexists. split; [by apply WaitOn_Ok|]. set (k1 := set_tasks _ k).
  assert (Hx1 : tasks k1 !! this = Some (waits other sigs x)).
  { simpl. by rewrite lookup_insert_ne, lookup_insert_eq. }
  assert (Hy1 : tasks k1 !! other = Some (with_listener this y)) by (simpl; apply lookup_insert_eq).
  assert (Hal : ∀ t, alive k t → alive k1 t).
  { intros t [z Hz]. unfold alive. simpl. apply lookup_insert_is_Some'. right. apply lookup_insert_is_Some'.
    right. eauto. }
  assert (Hdan1 : no_dangling k1).
  { intros t z. simpl. destruct (decide (t = other)) as [->|Ho]; [|destruct (decide (t = this)) as [->|Ht]].
    - rewrite lookup_insert_eq. intros [= <-]. apply with_listener_alive; [by eexists|].
      eapply Forall_impl; [by eapply Hdan|exact Hal].
    - rewrite lookup_insert_ne, lookup_insert_eq by done. intros [= <-]. simpl.
      eapply Forall_impl; [by eapply Hdan|exact Hal].
    - rewrite !lookup_insert_ne by done. intros Hz. eapply Forall_impl; [by eapply Hdan|exact Hal]. }
  split_and!; [done|by exists (waits other sigs x)|]. intros s v Hs0.
  destruct (SendSignal_waiter k1 this other sigs s v x _ Hx1 Hy1) as (k2 & Hrun & Hx2);
    [apply with_listener_elem|by eapply Hdan1|done|].
  eexists k2, _. split_and!; [exact Hrun|exact Hx2| |].
  - destruct (tobool (Z.land sigs s)); [|done]. unfold canRunTask, isWaitingOnSignal, getReceivedSignal. simpl.
    by rewrite LinkedList.tobool_ne.
  - intros Hl. rewrite (LinkedList.tobool_ne (Z.land sigs s)) by done.
    unfold resumed, getReceivedSignal. simpl. rewrite LinkedList.tobool_ne by done. split; [done|].
    simpl. unfold GetSignal. simpl. rewrite decide_True by done. simpl. destruct x. simpl in Hw. by subst.
Qed.

(** Recording a page and removing it again are inverse.  Recording marks the page as
    used and nothing else; removing it restores the task and the pages in use. *)
Lemma RecordOwnedPage_RemoveOwnedPage k this x p :
  tasks k !! this = Some x → Pmm.wf (pmm (mach k)) → 0 < p < kNumPageDirEntries →
  p ∉ owned_phys_pages_ x → 0 ∈ owned_phys_pages_ x → Pmm.used (pmm (mach k)) p = false →
  ∃ k1 k2, RecordOwnedPage this p k = Ok (tt, k1) ∧
    (∃ x1, tasks k1 !! this = Some x1 ∧ PageIsRecorded x1 p = true) ∧
    (∀ q, 0 ≤ q → Pmm.used (pmm (mach k1)) q = (q =? p) || Pmm.used (pmm (mach k)) q) ∧
    RemoveOwnedPage this p k1 = Ok (tt, k2) ∧ tasks k2 = tasks k ∧
    (∀ q, 0 ≤ q → Pmm.used (pmm (mach k2)) q = Pmm.used (pmm (mach k)) q).
Proof.
  intros Hx Hwf Hp Hnin H0 Hu. destruct (list_find (λ q, q = 0) (owned_phys_pages_ x)) as [[i z]|] eqn:Ef.
  2:{ apply list_find_None in Ef. rewrite Forall_forall in Ef. by destruct (Ef 0 H0). }
  destruct (RecordOwnedPage_Ok k this x p i z) as (s & Hrun & Hwfs & Hus); try done; [lia|].
  set (k1 := set_mach _ _) in Hrun. set (x1 := set_owned (<[i := p]> (owned_phys_pages_ x)) x) in *.
  assert (Hx1 : tasks k1 !! this = Some x1) by (simpl; apply lookup_insert_eq).
  pose proof (find_inserted _ _ _ _ Hnin Ef) as Ef1. pose proof Ef as (Hi & Hz & _)%list_find_Some. simpl in Hz. subst z.
  destruct (RemoveOwnedPage_Ok k1 this x1 p i) as (s2 & Hrun2 & Hwfs2 & Hus2); try done; [lia| |].
  { simpl. rewrite Hus by lia. by rewrite Z.eqb_refl. }
  eexists k1, _. split_and!; [exact Hrun| |exact Hus|exact Hrun2| |].
  - exists x1. split; [done|]. unfold PageIsRecorded. apply bool_decide_true.
    apply list_find_Some in Ef1 as (Hl & _). by eapply list_elem_of_lookup_2.
  - simpl. rewrite insert_insert_eq. apply insert_id. rewrite Hx. f_equal. unfold set_owned. simpl.
    rewrite list_insert_insert_eq, list_insert_id by done. by destruct x.
  - intros q Hq. simpl. rewrite Hus2 by done. simpl. rewrite Hus by done.
    destruct (Z.eqb_spec q p) as [->|]; [by rewrite Hu|done].
Qed.

(** Nothing removes a task from the listeners of another one.  Task 200 waits for task 300 to
    run, receives the signal, resumes and exits: the next signal that task 300 sends, at the
    switch to it, reads task 200 after it was deleted. *)
Lemma exited_listener_is_read :
  (WaitOn 200 300 kRunning;; SendSignal 300 kRunning 0;; receive_signal 200;; Schedule None 0)
    (example_of []) = Fault BadPointer.
Proof. vm_compute. reflexivity. Qed.

(** Page 0 can be recorded only by a task that has no room left: an empty slot counts as a
    record of page 0. *)
Lemma page_zero_is_refused k this x :
  tasks k !! this = Some x → 0 ∈ owned_phys_pages_ x → RecordOwnedPage this 0 k = Fault AssertFailed.
Proof.
  intros Hx H0. unfold RecordOwnedPage, PageIsRecorded.
  rewrite (bind_Ok _ _ _ _ _ (get_task_Ok _ _ _ Hx)). by rewrite bool_decide_true.
Qed.

End Scheduler.
