(* ===== verification/Interrupts.v ===== *)
(** The interrupt vectors, the interrupt controllers and the timer: kernel/idt.cpp,
    kernel/isr.cpp, kernel/irq.cpp and kernel/timer.cpp.

    The addresses of the assembly stubs [isr0] .. [isr31], [isr128] and [irq0] .. [irq15]
    are parameters; writes to I/O ports are recorded in order in [out], and reads of a port
    are answered by [inb]. *)
From S2P Require Import Prelude.

Module Interrupts.

Record idt_entry_t := mkIdt { base_lo : Z; sel : Z; always0 : Z; flags : Z; base_hi : Z }.

Record state := mkState {
  idt_entries : list idt_entry_t;
  idt_ptr : Z * Z;
  out : list (Z * Z);
}.

Definition set_idt x (s : state) := mkState x (idt_ptr s) (out s).
Definition set_ptr x (s : state) := mkState (idt_entries s) x (out s).
Definition set_out x (s : state) := mkState (idt_entries s) (idt_ptr s) x.

Definition Write8 (port value : Z) : M state unit := modify (λ s, set_out (out s ++ [(port, value)]) s).

(** ** idt.cpp *)
Definition idt_gate (base sel flags : Z) : idt_entry_t :=
  mkIdt (Z.land base 0xFFFF) sel 0 flags (Z.land (Z.shiftr base 16) 0xFFFF).

Definition IDTSetGate (num base sel flags : Z) : M state unit :=
  l ← gets idt_entries;
  l' ← liftR (awrite l num (idt_gate base sel flags));
  modify (set_idt l').

(** [idt::Initialize]; [entries_addr] is the address of the table. *)
Definition idt_Initialize (entries_addr : Z) : M state unit :=
  modify (set_ptr (8 * 256 - 1, entries_addr));;
  modify (set_idt (replicate 256 (mkIdt 0 0 0 0 0))).

(** ** isr.cpp *)
Definition kDPLUser : Z := 0x60.
Definition kSyscallHandler : Z := 128.

(** The vectors and the stubs of the calls in [isr::Initialize], in order. *)
Definition isr_gates : list (Z * Z) :=
  [(0, 0); (1, 1); (2, 2); (3, 3); (4, 4); (5, 5); (6, 6); (7, 7); (8, 8); (9, 9);
   (10, 10); (11, 11); (12, 12); (13, 13); (14, 14); (15, 15); (16, 16); (17, 17); (18, 18); (19, 19);
   (20, 20); (21, 21); (22, 22); (23, 23); (24, 24); (25, 25); (26, 26); (27, 27); (28, 28); (29, 29);
   (39, 30); (31, 31)].

Fixpoint set_gates (stub : Z → Z) (l : list (Z * Z)) : M state unit :=
  match l with
  | [] => mret tt
  | (v, n) :: l => IDTSetGate v (stub n) 0x08 0x8E;; set_gates stub l
  end.

(** [isr::Initialize] *)
Definition isr_Initialize (isr : Z → Z) : M state unit :=
  set_gates isr isr_gates;;
  IDTSetGate kSyscallHandler (isr 128) 0x08 (Z.lor 0x8E kDPLUser).

(** ** irq.cpp *)
Definition IRQ0 : Z := 32.
Definition IRQ8 : Z := 40.
Definition PIC1_COMMAND : Z := 0x20.
Definition PIC1_DATA : Z := 0x21.
Definition PIC2_COMMAND : Z := 0xA0.
Definition PIC2_DATA : Z := 0xA1.
Definition PIC_EOI : Z := 0x20.
Definition ICW1_ICW4 : Z := 0x01.
Definition ICW1_INIT : Z := 0x10.
Definition ICW4_8086 : Z := 0x01.

Definition SendEndOfInterrupt (irq : Z) : M state unit :=
  (if IRQ8 <=? irq then Write8 PIC2_COMMAND PIC_EOI else mret tt);;
  Write8 PIC1_COMMAND PIC_EOI.

Definition Wait : M state unit := Write8 0x80 0.

Definition RemapPic (inb : Z → Z) : M state unit :=
  let a1 := inb PIC1_DATA in
  let a2 := inb PIC2_DATA in
  Write8 PIC1_COMMAND (Z.lor ICW1_INIT ICW1_ICW4);; Wait;;
  Write8 PIC2_COMMAND (Z.lor ICW1_INIT ICW1_ICW4);; Wait;;
  Write8 PIC1_DATA IRQ0;; Wait;;
  Write8 PIC2_DATA IRQ8;; Wait;;
  Write8 PIC1_DATA 4;; Wait;;
  Write8 PIC2_DATA 2;; Wait;;
  Write8 PIC1_DATA ICW4_8086;; Wait;;
  Write8 PIC2_DATA ICW4_8086;; Wait;;
  Write8 PIC1_DATA a1;;
  Write8 PIC2_DATA a2.

Definition irq_gates : list (Z * Z) :=
  [(32, 0); (33, 1); (34, 2); (35, 3); (36, 4); (37, 5); (38, 6); (39, 7);
   (40, 8); (41, 9); (42, 10); (43, 11); (44, 12); (45, 13); (46, 14); (47, 15)].

(** [irq::Initialize] *)
Definition irq_Initialize (inb irq : Z → Z) : M state unit :=
  RemapPic inb;; set_gates irq irq_gates.

(** ** timer.cpp: [timer::Initialize] *)
Definition PIT_CMD : Z := 0x43.
Definition PIT_SET : Z := 0x36.
Definition TIMER_FREQ : Z := 50.
Definition TIMER_QUOTIENT : Z := 1193180.
Definition PIT_0 : Z := 0x40.

Definition timer_Initialize : M state unit :=
  let divisor := TIMER_QUOTIENT / TIMER_FREQ in
  Write8 PIT_CMD PIT_SET;;
  Write8 PIT_0 (Z.land divisor 0xFF);;
  Write8 PIT_0 (Z.land (Z.shiftr divisor 8) 0xFF).

(** The part of [KernelSetup] that sets up interrupts. *)
Definition setup (entries_addr : Z) (isr irq inb : Z → Z) : M state unit :=
  idt_Initialize entries_addr;; isr_Initialize isr;; irq_Initialize inb irq;; timer_Initialize.

(** * How the processor reads a gate *)
Definition gate_base (e : idt_entry_t) : Z := Z.lor (base_lo e) (Z.shiftl (base_hi e) 16).
Definition gate_present (e : idt_entry_t) : bool := Z.testbit (flags e) 7.
Definition gate_dpl (e : idt_entry_t) : Z := Z.land (Z.shiftr (flags e) 5) 3.

(** The handler of a vector: its address, its code segment and the lowest privilege that
    may raise it with [int]. *)
Definition vector (s : state) (v : Z) : option (Z * Z * Z) :=
  match nthZ (idt_entries s) v with
  | Some e => if gate_present e then Some (gate_base e, sel e, gate_dpl e) else None
  | None => None
  end.

(** * Lemmas *)
Lemma gate_base_gate base sel flags : is_u32 base → gate_base (idt_gate base sel flags) = base.
Proof.
  intros Hb. unfold gate_base, idt_gate. simpl base_lo. simpl base_hi.
  change 0xFFFF with (Z.ones 16). rewrite !Z.land_ones, Z.shiftr_div_pow2 by lia.
  apply Z.bits_inj'. intros n Hn. rewrite Z.lor_spec. unfold is_u32 in Hb.
  destruct (Z.lt_ge_cases n 16).
  - rewrite Z.mod_pow2_bits_low, Z.shiftl_spec_low, orb_false_r by lia. done.
  - rewrite Z.mod_pow2_bits_high by lia. rewrite Z.shiftl_spec by lia. simpl.
    destruct (Z.lt_ge_cases (n - 16) 16).
    + rewrite Z.mod_pow2_bits_low by lia. rewrite Z.div_pow2_bits by lia. f_equal. lia.
    + rewrite Z.mod_pow2_bits_high by lia. symmetry.
      rewrite <- (Z.mod_small base (2 ^ 32)) by lia. apply Z.mod_pow2_bits_high. lia.
Qed.

Lemma IDTSetGate_Ok s num base sel flags :
  0 ≤ num < Z.of_nat (length (idt_entries s)) →
  IDTSetGate num base sel flags s =
    Ok (tt, set_idt (<[Z.to_nat num := idt_gate base sel flags]> (idt_entries s)) s).
Proof. intros H. unfold IDTSetGate. munfold. by rewrite awrite_in_range. Qed.

(** The table after a list of gates. *)
Definition with_gates (stub : Z → Z) (l : list (Z * Z)) (t : list idt_entry_t) : list idt_entry_t :=
  foldl (λ t x, <[Z.to_nat x.1 := idt_gate (stub x.2) 0x08 0x8E]> t) t l.

Lemma length_with_gates stub l : ∀ t, length (with_gates stub l t) = length t.
Proof.
  unfold with_gates. induction l as [|x l IH]; intros t; [done|]. simpl. by rewrite IH, length_insert.
Qed.

Lemma set_gates_Ok stub l : ∀ s,
  length (idt_entries s) = 256%nat → forallb (λ x, (0 <=? x.1) && (x.1 <? 256)) l = true →
  set_gates stub l s = Ok (tt, set_idt (with_gates stub l (idt_entries s)) s).
Proof.
  induction l as [|[v n] l IH]; intros s Hlen Hl; cbn [set_gates]; [by destruct s|].
  cbn [forallb] in Hl. apply andb_prop in Hl as [[Hv1 Hv2]%andb_prop Hl]. simpl in Hv1, Hv2.
  apply Z.leb_le in Hv1. apply Z.ltb_lt in Hv2.
  rewrite (bind_Ok _ _ _ _ _ (IDTSetGate_Ok s v (stub n) 0x08 0x8E ltac:(lia))).
  rewrite IH; [done| |done]. simpl. by rewrite length_insert.
Qed.

Lemma RemapPic_Ok inb s : ∃ o, RemapPic inb s = Ok (tt, set_out o s).
Proof. destruct s. unfold RemapPic, Wait, Write8. munfold. simpl. eexists. reflexivity. Qed.

(** The table that [setup] builds. *)
Definition entry_of (isr irq : Z → Z) (v : Z) : idt_entry_t :=
  if v =? kSyscallHandler then idt_gate (isr 128) 0x08 0xEE
  else if v <? 32 then if v =? 30 then mkIdt 0 0 0 0 0 else idt_gate (isr v) 0x08 0x8E
  else if v <? 48 then idt_gate (irq (v - 32)) 0x08 0x8E
  else mkIdt 0 0 0 0 0.

Lemma setup_table entries_addr isr irq inb s : ∃ s' o,
  setup entries_addr isr irq inb s = Ok (tt, s') ∧
  idt_entries s' = (entry_of isr irq <$> seqZ 0 256) ∧ idt_ptr s' = (2047, entries_addr) ∧
  out s' = o ++ [(PIT_CMD, PIT_SET); (PIT_0, 55); (PIT_0, 93)].
Proof.
  set (t0 := replicate 256 (mkIdt 0 0 0 0 0)). set (s0 := mkState t0 (2047, entries_addr) (out s)).
  unfold setup. rewrite (bind_Ok _ _ _ tt s0) by done. unfold isr_Initialize, irq_Initialize.
  set (t1 := with_gates isr isr_gates t0).
  assert (H1 : length t1 = 256%nat) by (unfold t1; by rewrite length_with_gates).
  set (t2 := <[Z.to_nat kSyscallHandler := idt_gate (isr 128) 0x08 (Z.lor 0x8E kDPLUser)]> t1).
  assert (H2 : length t2 = 256%nat) by (unfold t2; by rewrite length_insert).
  rewrite (bind_Ok _ _ _ tt (set_idt t2 s0)).
  2:{ rewrite (bind_Ok _ _ _ _ _ (set_gates_Ok isr isr_gates s0 eq_refl eq_refl)). fold t1.
      apply (IDTSetGate_Ok (set_idt t1 s0)). cbn [idt_entries set_idt]. rewrite H1. done. }
  destruct (RemapPic_Ok inb (set_idt t2 s0)) as (o & Ho).
  set (t3 := with_gates irq irq_gates t2).
  rewrite (bind_Ok _ _ _ tt (set_idt t3 (set_out o (set_idt t2 s0)))).
  2:{ rewrite (bind_Ok _ _ _ _ _ Ho). by apply set_gates_Ok. }
  eexists _, o. split; [reflexivity|]. split_and!; [|done|].
  - cbn [idt_entries set_idt set_out]. unfold t3, t2, t1, t0. lazy -[idt_gate]. reflexivity.
  - simpl. by rewrite <- !app_assoc.
Qed.

(** * Theorems *)

(** The stub each vector must reach: the exceptions, the hardware interrupts and the
    system call; vector 30 is left out, see [vector_30_is_empty]. *)
Definition expected (isr irq : Z → Z) (v : Z) : option (Z * Z * Z) :=
  if v =? kSyscallHandler then Some (isr 128, 0x08, 3)
  else if v <? 32 then if v =? 30 then None else Some (isr v, 0x08, 0)
  else if v <? 48 then Some (irq (v - 32), 0x08, 0)
  else None.

Lemma table_vectors isr irq s v : idt_entries s = (entry_of isr irq <$> seqZ 0 256) →
  (∀ n, is_u32 (isr n)) → (∀ n, is_u32 (irq n)) → 0 ≤ v < 256 → vector s v = expected isr irq v.
Proof.
  intros Ht Hisr Hirq Hv. unfold vector. rewrite nthZ_lookup, Ht, list_lookup_fmap, lookup_seqZ_lt by lia. simpl.
  rewrite Z2Nat.id, Z.add_0_l by lia. unfold entry_of, expected, gate_present.
  destruct (v =? kSyscallHandler), (v <? 32), (v =? 30), (v <? 48); cbn [flags sel idt_gate];
    rewrite ?gate_base_gate by auto; reflexivity.
Qed.

(** After the interrupt setup of the kernel, each exception vector but 30, each of the
    16 hardware interrupts and the system call vector lead to their own stub in the kernel
    code segment; user code may raise the system call only; no other vector is present. The
    timer is programmed with the divisor for [TIMER_FREQ] interrupts per second. *)
Lemma vectors_installed entries_addr isr irq inb s :
  (∀ n, is_u32 (isr n)) → (∀ n, is_u32 (irq n)) →
  ∃ s' o lo hi, setup entries_addr isr irq inb s = Ok (tt, s') ∧
    (∀ v, 0 ≤ v < 256 → vector s' v = expected isr irq v) ∧ idt_ptr s' = (256 * 8 - 1, entries_addr) ∧
    out s' = o ++ [(PIT_CMD, PIT_SET); (PIT_0, lo); (PIT_0, hi)] ∧
    lo + 256 * hi = TIMER_QUOTIENT / TIMER_FREQ.
Proof.
  intros Hisr Hirq. destruct (setup_table entries_addr isr irq inb s) as (s' & o & Hrun & Ht & Hp & Ho).
  exists s', o, 55, 93. split_and!; [exact Hrun| |exact Hp|exact Ho|reflexivity]. intros v Hv. by apply table_vectors.
Qed.

(** The stub of exception 30 is installed at vector 39, where the stub of IRQ 7 replaces it:
    nothing handles the security exception. *)
Lemma vector_30_is_empty entries_addr isr irq inb s s' :
  setup entries_addr isr irq inb s = Ok (tt, s') → vector s' 30 = None.
Proof.
  intros Hrun. destruct (setup_table entries_addr isr irq inb s) as (s1 & o & Hrun1 & Ht & _).
  assert (s' = s1) as -> by congruence. unfold vector. rewrite Ht. reflexivity.
Qed.

End Interrupts.
