(* ===== verification/Syscalls.v ===== *)
(** The system calls of kernel/syscalls.cpp and the dispatch of interrupts in
    kernel/exceptions.cpp and kernel/timer.cpp.

    A handler works on the registers of the interrupted task ([regs]) and on the kernel.
    What it returns says whether it comes back to the interrupted task ([Returned]) or
    [Schedule] jumped to another one.  The addresses that allocations return, and those of
    the kernel's local variables whose contents are copied to user memory, are in [allocs].
    The serial port is the list of characters that have arrived, the console the bytes
    printed. *)
From S2P Require Import Prelude KernelH Pmm Paging Channel LinkedList Gdt Scheduler Interrupts.
Import Pmm.Pmm Paging.Paging Scheduler.Scheduler.

Module Syscalls.

(** [kstatus_t] *)
Definition K_OK : Z := 0.
Definition K_OOM_PHYS : Z := 1.
Definition K_OOM_VIRT : Z := 2.
Definition K_VPAGE_MAPPED : Z := 3.
Definition K_BUFFER_TOO_SMALL : Z := 4.
Definition K_INVALID_HANDLE : Z := 5.
Definition K_UNALIGNED_PAGE_ADDR : Z := 6.
Definition K_UNABLE_TO_READ : Z := 7.
Definition K_INVALID_ARG : Z := 8.

Definition FREE_PAGE_LOWER_BOUND : Z := 1.
Definition ALLOC_ANON : Z := 0x1.
Definition ALLOC_CURRENT : Z := 0x2.
Definition SWAP_OWNER : Z := 0x1.
Definition MAP_ANON : Z := 0x2.
Definition PROC_CURRENT : Z := 0.
Definition PROC_PARENT : Z := 1.
Definition PROC_CHILDREN : Z := 2.

Definition kMaxCallbacks : nat := 256.

(** [isr::handler_t] of the timer: a callback gets the registers. *)
Definition handler_t : Type := registers_t → M kernel outcome.

Record sys := mkSys {
  kern : kernel;
  regs : registers_t;
  gOldPageDir : Z;
  serial_in : list Z;
  console : list Z;
  gTick : Z;
  gCallbacks : list (option handler_t);
}.

Definition set_kern x (s : sys) := mkSys x (regs s) (gOldPageDir s) (serial_in s) (console s) (gTick s) (gCallbacks s).
Definition set_regs_ x (s : sys) := mkSys (kern s) x (gOldPageDir s) (serial_in s) (console s) (gTick s) (gCallbacks s).
Definition set_old x (s : sys) := mkSys (kern s) (regs s) x (serial_in s) (console s) (gTick s) (gCallbacks s).
Definition set_serial x (s : sys) := mkSys (kern s) (regs s) (gOldPageDir s) x (console s) (gTick s) (gCallbacks s).
Definition set_console x (s : sys) := mkSys (kern s) (regs s) (gOldPageDir s) (serial_in s) x (gTick s) (gCallbacks s).
Definition set_tick x (s : sys) := mkSys (kern s) (regs s) (gOldPageDir s) (serial_in s) (console s) x (gCallbacks s).
Definition set_callbacks x (s : sys) := mkSys (kern s) (regs s) (gOldPageDir s) (serial_in s) (console s) (gTick s) x.

Definition on_kern {A} (m : M kernel A) : M sys A := zoom kern set_kern m.
Definition in_mach {A} (m : M machine A) : M sys A := on_kern (on_mach m).

(** What the allocations of a system call return: a buffer or local variable of the kernel,
    a page directory, a task, its stack, a queue node, the storage of the channels, two
    endpoint buffers and one for a channel that grows or shrinks. *)
Record allocs := mkAllocs {
  a_buf : Z; a_pd : Z; a_task : Z; a_stack : Z; a_node : Z; a_storage : Z; a_d1 : Z; a_d2 : Z; a_new : Z;
}.

Definition with_eax (v : Z) (r : registers_t) : registers_t :=
  mkRegs (gs r) (fs r) (es r) (ds r) (edi r) (esi r) (ebp r) (esp r) (ebx r) (edx r) (ecx r) v
    (int_no r) (err_code r) (eip r) (cs r) (eflags r) (useresp r) (ss r).
Definition with_ebx (v : Z) (r : registers_t) : registers_t :=
  mkRegs (gs r) (fs r) (es r) (ds r) (edi r) (esi r) (ebp r) (esp r) v (edx r) (ecx r) (eax r)
    (int_no r) (err_code r) (eip r) (cs r) (eflags r) (useresp r) (ss r).

Definition ret_eax (v : Z) : M sys unit := modify (λ s, set_regs_ (with_eax v (regs s)) s).
Definition ret_ebx (v : Z) : M sys unit := modify (λ s, set_regs_ (with_ebx v (regs s)) s).

(** Back to the interrupted task with a status. *)
Definition done_with (status : Z) : M sys outcome := ret_eax status;; mret Returned.

(** ** Kernel memory *)
Fixpoint load_bytes (n : nat) (vaddr : Z) : M machine (list Z) :=
  match n with
  | O => mret []
  | S n => b ← load8 vaddr; bs ← load_bytes n (u32 (vaddr + 1)); mret (b :: bs)
  end.

Fixpoint store_bytes (vaddr : Z) (bs : list Z) : M machine unit :=
  match bs with
  | [] => mret tt
  | b :: bs => store8 vaddr b;; store_bytes (u32 (vaddr + 1)) bs
  end.

(** The little-endian bytes of a word. *)
Definition bytes_of_word (w : Z) : list Z :=
  [Z.land w 0xFF; Z.land (Z.shiftr w 8) 0xFF; Z.land (Z.shiftr w 16) 0xFF; Z.land (Z.shiftr w 24) 0xFF].

Definition GetPageDirBeforeException : M sys Z := gets gOldPageDir.

(** [GetPageDirBeforeException().Memcpy(GetCurrentPageDirectory(), dst, src, size)] *)
Definition copy_to_user (dst src size : Z) : M sys unit :=
  old ← GetPageDirBeforeException;
  cur ← in_mach GetCurrentPageDirectory;
  in_mach (Memcpy_from old cur dst src size).

(** [GetCurrentPageDirectory().Memcpy(GetPageDirBeforeException(), dst, src, size)] *)
Definition copy_from_user (dst src size : Z) : M sys unit :=
  old ← GetPageDirBeforeException;
  cur ← in_mach GetCurrentPageDirectory;
  in_mach (Memcpy_from cur old dst src size).

(** ** The system calls *)

(** [printf("%s", buffer)] prints up to the first zero byte. *)
Fixpoint c_string (bs : list Z) : list Z :=
  match bs with [] => [] | b :: bs => if b =? 0 then [] else b :: c_string bs end.

Definition SYS_DebugWrite (al : allocs) : M sys outcome :=
  r ← gets regs;
  let str := ebx r in
  let size := ecx r in
  copy_from_user (a_buf al) str size;;
  in_mach (store8 (u32 (a_buf al + size)) 0);;
  bs ← in_mach (load_bytes (S (Z.to_nat size)) (a_buf al));
  modify (λ s, set_console (console s ++ c_string bs) s);;
  mret Returned.

(** [serial::TryRead] *)
Definition TryRead : M sys (option Z) :=
  l ← gets serial_in;
  match l with
  | [] => mret None
  | c :: l => modify (set_serial l);; mret (Some c)
  end.

(** The local [c] is at [a_buf]; it is not initialised when nothing was read. *)
Definition SYS_DebugRead (al : allocs) : M sys outcome :=
  r ← gets regs;
  let dst := ebx r in
  c ← TryRead;
  match c with Some c => in_mach (store8 (a_buf al) c) | None => mret tt end;;
  copy_to_user dst (a_buf al) 1;;
  done_with (match c with Some _ => K_OK | None => K_UNABLE_TO_READ end).

(** [abort()] if the scheduler comes back. *)
Definition no_return (m : M sys outcome) : M sys outcome :=
  o ← m; match o with Returned => fail Aborted | SwitchTask a => mret (SwitchTask a) end.

Definition SYS_ProcessKill : M sys outcome :=
  r ← gets regs;
  no_return (on_kern (Schedule None (ebx r))).

(** The virtual address for a new page of the directory [pd], or the status of the failure. *)
Definition alloc_vaddr (pd flags page_vaddr : Z) : M sys (Z + Z) :=
  if tobool (Z.land flags ALLOC_ANON) then
    free_vpage ← in_mach (getNextFreePage pd FREE_PAGE_LOWER_BOUND);
    if free_vpage <? 0 then mret (inl K_OOM_VIRT) else mret (inr (PageToAddr free_vpage))
  else
    mapped ← in_mach (VaddrIsMapped pd page_vaddr);
    if (mapped : bool) then mret (inl K_VPAGE_MAPPED) else mret (inr page_vaddr).

Definition SYS_AllocPage : M sys outcome :=
  r ← gets regs;
  let page_vaddr := ebx r in
  let proc_handle := ecx r in
  let flags := edx r in
  free_ppage ← on_kern (on_pmm GetNextFreePage);
  if free_ppage <? 0 then done_with K_OOM_PHYS
  else
    task ← (if tobool (Z.land flags ALLOC_CURRENT) then on_kern GetCurrentTask else mret proc_handle);
    x ← on_kern (get_task task);
    let pd := pd_ x in
    v ← alloc_vaddr pd flags page_vaddr;
    match v with
    | inl status => done_with status
    | inr page_vaddr =>
        in_mach (MapPage pd page_vaddr (PageToAddr free_ppage) PG_USER);;
        ret_eax K_OK;;
        ret_ebx page_vaddr;;
        x ← on_kern (get_task task);
        assert_ (is_user_ x);;
        paddr ← in_mach (getPhysicalAddr (pd_ x) page_vaddr);
        on_kern (RecordOwnedPage task (AddrToPage paddr));;
        mret Returned
    end.

Definition SYS_PageSize : M sys outcome := done_with kPageSize4M.

Definition SYS_ProcessCreate (al : allocs) : M sys outcome :=
  kpd ← in_mach GetKernelPageDirectory;
  user_pd ← in_mach (Clone (a_pd al) kpd);
  cur ← on_kern GetCurrentTask;
  on_kern (new_task (a_task al) (a_stack al) true user_pd cur);;
  ret_ebx (a_task al);;
  done_with K_OK.

Definition SYS_MapPage : M sys outcome :=
  r ← gets regs;
  let vaddr1 := ebx r in
  let handle2 := ecx r in
  let flags := esi r in
  task1 ← on_kern GetCurrentTask;
  let task2 := handle2 in
  if task1 =? task2 then ret_eax K_OK;; ret_ebx (edx r);; mret Returned
  else
    x1 ← on_kern (get_task task1);
    x2 ← on_kern (get_task task2);
    let pd1 := pd_ x1 in
    let pd2 := pd_ x2 in
    assert_ (negb (pd1 =? pd2));;
    v2 ← (if tobool (Z.land flags MAP_ANON) then
            free_vpage ← in_mach (getNextFreePage pd2 FREE_PAGE_LOWER_BOUND);
            if free_vpage <? 0 then mret None else mret (Some (PageToAddr free_vpage))
          else mret (Some (edx r)));
    match v2 with
    | None => done_with K_OOM_VIRT
    | Some vaddr2 =>
        if tobool (vaddr1 mod kPageSize4M) || tobool (vaddr2 mod kPageSize4M) then
          done_with K_UNALIGNED_PAGE_ADDR
        else
          m1 ← in_mach (VaddrIsMapped pd1 vaddr1);
          m2 ← in_mach (VaddrIsMapped pd2 vaddr2);
          match m1, m2 with
          | true, false =>
              paddr ← in_mach (getPhysicalAddr pd1 vaddr1);
              in_mach (MapPage pd2 vaddr2 paddr PG_USER);;
              (if tobool (Z.land flags SWAP_OWNER) then
                 on_kern (RemoveOwnedPage task1 (AddrToPage paddr));;
                 on_kern (RecordOwnedPage task2 (AddrToPage paddr))
               else mret tt);;
              ret_eax K_OK;; ret_ebx vaddr2;; mret Returned
          | false, true =>
              paddr ← in_mach (getPhysicalAddr pd2 vaddr2);
              in_mach (MapPage pd1 vaddr1 paddr PG_USER);;
              (if tobool (Z.land flags SWAP_OWNER) then
                 on_kern (RemoveOwnedPage task2 (AddrToPage paddr));;
                 on_kern (RecordOwnedPage task1 (AddrToPage paddr))
               else mret tt);;
              ret_eax K_OK;; ret_ebx vaddr2;; mret Returned
          | _, _ => done_with K_VPAGE_MAPPED
          end
    end.

Definition SYS_UnmapPage : M sys outcome :=
  r ← gets regs;
  task ← on_kern GetCurrentTask;
  x ← on_kern (get_task task);
  let page_vaddr := ebx r in
  paddr ← in_mach (getPhysicalAddr (pd_ x) page_vaddr);
  let ppage := AddrToPage paddr in
  (if PageIsRecorded x ppage then on_kern (RemoveOwnedPage task ppage) else mret tt);;
  in_mach (UnmapPage (pd_ x) page_vaddr);;
  mret Returned.

(** [setEntry] and [setArg] *)
Definition setEntry (entry : Z) (t : Task) : Task :=
  let r := regs_ t in
  set_regs (mkRegs (gs r) (fs r) (es r) (ds r) (edi r) (esi r) (ebp r) (esp r) (ebx r) (edx r) (ecx r)
    (eax r) (int_no r) (err_code r) entry (cs r) (eflags r) (useresp r) (ss r)) t.
Definition setArg (arg : Z) (t : Task) : Task := set_regs (with_eax arg (regs_ t)) t.

Definition SYS_ProcessStart (al : allocs) : M sys outcome :=
  r ← gets regs;
  let proc_handle := ebx r in
  let entry := ecx r in
  let arg := edx r in
  on_kern (with_task proc_handle (setEntry entry));;
  on_kern (with_task proc_handle (setArg arg));;
  on_kern (RegisterTask (a_node al) proc_handle);;
  mret Returned.

(** [src] holds [bytes]. *)
Definition TryCopy (src : Z) (bytes : list Z) (buff buff_size : Z) : M sys Z :=
  let src_size := Z.of_nat (length bytes) in
  if buff_size <? src_size then mret K_BUFFER_TOO_SMALL
  else
    in_mach (store_bytes src bytes);;
    copy_to_user buff src src_size;;
    mret K_OK.

Definition SYS_ProcessInfo (al : allocs) : M sys outcome :=
  r ← gets regs;
  let proc_handle := ebx r in
  let flags := ecx r in
  let buffer := edx r in
  let size := esi r in
  task ← (if flags =? PROC_CURRENT then t ← on_kern GetCurrentTask; mret (Some t)
          else
            running ← on_kern (IsRunningTask proc_handle);
            mret (if (running : bool) then Some proc_handle else None));
  match task with
  | None => done_with K_INVALID_HANDLE
  | Some task =>
      if flags =? PROC_CURRENT then
        st ← TryCopy (a_buf al) (bytes_of_word task) buffer size;
        ret_eax st;; ret_ebx 4;; mret Returned
      else if flags =? PROC_PARENT then
        x ← on_kern (get_task task);
        st ← TryCopy (a_buf al) (bytes_of_word (parent_ x)) buffer size;
        ret_eax st;; ret_ebx 4;; mret Returned
      else if flags =? PROC_CHILDREN then
        children ← on_kern (getChildren task);
        st ← TryCopy (a_buf al) (children ≫= bytes_of_word) buffer size;
        ret_eax st;; ret_ebx (4 * Z.of_nat (length children));; mret Returned
      else done_with K_INVALID_ARG
  end.

Definition SYS_ProcessWait : M sys outcome :=
  r ← gets regs;
  let proc_handle := ebx r in
  let signals := ecx r in
  if negb (tobool signals) then done_with K_OK
  else
    running ← on_kern (IsRunningTask proc_handle);
    if negb running then done_with K_INVALID_HANDLE
    else
      cur ← on_kern GetCurrentTask;
      on_kern (WaitOn cur proc_handle signals);;
      ret_eax K_OK;;
      r ← gets regs;
      no_return (on_kern (Schedule (Some r) 0)).

Definition SYS_ChannelCreate (al : allocs) : M sys outcome :=
  cur ← on_kern GetCurrentTask;
  ends ← on_kern (on_chans (Channel.Create (a_storage al) (a_d1 al) (a_d2 al) cur));
  ret_eax ends.1;; ret_ebx ends.2;; mret Returned.

Definition SYS_HandleClose : M sys outcome :=
  r ← gets regs;
  on_kern (on_chans (Channel.Close (ebx r)));; mret Returned.

(** The bytes read go to the local buffer at [a_buf], then to the task's memory. *)
Definition SYS_ChannelRead (al : allocs) : M sys outcome :=
  r ← gets regs;
  let endpoint := ebx r in
  let dst := ecx r in
  let size := edx r in
  res ← on_kern (on_chans (Channel.Read (a_new al) endpoint size));
  match res with
  | inl bytes_available => ret_eax K_BUFFER_TOO_SMALL;; ret_ebx bytes_available;; mret Returned
  | inr bytes =>
      in_mach (store_bytes (a_buf al) bytes);;
      copy_to_user dst (a_buf al) size;;
      done_with K_OK
  end.

Definition SYS_ChannelWrite (al : allocs) : M sys outcome :=
  r ← gets regs;
  let endpoint := ebx r in
  let src := ecx r in
  let size := edx r in
  copy_from_user (a_buf al) src size;;
  bytes ← in_mach (load_bytes (Z.to_nat size) (a_buf al));
  on_kern (on_chans (Channel.Write (a_new al) endpoint bytes));;
  mret Returned.

Definition SYS_TransferHandle : M sys outcome :=
  r ← gets regs;
  on_kern (on_chans (Channel.TransferOwner (ecx r) (ebx r)));; mret Returned.

Definition kSyscallHandlers (al : allocs) : list (M sys outcome) :=
  [SYS_DebugWrite al; SYS_ProcessKill; SYS_AllocPage; SYS_PageSize;
   SYS_ProcessCreate al; SYS_MapPage; SYS_ProcessStart al; SYS_UnmapPage;
   SYS_ProcessInfo al; SYS_DebugRead al; SYS_ProcessWait; SYS_ChannelCreate al;
   SYS_HandleClose; SYS_ChannelRead al; SYS_ChannelWrite al; SYS_TransferHandle].

Definition SyscallHandler (al : allocs) : M sys outcome :=
  r ← gets regs;
  match nthZ (kSyscallHandlers al) (eax r) with
  | Some handler => handler
  | None => fail Aborted
  end.

(** ** timer.cpp *)

(** The callbacks in order; a callback that jumps away ends the loop. *)
Fixpoint run_callbacks (l : list (option handler_t)) : M sys outcome :=
  match l with
  | [] => mret Returned
  | None :: l => run_callbacks l
  | Some f :: l =>
      r ← gets regs;
      o ← on_kern (f r);
      match o with Returned => run_callbacks l | SwitchTask a => mret (SwitchTask a) end
  end.

Definition TimerCallback : M sys outcome :=
  modify (λ s, set_tick (u32 (gTick s + 1)) s);;
  l ← gets gCallbacks;
  run_callbacks l.

Definition RegisterTimerCallback (num : Z) (callback : handler_t) : M sys unit :=
  l ← gets gCallbacks;
  c ← liftR (aread l num);
  assert_ (match c with Some _ => false | None => true end);;
  l' ← liftR (awrite l num (Some callback));
  modify (set_callbacks l').

Definition UnregisterTimerCallback (num : Z) : M sys unit :=
  l ← gets gCallbacks;
  c ← liftR (aread l num);
  assert_ (match c with Some _ => true | None => false end);;
  l' ← liftR (awrite l num None);
  modify (set_callbacks l').

(** The callback that [scheduler::Initialize] registers. *)
Definition scheduler_callback : handler_t := λ r, Schedule (Some r) 0.

(** ** exceptions.cpp *)
Definition kPageFault : Z := 14.

(** The task is killed, whatever the exception. *)
Definition DispatchUserException : M sys outcome := no_return (on_kern (Schedule None 1)).

Definition DispatchKernelException (al : allocs) : M sys outcome :=
  r ← gets regs;
  if int_no r =? kPageFault then fail Aborted
  else if int_no r =? Interrupts.IRQ0 then TimerCallback
  else if int_no r =? Interrupts.kSyscallHandler then SyscallHandler al
  else fail Aborted.

Definition ExceptionDispatcher (al : allocs) : M sys outcome :=
  cur ← in_mach GetCurrentPageDirectory;
  modify (set_old cur);;
  kpd ← in_mach GetKernelPageDirectory;
  in_mach (SwitchPageDirectory kpd);;
  r ← gets regs;
  o ← (if int_no r =? Interrupts.IRQ0 then TimerCallback
       else if int_no r =? Interrupts.kSyscallHandler then SyscallHandler al
       else
         t ← on_kern GetCurrentTask;
         x ← on_kern (get_task t);
         if is_user_ x then DispatchUserException else DispatchKernelException al);
  match o with
  | Returned => old ← gets gOldPageDir; in_mach (SwitchPageDirectory old);; mret Returned
  | SwitchTask a => mret (SwitchTask a)
  end.

(** [isr_handler]: the only handler ever registered is the dispatcher. *)
Definition isr_handler (al : allocs) : M sys outcome :=
  r ← gets regs;
  assert_ (int_no r <? 256);;
  i ← in_mach (gets iflag);
  assert_ (negb i);;
  ExceptionDispatcher al.

(** * Lemmas *)
Lemma set_kern_id s : set_kern (kern s) s = s.
Proof. by destruct s. Qed.

Lemma set_mach_id k : set_mach (mach k) k = k.
Proof. by destruct k. Qed.

Lemma on_kern_Ok {A} (m : M kernel A) s a k : m (kern s) = Ok (a, k) → on_kern m s = Ok (a, set_kern k s).
Proof. intros H. unfold on_kern, zoom. by rewrite H. Qed.

Lemma on_kern_read {A} (m : M kernel A) s a : m (kern s) = Ok (a, kern s) → on_kern m s = Ok (a, s).
Proof. intros H. by rewrite (on_kern_Ok _ _ _ _ H), set_kern_id. Qed.

(** The state with the machine replaced. *)
Definition with_mach (m : machine) (s : sys) : sys := set_kern (set_mach m (kern s)) s.

Lemma in_mach_Ok {A} (f : M machine A) s a m :
  f (mach (kern s)) = Ok (a, m) → in_mach f s = Ok (a, with_mach m s).
Proof. intros H. apply on_kern_Ok. unfold on_mach, zoom. by rewrite H. Qed.

Lemma with_mach_id s : with_mach (mach (kern s)) s = s.
Proof. unfold with_mach. by rewrite set_mach_id, set_kern_id. Qed.

Lemma in_mach_read {A} (f : M machine A) s a :
  f (mach (kern s)) = Ok (a, mach (kern s)) → in_mach f s = Ok (a, s).
Proof. intros H. by rewrite (in_mach_Ok _ _ _ _ H), with_mach_id. Qed.

Lemma current_Ok s n t l : queue (kern s) ((n, t) :: l) → on_kern GetCurrentTask s = Ok (t, s).
Proof.
  intros [Hc _]. destruct (chain_head _ _ _ _ Hc) as (Hg & _). apply on_kern_read. unfold GetCurrentTask.
  by erewrite bind_Ok by done.
Qed.

Lemma task_Ok s t x : tasks (kern s) !! t = Some x → on_kern (get_task t) s = Ok (x, s).
Proof. intros H. apply on_kern_read. by apply get_task_Ok. Qed.

(** ** Allocating a page *)
Section alloc.
  Context (s : sys) (t : Z) (x : Task) (pd : list Z).
  Context (Hx : tasks (kern s) !! t = Some x) (Hpd : pds (mach (kern s)) !! pd_ x = Some pd) (Hok : pd_ok pd).

(** The address that [AllocPage] chooses: the one that was given, or that of the first free page. *)
Definition chosen (pd : list Z) (flags given a : Z) : Prop :=
  if tobool (Z.land flags ALLOC_ANON) then
    FREE_PAGE_LOWER_BOUND ≤ a / kPageSize4M ∧ ∀ j, FREE_PAGE_LOWER_BOUND ≤ j < a / kPageSize4M → is_Some (mapping pd j)
  else a = given.

(** The address is a free page, or the failure is the documented one. *)
Lemma alloc_vaddr_Ok flags given :
  (tobool (Z.land flags ALLOC_ANON) = false → page_aligned given) →
  ∃ v, alloc_vaddr (pd_ x) flags given s = Ok (v, s) ∧
    match v with
    | inr a => page_aligned a ∧ mapping pd (a / kPageSize4M) = None ∧ chosen pd flags given a
    | inl st =>
        (st = K_OOM_VIRT ∧ tobool (Z.land flags ALLOC_ANON) = true ∧
         ∀ j, FREE_PAGE_LOWER_BOUND ≤ j < kNumPageDirEntries → is_Some (mapping pd j)) ∨
        (st = K_VPAGE_MAPPED ∧ tobool (Z.land flags ALLOC_ANON) = false ∧
         is_Some (mapping pd (given / kPageSize4M)))
    end.
Proof.
  intros Hg. unfold alloc_vaddr, chosen. destruct (tobool (Z.land flags ALLOC_ANON)).
  - destruct (getNextFreePage_Ok (mach (kern s)) (pd_ x) pd FREE_PAGE_LOWER_BOUND) as (r & Hr & Hcase); try done.
    rewrite (bind_Ok _ _ _ _ _ (in_mach_read _ _ _ Hr)). destruct Hcase as [[-> Hall]|(Hr1 & Hm & Hlow)].
    + eexists. split; [done|]. by left.
    + unfold FREE_PAGE_LOWER_BOUND in Hr1. destruct (Z.ltb_spec r 0); [lia|]. eexists. split; [done|].
      destruct (page_start r) as (-> & Ha & Ed); [lia|]. rewrite Ed. split_and!; [done|done|unfold FREE_PAGE_LOWER_BOUND; lia|done].
  - specialize (Hg eq_refl).
    rewrite (bind_Ok _ _ _ _ _ (in_mach_read _ _ _ (VaddrIsMapped_Ok _ _ _ _ Hpd Hok Hg))).
    case_bool_decide as Hm; eexists; (split; [done|]).
    + by right.
    + split_and!; [done|by apply eq_None_not_Some|done].
Qed.

(** The rest of [SYS_AllocPage] once the pages are chosen. *)
Definition alloc_finish (page_vaddr free_ppage : Z) : M sys outcome :=
  in_mach (MapPage (pd_ x) page_vaddr (PageToAddr free_ppage) PG_USER);;
  ret_eax K_OK;;
  ret_ebx page_vaddr;;
  x ← on_kern (get_task t);
  assert_ (is_user_ x);;
  paddr ← in_mach (getPhysicalAddr (pd_ x) page_vaddr);
  on_kern (RecordOwnedPage t (AddrToPage paddr));;
  mret Returned.

(** The state after a page [p] was mapped at [a] in the directory of [x] and recorded. *)
Definition allocated (a p : Z) (s' : sys) : Prop :=
  regs s' = with_ebx a (with_eax K_OK (regs s)) ∧
  pds (mach (kern s')) = <[pd_ x := upd pd (a / kPageSize4M) (new_pde (PageToAddr p) PG_USER)]> (pds (mach (kern s))) ∧
  mem (mach (kern s')) = mem (mach (kern s)) ∧
  (∀ q, 0 ≤ q → Pmm.used (pmm (mach (kern s'))) q = (q =? p) || Pmm.used (pmm (mach (kern s))) q) ∧
  Pmm.wf (pmm (mach (kern s'))) ∧
  (∃ i z, list_find (λ q, q = 0) (owned_phys_pages_ x) = Some (i, z) ∧
     tasks (kern s') = <[t := set_owned (<[i := p]> (owned_phys_pages_ x)) x]> (tasks (kern s))) ∧
  chans (kern s') = chans (kern s) ∧ nodes (kern s') = nodes (kern s) ∧
  gTaskQueue (kern s') = gTaskQueue (kern s) ∧ gOldPageDir s' = gOldPageDir s.

Lemma alloc_finish_Ok a p :
  Pmm.wf (pmm (mach (kern s))) → is_user_ x = true →
  page_aligned a → mapping pd (a / kPageSize4M) = None →
  0 < p < kNumPageDirEntries → Pmm.used (pmm (mach (kern s))) p = false →
  p ∉ owned_phys_pages_ x → 0 ∈ owned_phys_pages_ x →
  ∃ s', alloc_finish a p s = Ok (Returned, s') ∧ allocated a p s'.
Proof.
  intros Hwf Hu Ha Hm Hp Hf Hnin H0. destruct (page_start p) as (Ep & Hpa & Ed); [lia|].
  destruct (new_pde_spec (PageToAddr p) PG_USER) as (_ & Hpr & Hmask & _); [by rewrite Ep|done|].
  assert (Hi : 0 ≤ a / kPageSize4M < kNumPageDirEntries) by (apply page_of_addr; apply Ha).
  unfold alloc_finish. erewrite bind_Ok.
  2:{ apply in_mach_Ok, (MapPage_Ok _ _ pd); try done. by rewrite Ep. }
  erewrite bind_Ok by done. erewrite bind_Ok by done. set (s1 := set_regs_ _ _).
  rewrite (bind_Ok _ _ _ _ _ (task_Ok s1 t x Hx)). rewrite Hu. erewrite bind_Ok by done.
  erewrite bind_Ok.
  2:{ apply in_mach_read. eapply getPhysicalAddr_Ok; [apply lookup_insert_eq|done|].
      rewrite mapping_upd by done. rewrite Z.eqb_refl, Hpr, Hmask. done. }
  unfold AddrToPage. rewrite Ep, Ed.
  destruct (list_find (λ q, q = 0) (owned_phys_pages_ x)) as [[i z]|] eqn:Ef.
  2:{ apply list_find_None in Ef. rewrite Forall_forall in Ef. by destruct (Ef 0 H0). }
  destruct (RecordOwnedPage_Ok (kern s1) t x p i z) as (u & Hrec & Hwfu & Hus); try done; [lia|].
  rewrite (bind_Ok _ _ _ _ _ (on_kern_Ok _ _ _ _ Hrec)). eexists. split; [done|].
  unfold allocated. simpl. rewrite Ep. split_and!; try done. by exists i, z.
Qed.

End alloc.

Lemma target_Ok s t :
  (tobool (Z.land (edx (regs s)) ALLOC_CURRENT) = true → current (kern s) t) →
  (tobool (Z.land (edx (regs s)) ALLOC_CURRENT) = false → ecx (regs s) = t) →
  (if tobool (Z.land (edx (regs s)) ALLOC_CURRENT) then on_kern GetCurrentTask else mret (ecx (regs s))) s = Ok (t, s).
Proof.
  intros H1 H2. destruct (tobool _); [|by rewrite H2]. destruct H1 as (n & l & Hq); [done|].
  by eapply current_Ok.
Qed.

Lemma owned_used s pages p : owned_ok s pages → Pmm.used s p = false → p ≠ 0 → p ∉ pages.
Proof.
  intros [_ Hu] Hf Hp Hin. rewrite Forall_forall in Hu. destruct (Hu p) as [_ H]; [|congruence].
  unfold owned_pages. by apply list_elem_of_filter.
Qed.

(** ** Bytes of memory *)

(** The [n] bytes from the physical address [p] on. *)
Fixpoint mem_bytes (m : gmap Z Z) (p : Z) (n : nat) : list Z :=
  match n with O => [] | S n => byte_at m p :: mem_bytes m (p + 1) n end.

Lemma length_mem_bytes m n : ∀ p, length (mem_bytes m p n) = n.
Proof. induction n as [|n IH]; intros p; [done|]. simpl. by rewrite IH. Qed.

Lemma mem_bytes_ext m m' n : ∀ p p',
  (∀ i, 0 ≤ i < Z.of_nat n → byte_at m' (p' + i) = byte_at m (p + i)) → mem_bytes m' p' n = mem_bytes m p n.
Proof.
  induction n as [|n IH]; intros p p' H; [done|]. simpl. f_equal.
  - specialize (H 0). rewrite !Z.add_0_r in H. apply H. lia.
  - apply IH. intros i Hi. specialize (H (1 + i)). rewrite !Z.add_assoc in H. apply H. lia.
Qed.

Lemma copied_bytes m m' ps p n : copied m m' ps p (Z.of_nat n) → mem_bytes m' p n = mem_bytes m ps n.
Proof.
  intros H. apply mem_bytes_ext. intros i Hi. rewrite H.
  destruct (Z.leb_spec p (p + i)); [|lia]. destruct (Z.ltb_spec (p + i) (p + Z.of_nat n)); [|lia]. simpl.
  f_equal. lia.
Qed.

Lemma mem_bytes_u8 m n : map_Forall (λ _, is_u8) m → ∀ p, Forall is_u8 (mem_bytes m p n).
Proof.
  intros Hm. induction n as [|n IH]; intros p; [constructor|]. constructor; [by apply byte_at_u8|apply IH].
Qed.

Lemma translate_next cpd v n p : in_page v n → 1 < n → translate cpd v = Some p →
  u32 (v + 1) = v + 1 ∧ in_page (v + 1) (n - 1) ∧ translate cpd (v + 1) = Some (p + 1).
Proof.
  intros Hv Hn Ht. destruct (next_byte v n Hv Hn) as (E & Hv' & Ed & Em). split_and!; try apply Hv'; [done|].
  rewrite translate_mapping in Ht |- *. rewrite Ed, Em.
  destruct (mapping cpd (v / kPageSize4M)); [|done]. simpl in *. f_equal. simplify_eq. lia.
Qed.

Lemma load_bytes_Ok n : ∀ s cpd v p,
  pds s !! gCurrentPageDir s = Some cpd → in_page v (Z.of_nat n) → (n ≠ 0%nat → translate cpd v = Some p) →
  load_bytes n v s = Ok (mem_bytes (mem s) p n, s).
Proof.
  induction n as [|n IH]; intros s cpd v p Hc Hv Ht; [done|]. cbn [load_bytes mem_bytes].
  specialize (Ht ltac:(lia)).
  assert (Hl : load8 v s = Ok (byte_at (mem s) p, s)).
  { unfold load8. by rewrite (bind_Ok _ _ _ _ _ (phys_Ok _ _ _ _ Hc Ht)). }
  rewrite (bind_Ok _ _ _ _ _ Hl). destruct n as [|n]; [done|].
  destruct (translate_next cpd v (Z.of_nat (S (S n))) p) as (E & Hv' & Ht'); [done|lia|done|].
  erewrite bind_Ok; [done|]. rewrite E. apply (IH s cpd (v + 1) (p + 1)); [done| |done].
  replace (Z.of_nat (S n)) with (Z.of_nat (S (S n)) - 1) by lia. done.
Qed.

(** The memory after storing [bs] at the physical address [p]. *)
Fixpoint stored (m : gmap Z Z) (p : Z) (bs : list Z) : gmap Z Z :=
  match bs with [] => m | b :: bs => stored (<[p := u8 b]> m) (p + 1) bs end.

Lemma stored_byte bs : ∀ m p q,
  byte_at (stored m p bs) q =
    if (p <=? q) && (q <? p + Z.of_nat (length bs)) then u8 (default 0 (bs !! Z.to_nat (q - p))) else byte_at m q.
Proof.
  induction bs as [|b bs IH]; intros m p q.
  { cbn [stored length]. rewrite Z.add_0_r. destruct (Z.leb_spec p q), (Z.ltb_spec q p); try done; lia. }
  cbn [stored length]. rewrite IH, byte_at_insert.
  destruct (Z.leb_spec (p + 1) q), (Z.ltb_spec q (p + 1 + Z.of_nat (length bs))), (Z.leb_spec p q),
    (Z.ltb_spec q (p + Z.of_nat (S (length bs)))), (Z.eqb_spec q p); simpl; try lia; try done.
  - replace (Z.to_nat (q - p)) with (S (Z.to_nat (q - (p + 1)))) by lia. done.
  - subst q. by rewrite Z.sub_diag.
Qed.

Lemma store_bytes_Ok bs : ∀ s cpd v p,
  pds s !! gCurrentPageDir s = Some cpd → in_page v (Z.of_nat (length bs)) →
  (bs ≠ [] → translate cpd v = Some p) →
  store_bytes v bs s = Ok (tt, set_mem (stored (mem s) p bs) s).
Proof.
  induction bs as [|b bs IH]; intros s cpd v p Hc Hv Ht; [by destruct s|]. cbn [store_bytes stored].
  specialize (Ht ltac:(done)).
  assert (Hst : store8 v b s = Ok (tt, set_mem (<[p := u8 b]> (mem s)) s)).
  { unfold store8. by rewrite (bind_Ok _ _ _ _ _ (phys_Ok _ _ _ _ Hc Ht)). }
  rewrite (bind_Ok _ _ _ _ _ Hst). destruct bs as [|b' bs].
  { by destruct s. }
  destruct (translate_next cpd v (Z.of_nat (length (b :: b' :: bs))) p) as (E & Hv' & Ht');
    [done|simpl; lia|done|].
  rewrite E. rewrite (IH _ cpd (v + 1) (p + 1)); [done|done| |done].
  replace (Z.of_nat (length (b' :: bs))) with (Z.of_nat (length (b :: b' :: bs)) - 1) by (simpl; lia). done.
Qed.

Lemma stored_bytes m p bs : Forall is_u8 bs → mem_bytes (stored m p bs) p (length bs) = bs.
Proof.
  intros Hb. apply list_eq. intros i. assert (Hn : ∀ n m q j, (j < n)%nat →
    mem_bytes m q n !! j = Some (byte_at m (q + Z.of_nat j))).
  { clear. induction n as [|n IH]; intros m q j Hj; [lia|]. destruct j as [|j]; simpl.
    - by rewrite Z.add_0_r.
    - rewrite IH by lia. do 2 f_equal. lia. }
  destruct (decide (i < length bs)%nat) as [Hi|Hi].
  - rewrite Hn by done. rewrite stored_byte. destruct (Z.leb_spec p (p + Z.of_nat i)); [|lia].
    destruct (Z.ltb_spec (p + Z.of_nat i) (p + Z.of_nat (length bs))); [|lia]. simpl.
    replace (Z.to_nat (p + Z.of_nat i - p)) with i by lia.
    destruct (lookup_lt_is_Some_2 bs i Hi) as [b Eb]. rewrite Eb. simpl. rewrite u8_id; [done|].
    rewrite Forall_forall in Hb. apply Hb. by eapply list_elem_of_lookup_2.
  - rewrite !lookup_ge_None_2; [done|lia|]. rewrite length_mem_bytes. lia.
Qed.

(** ** Copies between a task and the kernel *)

(** A handler runs with the kernel's directory, which has a free page for temporary
    mappings; the interrupted task has another one. *)
Definition in_handler (s : sys) : Prop :=
  let m := mach (kern s) in
  Paging.wf m ∧ gOldPageDir s ≠ gCurrentPageDir m ∧
  ∃ cpd i, pds m !! gCurrentPageDir m = Some cpd ∧ 0 ≤ i < kNumPageDirEntries ∧ mapping cpd i = None.

(** The range [v .. v + n) of a directory lies in one page, at the physical address [p]. *)
Definition range_at (m : machine) (pd v n p : Z) : Prop := in_page v n ∧ vtranslate m pd v = Some p.

Definition disjoint (p q n : Z) : Prop := p + n ≤ q ∨ q + n ≤ p.

Lemma range_current m cpd v n p :
  pds m !! gCurrentPageDir m = Some cpd → range_at m (gCurrentPageDir m) v n p → translate cpd v = Some p.
Proof. intros Hc [_ H]. unfold vtranslate in H. by rewrite Hc in H. Qed.

Lemma copy_from_user_Ok s buf src n up kp :
  in_handler s → range_at (mach (kern s)) (gOldPageDir s) src n up →
  range_at (mach (kern s)) (gCurrentPageDir (mach (kern s))) buf n kp → disjoint up kp n →
  ∃ m', copy_from_user buf src n s = Ok (tt, with_mach (set_mem m' (mach (kern s))) s) ∧
        copied (mem (mach (kern s))) m' up kp n.
Proof.
  intros (Hwf & Hne & cpd & i & Hc & Hi & Hm) [Hs Hu] Hk Hd.
  destruct (Memcpy_from_other (mach (kern s)) (gOldPageDir s) src buf n up kp cpd i) as (m' & Hrun & Hcp);
    try done; [apply Hk|by eapply range_current|].
  exists m'. split; [|done]. unfold copy_from_user. erewrite bind_Ok by done.
  erewrite bind_Ok by (by apply in_mach_read). by apply in_mach_Ok.
Qed.

Lemma copy_to_user_Ok s dst buf n up kp :
  in_handler s → range_at (mach (kern s)) (gOldPageDir s) dst n up →
  range_at (mach (kern s)) (gCurrentPageDir (mach (kern s))) buf n kp → disjoint kp up n →
  ∃ m', copy_to_user dst buf n s = Ok (tt, with_mach (set_mem m' (mach (kern s))) s) ∧
        copied (mem (mach (kern s))) m' kp up n.
Proof.
  intros (Hwf & Hne & cpd & i & Hc & Hi & Hm) [Hs Hu] Hk Hd.
  destruct (Memcpy_to_other (mach (kern s)) (gOldPageDir s) buf dst n kp up cpd i) as (m' & Hrun & Hcp);
    try done; [apply Hk|by eapply range_current|].
  exists m'. split; [|done]. unfold copy_to_user. erewrite bind_Ok by done.
  erewrite bind_Ok by (by apply in_mach_read). by apply in_mach_Ok.
Qed.

(** The state with the channels replaced. *)
Definition with_chans (c : Channel.state) (s : sys) : sys := set_kern (set_chans c (kern s)) s.

Lemma chans_Ok {A} (f : M Channel.state A) s a c :
  f (chans (kern s)) = Ok (a, c) → on_kern (on_chans f) s = Ok (a, with_chans c s).
Proof. intros H. apply on_kern_Ok. unfold on_chans, zoom. by rewrite H. Qed.

(** ** Channels *)
Lemma ChannelWrite_sends al s cs i d up kp :
  let r := regs s in
  in_handler s → ebx r = Channel.addr_of (chans (kern s)) i d →
  range_at (mach (kern s)) (gOldPageDir s) (ecx r) (edx r) up →
  range_at (mach (kern s)) (gCurrentPageDir (mach (kern s))) (a_buf al) (edx r) kp → disjoint up kp (edx r) →
  Channel.rep (chans (kern s)) cs → Channel.linked (chans (kern s)) cs i →
  a_new al ≠ 0 → Channel.bufs (chans (kern s)) !! a_new al = None →
  Z.of_nat (length (Channel.waiting (chans (kern s)) cs i (Channel.peer d))) + edx r < 2 ^ 32 →
  ∃ m' c' cs', SYS_ChannelWrite al s = Ok (Returned, with_chans c' (with_mach (set_mem m' (mach (kern s))) s)) ∧
    copied (mem (mach (kern s))) m' up kp (edx r) ∧ Channel.rep c' cs' ∧
    Channel.links cs' = Channel.links cs ∧ length cs' = length cs ∧ Channel.elements c' = Channel.elements (chans (kern s)) ∧
    Channel.waiting c' cs' i (Channel.peer d) =
      Channel.waiting (chans (kern s)) cs i (Channel.peer d) ++
      mem_bytes (mem (mach (kern s))) up (Z.to_nat (edx r)) ∧
    ∀ j d', (j, d') ≠ (i, Channel.peer d) → Channel.waiting c' cs' j d' = Channel.waiting (chans (kern s)) cs j d'.
Proof.
  intros r Hin Hep Hu Hk Hd Hrep Hlink Hnew Hfr Hlen.
  destruct (copy_from_user_Ok s (a_buf al) (ecx r) (edx r) up kp Hin Hu Hk Hd) as (m' & Hcopy & Hcp).
  assert (Hn : Z.of_nat (Z.to_nat (edx r)) = edx r) by (destruct Hk as [(_ & ? & _) _]; lia).
  destruct Hin as (Hwf & _ & cpd & j & Hc & _).
  destruct (Channel.Write_Ok (chans (kern s)) cs i d (a_new al) (mem_bytes (mem (mach (kern s))) up (Z.to_nat (edx r))))
    as (c' & cs' & Hw & Hrep' & Hl & Hlen' & He & Hwait & Hrest); try done.
  { by rewrite length_mem_bytes, Hn. }
  exists m', c', cs'. split_and!; try done. unfold SYS_ChannelWrite. erewrite bind_Ok by done. fold r.
  rewrite (bind_Ok _ _ _ _ _ Hcopy). erewrite bind_Ok.
  2:{ apply in_mach_read. apply (load_bytes_Ok _ _ cpd _ kp); [done|rewrite Hn; apply Hk|].
      intros _. by eapply range_current. }
  simpl mem. rewrite (copied_bytes _ _ up) by (by rewrite Hn). rewrite Hep.
  erewrite bind_Ok by (apply chans_Ok; exact Hw). done.
Qed.

Lemma ChannelRead_receives al s cs i d c up kp :
  let r := regs s in
  let w := Channel.waiting (chans (kern s)) cs i d in
  in_handler s → ebx r = Channel.addr_of (chans (kern s)) i d →
  range_at (mach (kern s)) (gOldPageDir s) (ecx r) (edx r) up →
  range_at (mach (kern s)) (gCurrentPageDir (mach (kern s))) (a_buf al) (edx r) kp → disjoint kp up (edx r) →
  Channel.rep (chans (kern s)) cs → cs !! i = Some c → Forall is_u8 w →
  a_new al ≠ 0 → Channel.bufs (chans (kern s)) !! a_new al = None →
  if edx r <=? Z.of_nat (length w) then
    ∃ m' c' cs', SYS_ChannelRead al s =
        Ok (Returned, set_regs_ (with_eax K_OK r) (with_chans c' (with_mach (set_mem m' (mach (kern s))) s))) ∧
      mem_bytes m' up (Z.to_nat (edx r)) = take (Z.to_nat (edx r)) w ∧
      Channel.rep c' cs' ∧ Channel.waiting c' cs' i d = drop (Z.to_nat (edx r)) w ∧
      (∀ q, ¬ (up ≤ q < up + edx r) → ¬ (kp ≤ q < kp + edx r) → byte_at m' q = byte_at (mem (mach (kern s))) q)
  else SYS_ChannelRead al s =
         Ok (Returned, set_regs_ (with_ebx (Z.of_nat (length w)) (with_eax K_BUFFER_TOO_SMALL r)) s).
Proof.
  intros r w Hin Hep Hu Hk Hd Hrep Hc Hw8 Hnew Hfr.
  assert (Hn0 : 0 ≤ edx r) by (destruct Hk as [(_ & ? & _) _]; lia).
  pose proof (Channel.Read_Ok (chans (kern s)) cs i d c (a_new al) (edx r) Hrep Hc Hnew Hfr Hn0) as Hread.
  fold w in Hread. unfold SYS_ChannelRead. destruct (Z.leb_spec (edx r) (Z.of_nat (length w))) as [Hle|Hgt].
  2:{ erewrite bind_Ok by done. fold r. rewrite Hep. erewrite bind_Ok by (apply chans_Ok; exact Hread).
      unfold with_chans. replace (set_chans _ _) with (kern s) by (by destruct (kern s)).
      rewrite set_kern_id. done. }
  destruct Hread as (c' & cs' & Hread & Hrep' & _ & _ & _ & Hwait & _).
  set (bs := take (Z.to_nat (edx r)) w) in *.
  assert (Hlb : length bs = Z.to_nat (edx r)) by (unfold bs; rewrite length_take; lia).
  assert (Hn : Z.of_nat (length bs) = edx r) by lia.
  set (s1 := with_chans c' s). pose proof Hin as (Hwf & Hne & cpd & j & Hcpd & Hj & Hmj).
  set (m1 := stored (mem (mach (kern s))) kp bs).
  assert (Hst : in_mach (store_bytes (a_buf al) bs) s1 = Ok (tt, with_mach (set_mem m1 (mach (kern s))) s1)).
  { apply in_mach_Ok. apply (store_bytes_Ok bs _ cpd); [done|rewrite Hn; apply Hk|].
    intros _. by eapply range_current. }
  assert (H8 : Forall is_u8 bs) by (by apply Forall_take).
  set (s2 := with_mach (set_mem m1 (mach (kern s))) s1) in *.
  assert (Hin2 : in_handler s2).
  { split_and!; [|done|by exists cpd, j]. destruct Hwf as (Hp & Hcu & Hm8). split_and!; [done|done|].
    simpl. unfold m1. clear -H8 Hm8. revert kp Hm8. generalize (mem (mach (kern s))).
    induction H8 as [|b bs Hb _ IH]; intros m0 p Hm; [done|]. simpl. apply IH.
    apply map_Forall_insert_2; [apply u8_range|done]. }
  destruct (copy_to_user_Ok s2 (ecx r) (a_buf al) (edx r) up kp) as (m' & Hcopy & Hcp); try done.
  exists m', c', cs'. split_and!; [|..|].
  - erewrite bind_Ok by done. fold r. rewrite Hep. erewrite bind_Ok by (apply chans_Ok; exact Hread).
    cbv beta iota. fold s1 bs. rewrite (bind_Ok _ _ _ _ _ Hst). rewrite (bind_Ok _ _ _ _ _ Hcopy). done.
  - rewrite <- Hlb. erewrite copied_bytes by (by rewrite Hn). simpl. unfold m1. by apply stored_bytes.
  - done.
  - done.
  - intros q Hq1 Hq2. rewrite (Hcp q). destruct (Z.leb_spec up q), (Z.ltb_spec q (up + edx r)); simpl; try lia;
      unfold m1; rewrite stored_byte, Hn; destruct (Z.leb_spec kp q), (Z.ltb_spec q (kp + edx r)); simpl; try done; lia.
Qed.

(** ** The directory of the interrupted task is kept *)

Abbreviation keeps_old := (preserves gOldPageDir).

Lemma keeps_on_kern {A} (m : M kernel A) : keeps_old (on_kern m).
Proof. apply preserves_zoom. done. Qed.

Lemma keeps_in_mach {A} (m : M machine A) : keeps_old (in_mach m).
Proof. apply keeps_on_kern. Qed.

Lemma keeps_ret_eax v : keeps_old (ret_eax v).
Proof. by apply preserves_modify. Qed.

Lemma keeps_ret_ebx v : keeps_old (ret_ebx v).
Proof. by apply preserves_modify. Qed.

#[local] Hint Resolve keeps_on_kern keeps_in_mach keeps_ret_eax keeps_ret_ebx : preserves.

Lemma keeps_copy_to d v n : keeps_old (copy_to_user d v n).
Proof. unfold copy_to_user, GetPageDirBeforeException. preserves. Qed.

Lemma keeps_copy_from d v n : keeps_old (copy_from_user d v n).
Proof. unfold copy_from_user, GetPageDirBeforeException. preserves. Qed.

#[local] Hint Resolve keeps_copy_to keeps_copy_from : preserves.

Lemma keeps_TryCopy a bs b n : keeps_old (TryCopy a bs b n).
Proof. unfold TryCopy. preserves. Qed.

Lemma keeps_no_return m : keeps_old m → keeps_old (no_return m).
Proof. intros H. unfold no_return. apply preserves_bind; [done|]. intros []; preserves. Qed.

#[local] Hint Resolve keeps_TryCopy keeps_no_return : preserves.

Lemma keeps_handler al h : h ∈ kSyscallHandlers al → keeps_old h.
Proof.
  revert h. apply Forall_forall. unfold kSyscallHandlers. repeat constructor;
  unfold SYS_DebugWrite, SYS_ProcessKill, SYS_AllocPage, alloc_vaddr, SYS_PageSize, SYS_ProcessCreate, SYS_MapPage,
    SYS_ProcessStart, SYS_UnmapPage, SYS_ProcessInfo, SYS_DebugRead, TryRead, SYS_ProcessWait, SYS_ChannelCreate,
    SYS_HandleClose, SYS_ChannelRead, SYS_ChannelWrite, SYS_TransferHandle, done_with; preserves.
Qed.

Lemma keeps_SyscallHandler al : keeps_old (SyscallHandler al).
Proof.
  unfold SyscallHandler. apply preserves_bind; [preserves|]. intros r.
  destruct (nthZ (kSyscallHandlers al) (eax r)) as [h|] eqn:E; [|preserves].
  apply (keeps_handler al). apply nthZ_Some in E as [_ E]. by eapply list_elem_of_lookup_2.
Qed.

Lemma keeps_callbacks l : keeps_old (run_callbacks l).
Proof.
  induction l as [|[f|] l IH]; cbn [run_callbacks]; [preserves| |done].
  apply preserves_bind; [preserves|]. intros r. apply preserves_bind; [preserves|]. intros []; [done|preserves].
Qed.

Lemma keeps_TimerCallback : keeps_old TimerCallback.
Proof. unfold TimerCallback. preserves. apply keeps_callbacks. Qed.

#[local] Hint Resolve keeps_SyscallHandler keeps_TimerCallback : preserves.

(** Checking the stack changes nothing. *)
Lemma check_kernel_stack_reads r k u k' : check_kernel_stack r k = Ok (u, k') → k' = k.
Proof.
  assert (Hload : ∀ v, preserves (λ k : kernel, k) (on_mach (load32 v))).
  { intros v k0 a k1. unfold on_mach, zoom. destruct (load32 v (mach k0)) as [[w m]|] eqn:E; [|done]. intros [= _ <-].
    assert (Hm : preserves (λ m : machine, m) (load32 v)).
    { unfold load32, load8, phys, get_pd, GetCurrentPageDirectory. preserves. }
    rewrite (Hm _ _ _ E). apply set_mach_id. }
  revert k u k'. change (preserves (λ k : kernel, k) (check_kernel_stack r)). unfold check_kernel_stack. preserves.
Qed.

(** ** Allocating and unmapping, as lemmas *)
Lemma SYS_AllocPage_Ok s t x pd :
  (tobool (Z.land (edx (regs s)) ALLOC_CURRENT) = true → current (kern s) t) →
  (tobool (Z.land (edx (regs s)) ALLOC_CURRENT) = false → ecx (regs s) = t) →
  (tobool (Z.land (edx (regs s)) ALLOC_ANON) = false → page_aligned (ebx (regs s))) →
  tasks (kern s) !! t = Some x → pds (mach (kern s)) !! pd_ x = Some pd → pd_ok pd →
  Pmm.wf (pmm (mach (kern s))) → is_user_ x = true →
  owned_ok (pmm (mach (kern s))) (owned_phys_pages_ x) → 0 ∈ owned_phys_pages_ x →
  Pmm.used (pmm (mach (kern s))) 0 = true →
  (∃ st, SYS_AllocPage s = Ok (Returned, set_regs_ (with_eax st (regs s)) s) ∧
     ((st = K_OOM_PHYS ∧ ∀ p, 0 ≤ p < searched_pages (pmm (mach (kern s))) → Pmm.used (pmm (mach (kern s))) p = true) ∨
      (st = K_OOM_VIRT ∧ tobool (Z.land (edx (regs s)) ALLOC_ANON) = true ∧
       ∀ j, FREE_PAGE_LOWER_BOUND ≤ j < kNumPageDirEntries → is_Some (mapping pd j)) ∨
      (st = K_VPAGE_MAPPED ∧ tobool (Z.land (edx (regs s)) ALLOC_ANON) = false ∧
       is_Some (mapping pd (ebx (regs s) / kPageSize4M))))) ∨
  (∃ a p s', SYS_AllocPage s = Ok (Returned, s') ∧ allocated s t x pd a p s' ∧
     page_aligned a ∧ mapping pd (a / kPageSize4M) = None ∧ Pmm.used (pmm (mach (kern s))) p = false ∧
     0 < p < kNumPageDirEntries ∧ (p ∉ owned_phys_pages_ x) ∧
     chosen pd (edx (regs s)) (ebx (regs s)) a).
Proof.
  intros Hc1 Hc2 Hg Hx Hpd Hok Hwf Hu Hown Hroom H0. unfold SYS_AllocPage.
  destruct (GetNextFreePage_Ok (pmm (mach (kern s))) Hwf) as (p & Hp & Hcase).
  assert (Hpm : on_kern (on_pmm GetNextFreePage) s = Ok (p, s)).
  { apply on_kern_read. erewrite on_pmm_Ok by exact Hp. by rewrite set_pmm_id. }
  erewrite bind_Ok by done. rewrite (bind_Ok _ _ _ _ _ Hpm).
  destruct Hcase as [[-> Hall]|(Hr & Hf & _)].
  { left. exists K_OOM_PHYS. split; [done|]. by left. }
  destruct (Z.ltb_spec p 0); [lia|].
  rewrite (bind_Ok _ _ _ _ _ (target_Ok s t Hc1 Hc2)), (bind_Ok _ _ _ _ _ (task_Ok s t x Hx)).
  destruct (alloc_vaddr_Ok s x pd Hpd Hok (edx (regs s)) (ebx (regs s)) Hg) as ([st|a] & Hv & Hcase);
    rewrite (bind_Ok _ _ _ _ _ Hv).
  - left. exists st. split; [done|]. by right.
  - right. destruct Hcase as (Ha & Hm & Hg'). destruct (Z.eq_dec p 0) as [->|Hp0]; [congruence|].
    assert (Hrange : p < kNumPageDirEntries).
    { destruct Hwf as (_ & _ & Hn). unfold searched_pages in Hr. unfold kNumPageDirEntries, CHAR_BIT in *. dlia. }
    destruct (alloc_finish_Ok s t x pd Hx Hpd Hok a p) as (s' & Hrun & Hal); try done; [lia|by eapply owned_used|].
    exists a, p, s'. split_and!; try done; [lia|by eapply owned_used].
Qed.

(** The state [s1], in which the page [p] that was free in [s] is mapped at [a] for [x] and
    recorded; memory may have changed since. *)
Definition holds_page (s : sys) (t : Z) (x : Task) (pd : list Z) (a p : Z) (s1 : sys) : Prop :=
  pds (mach (kern s1)) = <[pd_ x := upd pd (a / kPageSize4M) (new_pde (PageToAddr p) PG_USER)]> (pds (mach (kern s))) ∧
  (∀ q, 0 ≤ q → Pmm.used (pmm (mach (kern s1))) q = (q =? p) || Pmm.used (pmm (mach (kern s))) q) ∧
  Pmm.wf (pmm (mach (kern s1))) ∧
  ∃ i z, list_find (λ q, q = 0) (owned_phys_pages_ x) = Some (i, z) ∧
     tasks (kern s1) = <[t := set_owned (<[i := p]> (owned_phys_pages_ x)) x]> (tasks (kern s)).

Lemma SYS_UnmapPage_Ok s t x pd a p s1 :
  tasks (kern s) !! t = Some x → pds (mach (kern s)) !! pd_ x = Some pd → pd_ok pd → page_aligned a →
  mapping pd (a / kPageSize4M) = None → 0 < p < kNumPageDirEntries →
  Pmm.used (pmm (mach (kern s))) p = false → p ∉ owned_phys_pages_ x →
  holds_page s t x pd a p s1 → current (kern s1) t → ebx (regs s1) = a →
  ∃ s2, SYS_UnmapPage s1 = Ok (Returned, s2) ∧ regs s2 = regs s1 ∧ gCallbacks s2 = gCallbacks s1 ∧
    pds (mach (kern s2)) = pds (mach (kern s)) ∧ tasks (kern s2) = tasks (kern s) ∧
    mem (mach (kern s2)) = mem (mach (kern s1)) ∧
    ∀ q, 0 ≤ q → Pmm.used (pmm (mach (kern s2))) q = Pmm.used (pmm (mach (kern s))) q.
Proof.
  intros Hx Hpd Hok Ha Hm Hp Hf Hnin (Hpds & Hus & Hwf & i & z & Hfind & Hts) (n & l & Hq) Hea.
  destruct (page_start p) as (Ep & Hpa & Ed); [lia|].
  destruct (new_pde_spec (PageToAddr p) PG_USER) as (Hu32 & Hpr & Hmask & _); [by rewrite Ep|done|].
  assert (Hi : 0 ≤ a / kPageSize4M < kNumPageDirEntries) by (apply page_of_addr; apply Ha).
  set (x1 := set_owned (<[i := p]> (owned_phys_pages_ x)) x) in *.
  set (pd1 := upd pd (a / kPageSize4M) (new_pde (PageToAddr p) PG_USER)) in *.
  assert (Hx1 : tasks (kern s1) !! t = Some x1) by (rewrite Hts; apply lookup_insert_eq).
  assert (Hpd1 : pds (mach (kern s1)) !! pd_ x1 = Some pd1) by (rewrite Hpds; apply lookup_insert_eq).
  assert (Hok1 : pd_ok pd1) by (apply upd_ok; [done|]; split; [done|by right]).
  assert (Hm1 : mapping pd1 (a / kPageSize4M) = Some (PageToAddr p)).
  { unfold pd1. rewrite mapping_upd by done. by rewrite Z.eqb_refl, Hpr, Hmask. }
  pose proof (find_inserted _ _ _ _ Hnin Hfind) as Hf1.
  assert (Erec : PageIsRecorded x1 (AddrToPage (PageToAddr p)) = true).
  { unfold AddrToPage, PageIsRecorded. rewrite Ep, Ed. apply bool_decide_true.
    apply list_find_Some in Hf1 as (Hl & _). by eapply list_elem_of_lookup_2. }
  destruct (RemoveOwnedPage_Ok (kern s1) t x1 p i) as (u & Hrem & _ & Hu2); try done; [lia| |].
  { rewrite Hus by lia. by rewrite Z.eqb_refl. }
  eexists. split.
  { unfold SYS_UnmapPage. erewrite bind_Ok by done. erewrite bind_Ok by (by eapply current_Ok).
    rewrite (bind_Ok _ _ _ _ _ (task_Ok _ _ _ Hx1)). rewrite Hea.
    erewrite bind_Ok by (apply in_mach_read; by eapply getPhysicalAddr_Ok). rewrite Erec.
    unfold AddrToPage. rewrite Ep, Ed. rewrite (bind_Ok _ _ _ _ _ (on_kern_Ok _ _ _ _ Hrem)).
    erewrite bind_Ok by (apply in_mach_Ok, (UnmapPage_Ok _ _ pd1); [exact Hpd1|done|done|by rewrite Hm1]). done. }
  simpl. split; [done|]. split; [done|]. split_and!.
  - rewrite Hpds, insert_insert_eq. unfold pd1. rewrite upd_undo by done. by apply insert_id.
  - rewrite Hts, insert_insert_eq. apply insert_id. rewrite Hx. f_equal. unfold x1, set_owned. simpl.
    apply list_find_Some in Hfind as (Hl & Hz & _). simpl in Hz. subst z.
    rewrite list_insert_insert_eq, list_insert_id by done. by destruct x.
  - done.
  - intros q Hq0. rewrite Hu2, Hus by done. destruct (Z.eqb_spec q p) as [->|]; [by rewrite Hf|done].
Qed.

(** * Theorems *)


(** Unmapping gives back what was allocated.  After a page was allocated for the current
    task, [SYS_UnmapPage] at the address that was returned restores the page directories, the
    pages in use and the task's record of its pages. *)
Lemma SYS_UnmapPage_undoes_AllocPage s t x pd a p s1 :
  tasks (kern s) !! t = Some x → pds (mach (kern s)) !! pd_ x = Some pd → pd_ok pd → page_aligned a →
  mapping pd (a / kPageSize4M) = None → 0 < p < kNumPageDirEntries →
  Pmm.used (pmm (mach (kern s))) p = false → p ∉ owned_phys_pages_ x →
  allocated s t x pd a p s1 → current (kern s1) t →
  ∃ s2, SYS_UnmapPage s1 = Ok (Returned, s2) ∧
    pds (mach (kern s2)) = pds (mach (kern s)) ∧ tasks (kern s2) = tasks (kern s) ∧
    mem (mach (kern s2)) = mem (mach (kern s)) ∧
    ∀ q, 0 ≤ q → Pmm.used (pmm (mach (kern s2))) q = Pmm.used (pmm (mach (kern s))) q.
Proof.
  intros Hx Hpd Hok Ha Hm Hp Hf Hnin (Hr & Hpds & Hmem & Hus & Hwf & Hts & _) Hcur.
  destruct (SYS_UnmapPage_Ok s t x pd a p s1) as (s2 & H2 & _ & _ & ? & ? & Hmem2 & ?); try done; [by rewrite Hr|].
  exists s2. split_and!; try done. by rewrite Hmem2.
Qed.

(** C25: a channel carries bytes from the memory of one task to the memory of another.  When
    one task writes [n] bytes of its memory to its end of a channel, a later read at the other
    end, by whatever task runs then, puts into that task's memory what was waiting there
    followed by exactly the bytes that were in the first task's memory. *)
Theorem channel_transfers_between_tasks al s cs i d up kp :
  let r := regs s in
  let w := Channel.waiting (chans (kern s)) cs i (Channel.peer d) in
  in_handler s → ebx r = Channel.addr_of (chans (kern s)) i d →
  range_at (mach (kern s)) (gOldPageDir s) (ecx r) (edx r) up →
  range_at (mach (kern s)) (gCurrentPageDir (mach (kern s))) (a_buf al) (edx r) kp → disjoint up kp (edx r) →
  Channel.rep (chans (kern s)) cs → Channel.linked (chans (kern s)) cs i → Forall is_u8 w →
  a_new al ≠ 0 → Channel.bufs (chans (kern s)) !! a_new al = None →
  Z.of_nat (length w) + edx r < 2 ^ 32 →
  ∃ s1, SYS_ChannelWrite al s = Ok (Returned, s1) ∧
    ∀ r2 old2 al2 up2 kp2, let s2 := set_old old2 (set_regs_ r2 s1) in
      in_handler s2 → ebx r2 = Channel.addr_of (chans (kern s)) i (Channel.peer d) →
      range_at (mach (kern s2)) old2 (ecx r2) (edx r2) up2 →
      range_at (mach (kern s2)) (gCurrentPageDir (mach (kern s2))) (a_buf al2) (edx r2) kp2 →
      disjoint kp2 up2 (edx r2) → a_new al2 ≠ 0 → Channel.bufs (chans (kern s1)) !! a_new al2 = None →
      edx r2 ≤ Z.of_nat (length w) + edx r →
      ∃ s3, SYS_ChannelRead al2 s2 = Ok (Returned, s3) ∧ eax (regs s3) = K_OK ∧
        mem_bytes (mem (mach (kern s3))) up2 (Z.to_nat (edx r2)) =
          take (Z.to_nat (edx r2)) (w ++ mem_bytes (mem (mach (kern s))) up (Z.to_nat (edx r))).
Proof.
  intros r w Hin Hep Hu Hk Hd Hrep Hlink Hw8 Hnew Hfr Hlen. pose proof Hin as ((_ & _ & Hm8) & _).
  assert (Hn0 : 0 ≤ edx r) by (destruct Hk as [(_ & ? & _) _]; lia).
  destruct (ChannelWrite_sends al s cs i d up kp) as (m' & c' & cs' & Hrun & _ & Hrep' & _ & Hl & He & Hwait & _); try done.
  eexists. split; [exact Hrun|]. intros r2 old2 al2 up2 kp2 s2 Hin2 Hep2 Hu2 Hk2 Hd2 Hnew2 Hfr2 Hle.
  assert (∃ c, cs' !! i = Some c) as [c Hc].
  { destruct Hlink as (c0 & Hc0 & _). apply lookup_lt_Some in Hc0. apply lookup_lt_is_Some_2. lia. }
  fold w in Hwait.
  assert (Elen : Z.of_nat (length (Channel.waiting c' cs' i (Channel.peer d))) = Z.of_nat (length w) + edx r).
  { rewrite Hwait, length_app, length_mem_bytes. unfold r in *. lia. }
  pose proof (ChannelRead_receives al2 s2 cs' i (Channel.peer d) c up2 kp2) as Hread. cbv zeta in Hread.
  change (chans (kern s2)) with c' in Hread. change (regs s2) with r2 in Hread.
  rewrite Elen, (proj2 (Z.leb_le _ _) Hle), Hwait in Hread.
  destruct Hread as (m3 & c3 & cs3 & Hrun3 & Hb & _); try done.
  - rewrite Hep2. unfold Channel.addr_of, Channel.addr1, Channel.addr2, Channel.addr1. by rewrite He.
  - apply Forall_app. split; [done|by apply mem_bytes_u8].
  - eexists. split_and!; [exact Hrun3|done|exact Hb].
Qed.

(** Whatever interrupt, exception or system call the dispatcher handles, when it comes
    back to the interrupted task the page directory is the one that was current at the
    interrupt. *)
Lemma ExceptionDispatcher_restores_directory al s s' :
  ExceptionDispatcher al s = Ok (Returned, s') →
  gCurrentPageDir (mach (kern s')) = gCurrentPageDir (mach (kern s)).
Proof.
  intros H. unfold ExceptionDispatcher in H.
  apply bind_Ok_inv in H as (cur & s1 & [= <- <-] & H). apply bind_Ok_inv in H as ([] & s2 & [= <-] & H).
  apply bind_Ok_inv in H as (kpd & s3 & [= <- <-] & H). apply bind_Ok_inv in H as ([] & s4 & [= <-] & H).
  apply bind_Ok_inv in H as (r & s5 & [= <- <-] & H). apply bind_Ok_inv in H as (o & s6 & Ho & H).
  assert (Hold : gOldPageDir s6 = gCurrentPageDir (mach (kern s))).
  { apply (λ K : keeps_old _, K _ _ _ Ho). unfold DispatchUserException, DispatchKernelException. preserves. }
  destruct o; [|done]. apply bind_Ok_inv in H as (old & s7 & [= <- <-] & H).
  apply bind_Ok_inv in H as ([] & s8 & [= <-] & H). injection H as <-. exact Hold.
Qed.

(** The kernel as a handler sees it: its own page directory is current. *)
Definition entered (k : kernel) : kernel := set_mach (set_current (gKernelPageDir (mach k)) (mach k)) k.

Lemma callbacks_none l s : Forall (λ c, c = None) l → run_callbacks l s = Ok (Returned, s).
Proof. induction 1 as [|c l -> _ IH]; [done|]. exact IH. Qed.

Lemma bind_Fault {S A B} (m : M S A) (f : A → M S B) s e : m s = Fault e → (m ≫= f) s = Fault e.
Proof. intros H. unfold mbind, M_bind. by rewrite H. Qed.

Lemma TimerCallback_run s cbs :
  gCallbacks s = Some scheduler_callback :: cbs → Forall (λ c, c = None) cbs →
  TimerCallback s =
    match Schedule (Some (regs s)) 0 (kern s) with
    | Ok (o, k) => Ok (o, set_kern k (set_tick (u32 (gTick s + 1)) s))
    | Fault f => Fault f
    end.
Proof.
  intros Hc Hn. unfold TimerCallback. erewrite bind_Ok by done. erewrite bind_Ok by done.
  set (s1 := set_tick _ s). change (gCallbacks s1) with (gCallbacks s). rewrite Hc. cbn [run_callbacks].
  erewrite bind_Ok by done. change (regs s1) with (regs s). unfold scheduler_callback at 1.
  destruct (Schedule (Some (regs s)) 0 (kern s)) as [[o k]|f] eqn:E.
  - rewrite (bind_Ok _ _ _ _ _ (on_kern_Ok _ s1 _ _ E)). destruct o; [by apply callbacks_none|done].
  - apply bind_Fault. unfold on_kern, zoom. change (kern s1) with (kern s). by rewrite E.
Qed.

(** The dispatcher of a timer interrupt, in terms of [Schedule]. *)
Lemma timer_dispatch al s cbs :
  int_no (regs s) = Interrupts.IRQ0 → iflag (mach (kern s)) = false →
  gCallbacks s = Some scheduler_callback :: cbs → Forall (λ c, c = None) cbs →
  isr_handler al s =
    match Schedule (Some (regs s)) 0 (entered (kern s)) with
    | Ok (Returned, k) =>
        Ok (Returned, set_kern (set_mach (set_current (gCurrentPageDir (mach (kern s))) (mach k)) k)
              (set_tick (u32 (gTick s + 1)) (set_old (gCurrentPageDir (mach (kern s))) s)))
    | Ok (SwitchTask a, k) =>
        Ok (SwitchTask a, set_kern k (set_tick (u32 (gTick s + 1)) (set_old (gCurrentPageDir (mach (kern s))) s)))
    | Fault f => Fault f
    end.
Proof.
  intros Hno Hi Hc Hn. unfold isr_handler. erewrite bind_Ok by done. rewrite Hno. erewrite bind_Ok by done.
  erewrite bind_Ok by (by apply in_mach_read). rewrite Hi. erewrite bind_Ok by done.
  unfold ExceptionDispatcher. erewrite bind_Ok by (by apply in_mach_read). erewrite bind_Ok by done.
  erewrite bind_Ok by (by apply in_mach_read). erewrite bind_Ok by (by apply in_mach_Ok).
  erewrite bind_Ok by done. set (s1 := with_mach _ _). change (int_no (regs s1)) with (int_no (regs s)).
  rewrite Hno. change (Interrupts.IRQ0 =? Interrupts.IRQ0) with true. cbv iota.
  pose proof (TimerCallback_run s1 cbs Hc Hn) as Hrun. change (kern s1) with (entered (kern s)) in Hrun.
  change (regs s1) with (regs s) in Hrun.
  destruct (Schedule (Some (regs s)) 0 (entered (kern s))) as [[[|a] k]|e].
  - by rewrite (bind_Ok _ _ _ _ _ Hrun).
  - by rewrite (bind_Ok _ _ _ _ _ Hrun).
  - by apply bind_Fault.
Qed.

(** A timer interrupt is always handled.  With the scheduler's callback installed and a
    sound scheduler state, [isr_handler] comes back: to the interrupted task, with the kernel
    as it was, or at the next task, with its page directory loaded, in a sound state. *)
Lemma timer_interrupt_handled al s cbs n0 t0 l x0 :
  int_no (regs s) = Interrupts.IRQ0 → iflag (mach (kern s)) = false →
  gCallbacks s = Some scheduler_callback :: cbs → Forall (λ c, c = None) cbs →
  inv (kern s) ((n0, t0) :: l) → tick_pre (entered (kern s)) t0 x0 (regs s) →
  ∃ o s', isr_handler al s = Ok (o, s') ∧ gTick s' = u32 (gTick s + 1) ∧
    match o with
    | Returned => kern s' = kern s ∧ regs s' = regs s
    | SwitchTask a => ∃ n1 t1 x1 l', inv (kern s') ((n1, t1) :: l') ∧ (n1, t1) :: l' ≡ₚ (n0, t0) :: l ∧
        tasks (kern s) !! t1 = Some x1 ∧ a = enable_interrupts (regs_ (resumed x1)) ∧
        gCurrentPageDir (mach (kern s')) = pd_ x1
    end.
Proof.
  intros Hno Hi Hc Hn Hinv Hpre. rewrite (timer_dispatch al s cbs Hno Hi Hc Hn).
  assert (Hinv' : inv (entered (kern s)) ((n0, t0) :: l)) by exact Hinv.
  destruct (queue_split (entered (kern s)) l) as [Hall|(skip & [n1 t1] & rest & -> & Hs & Hr)].
  - destruct (Schedule_idle 0 _ _ _ _ _ _ Hinv' Hall Hpre) as [_ ->]. eexists _, _. split; [done|].
    split; [done|]. split; [|done]. simpl. by destruct (kern s) as [[] ? ? ? ? ? ? ?].
  - assert (∃ x1, tasks (kern s) !! t1 = Some x1) as [x1 Hx1].
    { unfold runs in Hr. simpl in Hr. destruct (tasks (kern s) !! t1); [eauto|done]. }
    destruct (Schedule_switch 0 _ _ _ _ _ _ _ _ _ _ Hinv' Hs Hr Hpre Hx1) as (m & -> & Hl).
    eexists _, _. split; [done|]. split; [done|]. exists n1, t1, x1, (rest ++ (n0, t0) :: skip).
    split_and!; [|..|done|done|done].
    + exact (switched_inv _ _ _ _ _ _ _ _ _ _ _ Hinv' Hpre Hx1 Hl).
    + change ((n0, t0) :: skip ++ (n1, t1) :: rest) with (((n0, t0) :: skip) ++ (n1, t1) :: rest).
      rewrite (Permutation_app_comm ((n0, t0) :: skip)). done.
Qed.

(** * An example

    Task 200 of [Scheduler.example_kernel] called the kernel: its directory 0x2000 maps page 3
    to the physical page 5; the kernel's directory 0x1000 maps page 1 to itself. *)
Definition example_sys_pmm : Pmm.state :=
  match SetPageUsed 0 example_pmm with Ok (_, s) => s | Fault _ => example_pmm end.

Definition example_kern : kernel :=
  set_chans Channel.example_state
    (set_mach (set_pmm example_sys_pmm (set_iflag false example_machine)) (example_of [])).

Definition example_sys (r : registers_t) : sys :=
  mkSys example_kern r 0x2000 [] [] 0 (Some scheduler_callback :: replicate 255 None).

Definition with_args (n b c d : Z) : registers_t :=
  mkRegs 0x23 0x23 0x23 0x23 0 0 0 0 b d c 0 n 0 0x400000 0x1B 0 0 0x23.

Definition example_allocs : allocs := mkAllocs 0x400100 0 0 0 0 0 0 0 300.
Definition example_allocs2 : allocs := mkAllocs 0x400100 0 0 0 0 0 0 0 400.

Lemma example_sys_owned :
  Pmm.wf example_sys_pmm ∧ owned_ok example_sys_pmm (owned_phys_pages_ example_200) ∧
  Pmm.used example_sys_pmm 0 = true ∧ Pmm.used example_sys_pmm 6 = false.
Proof.
  destruct example_owned as [Hwf [Hnd Hown]].
  destruct (SetPageUsed_Ok example_pmm 0 Hwf) as (s & Hrun & Hwfs & _ & Hu); [done|by vm_compute|].
  unfold example_sys_pmm. rewrite Hrun. split_and!; [apply Hwfs..| | |].
  - split; [done|]. eapply Forall_impl; [exact Hown|]. simpl. intros p [Hp Hup]. split; [done|].
    rewrite Hu by lia. by rewrite Hup, orb_true_r.
  - by rewrite Hu.
  - rewrite Hu by done. by vm_compute.
Qed.

Definition example_user_pd : list Z := upd (replicate 1024 0) 3 (new_pde 0x1400000 PG_USER).


Lemma example_in_handler r : in_handler (example_sys r).
Proof.
  split_and!; [|done|].
  - destruct example_machine_wf as (H1 & H2 & H3). by split_and!.
  - exists (upd (replicate 1024 0) 1 (new_pde 0x400000 0)), 0. by split_and!.
Qed.

Definition example_writer : sys := example_sys (with_args 128 0x1000 0xC00020 2).
Definition example_sent : sys :=
  match SYS_ChannelWrite example_allocs example_writer with Ok (_, s) => s | Fault _ => example_writer end.
Definition example_reader : sys := set_old 0x2000 (set_regs_ (with_args 128 0x1010 0xC00040 2) example_sent).

#[local] Instance is_u8_dec z : Decision (is_u8 z).
Proof. unfold is_u8. apply _. Defined.

Lemma example_reader_pds : pds (mach (kern example_reader)) = pds example_machine.
Proof. vm_compute. reflexivity. Qed.

Lemma example_in_reader : in_handler example_reader.
Proof.
  destruct (example_in_handler (with_args 128 0x1000 0xC00020 2)) as ((Hp & _) & _).
  pose proof example_reader_pds as E.
  split_and!.
  - split_and!; [rewrite E; exact Hp|rewrite E; vm_compute; eauto|].
    apply (bool_decide_unpack _). vm_compute. exact I.
  - vm_compute. done.
  - exists (upd (replicate 1024 0) 1 (new_pde 0x400000 0)), 0. split_and!; [vm_compute; reflexivity|done|done|done].
Qed.

Lemma channel_transfers_between_tasks_witness :
  ∃ s1 s3, SYS_ChannelWrite example_allocs example_writer = Ok (Returned, s1) ∧
    SYS_ChannelRead example_allocs2 (set_old 0x2000 (set_regs_ (with_args 128 0x1010 0xC00040 2) s1)) = Ok (Returned, s3) ∧
    mem_bytes (mem (mach (kern s3))) 0x1400040 2 = mem_bytes (mem (mach (kern example_writer))) 0x1400020 2.
Proof.
  assert (Hpage : ∀ v, 0x400000 ≤ v < 0xC10000 → v mod kPageSize4M < 1000 → in_page v 2).
  { intros v Hv Hm. unfold in_page, is_u32. pose proof (Z.mod_pos_bound v kPageSize4M). unfold kPageSize4M in *. lia. }
  destruct (channel_transfers_between_tasks example_allocs example_writer Channel.example_channels 0 Channel.First
    0x1400020 0x400100) as (s1 & H1 & H2).
  - apply example_in_handler.
  - reflexivity.
  - split; [by apply Hpage|reflexivity].
  - split; [by apply Hpage|reflexivity].
  - right. by vm_compute.
  - apply Channel.example_rep.
  - apply Channel.example_linked. simpl. lia.
  - change (Forall is_u8 []). constructor.
  - done.
  - reflexivity.
  - reflexivity.
  - assert (E : s1 = example_sent) by (unfold example_sent; by rewrite H1). subst s1.
    destruct (H2 (with_args 128 0x1010 0xC00040 2) 0x2000 example_allocs2 0x1400040 0x400100) as (s3 & H3 & _ & H4).
    + apply example_in_reader.
    + reflexivity.
    + split; [apply (Hpage 0xC00040); [lia|reflexivity]|]. 
      change (vtranslate (mach (kern example_reader)) 0x2000 0xC00040 = Some 0x1400040).
      unfold vtranslate. rewrite example_reader_pds. reflexivity.
    + split; [apply (Hpage 0x400100); [lia|reflexivity]|]. 
      change (vtranslate (mach (kern example_reader)) (gCurrentPageDir (mach (kern example_reader))) 0x400100 = Some 0x400100).
      replace (gCurrentPageDir (mach (kern example_reader))) with 0x1000 by (vm_compute; reflexivity).
      unfold vtranslate. rewrite example_reader_pds. reflexivity.
    + left. by vm_compute.
    + done.
    + vm_compute. reflexivity.
    + by vm_compute.
    + exists example_sent, s3. split_and!; [exact H1|exact H3|exact H4].
Defined.

(** An unmapped system call number stops the kernel. *)
Lemma unknown_syscall_aborts al s :
  is_u32 (eax (regs s)) → 16 ≤ eax (regs s) → SyscallHandler al s = Fault Aborted.
Proof.
  intros Hu He. unfold SyscallHandler. erewrite bind_Ok by done. rewrite nthZ_lookup by (unfold is_u32 in Hu; lia).
  rewrite lookup_ge_None_2; [done|]. simpl. lia.
Qed.

(** ** What the calls do not check *)

(** An address that is not page-aligned stops the kernel: [SYS_AllocPage] without
    [ALLOC_ANON] hands the task's address to [getPDE], whose assertion fails. *)
Lemma AllocPage_unaligned_stops_kernel s p t x :
  on_kern (on_pmm GetNextFreePage) s = Ok (p, s) → 0 ≤ p →
  tobool (Z.land (edx (regs s)) ALLOC_CURRENT) = false → tobool (Z.land (edx (regs s)) ALLOC_ANON) = false →
  ecx (regs s) = t → tasks (kern s) !! t = Some x → ebx (regs s) mod kPageSize4M ≠ 0 →
  SYS_AllocPage s = Fault AssertFailed.
Proof.
  intros Hp H0 Hc Ha Ht Hx Hm. unfold SYS_AllocPage. erewrite bind_Ok by done. rewrite (bind_Ok _ _ _ _ _ Hp).
  destruct (Z.ltb_spec p 0); [lia|]. rewrite Hc. erewrite bind_Ok by done. rewrite Ht.
  rewrite (bind_Ok _ _ _ _ _ (task_Ok _ _ _ Hx)). apply bind_Fault. unfold alloc_vaddr. rewrite Ha.
  apply bind_Fault. unfold in_mach, on_kern, on_mach, zoom, VaddrIsMapped, getPDE. munfold.
  by rewrite (proj2 (Z.eqb_neq _ _) Hm).
Qed.

(** Closing one end of a channel leaves the other end open. *)
Lemma HandleClose_keeps_other_end :
  ∃ c' c, SYS_HandleClose (example_sys (with_args 128 0x1000 0 0)) =
            Ok (Returned, with_chans c' (example_sys (with_args 128 0x1000 0 0))) ∧
    Channel.slots c' !! 0%nat = Some (Some c) ∧
    Channel.other_ (Channel.end1 c) = 0 ∧ Channel.other_ (Channel.end2 c) = 0x1000.
Proof.
  assert (∃ b c' c, Channel.Close 0x1000 Channel.example_state = Ok (b, c') ∧
    Channel.slots c' !! 0%nat = Some (Some c) ∧ Channel.other_ (Channel.end1 c) = 0 ∧
    Channel.other_ (Channel.end2 c) = 0x1000) as (b & c' & c & Hrun & H).
  { eexists _, _, _. split_and!; [vm_compute; reflexivity|reflexivity|reflexivity|reflexivity]. }
  exists c', c. split; [|exact H]. unfold SYS_HandleClose. erewrite bind_Ok by done.
  by erewrite bind_Ok by (apply chans_Ok; exact Hrun).
Qed.

End Syscalls.
