(* ===== verification/Boot.v ===== *)
(** The start of the kernel: the physical memory map ([InitPmm]), the first user task
    ([JumpToUserMode]) of kernel/main.cpp, and the kernel heap of kernel/kmalloc.cpp.

    The memory map is the list of entries that the boot loader passed. *)
From S2P Require Import Prelude KernelH Pmm Paging Channel LinkedList Gdt Scheduler.
Import Pmm.Pmm Paging.Paging Scheduler.Scheduler.

Module Boot.

(** [multiboot_memory_map_t] *)
Record mmap_t := mkMmap { mm_addr : Z; mm_len : Z; mm_type : Z }.

Definition MULTIBOOT_MEMORY_AVAILABLE : Z := 1.
Definition UINTPTR_MAX : Z := 2 ^ 32 - 1.

Definition free_page (page : Z) : M Pmm.state unit :=
  used ← PageIsUsed page; if (used : bool) then SetPageFree page else mret tt.

Definition reserve_page (page : Z) : M Pmm.state unit :=
  used ← PageIsUsed page; if (used : bool) then mret tt else SetPageUsed page.

(** The two [do] loops: [n] pages from [page] on, at least one. *)
Fixpoint do_pages (f : Z → M Pmm.state unit) (n : nat) (page : Z) : M Pmm.state unit :=
  f page;;
  match n with
  | O | S O => mret tt
  | S n => do_pages f n (page + 1)
  end.

Definition free_mmap (m : mmap_t) : M Pmm.state unit :=
  if mm_type m =? MULTIBOOT_MEMORY_AVAILABLE then
    assert_ (mm_addr m <=? UINTPTR_MAX);;
    assert_ (mm_len m <=? UINTPTR_MAX);;
    let start := mm_addr m in
    assert_ (start <=? u32 (start + mm_len m));;
    let end_ := RoundUp 32 (u32 (start + mm_len m)) kPageSize4M in
    let start_page := AddrToPage start in
    let end_page := AddrToPage end_ in
    assert_ (start_page <? end_page);;
    do_pages free_page (Z.to_nat (end_page - start_page)) start_page
  else mret tt.

Definition reserve_mmap (m : mmap_t) : M Pmm.state unit :=
  if negb (mm_type m =? MULTIBOOT_MEMORY_AVAILABLE) && (0 <? mm_len m) then
    assert_ (mm_addr m <=? UINTPTR_MAX);;
    assert_ (mm_len m <=? UINTPTR_MAX);;
    let start := mm_addr m in
    assert_ (start <=? u64 (start + mm_len m));;
    let end_ := RoundUp 64 (u64 (start + mm_len m)) kPageSize4M in
    let start_page := u32 (AddrToPage start) in
    let end_page := u32 (AddrToPage end_) in
    assert_ (start_page <? end_page);;
    do_pages reserve_page (Z.to_nat (end_page - start_page)) start_page
  else mret tt.

Fixpoint for_each {S A} (f : A → M S unit) (l : list A) : M S unit :=
  match l with [] => mret tt | a :: l => f a;; for_each f l end.

Definition InitPmm (mem_upper kernel_begin : Z) (mmaps : list mmap_t) : M Pmm.state unit :=
  Pmm.Initialize mem_upper;;
  free ← GetNumFree4MPages;
  num ← GetNum4MPages;
  assert_ (free =? num);;
  SetPageUsed (AddrToPage kernel_begin);;
  for_each free_mmap mmaps;;
  for_each reserve_mmap mmaps;;
  used ← PageIsUsed (AddrToPage kernel_begin);
  assert_ (negb used);;
  SetPageUsed (AddrToPage kernel_begin).

(** ** kmalloc.cpp *)

(** The address and size of the new region. *)
Definition AskForMoreKernelSpace : M machine (Z * Z) :=
  pd ← GetKernelPageDirectory;
  free_vpage ← getNextFreePage pd 1;
  assert_ (0 <=? free_vpage);;
  let page_vaddr := PageToAddr free_vpage in
  free_ppage ← in_pmm GetNextFreePage;
  assert_ (0 <=? free_ppage);;
  MapPage pd page_vaddr (PageToAddr free_ppage) 0;;
  in_pmm (SetPageUsed free_ppage);;
  mret (page_vaddr, kPageSize4M).

(** [kmalloc::Initialize] up to the call of [malloc::Initialize], whose arguments it
    returns; [kernel_begin] is the address of the linker's symbol. *)
Definition kmalloc_Initialize (kernel_begin : Z) : M machine (Z * Z) :=
  let kmalloc_vaddr := u32 (kernel_begin + kPageSize4M) in
  cur ← GetCurrentPageDirectory;
  mapped ← VaddrIsMapped cur kmalloc_vaddr;
  assert_ (negb mapped);;
  free_ppage ← in_pmm GetNextFreePage;
  assert_ (0 <=? free_ppage);;
  used ← in_pmm (PageIsUsed free_ppage);
  assert_ (negb used);;
  in_pmm (SetPageUsed free_ppage);;
  MapPage cur kmalloc_vaddr (u32 (free_ppage * kPageSize4M)) 0;;
  mret (kmalloc_vaddr, kPageSize4M).

(** ** The first user task *)

(** [upd], [task], [stack] and [node] are the addresses of the allocations. *)
Definition JumpToUserMode (upd task stack node initrd_start initrd_end : Z) : M kernel unit :=
  i ← on_mach (gets iflag);
  assert_ (negb i);;
  assert_ (initrd_start <? initrd_end);;
  kpd ← on_mach GetKernelPageDirectory;
  user_pd ← on_mach (Clone upd kpd);
  cur ← on_mach GetCurrentPageDirectory;
  free_vpage ← on_mach (getNextFreePage cur 1);
  assert_ (0 <? free_vpage);;
  let user_start := PageToAddr free_vpage in
  free_ppage ← on_pmm GetNextFreePage;
  assert_ (0 <=? free_ppage);;
  on_mach (MapPage user_pd user_start (PageToAddr free_ppage) PG_USER);;
  on_mach (Memcpy_from_current user_pd user_start initrd_start (Z.min (initrd_end - initrd_start) kPageSize4M));;
  kt ← GetMainKernelTask;
  new_task task stack true user_pd kt;;
  with_task task (λ x, let r := regs_ x in
    set_regs (mkRegs (gs r) (fs r) (es r) (ds r) (edi r) (esi r) (ebp r) (esp r) (ebx r) (edx r) (ecx r)
      (eax r) (int_no r) (err_code r) user_start (cs r) (eflags r) (useresp r) (ss r)) x);;
  RegisterTask node task;;
  on_mach (modify (set_iflag true)).

(** * Lemmas *)

(** The pages that an entry of the memory map touches. *)
Definition last_page (m : mmap_t) : Z := (mm_addr m + mm_len m + (kPageSize4M - 1)) / kPageSize4M.
Definition covers (m : mmap_t) (p : Z) : bool := (mm_addr m / kPageSize4M <=? p) && (p <? last_page m).
Definition available (m : mmap_t) : bool := mm_type m =? MULTIBOOT_MEMORY_AVAILABLE.

(** An entry within the address space, up to its end; an available one ends before the last page. *)
Definition mmap_ok (m : mmap_t) : Prop :=
  0 ≤ mm_addr m ∧ 0 < mm_len m < 2 ^ 32 ∧
  mm_addr m + mm_len m ≤ (if available m then 2 ^ 32 - kPageSize4M else 2 ^ 32).

(** What [free_page] and [reserve_page] do to one page. *)
Definition sets (f : Z → M Pmm.state unit) (v : bool) : Prop :=
  ∀ s p, Pmm.wf s → 0 ≤ p < kNumPageDirEntries →
  ∃ s', f p s = Ok (tt, s') ∧ Pmm.wf s' ∧ gNum4MPages s' = gNum4MPages s ∧
    ∀ q, 0 ≤ q → Pmm.used s' q = if q =? p then v else Pmm.used s q.

Lemma free_page_sets : sets free_page false.
Proof.
  intros s p Hwf Hp. unfold free_page. rewrite (bind_Ok _ _ _ _ _ (PageIsUsed_Ok s p Hwf Hp)).
  destruct (Pmm.used s p) eqn:E.
  - destruct (SetPageFree_Ok s p Hwf Hp E) as (s' & H & Hwf' & Hn & Hu). exists s'. split_and!; [done|apply Hwf'|done|].
    intros q Hq. rewrite Hu by done. by destruct (q =? p).
  - exists s. split_and!; try done. intros q Hq. destruct (Z.eqb_spec q p) as [->|]; done.
Qed.

Lemma reserve_page_sets : sets reserve_page true.
Proof.
  intros s p Hwf Hp. unfold reserve_page. rewrite (bind_Ok _ _ _ _ _ (PageIsUsed_Ok s p Hwf Hp)).
  destruct (Pmm.used s p) eqn:E.
  - exists s. split_and!; try done. intros q Hq. destruct (Z.eqb_spec q p) as [->|]; done.
  - destruct (SetPageUsed_Ok s p Hwf Hp E) as (s' & H & Hwf' & Hn & Hu). exists s'. split_and!; [done|apply Hwf'|done|].
    intros q Hq. rewrite Hu by done. by destruct (q =? p).
Qed.

Lemma do_pages_Ok f v n : sets f v → ∀ s p, Pmm.wf s → 0 ≤ p → p + Z.of_nat (S n) ≤ kNumPageDirEntries →
  ∃ s', do_pages f (S n) p s = Ok (tt, s') ∧ Pmm.wf s' ∧ gNum4MPages s' = gNum4MPages s ∧
    ∀ q, 0 ≤ q → Pmm.used s' q = if (p <=? q) && (q <? p + Z.of_nat (S n)) then v else Pmm.used s q.
Proof.
  intros Hf. induction n as [|n IH]; intros s p Hwf Hp Hle;
    (destruct (Hf s p Hwf) as (s1 & H1 & Hwf1 & Hn1 & Hu1); [lia|]).
  - cbn [do_pages]. rewrite (bind_Ok _ _ _ _ _ H1).
    exists s1. split_and!; [done|apply Hwf1|done|]. intros q Hq. rewrite Hu1 by done.
    destruct (Z.eqb_spec q p), (Z.leb_spec p q), (Z.ltb_spec q (p + Z.of_nat 1)); simpl; try done; lia.
  - remember (S n) as m eqn:Em. cbn [do_pages]. rewrite (bind_Ok _ _ _ _ _ H1). subst m.
    destruct (IH s1 (p + 1)) as (s2 & H2 & Hwf2 & Hn2 & Hu2); [done|lia|lia|].
    exists s2. split_and!; [exact H2|done|congruence|]. intros q Hq. rewrite Hu2, Hu1 by done.
    destruct (Z.eqb_spec q p), (Z.leb_spec p q), (Z.leb_spec (p + 1) q),
      (Z.ltb_spec q (p + 1 + Z.of_nat (S n))), (Z.ltb_spec q (p + Z.of_nat (S (S n)))); simpl; try done; lia.
Qed.

Lemma range_pages m : mmap_ok m →
  0 ≤ mm_addr m / kPageSize4M ∧ mm_addr m / kPageSize4M < last_page m ≤ kNumPageDirEntries.
Proof.
  unfold mmap_ok, last_page, kNumPageDirEntries, kPageSize4M. intros (Ha & Hl & Hle).
  assert (mm_addr m + mm_len m ≤ 2 ^ 32) by (destruct (available m); lia). dlia.
Qed.

Lemma round_end w m : 22 < w → mmap_ok m → mm_addr m + mm_len m + (2 ^ 22 - 1) < 2 ^ w →
  AddrToPage (RoundUp w (mm_addr m + mm_len m) kPageSize4M) = last_page m.
Proof.
  intros Hw (Ha & Hl & _) Hb. change kPageSize4M with (2 ^ 22). rewrite RoundUp_spec by lia.
  unfold AddrToPage. by rewrite Z.div_mul.
Qed.

Lemma free_mmap_Ok m s : mmap_ok m → available m = true → Pmm.wf s →
  ∃ s', free_mmap m s = Ok (tt, s') ∧ Pmm.wf s' ∧ gNum4MPages s' = gNum4MPages s ∧
    ∀ q, 0 ≤ q → Pmm.used s' q = if covers m q then false else Pmm.used s q.
Proof.
  intros Hm Hav Hwf. pose proof (range_pages m Hm) as (Hs & Hlt & Hle). pose proof Hm as (Ha & Hl & Hb).
  rewrite Hav in Hb. unfold available in Hav.
  destruct (do_pages_Ok free_page false (Z.to_nat (last_page m - mm_addr m / kPageSize4M - 1)) free_page_sets s
    (mm_addr m / kPageSize4M)) as (s' & Hrun & Hwf' & Hn & Hu); [done|done|lia|].
  replace (S (Z.to_nat (last_page m - mm_addr m / kPageSize4M - 1))) with
    (Z.to_nat (last_page m - mm_addr m / kPageSize4M)) in * by lia.
  exists s'. refine (conj _ (conj Hwf' (conj Hn _))).
  - unfold free_mmap. rewrite Hav.
    assert (Eu : u32 (mm_addr m + mm_len m) = mm_addr m + mm_len m).
    { apply u32_id. unfold is_u32, kPageSize4M in *. lia. }
    rewrite Eu. unfold UINTPTR_MAX. rewrite !(proj2 (Z.leb_le _ _)) by (unfold kPageSize4M in *; lia).
    do 3 (erewrite bind_Ok by done). rewrite !(round_end 32 m) by (done || unfold kPageSize4M in *; lia).
    unfold AddrToPage.
    rewrite (proj2 (Z.ltb_lt _ _)) by lia. erewrite bind_Ok by done. exact Hrun.
  - intros q Hq. rewrite Hu by done. unfold covers. by rewrite Z2Nat.id, Zplus_minus by lia.
Qed.

Lemma reserve_mmap_Ok m s : mmap_ok m → available m = false → Pmm.wf s →
  ∃ s', reserve_mmap m s = Ok (tt, s') ∧ Pmm.wf s' ∧ gNum4MPages s' = gNum4MPages s ∧
    ∀ q, 0 ≤ q → Pmm.used s' q = if covers m q then true else Pmm.used s q.
Proof.
  intros Hm Hav Hwf. pose proof (range_pages m Hm) as (Hs & Hlt & Hle). pose proof Hm as (Ha & Hl & Hb).
  rewrite Hav in Hb. unfold available in Hav.
  destruct (do_pages_Ok reserve_page true (Z.to_nat (last_page m - mm_addr m / kPageSize4M - 1)) reserve_page_sets s
    (mm_addr m / kPageSize4M)) as (s' & Hrun & Hwf' & Hn & Hu); [done|done|lia|].
  replace (S (Z.to_nat (last_page m - mm_addr m / kPageSize4M - 1))) with
    (Z.to_nat (last_page m - mm_addr m / kPageSize4M)) in * by lia.
  exists s'. refine (conj _ (conj Hwf' (conj Hn _))).
  - unfold reserve_mmap. rewrite Hav, (proj2 (Z.ltb_lt _ _) (proj1 Hl)). cbn [negb andb].
    assert (Eu : u64 (mm_addr m + mm_len m) = mm_addr m + mm_len m).
    { apply Z.mod_small. lia. }
    rewrite Eu. unfold UINTPTR_MAX. rewrite !(proj2 (Z.leb_le _ _)) by (unfold kPageSize4M in *; lia).
    do 3 (erewrite bind_Ok by done). rewrite !(round_end 64 m) by (done || lia). unfold AddrToPage.
    rewrite !u32_id by (unfold is_u32, kNumPageDirEntries in *; lia).
    rewrite (proj2 (Z.ltb_lt _ _)) by lia. erewrite bind_Ok by done. exact Hrun.
  - intros q Hq. rewrite Hu by done. unfold covers. by rewrite Z2Nat.id, Zplus_minus by lia.
Qed.

(** The two passes over the memory map. *)
Lemma free_mmaps_Ok l : ∀ s, Forall mmap_ok l → Pmm.wf s →
  ∃ s', for_each free_mmap l s = Ok (tt, s') ∧ Pmm.wf s' ∧ gNum4MPages s' = gNum4MPages s ∧
    ∀ q, 0 ≤ q → Pmm.used s' q = negb (existsb (λ m, available m && covers m q) l) && Pmm.used s q.
Proof.
  induction l as [|m l IH]; intros s Hl Hwf; cbn [for_each existsb]; [by exists s|].
  apply Forall_cons in Hl as [Hm Hl]. destruct (available m) eqn:Hav.
  - destruct (free_mmap_Ok m s Hm Hav Hwf) as (s1 & H1 & Hwf1 & Hn1 & Hu1).
    destruct (IH s1 Hl Hwf1) as (s2 & H2 & Hwf2 & Hn2 & Hu2). exists s2. rewrite (bind_Ok _ _ _ _ _ H1).
    split_and!; [done|done|congruence|]. intros q Hq. rewrite Hu2, Hu1 by done. cbn [andb].
    destruct (covers m q); [by rewrite andb_false_r|done].
  - destruct (IH s Hl Hwf) as (s2 & H2 & Hwf2 & Hn2 & Hu2). exists s2.
    assert (H1 : free_mmap m s = Ok (tt, s)) by (unfold free_mmap; unfold available in Hav; by rewrite Hav).
    by rewrite (bind_Ok _ _ _ _ _ H1).
Qed.

Lemma reserve_mmaps_Ok l : ∀ s, Forall mmap_ok l → Pmm.wf s →
  ∃ s', for_each reserve_mmap l s = Ok (tt, s') ∧ Pmm.wf s' ∧ gNum4MPages s' = gNum4MPages s ∧
    ∀ q, 0 ≤ q → Pmm.used s' q = existsb (λ m, negb (available m) && covers m q) l || Pmm.used s q.
Proof.
  induction l as [|m l IH]; intros s Hl Hwf; cbn [for_each existsb]; [by exists s|].
  apply Forall_cons in Hl as [Hm Hl]. destruct (available m) eqn:Hav.
  - destruct (IH s Hl Hwf) as (s2 & H2 & Hwf2 & Hn2 & Hu2). exists s2.
    assert (H1 : reserve_mmap m s = Ok (tt, s)) by (unfold reserve_mmap; unfold available in Hav; by rewrite Hav).
    by rewrite (bind_Ok _ _ _ _ _ H1).
  - destruct (reserve_mmap_Ok m s Hm Hav Hwf) as (s1 & H1 & Hwf1 & Hn1 & Hu1).
    destruct (IH s1 Hl Hwf1) as (s2 & H2 & Hwf2 & Hn2 & Hu2). exists s2. rewrite (bind_Ok _ _ _ _ _ H1).
    split_and!; [done|done|congruence|]. intros q Hq. rewrite Hu2, Hu1 by done. cbn [negb andb].
    destruct (covers m q); [by rewrite orb_true_r|done].
Qed.

(** The page counts right after [pmm::Initialize]. *)
Lemma Initialize_counts s m : length (gPhysicalBitmap s) = 128%nat → 0 < m → m * 1024 ≤ 2 ^ 32 - kPageSize4M →
  ∃ s', Pmm.Initialize m s = Ok (tt, s') ∧ Pmm.wf s' ∧ GetNumFree4MPages s' = Ok (gNum4MPages s', s') ∧
        gNum4MPages s' = (m * 1024 + (kPageSize4M - 1)) / kPageSize4M ∧
        ∀ p, 0 ≤ p < kNumPageDirEntries → Pmm.used s' p = (gNum4MPages s' <=? p).
Proof.
  intros Hlen Hm Hle. destruct (num_pages_Initialize m Hm Hle) as [_ Hn].
  assert (Hwf : Pmm.wf (mkState (num_pages m) (init_bitmap (num_pages m)))) by (apply init_wf; lia).
  eexists. split; [by apply Pmm.Initialize_Ok|]. refine (conj Hwf (conj _ (conj eq_refl _))).
  - rewrite GetNumFree4MPages_Ok; [by rewrite length_free_pages_init by lia|done|].
    intros p Hp. simpl in Hp. rewrite init_used by lia. lia.
  - intros p Hp. apply (init_used (num_pages m)); [lia|done].
Qed.

(** [InitPmm] on a sound memory map. *)
Lemma InitPmm_Ok s mem_upper kernel_begin mmaps :
  let k := AddrToPage kernel_begin in
  let avail p := existsb (λ m, available m && covers m p) mmaps in
  let reserved p := existsb (λ m, negb (available m) && covers m p) mmaps in
  length (gPhysicalBitmap s) = 128%nat → 0 < mem_upper → mem_upper * 1024 ≤ 2 ^ 32 - kPageSize4M →
  Forall mmap_ok mmaps → is_u32 kernel_begin → kernel_begin < mem_upper * 1024 →
  avail k = true → reserved k = false →
  ∃ s', InitPmm mem_upper kernel_begin mmaps s = Ok (tt, s') ∧ Pmm.wf s' ∧ gNum4MPages s' = num_pages mem_upper ∧
    ∀ p, 0 ≤ p < kNumPageDirEntries →
      Pmm.used s' p = (p =? k) || reserved p || (negb (avail p) && (gNum4MPages s' <=? p)).
Proof.
  intros k avail reserved Hlen H0 Hle Hmm Hkb Hin Hav Hres.
  destruct (Initialize_counts s mem_upper Hlen H0 Hle) as (s1 & H1 & Hwf1 & Hfree & Hnum & Hu1).
  assert (Hk : 0 ≤ k < kNumPageDirEntries) by (by apply page_of_addr).
  assert (Hkn : (gNum4MPages s1 <=? k) = false).
  { apply Z.leb_gt. rewrite Hnum. unfold k, AddrToPage, kPageSize4M. unfold is_u32 in Hkb. dlia. }
  destruct (SetPageUsed_Ok s1 k Hwf1 Hk) as (s2 & H2 & Hwf2 & Hn2 & Hu2); [by rewrite Hu1, Hkn|].
  destruct (free_mmaps_Ok mmaps s2 Hmm Hwf2) as (s3 & H3 & Hwf3 & Hn3 & Hu3).
  destruct (reserve_mmaps_Ok mmaps s3 Hmm Hwf3) as (s4 & H4 & Hwf4 & Hn4 & Hu4).
  fold (reserved) in Hu4. fold avail in Hu3.
  assert (Hk4 : Pmm.used s4 k = false).
  { rewrite Hu4, Hu3 by lia. change (reserved k || (negb (avail k) && Pmm.used s2 k) = false). by rewrite Hres, Hav. }
  destruct (SetPageUsed_Ok s4 k Hwf4 Hk Hk4) as (s5 & H5 & Hwf5 & Hn5 & Hu5).
  exists s5. refine (conj _ (conj Hwf5 (conj _ _))).
  - unfold InitPmm. rewrite (bind_Ok _ _ _ _ _ H1), (bind_Ok _ _ _ _ _ Hfree). erewrite bind_Ok by done.
    rewrite Z.eqb_refl. erewrite bind_Ok by done. rewrite (bind_Ok _ _ _ _ _ H2), (bind_Ok _ _ _ _ _ H3).
    rewrite (bind_Ok _ _ _ _ _ H4), (bind_Ok _ _ _ _ _ (PageIsUsed_Ok s4 k Hwf4 Hk)). rewrite Hk4.
    erewrite bind_Ok by done. exact H5.
  - rewrite Hn5, Hn4, Hn3, Hn2. exact Hnum.
  - intros p Hp. rewrite Hu5, Hu4, Hu3, Hu2, Hu1 by lia. rewrite Hn5, Hn4, Hn3, Hn2.
    change (existsb (λ m, negb (available m) && covers m p) mmaps) with (reserved p).
    change (existsb (λ m, available m && covers m p) mmaps) with (avail p).
    destruct (Z.eqb_spec p k) as [->|]; [done|]. by destruct (reserved p).
Qed.

(** * Theorems *)

(** C23: the memory map.  For every map whose entries lie in the address space and in which
    the kernel's page is available and not reserved, [InitPmm] succeeds, and afterwards a page
    is in use exactly if it is the kernel's, if a reserved range touches it, or if the machine
    does not have it and no available range touches it. *)
Theorem InitPmm_marks_pages s mem_upper kernel_begin mmaps :
  let k := AddrToPage kernel_begin in
  let avail p := existsb (λ m, available m && covers m p) mmaps in
  let reserved p := existsb (λ m, negb (available m) && covers m p) mmaps in
  length (gPhysicalBitmap s) = 128%nat → 0 < mem_upper → mem_upper * 1024 ≤ 2 ^ 32 - kPageSize4M →
  Forall mmap_ok mmaps → is_u32 kernel_begin → kernel_begin < mem_upper * 1024 →
  avail k = true → reserved k = false →
  ∃ s', InitPmm mem_upper kernel_begin mmaps s = Ok (tt, s') ∧ Pmm.wf s' ∧
    ∀ p, 0 ≤ p < kNumPageDirEntries →
      Pmm.used s' p = (p =? k) || reserved p || (negb (avail p) && (gNum4MPages s' <=? p)).
Proof.
  intros k avail reserved Hlen H0 Hle Hmm Hkb Hin Hav Hres.
  destruct (InitPmm_Ok s mem_upper kernel_begin mmaps Hlen H0 Hle Hmm Hkb Hin Hav Hres) as (s' & R & Hwf & _ & Hu). by exists s'.
Qed.

Lemma InitPmm_marks_pages_witness :
  ∃ s', InitPmm 130048 0x400000 [mkMmap 0 0x9FC00 1; mkMmap 0x9FC00 0x400 2; mkMmap 0x100000 0x7EE0000 1] (fresh 0) =
          Ok (tt, s') ∧ Pmm.used s' 0 = true ∧ Pmm.used s' 1 = true ∧ Pmm.used s' 2 = false.
Proof.
  destruct (InitPmm_marks_pages (fresh 0) 130048 0x400000
    [mkMmap 0 0x9FC00 1; mkMmap 0x9FC00 0x400 2; mkMmap 0x100000 0x7EE0000 1]) as (s' & H & Hwf & Hu).
  - reflexivity.
  - lia.
  - unfold kPageSize4M. lia.
  - repeat constructor; simpl; unfold kPageSize4M; lia.
  - split; lia.
  - lia.
  - reflexivity.
  - reflexivity.
  - exists s'. split; [exact H|].
    assert (En : gNum4MPages s' = 32).
    { apply (f_equal (λ r, match r with Ok (_, s) => gNum4MPages s | Fault _ => 0 end)) in H.
      rewrite <- H. vm_compute. reflexivity. }
    clear H. rewrite En in Hu. split; [|split]; (rewrite Hu; [reflexivity|split; reflexivity || discriminate]).
Defined.

(** ** The first user page *)

Abbreviation keeps_pmm := (preserves pmm).

Lemma keeps_setPDE this v x : keeps_pmm (setPDE this v x).
Proof. unfold setPDE, get_pd, put_pd. preserves. Qed.
Lemma keeps_getPDE this v : keeps_pmm (getPDE this v).
Proof. unfold getPDE, get_pd. preserves. Qed.
#[local] Hint Resolve keeps_setPDE keeps_getPDE : preserves.

Lemma keeps_raii {A} (m : M machine A) : keeps_pmm m → keeps_pmm (DisableInterruptsRAII iflag set_iflag m).
Proof. intros H. unfold DisableInterruptsRAII. preserves. Qed.

Lemma keeps_MapPage this v p f : keeps_pmm (MapPage this v p f).
Proof. apply keeps_raii. preserves. Qed.
Lemma keeps_UnmapPage this v : keeps_pmm (UnmapPage this v).
Proof. apply keeps_raii. preserves. Qed.
Lemma keeps_getNext this lb : keeps_pmm (getNextFreePage this lb).
Proof. unfold getNextFreePage, get_pd. preserves. Qed.
Lemma keeps_Clone a this : keeps_pmm (Clone a this).
Proof. unfold Clone, get_pd, put_pd. preserves. Qed.
#[local] Hint Resolve keeps_MapPage keeps_UnmapPage keeps_getNext keeps_Clone : preserves.

Lemma keeps_TempMap o v : keeps_pmm (TempMap o v).
Proof. unfold TempMap, GetCurrentPageDirectory, VaddrIsMapped, getPhysicalAddr. preserves. Qed.

Lemma keeps_memcpy n : ∀ d s, keeps_pmm (memcpy n d s).
Proof.
  induction n as [|n IH]; intros d s; cbn [memcpy]; [preserves|].
  unfold load8, store8, phys, get_pd, GetCurrentPageDirectory. preserves.
Qed.
#[local] Hint Resolve keeps_TempMap keeps_memcpy : preserves.

Lemma keeps_Memcpy_from_current this d v n : keeps_pmm (Memcpy_from_current this d v n).
Proof. unfold Memcpy_from_current, Memcpy, GetCurrentPageDirectory. preserves. Qed.
#[local] Hint Resolve keeps_Memcpy_from_current : preserves.

(** The same of a kernel computation. *)
Definition page_state (k : kernel) : Pmm.state := pmm (mach k).
Abbreviation keeps_pages := (preserves page_state).

Lemma keeps_on_mach {A} (m : M machine A) : keeps_pmm m → keeps_pages (on_mach m).
Proof. intros H. by apply (preserves_zoom_in pmm). Qed.

Lemma keeps_next_page : keeps_pages (on_pmm GetNextFreePage).
Proof.
  unfold on_pmm. apply keeps_on_mach. apply (preserves_zoom_in (λ s : Pmm.state, s)); try done.
  unfold GetNextFreePage, GetNum4MPages. preserves.
  generalize (Z.to_nat (a / CHAR_BIT)) 0. intros n. induction n as [|n IH]; intros i; cbn [find_free]; [preserves|].
  unfold read_byte. preserves.
Qed.

Lemma keeps_get_task t : keeps_pages (get_task t).
Proof. intros k x k'. unfold get_task. destruct (tasks k !! t); [|done]. by intros [= _ <-]. Qed.
#[local] Hint Resolve keeps_next_page keeps_get_task : preserves.

Lemma keeps_SendSignal t sig v : keeps_pages (SendSignal t sig v).
Proof.
  unfold SendSignal. apply preserves_bind; [preserves|intros _].
  apply preserves_bind; [preserves|intros x]. generalize (listening_for_signals_ x). intros l.
  induction l as [|y l IH]; cbn [deliver_all]; [preserves|].
  apply preserves_bind; [|intros []; exact IH]. unfold deliver, put_task. preserves.
Qed.
#[local] Hint Resolve keeps_SendSignal : preserves.

Lemma keeps_RegisterTask node t : keeps_pages (RegisterTask node t).
Proof. unfold RegisterTask, on_nodes. preserves. Qed.
#[local] Hint Resolve keeps_RegisterTask : preserves.

(** The page that the first user program is copied to is not marked as used: whatever
    [GetNextFreePage] answered before, it answers after, so the first page that a task
    allocates is the page of that program. *)
Lemma first_user_page_is_handed_out_again upd task stack node i0 i1 k k' p :
  JumpToUserMode upd task stack node i0 i1 k = Ok (tt, k') →
  GetNextFreePage (pmm (mach k)) = Ok (p, pmm (mach k)) →
  GetNextFreePage (pmm (mach k')) = Ok (p, pmm (mach k')).
Proof.
  intros H Hp. assert (E : page_state k' = page_state k).
  { revert H. generalize k', tt, k. clear. intros k' a k. revert k a k'.
    change (keeps_pages (JumpToUserMode upd task stack node i0 i1)).
    unfold JumpToUserMode, GetMainKernelTask, new_task, with_task, put_task.
    repeat first [ solve [auto with preserves] | apply preserves_bind; [|intros ?]
                 | solve [apply keeps_on_mach; unfold GetKernelPageDirectory, GetCurrentPageDirectory; preserves] ]. }
  unfold page_state in E. by rewrite E.
Qed.

(** ** The kernel heap *)

(** A new region of the kernel heap is a free page of the kernel's directory over a free
    physical page.  No other directory changes: the directories of the tasks, which are copies
    of the kernel's made when the task was created, do not map the new region. *)
Lemma AskForMoreKernelSpace_maps_kernel_only m kpd :
  pds m !! gKernelPageDir m = Some kpd → pd_ok kpd → Pmm.wf (pmm m) →
  (∃ j, 1 ≤ j < kNumPageDirEntries ∧ mapping kpd j = None) →
  (∃ p, 0 ≤ p < searched_pages (pmm m) ∧ Pmm.used (pmm m) p = false) →
  ∃ v p m', AskForMoreKernelSpace m = Ok ((PageToAddr v, kPageSize4M), m') ∧
    mapping kpd v = None ∧ Pmm.used (pmm m) p = false ∧
    pds m' = <[gKernelPageDir m := upd kpd v (new_pde (PageToAddr p) 0)]> (pds m) ∧
    ∀ q, 0 ≤ q → Pmm.used (pmm m') q = (q =? p) || Pmm.used (pmm m) q.
Proof.
  intros Hk Hok Hwf (j & Hj & Hmj) (p0 & Hp0 & Hu0).
  destruct (getNextFreePage_Ok m (gKernelPageDir m) kpd 1) as (v & Hv & Hcase); try done.
  destruct Hcase as [[-> Hall]|(Hv1 & Hmv & _)].
  { specialize (Hall j Hj). rewrite Hmj in Hall. by destruct Hall. }
  destruct (GetNextFreePage_Ok (pmm m) Hwf) as (p & Hp & [[-> Hall]|(Hp1 & Hup & _)]).
  { specialize (Hall p0 Hp0). congruence. }
  assert (Hpr : 0 ≤ p < kNumPageDirEntries).
  { destruct Hwf as (_ & _ & Hn). unfold searched_pages, kNumPageDirEntries, CHAR_BIT in *. dlia. }
  destruct (page_start v) as (Ev & Hav & Edv); [lia|]. destruct (page_start p) as (Ep & Hap & _); [lia|].
  destruct (SetPageUsed_Ok (pmm m) p Hwf Hpr Hup) as (s' & Hs & _ & _ & Hus).
  eexists v, p, _. split.
  { unfold AskForMoreKernelSpace, GetKernelPageDirectory. erewrite bind_Ok by done. rewrite (bind_Ok _ _ _ _ _ Hv).
    rewrite (proj2 (Z.leb_le _ _)) by lia. erewrite bind_Ok by done. erewrite bind_Ok.
    2:{ unfold in_pmm, zoom. rewrite Hp. done. }
    rewrite (proj2 (Z.leb_le _ _)) by lia. erewrite bind_Ok by done. erewrite bind_Ok.
    2:{ apply (MapPage_Ok _ _ kpd); try done; rewrite ?Ev, ?Ep; try done. by rewrite Edv. }
    erewrite bind_Ok by (unfold in_pmm, zoom; cbn [pmm with_pd set_pds set_pmm]; by rewrite Hs). done. }
  split_and!; [done|done| |exact Hus]. simpl. by rewrite Ev, Edv.
Qed.

End Boot.
