(* ===== verification/KernelMain.v ===== *)
(** The kernel from its entry to the idle loop: [kernel_main] and [KernelSetup] of
    kernel/main.cpp, the walk over the boot loader's memory map (kernel/multiboot.cpp), the
    table of interrupt handlers (kernel/isr.cpp, kernel/exceptions.cpp) and the tests
    that run at every start (kernel/tests.cpp).

    The state is the whole of the kernel's: the parts of the earlier files side by side.  The
    addresses of the linker's symbols, of the static tables and of the assembly stubs are in
    [layout]; those that the kernel's allocator returns, in [heap], with the allocator's own memory (Malloc.v) at
    the time when its tests run on it.  What is printed is left out, and so is the last
    comparison of the allocator's free memory. *)
From S2P Require Import Prelude KernelH Pmm Paging Malloc MallocTests Channel LinkedList Gdt Scheduler Interrupts Syscalls Boot.
Import Pmm.Pmm Paging.Paging Scheduler.Scheduler Syscalls.Syscalls Boot.Boot.

Module KernelMain.

(** * State *)
Record boot := mkBoot {
  sys_of : sys;
  ints : Interrupts.state;
  gIsrHandlers : list (option (allocs → M sys outcome));
}.

Definition set_sys x (s : boot) := mkBoot x (ints s) (gIsrHandlers s).
Definition set_ints x (s : boot) := mkBoot (sys_of s) x (gIsrHandlers s).
Definition set_handlers x (s : boot) := mkBoot (sys_of s) (ints s) x.

Definition on_sys {A} (m : M sys A) : M boot A := zoom sys_of set_sys m.
Definition on_kernel {A} (m : M kernel A) : M boot A := on_sys (on_kern m).
Definition on_machine {A} (m : M machine A) : M boot A := on_kernel (on_mach m).
Definition on_ints {A} (m : M Interrupts.state A) : M boot A := zoom ints set_ints m.

Record layout := mkLayout {
  kernel_begin : Z; kernel_end : Z;
  idt_addr : Z; gdt_addr : Z; tss_addr : Z;
  isr_stub : Z → Z; irq_stub : Z → Z; inb : Z → Z;
}.

Record heap := mkHeap {
  ktask : Z; kstack : Z; knode : Z;
  upd_ : Z; utask : Z; ustack : Z; unode : Z;
  at_tests : Malloc.Malloc.heap;   (* what the components' allocations have made of the heap when the tests start *)
}.

(** * multiboot.cpp *)

(** The fields of [Multiboot] that the kernel uses. *)
Record Multiboot := mkMultiboot {
  flags : Z; mem_upper : Z; mods_count : Z; mods_addr : Z; mmap_length : Z; mmap_addr : Z;
}.

Definition MULTIBOOT_BOOTLOADER_MAGIC : Z := 0x2BADB002.

Definition hasFlag (b : Multiboot) (bit : Z) : bool := tobool (Z.land (flags b) (Z.shiftl 1 bit)).
Definition hasModules (b : Multiboot) : bool := hasFlag b 3.
Definition hasMmap (b : Multiboot) : bool := hasFlag b 6.
Definition getMemUpper {S} (b : Multiboot) : M S Z := assert_ (hasFlag b 0);; mret (mem_upper b).

(** An unsigned integer of [n] bytes in physical memory; paging is off. *)
Fixpoint le (m : gmap Z Z) (n : nat) (p : Z) : Z :=
  match n with O => 0 | S n => byte_at m p + 256 * le m n (u32 (p + 1)) end.

(** [sizeof(multiboot_memory_map_t)] and the entry at an address. *)
Definition kMmapSize : Z := 24.
Definition mmap_at (m : gmap Z Z) (addr : Z) : mmap_t :=
  mkMmap (le m 8 (u32 (addr + 4))) (le m 8 (u32 (addr + 12))) (le m 4 (u32 (addr + 20))).

Fixpoint iter_mmap {A} (fuel : nat) (m : gmap Z Z) (callback : mmap_t → A → A) (end_ addr : Z) (arg : A) : result A :=
  match fuel with
  | O => Fault NoFuel
  | S fuel =>
      if addr <? end_ then
        iter_mmap fuel m callback end_ (u32 (addr + u32 (le m 4 addr + 4))) (callback (mmap_at m addr) arg)
      else Ok arg
  end.

Definition IterMmap {A} (b : Multiboot) (callback : mmap_t → A → A) (arg : A) : M machine A :=
  assert_ (hasMmap b);;
  m ← gets mem;
  let end_ := u32 (mmap_addr b + mmap_length b) in
  liftR (iter_mmap (S (Z.to_nat (end_ - mmap_addr b))) m callback end_ (mmap_addr b) arg).

(** The callback of [getMmap]; the state is the buffer's contents and [num_mmap]. *)
Definition copy_mmap (buffer_size : Z) (mmap : mmap_t) (arg : list mmap_t * Z) : list mmap_t * Z :=
  let num_mmap := u32 (arg.2 + 1) in
  if buffer_size <? u32 (num_mmap * kMmapSize) then (arg.1, num_mmap) else (arg.1 ++ [mmap], num_mmap).

Definition getMmap (b : Multiboot) (buffer_size : Z) : M machine (list mmap_t * Z) :=
  assert_ (hasMmap b);;
  IterMmap b (copy_mmap buffer_size) ([], 0).

(** The checks of [Multiboot::Dump]; it prints the rest. *)
Definition Dump (b : Multiboot) : M machine unit :=
  assert_ (hasFlag b 0);;
  assert_ (negb (hasFlag b 4 && hasFlag b 5));;
  if hasMmap b then IterMmap b (λ _ u, u) tt else mret tt.

(** * isr.cpp, exceptions.cpp *)
Definition kNumIsrHandlers : nat := 256.

Definition RegisterIsrHandler (num : Z) (handler : allocs → M sys outcome) : M boot unit :=
  l ← gets gIsrHandlers;
  h ← liftR (aread l num);
  assert_ (match h with Some _ => false | None => true end);;
  l' ← liftR (awrite l num (Some handler));
  modify (set_handlers l').

Fixpoint register_from (n : nat) (i : Z) : M boot unit :=
  match n with
  | O => mret tt
  | S n => RegisterIsrHandler (u8 i) ExceptionDispatcher;; register_from n (i + 1)
  end.

Definition InitializeHandlers : M boot unit := register_from kNumIsrHandlers 0.

(** [isr_handler] with the table it reads; a call through a null pointer is a fault. *)
Definition handle_interrupt (al : allocs) : M boot outcome :=
  r ← on_sys (gets regs);
  assert_ (int_no r <? 256);;
  i ← on_machine (gets iflag);
  assert_ (negb i);;
  l ← gets gIsrHandlers;
  h ← liftR (aread l (int_no r));
  match h with Some f => on_sys (f al) | None => fail BadPointer end.

(** * tests.cpp *)
Fixpoint test_words (n : nat) (i arr1 arr2 : Z) : M machine unit :=
  match n with
  | O => mret tt
  | S n =>
      store_bytes (u32 (arr1 + 4 * i)) (bytes_of_word i);;
      w ← load32 (u32 (arr2 + 4 * i));
      assert_ (w =? i);;
      test_words n (i + 1) arr1 arr2
  end.

Definition TestVirtualMapping : M machine unit :=
  free_ppage ← in_pmm GetNextFreePage;
  assert_ (0 <=? free_ppage);;
  in_pmm (SetPageUsed free_ppage);;
  let paddr := u32 (free_ppage * kPageSize4M) in
  pd ← GetCurrentPageDirectory;
  free_vpage1 ← getNextFreePage pd 0;
  assert_ (0 <=? free_vpage1);;
  let vaddr1 := u32 (free_vpage1 * kPageSize4M) in
  MapPage pd vaddr1 paddr 0;;
  free_vpage2 ← getNextFreePage pd 0;
  assert_ (0 <=? free_vpage2);;
  let vaddr2 := u32 (free_vpage2 * kPageSize4M) in
  assert_ (negb (free_vpage1 =? free_vpage2));;
  MapPage pd vaddr2 paddr 0;;
  test_words 8 0 vaddr1 vaddr2;;
  UnmapPage pd vaddr1;;
  UnmapPage pd vaddr2;;
  in_pmm (SetPageFree free_ppage).

(** The paging test with [Setup] before it and [Teardown] behind it. *)
Definition PagingTests : M machine unit :=
  pd ← GetCurrentPageDirectory;
  k ← isKernelPageDir pd; assert_ k;;
  num_free_vpages ← getNumFreeVPages pd;
  assert_ (negb (num_free_vpages =? 0));;
  num_free_ppages ← in_pmm GetNumFree4MPages;
  TestVirtualMapping;;
  pd' ← GetCurrentPageDirectory;
  assert_ (pd =? pd');;
  k ← isKernelPageDir pd; assert_ k;;
  v ← getNumFreeVPages pd;
  assert_ (num_free_vpages =? v);;
  p ← in_pmm GetNumFree4MPages;
  assert_ (num_free_ppages =? p).

(** [kheap] is the allocator's memory, on which its tests run. *)
Definition RunKernelTests (kheap : Malloc.Malloc.heap) : M machine unit :=
  liftR (MallocTests.MallocTests.RunAllMallocTests kheap);;
  PagingTests.

(** * main.cpp *)

(** How [KernelSetup] ends: in the idle loop behind [JumpToUserMode], in the loop behind a
    leak, or by returning. *)
Inductive ending := Idles | Loops | Returns.

(** [scheduler::Initialize] with the registration of its callback. *)
Definition scheduler_Initialize (h : heap) : M boot unit :=
  on_kernel (Scheduler.Initialize (ktask h) (kstack h) (knode h));;
  on_sys (RegisterTimerCallback 0 scheduler_callback).

(** [channel::Destroy] frees the vector, not what its elements own. *)
Definition channel_Destroy : M Channel.state unit :=
  modify (λ s, Channel.mkState 0 0 [] (Channel.bufs s)).

(** The calls of the components' [Initialize] functions. *)
Definition init_components (L : layout) (h : heap) (mem_upper : Z) (mmaps : list mmap_t) : M boot unit :=
  on_machine (in_pmm (InitPmm mem_upper (kernel_begin L) mmaps));;
  on_machine (Paging.Initialize (kernel_begin L) (kernel_end L));;
  on_machine (kmalloc_Initialize (kernel_begin L));;
  on_kernel (on_gdt (Gdt.Initialize (gdt_addr L) (tss_addr L)));;
  on_ints (Interrupts.setup (idt_addr L) (isr_stub L) (irq_stub L) (inb L));;
  scheduler_Initialize h;;
  InitializeHandlers;;
  on_kernel (on_chans Channel.Initialize).

Definition KernelSetup (L : layout) (h : heap) (mem_upper : Z) (mmaps : list mmap_t) (initrd_start initrd_end : Z) :
    M boot ending :=
  assert_ (kernel_begin L mod kPageSize4M =? 0);;
  assert_ (u32 (kernel_end L - kernel_begin L) <=? kPageSize4M);;
  init_components L h mem_upper mmaps;;
  init_used_pages ← on_machine (in_pmm GetNumUsed4MPages);
  on_machine (RunKernelTests (at_tests h));;
  if tobool initrd_start && tobool initrd_end then
    on_kernel (JumpToUserMode (upd_ h) (utask h) (ustack h) (unode h) initrd_start initrd_end);; mret Idles
  else
    on_kernel (on_chans channel_Destroy);;
    on_kernel Destroy;;
    used ← on_machine (in_pmm GetNumUsed4MPages);
    mret (if negb (init_used_pages =? used) then Loops else Returns).

Definition kMmapsBuffer : Z := 16.

Definition kernel_main (L : layout) (h : heap) (b : Multiboot) (magic : Z) : M boot ending :=
  if negb (magic =? MULTIBOOT_BOOTLOADER_MAGIC) then fail Aborted
  else
    on_machine (Dump b);;
    mem_upper ← getMemUpper b;
    mm ← on_machine (getMmap b (kMmapsBuffer * kMmapSize));
    assert_ (0 <? mm.2);;
    assert_ (mm.2 <=? kMmapsBuffer);;
    mods ← (if hasModules b && tobool (mods_count b) then
              m ← on_machine (gets mem); mret (le m 4 (mods_addr b), le m 4 (u32 (mods_addr b + 4)))
            else mret (0, 0));
    KernelSetup L h mem_upper mm.1 mods.1 mods.2.

(** * Lemmas *)

(** ** The paging test *)
Lemma translate_add cpd v n p j : in_page v n → 0 ≤ j < n → translate cpd v = Some p →
  u32 (v + j) = v + j ∧ translate cpd (v + j) = Some (p + j) ∧ in_page (v + j) (n - j).
Proof.
  intros (Hv & Hn & Hp) Hj Ht. unfold is_u32, kPageSize4M in *.
  assert (Ed : (v + j) / kPageSize4M = v / kPageSize4M) by (unfold kPageSize4M; dlia).
  assert (Em : (v + j) mod kPageSize4M = v mod kPageSize4M + j) by (unfold kPageSize4M; dlia).
  split; [apply u32_id; unfold is_u32; dlia|]. split.
  - rewrite translate_mapping in Ht |- *. rewrite Ed, Em. destruct (mapping cpd (v / kPageSize4M)); [|done].
    simpl in *. f_equal. simplify_eq. lia.
  - split; [unfold is_u32; dlia|]. rewrite Em. unfold kPageSize4M. lia.
Qed.

Lemma load8_Ok s cpd v p : pds s !! gCurrentPageDir s = Some cpd → translate cpd v = Some p →
  load8 v s = Ok (byte_at (mem s) p, s).
Proof. intros Hc Ht. unfold load8. by rewrite (bind_Ok _ _ _ _ _ (phys_Ok _ _ _ _ Hc Ht)). Qed.

Lemma load32_word s cpd v p w : pds s !! gCurrentPageDir s = Some cpd → in_page v 4 → translate cpd v = Some p →
  is_u32 w → mem_bytes (mem s) p 4 = bytes_of_word w → load32 v s = Ok (w, s).
Proof.
  intros Hc Hv Ht Hw Hb. destruct (translate_add cpd v 4 p 1 Hv ltac:(lia) Ht) as (E1 & H1 & _).
  destruct (translate_add cpd v 4 p 2 Hv ltac:(lia) Ht) as (E2 & H2 & _).
  destruct (translate_add cpd v 4 p 3 Hv ltac:(lia) Ht) as (E3 & H3 & _).
  unfold load32. rewrite E1, E2, E3.
  rewrite (bind_Ok _ _ _ _ _ (load8_Ok _ _ _ _ Hc Ht)), (bind_Ok _ _ _ _ _ (load8_Ok _ _ _ _ Hc H1)).
  rewrite (bind_Ok _ _ _ _ _ (load8_Ok _ _ _ _ Hc H2)), (bind_Ok _ _ _ _ _ (load8_Ok _ _ _ _ Hc H3)).
  cbn [mem_bytes] in Hb. unfold bytes_of_word in Hb.
  replace (p + 1 + 1 + 1) with (p + 3) in Hb by lia. replace (p + 1 + 1) with (p + 2) in Hb by lia. injection Hb as -> -> -> ->. change 0xFF with (Z.ones 8).
  rewrite !Z.land_ones, !Z.shiftr_div_pow2, !Z.shiftl_mul_pow2 by lia.
  munfold. do 2 f_equal. unfold is_u32 in Hw. dlia.
Qed.

Lemma bytes_of_word_u8 w : Forall is_u8 (bytes_of_word w).
Proof.
  unfold bytes_of_word. change 0xFF with (Z.ones 8). repeat constructor; rewrite Z.land_ones by lia;
    apply Z.mod_pos_bound; lia.
Qed.

Lemma stored_u8 bs : ∀ m p, map_Forall (λ _, is_u8) m → map_Forall (λ _, is_u8) (stored m p bs).
Proof.
  induction bs as [|b bs IH]; intros m p Hm; cbn [stored]; [done|]. apply IH. apply map_Forall_insert_2; [apply u8_range|done].
Qed.

Lemma test_words_Ok n : ∀ i s cpd v1 v2 p,
  pds s !! gCurrentPageDir s = Some cpd → map_Forall (λ _, is_u8) (mem s) →
  in_page v1 kPageSize4M → in_page v2 kPageSize4M → translate cpd v1 = Some p → translate cpd v2 = Some p →
  0 ≤ i → 4 * (i + Z.of_nat n) ≤ kPageSize4M →
  ∃ m', test_words n i v1 v2 s = Ok (tt, set_mem m' s) ∧ map_Forall (λ _, is_u8) m' ∧
    ∀ q, q < p ∨ p + kPageSize4M ≤ q → byte_at m' q = byte_at (mem s) q.
Proof.
  induction n as [|n IH]; intros i s cpd v1 v2 p Hc H8 H1 H2 T1 T2 Hi Hn; cbn [test_words].
  { exists (mem s). split; [by destruct s|done]. }
  assert (Hsz : kPageSize4M = 4194304) by reflexivity.
  destruct (translate_add cpd v1 _ p (4 * i) H1 ltac:(lia) T1) as (E1 & T1' & P1).
  destruct (translate_add cpd v2 _ p (4 * i) H2 ltac:(lia) T2) as (E2 & T2' & P2).
  rewrite E1, E2. set (m1 := stored (mem s) (p + 4 * i) (bytes_of_word i)).
  erewrite bind_Ok by (apply (store_bytes_Ok _ _ cpd _ (p + 4 * i)); [done| |done];
    destruct P1 as (? & ? & ?); split; [done|]; cbn [length bytes_of_word]; lia).
  erewrite bind_Ok by (apply (load32_word _ cpd _ (p + 4 * i) i);
    [done|destruct P2 as (? & ? & ?); split; [done|lia]|done|unfold is_u32; lia|
     apply (stored_bytes (mem s) (p + 4 * i) (bytes_of_word i)), bytes_of_word_u8]).
  rewrite Z.eqb_refl. erewrite bind_Ok by done. fold m1.
  destruct (IH (i + 1) (set_mem m1 s) cpd v1 v2 p) as (m' & R & U & HB); try done; [by apply stored_u8|lia|lia|].
  exists m'. split; [rewrite R; by destruct s|]. split; [done|]. intros q Hq. rewrite HB by done. cbn [mem set_mem].
  unfold m1. rewrite stored_byte. cbn [length bytes_of_word].
  destruct (Z.leb_spec (p + 4 * i) q), (Z.ltb_spec q (p + 4 * i + Z.of_nat 4)); simpl; try done; lia.
Qed.

(** Two mapped pages unmapped again, in the order in which they were mapped. *)
Lemma upd_undo2 cpd f g pde pde' : pd_ok cpd → 0 ≤ f < kNumPageDirEntries → 0 ≤ g < kNumPageDirEntries → f ≠ g →
  mapping cpd f = None → mapping cpd g = None → upd (upd (upd (upd cpd f pde) g pde') f 0) g 0 = cpd.
Proof.
  intros Hok Hf Hg Hne Mf Mg.
  assert (E : upd (upd (upd cpd f pde) g pde') f 0 = upd cpd g pde').
  { unfold upd at 1 2. rewrite list_insert_insert_ne by lia. change (upd (upd (upd cpd f pde) f 0) g pde' = upd cpd g pde'). by rewrite upd_undo. }
  rewrite E. by apply upd_undo.
Qed.

Lemma in_pmm_Ok {A} (c : M Pmm.state A) s a p : c (pmm s) = Ok (a, p) → in_pmm c s = Ok (a, set_pmm p s).
Proof. intros H. unfold in_pmm, zoom. by rewrite H. Qed.

Lemma in_pmm_read {A} (c : M Pmm.state A) s a : c (pmm s) = Ok (a, pmm s) → in_pmm c s = Ok (a, s).
Proof. intros H. rewrite (in_pmm_Ok _ _ _ _ H). by destruct s. Qed.

(** The next free page of the physical memory, given that there is one. *)
Lemma next_page_Ok s : Pmm.wf s → (∃ p, 0 ≤ p < searched_pages s ∧ Pmm.used s p = false) →
  ∃ p, GetNextFreePage s = Ok (p, s) ∧ 0 ≤ p < kNumPageDirEntries ∧ p < searched_pages s ∧ Pmm.used s p = false ∧
       ∀ q, 0 ≤ q < p → Pmm.used s q = true.
Proof.
  intros Hwf (p0 & Hp0 & Hu0). destruct (GetNextFreePage_Ok s Hwf) as (p & Hp & [[-> Hall]|(Hp1 & Hup & Hlow)]).
  { rewrite Hall in Hu0; done. }
  exists p. destruct Hwf as (_ & _ & Hn). unfold searched_pages, kNumPageDirEntries, CHAR_BIT in *.
  split; [done|]. split; [dlia|]. split; [lia|]. done.
Qed.

(** The next free page of a directory, given that there is one. *)
Lemma next_vpage_Ok s this pd lb i : pds s !! this = Some pd → pd_ok pd → 0 ≤ lb ≤ i → i < kNumPageDirEntries →
  mapping pd i = None →
  ∃ v, getNextFreePage this lb s = Ok (v, s) ∧ lb ≤ v ≤ i ∧ mapping pd v = None ∧
       ∀ j, lb ≤ j < v → is_Some (mapping pd j).
Proof.
  intros Hpd Hok Hlb Hi Hm.
  destruct (getNextFreePage_Ok s this pd lb) as (v & Hv & [[-> Hall]|(Hv1 & Hmv & Hlow)]); try done; [lia| |].
  { destruct (Hall i) as [? E]; [lia|]. by rewrite Hm in E. }
  exists v. split; [done|]. split; [|done]. split; [lia|]. destruct (Z.le_gt_cases v i); [done|].
  destruct (Hlow i) as [? E]; [lia|]. by rewrite Hm in E.
Qed.

(** What a mapped page translates to. *)
Lemma translate_page cpd v p : 0 ≤ v < kNumPageDirEntries → mapping cpd v = Some p →
  translate cpd (v * kPageSize4M) = Some p ∧ in_page (v * kPageSize4M) kPageSize4M.
Proof.
  intros Hv Hm. destruct (page_start v Hv) as (_ & [Hu Ha] & Ed). split.
  - rewrite translate_mapping, Ed, Hm, Ha. simpl. by rewrite Z.add_0_r.
  - split; [done|]. rewrite Ha. unfold kPageSize4M. lia.
Qed.

Lemma new_pde_mapping pd i j p fl : pd_ok pd → 0 ≤ i < kNumPageDirEntries → page_aligned p → is_u8 fl →
  mapping (upd pd i (new_pde p fl)) j = (if j =? i then Some p else mapping pd j) ∧ pd_ok (upd pd i (new_pde p fl)).
Proof.
  intros Hok Hi Hp Hf. destruct (new_pde_spec p fl Hp Hf) as (Hu & Hpr & Hmask & _).
  rewrite mapping_upd, Hpr, Hmask by done. split; [done|]. apply upd_ok; [done|]. split; [done|by right].
Qed.

(** The machine in which the test runs: a page of physical memory and two pages of the
    directory are free. *)
Definition test_pre (s : machine) (cpd : list Z) : Prop :=
  pds s !! gCurrentPageDir s = Some cpd ∧ pd_ok cpd ∧ map_Forall (λ _, is_u8) (mem s) ∧ Pmm.wf (pmm s) ∧
  (∃ p, 0 ≤ p < searched_pages (pmm s) ∧ Pmm.used (pmm s) p = false) ∧
  ∃ i j, 0 ≤ i < j ∧ j < kNumPageDirEntries ∧ mapping cpd i = None ∧ mapping cpd j = None.

(** The same pages are in use. *)
Definition same_pages (s s' : Pmm.state) : Prop :=
  Pmm.wf s' ∧ gNum4MPages s' = gNum4MPages s ∧ ∀ q, 0 ≤ q → Pmm.used s' q = Pmm.used s q.

(** Memory changed in free pages only. *)
Definition used_kept (s : Pmm.state) (m m' : gmap Z Z) : Prop :=
  map_Forall (λ _, is_u8) m' ∧
  ∀ q, 0 ≤ q → Pmm.used s (q / kPageSize4M) = true → byte_at m' q = byte_at m q.

(** The physical page [p] mapped at the next free page of a directory. *)
Lemma map_next s cur cpd p i : pds s !! cur = Some cpd → pd_ok cpd → 0 ≤ p < kNumPageDirEntries →
  0 ≤ i < kNumPageDirEntries → mapping cpd i = None →
  ∃ v cpd', getNextFreePage cur 0 s = Ok (v, s) ∧ 0 ≤ v ≤ i ∧ mapping cpd v = None ∧ cpd' = upd cpd v (new_pde (p * kPageSize4M) 0) ∧
    u32 (v * kPageSize4M) = v * kPageSize4M ∧ page_aligned (v * kPageSize4M) ∧ v * kPageSize4M / kPageSize4M = v ∧
    MapPage cur (v * kPageSize4M) (p * kPageSize4M) 0 s = Ok (tt, with_pd cur cpd' s) ∧ pd_ok cpd' ∧
    ∀ j, mapping cpd' j = if j =? v then Some (p * kPageSize4M) else mapping cpd j.
Proof.
  intros Hc Hok Hp Hi Mi. destruct (next_vpage_Ok s cur cpd 0 i) as (v & R & Hv & M & _); try done; [lia|lia|].
  destruct (page_start v) as (E & A & Ed); [lia|]. destruct (page_start p Hp) as (_ & Ap & _). unfold PageToAddr in E.
  pose proof (λ j, new_pde_mapping cpd v j (p * kPageSize4M) 0 Hok ltac:(lia) Ap ltac:(done)) as N.
  eexists v, _. split; [exact R|]. split; [done|]. split; [done|]. split; [reflexivity|]. do 3 (split; [done|]).
  split; [rewrite (MapPage_Ok s cur cpd); rewrite ?Ed; done|]. split; [apply (N 0)|]. intros j. apply (N j).
Qed.

(** Both mappings taken away again, whatever happened to memory. *)
Lemma unmap_both s cur cpd v1 v2 e1 e2 m pm :
  pd_ok cpd → 0 ≤ v1 < kNumPageDirEntries → 0 ≤ v2 < kNumPageDirEntries → v1 ≠ v2 →
  mapping cpd v1 = None → mapping cpd v2 = None → pd_ok (upd (upd cpd v1 e1) v2 e2) →
  is_Some (mapping (upd (upd cpd v1 e1) v2 e2) v1) → is_Some (mapping (upd (upd cpd v1 e1) v2 e2) v2) →
  pds s !! cur = Some (upd (upd cpd v1 e1) v2 e2) →
  (UnmapPage cur (v1 * kPageSize4M);; UnmapPage cur (v2 * kPageSize4M);; in_pmm (SetPageFree pm)) (set_mem m s) =
    in_pmm (SetPageFree pm) (with_pd cur cpd (set_mem m s)).
Proof.
  intros Hok H1 H2 Hne M1 M2 Hok2 I1 I2 Hc. set (cpd2 := upd (upd cpd v1 e1) v2 e2) in *.
  destruct (page_start v1 H1) as (_ & A1 & Ed1). destruct (page_start v2 H2) as (_ & A2 & Ed2).
  assert (Hok3 : pd_ok (upd cpd2 v1 0)) by (apply upd_ok; [done|]; split; [done|by left]).
  erewrite bind_Ok by (apply (UnmapPage_Ok _ cur cpd2); rewrite ?Ed1; done). rewrite Ed1.
  erewrite bind_Ok; [|apply (UnmapPage_Ok _ cur (upd cpd2 v1 0)); rewrite ?Ed2; try done].
  - rewrite Ed2. unfold cpd2. rewrite upd_undo2 by done. f_equal. unfold with_pd, set_pds, set_mem. cbn [pds].
    by rewrite insert_insert_eq.
  - apply lookup_insert_eq.
  - rewrite mapping_upd by done. by destruct (Z.eqb_spec v2 v1); [subst|].
Qed.

Lemma TestVirtualMapping_Ok s cpd : test_pre s cpd →
  ∃ m' pm', TestVirtualMapping s = Ok (tt, set_pmm pm' (set_mem m' s)) ∧ same_pages (pmm s) pm' ∧
            used_kept (pmm s) (mem s) m'.
Proof.
  intros (Hc & Hok & H8 & Hwf & Hfree & i & j & Hij & Hj & Mi & Mj).
  destruct (next_page_Ok _ Hwf Hfree) as (p & Rp & Hp & _ & Hup & _).
  destruct (SetPageUsed_Ok _ p Hwf Hp Hup) as (pm1 & Ru & Hwf1 & Hn1 & Hu1).
  destruct (SetPageFree_Ok pm1 p Hwf1 Hp) as (pm2 & Rf & Hwf2 & Hn2 & Hu2); [by rewrite Hu1, Z.eqb_refl by lia|].
  destruct (page_start p Hp) as (Ep & _ & _). unfold PageToAddr in Ep. set (cur := gCurrentPageDir s) in *.
  destruct (map_next (set_pmm pm1 s) cur cpd p i) as (v1 & cpd1 & R1 & Hv1 & M1 & Ec1 & E1 & A1 & Ed1 & RM1 & Hok1 & N1); try done; [lia|].
  set (s1 := with_pd cur cpd1 (set_pmm pm1 s)) in *.
  destruct (map_next s1 cur cpd1 p j) as (v2 & cpd2 & R2 & Hv2 & M2 & Ec2 & E2 & A2 & Ed2 & RM2 & Hok2 & N2); try done.
  { apply lookup_insert_eq. }
  { lia. }
  { rewrite N1. by destruct (Z.eqb_spec j v1); [lia|]. }
  set (s2 := with_pd cur cpd2 s1) in *. rewrite N1 in M2. destruct (Z.eqb_spec v2 v1) as [|Hne]; [done|].
  assert (I1 : mapping cpd2 v1 = Some (p * kPageSize4M)) by (rewrite N2, N1, Z.eqb_refl; by destruct (v1 =? v2)).
  assert (I2 : mapping cpd2 v2 = Some (p * kPageSize4M)) by (by rewrite N2, Z.eqb_refl).
  destruct (translate_page cpd2 v1 _ ltac:(lia) I1) as [T1 P1]. destruct (translate_page cpd2 v2 _ ltac:(lia) I2) as [T2 P2].
  destruct (test_words_Ok 8 0 s2 cpd2 (v1 * kPageSize4M) (v2 * kPageSize4M) (p * kPageSize4M)) as (m' & Rt & U & HB); try done.
  { apply lookup_insert_eq. }
  exists m', pm2. split; [|split].
  - unfold TestVirtualMapping, GetCurrentPageDirectory. rewrite (bind_Ok _ _ _ _ _ (in_pmm_read _ _ _ Rp)).
    rewrite (proj2 (Z.leb_le 0 p)) by lia. erewrite bind_Ok by done. rewrite (bind_Ok _ _ _ _ _ (in_pmm_Ok _ _ _ _ Ru)).
    cbv zeta. erewrite bind_Ok by done. change (gCurrentPageDir (set_pmm pm1 s)) with cur. rewrite (bind_Ok _ _ _ _ _ R1).
    rewrite (proj2 (Z.leb_le 0 v1)) by lia. erewrite bind_Ok by done. rewrite Ep, E1, (bind_Ok _ _ _ _ _ RM1).
    rewrite (bind_Ok _ _ _ _ _ R2). rewrite (proj2 (Z.leb_le 0 v2)) by lia. erewrite bind_Ok by done. rewrite E2.
    rewrite (proj2 (Z.eqb_neq v1 v2)) by congruence. erewrite bind_Ok by done. rewrite (bind_Ok _ _ _ _ _ RM2), (bind_Ok _ _ _ _ _ Rt).
    subst cpd1 cpd2. rewrite (unmap_both s2 cur cpd v1 v2 (new_pde (p * kPageSize4M) 0) (new_pde (p * kPageSize4M) 0));
      try done || lia || (by eexists); [|by apply lookup_insert_eq].
    rewrite (in_pmm_Ok (SetPageFree p) _ tt pm2) by exact Rf. unfold s2, s1, with_pd, set_pmm, set_mem, set_pds.
    cbn [pmm pds gKernelPageDir gCurrentPageDir cr0 cr4 iflag mem]. by rewrite !insert_insert_eq, (insert_id (pds s)) by exact Hc.
  - split; [done|]. split; [congruence|]. intros q Hq. rewrite Hu2, Hu1 by done.
    destruct (Z.eqb_spec q p) as [->|]; [by rewrite Hup|done].
  - split; [done|]. intros q Hq Hqu. rewrite HB; [done|].
    destruct (Z.lt_ge_cases q (p * kPageSize4M)); [by left|right]. destruct (Z.le_gt_cases (p * kPageSize4M + kPageSize4M) q); [done|].
    replace (q / kPageSize4M) with p in Hqu by (unfold kPageSize4M in *; dlia). congruence.
Qed.

Lemma count_free_pos pd : ∀ n i pde, pd !! i = Some pde → tobool (Z.land pde PG_PRESENT) = false → n < count_free pd n.
Proof.
  assert (Hle : ∀ pd n, n ≤ count_free pd n).
  { clear. intros pd. induction pd as [|e pd IH]; intros n; cbn [count_free]; [done|]. specialize (IH (n + (if tobool (Z.land e PG_PRESENT) then 0 else 1))).
    destruct (tobool _); lia. }
  induction pd as [|e pd IH]; intros n [|i] pde Hi Hp; [done|done| |]; cbn [count_free].
  - injection Hi as ->. rewrite Hp. specialize (Hle pd (n + 1)). lia.
  - specialize (IH (n + (if tobool (Z.land e PG_PRESENT) then 0 else 1)) i pde Hi Hp). destruct (tobool (Z.land e _)); lia.
Qed.

Lemma same_pages_free s s' : same_pages s s' → length (free_pages s') = length (free_pages s).
Proof.
  intros (_ & Hn & Hu). unfold free_pages. rewrite Hn. apply list_length_filter_ext. intros p Hp.
  apply elem_of_seqZ in Hp. by rewrite Hu by lia.
Qed.

Lemma same_pages_absent s s' : Pmm.wf s → same_pages s s' → absent_used s → absent_used s'.
Proof.
  intros (_ & _ & Hr) (_ & Hn & Hu) H p Hp. rewrite Hu by lia. apply H. lia.
Qed.

(** The test passes, and nothing but free memory is different afterwards. *)
Lemma PagingTests_Ok s cpd : test_pre s cpd → absent_used (pmm s) →
  ∃ m' pm', PagingTests s = Ok (tt, set_pmm pm' (set_mem m' s)) ∧ same_pages (pmm s) pm' ∧ used_kept (pmm s) (mem s) m'.
Proof.
  intros Hpre Habs. pose proof Hpre as (Hc & Hok & _ & Hwf & _ & i & j & Hij & Hj & Mi & _).
  destruct (TestVirtualMapping_Ok s cpd Hpre) as (m' & pm' & R & Hs & Hk). exists m', pm'. split; [|done].
  assert (Hn : ∀ x, gCurrentPageDir x = gCurrentPageDir s → pds x = pds s →
    getNumFreeVPages (gCurrentPageDir s) x = Ok (count_free cpd 0, x)).
  { intros x Ex Ep. unfold getNumFreeVPages, get_pd. munfold. by rewrite Ep, Hc. }
  assert (Hpos : (count_free cpd 0 =? 0) = false).
  { pose proof (unmapped_zero cpd i Hok ltac:(lia) Mi) as E. apply nthZ_Some in E as [_ E].
    pose proof (count_free_pos cpd 0 _ 0 E eq_refl). lia. }
  unfold PagingTests, GetCurrentPageDirectory. erewrite bind_Ok by done. rewrite (bind_Ok _ _ _ _ _ (isKernelPageDir_is_current _ _)).
  rewrite Z.eqb_refl. erewrite bind_Ok by done. rewrite (bind_Ok _ _ _ _ _ (Hn s eq_refl eq_refl)), Hpos. erewrite bind_Ok by done.
  rewrite (bind_Ok _ _ _ _ _ (in_pmm_read _ _ _ (GetNumFree4MPages_Ok _ Hwf Habs))), (bind_Ok _ _ _ _ _ R).
  erewrite bind_Ok by done. cbn [gCurrentPageDir set_pmm set_mem]. rewrite Z.eqb_refl. erewrite bind_Ok by done.
  rewrite (bind_Ok _ _ _ _ _ (isKernelPageDir_is_current _ _)). cbn [gCurrentPageDir set_pmm set_mem]. rewrite Z.eqb_refl.
  erewrite bind_Ok by done. rewrite (bind_Ok _ _ _ _ _ (Hn (set_pmm pm' (set_mem m' s)) eq_refl eq_refl)), Z.eqb_refl. erewrite bind_Ok by done.
  erewrite bind_Ok by (apply in_pmm_read, GetNumFree4MPages_Ok; [apply Hs|by apply (same_pages_absent (pmm s))]).
  cbn [pmm set_pmm]. rewrite (same_pages_free _ _ Hs), Z.eqb_refl. done.
Qed.

Lemma RunKernelTests_passed kheap r : MallocTests.MallocTests.RunAllMallocTests kheap = Ok r →
  ∀ s, RunKernelTests kheap s = PagingTests s.
Proof. intros R s. unfold RunKernelTests. rewrite R. by erewrite bind_Ok by done. Qed.

(** All tests pass: the allocator's behind any allocations that leave room for them. *)
Lemma RunKernelTests_Ok kheap s cpd : MallocTests.MallocTests.tests_room kheap → test_pre s cpd → absent_used (pmm s) →
  ∃ m' pm', RunKernelTests kheap s = Ok (tt, set_pmm pm' (set_mem m' s)) ∧ same_pages (pmm s) pm' ∧ used_kept (pmm s) (mem s) m'.
Proof.
  intros Hroom Hpre Habs. destruct (MallocTests.MallocTests.tests_pass kheap Hroom) as (kh & R & _).
  rewrite (RunKernelTests_passed kheap _ R). by apply PagingTests_Ok with cpd.
Qed.

(** ** Memory at the start *)
Definition avail (mmaps : list mmap_t) (p : Z) : bool := existsb (λ m, available m && covers m p) mmaps.
Definition reserved (mmaps : list mmap_t) (p : Z) : bool := existsb (λ m, negb (available m) && covers m p) mmaps.

(** The pages that the kernel may take: declared available, not reserved, not its own, and
    found by [GetNextFreePage]. *)
Definition free_for_kernel (kb mem_upper : Z) (mmaps : list mmap_t) (p : Z) : Prop :=
  0 ≤ p < CHAR_BIT * (num_pages mem_upper / CHAR_BIT) ∧ p ≠ kb / kPageSize4M ∧ reserved mmaps p = false.

(** The machine and the kernel's image fit the kernel's expectations. *)
Definition memory_ok (kb ke mem_upper : Z) (mmaps : list mmap_t) : Prop :=
  0 < mem_upper ∧ mem_upper * 1024 ≤ 2 ^ 32 - kPageSize4M ∧ Forall mmap_ok mmaps ∧
  page_aligned kb ∧ 0 ≤ ke - kb ≤ kPageSize4M ∧ kb < mem_upper * 1024 ∧ kb / kPageSize4M + 3 < kNumPageDirEntries ∧
  avail mmaps (kb / kPageSize4M) = true ∧ reserved mmaps (kb / kPageSize4M) = false ∧
  (∀ p, avail mmaps p = true → p < num_pages mem_upper) ∧
  ∃ p q, p ≠ q ∧ free_for_kernel kb mem_upper mmaps p ∧ free_for_kernel kb mem_upper mmaps q.

(** The state in which the boot loader enters the kernel. *)
Definition entered_ok (m : machine) : Prop :=
  (∃ kpd, pds m = {[gKernelPageDir m := kpd]}) ∧ cr0 m = 0x11 ∧ cr4 m = 0 ∧ iflag m = false ∧
  map_Forall (λ _, is_u8) (mem m) ∧ length (gPhysicalBitmap (pmm m)) = 128%nat.

(** The kernel's directory with its heap, which is on the physical page [p]. *)
Definition kernel_pd (kb p : Z) : list Z :=
  upd (kernel_only kb) (kb / kPageSize4M + 1) (new_pde (p * kPageSize4M) 0).

Lemma kernel_pd_maps kb p : page_aligned kb → kb / kPageSize4M + 3 < kNumPageDirEntries → 0 ≤ p < kNumPageDirEntries →
  pd_ok (kernel_pd kb p) ∧
  ∀ j, 0 ≤ j < kNumPageDirEntries → mapping (kernel_pd kb p) j =
    if j =? kb / kPageSize4M + 1 then Some (p * kPageSize4M) else if j =? kb / kPageSize4M then Some kb else None.
Proof.
  intros Hkb Hk Hp. destruct (kernel_only_maps kb Hkb) as [Hok Hm]. pose proof (page_of_addr kb (proj1 Hkb)) as Hi.
  destruct (page_start p Hp) as (_ & Ap & _).
  pose proof (λ j, new_pde_mapping (kernel_only kb) (kb / kPageSize4M + 1) j (p * kPageSize4M) 0 Hok ltac:(lia) Ap ltac:(done)) as N.
  split; [apply (N 0)|]. intros j Hj. unfold kernel_pd. rewrite (proj1 (N j)), Hm by done. done.
Qed.

(** The machine after the initialisation of memory, with the heap on the physical page [p]. *)
Definition memory_up (kb p : Z) (m : machine) (pm : Pmm.state) : machine :=
  set_pmm pm (set_crs 0x80000011 0x10 (set_current (gKernelPageDir m)
    (set_pds {[gKernelPageDir m := kernel_pd kb p]} m))).

Lemma init_pages_Ok s kb ke mem_upper mmaps : length (gPhysicalBitmap s) = 128%nat → memory_ok kb ke mem_upper mmaps →
  ∃ pm, InitPmm mem_upper kb mmaps s = Ok (tt, pm) ∧ Pmm.wf pm ∧ absent_used pm ∧ Pmm.used pm (kb / kPageSize4M) = true ∧
    (∀ q, reserved mmaps q = true → 0 ≤ q < kNumPageDirEntries → Pmm.used pm q = true) ∧
    ∃ p q, p ≠ q ∧ (0 ≤ p < searched_pages pm ∧ Pmm.used pm p = false) ∧ (0 ≤ q < searched_pages pm ∧ Pmm.used pm q = false).
Proof.
  intros Hlen (Hmu & Hmu1 & Hmm & Hkb & Hsz & Hin & Hk & Hav & Hres & Hfit & p1 & p2 & Hne & F1 & F2).
  pose proof (page_of_addr kb (proj1 Hkb)) as Hkr.
  destruct (InitPmm_Ok s mem_upper kb mmaps Hlen Hmu Hmu1 Hmm (proj1 Hkb) Hin Hav Hres) as (pm & R & Hwf & Hn & Hu).
  assert (Hused : ∀ p, 0 ≤ p < kNumPageDirEntries →
    Pmm.used pm p = (p =? kb / kPageSize4M) || reserved mmaps p || (negb (avail mmaps p) && (num_pages mem_upper <=? p))).
  { intros p Hp. rewrite <- Hn. by apply Hu. }
  assert (Hfree : ∀ p, free_for_kernel kb mem_upper mmaps p → 0 ≤ p < searched_pages pm ∧ Pmm.used pm p = false).
  { intros p (Hp & Hpk & Hpr). unfold searched_pages. rewrite Hn. destruct Hwf as (_ & _ & Hr). rewrite Hn in Hr.
    assert (Hlt : p < num_pages mem_upper) by (unfold CHAR_BIT in *; dlia). split; [lia|].
    rewrite Hused by lia. rewrite (proj2 (Z.eqb_neq _ _) Hpk), Hpr, (proj2 (Z.leb_gt _ _)) by lia. apply andb_false_r. }
  exists pm. split; [exact R|]. split; [done|]. split_and!.
  - intros q Hq. destruct Hwf as (_ & _ & Hr). rewrite Hn in Hq. rewrite Hn in Hr. rewrite Hused by lia.
    destruct (avail mmaps q) eqn:Ea; [apply Hfit in Ea; lia|]. rewrite (proj2 (Z.leb_le _ _)) by lia. apply orb_true_r.
  - by rewrite Hused, Z.eqb_refl by lia.
  - intros q Hq Hr. by rewrite Hused, Hq, orb_true_r by lia.
  - exists p1, p2. auto.
Qed.

Lemma kmalloc_Initialize_Ok m kb kpd :
  pds m !! gCurrentPageDir m = Some kpd → pd_ok kpd → page_aligned kb → kb / kPageSize4M + 3 < kNumPageDirEntries →
  mapping kpd (kb / kPageSize4M + 1) = None → Pmm.wf (pmm m) →
  (∃ p, 0 ≤ p < searched_pages (pmm m) ∧ Pmm.used (pmm m) p = false) →
  ∃ p pm, kmalloc_Initialize kb m =
      Ok ((kb + kPageSize4M, kPageSize4M), with_pd (gCurrentPageDir m) (upd kpd (kb / kPageSize4M + 1) (new_pde (p * kPageSize4M) 0)) (set_pmm pm m)) ∧
    0 ≤ p < kNumPageDirEntries ∧ Pmm.used (pmm m) p = false ∧ Pmm.wf pm ∧ gNum4MPages pm = gNum4MPages (pmm m) ∧
    ∀ q, 0 ≤ q → Pmm.used pm q = (q =? p) || Pmm.used (pmm m) q.
Proof.
  intros Hc Hok Hkb Hk Hm Hwf Hfree. destruct (next_page_Ok _ Hwf Hfree) as (p & Rp & Hp & _ & Hup & _).
  destruct (SetPageUsed_Ok _ p Hwf Hp Hup) as (pm & R2 & Hwf2 & Hn2 & Hu2). exists p, pm. split; [|done].
  pose proof (page_of_addr kb (proj1 Hkb)) as Hi. destruct (page_start p Hp) as (Ep & Ap & _). unfold PageToAddr in Ep.
  assert (Ev : u32 (kb + kPageSize4M) = kb + kPageSize4M ∧ page_aligned (kb + kPageSize4M) ∧
               (kb + kPageSize4M) / kPageSize4M = kb / kPageSize4M + 1).
  { destruct Hkb as [Hu Ha]. unfold page_aligned, is_u32, kNumPageDirEntries, kPageSize4M in *.
    rewrite u32_id by (unfold is_u32; dlia). split_and!; dlia. }
  destruct Ev as (Ev & Av & Edv). unfold kmalloc_Initialize, GetCurrentPageDirectory. rewrite Ev. erewrite bind_Ok by done.
  erewrite bind_Ok by (apply (VaddrIsMapped_Ok _ _ kpd); done). rewrite Edv, bool_decide_false by (rewrite Hm; by intros [? ?]).
  erewrite bind_Ok by done. rewrite (bind_Ok _ _ _ _ _ (in_pmm_read _ _ _ Rp)). rewrite (proj2 (Z.leb_le _ _)) by lia.
  erewrite bind_Ok by done. rewrite (bind_Ok _ _ _ _ _ (in_pmm_PageIsUsed _ _ Hwf Hp)), Hup. erewrite bind_Ok by done.
  rewrite (bind_Ok _ _ _ _ _ (in_pmm_Ok _ _ _ _ R2)), Ep.
  erewrite bind_Ok by (apply (MapPage_Ok _ _ kpd); rewrite ?Edv; done). by rewrite Edv.
Qed.

Lemma init_memory_Ok m kb ke mem_upper mmaps : entered_ok m → memory_ok kb ke mem_upper mmaps →
  ∃ p pm m1 m2, in_pmm (InitPmm mem_upper kb mmaps) m = Ok (tt, m1) ∧ Paging.Initialize kb ke m1 = Ok (tt, m2) ∧
    kmalloc_Initialize kb m2 = Ok ((kb + kPageSize4M, kPageSize4M), memory_up kb p m pm) ∧
    0 ≤ p < kNumPageDirEntries ∧ Pmm.wf pm ∧ absent_used pm ∧ Pmm.used pm (kb / kPageSize4M) = true ∧
    (∀ q, reserved mmaps q = true → 0 ≤ q < kNumPageDirEntries → Pmm.used pm q = true) ∧
    ∃ q, 0 ≤ q < searched_pages pm ∧ Pmm.used pm q = false.
Proof.
  intros ((kpd & Hpds) & H0 & H4 & Hi & H8 & Hlen) Hmem.
  destruct (init_pages_Ok _ _ _ _ _ Hlen Hmem) as (pm1 & R1 & Hwf1 & Habs1 & Hk1 & Hr1 & p1 & p2 & Hne & [S1 U1] & [S2 U2]).
  destruct Hmem as (_ & _ & _ & Hkb & Hsz & _ & Hk & _). pose proof (page_of_addr kb (proj1 Hkb)) as Hkr.
  set (m1 := set_pmm pm1 m).
  assert (R2 := paging_Initialize_Ok m1 kpd kb ke). specialize (R2 ltac:(simpl; rewrite Hpds; apply lookup_singleton_eq) Hkb Hsz Hwf1 Hk1 H0 H4).
  set (m2 := set_crs _ _ _) in R2. destruct (kernel_only_maps kb Hkb) as [Hok2 Hm2].
  destruct (kmalloc_Initialize_Ok m2 kb (kernel_only kb)) as (p & pm & R3 & Hp & Hup & Hwf & Hn & Hu); try done.
  { apply lookup_insert_eq. }
  { rewrite Hm2 by lia. by rewrite (proj2 (Z.eqb_neq _ _)) by lia. }
  { by exists p1. }
  change (pmm m2) with pm1 in *.
  exists p, pm, m1, m2. split; [by apply in_pmm_Ok|]. split; [exact R2|]. split; [|split_and!].
  - rewrite R3. do 2 f_equal.
    unfold m2, m1, memory_up, kernel_pd, with_pd, set_crs, set_current, set_pds, set_pmm.
    cbn [pmm pds gKernelPageDir gCurrentPageDir cr0 cr4 iflag mem]. f_equal. by rewrite insert_insert_eq, Hpds, insert_singleton_eq.
  - apply Hp.
  - apply Hp.
  - done.
  - intros q Hq. rewrite Hn in Hq. rewrite Hu, Habs1, orb_true_r by (destruct Hwf1 as (_ & _ & ?); lia). done.
  - rewrite Hu, Hk1 by lia. apply orb_true_r.
  - intros q Hq Hr. rewrite Hu, (Hr1 q Hq Hr) by lia. apply orb_true_r.
  - unfold searched_pages. rewrite Hn. destruct (decide (p = p1)) as [->|].
    + exists p2. split; [done|]. rewrite Hu, U2 by lia. by rewrite (proj2 (Z.eqb_neq p2 p1)) by congruence.
    + exists p1. split; [done|]. rewrite Hu, U1 by lia. by rewrite (proj2 (Z.eqb_neq p1 p)) by congruence.
Qed.

(** ** The first user program *)
Lemma on_mach_Ok {A} (c : M machine A) k a m : c (mach k) = Ok (a, m) → on_mach c k = Ok (a, set_mach m k).
Proof. intros H. unfold on_mach, zoom. by rewrite H. Qed.

Lemma on_mach_read {A} (c : M machine A) k a : c (mach k) = Ok (a, mach k) → on_mach c k = Ok (a, k).
Proof. intros H. rewrite (on_mach_Ok _ _ _ _ H). by destruct k. Qed.

(** A task as [Task::Task] makes it, with its entry. *)
Definition user_task (entry stack pd parent : Z) : Task :=
  mkTask true (mkRegs 0x23 0x23 0x23 0x23 0 0 0 0 0 0 0 0 0 0 entry 0x1B 0 0 0x23) stack pd parent (replicate kMaxPages 0) [] [].

Definition kernel_task (stack pd : Z) : Task :=
  mkTask false (mkRegs 0x10 0x10 0x10 0x10 0 0 0 0 0 0 0 0 0 0 0 0x08 0 0 0x10) stack pd 0 (replicate kMaxPages 0) [] [].

(** The kernel in which the first user program is started: the kernel's directory [kpd] is
    current and has a free page, so has physical memory; the image's [n] bytes at [i0] are at
    the physical address [ps] in a page that is in use. *)
Definition jump_pre (k : kernel) (kpd : list Z) (i0 n ps : Z) : Prop :=
  let m := mach k in
  iflag m = false ∧ Paging.wf m ∧ gCurrentPageDir m = gKernelPageDir m ∧ pds m !! gKernelPageDir m = Some kpd ∧
  Pmm.wf (pmm m) ∧ (∃ p, 0 ≤ p < searched_pages (pmm m) ∧ Pmm.used (pmm m) p = false) ∧
  (∃ i, 1 ≤ i < kNumPageDirEntries ∧ mapping kpd i = None) ∧
  in_page i0 n ∧ translate kpd i0 = Some ps ∧ Pmm.used (pmm m) (ps / kPageSize4M) = true ∧ 0 ≤ ps ∧
  ps mod kPageSize4M + n ≤ kPageSize4M.

(** The machine once the image is loaded. *)
Lemma load_image_Ok m kpd up i0 n ps v p :
  Paging.wf m → gCurrentPageDir m = gKernelPageDir m → pds m !! gKernelPageDir m = Some kpd → up ≠ gKernelPageDir m →
  1 ≤ v < kNumPageDirEntries → mapping kpd v = None → 0 ≤ p < kNumPageDirEntries → p ≠ ps / kPageSize4M →
  in_page i0 n → translate kpd i0 = Some ps → 0 ≤ ps → ps mod kPageSize4M + n ≤ kPageSize4M →
  let u := upd kpd v (new_pde (p * kPageSize4M) PG_USER) in
  let m2 := with_pd up u (with_pd up kpd m) in
  MapPage up (v * kPageSize4M) (p * kPageSize4M) PG_USER (with_pd up kpd m) = Ok (tt, m2) ∧
  ∃ m', Memcpy_from_current up (v * kPageSize4M) i0 n m2 = Ok (tt, set_mem m' m2) ∧
        copied (mem m) m' ps (p * kPageSize4M) n ∧ pd_ok u ∧ Paging.wf m2.
Proof.
  intros Hwf Hcur Hk Hne Hv Mv Hp Hpps Hin Ht Hps0 Hpsn u m2. pose proof Hwf as (Hall & _ & H8).
  assert (Hok : pd_ok kpd) by exact (Hall _ _ Hk). destruct (page_start v) as (_ & Av & Edv); [lia|].
  destruct (page_start p Hp) as (_ & Ap & _).
  pose proof (λ j, new_pde_mapping kpd v j (p * kPageSize4M) PG_USER Hok ltac:(lia) Ap ltac:(done)) as N.
  fold u in N. assert (Hoku : pd_ok u) by apply (N 0).
  assert (Hwf2 : Paging.wf m2) by (unfold m2; apply with_pd_wf; [apply with_pd_wf|]; done).
  split.
  { rewrite (MapPage_Ok _ up kpd); rewrite ?Edv; try done. by apply lookup_insert_eq. }
  destruct (translate_page u v (p * kPageSize4M)) as [Tu Pu]; [lia|rewrite (proj1 (N v)); by rewrite Z.eqb_refl|].
  destruct (Memcpy_to_other m2 up i0 (v * kPageSize4M) n ps (p * kPageSize4M) kpd v) as (m' & R & Hcp); try done.
  - cbn. rewrite Hcur, !lookup_insert_ne by done. done.
  - cbn. by rewrite Hcur.
  - destruct Hin as (? & ? & ?), Pu as (? & ? & ?). split; [done|]. split; [done|].
    rewrite (proj2 Av). pose proof (Z.mod_pos_bound ps kPageSize4M ltac:(done)). unfold kPageSize4M in *. lia.
  - unfold vtranslate. cbn. by rewrite lookup_insert_eq.
  - assert (ps = kPageSize4M * (ps / kPageSize4M) + ps mod kPageSize4M) by (apply Z.div_mod; done).
    pose proof (Z.mod_pos_bound ps kPageSize4M ltac:(done)). unfold kPageSize4M in *.
    destruct (Z.lt_ge_cases (ps / 4194304) p); [left|right]; nia.
  - lia.
  - exists m'. split; [|done]. unfold Memcpy_from_current, GetCurrentPageDirectory. erewrite bind_Ok by done. exact R.
Qed.

(** The kernel after [JumpToUserMode], before it idles. *)
Definition jumped (k : kernel) (m : machine) (nd : LinkedList.store) (ut ust up entry : Z) : kernel :=
  set_mach m (set_nodes nd (set_tasks (<[ut := user_task entry ust up (gKernelTask k)]> (tasks k))
    (set_stacks ({[ust]} ∪ stacks k) k))).

Lemma start_task_Ok k l up ut ust un entry :
  queue k l → l ≠ [] → un ≠ 0 → nodes k !! un = None → ust ≠ 0 →
  ∃ nd, (kt ← GetMainKernelTask;
         new_task ut ust true up kt;;
         with_task ut (λ x, let r := regs_ x in
           set_regs (mkRegs (gs r) (fs r) (es r) (ds r) (edi r) (esi r) (ebp r) (esp r) (ebx r) (edx r) (ecx r)
             (eax r) (int_no r) (err_code r) entry (cs r) (eflags r) (useresp r) (ss r)) x);;
         RegisterTask un ut;;
         on_mach (modify (set_iflag true))) k =
      Ok (tt, jumped k (set_iflag true (mach k)) nd ut ust up entry) ∧
    LinkedList.is_list nd (gTaskQueue k) (l ++ [(un, ut)]).
Proof.
  intros Hq Hl Hun Hnd Hst.
  set (ks := set_stacks ({[ust]} ∪ stacks k) k).
  assert (R1 : new_task ut ust true up (gKernelTask k) k =
    Ok (tt, set_tasks (<[ut := user_task 0 ust up (gKernelTask k)]> (tasks k)) ks)).
  { unfold new_task, put_task. munfold. by rewrite (proj2 (Z.eqb_neq ust 0)). }
  set (k2 := set_tasks (<[ut := user_task entry ust up (gKernelTask k)]> (tasks k)) ks).
  destruct (RegisterTask_Ok k2 l un ut (user_task entry ust up (gKernelTask k))) as (nd & R2 & Hlist); try done; [apply lookup_insert_eq|].
  exists nd. split; [|exact Hlist]. unfold GetMainKernelTask. erewrite bind_Ok by done. rewrite (bind_Ok _ _ _ _ _ R1).
  erewrite (bind_Ok _ _ _ tt k2).
  2:{ rewrite (with_task_Ok _ _ (user_task 0 ust up (gKernelTask k))) by apply lookup_insert_eq.
      unfold k2, ks, set_tasks, set_stacks. cbn [tasks mach chans gdt nodes stacks gTaskQueue gKernelTask].
      by rewrite insert_insert_eq. }
  rewrite (bind_Ok _ _ _ _ _ R2). done.
Qed.

Lemma JumpToUserMode_Ok k kpd l up ut ust un i0 i1 ps :
  let n := Z.min (i1 - i0) kPageSize4M in
  jump_pre k kpd i0 n ps → i0 < i1 → up ≠ 0 → up ≠ gKernelPageDir (mach k) →
  queue k l → l ≠ [] → un ≠ 0 → nodes k !! un = None → ust ≠ 0 →
  ∃ v p m' nd,
    let u := upd kpd v (new_pde (p * kPageSize4M) PG_USER) in
    let m2 := set_mem m' (with_pd up u (mach k)) in
    JumpToUserMode up ut ust un i0 i1 k = Ok (tt, jumped k (set_iflag true m2) nd ut ust up (v * kPageSize4M)) ∧
    1 ≤ v < kNumPageDirEntries ∧ mapping kpd v = None ∧ 0 ≤ p < kNumPageDirEntries ∧ Pmm.used (pmm (mach k)) p = false ∧
    copied (mem (mach k)) m' ps (p * kPageSize4M) n ∧ pd_ok u ∧
    LinkedList.is_list nd (gTaskQueue k) (l ++ [(un, ut)]).
Proof.
  intros n (Hi & Hwf & Hcur & Hk & Hpwf & Hfree & (i & Hi1 & Mi) & Hin & Ht & Hup & Hps0 & Hpsn) Hlt Hup0 Hne Hq Hl Hun Hnd Hst.
  pose proof Hwf as (Hall & _ & _). assert (Hok : pd_ok kpd) by exact (Hall _ _ Hk).
  destruct (next_page_Ok _ Hpwf Hfree) as (p & Rp & Hp & _ & Hpu & _).
  set (m1 := with_pd up kpd (mach k)).
  destruct (next_vpage_Ok m1 (gKernelPageDir (mach k)) kpd 1 i) as (v & Rv & Hv & Mv & _); try done; [cbn; by rewrite lookup_insert_ne|lia|lia|].
  destruct (load_image_Ok (mach k) kpd up i0 n ps v p) as (RM & m' & RC & Hcp & Hoku & _); try done || lia.
  { intros ->. congruence. }
  set (u := upd kpd v (new_pde (p * kPageSize4M) PG_USER)) in *. set (m2 := with_pd up u m1) in *.
  set (k3 := set_mach (set_mem m' m2) k).
  destruct (start_task_Ok k3 l up ut ust un (v * kPageSize4M)) as (nd & RS & Hlist); try done.
  exists v, p, m', nd. split_and!; try done; try lia.
  destruct (page_start v) as (Ev & _); [lia|]. destruct (page_start p Hp) as (Ep & _).
  unfold JumpToUserMode, GetKernelPageDirectory, GetCurrentPageDirectory.
  erewrite bind_Ok by (by apply on_mach_read). rewrite Hi. erewrite bind_Ok by done. rewrite (proj2 (Z.ltb_lt _ _) Hlt).
  erewrite bind_Ok by done. erewrite bind_Ok by (by apply on_mach_read).
  erewrite bind_Ok; [|apply (on_mach_Ok _ _ up m1); unfold Clone, get_pd, put_pd; munfold; rewrite Hk; unfold tobool;
    rewrite (proj2 (Z.eqb_neq _ _) Hup0); done].
  erewrite bind_Ok by (by apply on_mach_read). cbn [mach set_mach gCurrentPageDir m1 with_pd set_pds]. rewrite Hcur.
  erewrite bind_Ok by (apply on_mach_read; exact Rv). rewrite (proj2 (Z.ltb_lt _ _)) by lia. erewrite bind_Ok by done.
  erewrite bind_Ok by (apply on_mach_read, in_pmm_read; exact Rp). rewrite (proj2 (Z.leb_le _ _)) by lia. erewrite bind_Ok by done.
  rewrite Ev, Ep. erewrite bind_Ok by (apply on_mach_Ok; exact RM). fold n.
  erewrite bind_Ok by (apply on_mach_Ok; exact RC). etransitivity; [exact RS|].
  unfold jumped, k3, m2, m1, set_mach, set_nodes, set_tasks, set_stacks, set_iflag, set_mem, with_pd, set_pds. cbn.
  by rewrite insert_insert_eq.
Qed.

(** ** The components side by side *)
Lemma on_sys_Ok {A} (c : M sys A) s a x : c (sys_of s) = Ok (a, x) → on_sys c s = Ok (a, set_sys x s).
Proof. intros H. unfold on_sys, zoom. by rewrite H. Qed.

Lemma on_kernel_Ok {A} (c : M kernel A) s a k :
  c (kern (sys_of s)) = Ok (a, k) → on_kernel c s = Ok (a, set_sys (set_kern k (sys_of s)) s).
Proof. intros H. by apply on_sys_Ok, on_kern_Ok. Qed.

Lemma on_machine_Ok {A} (c : M machine A) s a m :
  c (mach (kern (sys_of s))) = Ok (a, m) → on_machine c s = Ok (a, set_sys (set_kern (set_mach m (kern (sys_of s))) (sys_of s)) s).
Proof. intros H. by apply on_kernel_Ok, on_mach_Ok. Qed.

Lemma on_machine_read {A} (c : M machine A) s a :
  c (mach (kern (sys_of s))) = Ok (a, mach (kern (sys_of s))) → on_machine c s = Ok (a, s).
Proof. intros H. rewrite (on_machine_Ok _ _ _ _ H), set_mach_id, set_kern_id. by destruct s. Qed.

Lemma on_ints_Ok {A} (c : M Interrupts.state A) s a x : c (ints s) = Ok (a, x) → on_ints c s = Ok (a, set_ints x s).
Proof. intros H. unfold on_ints, zoom. by rewrite H. Qed.

Lemma register_from_Ok n : ∀ i s, gIsrHandlers s = replicate i (Some ExceptionDispatcher) ++ replicate n None → (i + n = 256)%nat →
  register_from n (Z.of_nat i) s = Ok (tt, set_handlers (replicate (i + n) (Some ExceptionDispatcher)) s).
Proof.
  induction n as [|n IH]; intros i s Hs Hn; cbn [register_from].
  { rewrite app_nil_r in Hs. rewrite Nat.add_0_r, <- Hs. by destruct s. }
  rewrite u8_id by (unfold is_u8; lia).
  assert (Hr : aread (gIsrHandlers s) (Z.of_nat i) = Ok None).
  { apply aread_Ok. rewrite nthZ_lookup, Nat2Z.id, Hs by lia. rewrite lookup_app_r by (rewrite length_replicate; lia).
    by rewrite length_replicate, Nat.sub_diag. }
  assert (E : replicate i (Some ExceptionDispatcher) ++ replicate (S n) None =
              replicate i (Some ExceptionDispatcher) ++ None :: replicate n None) by done.
  erewrite (bind_Ok _ _ _ tt (set_handlers (replicate (S i) (Some ExceptionDispatcher) ++ replicate n None) s)).
  2:{ unfold RegisterIsrHandler. munfold. rewrite Hr. rewrite awrite_in_range.
      - do 3 f_equal. rewrite Nat2Z.id, Hs, E, insert_app_r_alt by (rewrite length_replicate; lia).
        rewrite length_replicate, Nat.sub_diag. cbn [insert list_insert]. by rewrite replicate_S_end, <- app_assoc.
      - rewrite Hs, length_app, !length_replicate. lia. }
  replace (Z.of_nat i + 1) with (Z.of_nat (S i)) by lia. rewrite IH; [|done|lia].
  replace (S i + n)%nat with (i + S n)%nat by lia. by destruct s.
Qed.

(** The state with another kernel. *)
Definition with_kern (k : kernel) (s : boot) : boot := set_sys (set_kern k (sys_of s)) s.

Lemma on_kernel_with {A} (c : M kernel A) k s a k' : c k = Ok (a, k') → on_kernel c (with_kern k s) = Ok (a, with_kern k' s).
Proof. intros H. exact (on_kernel_Ok c (with_kern k s) a k' H). Qed.

Lemma on_machine_with {A} (c : M machine A) k s a m :
  c (mach k) = Ok (a, m) → on_machine c (with_kern k s) = Ok (a, with_kern (set_mach m k) s).
Proof. intros H. by apply on_kernel_with, on_mach_Ok. Qed.

Lemma InitializeHandlers_Ok s : gIsrHandlers s = replicate kNumIsrHandlers None →
  InitializeHandlers s = Ok (tt, set_handlers (replicate kNumIsrHandlers (Some ExceptionDispatcher)) s).
Proof.
  intros H. pose proof (register_from_Ok kNumIsrHandlers 0 s H eq_refl) as R. rewrite Nat.add_0_l in R. exact R.
Qed.

Lemma scheduler_up t st nd k : st ≠ 0 → u32 (st + kDefaultKernStackSize) mod 4 = 0 →
  Scheduler.Initialize t st nd k = Ok (tt,
    let g := Gdt.SetKernelStack (u32 (st + kDefaultKernStackSize)) (gdt k) in
    mkKernel (mach k) (chans k) (match g with Ok (_, g) => g | Fault _ => gdt k end) (<[nd := (t, 0)]> (nodes k))
      (<[t := kernel_task st (gKernelPageDir (mach k))]> (tasks k)) ({[st]} ∪ stacks k) nd t).
Proof.
  intros Hst Ha. unfold Scheduler.Initialize, GetKernelPageDirectory. erewrite bind_Ok by (by apply on_mach_read).
  unfold new_task, put_task. munfold. rewrite (proj2 (Z.eqb_neq st 0) Hst).
  unfold get_task, getKernelStackBase. munfold. cbn [tasks set_tasks set_ktask set_stacks]. rewrite lookup_insert_eq.
  cbn [kernel_stack_allocation_]. unfold tobool. rewrite (proj2 (Z.eqb_neq st 0) Hst), Ha. cbn [negb Z.eqb].
  unfold on_gdt, on_nodes, zoom, Gdt.SetKernelStack, LinkedList.new_node. munfold. reflexivity.
Qed.
Definition stack_ok (st : Z) : Prop := st ≠ 0 ∧ u32 (st + kDefaultKernStackSize) mod 4 = 0.

Lemma scheduler_Initialize_Ok h k s it : stack_ok (kstack h) → gCallbacks (sys_of s) = replicate kMaxCallbacks None →
  ∃ g, scheduler_Initialize h (set_ints it (with_kern k s)) = Ok (tt,
    mkBoot (set_callbacks (Some scheduler_callback :: replicate 255 None) (set_kern
      (mkKernel (mach k) (chans k) g (<[knode h := (ktask h, 0)]> (nodes k))
        (<[ktask h := kernel_task (kstack h) (gKernelPageDir (mach k))]> (tasks k)) ({[kstack h]} ∪ stacks k) (knode h) (ktask h))
      (sys_of s))) it (gIsrHandlers s)).
Proof.
  intros [Hst0 Hst] Hcb. eexists. unfold scheduler_Initialize.
  erewrite bind_Ok by (apply on_kernel_Ok; exact (scheduler_up (ktask h) (kstack h) (knode h) k Hst0 Hst)).
  erewrite on_sys_Ok; [reflexivity|]. unfold RegisterTimerCallback. munfold.
  cbn [gCallbacks sys_of set_sys set_kern set_ints with_kern]. rewrite Hcb. reflexivity.
Qed.

(** What the boot loader and the linker leave, and the addresses that the allocator gives out. *)
Definition cold (s : boot) : Prop :=
  let k := kern (sys_of s) in
  entered_ok (mach k) ∧ tasks k = ∅ ∧ nodes k = ∅ ∧ length (Gdt.gdt_entries (gdt k)) = 6%nat ∧
  gCallbacks (sys_of s) = replicate kMaxCallbacks None ∧ gIsrHandlers s = replicate kNumIsrHandlers None.

Definition heap_ok (h : heap) : Prop :=
  ktask h ≠ 0 ∧ utask h ≠ 0 ∧ ktask h ≠ utask h ∧ knode h ≠ 0 ∧ unode h ≠ 0 ∧ knode h ≠ unode h ∧
  stack_ok (kstack h) ∧ stack_ok (ustack h) ∧ upd_ h ≠ 0 ∧ MallocTests.MallocTests.tests_room (at_tests h).

(** The state when every component is initialised. *)
Definition kernel_up (L : layout) (h : heap) (s : boot) (p : Z) (pm : Pmm.state) (g : Gdt.state) : kernel :=
  let k := kern (sys_of s) in
  mkKernel (memory_up (kernel_begin L) p (mach k) pm) (Channel.mkState 0 0 [] (Channel.bufs (chans k))) g
    {[knode h := (ktask h, 0)]} {[ktask h := kernel_task (kstack h) (gKernelPageDir (mach k))]}
    ({[kstack h]} ∪ stacks k) (knode h) (ktask h).

Definition components_up (L : layout) (h : heap) (s : boot) (p : Z) (pm : Pmm.state) (g : Gdt.state) (it : Interrupts.state) : boot :=
  mkBoot (set_callbacks (Some scheduler_callback :: replicate 255 None) (set_kern (kernel_up L h s p pm g) (sys_of s))) it
    (replicate kNumIsrHandlers (Some ExceptionDispatcher)).

Lemma gdt_up ea ta g : length (Gdt.gdt_entries g) = 6%nat → ∃ g', Gdt.Initialize ea ta g = Ok (tt, g').
Proof.
  intros H. destruct (Gdt.gdt_entries g) as [|e0 [|e1 [|e2 [|e3 [|e4 [|e5 [|? ?]]]]]]] eqn:E; try done.
  eexists. unfold Gdt.Initialize, Gdt.WriteTSS, Gdt.GDTSetGate. munfold. simpl. rewrite E. reflexivity.
Qed.

Lemma init_components_Ok L h mem_upper mmaps s :
  cold s → heap_ok h → memory_ok (kernel_begin L) (kernel_end L) mem_upper mmaps →
  ∃ p pm g it, init_components L h mem_upper mmaps s = Ok (tt, components_up L h s p pm g it) ∧
    (∀ v, 0 ≤ v < 256 → (∀ n, is_u32 (isr_stub L n)) → (∀ n, is_u32 (irq_stub L n)) →
          Interrupts.vector it v = Interrupts.expected (isr_stub L) (irq_stub L) v) ∧
    0 ≤ p < kNumPageDirEntries ∧ Pmm.wf pm ∧ absent_used pm ∧ Pmm.used pm (kernel_begin L / kPageSize4M) = true ∧
    (∀ q, reserved mmaps q = true → 0 ≤ q < kNumPageDirEntries → Pmm.used pm q = true) ∧
    ∃ q, 0 ≤ q < searched_pages pm ∧ Pmm.used pm q = false.
Proof.
  intros (Hent & Ht & Hn & Hg & Hcb & Hh) (_ & _ & _ & _ & _ & _ & Hst & _) Hmem.
  destruct (init_memory_Ok _ _ _ _ _ Hent Hmem) as (p & pm & m1 & m2 & R1 & R2 & R3 & Hpm).
  destruct (gdt_up (gdt_addr L) (tss_addr L) _ Hg) as [g1 Rg].
  destruct (Interrupts.setup_table (idt_addr L) (isr_stub L) (irq_stub L) (inb L) (ints s)) as (it & o & Ri & Hv & _).
  set (k0 := kern (sys_of s)) in *. set (m3 := memory_up (kernel_begin L) p (mach k0) pm) in *.
  destruct (scheduler_Initialize_Ok h (set_gdt g1 (set_mach m3 k0)) s it) as [g2 Rs]; [done..|].
  cbn [mach chans nodes tasks stacks set_gdt set_mach] in Rs. rewrite Ht, Hn in Rs. change (gKernelPageDir m3) with (gKernelPageDir (mach k0)) in Rs.
  exists p, pm, g2, it. split; [|split; [intros v Hv1 Hi1 Hi2; by apply Interrupts.table_vectors|exact Hpm]].
  assert (E0 : s = with_kern k0 s) by (destruct s as [[] ? ?]; done).
  unfold init_components. rewrite E0 at 1.
  rewrite (bind_Ok _ _ _ _ _ (on_machine_with _ _ _ _ _ R1)). 
  rewrite (bind_Ok _ _ _ _ (with_kern (set_mach m2 k0) s) (on_machine_with _ (set_mach m1 k0) _ _ _ R2)).
  rewrite (bind_Ok _ _ _ _ (with_kern (set_mach m3 k0) s) (on_machine_with _ (set_mach m2 k0) _ _ _ R3)).
  rewrite (bind_Ok _ _ _ tt (with_kern (set_gdt g1 (set_mach m3 k0)) s)).
  2:{ apply on_kernel_with. unfold on_gdt, zoom. change (gdt (set_mach m3 k0)) with (gdt k0). by rewrite Rg. }
  rewrite (bind_Ok _ _ _ tt (set_ints it (with_kern (set_gdt g1 (set_mach m3 k0)) s))) by (by apply on_ints_Ok).
  rewrite (bind_Ok _ _ _ _ _ Rs). erewrite bind_Ok by (apply InitializeHandlers_Ok; exact Hh).
  unfold components_up, kernel_up. fold k0 m3. reflexivity.
Qed.

(** ** The memory map *)

(** The entries of the boot loader from [addr] up to [end_], each behind its size. *)
Fixpoint mmaps_at (m : gmap Z Z) (addr end_ : Z) (es : list mmap_t) : Prop :=
  match es with
  | [] => addr = end_
  | e :: es => mmap_at m addr = e ∧ addr + le m 4 addr + 4 < 2 ^ 32 ∧ mmaps_at m (addr + le m 4 addr + 4) end_ es
  end.

Lemma le_nonneg m n : map_Forall (λ _, is_u8) m → ∀ p, 0 ≤ le m n p.
Proof.
  intros H8. induction n as [|n IH]; intros p; cbn [le]; [done|].
  pose proof (byte_at_u8 m p H8) as [? _]. specialize (IH (u32 (p + 1))). lia.
Qed.

Lemma mmaps_at_length m es : map_Forall (λ _, is_u8) m → ∀ addr end_,
  mmaps_at m addr end_ es → addr + 4 * Z.of_nat (length es) ≤ end_.
Proof.
  intros H8. induction es as [|e es IH]; intros addr end_ H; cbn [length] in *; [simpl in H; lia|].
  destruct H as (_ & _ & H). specialize (IH _ _ H). pose proof (le_nonneg m 4 H8 addr). lia.
Qed.

Lemma iter_mmap_Ok {A} m (callback : mmap_t → A → A) es : map_Forall (λ _, is_u8) m → ∀ fuel addr end_ arg,
  mmaps_at m addr end_ es → 0 ≤ addr → (length es < fuel)%nat →
  iter_mmap fuel m callback end_ addr arg = Ok (fold_left (λ a e, callback e a) es arg).
Proof.
  intros H8. induction es as [|e es IH]; intros [|fuel] addr end_ arg H H0 Hf; cbn [length] in *; try lia; cbn [iter_mmap].
  - simpl in H. by rewrite H, Z.ltb_irrefl.
  - pose proof (mmaps_at_length m (e :: es) H8 _ _ H) as Hl. cbn [length] in Hl. destruct H as (He & Hb & H).
    pose proof (le_nonneg m 4 H8 addr). rewrite (proj2 (Z.ltb_lt _ _)) by lia.
    rewrite !u32_id by (unfold is_u32; rewrite ?u32_id by (unfold is_u32; lia); lia). rewrite He.
    replace (addr + (le m 4 addr + 4)) with (addr + le m 4 addr + 4) by lia. cbn [fold_left]. apply IH; [done|lia|lia].
Qed.

Lemma copy_mmaps es : ∀ l, (length l + length es ≤ 16)%nat →
  fold_left (λ a e, copy_mmap (kMmapsBuffer * kMmapSize) e a) es (l, Z.of_nat (length l)) =
    (l ++ es, Z.of_nat (length l + length es)).
Proof.
  induction es as [|e es IH]; intros l Hl; cbn [fold_left length] in *; [by rewrite app_nil_r, Nat.add_0_r|].
  assert (E : copy_mmap (kMmapsBuffer * kMmapSize) e (l, Z.of_nat (length l)) = (l ++ [e], Z.of_nat (length (l ++ [e])))).
  { unfold copy_mmap. cbn [fst snd]. rewrite length_app. cbn [length]. unfold kMmapsBuffer, kMmapSize.
    rewrite !u32_id by (unfold is_u32; rewrite ?u32_id by (unfold is_u32; lia); lia). rewrite (proj2 (Z.ltb_ge _ _)) by lia. f_equal. lia. }
  rewrite E, IH by (rewrite length_app; simpl; lia). rewrite <- app_assoc, length_app. cbn [length app]. do 2 f_equal. lia.
Qed.

(** What the boot loader passes: the memory map [es] and the module from [i0] to [i1]. *)
Definition loader_ok (b : Multiboot) (m : gmap Z Z) (es : list mmap_t) (i0 i1 : Z) : Prop :=
  hasFlag b 0 = true ∧ hasFlag b 4 && hasFlag b 5 = false ∧ hasMmap b = true ∧
  0 ≤ mmap_addr b ∧ mmap_addr b + mmap_length b < 2 ^ 32 ∧
  mmaps_at m (mmap_addr b) (mmap_addr b + mmap_length b) es ∧ (1 ≤ length es ≤ 16)%nat ∧
  hasModules b = true ∧ mods_count b ≠ 0 ∧ le m 4 (mods_addr b) = i0 ∧ le m 4 (u32 (mods_addr b + 4)) = i1.

Lemma IterMmap_Ok {A} b m es i0 i1 (callback : mmap_t → A → A) arg :
  loader_ok b (mem m) es i0 i1 → map_Forall (λ _, is_u8) (mem m) →
  IterMmap b callback arg m = Ok (fold_left (λ a e, callback e a) es arg, m).
Proof.
  intros (_ & _ & Hm & H0 & Hb & Hes & _) H8. pose proof (mmaps_at_length _ _ H8 _ _ Hes) as Hl.
  unfold IterMmap. rewrite Hm. erewrite bind_Ok by done. erewrite bind_Ok by done. rewrite u32_id by (unfold is_u32; lia).
  cbv zeta. rewrite (iter_mmap_Ok _ _ es); [done|done|done|done|lia].
Qed.

(** What [kernel_main] does up to [KernelSetup]. *)
Lemma kernel_main_setup L h b s es i0 i1 :
  loader_ok b (mem (mach (kern (sys_of s)))) es i0 i1 → map_Forall (λ _, is_u8) (mem (mach (kern (sys_of s)))) →
  kernel_main L h b MULTIBOOT_BOOTLOADER_MAGIC s = KernelSetup L h (mem_upper b) es i0 i1 s.
Proof.
  intros Hlo H8. pose proof Hlo as (Hf0 & Hf45 & Hm & _ & _ & _ & Hes & Hmod & Hcnt & Hi0 & Hi1).
  unfold kernel_main. rewrite Z.eqb_refl. cbn [negb].
  erewrite bind_Ok.
  2:{ apply on_machine_read. unfold Dump. rewrite Hf0, Hf45, Hm. erewrite bind_Ok by done. erewrite bind_Ok by done.
      rewrite (IterMmap_Ok _ _ es i0 i1) by done. done. }
  unfold getMemUpper. erewrite bind_Ok by (rewrite Hf0; erewrite bind_Ok by done; done).
  erewrite bind_Ok.
  2:{ apply on_machine_read. unfold getMmap. rewrite Hm. erewrite bind_Ok by done.
      rewrite (IterMmap_Ok _ _ es i0 i1) by done. change 0 with (Z.of_nat (length (@nil mmap_t))). by rewrite copy_mmaps by (simpl; lia). }
  cbn [fst snd app length Nat.add]. rewrite (proj2 (Z.ltb_lt _ _)), (proj2 (Z.leb_le _ _)) by (unfold kMmapsBuffer; lia).
  erewrite bind_Ok by done. erewrite bind_Ok by done.
  rewrite Hmod. unfold tobool. rewrite (proj2 (Z.eqb_neq _ _) Hcnt). cbn [negb andb].
  erewrite bind_Ok by (erewrite bind_Ok by (by apply on_machine_read); done). cbn [fst snd]. by rewrite Hi0, Hi1.
Qed.

(** ** The end of the setup *)

(** The image lies in the kernel's page, which is the only one that is mapped besides the heap. *)
Definition image_ok (kb i0 i1 : Z) : Prop :=
  is_u32 i0 ∧ i0 ≠ 0 ∧ i0 < i1 ∧ i0 / kPageSize4M = kb / kPageSize4M ∧
  i0 mod kPageSize4M + Z.min (i1 - i0) kPageSize4M ≤ kPageSize4M.

(** The first user program is in memory: [n] bytes from [i0] on, at [v] in its address space. *)
Definition image_loaded (m0 : gmap Z Z) (m : machine) (up v i0 n : Z) : Prop :=
  ∀ i, 0 ≤ i < n → ∃ q, vtranslate m up (v * kPageSize4M + i) = Some q ∧ byte_at (mem m) q = byte_at m0 (i0 + i).

(** The kernel when it idles: the scheduler's invariant holds for the kernel's task and the
    first user task, which is about to run the image; every interrupt is dispatched. *)
Definition booted (L : layout) (h : heap) (s : boot) (i0 n : Z) (s' : boot) : Prop :=
  let m0 := mach (kern (sys_of s)) in
  let k := kern (sys_of s') in
  inv k [(knode h, ktask h); (unode h, utask h)] ∧ iflag (mach k) = true ∧
  Paging.wf (mach k) ∧ Pmm.wf (pmm (mach k)) ∧ absent_used (pmm (mach k)) ∧
  tasks k !! ktask h = Some (kernel_task (kstack h) (gKernelPageDir m0)) ∧
  (∃ v, 1 ≤ v < kNumPageDirEntries ∧ tasks k !! utask h = Some (user_task (v * kPageSize4M) (ustack h) (upd_ h) (ktask h)) ∧
        image_loaded (mem m0) (mach k) (upd_ h) v i0 n) ∧
  gCallbacks (sys_of s') = Some scheduler_callback :: replicate 255 None ∧
  gIsrHandlers s' = replicate kNumIsrHandlers (Some ExceptionDispatcher) ∧
  ((∀ n, is_u32 (isr_stub L n)) → (∀ n, is_u32 (irq_stub L n)) →
   ∀ v, 0 ≤ v < 256 → Interrupts.vector (ints s') v = Interrupts.expected (isr_stub L) (irq_stub L) v).

Lemma new_kernel_inv k h entry up ktsk :
  heap_ok h → LinkedList.is_list (nodes k) (gTaskQueue k) [(knode h, ktask h); (unode h, utask h)] →
  tasks k = <[utask h := user_task entry (ustack h) up (ktask h)]> {[ktask h := kernel_task (kstack h) ktsk]} →
  gKernelTask k = ktask h → inv k [(knode h, ktask h); (unode h, utask h)].
Proof.
  intros (Hk0 & Hu0 & Hku & _ & _ & _ & _ & [Hus0 Hus] & _) Hl Ht Hkt.
  assert (Hkl : tasks k !! ktask h = Some (kernel_task (kstack h) ktsk)).
  { rewrite Ht, lookup_insert_ne, lookup_singleton_eq by done. done. }
  assert (Hul : tasks k !! utask h = Some (user_task entry (ustack h) up (ktask h))) by (rewrite Ht; apply lookup_insert_eq).
  assert (Hcase : ∀ t x, tasks k !! t = Some x →
    (t = ktask h ∧ x = kernel_task (kstack h) ktsk) ∨ (t = utask h ∧ x = user_task entry (ustack h) up (ktask h))).
  { intros t x. rewrite Ht. intros [[<- <-]|[_ Hx]]%lookup_insert_Some; [by right|].
    apply lookup_singleton_Some in Hx as [<- <-]. by left. }
  split; [|split].
  - split; [exact Hl|]. cbn [fmap list_fmap snd]. split_and!.
    + repeat constructor; [|by apply not_elem_of_nil]. intros E%list_elem_of_singleton. congruence.
    + repeat constructor; eexists; done.
    + repeat constructor; done.
    + rewrite Hkt. by left.
    + rewrite Hkt. by eexists.
  - intros t x Hx Hh. destruct (Hcase t x Hx) as [[-> ->]|[-> ->]]; [by destruct Hh|].
    split; [done|]. split; [done|]. split; [done|]. by intros _ [].
  - intros t x Hx. destruct (Hcase t x Hx) as [[-> ->]|[-> ->]]; constructor.
Qed.

(** The machine right before the first user program is loaded. *)
Lemma kernel_pd_image kb p i0 : page_aligned kb → kb / kPageSize4M + 3 < kNumPageDirEntries → 0 ≤ p < kNumPageDirEntries →
  is_u32 i0 → i0 / kPageSize4M = kb / kPageSize4M → translate (kernel_pd kb p) i0 = Some i0.
Proof.
  intros Hkb Hk Hp Hi Hpg. pose proof (page_of_addr kb (proj1 Hkb)) as Hkr. destruct (kernel_pd_maps kb p Hkb Hk Hp) as [_ Hm].
  rewrite translate_mapping, Hpg, Hm by done. rewrite (proj2 (Z.eqb_neq _ _)), Z.eqb_refl by lia. cbn [fmap option_fmap option_map].
  f_equal. destruct Hkb as [Hu Ha]. unfold is_u32, kPageSize4M in *. dlia.
Qed.

Lemma memory_up_wf kb p m pm m' : pd_ok (kernel_pd kb p) → map_Forall (λ _, is_u8) m' → Paging.wf (set_mem m' (memory_up kb p m pm)).
Proof.
  intros Hok H8. split; [|split]; cbn [pds gCurrentPageDir set_mem memory_up set_pmm set_crs set_current set_pds mem].
  - by apply map_Forall_singleton.
  - rewrite lookup_singleton_eq. by eexists.
  - done.
Qed.

(** The kernel once the paging test has run. *)
Definition tested (L : layout) (h : heap) (s : boot) (p : Z) (pm pm' : Pmm.state) (g : Gdt.state) (m' : gmap Z Z) : kernel :=
  let k := kernel_up L h s p pm g in set_mach (set_pmm pm' (set_mem m' (mach k))) k.

Lemma tested_jump_pre L h s p pm pm' g m' i0 i1 :
  entered_ok (mach (kern (sys_of s))) → page_aligned (kernel_begin L) → kernel_begin L / kPageSize4M + 3 < kNumPageDirEntries →
  0 ≤ p < kNumPageDirEntries → image_ok (kernel_begin L) i0 i1 → same_pages pm pm' → map_Forall (λ _, is_u8) m' →
  Pmm.used pm (kernel_begin L / kPageSize4M) = true → (∃ q, 0 ≤ q < searched_pages pm ∧ Pmm.used pm q = false) →
  jump_pre (tested L h s p pm pm' g m') (kernel_pd (kernel_begin L) p) i0 (Z.min (i1 - i0) kPageSize4M) i0.
Proof.
  intros (_ & _ & _ & Hif & _ & _) Hkb Hk Hp (Hi32 & Hi0 & Hlt & Hpg & Hfit) (Hwf & Hn & Hu) H8 Hku (q & Hq & Hqu).
  pose proof (page_of_addr _ (proj1 Hkb)) as Hkr. destruct (kernel_pd_maps _ p Hkb Hk Hp) as [Hok Hmap].
  split; [exact Hif|]. split; [by apply (memory_up_wf _ _ _ pm' m')|]. split; [done|]. split; [apply lookup_singleton_eq|].
  split; [exact Hwf|]. split.
  { exists q. cbn [pmm mach tested set_mach set_pmm]. unfold searched_pages. rewrite Hn, Hu by lia. done. }
  split.
  { exists (kernel_begin L / kPageSize4M + 2). split; [lia|]. rewrite Hmap by lia. by rewrite !(proj2 (Z.eqb_neq _ _)) by lia. }
  split; [split; [done|]; split; [unfold kPageSize4M; lia|done]|]. split; [by apply kernel_pd_image|].
  cbn [pmm mach tested set_mach set_pmm]. rewrite Hpg, Hu by lia. split; [done|]. split; [apply Hi32|done].
Qed.

(** The image in the address space of the first task. *)
Lemma image_loaded_Ok m0 m' pm m kpd up v p i0 n mj :
  pd_ok kpd → 1 ≤ v < kNumPageDirEntries → 0 ≤ p < kNumPageDirEntries → 0 ≤ n ≤ kPageSize4M →
  is_u32 i0 → i0 mod kPageSize4M + n ≤ kPageSize4M → used_kept pm m0 m' → Pmm.used pm (i0 / kPageSize4M) = true →
  copied m' mj i0 (p * kPageSize4M) n →
  image_loaded m0 (set_iflag true (set_mem mj (with_pd up (upd kpd v (new_pde (p * kPageSize4M) PG_USER)) m))) up v i0 n.
Proof.
  intros Hok Hv Hp Hn Hi32 Hfit [_ Hkept] Hiu Hcp i Hi. exists (p * kPageSize4M + i). destruct (page_start p Hp) as (_ & Ap & _). split.
  - unfold vtranslate. cbn [pds set_iflag set_mem with_pd set_pds]. rewrite lookup_insert_eq.
    destruct (new_pde_mapping kpd v v (p * kPageSize4M) PG_USER Hok ltac:(lia) Ap ltac:(done)) as [N _]. rewrite Z.eqb_refl in N.
    destruct (translate_page _ v _ ltac:(lia) N) as [Tu Pu]. by apply (translate_add _ _ kPageSize4M); [|lia|].
  - cbn [mem set_iflag set_mem]. rewrite Hcp. rewrite (proj2 (Z.leb_le _ _)), (proj2 (Z.ltb_lt _ _)) by lia. cbn [andb].
    replace (p * kPageSize4M + i - p * kPageSize4M) with i by lia. apply Hkept; [unfold is_u32 in Hi32; lia|].
    rewrite <- Hiu. f_equal. unfold is_u32, kPageSize4M in *. dlia.
Qed.

Lemma kern_with k s : kern (sys_of (with_kern k s)) = k.
Proof. done. Qed.

Lemma mach_jumped k m nd ut ust up entry : mach (jumped k m nd ut ust up entry) = m.
Proof. done. Qed.

Lemma wf_iflag m b : Paging.wf m → Paging.wf (set_iflag b m).
Proof. done. Qed.

Lemma copied_u8 m m' ps pd n : copied m m' ps pd n → map_Forall (λ _, is_u8) m → map_Forall (λ _, is_u8) m'.
Proof.
  intros Hcp H8 q b Hb. replace b with (byte_at m' q) by (unfold byte_at; by rewrite Hb).
  rewrite Hcp. destruct (_ && _); by apply byte_at_u8.
Qed.

Lemma KernelSetup_Ok L h mu es i0 i1 s :
  cold s → heap_ok h → upd_ h ≠ gKernelPageDir (mach (kern (sys_of s))) →
  memory_ok (kernel_begin L) (kernel_end L) mu es → image_ok (kernel_begin L) i0 i1 →
  ∃ s', KernelSetup L h mu es i0 i1 s = Ok (Idles, s') ∧ booted L h s i0 (Z.min (i1 - i0) kPageSize4M) s'.
Proof.
  intros Hcold Hheap Hup Hmem Himg. pose proof Himg as (Hi32 & Hi0 & Hlt & Hpg & Hfit). set (kb := kernel_begin L) in *.
  destruct (init_components_Ok L h mu es s Hcold Hheap Hmem) as (p & pm & g & it & RI & Hvec & Hp & Hpwf & Habs & Hku & _ & Hfree).
  fold kb in Hku. pose proof Hmem as (_ & _ & _ & Hkb & Hsz & _ & Hk & _). fold kb in Hkb, Hsz, Hk.
  pose proof (page_of_addr kb (proj1 Hkb)) as Hkr. pose proof Hcold as (Hent & _). pose proof Hent as (_ & _ & _ & _ & H8 & _).
  destruct (kernel_pd_maps kb p Hkb Hk Hp) as [Hok Hmap]. set (k1 := kernel_up L h s p pm g).
  pose proof Hheap as (_ & _ & _ & Hkn & Hun & Hknn & _ & [Hus _] & Hup0 & Hroom).
  destruct (RunKernelTests_Ok (at_tests h) (mach k1) (kernel_pd kb p) Hroom) as (m' & pm' & RT & Hsame & Hkept); [|done|].
  { split; [apply lookup_singleton_eq|]. split; [done|]. split; [exact H8|]. split; [done|]. split; [exact Hfree|].
    exists (kb / kPageSize4M + 2), (kb / kPageSize4M + 3). split; [lia|]. split; [lia|].
    rewrite !Hmap by lia. by rewrite !(proj2 (Z.eqb_neq _ _)) by lia. }
  set (k2 := tested L h s p pm pm' g m').
  destruct (JumpToUserMode_Ok k2 (kernel_pd kb p) [(knode h, ktask h)] (upd_ h) (utask h) (ustack h) (unode h) i0 i1 i0)
    as (v & q & mj & nd & RJ & Hv & _ & Hq & Hqu & Hcp & Hoku & Hlist); try done.
  { apply tested_jump_pre; try done. apply Hkept. }
  { split; [|repeat constructor; by apply not_elem_of_nil]. split; [done|]. split; [done|]. exists 0. split; [apply lookup_singleton_eq|done]. }
  { by apply lookup_singleton_ne. }
  eexists. split.
  - unfold KernelSetup. fold kb. rewrite (proj2 Hkb). erewrite bind_Ok by done.
    rewrite u32_id, (proj2 (Z.leb_le _ _)) by (unfold is_u32, kPageSize4M in *; lia). erewrite bind_Ok by done.
    rewrite (bind_Ok _ _ _ _ _ RI). erewrite bind_Ok by (apply on_machine_read, in_pmm_read; apply (proj2 (page_counts pm Hpwf Habs))).
    erewrite bind_Ok by (apply (on_machine_with _ k1 (components_up L h s p pm g it)); exact RT).
    unfold tobool. rewrite !(proj2 (Z.eqb_neq _ 0)) by (unfold is_u32 in Hi32; lia). cbn [negb andb].
    erewrite bind_Ok by (apply (on_kernel_with _ k2); exact RJ). done.
  - destruct Hsame as (Hpwf' & Hn' & Hu'). unfold booted. rewrite kern_with, mach_jumped. cbv zeta.
    split; [by apply (new_kernel_inv _ h (v * kPageSize4M) (upd_ h) (gKernelPageDir (mach (kern (sys_of s)))))|].
    split; [done|]. split.
    { apply wf_iflag, (with_pd_wf (set_mem mj (mach k2))); [|exact Hoku].
      exact (memory_up_wf kb p (mach (kern (sys_of s))) pm' mj Hok (copied_u8 _ _ _ _ _ Hcp (proj1 Hkept))). }
    split; [exact Hpwf'|]. split; [exact (same_pages_absent pm pm' Hpwf (conj Hpwf' (conj Hn' Hu')) Habs)|].
    split; [cbn [tasks jumped set_mach set_nodes set_tasks]; rewrite lookup_insert_ne by (symmetry; apply Hheap); apply lookup_singleton_eq|].
    split; [|split; [done|split; [done|intros Hs1 Hs2 x Hx; by apply Hvec]]].
    exists v. split; [done|]. split; [apply lookup_insert_eq|].
    apply (image_loaded_Ok _ m' pm); try done; [unfold kPageSize4M; lia|by rewrite Hpg].
Qed.

(** ** The first interrupt *)

(** Once the handlers are registered, every vector leads to the dispatcher. *)
Lemma handle_interrupt_Ok al s : gIsrHandlers s = replicate kNumIsrHandlers (Some ExceptionDispatcher) →
  0 ≤ int_no (regs (sys_of s)) < 256 → handle_interrupt al s = on_sys (isr_handler al) s.
Proof.
  intros Hh Hn. assert (Hr : aread (gIsrHandlers s) (int_no (regs (sys_of s))) = Ok (Some ExceptionDispatcher)).
  { apply aread_Ok. rewrite nthZ_lookup, Hh by lia. apply lookup_replicate_2. unfold kNumIsrHandlers. lia. }
  unfold handle_interrupt. erewrite bind_Ok by (by apply on_sys_Ok). rewrite (proj2 (Z.ltb_lt _ _)) by lia. erewrite bind_Ok by done.
  unfold on_sys at 2, zoom. unfold isr_handler. erewrite (bind_Ok (gets regs)) by done. rewrite (proj2 (Z.ltb_lt _ _)) by lia.
  erewrite (bind_Ok (assert_ true)) by done. erewrite (bind_Ok (in_mach (gets iflag))) by (by apply in_mach_read).
  replace (set_sys (sys_of s) s) with s by (by destruct s). erewrite bind_Ok by (by apply on_machine_read).
  destruct (iflag (mach (kern (sys_of s)))); [done|]. cbn [negb]. erewrite !bind_Ok by done. munfold. by rewrite Hr.
Qed.

(** The processor interrupts the kernel's idle loop: interrupts are off, the registers are
    on the stack. *)
Definition interrupted (r : registers_t) (s : boot) : boot :=
  let k := kern (sys_of s) in
  set_sys (set_regs_ r (set_kern (set_mach (set_iflag false (mach k)) k) (sys_of s))) s.

Definition idle_interrupted (r : registers_t) (s : boot) : Prop :=
  int_no r = Interrupts.IRQ0 ∧ valid_regs false r = true ∧
  let k := entered (kern (sys_of (interrupted r s))) in check_kernel_stack r k = Ok (tt, k).

(** The processor continues at the entry of the first program, in user mode, with
    interrupts on and the program's directory, in which the image is. *)
Definition in_user (m0 : gmap Z Z) (h : heap) (i0 n : Z) (a : registers_t) (k : kernel) : Prop :=
  cs a = 0x1B ∧ ss a = 0x23 ∧ Z.testbit (eflags a) 9 = true ∧ gCurrentPageDir (mach k) = upd_ h ∧
  inv k [(unode h, utask h); (knode h, ktask h)] ∧
  ∃ v, eip a = v * kPageSize4M ∧ image_loaded m0 (mach k) (upd_ h) v i0 n.

Lemma first_interrupt_Ok L h s i0 n s' al r : heap_ok h → booted L h s i0 n s' → idle_interrupted r s' →
  ∃ a s'', handle_interrupt al (interrupted r s') = Ok (SwitchTask a, s'') ∧
    in_user (mem (mach (kern (sys_of s)))) h i0 n a (kern (sys_of s'')).
Proof.
  intros (_ & _ & _ & _ & _ & _ & [Hks0 Hks] & _) (Hinv & Hif & _ & _ & _ & Hkt & (v & Hv & Hut & Himg) & Hcb & Hh & _) (Hno & Hvr & Hst).
  set (s1 := interrupted r s') in *. set (k1 := entered (kern (sys_of s1))) in *.
  assert (Hinv1 : inv k1 [(knode h, ktask h); (unode h, utask h)]) by exact Hinv.
  assert (Hpre : tick_pre k1 (ktask h) (kernel_task (kstack h) (gKernelPageDir (mach (kern (sys_of s))))) r).
  { split; [exact Hkt|]. split; [|by right]. split; [exact Hvr|]. split; [done|]. split; [done|]. done. }
  assert (Hrun : runs k1 (unode h, utask h) = true) by (unfold runs; cbn [snd]; change (tasks k1) with (tasks (kern (sys_of s'))); by rewrite Hut).
  destruct (Schedule_switch 0 k1 (knode h) (ktask h) [] (unode h) (utask h) [] _ _ r Hinv1 ltac:(constructor) Hrun Hpre Hut) as (nd & RS & Hl).
  rewrite handle_interrupt_Ok; [|exact Hh|change (regs (sys_of s1)) with r; rewrite Hno; done].
  eexists _, _. split.
  { apply on_sys_Ok. rewrite (timer_dispatch al (sys_of s1) (replicate 255 None)); [|done|done|exact Hcb|by apply Forall_replicate].
    change (regs (sys_of s1)) with r. fold k1. rewrite RS. done. }
  split; [done|]. split; [done|]. split; [done|]. split; [done|]. split.
  - exact (switched_inv k1 (knode h) (ktask h) [] (unode h) (utask h) [] _ _ r nd Hinv1 Hpre Hut Hl).
  - exists v. split; [done|]. exact Himg.
Qed.

(** * Properties *)
Section boot_properties.
  (** A boot loader that keeps to its specification, on a machine that has the memory, enters
      the kernel with an image in the kernel's page. *)
  Context (L : layout) (h : heap) (b : Multiboot) (s : boot) (es : list mmap_t) (i0 i1 : Z).
  Hypothesis Hcold : cold s.
  Hypothesis Hheap : heap_ok h.
  Hypothesis Hupd : upd_ h ≠ gKernelPageDir (mach (kern (sys_of s))).
  Hypothesis Hloader : loader_ok b (mem (mach (kern (sys_of s)))) es i0 i1.
  Hypothesis Hmemory : memory_ok (kernel_begin L) (kernel_end L) (mem_upper b) es.
  Hypothesis Himage : image_ok (kernel_begin L) i0 i1.

(** C9: The kernel boots.  [kernel_main] passes all of its assertions and tests, those of the
    allocator, for which the components have left room on the heap, and the paging test, and idles with
    interrupts on in a state in which what the other theorems assume holds: the scheduler's
    invariant, with the kernel's task and the first user task in the queue, and the
    well-formedness of the page directories and of the bitmap.  The user task is about to run at
    an address at which its directory maps a copy of the image; the vectors of the
    exceptions, of the interrupts and of the system calls lead to their stubs, except for
    vector 30, which isr.cpp leaves empty (it sets 39 in its place, which irq.cpp sets again);
    the stubs lead to the dispatcher, and the timer to the scheduler. *)
Theorem kernel_boots :
  ∃ s', kernel_main L h b MULTIBOOT_BOOTLOADER_MAGIC s = Ok (Idles, s') ∧
        booted L h s i0 (Z.min (i1 - i0) kPageSize4M) s'.
Proof using Hcold Hheap Hupd Hloader Hmemory Himage.
  pose proof Hcold as ((_ & _ & _ & _ & H8 & _) & _). rewrite (kernel_main_setup L h b s es i0 i1 Hloader H8).
  by apply KernelSetup_Ok.
Qed.

(** C19: The first program starts.  Whatever the registers of the idle loop are, the first timer
    interrupt after the boot ends in user mode, at the first byte of the image, with the
    program's page directory, interrupts on, and the scheduler's invariant. *)
Theorem first_interrupt_enters_user :
  ∃ s', kernel_main L h b MULTIBOOT_BOOTLOADER_MAGIC s = Ok (Idles, s') ∧
    ∀ al r, idle_interrupted r s' →
      ∃ a s'', handle_interrupt al (interrupted r s') = Ok (SwitchTask a, s'') ∧
        in_user (mem (mach (kern (sys_of s)))) h i0 (Z.min (i1 - i0) kPageSize4M) a (kern (sys_of s'')).
Proof using Hcold Hheap Hupd Hloader Hmemory Himage.
  pose proof Hcold as ((_ & _ & _ & _ & H8 & _) & _). rewrite (kernel_main_setup L h b s es i0 i1 Hloader H8).
  destruct (KernelSetup_Ok L h (mem_upper b) es i0 i1 s Hcold Hheap Hupd Hmemory Himage) as (s' & R & HB).
  exists s'. split; [exact R|]. intros al r Hr. by apply (first_interrupt_Ok L h s _ _ s').
Qed.
End boot_properties.

(** * An example

    A machine with 128MB, the kernel at 4MB, its image of four bytes at 0x410000.  The boot
    loader's memory map is at 0x10000, its module at 0x20000; at 0x4FF000 is the stack frame
    of an interrupted idle loop. *)
Definition mmap_bytes (e : mmap_t) : list Z :=
  bytes_of_word 20 ++ bytes_of_word (mm_addr e) ++ [0; 0; 0; 0] ++ bytes_of_word (mm_len e) ++ [0; 0; 0; 0] ++ bytes_of_word (mm_type e).

Definition example_mmaps : list mmap_t := [mkMmap 0 0x9FC00 1; mkMmap 0x9FC00 0x400 2; mkMmap 0x100000 0x7EE0000 1].

Definition example_frame : registers_t :=
  mkRegs 0x10 0x10 0x10 0x10 0 0 0 0x4FF000 0 0 0 0 32 0 0x401000 0x08 0x200 0 0x10.

Definition example_mem : gmap Z Z :=
  stored (stored (stored (stored ∅ 0x10000 (example_mmaps ≫= mmap_bytes)) 0x20000 ([0x410000; 0x410004] ≫= bytes_of_word))
    0x410000 [0x90; 0x91; 0x92; 0xF4]) 0x4FF000 ([32; 0; 0x401000; 0x08; 0x200] ≫= bytes_of_word).

Definition example_boot : boot :=
  mkBoot (mkSys (mkKernel (mkMachine (fresh 0) {[0x402000 := replicate 1024 0]} 0x402000 0 0x11 0 false example_mem)
      (Channel.mkState 0 0 [] ∅) (Gdt.mkState (replicate 6 (Gdt.mkEntry 0 0 0 0 0 0)) (0, 0) Gdt.tss_zero) ∅ ∅ ∅ 0 0)
    zero_regs 0 [] [] 0 (replicate kMaxCallbacks None)) (Interrupts.mkState [] (0, 0) []) (replicate kNumIsrHandlers None).

Definition example_layout : layout :=
  mkLayout 0x400000 0x403000 0x402800 0x402900 0x402A00 (λ n, 0x400100 + n) (λ n, 0x400200 + n) (λ _, 0).

(** The heap of 4MB behind the allocations of a task of 120 bytes, its stack, a node and a vector. *)
Definition example_sizes : list Z := [120; kDefaultKernStackSize; 8; 12].
Definition example_page : Malloc.Malloc.heap := Malloc.Malloc.mkHeap 0 None (Malloc.Malloc.zeroes 0x800000 (2 ^ 20)).
Definition allocated (b : Z) (sizes : list Z) (h0 : Malloc.Malloc.heap) : Malloc.Malloc.heap :=
  match Malloc.Malloc.Initialize b kPageSize4M None h0 with
  | Ok (_, h) => match MallocTests.MallocTests.alloc_all sizes h with Ok (_, h) => h | Fault _ => h end
  | Fault _ => h0
  end.
Definition example_kheap : Malloc.Malloc.heap := allocated 0x800000 example_sizes example_page.
Definition example_heap : heap := mkHeap 0x800100 0x801000 0x800200 0x805000 0x800300 0x803000 0x800400 example_kheap.
Definition example_multiboot : Multiboot := mkMultiboot 0x49 130048 1 0x20000 72 0x10000.

Lemma example_cold : cold example_boot.
Proof.
  split; [|done]. split; [by eexists|]. split_and!; try done. repeat apply stored_u8. apply map_Forall_empty.
Qed.

Lemma example_page_usable : Malloc.Malloc.usable (Malloc.Malloc.words example_page) [] 0x800000 kPageSize4M.
Proof.
  split; [lia|]. split; [reflexivity|]. split; [reflexivity|]. split; [by vm_compute|]. split; [by vm_compute|].
  split; [|constructor]. exact (Malloc.Malloc.zeroes_mapped 0x800000 (2 ^ 20) eq_refl).
Qed.

Lemma example_room : MallocTests.MallocTests.tests_room example_kheap.
Proof.
  destruct (MallocTests.MallocTests.allocations_leave_room example_page 0x800000 kPageSize4M None example_sizes) as (h1 & ps & h2 & R1 & R2 & H).
  - reflexivity.
  - exact example_page_usable.
  - repeat constructor; by vm_compute.
  - by vm_compute.
  - unfold example_kheap, allocated. rewrite R1, R2. exact H.
Qed.
#[local] Opaque example_kheap.

Lemma example_heap_ok : heap_ok example_heap.
Proof. do 9 (split; [done|]). exact example_room. Qed.

(** With tests that pass, the example boots like a kernel that skips the allocator's. *)
Lemma example_tests : ∃ r, MallocTests.MallocTests.RunAllMallocTests example_kheap = Ok r.
Proof. destruct (MallocTests.MallocTests.tests_pass _ example_room) as (h & R & _). by eexists. Qed.
Ltac skip_malloc_tests :=
  destruct example_tests as [kh Ekh]; unfold kernel_main, KernelSetup, RunKernelTests, example_heap; cbn [at_tests]; rewrite Ekh; clear Ekh; generalize example_kheap; intros kheap0.

Lemma example_loader_ok : loader_ok example_multiboot example_mem example_mmaps 0x410000 0x410004.
Proof. repeat split; vm_compute; try done; lia. Qed.

Lemma example_memory_ok : memory_ok 0x400000 0x403000 130048 example_mmaps.
Proof.
  split; [done|]. split; [done|]. split; [repeat constructor; simpl; unfold kPageSize4M; lia|].
  do 4 (split; [done|]). split; [done|]. split; [done|]. split.
  - intros p (m & Hin & [_ [_ Hc]%andb_true_iff]%andb_true_iff)%existsb_exists. apply Z.ltb_lt in Hc.
    assert (Hl : last_page m ≤ 32) by (destruct Hin as [<-|[<-|[<-|[]]]]; vm_compute; discriminate).
    change (num_pages 130048) with 32. lia.
  - exists 2, 3. split; [done|]. split; repeat split; done.
Qed.

Lemma example_image_ok : image_ok 0x400000 0x410000 0x410004.
Proof. repeat split; done. Qed.

Lemma kernel_boots_witness :
  ∃ s', kernel_main example_layout example_heap example_multiboot MULTIBOOT_BOOTLOADER_MAGIC example_boot = Ok (Idles, s') ∧
        iflag (mach (kern (sys_of s'))) = true ∧ inv (kern (sys_of s')) [(0x800200, 0x800100); (0x800400, 0x800300)].
Proof.
  destruct (kernel_boots example_layout example_heap example_multiboot example_boot example_mmaps 0x410000 0x410004) as (s' & R & HB).
  - exact example_cold.
  - exact example_heap_ok.
  - discriminate.
  - exact example_loader_ok.
  - exact example_memory_ok.
  - exact example_image_ok.
  - exists s'. split; [exact R|]. destruct HB as (Hinv & Hi & _). exact (conj Hi Hinv).
Defined.

(** The frame on the stack of the example is the one that the processor pushed. *)
Lemma example_interrupted s' :
  kernel_main example_layout example_heap example_multiboot MULTIBOOT_BOOTLOADER_MAGIC example_boot = Ok (Idles, s') →
  idle_interrupted example_frame s'.
Proof.
  intros R. split; [done|]. split; [done|]. intros k.
  assert (Hc : match kernel_main example_layout example_heap example_multiboot MULTIBOOT_BOOTLOADER_MAGIC example_boot with
    | Ok (_, s) => match check_kernel_stack example_frame (entered (kern (sys_of (interrupted example_frame s)))) with Ok _ => true | Fault _ => false end
    | Fault _ => false end = true) by (skip_malloc_tests; vm_compute; reflexivity).
  rewrite R in Hc. fold k in Hc. destruct (check_kernel_stack example_frame k) as [[[] k']|] eqn:E; [|done].
  by rewrite (check_kernel_stack_reads _ _ _ _ E).
Qed.

Lemma first_interrupt_enters_user_witness :
  ∃ s' a s'', kernel_main example_layout example_heap example_multiboot MULTIBOOT_BOOTLOADER_MAGIC example_boot = Ok (Idles, s') ∧
    handle_interrupt example_allocs (interrupted example_frame s') = Ok (SwitchTask a, s'') ∧
    in_user example_mem example_heap 0x410000 4 a (kern (sys_of s'')).
Proof.
  destruct (first_interrupt_enters_user example_layout example_heap example_multiboot example_boot example_mmaps 0x410000 0x410004)
    as (s' & R & HI).
  - exact example_cold.
  - exact example_heap_ok.
  - discriminate.
  - exact example_loader_ok.
  - exact example_memory_ok.
  - exact example_image_ok.
  - destruct (HI example_allocs example_frame (example_interrupted s' R)) as (a & s'' & RI & HU).
    exists s', a, s''. split; [exact R|]. split; [exact RI|exact HU].
Defined.

(** ** What the boot does not check *)

(** The same machine with the module from [i0] to [i1]. *)
Definition example_module (i0 i1 : Z) : boot :=
  set_sys (set_kern (set_mach (set_mem (stored example_mem 0x20000 ([i0; i1] ≫= bytes_of_word)) (mach (kern (sys_of example_boot))))
    (kern (sys_of example_boot))) (sys_of example_boot)) example_boot.

(** The image is read through the kernel's directory, which maps its own page and the heap
    only: an image on another page stops the kernel. *)
Lemma image_on_another_page_faults :
  kernel_main example_layout example_heap example_multiboot MULTIBOOT_BOOTLOADER_MAGIC (example_module 0x1000000 0x1000004) = Fault PageFault.
Proof. skip_malloc_tests. vm_compute. reflexivity. Qed.

(** Without a module the kernel cleans up and returns. *)
Lemma no_module_returns :
  match kernel_main example_layout example_heap (mkMultiboot 0x41 130048 0 0 72 0x10000) MULTIBOOT_BOOTLOADER_MAGIC example_boot with
  | Ok (Returns, s) => bool_decide (size (tasks (kern (sys_of s))) = 0%nat)
  | _ => false
  end = true.
Proof. skip_malloc_tests. vm_compute. reflexivity. Qed.

End KernelMain.
