(* ===== verification/KernelTypes.v ===== *)
(** What no interrupt can break: the representation of the kernel's memory structures.

    Every entry of every page directory stays a 32-bit word that is zero or present, every
    byte of memory a byte, the bitmap its 128 bytes: whatever the registers hold with which
    a program enters the kernel, whatever handler runs (kernel/syscalls.cpp,
    kernel/exceptions.cpp, kernel/scheduler.cpp) and however it ends.  The runs of the machine
    are a step relation: interrupts with any registers and stores of programs.

    On the machine the directories, the bitmap and the tasks are in memory as well, where a store could
    reach them; the model keeps them apart.  A run is therefore one in which no store through an address,
    of a program or of the kernel on its behalf, hits a place where they are ([spares]).  The kernel
    does not enforce that: [MapPage_gives_away_kernel_page] in SharedPages.v. *)
From S2P Require Import Prelude KernelH Pmm Paging Channel LinkedList Gdt Scheduler Interrupts Syscalls Boot KernelMain.
Import Pmm.Pmm Paging.Paging Scheduler.Scheduler Syscalls.Syscalls Boot.Boot KernelMain.KernelMain.

Module KernelTypes.

(** * Computations that keep an invariant, and what they return *)
Definition ensures {S A} (P : S → Prop) (m : M S A) (Q : A → Prop) : Prop :=
  ∀ s a s', P s → m s = Ok (a, s') → P s' ∧ Q a.

Abbreviation keeps P m := (ensures P m (λ _, True)).

Section ensures.
  Context {S : Type} (P : S → Prop).

Lemma ensures_bind {A B} (m : M S A) (k : A → M S B) Q R :
  ensures P m Q → (∀ a, Q a → ensures P (k a) R) → ensures P (m ≫= k) R.
Proof.
  intros Hm Hk s b s' Hs H. apply bind_Ok_inv in H as (a & s1 & H1 & H2).
  destruct (Hm _ _ _ Hs H1) as [Hs1 Ha]. by eapply Hk.
Qed.

Lemma keeps_bind {A B} (m : M S A) (k : A → M S B) R :
  keeps P m → (∀ a, ensures P (k a) R) → ensures P (m ≫= k) R.
Proof. intros Hm Hk. eapply ensures_bind; [exact Hm|]. intros a _. apply Hk. Qed.

Lemma ensures_weaken {A} (m : M S A) (Q R : A → Prop) : ensures P m Q → (∀ a, Q a → R a) → ensures P m R.
Proof. intros Hm HQ s a s' Hs H. destruct (Hm _ _ _ Hs H). auto. Qed.

Lemma ensures_ret {A} (a : A) (Q : A → Prop) : Q a → ensures P (mret a) Q.
Proof. by intros Ha s a' s' Hs [= <- <-]. Qed.

Lemma ensures_fail {A} e Q : ensures P (fail e : M S A) Q.
Proof. by intros s a s'. Qed.

Lemma ensures_assert b : ensures P (assert_ b) (λ _, b = true).
Proof. destruct b; [by apply ensures_ret|apply ensures_fail]. Qed.

Lemma ensures_gets {A} (g : S → A) (Q : A → Prop) : (∀ s, P s → Q (g s)) → ensures P (gets g) Q.
Proof. intros H s a s' Hs [= <- <-]. auto. Qed.

Lemma keeps_gets {A} (g : S → A) : keeps P (gets g).
Proof. by intros s a s' Hs [= _ <-]. Qed.

Lemma keeps_liftR {A} (r : result A) : keeps P (liftR r).
Proof. destruct r; [by intros s a' s' Hs [= _ <-]|by intros s a s']. Qed.

Lemma keeps_modify g : (∀ s, P s → P (g s)) → keeps P (modify g).
Proof. intros H s a s' Hs [= _ <-]. auto. Qed.

(** What is worked on has the invariant [Q], or the invariant does not speak of it. *)
Lemma ensures_zoom {U A} (Q : U → Prop) (get : S → U) (set : U → S → S) (m : M U A) R :
  (∀ s, P s → Q (get s)) → (∀ u s, P s → Q u → P (set u s)) → ensures Q m R → ensures P (zoom get set m) R.
Proof.
  intros Hg Hs Hm s a s' HP. unfold zoom. destruct (m (get s)) as [[b u]|] eqn:E; [|done]. intros [= <- <-].
  destruct (Hm _ _ _ (Hg _ HP) E) as [HQ HR]. auto.
Qed.

Lemma keeps_zoom_out {U A} (get : S → U) (set : U → S → S) (m : M U A) :
  (∀ u s, P s → P (set u s)) → keeps P (zoom get set m).
Proof. intros H s a s' HP. unfold zoom. destruct (m (get s)) as [[b u]|]; [|done]. intros [= _ <-]. auto. Qed.

Lemma ensures_keeps {A} (m : M S A) Q : ensures P m Q → keeps P m.
Proof. intros H. by eapply ensures_weaken. Qed.
End ensures.

(** [typed] proves that a call keeps the invariant, [yields] also what it returns. *)
Create HintDb typed.
Create HintDb yields.
#[export] Hint Resolve ensures_ret ensures_fail keeps_gets keeps_liftR : typed.
#[export] Hint Resolve ensures_assert : yields.
#[export] Hint Extern 1 (ensures _ _ (λ _, True)) => solve [eapply ensures_keeps; eauto 6 with yields] : typed.
#[export] Hint Extern 1 (True) => exact I : typed yields.
#[export] Hint Extern 1 (is_u8 _) => solve [done | apply u8_range] : typed yields.
#[export] Hint Extern 1 (is_u32 _) => solve [assumption | done | apply u32_range] : typed yields.

(** Walk through a computation. *)
Ltac keeps :=
  cbv zeta;
  repeat first
    [ solve [auto 6 with typed]
    | match goal with
      | |- ensures _ (mbind _ _) _ =>
          first [ eapply ensures_bind; [solve [eauto 6 with yields]|]; let H := fresh "H" in intros ? H; cbv beta in H
                | apply keeps_bind; [|intros ?] ]
      | |- ensures _ (match ?x with _ => _ end) _ => destruct x
      end ].

(** * The invariant *)
Definition mtyped (m : machine) : Prop :=
  map_Forall (λ _, pd_ok) (pds m) ∧ map_Forall (λ _, is_u8) (mem m) ∧ Pmm.wf (pmm m).

(** The selectors that [switch_task] loads name one of the four segments. *)
Definition selectors_ok (r : registers_t) : Prop :=
  Forall (λ v, SegmentRegisterValueIsValid v = true) [cs r; ds r; gs r; fs r; es r].

(** A task's record of its pages has its 256 slots, each empty or with the number of a page. *)
Definition page_ok (p : Z) : Prop := 0 ≤ p < kNumPageDirEntries.
Definition task_typed (t : Task) : Prop :=
  selectors_ok (regs_ t) ∧ length (owned_phys_pages_ t) = kMaxPages ∧ Forall page_ok (owned_phys_pages_ t).

Definition ktyped (k : kernel) : Prop := mtyped (mach k) ∧ map_Forall (λ _, task_typed) (tasks k).

(** The timer runs the scheduler or nothing. *)
Definition callback_ok (c : option handler_t) : Prop := c = None ∨ c = Some scheduler_callback.

Definition typed (s : sys) : Prop :=
  ktyped (kern s) ∧ Forall callback_ok (gCallbacks s) ∧ is_u32 (gTick s).

(** Where [Schedule] jumps. *)
Definition outcome_ok (o : outcome) : Prop :=
  match o with Returned => True | SwitchTask a => selectors_ok a end.

(** ** The page allocator *)
Lemma keeps_read_byte i : keeps Pmm.wf (read_byte i).
Proof. unfold read_byte. keeps. Qed.

Lemma keeps_write_byte i b : is_u8 b → keeps Pmm.wf (write_byte i b).
Proof.
  intros Hb s u s' (Hl & H8 & Hn). unfold write_byte. munfold. destruct (awrite _ _ _) as [bm|] eqn:E; [|done].
  intros [= _ <-]. apply awrite_Ok in E as [_ ->]. split; [|done]. split; [|split]; cbn [gPhysicalBitmap set_bitmap gNum4MPages].
  - by rewrite length_insert.
  - by apply Forall_insert.
  - done.
Qed.
#[local] Hint Resolve keeps_read_byte : typed.
#[local] Hint Extern 1 (keeps Pmm.wf (write_byte _ _)) => apply keeps_write_byte, u8_range : typed.

Lemma keeps_PageIsUsed p : keeps Pmm.wf (PageIsUsed p).
Proof. unfold PageIsUsed. keeps. Qed.
#[local] Hint Resolve keeps_PageIsUsed : typed.

Lemma keeps_SetPageUsed p : keeps Pmm.wf (SetPageUsed p).
Proof. unfold SetPageUsed. keeps. Qed.
Lemma keeps_SetPageFree p : keeps Pmm.wf (SetPageFree p).
Proof. unfold SetPageFree. keeps. Qed.

Lemma keeps_GetNextFreePage : keeps Pmm.wf GetNextFreePage.
Proof.
  unfold GetNextFreePage, GetNum4MPages. apply keeps_bind; [keeps|]. intros n. generalize (Z.to_nat (n / CHAR_BIT)) 0. clear n.
  intros n. induction n as [|n IH]; intros i; cbn [find_free]; keeps.
Qed.
#[local] Hint Resolve keeps_SetPageUsed keeps_SetPageFree keeps_GetNextFreePage : typed.

(** ** The page directories and memory *)
Lemma typed_in_pmm {A} (m : M Pmm.state A) : keeps Pmm.wf m → keeps mtyped (in_pmm m).
Proof.
  intros H. apply (ensures_zoom _ Pmm.wf); [by intros s (_ & _ & ?)| |done]. by intros u s (? & ? & _) ?.
Qed.
#[local] Hint Resolve typed_in_pmm : typed.

Lemma ensures_get_pd this : ensures mtyped (get_pd this) pd_ok.
Proof.
  intros s pd s' Hs. unfold get_pd. munfold. destruct (pds s !! this) as [p|] eqn:E; [|done]. intros [= <- <-].
  split; [done|]. by apply (proj1 Hs this).
Qed.

#[local] Hint Resolve ensures_get_pd : yields.

Lemma typed_put_pd this pd : pd_ok pd → keeps mtyped (put_pd this pd).
Proof. intros Hpd. apply keeps_modify. intros s (Hp & ? & ?). split; [|done]. by apply map_Forall_insert_2. Qed.

Lemma ensures_getPDE this v : ensures mtyped (getPDE this v) pde_ok.
Proof.
  unfold getPDE. eapply keeps_bind; [keeps|intros _]. eapply ensures_bind; [apply ensures_get_pd|]. intros pd [_ Hpd].
  intros s e s' Hs. unfold liftR. destruct (aread pd _) as [x|] eqn:E; [|done]. intros [= <- <-]. split; [done|].
  apply aread_Ok, nthZ_Some in E as [_ E]. by eapply Forall_lookup_1.
Qed.

#[local] Hint Resolve ensures_getPDE : yields.

Lemma typed_setPDE this v x : pde_ok x → keeps mtyped (setPDE this v x).
Proof.
  intros Hx. unfold setPDE. apply keeps_bind; [keeps|intros _]. eapply ensures_bind; [apply ensures_get_pd|]. intros pd [Hl Hpd].
  destruct (awrite pd (v / kPageSize4M) x) as [pd'|] eqn:E; [|by intros s a s'].
  apply awrite_Ok in E as [_ ->]. eapply (ensures_bind _ _ _ (λ l, l = _)); [by intros s a s' Hs [= <- <-]|].
  intros ? ->. apply typed_put_pd. split; [by rewrite length_insert|by apply Forall_insert].
Qed.

Lemma typed_DisableInterrupts {A} (m : M machine A) Q : ensures mtyped m Q → ensures mtyped (DisableInterruptsRAII iflag set_iflag m) Q.
Proof.
  intros Hm. unfold DisableInterruptsRAII. apply keeps_bind; [keeps|intros i]. apply keeps_bind; [by apply keeps_modify|intros _].
  eapply ensures_bind; [exact Hm|]. intros a Ha. apply keeps_bind; [|intros _; by apply ensures_ret].
  destruct i; [by apply keeps_modify|keeps].
Qed.

Lemma new_pde_ok paddr flags : is_u32 paddr → is_u8 flags → paddr mod kPageSize4M = 0 → pde_ok (new_pde paddr flags).
Proof.
  intros Hp Hf Ha. destruct (new_pde_spec paddr flags) as (? & ? & _); [by split|done|]. split; [done|by right].
Qed.

Lemma typed_MapPage this v paddr flags : is_u32 paddr → is_u8 flags → keeps mtyped (MapPage this v paddr flags).
Proof.
  intros Hp Hf. apply typed_DisableInterrupts. eapply ensures_bind; [apply ensures_assert|]. intros _ Ha%Z.eqb_eq.
  keeps. by apply typed_setPDE, new_pde_ok.
Qed.

Lemma typed_UnmapPage this v : keeps mtyped (UnmapPage this v).
Proof. apply typed_DisableInterrupts. keeps. apply typed_setPDE. split; [done|by left]. Qed.
#[local] Hint Resolve typed_MapPage typed_UnmapPage : typed.

Lemma typed_VaddrIsMapped this v : keeps mtyped (VaddrIsMapped this v).
Proof. unfold VaddrIsMapped. keeps. Qed.
Lemma typed_getNextFreePage this lo : keeps mtyped (getNextFreePage this lo).
Proof. unfold getNextFreePage. keeps. Qed.
#[local] Hint Resolve typed_VaddrIsMapped typed_getNextFreePage : typed.

Lemma typed_Clone addr this : keeps mtyped (Clone addr this).
Proof. unfold Clone. keeps. by apply typed_put_pd. Qed.

Lemma ensures_getPhysicalAddr this v : ensures mtyped (getPhysicalAddr this v) is_u32.
Proof.
  unfold getPhysicalAddr. keeps. apply ensures_ret. destruct H as [H _]. rewrite land_mask by done.
  unfold is_u32, kPageSize4M in *. dlia.
Qed.
#[local] Hint Resolve ensures_getPhysicalAddr : yields.
#[local] Hint Resolve typed_Clone : typed.

Lemma typed_phys v : keeps mtyped (phys v).
Proof. unfold phys, GetCurrentPageDirectory. keeps. Qed.
#[local] Hint Resolve typed_phys : typed.

Lemma typed_load8 v : keeps mtyped (load8 v).
Proof. unfold load8. keeps. Qed.
#[local] Hint Resolve typed_load8 : typed.

Lemma typed_load32 v : keeps mtyped (load32 v).
Proof. unfold load32. keeps. Qed.

Lemma typed_store8 v b : keeps mtyped (store8 v b).
Proof.
  unfold store8. keeps. apply keeps_modify. intros s (? & ? & ?). split; [done|]. split; [|done].
  apply map_Forall_insert_2; [apply u8_range|done].
Qed.
#[local] Hint Resolve typed_load32 typed_store8 : typed.

Lemma typed_memcpy n dst src : keeps mtyped (memcpy n dst src).
Proof. revert dst src. induction n as [|n IH]; intros dst src; cbn [memcpy]; keeps. Qed.
Lemma typed_load_bytes n v : keeps mtyped (load_bytes n v).
Proof. revert v. induction n as [|n IH]; intros v; cbn [load_bytes]; keeps. Qed.
Lemma typed_store_bytes bs v : keeps mtyped (store_bytes v bs).
Proof. revert v. induction bs as [|b bs IH]; intros v; cbn [store_bytes]; keeps. Qed.
#[local] Hint Resolve typed_memcpy typed_load_bytes typed_store_bytes : typed.

Lemma typed_GetCurrentPageDirectory : keeps mtyped GetCurrentPageDirectory.
Proof. unfold GetCurrentPageDirectory. keeps. Qed.
Lemma typed_GetKernelPageDirectory : keeps mtyped GetKernelPageDirectory.
Proof. unfold GetKernelPageDirectory. keeps. Qed.
Lemma typed_SwitchPageDirectory pd : keeps mtyped (SwitchPageDirectory pd).
Proof. by apply keeps_modify. Qed.
#[local] Hint Resolve typed_GetCurrentPageDirectory typed_GetKernelPageDirectory typed_SwitchPageDirectory : typed.

Lemma typed_TempMap other v : keeps mtyped (TempMap other v).
Proof. unfold TempMap. keeps. Qed.
#[local] Hint Resolve typed_TempMap : typed.

Lemma typed_Memcpy src_pd dst_pd src dst size : keeps mtyped (Memcpy src_pd dst_pd src dst size).
Proof. unfold Memcpy. keeps. Qed.
#[local] Hint Resolve typed_Memcpy : typed.
Lemma typed_Memcpy_from this other dst src size : keeps mtyped (Memcpy_from this other dst src size).
Proof. unfold Memcpy_from. keeps. Qed.
#[local] Hint Resolve typed_Memcpy_from : typed.

(** ** The tasks and the scheduler *)
Lemma ensures_on_mach {A} (m : M machine A) Q : ensures mtyped m Q → ensures ktyped (on_mach m) Q.
Proof. intros H. apply (ensures_zoom _ mtyped); [by intros k [? _]| |done]. by intros u k [_ ?] ?. Qed.
Lemma typed_on_pmm {A} (m : M Pmm.state A) : keeps Pmm.wf m → keeps ktyped (on_pmm m).
Proof. intros H. by apply ensures_on_mach, typed_in_pmm. Qed.
Lemma typed_on_chans {A} (m : M Channel.state A) : keeps ktyped (on_chans m).
Proof. by apply keeps_zoom_out. Qed.
Lemma typed_on_gdt {A} (m : M Gdt.state A) : keeps ktyped (on_gdt m).
Proof. by apply keeps_zoom_out. Qed.
Lemma typed_on_nodes {A} (m : M LinkedList.store A) : keeps ktyped (on_nodes m).
Proof. by apply keeps_zoom_out. Qed.
#[local] Hint Resolve ensures_on_mach : typed yields.
#[local] Hint Resolve typed_on_pmm typed_on_chans typed_on_gdt typed_on_nodes : typed.

Lemma ensures_get_task t : ensures ktyped (get_task t) task_typed.
Proof.
  intros k x k' Hk. unfold get_task. destruct (tasks k !! t) as [y|] eqn:E; [|done]. intros [= <- <-].
  split; [done|]. by apply (proj2 Hk t).
Qed.

Lemma typed_put_task t x : task_typed x → keeps ktyped (put_task t x).
Proof. intros Hx. apply keeps_modify. intros k [? ?]. split; [done|]. by apply map_Forall_insert_2. Qed.
#[local] Hint Resolve ensures_get_task : yields.
#[local] Hint Resolve typed_put_task : typed.
#[local] Hint Extern 1 (task_typed _) => assumption : typed.

(** The changes of a task that leave its registers and its pages alone. *)
Lemma typed_GetOrCreateSignal this other : keeps ktyped (GetOrCreateSignal this other).
Proof. unfold GetOrCreateSignal. keeps. Qed.
Lemma typed_AddListener this w : keeps ktyped (AddListener this w).
Proof. unfold AddListener. keeps. Qed.
Lemma typed_deliver this sg v l : keeps ktyped (deliver this sg v l).
Proof. unfold deliver. keeps. Qed.
Lemma typed_RemoveSignal this t : keeps ktyped (RemoveSignal this t).
Proof. unfold RemoveSignal. keeps. Qed.
#[local] Hint Resolve typed_GetOrCreateSignal typed_AddListener typed_deliver typed_RemoveSignal : typed.

Lemma typed_deliver_all this sg v ls : keeps ktyped (deliver_all this sg v ls).
Proof. induction ls as [|l ls IH]; cbn [deliver_all]; keeps. Qed.
#[local] Hint Resolve typed_deliver_all : typed.

Lemma typed_SendSignal this sg v : keeps ktyped (SendSignal this sg v).
Proof. unfold SendSignal. keeps. Qed.
Lemma typed_WaitOn this other sg : keeps ktyped (WaitOn this other sg).
Proof. unfold WaitOn. keeps. Qed.
#[local] Hint Resolve typed_SendSignal typed_WaitOn : typed.

Lemma ensures_ValidateRegs t r : ensures ktyped (ValidateRegs t r) (λ _, selectors_ok r).
Proof. unfold ValidateRegs. keeps; try apply ensures_ret; [eapply ensures_weaken; [apply ensures_assert|intros _ _]|]; repeat constructor; done. Qed.
#[local] Hint Resolve ensures_ValidateRegs : yields.

Lemma typed_new_task t stack user pd parent : keeps ktyped (new_task t stack user pd parent).
Proof.
  unfold new_task. apply keeps_bind; [by apply keeps_modify|intros _]. apply typed_put_task. split; [by destruct user; repeat constructor|].
  split; [apply length_replicate|by apply Forall_replicate].
Qed.

Lemma typed_kfree p : keeps ktyped (kfree p).
Proof. unfold kfree. keeps. by apply keeps_modify. Qed.
Lemma typed_free_pages_of ps : keeps ktyped (free_pages_of ps).
Proof. induction ps as [|p ps IH]; cbn [free_pages_of]; keeps. Qed.
#[local] Hint Resolve typed_new_task typed_kfree typed_free_pages_of : typed.

Lemma typed_delete_task t : keeps ktyped (delete_task t).
Proof.
  unfold delete_task. keeps; apply keeps_modify; intros k [(? & ? & ?) ?].
  - split; [|done]. split; [by apply map_Forall_delete|done].
  - by split; [|apply map_Forall_delete].
Qed.
#[local] Hint Resolve typed_delete_task : typed.

Lemma typed_set_owned t i p : task_typed t → page_ok p → task_typed (set_owned (<[i := p]> (owned_phys_pages_ t)) t).
Proof. intros (? & ? & ?) Hp. split; [done|]. split; [by cbn; rewrite length_insert|by apply Forall_insert]. Qed.
#[local] Hint Resolve typed_set_owned : typed.

Lemma typed_RecordOwnedPage this p : page_ok p → keeps ktyped (RecordOwnedPage this p).
Proof. intros Hp. unfold RecordOwnedPage. keeps. Qed.
Lemma typed_RemoveOwnedPage this p : keeps ktyped (RemoveOwnedPage this p).
Proof. unfold RemoveOwnedPage. assert (page_ok 0) by done. keeps. Qed.
#[local] Hint Resolve typed_RecordOwnedPage typed_RemoveOwnedPage : typed.

(** ** The queue *)
Lemma typed_GetCurrentTask : keeps ktyped GetCurrentTask.
Proof. unfold GetCurrentTask. keeps. Qed.
Lemma typed_GetMainKernelTask : keeps ktyped GetMainKernelTask.
Proof. unfold GetMainKernelTask. keeps. Qed.
#[local] Hint Resolve typed_GetCurrentTask typed_GetMainKernelTask : typed.
#[local] Hint Extern 1 (keeps ktyped (modify _)) => apply keeps_modify; done : typed.

Lemma typed_find_runnable fuel n : keeps ktyped (find_runnable fuel n).
Proof. revert n. induction fuel as [|fuel IH]; intros n; cbn [find_runnable]; keeps. Qed.
Lemma typed_cycle_to fuel n : keeps ktyped (cycle_to fuel n).
Proof. induction fuel as [|fuel IH]; cbn [cycle_to]; keeps. Qed.
Lemma typed_is_running fuel n t : keeps ktyped (is_running fuel n t).
Proof. revert n. induction fuel as [|fuel IH]; intros n; cbn [is_running]; keeps. Qed.
Lemma typed_iterate_tasks {A} fuel n (f : Z → Task → A → A) a : keeps ktyped (iterate_tasks fuel n f a).
Proof. revert n a. induction fuel as [|fuel IH]; intros n a; cbn [iterate_tasks]; keeps. Qed.
#[local] Hint Resolve typed_find_runnable typed_cycle_to typed_is_running typed_iterate_tasks : typed.

Lemma typed_IsRunningTask t : keeps ktyped (IsRunningTask t).
Proof. unfold IsRunningTask. keeps. Qed.
Lemma typed_getChildren this : keeps ktyped (getChildren this).
Proof. unfold getChildren. keeps. Qed.
Lemma typed_check_kernel_stack r : keeps ktyped (check_kernel_stack r).
Proof. unfold check_kernel_stack. keeps. Qed.
Lemma typed_RegisterTask node t : keeps ktyped (RegisterTask node t).
Proof. unfold RegisterTask. keeps. Qed.
#[local] Hint Resolve typed_IsRunningTask typed_getChildren typed_check_kernel_stack typed_RegisterTask : typed.

Lemma typed_receive_signal t : keeps ktyped (receive_signal t).
Proof. unfold receive_signal. keeps. Qed.
Lemma typed_getKernelStackBase t : keeps ktyped (getKernelStackBase t).
Proof. unfold getKernelStackBase. keeps. Qed.
#[local] Hint Resolve typed_receive_signal typed_getKernelStackBase : typed.

Lemma ensures_switch_to t : ensures ktyped (switch_to t) outcome_ok.
Proof. unfold switch_to. keeps. apply ensures_ret. by match goal with H : task_typed _ |- _ => apply H end. Qed.

Lemma typed_with_task t f : (∀ x, task_typed x → task_typed (f x)) → keeps ktyped (with_task t f).
Proof. intros Hf. unfold with_task. keeps. Qed.

Lemma typed_leave_current r retval cn ct nn :
  match r with Some r => selectors_ok r | None => True end → keeps ktyped (leave_current r retval cn ct nn).
Proof. intros Hr. unfold leave_current. keeps. apply typed_with_task. by intros x [_ ?]. Qed.

(** Whatever registers are passed: [ValidateRegs] is what makes them safe to keep. *)
Lemma ensures_Schedule r retval : ensures ktyped (Schedule r retval) outcome_ok.
Proof.
  unfold Schedule. eapply (ensures_bind _ _ _ (λ _, match r with Some r => selectors_ok r | None => True end)).
  { destruct r; keeps. apply ensures_ValidateRegs. }
  intros _ Hr. pose proof (typed_leave_current r retval). keeps; try by apply ensures_ret.
  apply ensures_switch_to.
Qed.
#[local] Hint Resolve ensures_Schedule : typed yields.

(** ** Interrupts *)
Lemma ensures_on_kern {A} (m : M kernel A) Q : ensures ktyped m Q → ensures typed (on_kern m) Q.
Proof. intros H. apply (ensures_zoom _ ktyped); [by intros s [? _]| |done]. by intros u s [_ ?] ?. Qed.
Lemma ensures_in_mach {A} (m : M machine A) Q : ensures mtyped m Q → ensures typed (in_mach m) Q.
Proof. intros H. by apply ensures_on_kern, ensures_on_mach. Qed.
#[local] Hint Resolve ensures_on_kern ensures_in_mach : typed yields.
#[local] Hint Extern 1 (keeps typed (modify _)) => apply keeps_modify; done : typed.
#[local] Hint Extern 1 (outcome_ok Returned) => exact I : typed.

Lemma typed_ret_eax v : keeps typed (ret_eax v).
Proof. unfold ret_eax. keeps. Qed.
Lemma typed_ret_ebx v : keeps typed (ret_ebx v).
Proof. unfold ret_ebx. keeps. Qed.
#[local] Hint Resolve typed_ret_eax typed_ret_ebx : typed.
Lemma typed_done_with st : ensures typed (done_with st) outcome_ok.
Proof. unfold done_with. keeps. Qed.
Lemma typed_copy_to_user dst src size : keeps typed (copy_to_user dst src size).
Proof. unfold copy_to_user, GetPageDirBeforeException. keeps. Qed.
Lemma typed_copy_from_user dst src size : keeps typed (copy_from_user dst src size).
Proof. unfold copy_from_user, GetPageDirBeforeException. keeps. Qed.
Lemma typed_TryRead : keeps typed TryRead.
Proof. unfold TryRead. keeps. Qed.
#[local] Hint Resolve typed_done_with typed_copy_to_user typed_copy_from_user typed_TryRead : typed.

(** The system calls, in the order of their table. *)
Lemma typed_SYS_DebugWrite al : ensures typed (SYS_DebugWrite al) outcome_ok.
Proof. unfold SYS_DebugWrite. keeps. Qed.
Lemma typed_SYS_ProcessKill : ensures typed SYS_ProcessKill outcome_ok.
Proof. unfold SYS_ProcessKill, no_return. keeps. Qed.

Lemma typed_alloc_vaddr pd fl v : keeps typed (alloc_vaddr pd fl v).
Proof. unfold alloc_vaddr. keeps. Qed.
#[local] Hint Resolve typed_alloc_vaddr : typed.

Lemma AddrToPage_ok a : is_u32 a → page_ok (AddrToPage a).
Proof. unfold is_u32, page_ok, AddrToPage, kPageSize4M, kNumPageDirEntries. intros H. dlia. Qed.
#[local] Hint Resolve AddrToPage_ok : typed.

Lemma typed_SYS_AllocPage : ensures typed SYS_AllocPage outcome_ok.
Proof. unfold SYS_AllocPage. keeps. Qed.
Lemma typed_SYS_PageSize : ensures typed SYS_PageSize outcome_ok.
Proof. unfold SYS_PageSize. keeps. Qed.
Lemma typed_SYS_ProcessCreate al : ensures typed (SYS_ProcessCreate al) outcome_ok.
Proof. unfold SYS_ProcessCreate. keeps. Qed.
Lemma typed_SYS_MapPage : ensures typed SYS_MapPage outcome_ok.
Proof. unfold SYS_MapPage. keeps. Qed.
Lemma typed_SYS_ProcessStart al : ensures typed (SYS_ProcessStart al) outcome_ok.
Proof. unfold SYS_ProcessStart. keeps. all: by apply ensures_on_kern, typed_with_task. Qed.
Lemma typed_SYS_UnmapPage : ensures typed SYS_UnmapPage outcome_ok.
Proof. unfold SYS_UnmapPage. keeps. Qed.

Lemma typed_TryCopy src bytes buff size : keeps typed (TryCopy src bytes buff size).
Proof. unfold TryCopy. keeps. Qed.
#[local] Hint Resolve typed_TryCopy : typed.

Lemma typed_SYS_ProcessInfo al : ensures typed (SYS_ProcessInfo al) outcome_ok.
Proof. unfold SYS_ProcessInfo. keeps. Qed.
Lemma typed_SYS_DebugRead al : ensures typed (SYS_DebugRead al) outcome_ok.
Proof. unfold SYS_DebugRead. keeps. Qed.
Lemma typed_SYS_ProcessWait : ensures typed SYS_ProcessWait outcome_ok.
Proof. unfold SYS_ProcessWait, no_return. keeps. Qed.
Lemma typed_SYS_ChannelCreate al : ensures typed (SYS_ChannelCreate al) outcome_ok.
Proof. unfold SYS_ChannelCreate. keeps. Qed.
Lemma typed_SYS_HandleClose : ensures typed SYS_HandleClose outcome_ok.
Proof. unfold SYS_HandleClose. keeps. Qed.
Lemma typed_SYS_ChannelRead al : ensures typed (SYS_ChannelRead al) outcome_ok.
Proof. unfold SYS_ChannelRead. keeps. Qed.
Lemma typed_SYS_ChannelWrite al : ensures typed (SYS_ChannelWrite al) outcome_ok.
Proof. unfold SYS_ChannelWrite. keeps. Qed.
Lemma typed_SYS_TransferHandle : ensures typed SYS_TransferHandle outcome_ok.
Proof. unfold SYS_TransferHandle. keeps. Qed.
#[local] Hint Resolve typed_SYS_DebugWrite typed_SYS_ProcessKill typed_SYS_AllocPage typed_SYS_PageSize typed_SYS_ProcessCreate
  typed_SYS_MapPage typed_SYS_ProcessStart typed_SYS_UnmapPage typed_SYS_ProcessInfo typed_SYS_DebugRead typed_SYS_ProcessWait
  typed_SYS_ChannelCreate typed_SYS_HandleClose typed_SYS_ChannelRead typed_SYS_ChannelWrite typed_SYS_TransferHandle : typed.

Lemma typed_SyscallHandler al : ensures typed (SyscallHandler al) outcome_ok.
Proof.
  unfold SyscallHandler. apply keeps_bind; [keeps|intros r]. destruct (nthZ (kSyscallHandlers al) (eax r)) as [f|] eqn:E; [|keeps].
  assert (Hall : Forall (λ f, ensures typed f outcome_ok) (kSyscallHandlers al)) by (unfold kSyscallHandlers; repeat apply Forall_cons_2; auto with typed).
  apply nthZ_Some in E as [_ E]. exact (Forall_lookup_1 _ _ _ _ Hall E).
Qed.

Lemma typed_run_callbacks l : Forall callback_ok l → ensures typed (run_callbacks l) outcome_ok.
Proof.
  induction 1 as [|c l [->| ->] Hl IH]; cbn [run_callbacks]; keeps.
Qed.

Lemma typed_TimerCallback : ensures typed TimerCallback outcome_ok.
Proof.
  unfold TimerCallback. apply keeps_bind.
  - apply keeps_modify. intros s (? & ? & _). split; [done|]. split; [done|apply u32_range].
  - intros _. eapply (ensures_bind _ _ _ (Forall callback_ok)); [by apply ensures_gets; intros s (_ & ? & _)|apply typed_run_callbacks].
Qed.
#[local] Hint Resolve typed_SyscallHandler typed_TimerCallback : typed yields.

Lemma typed_ExceptionDispatcher al : ensures typed (ExceptionDispatcher al) outcome_ok.
Proof.
  unfold ExceptionDispatcher. do 5 (apply keeps_bind; [keeps|intros ?]). eapply (ensures_bind _ _ _ outcome_ok).
  - unfold DispatchUserException, DispatchKernelException, no_return. keeps.
  - intros [|x] Ho; keeps.
Qed.

(** * From the entry of the kernel *)
Definition handler_ok (f : option (allocs → M sys outcome)) : Prop := f = None ∨ f = Some ExceptionDispatcher.
Definition btyped (s : boot) : Prop := typed (sys_of s) ∧ Forall handler_ok (gIsrHandlers s).

Lemma ensures_on_sys {A} (m : M sys A) Q : ensures typed m Q → ensures btyped (on_sys m) Q.
Proof. intros H. apply (ensures_zoom _ typed); [by intros s [? _]| |done]. by intros u s [_ ?] ?. Qed.
Lemma ensures_on_kernel {A} (m : M kernel A) Q : ensures ktyped m Q → ensures btyped (on_kernel m) Q.
Proof. intros H. by apply ensures_on_sys, ensures_on_kern. Qed.
Lemma ensures_on_machine {A} (m : M machine A) Q : ensures mtyped m Q → ensures btyped (on_machine m) Q.
Proof. intros H. by apply ensures_on_kernel, ensures_on_mach. Qed.
Lemma typed_on_ints {A} (m : M Interrupts.state A) : keeps btyped (on_ints m).
Proof. by apply keeps_zoom_out. Qed.
#[local] Hint Resolve ensures_on_sys ensures_on_kernel ensures_on_machine : typed yields.
#[local] Hint Resolve typed_on_ints : typed.

Lemma typed_handle_interrupt al : ensures btyped (handle_interrupt al) outcome_ok.
Proof.
  unfold handle_interrupt. do 4 (apply keeps_bind; [keeps|intros ?]).
  eapply (ensures_bind _ _ _ (Forall handler_ok)); [by apply ensures_gets; intros s [_ ?]|]. intros l Hl.
  destruct (aread l (int_no a)) as [f|] eqn:E; [|by intros s o s']. apply aread_Ok, nthZ_Some in E as [_ E].
  destruct (Forall_lookup_1 _ _ _ _ Hl E) as [->| ->]; [by intros s o s'|].
  intros s o s'. exact (ensures_on_sys _ _ (typed_ExceptionDispatcher al) s o s').
Qed.

(** ** The initialisers *)
Lemma keeps_sum_zero_bits n i num : keeps Pmm.wf (sum_zero_bits n i num).
Proof. revert i num. induction n as [|n IH]; intros i num; cbn [sum_zero_bits]; keeps. Qed.
#[local] Hint Resolve keeps_sum_zero_bits : typed.

Lemma keeps_GetNumFree4MPages : keeps Pmm.wf GetNumFree4MPages.
Proof. unfold GetNumFree4MPages, GetNum4MPages. keeps. Qed.
#[local] Hint Resolve keeps_GetNumFree4MPages : typed.
Lemma keeps_GetNumUsed4MPages : keeps Pmm.wf GetNumUsed4MPages.
Proof. unfold GetNumUsed4MPages, GetNum4MPages. keeps. Qed.
#[local] Hint Resolve keeps_GetNumUsed4MPages : typed.

Lemma keeps_memset v n : is_u8 v → (n ≤ 128)%nat → keeps Pmm.wf (modify (λ s, set_bitmap (memset_bitmap v n (gPhysicalBitmap s)) s)).
Proof.
  intros Hv Hn. apply keeps_modify. intros s (Hl & H8 & ?). unfold memset_bitmap. split; [|split]; cbn [gPhysicalBitmap set_bitmap]; [| |done].
  - rewrite length_app, length_replicate, length_drop. lia.
  - apply Forall_app. split; [by apply Forall_replicate|by apply Forall_drop].
Qed.

Lemma num_pages_bound x : 0 ≤ RoundUp 32 x kPageSize4M / kPageSize4M < kNumPageDirEntries.
Proof.
  change kPageSize4M with (2 ^ 22). rewrite RoundUp_wrap by done. pose proof (Z.mod_pos_bound (x + (2 ^ 22 - 1)) (2 ^ 32)).
  unfold kNumPageDirEntries. dlia.
Qed.

Lemma keeps_pmm_Initialize mem_upper : keeps Pmm.wf (Pmm.Initialize mem_upper).
Proof.
  unfold Pmm.Initialize. pose proof (num_pages_bound (u32 (mem_upper * 1024))) as Hn. revert Hn. cbv zeta.
  set (n := _ / kPageSize4M). clearbody n. intros Hn.
  apply keeps_bind; [apply keeps_modify; intros s (? & ? & _); split; [done|]; split; [done|cbn; lia]|intros _].
  apply keeps_bind; [keeps|intros _]. apply keeps_bind; [|intros _; keeps].
  destruct (n =? kNumPageDirEntries); [by apply keeps_memset; [|lia]|].
  apply keeps_bind; [by apply keeps_memset; [|lia]|intros _].
  apply keeps_bind; [apply keeps_memset; [done|unfold CHAR_BIT, kNumPageDirEntries in *; dlia]|intros _; keeps].
Qed.

Lemma keeps_for_each {S A} (P : S → Prop) (f : A → M S unit) l : (∀ a, keeps P (f a)) → keeps P (for_each f l).
Proof. intros Hf. induction l as [|a l IH]; cbn [for_each]; keeps. Qed.

Lemma keeps_do_pages f n p : (∀ p, keeps Pmm.wf (f p)) → keeps Pmm.wf (do_pages f n p).
Proof. intros Hf. revert p. induction n as [|[|n] IH]; intros p; cbn [do_pages]; keeps. Qed.

Lemma keeps_free_page p : keeps Pmm.wf (free_page p).
Proof. unfold free_page. keeps. Qed.
Lemma keeps_reserve_page p : keeps Pmm.wf (reserve_page p).
Proof. unfold reserve_page. keeps. Qed.
#[local] Hint Resolve keeps_pmm_Initialize keeps_for_each keeps_do_pages keeps_free_page keeps_reserve_page : typed.

Lemma keeps_free_mmap m : keeps Pmm.wf (free_mmap m).
Proof. unfold free_mmap. keeps. Qed.
Lemma keeps_reserve_mmap m : keeps Pmm.wf (reserve_mmap m).
Proof. unfold reserve_mmap. keeps. Qed.
#[local] Hint Resolve keeps_free_mmap keeps_reserve_mmap : typed.

Lemma keeps_InitPmm mem_upper kb mmaps : keeps Pmm.wf (InitPmm mem_upper kb mmaps).
Proof. unfold InitPmm, GetNum4MPages. keeps. Qed.

Lemma typed_Clear this : keeps mtyped (Clear this).
Proof. unfold Clear. keeps. apply typed_put_pd. split; [apply length_replicate|apply Forall_replicate; split; [done|by left]]. Qed.
#[local] Hint Resolve keeps_InitPmm typed_Clear : typed.

Lemma typed_paging_Initialize kb ke : is_u32 kb → keeps mtyped (Paging.Initialize kb ke).
Proof. intros Hk. unfold Paging.Initialize, MapKernelPage. keeps. by apply keeps_modify. Qed.
Lemma typed_kmalloc_Initialize kb : keeps mtyped (kmalloc_Initialize kb).
Proof. unfold kmalloc_Initialize. keeps. Qed.
#[local] Hint Resolve typed_paging_Initialize typed_kmalloc_Initialize : typed.

Lemma typed_scheduler_Initialize t st n : keeps ktyped (Scheduler.Initialize t st n).
Proof. unfold Scheduler.Initialize. keeps. Qed.
Lemma typed_Destroy : keeps ktyped Destroy.
Proof. unfold Destroy. keeps. Qed.
#[local] Hint Resolve typed_scheduler_Initialize typed_Destroy : typed.

Lemma typed_RegisterTimerCallback n : keeps typed (RegisterTimerCallback n scheduler_callback).
Proof.
  unfold RegisterTimerCallback. eapply (ensures_bind _ _ _ (Forall callback_ok)); [by apply ensures_gets; intros s (_ & ? & _)|].
  intros l Hl. apply keeps_bind; [keeps|intros c]. apply keeps_bind; [keeps|intros _].
  destruct (awrite l n (Some scheduler_callback)) as [l'|] eqn:E; [|by intros s a s']. apply awrite_Ok in E as [_ ->].
  eapply (ensures_bind _ _ _ (Forall callback_ok)).
  - intros s a s' Hs [= <- <-]. split; [done|]. apply Forall_insert; [done|by right].
  - intros l' Hl'. apply keeps_modify. by intros s (? & _ & ?).
Qed.

Lemma typed_RegisterIsrHandler n : keeps btyped (RegisterIsrHandler n ExceptionDispatcher).
Proof.
  unfold RegisterIsrHandler. eapply (ensures_bind _ _ _ (Forall handler_ok)); [by apply ensures_gets; intros s (_ & ?)|].
  intros l Hl. apply keeps_bind; [keeps|intros c]. apply keeps_bind; [keeps|intros _].
  destruct (awrite l n (Some ExceptionDispatcher)) as [l'|] eqn:E; [|by intros s a s']. apply awrite_Ok in E as [_ ->].
  eapply (ensures_bind _ _ _ (Forall handler_ok)).
  - intros s a s' Hs [= <- <-]. split; [done|]. apply Forall_insert; [done|by right].
  - intros l' Hl'. apply keeps_modify. by intros s (? & _).
Qed.
#[local] Hint Resolve typed_RegisterTimerCallback typed_RegisterIsrHandler : typed.

Lemma typed_register_from n i : keeps btyped (register_from n i).
Proof. revert i. induction n as [|n IH]; intros i; cbn [register_from]; keeps. Qed.
#[local] Hint Resolve typed_register_from : typed.

Lemma typed_init_components L h mem_upper mmaps : is_u32 (kernel_begin L) → keeps btyped (init_components L h mem_upper mmaps).
Proof. intros HL. unfold init_components, scheduler_Initialize, InitializeHandlers. keeps. Qed.

Lemma typed_getNumFreeVPages this : keeps mtyped (getNumFreeVPages this).
Proof. unfold getNumFreeVPages. keeps. Qed.
Lemma typed_isKernelPageDir this : keeps mtyped (isKernelPageDir this).
Proof. unfold isKernelPageDir. keeps. Qed.
Lemma typed_test_words n i a1 a2 : keeps mtyped (test_words n i a1 a2).
Proof. revert i. induction n as [|n IH]; intros i; cbn [test_words]; keeps. Qed.
#[local] Hint Resolve typed_init_components typed_getNumFreeVPages typed_isKernelPageDir typed_test_words : typed.

Lemma typed_RunKernelTests kheap : keeps mtyped (RunKernelTests kheap).
Proof. unfold RunKernelTests, PagingTests, TestVirtualMapping. keeps. Qed.

Lemma typed_Memcpy_from_current this dst src size : keeps mtyped (Memcpy_from_current this dst src size).
Proof. unfold Memcpy_from_current. keeps. Qed.
#[local] Hint Resolve typed_Memcpy_from_current : typed.

Lemma typed_JumpToUserMode up t st n i0 i1 : keeps ktyped (JumpToUserMode up t st n i0 i1).
Proof.
  unfold JumpToUserMode. keeps.
  - by apply typed_with_task.
  - by apply ensures_on_mach, keeps_modify.
Qed.
#[local] Hint Resolve typed_RunKernelTests typed_JumpToUserMode : typed.

Lemma typed_KernelSetup L h mem_upper mmaps i0 i1 : is_u32 (kernel_begin L) → keeps btyped (KernelSetup L h mem_upper mmaps i0 i1).
Proof. intros HL. unfold KernelSetup. keeps. Qed.

Lemma typed_IterMmap {A} b (f : mmap_t → A → A) a : keeps mtyped (IterMmap b f a).
Proof. unfold IterMmap. keeps. Qed.
#[local] Hint Resolve typed_IterMmap : typed.
Lemma typed_Dump b : keeps mtyped (Dump b).
Proof. unfold Dump. keeps. Qed.
Lemma typed_getMmap b n : keeps mtyped (getMmap b n).
Proof. unfold getMmap. keeps. Qed.
#[local] Hint Resolve typed_Dump typed_getMmap : typed.

Lemma typed_kernel_main L h b magic : is_u32 (kernel_begin L) → keeps btyped (kernel_main L h b magic).
Proof.
  intros HL. unfold kernel_main, getMemUpper. pose proof (typed_KernelSetup L h). keeps.
Qed.

(** * Runs of the machine *)

(** [iret] loads the interrupt flag with the rest of the processor's state. *)
Definition iret (i : bool) (s : boot) : boot :=
  let k := kern (sys_of s) in set_sys (set_kern (set_mach (set_iflag i (mach k)) k) (sys_of s)) s.

(** The processor lets a program write where the current directory has a present page with
    the flags for it. *)
Definition user_writable (m : machine) (vaddr : Z) : bool :=
  match pds m !! gCurrentPageDir m with
  | Some pd => match nthZ pd (vaddr / kPageSize4M) with
               | Some pde => Z.land pde (Z.lor (Z.lor PG_PRESENT PG_WRITE) PG_USER) =? Z.lor (Z.lor PG_PRESENT PG_WRITE) PG_USER
               | None => false
               end
  | None => false
  end.

Section runs.
  (** [own s a]: in the state [s], one of the kernel's structures is at the physical address [a]. *)
  Context (own : boot → Z → Prop).

(** No store through an address has hit the structures. *)
Definition spares (s s' : boot) : Prop :=
  ∀ a, own s a → mem (mach (kern (sys_of s'))) !! a = mem (mach (kern (sys_of s))) !! a.

(** One step of the machine once the kernel has started: an interrupt, with any registers and
    any addresses from the kernel's allocator, whose handler comes back or jumps to a task; a
    program writes a byte; a character arrives at the serial port. *)
Inductive step : boot → boot → Prop :=
  | step_interrupt al r i s o s' :
      handle_interrupt al (interrupted r s) = Ok (o, s') → spares s s' → step s (iret i s')
  | step_store vaddr v s u s' :
      user_writable (mach (kern (sys_of s))) vaddr = true →
      on_machine (store8 vaddr v) s = Ok (u, s') → spares s s' → step s s'
  | step_serial c s :
      is_u8 c → step s (set_sys (set_serial (serial_in (sys_of s) ++ [c]) (sys_of s)) s).

(** The states of a machine that was started in [s0]. *)
Inductive reachable (L : layout) (h : heap) (b : Multiboot) (s0 : boot) : boot → Prop :=
  | reach_boot e s : kernel_main L h b MULTIBOOT_BOOTLOADER_MAGIC s0 = Ok (e, s) → reachable L h b s0 s
  | reach_step s s' : reachable L h b s0 s → step s s' → reachable L h b s0 s'.

Lemma btyped_interrupted r s : btyped s → btyped (interrupted r s).
Proof. done. Qed.
Lemma btyped_iret i s : btyped s → btyped (iret i s).
Proof. done. Qed.

Lemma step_typed s s' : btyped s → step s s' → btyped s'.
Proof.
  intros Hs Hstep. destruct Hstep as [al r i s o s' H _|v x s u s' _ H _|c s _].
  - apply btyped_iret. by apply (typed_handle_interrupt al _ _ _ (btyped_interrupted r s Hs) H).
  - by apply (ensures_on_machine _ _ (typed_store8 v x) _ _ _ Hs H).
  - done.
Qed.

End runs.

Lemma example_btyped : btyped example_boot.
Proof.
  split; [|by apply Forall_replicate; left]. split; [|by split; [apply Forall_replicate; left|]]. split; [|apply map_Forall_empty].
  split; [|split].
  - apply map_Forall_singleton. split; [apply length_replicate|apply Forall_replicate; split; [done|by left]].
  - repeat apply stored_u8. apply map_Forall_empty.
  - by split; [|split; [apply Forall_replicate|]].
Qed.

(** In the example, the 4KB of the kernel's page directory are at 0x402000. *)
Definition example_own (_ : boot) (a : Z) : Prop := 0x402000 ≤ a < 0x403000.

(** The example boots, and its first interrupt switches to the first program, and spares the structures. *)
Lemma example_switches :
  match kernel_main example_layout example_heap example_multiboot MULTIBOOT_BOOTLOADER_MAGIC example_boot with
  | Ok (_, s) =>
      match handle_interrupt example_allocs (interrupted example_frame s) with
      | Ok (SwitchTask _, s') => bool_decide (mem (mach (kern (sys_of s'))) = mem (mach (kern (sys_of s))))
      | _ => false
      end
  | Fault _ => false
  end = true.
Proof. skip_malloc_tests. vm_compute. reflexivity. Qed.


End KernelTypes.
