(* ===== verification/UserSyscalls.v ===== *)
(** The system calls as a program makes them: the stubs of userboot/syscalls.cpp and the classes
    and loops of userboot/include/syscalls.h.

    A stub loads the registers, executes [int $0x80] and reads its results from the registers
    with which the program continues: a pair of functions on registers.  The interrupt is
    handled by the kernel's [isr_handler] (Syscalls.v).  A call that blocks comes back only
    when the scheduler switches to the task again, with the registers it loads then. *)
From S2P Require Import Prelude KernelH Pmm Paging Channel LinkedList Gdt Scheduler Interrupts Syscalls.
Import Pmm.Pmm Paging.Paging Scheduler.Scheduler Syscalls.Syscalls.

Module UserSyscalls.

(** * syscalls.h *)

(** The numbers [SYS_DebugWrite] to [SYS_TransferHandle]. *)
Definition nr_DebugWrite : Z := 0.
Definition nr_ProcessKill : Z := 1.
Definition nr_AllocPage : Z := 2.
Definition nr_PageSize : Z := 3.
Definition nr_ProcessCreate : Z := 4.
Definition nr_MapPage : Z := 5.
Definition nr_ProcessStart : Z := 6.
Definition nr_UnmapPage : Z := 7.
Definition nr_ProcessInfo : Z := 8.
Definition nr_DebugRead : Z := 9.
Definition nr_ProcessWait : Z := 10.
Definition nr_ChannelCreate : Z := 11.
Definition nr_HandleClose : Z := 12.
Definition nr_ChannelRead : Z := 13.
Definition nr_ChannelWrite : Z := 14.
Definition nr_TransferHandle : Z := 15.

Definition TASK_READY : Z := 0x1.
Definition TASK_RUNNING : Z := 0x2.
Definition TASK_TERMINATED : Z := 0x4.

(** * syscalls.cpp *)
Definition with_ecx (v : Z) (r : registers_t) : registers_t :=
  mkRegs (gs r) (fs r) (es r) (ds r) (edi r) (esi r) (ebp r) (esp r) (ebx r) (edx r) v (eax r)
    (int_no r) (err_code r) (eip r) (cs r) (eflags r) (useresp r) (ss r).
Definition with_edx (v : Z) (r : registers_t) : registers_t :=
  mkRegs (gs r) (fs r) (es r) (ds r) (edi r) (esi r) (ebp r) (esp r) (ebx r) v (ecx r) (eax r)
    (int_no r) (err_code r) (eip r) (cs r) (eflags r) (useresp r) (ss r).
Definition with_esi (v : Z) (r : registers_t) : registers_t :=
  mkRegs (gs r) (fs r) (es r) (ds r) (edi r) v (ebp r) (esp r) (ebx r) (edx r) (ecx r) (eax r)
    (int_no r) (err_code r) (eip r) (cs r) (eflags r) (useresp r) (ss r).
Definition with_int_no (v : Z) (r : registers_t) : registers_t :=
  mkRegs (gs r) (fs r) (es r) (ds r) (edi r) (esi r) (ebp r) (esp r) (ebx r) (edx r) (ecx r) (eax r)
    v 0 (eip r) (cs r) (eflags r) (useresp r) (ss r).

(** A stub: the registers at [int $0x80], and what it returns. *)
Record stub (A : Type) := mkStub { args : registers_t → registers_t; results : registers_t → A }.
Arguments mkStub {A} _ _.
Arguments args {A} _ _.
Arguments results {A} _ _.

Definition DebugWrite (str size : Z) : stub unit :=
  mkStub (λ r, with_ecx size (with_ebx str (with_eax nr_DebugWrite r))) (λ _, tt).
Definition ProcessKill (retval : Z) : stub unit :=
  mkStub (λ r, with_ebx retval (with_eax nr_ProcessKill r)) (λ _, tt).
(** The status and [page_addr]. *)
Definition AllocPage (page_addr proc_handle flags : Z) : stub (Z * Z) :=
  mkStub (λ r, with_edx flags (with_ecx proc_handle (with_ebx page_addr (with_eax nr_AllocPage r)))) (λ r, (eax r, ebx r)).
Definition PageSize : stub Z := mkStub (with_eax nr_PageSize) eax.
Definition ProcessCreate : stub (Z * Z) := mkStub (with_eax nr_ProcessCreate) (λ r, (eax r, ebx r)).
(** The status and [other_vaddr]. *)
Definition MapPage_ (vaddr other_proc other_vaddr flags : Z) : stub (Z * Z) :=
  mkStub (λ r, with_esi flags (with_edx other_vaddr (with_ecx other_proc (with_ebx vaddr (with_eax nr_MapPage r)))))
    (λ r, (eax r, ebx r)).
Definition ProcessStart (proc entry arg : Z) : stub unit :=
  mkStub (λ r, with_edx arg (with_ecx entry (with_ebx proc (with_eax nr_ProcessStart r)))) (λ _, tt).
Definition UnmapPage_ (page_addr : Z) : stub unit :=
  mkStub (λ r, with_ebx page_addr (with_eax nr_UnmapPage r)) (λ _, tt).
Definition DebugRead (c : Z) : stub Z := mkStub (λ r, with_ebx c (with_eax nr_DebugRead r)) eax.
(** The status, [received_signal] and [signal_val]. *)
Definition ProcessWait (proc signals : Z) : stub (Z * Z * Z) :=
  mkStub (λ r, with_ecx signals (with_ebx proc (with_eax nr_ProcessWait r))) (λ r, (eax r, ebx r, ecx r)).
(** The status and [written_or_needed]. *)
Definition ProcessInfo (proc kind dst buffer_size : Z) : stub (Z * Z) :=
  mkStub (λ r, with_esi buffer_size (with_edx dst (with_ecx kind (with_ebx proc (with_eax nr_ProcessInfo r)))))
    (λ r, (eax r, ebx r)).
Definition ChannelCreate : stub (Z * Z) := mkStub (with_eax nr_ChannelCreate) (λ r, (eax r, ebx r)).
Definition HandleClose (handle : Z) : stub unit :=
  mkStub (λ r, with_ebx handle (with_eax nr_HandleClose r)) (λ _, tt).
(** The status and the bytes available, which the caller may leave. *)
Definition ChannelRead (endpoint dst size : Z) : stub (Z * Z) :=
  mkStub (λ r, with_edx size (with_ecx dst (with_ebx endpoint (with_eax nr_ChannelRead r)))) (λ r, (eax r, ebx r)).
Definition ChannelWrite (endpoint src size : Z) : stub unit :=
  mkStub (λ r, with_edx size (with_ecx src (with_ebx endpoint (with_eax nr_ChannelWrite r)))) (λ _, tt).
Definition TransferHandle (proc handle : Z) : stub unit :=
  mkStub (λ r, with_ecx handle (with_ebx proc (with_eax nr_TransferHandle r))) (λ _, tt).

(** The processor at [int $0x80]: the registers are on the kernel's stack, interrupts are
    off.  At [iret] they are what the registers say. *)
Definition int80 (al : allocs) (r : registers_t) : M sys outcome :=
  modify (set_regs_ (with_int_no Interrupts.kSyscallHandler r));;
  in_mach (modify (set_iflag false));;
  isr_handler al.

Definition iret (r : registers_t) : M sys unit := in_mach (modify (set_iflag (Z.testbit (eflags r) 9))).

(** A call by a program with the registers [r]: what it returns, with the registers, or the
    registers with which another task continues. *)
Definition call {A} (al : allocs) (st : stub A) (r : registers_t) : M sys (A * registers_t + registers_t) :=
  o ← int80 al (args st r);
  match o with
  | Returned => r' ← gets regs; iret r';; mret (inl (results st r', r'))
  | SwitchTask a => iret a;; mret (inr a)
  end.

(** * Programs

    A program runs with its registers; a call from which the scheduler switches away ends the
    part of it that runs without interruption, with the registers of the task that runs next. *)
Definition prog (A : Type) : Type := registers_t → M sys (A * registers_t + registers_t).

#[global] Instance prog_ret : MRet prog := λ A a r, mret (inl (a, r)).
#[global] Instance prog_bind : MBind prog := λ A B k m r,
  x ← m r; match x with inl (a, r') => k a r' | inr b => mret (inr b) end.

Definition stop {A} (e : fault) : prog A := λ _, fail e.
Definition debug_assert (b : bool) : prog unit := if b then mret tt else stop AssertFailed.
(** * The class and the loop of syscalls.h *)

(** [PageAlloc()]: an anonymous page of the current process; [addr_] holds anything before. *)
Definition PageAlloc (al : allocs) (addr_ : Z) : prog Z :=
  i ← call al (AllocPage addr_ 0 (Z.lor ALLOC_ANON ALLOC_CURRENT));
  if negb (i.1 =? K_OK) then stop Aborted else mret i.2.

Definition PageAlloc_delete (al : allocs) (addr_ : Z) : prog unit := call al (UnmapPage_ addr_).

Definition Map (al : allocs) (addr_ other_proc other_addr flags : Z) : prog (Z * Z) :=
  call al (MapPage_ addr_ other_proc other_addr flags).
Definition MapAnonAndSwap (al : allocs) (addr_ other_proc other_addr : Z) : prog (Z * Z) :=
  call al (MapPage_ addr_ other_proc other_addr (Z.lor SWAP_OWNER MAP_ANON)).

(** [ChannelReadBlocking], when nobody else runs between its calls; [fuel] bounds them. *)
Fixpoint ChannelReadBlocking (fuel : nat) (al : allocs) (channel dst size : Z) : prog unit :=
  match fuel with
  | O => stop NoFuel
  | S fuel =>
      i ← call al (ChannelRead channel dst size);
      if negb (i.1 =? K_OK) then ChannelReadBlocking fuel al channel dst size else mret tt
  end.

(** * Lemmas *)
Lemma prog_bind_Ok {A B} (m : prog A) (k : A → prog B) r s a r' s' :
  m r s = Ok (inl (a, r'), s') → (m ≫= k) r s = k a r' s'.
Proof. intros H. unfold mbind, prog_bind. by rewrite (bind_Ok _ _ _ _ _ H). Qed.

Lemma prog_bind_switch {A B} (m : prog A) (k : A → prog B) r s a s' :
  m r s = Ok (inr a, s') → (m ≫= k) r s = Ok (inr a, s').
Proof. intros H. unfold mbind, prog_bind. by rewrite (bind_Ok _ _ _ _ _ H). Qed.

(** The kernel's state when a handler starts: the program's registers, interrupts off, the
    kernel's directory current. *)
Definition in_kernel (r : registers_t) (s : sys) : sys :=
  let k := kern s in
  set_old (gCurrentPageDir (mach k))
    (set_regs_ (with_int_no Interrupts.kSyscallHandler r)
      (set_kern (set_mach (set_current (gKernelPageDir (mach k)) (set_iflag false (mach k))) k) s)).

(** Back in the program. *)
Definition back (pd : Z) (s : sys) : sys :=
  with_mach (set_iflag (Z.testbit (eflags (regs s)) 9) (set_current pd (mach (kern s)))) s.

Lemma SyscallHandler_run al s f : nthZ (kSyscallHandlers al) (eax (regs s)) = Some f → SyscallHandler al s = f s.
Proof. intros H. unfold SyscallHandler. erewrite bind_Ok by done. by rewrite H. Qed.

(** The dispatch of [int $0x80]. *)
Lemma int80_handler al r s f :
  nthZ (kSyscallHandlers al) (eax r) = Some f →
  int80 al r s =
    match f (in_kernel r s) with
    | Ok (Returned, s') => Ok (Returned, with_mach (set_current (gCurrentPageDir (mach (kern s))) (mach (kern s'))) s')
    | Ok (SwitchTask a, s') => Ok (SwitchTask a, s')
    | Fault e => Fault e
    end.
Proof.
  intros Hf. unfold int80. erewrite bind_Ok by done. erewrite bind_Ok by (by apply in_mach_Ok).
  unfold isr_handler. erewrite bind_Ok by done. erewrite bind_Ok by done. erewrite bind_Ok by (by apply in_mach_read).
  erewrite bind_Ok by done. unfold ExceptionDispatcher. erewrite bind_Ok by (by apply in_mach_read). erewrite bind_Ok by done.
  erewrite bind_Ok by (by apply in_mach_read). erewrite (bind_Ok _ _ _ tt (in_kernel r s)) by reflexivity. erewrite bind_Ok by done.
  change (int_no (regs (in_kernel r s))) with Interrupts.kSyscallHandler.
  change (Interrupts.kSyscallHandler =? Interrupts.IRQ0) with false. rewrite Z.eqb_refl. cbv iota.
  pose proof (SyscallHandler_run al (in_kernel r s) f Hf) as Hrun.
  destruct (f (in_kernel r s)) as [[[|a] s']|e] eqn:E.
  - rewrite (bind_Ok _ _ _ _ _ Hrun). assert (Ho : gOldPageDir s' = gCurrentPageDir (mach (kern s))).
    { refine ((_ : keeps_old f) _ _ _ E). apply (keeps_handler al). apply nthZ_Some in Hf as [_ Hf]. by eapply list_elem_of_lookup_2. }
    erewrite bind_Ok by done. rewrite Ho. by erewrite bind_Ok by (by apply in_mach_Ok).
  - by rewrite (bind_Ok _ _ _ _ _ Hrun).
  - by apply bind_Fault.
Qed.

(** What a stub's call is, in terms of the handler that the kernel's table has for it. *)
Lemma call_handler {A} al (st : stub A) r s (f : M sys outcome) :
  nthZ (kSyscallHandlers al) (eax (args st r)) = Some f →
  call al st r s =
    match f (in_kernel (args st r) s) with
    | Ok (Returned, s') => Ok (inl (results st (regs s'), regs s'), back (gCurrentPageDir (mach (kern s))) s')
    | Ok (SwitchTask a, s') => Ok (inr a, with_mach (set_iflag (Z.testbit (eflags a) 9) (mach (kern s'))) s')
    | Fault e => Fault e
    end.
Proof.
  intros Hf. unfold call. pose proof (int80_handler al _ s f Hf) as H.
  destruct (f (in_kernel (args st r) s)) as [[[|a] s']|e]; [| |by apply bind_Fault].
  - rewrite (bind_Ok _ _ _ _ _ H). erewrite bind_Ok by done. by erewrite bind_Ok by (by apply in_mach_Ok).
  - rewrite (bind_Ok _ _ _ _ _ H). by erewrite bind_Ok by (by apply in_mach_Ok).
Qed.

(** ** Looking through the queue *)
Lemma is_running_Ok k l t : ∀ fuel n x,
  LinkedList.chain (nodes k) n (x :: l) → (length (x :: l) ≤ fuel)%nat →
  is_running fuel n t k = Ok (bool_decide (t ∈ (x :: l).*2), k).
Proof.
  induction l as [|y l IH]; intros fuel n x Hc Hf; (destruct fuel as [|fuel]; [simpl in Hf; lia|]); cbn [is_running];
    destruct (chain_head _ _ _ _ Hc) as (Hg & Hnx & Hc' & _ & _); rewrite (bind_Ok _ _ _ _ _ Hg);
    destruct (Z.eqb_spec x.2 t) as [E|Hne].
  - rewrite bool_decide_true by (rewrite <- E; by left). done.
  - rewrite (bind_Ok _ _ _ _ _ Hnx). rewrite bool_decide_false; [done|]. cbn. rewrite list_elem_of_singleton. congruence.
  - rewrite bool_decide_true by (rewrite <- E; by left). done.
  - rewrite (bind_Ok _ _ _ _ _ Hnx). pose proof (chain_head _ _ _ _ Hc') as (_ & _ & _ & H0 & _).
    rewrite LinkedList.tobool_ne by done. rewrite (IH fuel _ y Hc') by (simpl in *; lia). do 2 f_equal.
    apply bool_decide_ext. split; [intros H; by right|]. intros [->|H]%elem_of_cons; [done|exact H].
Qed.

(** A handle is valid when its task is in the queue. *)
Lemma IsRunningTask_Ok k x l t : queue k (x :: l) → IsRunningTask t k = Ok (bool_decide (t ∈ (x :: l).*2), k).
Proof.
  intros Hq. pose proof Hq as [Hc _]. pose proof (LinkedList.chain_fuel _ _ _ Hq) as Hf.
  destruct (chain_head _ _ _ _ Hc) as (_ & _ & _ & H0 & _). unfold IsRunningTask. erewrite bind_Ok by done.
  rewrite LinkedList.tobool_ne by done. erewrite bind_Ok by done. erewrite bind_Ok by done. apply is_running_Ok; [done|].
  unfold queue_fuel. simpl in *. lia.
Qed.

(** The tasks that [this] created, in the order of the queue. *)
Definition is_child (k : kernel) (this t : Z) : bool :=
  match tasks k !! t with Some x => parent_ x =? this | None => false end.
Definition children_of (k : kernel) (this : Z) (l : list (Z * Z)) : list Z := filter (λ t, is_child k this t = true) l.*2.

Lemma iterate_children k this l : ∀ fuel n x acc,
  LinkedList.chain (nodes k) n (x :: l) → Forall (alive k) (x :: l).*2 → (length (x :: l) ≤ fuel)%nat →
  iterate_tasks fuel n (λ t y acc, if parent_ y =? this then acc ++ [t] else acc) acc k = Ok (acc ++ children_of k this (x :: l), k).
Proof.
  induction l as [|y l IH]; intros fuel n x acc Hc Hal Hf; (destruct fuel as [|fuel]; [simpl in Hf; lia|]); cbn [iterate_tasks];
    destruct (chain_head _ _ _ _ Hc) as (Hg & Hnx & Hc' & _ & _); rewrite (bind_Ok _ _ _ _ _ Hg);
    apply Forall_cons in Hal as [[z Hz] Hal]; rewrite (bind_Ok _ _ _ _ _ (get_task_Ok _ _ _ Hz)), (bind_Ok _ _ _ _ _ Hnx);
    assert (Ez : is_child k this x.2 = (parent_ z =? this)) by (unfold is_child; by rewrite Hz);
    unfold children_of; rewrite fmap_cons, filter_cons.
  - change (tobool (LinkedList.first [])) with false. cbv iota. unfold mret, M_ret. do 2 f_equal.
    destruct (parent_ z =? this); [by rewrite decide_True|rewrite decide_False by (by rewrite Ez)].
    cbn. by rewrite app_nil_r.
  - pose proof (chain_head _ _ _ _ Hc') as (_ & _ & _ & H0 & _). rewrite LinkedList.tobool_ne by done.
    rewrite (IH fuel _ y _ Hc' Hal) by (simpl in *; lia). do 2 f_equal. unfold children_of.
    destruct (parent_ z =? this); [rewrite decide_True by done|by rewrite decide_False by (by rewrite Ez)].
    by rewrite <- app_assoc.
Qed.

Lemma getChildren_Ok k x l this : queue k (x :: l) → Forall (alive k) (x :: l).*2 → getChildren this k = Ok (children_of k this (x :: l), k).
Proof.
  intros Hq Hal. pose proof Hq as [Hc _]. pose proof (LinkedList.chain_fuel _ _ _ Hq) as Hf.
  destruct (chain_head _ _ _ _ Hc) as (_ & _ & _ & H0 & _). unfold getChildren. erewrite bind_Ok by done.
  rewrite LinkedList.tobool_ne by done. erewrite bind_Ok by done. erewrite bind_Ok by done.
  apply (iterate_children k this l _ _ x []); [done|done|]. unfold queue_fuel. simpl in *. lia.
Qed.

(** ** Waiting for a task to end *)

(** The task [p], which called with the registers [r], waits for the end of [c]. *)
Definition awaits (k : kernel) (p c : Z) (r : registers_t) (xp : Task) : Prop :=
  tasks k !! p = Some (set_regs r (waits c kTerminated xp)) ∧
  ∃ y, tasks k !! c = Some y ∧ p ∈ listening_for_signals_ y.

(** The tasks when [p] has begun to wait for [c]. *)
Definition waiting_tasks (p c : Z) (xp yc : Task) (ts : gmap Z Task) : gmap Z Task :=
  <[c := with_listener p yc]> (<[p := waits c kTerminated xp]> ts).

Lemma with_listener_same p y : waiting_on_signals_ (with_listener p y) = waiting_on_signals_ y ∧ regs_ (with_listener p y) = regs_ y ∧
  is_user_ (with_listener p y) = is_user_ y ∧ kernel_stack_allocation_ (with_listener p y) = kernel_stack_allocation_ y.
Proof. unfold with_listener. by case_bool_decide. Qed.

Section waiting.
  Context (k : kernel) (np p c : Z) (l : list (Z * Z)) (xp yc : Task).
  Hypothesis Hinv : inv k ((np, p) :: l).
  Hypothesis Hp : tasks k !! p = Some xp.
  Hypothesis Hc : tasks k !! c = Some yc.
  Hypothesis Hpc : p ≠ c.
  Hypothesis Hk : p ≠ gKernelTask k.

Let k1 := set_tasks (waiting_tasks p c xp yc (tasks k)) k.

Lemma waiting_lookup t : tasks k1 !! t =
  if decide (t = c) then Some (with_listener p yc) else if decide (t = p) then Some (waits c kTerminated xp) else tasks k !! t.
Proof using Hpc.
  unfold k1, waiting_tasks. cbn [tasks set_tasks]. destruct (decide (t = c)) as [->|]; [apply lookup_insert_eq|].
  rewrite lookup_insert_ne by done. destruct (decide (t = p)) as [->|]; [apply lookup_insert_eq|by rewrite lookup_insert_ne].
Qed.

Lemma waiting_alive t : alive k t → alive k1 t.
Proof using Hpc. intros [x Hx]. unfold alive. rewrite waiting_lookup. destruct (decide _); [eauto|]. destruct (decide _); eauto. Qed.

Lemma waiting_runs y : y.2 ≠ p → runs k1 y = runs k y.
Proof using Hc Hpc.
  intros Hy. unfold runs. rewrite waiting_lookup. destruct (decide _) as [->|]; [|by rewrite decide_False].
  rewrite Hc. destruct (with_listener_same p yc) as [E _]. unfold canRunTask, isWaitingOnSignal, getReceivedSignal. by rewrite E.
Qed.

Lemma waiting_inv : inv k1 ((np, p) :: l).
Proof using Hinv Hp Hc Hpc Hk.
  destruct Hinv as [(Hq & Hnd & Hal & H0 & Hkt & xk & Hxk & Hw) [Hok Hdan]].
  split; [split_and!; try done|split].
  - eapply Forall_impl; [exact Hal|exact waiting_alive].
  - change (gKernelTask k1) with (gKernelTask k). rewrite waiting_lookup.
    destruct (decide _) as [E|_]; [|rewrite decide_False by done; eauto].
    eexists. split; [done|]. rewrite E in Hxk. simplify_eq. by rewrite (proj1 (with_listener_same p yc)).
  - intros t x. rewrite waiting_lookup. cbn [fmap list_fmap head snd]. intros Ht Hh. assert (t ≠ p) by congruence.
    destruct (decide _) as [->|]; [|rewrite decide_False in Ht by done; by apply (Hok t); [|cbn; congruence]].
    simplify_eq. destruct (with_listener_same p yc) as (E1 & E2 & E3 & E4). unfold task_ok. rewrite E1, E2, E3, E4.
    by apply (Hok c); [|cbn; congruence].
  - assert (Halp : alive k1 p) by (apply waiting_alive; by exists xp).
    assert (Hd : ∀ t x, tasks k !! t = Some x → Forall (alive k1) (listening_for_signals_ x)).
    { intros t x Hx. eapply Forall_impl; [by eapply Hdan|exact waiting_alive]. }
    intros t x. rewrite waiting_lookup. destruct (decide _) as [->|]; [|destruct (decide _) as [->|]].
    + intros [= <-]. apply with_listener_alive; [done|by eapply Hd].
    + intros [= <-]. exact (Hd p xp Hp).
    + by apply Hd.
Qed.
End waiting.

(** A task that waits for the end of [c] only is not changed by other signals. *)
Lemma delivered_other t sg v c r xp : (t ≠ c ∨ Z.land kTerminated sg = 0) →
  delivered t sg v (set_regs r (waits c kTerminated xp)) = set_regs r (waits c kTerminated xp).
Proof.
  intros H. unfold delivered, GetSignal. cbn [waiting_on_signals_ set_regs waits set_waiting list_find sig_task].
  destruct (decide (c = t)) as [->|]; [|done]. cbn. destruct H as [|E]; [done|]. by rewrite E.
Qed.

(** Switching to another task leaves [p] waiting. *)
Lemma running_tasks_awaits t1 x1 ts p c r xp :
  ts !! p = Some (set_regs r (waits c kTerminated xp)) → t1 ≠ p →
  running_tasks t1 x1 ts !! p = Some (set_regs r (waits c kTerminated xp)).
Proof.
  intros Hp Hne. unfold running_tasks. rewrite lookup_all_delivered, lookup_insert_ne, Hp by done. cbn [fmap option_fmap option_map].
  by case_bool_decide; [rewrite delivered_other by (by right)|].
Qed.

Lemma running_tasks_listener t1 x1 ts c y p : ts !! t1 = Some x1 → ts !! c = Some y → p ∈ listening_for_signals_ y →
  ∃ y', running_tasks t1 x1 ts !! c = Some y' ∧ p ∈ listening_for_signals_ y'.
Proof.
  intros H1 Hy Hin. destruct (tasks_evolve_running t1 x1 ts H1) as [Ha He]. destruct (Ha c) as [y' Hy']; [by exists y|].
  exists y'. split; [done|]. destruct (He c y' Hy') as (z & Hz & El & _). simplify_eq. by rewrite El.
Qed.

(** What a program needs to call [ProcessWait] for the end of [c]: it is the current task, it
    waits for nothing, and its frame is that of a user program. *)
Definition may_wait (k : kernel) (p c : Z) (r : registers_t) (xp : Task) : Prop :=
  tasks k !! p = Some xp ∧ is_user_ xp = true ∧ waiting_on_signals_ xp = [] ∧ p ≠ gKernelTask k ∧ p ≠ c ∧
  valid_regs true r = true ∧ kernel_stack_allocation_ xp ≠ 0 ∧
  u32 (kernel_stack_allocation_ xp + kDefaultKernStackSize) mod 4 = 0.

Lemma ProcessWait_blocks s np p c skip n1 t1 rest xp :
  inv (kern s) ((np, p) :: skip ++ (n1, t1) :: rest) → Forall (λ y, runs (kern s) y = false) skip → runs (kern s) (n1, t1) = true →
  may_wait (kern s) p c (regs s) xp → c ∈ (skip ++ (n1, t1) :: rest).*2 → ebx (regs s) = c → ecx (regs s) = kTerminated →
  ∃ a s', SYS_ProcessWait s = Ok (SwitchTask a, s') ∧
    inv (kern s') ((n1, t1) :: rest ++ (np, p) :: skip) ∧ awaits (kern s') p c (with_eax K_OK (regs s)) xp ∧
    gCallbacks s' = gCallbacks s.
Proof.
  intros Hinv Hs Hr (Hp & Hu & Hw & Hk & Hpc & Hv & Hst0 & Hst) Hin Hb Hcx.
  pose proof Hinv as [(Hq & Hnd & Hal & _) _].
  assert (∃ yc, tasks (kern s) !! c = Some yc) as [yc Hc].
  { cbn [fmap list_fmap snd] in Hal. apply Forall_cons in Hal as [_ Hal]. rewrite Forall_forall in Hal. exact (Hal c Hin). }
  assert (Hnp : p ∉ (skip ++ (n1, t1) :: rest).*2) by (cbn [fmap list_fmap snd] in Hnd; by apply NoDup_cons in Hnd as [? _]).
  set (k1 := set_tasks (waiting_tasks p c xp yc (tasks (kern s))) (kern s)).
  pose proof (waiting_inv (kern s) np p c _ xp yc Hinv Hp Hc Hpc Hk : inv k1 _) as Hinv1.
  set (r := with_eax K_OK (regs s)).
  assert (Hp1 : tasks k1 !! p = Some (waits c kTerminated xp)).
  { unfold k1. rewrite waiting_lookup by done. by rewrite decide_False, decide_True. }
  assert (Hpre : tick_pre k1 p (waits c kTerminated xp) r).
  { split; [exact Hp1|]. split; [|by left]. split; [cbn; rewrite Hu; exact Hv|]. by split_and!. }
  assert (Hs1 : Forall (λ y, runs k1 y = false) skip).
  { rewrite Forall_forall in Hs |- *. intros y Hy. unfold k1. rewrite (waiting_runs (kern s) p c xp yc Hc Hpc); [by apply Hs|].
    intros E. apply Hnp. rewrite fmap_app. apply elem_of_app. left. rewrite <- E. by apply list_elem_of_fmap_2. }
  assert (Hne1 : t1 ≠ p) by (intros ->; apply Hnp; rewrite fmap_app; apply elem_of_app; right; by left).
  assert (Hr1 : runs k1 (n1, t1) = true) by (unfold k1; by rewrite (waiting_runs (kern s) p c xp yc Hc Hpc)).
  assert (∃ x1, tasks k1 !! t1 = Some x1) as [x1 Hx1] by (unfold runs in Hr1; cbn [snd] in Hr1; destruct (tasks k1 !! t1); [eauto|done]).
  destruct (Schedule_switch 0 k1 np p skip n1 t1 rest _ x1 r Hinv1 Hs1 Hr1 Hpre Hx1) as (m & Hsch & Hl).
  eexists _, _. split; [|split].
  - unfold SYS_ProcessWait. erewrite bind_Ok by done. rewrite Hcx, Hb. cbn [tobool kTerminated Z.eqb negb].
    erewrite bind_Ok by (apply on_kern_read; by apply IsRunningTask_Ok). rewrite bool_decide_true by (by right). cbn [negb].
    erewrite bind_Ok by (by eapply current_Ok).
    erewrite bind_Ok by (apply on_kern_Ok; by apply (WaitOn_Ok _ p c _ xp yc)). erewrite bind_Ok by done. erewrite bind_Ok by done.
    unfold no_return. erewrite bind_Ok by (apply on_kern_Ok; exact Hsch). done.
  - exact (switched_inv k1 np p skip n1 t1 rest _ x1 r m Hinv1 Hpre Hx1 Hl).
  - split; [|done]. cbn [kern set_kern]. split.
    + apply running_tasks_awaits; [apply lookup_insert_eq|done].
    + apply (running_tasks_listener t1 x1 _ c (with_listener p yc)); [by rewrite lookup_insert_ne| |apply with_listener_elem].
      rewrite lookup_insert_ne by done. unfold k1. rewrite waiting_lookup by done. by rewrite decide_True.
Qed.

(** What the exit of the current task [c] needs (see [Schedule_exit]). *)
Definition may_exit (k : kernel) (c : Z) (xc : Task) (cs : list Channel.Channel) : Prop :=
  tasks k !! c = Some xc ∧ c ≠ gKernelTask k ∧ kernel_stack_allocation_ xc ≠ 0 ∧ delete_pre k xc cs ∧
  ∀ t x, tasks k !! t = Some x → t ≠ c → c ∉ listening_for_signals_ x.

(** The waiting task once [c] has ended with [v]: it can run, and continues with the signal and
    the value in its registers. *)
Definition woken (c v : Z) (r : registers_t) (xp : Task) : Task :=
  set_regs r (set_waiting [mkSignals c kTerminated v kTerminated] xp).

Lemma woken_runs c v r xp : canRunTask (woken c v r xp) = true ∧ regs_ (resumed (woken c v r xp)) = set_signal_regs kTerminated v r.
Proof. done. Qed.

Lemma ProcessKill_wakes s nc c skip n1 t1 rest xc cs p r xp :
  inv (kern s) ((nc, c) :: skip ++ (n1, t1) :: rest) → Forall (λ y, runs (kern s) y = false) skip → runs (kern s) (n1, t1) = true →
  may_exit (kern s) c xc cs → awaits (kern s) p c r xp → p ≠ c →
  ∃ a s', SYS_ProcessKill s = Ok (SwitchTask a, s') ∧ inv (kern s') ((n1, t1) :: rest ++ skip) ∧
    tasks (kern s') !! p = Some (woken c (ebx (regs s)) r xp) ∧ tasks (kern s') !! c = None ∧ gCallbacks s' = gCallbacks s.
Proof.
  intros Hinv Hs Hr (Hc & Hk & Hst & Hdel & Hlis) [Hp (y & Hy & Hin)] Hpc. simplify_eq.
  destruct (Schedule_exit_Ok (ebx (regs s)) (kern s) nc c skip n1 t1 rest xc cs) as (kd & x1 & Et & Hx1 & _ & _ & _ & Hrun & Hinv'); try done.
  eexists _, _. split; [|split].
  - unfold SYS_ProcessKill, no_return. erewrite bind_Ok by done. erewrite bind_Ok by (apply on_kern_Ok; exact Hrun). done.
  - exact Hinv'.
  - assert (Hne : t1 ≠ p) by (intros ->; unfold runs in Hr; cbn [snd] in Hr; by rewrite Hp in Hr).
    assert (Hc0 : tasks kd !! c = None) by (rewrite Et; apply lookup_delete_eq).
    assert (Hne' : t1 ≠ c) by (intros ->; congruence). cbn [kern set_kern tasks switched set_tasks]. split; [|split; [|done]].
    2:{ unfold running_tasks. by rewrite lookup_all_delivered, lookup_insert_ne, Hc0. }
    unfold running_tasks. rewrite lookup_all_delivered, lookup_insert_ne, Et, lookup_delete_ne, lookup_all_delivered, Hp by congruence.
    cbn [fmap option_fmap option_map]. rewrite (bool_decide_true (p ∈ listening_for_signals_ xc)) by done.
    assert (Ed : delivered c kTerminated (ebx (regs s)) (set_regs r (waits c kTerminated xp)) = woken c (ebx (regs s)) r xp).
    { exact (delivered_waits c kTerminated kTerminated (ebx (regs s)) (set_regs r xp)). }
    rewrite Ed. case_bool_decide; [|done]. f_equal. unfold delivered, GetSignal, woken. cbn [waiting_on_signals_ set_regs set_waiting list_find sig_task].
    by rewrite decide_False.
Qed.

(** ** Timer interrupts *)

(** The processor interrupts the current task. *)
Definition at_interrupt (r : registers_t) (s : sys) : sys :=
  set_regs_ r (with_mach (set_iflag false (mach (kern s))) s).

(** The timer runs the scheduler and nothing else. *)
Definition timer_on (s : sys) : Prop :=
  ∃ cbs, gCallbacks s = Some scheduler_callback :: cbs ∧ Forall (λ c, c = None) cbs.

Lemma tick_switch al r s n0 t0 skip n1 t1 rest x0 x1 :
  timer_on s → inv (kern s) ((n0, t0) :: skip ++ (n1, t1) :: rest) → Forall (λ y, runs (kern s) y = false) skip →
  runs (kern s) (n1, t1) = true → tasks (kern s) !! t1 = Some x1 →
  int_no r = Interrupts.IRQ0 → tick_pre (entered (kern (at_interrupt r s))) t0 x0 r →
  ∃ s', isr_handler al (at_interrupt r s) = Ok (SwitchTask (enable_interrupts (regs_ (resumed x1))), s') ∧
    inv (kern s') ((n1, t1) :: rest ++ (n0, t0) :: skip) ∧ gCallbacks s' = gCallbacks s ∧
    gCurrentPageDir (mach (kern s')) = pd_ x1 ∧
    tasks (kern s') = running_tasks t1 x1 (<[t0 := set_regs r x0]> (tasks (kern s))).
Proof.
  intros (cbs & Hcb & Hn) Hinv Hs Hr Hx1 Hno Hpre. set (k := entered (kern (at_interrupt r s))) in *.
  destruct (Schedule_switch 0 k n0 t0 skip n1 t1 rest x0 x1 r Hinv Hs Hr Hpre Hx1) as (m & Hsch & Hl).
  rewrite (timer_dispatch al (at_interrupt r s) cbs Hno eq_refl Hcb Hn). change (regs (at_interrupt r s)) with r. fold k. rewrite Hsch.
  eexists. split; [reflexivity|]. split; [|done]. exact (switched_inv k n0 t0 skip n1 t1 rest x0 x1 r m Hinv Hpre Hx1 Hl).
Qed.

(** Some timer interrupts, each of which switches to a task other than [p]; the lists are the
    queue before and behind. *)
Inductive ticks (p : Z) : sys → list (Z * Z) → sys → list (Z * Z) → Prop :=
  | ticks_refl s l : ticks p s l s l
  | ticks_step s l s1 n0 t0 skip n1 t1 rest x0 al r a s2 :
      ticks p s l s1 ((n0, t0) :: skip ++ (n1, t1) :: rest) →
      Forall (λ y, runs (kern s1) y = false) skip → runs (kern s1) (n1, t1) = true → t1 ≠ p →
      int_no r = Interrupts.IRQ0 → tick_pre (entered (kern (at_interrupt r s1))) t0 x0 r →
      isr_handler al (at_interrupt r s1) = Ok (SwitchTask a, s2) →
      ticks p s l s2 ((n1, t1) :: rest ++ (n0, t0) :: skip).

(** What timer interrupts keep of a task that is not current: everything but the signals. *)
Section ticks.
  Context (p : Z) (P : gmap Z Task → Prop).
  Hypothesis HP : ∀ t0 x0 r t1 x1 ts, ts !! t0 = Some x0 → ts !! t1 = Some x1 → t0 ≠ p → t1 ≠ p → P ts →
    P (running_tasks t1 x1 (<[t0 := set_regs r x0]> ts)).

Lemma ticks_keep s l s' l' : ticks p s l s' l' → timer_on s → inv (kern s) l → head l.*2 ≠ Some p → P (tasks (kern s)) →
  timer_on s' ∧ inv (kern s') l' ∧ head l'.*2 ≠ Some p ∧ P (tasks (kern s')).
Proof using HP.
  intros Ht Hon Hinv Hh HPs. induction Ht as [s l|s l s1 n0 t0 skip n1 t1 rest x0 al r a s2 _ IH Hs Hr Hne Hno Hpre Hrun]; [done|].
  destruct (IH Hon Hinv Hh HPs) as (Hon1 & Hinv1 & Hh1 & HP1).
  assert (∃ x1, tasks (kern s1) !! t1 = Some x1) as [x1 Hx1].
  { unfold runs in Hr. cbn [snd] in Hr. destruct (tasks (kern s1) !! t1); [eauto|done]. }
  destruct (tick_switch al r s1 n0 t0 skip n1 t1 rest x0 x1 Hon1 Hinv1 Hs Hr Hx1 Hno Hpre) as (s' & Hrun' & Hinv2 & Hcb & _ & Ht).
  rewrite Hrun in Hrun'. injection Hrun' as -> ->. split; [by unfold timer_on; rewrite Hcb|]. split; [exact Hinv2|]. split; [cbn; congruence|].
  rewrite Ht. apply HP; [exact (proj1 Hpre)|exact Hx1|cbn in Hh1; congruence|done|done].
Qed.
End ticks.

Lemma awaits_kept p c r xp t0 x0 r0 t1 x1 (ts : gmap Z Task) :
  ts !! t0 = Some x0 → ts !! t1 = Some x1 → t0 ≠ p → t1 ≠ p →
  (ts !! p = Some (set_regs r (waits c kTerminated xp)) ∧ ∃ y, ts !! c = Some y ∧ p ∈ listening_for_signals_ y) →
  (running_tasks t1 x1 (<[t0 := set_regs r0 x0]> ts) !! p = Some (set_regs r (waits c kTerminated xp)) ∧
   ∃ y, running_tasks t1 x1 (<[t0 := set_regs r0 x0]> ts) !! c = Some y ∧ p ∈ listening_for_signals_ y).
Proof.
  intros H0 H1 Hn0 Hn1 [Hp (y & Hy & Hin)]. split; [apply running_tasks_awaits; [by rewrite lookup_insert_ne|done]|].
  unfold running_tasks.
  assert (∃ z, <[t1 := resumed x1]> (<[t0 := set_regs r0 x0]> ts) !! c = Some z ∧ p ∈ listening_for_signals_ z) as (z & Hz & Hinz).
  { destruct (decide (c = t1)) as [->|]; [|rewrite lookup_insert_ne by done; destruct (decide (c = t0)) as [->|]].
    - rewrite lookup_insert_eq. eexists. split; [done|]. simplify_eq. by rewrite (proj1 (resumed_evolves x1)).
    - rewrite lookup_insert_eq. eexists. split; [done|]. by simplify_eq.
    - rewrite lookup_insert_ne by done. eauto. }
  rewrite lookup_all_delivered, Hz. cbn [fmap option_fmap option_map]. eexists. split; [done|].
  case_bool_decide; [|done]. by rewrite (proj1 (same_evolves _ _ (delivered_same t1 kRunning 0 z))).
Qed.

Lemma woken_kept p c v r xp t0 x0 r0 t1 x1 (ts : gmap Z Task) :
  ts !! t0 = Some x0 → ts !! t1 = Some x1 → t0 ≠ p → t1 ≠ p →
  (ts !! p = Some (woken c v r xp) ∧ ts !! c = None) →
  (running_tasks t1 x1 (<[t0 := set_regs r0 x0]> ts) !! p = Some (woken c v r xp) ∧
   running_tasks t1 x1 (<[t0 := set_regs r0 x0]> ts) !! c = None).
Proof.
  intros H0 H1 Hn0 Hn1 [Hp Hc]. assert (t0 ≠ c) by congruence. assert (t1 ≠ c) by congruence. unfold running_tasks.
  rewrite !lookup_all_delivered, !lookup_insert_ne, Hp, Hc by done. split; [|done]. cbn [fmap option_fmap option_map].
  case_bool_decide; [|done]. f_equal. unfold delivered, GetSignal, woken. cbn [waiting_on_signals_ set_regs set_waiting list_find sig_task].
  by rewrite decide_False.
Qed.

(** From the exit of [c] to the interrupt that gets back to the task waiting for it. *)
Lemma exit_reaches_waiter s2 nc c skip2 n2 t2 rest2 xc cs al2 rc v np p r xp :
  timer_on s2 → inv (kern s2) ((nc, c) :: skip2 ++ (n2, t2) :: rest2) →
  Forall (λ y, runs (kern s2) y = false) skip2 → runs (kern s2) (n2, t2) = true → may_exit (kern s2) c xc cs →
  awaits (kern s2) p c r xp → p ≠ c →
  ∃ a2 s3, call al2 (ProcessKill v) rc s2 = Ok (inr a2, s3) ∧
  ∀ s4 n4 t4 skip4 rest4 x4 al4 r4,
    ticks p s3 ((n2, t2) :: rest2 ++ skip2) s4 ((n4, t4) :: skip4 ++ (np, p) :: rest4) →
    Forall (λ y, runs (kern s4) y = false) skip4 → int_no r4 = Interrupts.IRQ0 →
    tick_pre (entered (kern (at_interrupt r4 s4))) t4 x4 r4 →
    ∃ s5, isr_handler al4 (at_interrupt r4 s4) = Ok (SwitchTask (enable_interrupts (set_signal_regs kTerminated v r)), s5) ∧
      gCurrentPageDir (mach (kern s5)) = pd_ xp.
Proof.
  intros Hon2 Hinv2 Hs2 Hr2 Hx2 Hw2 Hpc.
  destruct (ProcessKill_wakes (in_kernel (args (ProcessKill v) rc) s2) nc c skip2 n2 t2 rest2 xc cs p r xp)
    as (a2 & s3 & Hrun3 & Hinv3 & Hwok & Hgone & Hcb3); [exact Hinv2|exact Hs2|exact Hr2|exact Hx2|exact Hw2|exact Hpc|].
  eexists _, _. split; [rewrite (call_handler al2 (ProcessKill v) rc s2 SYS_ProcessKill) by done; rewrite Hrun3; reflexivity|].
  intros s4 n4 t4 skip4 rest4 x4 al4 r4 Ht4 Hs4 Hno4 Hpre4.
  assert (Ht2 : t2 ≠ p) by (intros ->; unfold runs in Hr2; cbn [snd] in Hr2; by rewrite (proj1 Hw2) in Hr2).
  destruct (ticks_keep p (λ ts, ts !! p = Some (woken c v r xp) ∧ ts !! c = None)) with (2 := Ht4) as (Hon4 & Hinv4 & _ & Hw4 & _).
  { intros t0 x0 r0 t5 x5 ts. apply woken_kept. }
  { unfold timer_on. cbn. rewrite Hcb3. exact Hon2. } { exact Hinv3. } { cbn. congruence. } { by split. }
  assert (Hr4 : runs (kern s4) (np, p) = true) by (unfold runs; cbn [snd]; by rewrite Hw4).
  destruct (tick_switch al4 r4 s4 n4 t4 skip4 np p rest4 x4 _ Hon4 Hinv4 Hs4 Hr4 Hw4 Hno4 Hpre4) as (s5 & Hrun5 & _ & _ & Hpd & _).
  exists s5. split; [exact Hrun5|exact Hpd].
Qed.

(** ** From the wait to the exit value *)
Section exit_value.
  (** The program [p], with the registers [r], is about to wait for the end of [c], a task of the
      queue; the first of the other tasks that can run is [t1]. *)
  Context (al : allocs) (s : sys) (np p c : Z) (skip : list (Z * Z)) (n1 t1 : Z) (rest : list (Z * Z)) (xp : Task) (r : registers_t).
  Hypothesis Htimer : timer_on s.
  Hypothesis Hinv : inv (kern s) ((np, p) :: skip ++ (n1, t1) :: rest).
  Hypothesis Hskip : Forall (λ y, runs (kern s) y = false) skip.
  Hypothesis Hruns : runs (kern s) (n1, t1) = true.
  Hypothesis Hp : may_wait (kern s) p c r xp.
  Hypothesis Hc : c ∈ (skip ++ (n1, t1) :: rest).*2.

(** Waiting for a task gives its exit value.  The stub [ProcessWait] blocks the program
    and another task runs.  After any number of timer interrupts, when [c] is current and exits
    with [v] through the stub [ProcessKill], and after any number of further ones, the timer
    interrupt that gets to [p] continues behind its [int $0x80], in its own address space, with
    registers from which the stub reads [K_OK], [TASK_TERMINATED] and [v]. *)
Lemma ProcessWait_exit_value :
  ∃ a s1, call al (ProcessWait c TASK_TERMINATED) r s = Ok (inr a, s1) ∧
  ∀ s2 nc skip2 n2 t2 rest2 xc cs al2 rc v,
    ticks p s1 ((n1, t1) :: rest ++ (np, p) :: skip) s2 ((nc, c) :: skip2 ++ (n2, t2) :: rest2) →
    Forall (λ y, runs (kern s2) y = false) skip2 → runs (kern s2) (n2, t2) = true → may_exit (kern s2) c xc cs →
    ∃ a2 s3, call al2 (ProcessKill v) rc s2 = Ok (inr a2, s3) ∧
    ∀ s4 n4 t4 skip4 rest4 x4 al4 r4,
      ticks p s3 ((n2, t2) :: rest2 ++ skip2) s4 ((n4, t4) :: skip4 ++ (np, p) :: rest4) →
      Forall (λ y, runs (kern s4) y = false) skip4 → int_no r4 = Interrupts.IRQ0 →
      tick_pre (entered (kern (at_interrupt r4 s4))) t4 x4 r4 →
      ∃ a5 s5, isr_handler al4 (at_interrupt r4 s4) = Ok (SwitchTask a5, s5) ∧
        results (ProcessWait c TASK_TERMINATED) a5 = (K_OK, TASK_TERMINATED, v) ∧
        eip a5 = eip r ∧ useresp a5 = useresp r ∧ gCurrentPageDir (mach (kern s5)) = pd_ xp.
Proof using Htimer Hinv Hskip Hruns Hp Hc.
  set (st := ProcessWait c TASK_TERMINATED). pose proof Hp as (_ & _ & _ & _ & Hpc & _).
  destruct (ProcessWait_blocks (in_kernel (args st r) s) np p c skip n1 t1 rest xp) as (a & s1 & Hrun & Hinv1 & Hw & Hcb1);
    [exact Hinv|exact Hskip|exact Hruns|exact Hp|exact Hc|done|done|].
  eexists _, _. split; [rewrite (call_handler al st r s SYS_ProcessWait) by done; rewrite Hrun; reflexivity|].
  intros s2 nc skip2 n2 t2 rest2 xc cs al2 rc v Ht Hs2 Hr2 Hx2.
  assert (Ht1 : t1 ≠ p) by (intros ->; destruct Hw as [Hw _]; destruct Hinv as [(_ & Hnd & _) _]; cbn in Hnd;
    apply NoDup_cons in Hnd as [Hnd _]; apply Hnd; rewrite fmap_app; apply elem_of_app; right; by left).
  set (r' := with_eax K_OK (regs (in_kernel (args st r) s))) in *.
  destruct (ticks_keep p (λ ts, ts !! p = Some (set_regs r' (waits c kTerminated xp)) ∧
      ∃ y, ts !! c = Some y ∧ p ∈ listening_for_signals_ y)) with (2 := Ht) as (Hon2 & Hinv2 & _ & Hw2).
  { intros t0 x0 r0 t2' x2 ts. apply awaits_kept. }
  { unfold timer_on. cbn. rewrite Hcb1. exact Htimer. } { exact Hinv1. } { cbn. congruence. } { exact Hw. }
  destruct (exit_reaches_waiter s2 nc c skip2 n2 t2 rest2 xc cs al2 rc v np p r' xp Hon2 Hinv2 Hs2 Hr2 Hx2 Hw2 Hpc) as (a2 & s3 & Hrun3 & Hthen).
  exists a2, s3. split; [exact Hrun3|]. intros s4 n4 t4 skip4 rest4 x4 al4 r4 Ht4 Hs4 Hno4 Hpre4.
  destruct (Hthen s4 n4 t4 skip4 rest4 x4 al4 r4 Ht4 Hs4 Hno4 Hpre4) as (s5 & Hrun5 & Hpd).
  eexists _, s5. split; [exact Hrun5|]. split; [done|]. split; [done|]. split; [done|exact Hpd].
Qed.
End exit_value.

(** ** A page for a scope *)

(** The program has written to memory. *)
Definition wrote (m : gmap Z Z) (s : sys) : sys := with_mach (set_mem m (mach (kern s))) s.

(** What the current program [p] needs to allocate pages: room to record one, and the pages it
    owns marked as used, as page 0 is. *)
Definition may_alloc (k : kernel) (p : Z) (xp : Task) (pd : list Z) : Prop :=
  current k p ∧ tasks k !! p = Some xp ∧ is_user_ xp = true ∧ pds (mach k) !! pd_ xp = Some pd ∧ pd_ok pd ∧
  Pmm.wf (pmm (mach k)) ∧ owned_ok (pmm (mach k)) (owned_phys_pages_ xp) ∧ 0 ∈ owned_phys_pages_ xp ∧ Pmm.used (pmm (mach k)) 0 = true.

(** The state behind the constructor. *)
Definition page_held (s : sys) (p : Z) (xp : Task) (pd : list Z) (a q : Z) (s1 : sys) : Prop :=
  holds_page s p xp pd a q s1 ∧ mem (mach (kern s1)) = mem (mach (kern s)) ∧ current (kern s1) p ∧
  gCurrentPageDir (mach (kern s1)) = gCurrentPageDir (mach (kern s)).

Lemma PageAlloc_Ok al a0 r s p xp pd : may_alloc (kern s) p xp pd →
  (PageAlloc al a0 r s = Fault Aborted ∧
    ((∀ q, 0 ≤ q < searched_pages (pmm (mach (kern s))) → Pmm.used (pmm (mach (kern s))) q = true) ∨
     (∀ j, FREE_PAGE_LOWER_BOUND ≤ j < kNumPageDirEntries → is_Some (mapping pd j)))) ∨
  ∃ a q r1 s1, PageAlloc al a0 r s = Ok (inl (a, r1), s1) ∧ page_held s p xp pd a q s1 ∧ page_aligned a ∧
    mapping pd (a / kPageSize4M) = None ∧ Pmm.used (pmm (mach (kern s))) q = false ∧ 0 < q < kNumPageDirEntries ∧ (q ∉ owned_phys_pages_ xp) ∧
    chosen pd ALLOC_ANON 0 a.
Proof.
  intros ((n & l & Hq) & Hp & Hu & Hpd & Hok & Hwf & Hown & Hroom & H0).
  set (st := AllocPage a0 0 (Z.lor ALLOC_ANON ALLOC_CURRENT)). set (s0 := in_kernel (args st r) s).
  pose proof (call_handler al st r s SYS_AllocPage eq_refl) as Hcall. fold s0 in Hcall.
  destruct (SYS_AllocPage_Ok s0 p xp pd) as [(e & Hrun & He)|(a & q & s' & Hrun & Hall & Ha & Hm & Hf & Hr & Hni & Hch)];
    [intros _; by exists n, l|done|done|exact Hp|exact Hpd|exact Hok|exact Hwf|exact Hu|exact Hown|exact Hroom|exact H0| |];
    rewrite Hrun in Hcall.
  - left. split.
    + unfold PageAlloc. fold st. rewrite (prog_bind_Ok _ _ _ _ _ _ _ Hcall). cbn [fst].
      change (results st (regs (set_regs_ (with_eax e (regs s0)) s0))) with (e, ebx (regs s0)). cbn [fst].
      destruct He as [[-> _]|[[-> _]|[-> _]]]; reflexivity.
    + destruct He as [[_ He]|[(_ & _ & He)|(_ & Hanon & _)]]; [left; exact He|right; exact He|discriminate Hanon].
  - right. destruct Hall as (Hregs & Hpds & Hmem & Hus & Hwf' & Hts & _ & Hn & Htq & _).
    exists a, q. eexists _, _. split.
    + unfold PageAlloc. fold st. rewrite (prog_bind_Ok _ _ _ _ _ _ _ Hcall). cbn [fst snd].
      rewrite Hregs. reflexivity.
    + split; [|done]. split; [by split|]. split; [exact Hmem|]. split; [|reflexivity].
      exists n, l. unfold queue. cbn. rewrite Hn, Htq. exact Hq.
Qed.

(** C26: A [PageAlloc] object leaves no trace.  The constructor gives up only when all
    the physical pages that the kernel's search looks at are in use (those in whole bytes of the bitmap:
    up to seven more may be free), or when the program's directory is full; otherwise it returns the
    address of a page that was not mapped, behind which is a physical page that was free.
    Whatever the program has written to memory by then, the destructor gives the page back: the
    page directories, the pages in use, the task's record of its pages and the current
    directory are what they were. *)
Theorem PageAlloc_scope al al' a0 r s p xp pd : may_alloc (kern s) p xp pd →
  (PageAlloc al a0 r s = Fault Aborted ∧
    ((∀ q, 0 ≤ q < searched_pages (pmm (mach (kern s))) → Pmm.used (pmm (mach (kern s))) q = true) ∨
     (∀ j, FREE_PAGE_LOWER_BOUND ≤ j < kNumPageDirEntries → is_Some (mapping pd j)))) ∨
  ∃ a q r1 s1, PageAlloc al a0 r s = Ok (inl (a, r1), s1) ∧ page_aligned a ∧ mapping pd (a / kPageSize4M) = None ∧
    Pmm.used (pmm (mach (kern s))) q = false ∧ vtranslate (mach (kern s1)) (pd_ xp) a = Some (PageToAddr q) ∧
    ∀ m r2, ∃ r3 s3, PageAlloc_delete al' a r2 (wrote m s1) = Ok (inl (tt, r3), s3) ∧
      pds (mach (kern s3)) = pds (mach (kern s)) ∧ tasks (kern s3) = tasks (kern s) ∧ mem (mach (kern s3)) = m ∧
      gCurrentPageDir (mach (kern s3)) = gCurrentPageDir (mach (kern s)) ∧
      ∀ i, 0 ≤ i → Pmm.used (pmm (mach (kern s3))) i = Pmm.used (pmm (mach (kern s))) i.
Proof.
  intros Hmay. destruct (PageAlloc_Ok al a0 r s p xp pd Hmay)
    as [H|(a & q & r1 & s1 & Hnew & (Hheld & _ & Hcur & Hdir) & Ha & Hm & Hf & Hr & Hni & _)]; [by left|right].
  destruct Hmay as (_ & Hp & _ & Hpd & Hok & _).
  exists a, q, r1, s1. split; [exact Hnew|]. split; [exact Ha|]. split; [exact Hm|]. split; [exact Hf|]. split.
  - destruct Hheld as (Hpds & _). destruct (page_start q) as (Eq & Hal & _); [lia|].
    destruct (new_pde_spec (PageToAddr q) PG_USER) as (_ & Hpr & Hmask & _); [by rewrite Eq|done|].
    destruct Ha as [Ha32 Ham]. unfold vtranslate. rewrite Hpds, lookup_insert_eq, translate_mapping, mapping_upd by (done || by apply page_of_addr).
    rewrite Z.eqb_refl, Hpr, Hmask, Ham. cbn. f_equal. lia.
  - intros m r2. set (st := UnmapPage_ a). set (s2 := in_kernel (args st r2) (wrote m s1)).
    destruct (SYS_UnmapPage_Ok s p xp pd a q s2) as (s3 & Hrun & _ & _ & H1 & H2 & H3 & H4);
      [exact Hp|exact Hpd|exact Hok|exact Ha|exact Hm|exact Hr|exact Hf|exact Hni|exact Hheld|exact Hcur|reflexivity|].
    eexists _, _. split; [unfold PageAlloc_delete; rewrite (call_handler al' st r2 _ SYS_UnmapPage) by reflexivity; fold s2; rewrite Hrun; reflexivity|].
    split; [exact H1|]. split; [exact H2|]. split; [exact H3|]. split; [exact Hdir|exact H4].
Qed.

(** The example of Syscalls.v: task 200 allocates a page and gives it back. *)
Lemma PageAlloc_scope_witness :
  let s := example_sys zero_regs in
  ∃ a r1 s1 r3 s3, PageAlloc example_allocs 0 example_user_regs s = Ok (inl (a, r1), s1) ∧
    PageAlloc_delete example_allocs a r1 (wrote ∅ s1) = Ok (inl (tt, r3), s3) ∧ tasks (kern s3) = tasks (kern s).
Proof.
  intros s. destruct example_sys_owned as (Hwf & Hown & H0 & H6).
  destruct (PageAlloc_scope example_allocs example_allocs 0 example_user_regs s 200 example_200 example_user_pd)
    as [(H & _)|(a & q & r1 & s1 & H & _ & _ & _ & _ & Hdel)].
  - split; [exists 20, [(30, 300); (10, 100)]; apply (example_inv [])|]. split; [reflexivity|]. split; [reflexivity|].
    split; [reflexivity|]. split; [by apply example_pd_ok|]. split; [exact Hwf|]. split; [exact Hown|].
    split; [apply (bool_decide_unpack _); by vm_compute|exact H0].
  - exfalso. assert (E : match PageAlloc example_allocs 0 example_user_regs s with Ok _ => true | Fault _ => false end = true)
      by (vm_compute; reflexivity). rewrite H in E. discriminate E.
  - destruct (Hdel ∅ r1) as (r3 & s3 & Hd & _ & Ht & _). exists a, r1, s1, r3, s3. split; [exact H|]. split; [exact Hd|exact Ht].
Defined.

End UserSyscalls.
