(* ===== verification/Wait.v ===== *)
(** [wait] of libc/wait.cpp: a program waits for the first of its children and gets its exit
    value.

    The program makes its system calls through the stubs (UserSyscalls.v) and reads what the
    kernel copied to its memory through its own page directory.  The addresses of its local
    variable and of the array that it allocates are arguments. *)
From S2P Require Import Prelude KernelH Pmm Paging Channel LinkedList Gdt Scheduler Interrupts Syscalls Boot KernelMain KernelTypes UserSyscalls.
Import Pmm.Pmm Paging.Paging Scheduler.Scheduler Syscalls.Syscalls KernelMain.KernelMain KernelTypes.KernelTypes UserSyscalls.UserSyscalls.

Module Wait.

(** * Loads of the program *)
Definition load_word (vaddr : Z) : prog Z := λ r, w ← in_mach (load32 vaddr); mret (inl (w, r)).

(** * wait.cpp *)

(** Up to the call that waits: the first child, if there is one.  [al1], [al2] and [al3] are
    the kernel's allocations during the three calls, [&this_handle] is [this_addr], and the
    array of the children is allocated at [buf]. *)
Definition first_child (al1 al2 al3 : allocs) (this_addr buf : Z) : prog (option Z) :=
  i1 ← call al1 (ProcessInfo 0 PROC_CURRENT this_addr 4);
  debug_assert (i1.1 =? K_OK);;
  this_handle ← load_word this_addr;
  i2 ← call al2 (ProcessInfo this_handle PROC_CHILDREN 0 0);
  if i2.1 =? K_OK then
    debug_assert (i2.2 =? 0);; mret None
  else
    debug_assert (i2.1 =? K_BUFFER_TOO_SMALL);;
    debug_assert (4 <=? i2.2);;
    debug_assert (i2.2 mod 4 =? 0);;
    i3 ← call al3 (ProcessInfo this_handle PROC_CHILDREN buf i2.2);
    debug_assert (i3.1 =? K_OK);;
    child ← load_word buf;
    mret (Some child).

(** Behind it: [*res], from the status, the signal and its value. *)
Definition wait_result (w : Z * Z * Z) : result Z :=
  let '(status, received_signal, signal_val) := w in
  assertR ((status =? K_OK) || (status =? K_INVALID_HANDLE));;
  assertR (received_signal =? TASK_TERMINATED);;
  mret signal_val.

(** [wait]: without children it returns at once. *)
Definition wait (al1 al2 al3 al4 : allocs) (this_addr buf : Z) : prog (option Z) :=
  child ← first_child al1 al2 al3 this_addr buf;
  match child with
  | None => mret None
  | Some c =>
      w ← call al4 (ProcessWait c TASK_TERMINATED);
      match wait_result w with Ok v => mret (Some v) | Fault e => stop e end
  end.

(** * Lemmas *)

(** ** Copies to the program *)
Lemma in_handler_mem s m : in_handler s → map_Forall (λ _, is_u8) m → in_handler (with_mach (set_mem m (mach (kern s))) s).
Proof. intros ((Hp & Hc & _) & Hne & H) Hm. split; [|by split]. split; [exact Hp|]. by split. Qed.

Lemma TryCopy_Ok s src bytes buff size up kp : let n := Z.of_nat (length bytes) in
  in_handler s → Forall is_u8 bytes → n ≤ size → range_at (mach (kern s)) (gOldPageDir s) buff n up →
  range_at (mach (kern s)) (gCurrentPageDir (mach (kern s))) src n kp → disjoint kp up n →
  ∃ m', TryCopy src bytes buff size s = Ok (K_OK, with_mach (set_mem m' (mach (kern s))) s) ∧ mem_bytes m' up (length bytes) = bytes.
Proof.
  intros n Hin H8 Hsize Hu Hk Hd. pose proof Hin as ((_ & _ & Hm8) & _ & cpd & j & Hcpd & _).
  set (m1 := stored (mem (mach (kern s))) kp bytes). set (s1 := with_mach (set_mem m1 (mach (kern s))) s).
  assert (Hst : in_mach (store_bytes src bytes) s = Ok (tt, s1)).
  { apply in_mach_Ok. apply (store_bytes_Ok bytes _ cpd); [done|apply Hk|]. intros _. by eapply range_current. }
  destruct (copy_to_user_Ok s1 buff src n up kp) as (m' & Hcopy & Hcp); [by apply in_handler_mem, stored_u8|exact Hu|exact Hk|exact Hd|].
  exists m'. split.
  - unfold TryCopy. fold n. destruct (Z.ltb_spec size n); [lia|]. rewrite (bind_Ok _ _ _ _ _ Hst), (bind_Ok _ _ _ _ _ Hcopy). done.
  - rewrite (copied_bytes _ _ kp up (length bytes)) by exact Hcp. by apply stored_bytes.
Qed.

(** ** The program between its calls *)

(** The program [xp] runs in its own address space; the kernel's has a page for temporary
    mappings. *)
Definition in_program (s : sys) (xp : Task) : Prop :=
  let m := mach (kern s) in
  typed s ∧ gCurrentPageDir m = pd_ xp ∧ pd_ xp ≠ gKernelPageDir m ∧
  ∃ cpd i, pds m !! gKernelPageDir m = Some cpd ∧ 0 ≤ i < kNumPageDirEntries ∧ mapping cpd i = None.

(** What a call that only copies leaves: all but memory and the interrupt flag. *)
Definition kept (s s' : sys) : Prop :=
  (∃ i m, kern s' = set_mach (set_iflag i (set_mem m (mach (kern s)))) (kern s)) ∧
  gCallbacks s' = gCallbacks s ∧ typed s'.

(** The part of the registers that no stub touches. *)
Definition same_frame (r r' : registers_t) : Prop :=
  valid_regs true r' = valid_regs true r ∧ eip r' = eip r ∧ useresp r' = useresp r.

Lemma kept_in_program s s' xp : in_program s xp → kept s s' → in_program s' xp.
Proof. intros (_ & Hc & Hne & H) ((i & m & E) & _ & Ht). split; [exact Ht|]. rewrite E. by split. Qed.

Lemma kept_trans s s1 s2 : kept s s1 → kept s1 s2 → kept s s2.
Proof.
  intros ((i & m & E) & Hc & _) ((i2 & m2 & E2) & Hc2 & Ht). split; [|split; [congruence|done]].
  exists i2, m2. rewrite E2, E. done.
Qed.

Lemma same_frame_trans r r1 r2 : same_frame r r1 → same_frame r1 r2 → same_frame r r2.
Proof. intros (? & ? & ?) (? & ? & ?). split; [congruence|]. split; congruence. Qed.

Lemma program_in_handler s xp r : in_program s xp → in_handler (in_kernel r s).
Proof.
  intros (Ht & Hc & Hne & cpd & i & Hpd & Hi & Hm). pose proof Ht as (((Hp & H8 & _) & _) & _). split; [|split].
  - split; [exact Hp|]. split; [by exists cpd|exact H8].
  - cbn. rewrite Hc. exact Hne.
  - by exists cpd, i.
Qed.

Lemma typed_back pd s : typed s → typed (back pd s).
Proof. intros H. exact H. Qed.
Lemma typed_in_kernel r s : typed s → typed (in_kernel r s).
Proof. intros H. exact H. Qed.

Section info.
  Context (al : allocs) (proc kind dst size : Z) (r : registers_t) (s : sys).
Let st := ProcessInfo proc kind dst size.
Let s0 := in_kernel (args st r) s.

Lemma info_back m status n : typed s →
  SYS_ProcessInfo al s0 = Ok (Returned, set_regs_ (with_ebx n (with_eax status (regs s0))) (with_mach (set_mem m (mach (kern s0))) s0)) →
  ∃ r' s', call al st r s = Ok (inl ((status, n), r'), s') ∧ kept s s' ∧ same_frame r r' ∧ mem (mach (kern s')) = m.
Proof.
  intros Ht Hrun. pose proof (typed_in_kernel (args st r) s Ht) as Ht0. destruct (typed_SYS_ProcessInfo al _ _ _ Ht0 Hrun) as [Ht' _].
  eexists _, _. split; [rewrite (call_handler al st r s (SYS_ProcessInfo al)) by reflexivity; fold s0; rewrite Hrun; reflexivity|].
  split; [|repeat split]. split; [eexists _, m; reflexivity|]. split; [reflexivity|]. by apply typed_back.
Qed.
End info.

(** ** The three calls *)
Lemma info_current al r s np p l xp addr up kp :
  in_program s xp → queue (kern s) ((np, p) :: l) →
  range_at (mach (kern s)) (pd_ xp) addr 4 up → range_at (mach (kern s)) (gKernelPageDir (mach (kern s))) (a_buf al) 4 kp → disjoint kp up 4 →
  ∃ r' s', call al (ProcessInfo 0 PROC_CURRENT addr 4) r s = Ok (inl ((K_OK, 4), r'), s') ∧ kept s s' ∧ same_frame r r' ∧
    mem_bytes (mem (mach (kern s'))) up 4 = bytes_of_word p.
Proof.
  intros Hin Hq Hu Hk Hd. set (s0 := in_kernel (args (ProcessInfo 0 PROC_CURRENT addr 4) r) s).
  assert (Hin0 : in_handler s0) by by eapply program_in_handler.
  destruct (TryCopy_Ok s0 (a_buf al) (bytes_of_word p) addr 4 up kp) as (m' & Hcopy & Hb); [exact Hin0|apply bytes_of_word_u8|done| |exact Hk|exact Hd|].
  { destruct Hin as (_ & Hc & _). change (gOldPageDir s0) with (gCurrentPageDir (mach (kern s))). rewrite Hc. exact Hu. }
  destruct (info_back al 0 PROC_CURRENT addr 4 r s m' K_OK 4) as (r' & s' & Hcall & Hkept & Hfr & Hm); [apply Hin| |].
  - fold s0. unfold SYS_ProcessInfo. erewrite (bind_Ok _ _ s0 (regs s0) s0) by reflexivity.
    change (ecx (regs s0)) with PROC_CURRENT. change (edx (regs s0)) with addr. change (esi (regs s0)) with 4.
    rewrite Z.eqb_refl. cbv zeta iota.
    erewrite bind_Ok by (erewrite bind_Ok by (by eapply (current_Ok s0)); reflexivity).
    cbv iota beta. rewrite (bind_Ok _ _ _ _ _ Hcopy). reflexivity.
  - exists r', s'. split; [exact Hcall|]. split; [exact Hkept|]. split; [exact Hfr|]. by rewrite Hm.
Qed.

(** The children's handles as the kernel copies them. *)
Definition handle_bytes (hs : list Z) : list Z := hs ≫= bytes_of_word.

Lemma length_handle_bytes hs : length (handle_bytes hs) = (4 * length hs)%nat.
Proof. induction hs as [|h hs IH]; [done|]. change (handle_bytes (h :: hs)) with (bytes_of_word h ++ handle_bytes hs). rewrite length_app, IH. cbn. lia. Qed.

Lemma handle_bytes_u8 hs : Forall is_u8 (handle_bytes hs).
Proof. induction hs as [|h hs IH]; [constructor|]. apply Forall_app. split; [apply bytes_of_word_u8|exact IH]. Qed.

(** The handler up to the copy. *)
Lemma info_children_start al s np p l dst size : queue (kern s) ((np, p) :: l) → Forall (alive (kern s)) ((np, p) :: l).*2 →
  ebx (regs s) = p → ecx (regs s) = PROC_CHILDREN → edx (regs s) = dst → esi (regs s) = size →
  let hs := children_of (kern s) p ((np, p) :: l) in
  SYS_ProcessInfo al s = (st ← TryCopy (a_buf al) (handle_bytes hs) dst size;
                          ret_eax st;; ret_ebx (4 * Z.of_nat (length hs));; mret Returned) s.
Proof.
  intros Hq Hal Hb Hc Hd Hs hs. unfold SYS_ProcessInfo. erewrite (bind_Ok _ _ s (regs s) s) by reflexivity. rewrite Hb, Hc, Hd, Hs.
  change (PROC_CHILDREN =? PROC_CURRENT) with false. cbv zeta iota.
  erewrite bind_Ok.
  2:{ erewrite bind_Ok by (apply on_kern_read; by apply IsRunningTask_Ok). rewrite bool_decide_true by (by left). reflexivity. }
  cbv iota beta. change (PROC_CHILDREN =? PROC_PARENT) with false. rewrite Z.eqb_refl. cbv iota.
  by erewrite bind_Ok by (apply on_kern_read; by apply getChildren_Ok).
Qed.

Section children.
  Context (al : allocs) (r : registers_t) (s : sys) (np p : Z) (l : list (Z * Z)) (xp : Task).
  Hypothesis Hin : in_program s xp.
  Hypothesis Hq : queue (kern s) ((np, p) :: l).
  Hypothesis Hal : Forall (alive (kern s)) ((np, p) :: l).*2.
Let hs := children_of (kern s) p ((np, p) :: l).
Let n := 4 * Z.of_nat (length hs).

(** Without a buffer, the size that is needed. *)
Lemma info_children_size : hs ≠ [] →
  ∃ r' s', call al (ProcessInfo p PROC_CHILDREN 0 0) r s = Ok (inl ((K_BUFFER_TOO_SMALL, n), r'), s') ∧ kept s s' ∧ same_frame r r'.
Proof using Hin Hq Hal.
  intros Hne. set (s0 := in_kernel (args (ProcessInfo p PROC_CHILDREN 0 0) r) s).
  destruct (info_back al p PROC_CHILDREN 0 0 r s (mem (mach (kern s))) K_BUFFER_TOO_SMALL n) as (r' & s' & Hcall & Hk & Hf & _); [apply Hin| |].
  - fold s0. rewrite (info_children_start al s0 np p l 0 0) by done. change (children_of (kern s0) p ((np, p) :: l)) with hs. fold n.
    erewrite bind_Ok.
    2:{ unfold TryCopy. rewrite length_handle_bytes. destruct (Z.ltb_spec 0 (Z.of_nat (4 * length hs))) as [_|H]; [reflexivity|].
        destruct hs; [done|cbn in H; lia]. }
    reflexivity.
  - exists r', s'. by split.
Qed.

(** With one, the handles. *)
Lemma info_children_copy buf up kp :
  range_at (mach (kern s)) (pd_ xp) buf n up → range_at (mach (kern s)) (gKernelPageDir (mach (kern s))) (a_buf al) n kp → disjoint kp up n →
  ∃ r' s', call al (ProcessInfo p PROC_CHILDREN buf n) r s = Ok (inl ((K_OK, n), r'), s') ∧ kept s s' ∧ same_frame r r' ∧
    mem_bytes (mem (mach (kern s'))) up (Z.to_nat n) = handle_bytes hs.
Proof using Hin Hq Hal.
  intros Hu Hk Hd. set (s0 := in_kernel (args (ProcessInfo p PROC_CHILDREN buf n) r) s).
  assert (Hin0 : in_handler s0) by by eapply program_in_handler.
  assert (En : Z.of_nat (length (handle_bytes hs)) = n) by (rewrite length_handle_bytes; unfold n; lia).
  destruct (TryCopy_Ok s0 (a_buf al) (handle_bytes hs) buf n up kp) as (m' & Hcopy & Hb);
    [exact Hin0|apply handle_bytes_u8|rewrite En; done| |rewrite En; exact Hk|rewrite En; exact Hd|].
  { destruct Hin as (_ & Hc & _). rewrite En. change (gOldPageDir s0) with (gCurrentPageDir (mach (kern s))). rewrite Hc. exact Hu. }
  destruct (info_back al p PROC_CHILDREN buf n r s m' K_OK n) as (r' & s' & Hcall & Hkept & Hfr & Hm); [apply Hin| |].
  - fold s0. rewrite (info_children_start al s0 np p l buf n) by done. change (children_of (kern s0) p ((np, p) :: l)) with hs.
    rewrite (bind_Ok _ _ _ _ _ Hcopy). reflexivity.
  - exists r', s'. split; [exact Hcall|]. split; [exact Hkept|]. split; [exact Hfr|]. rewrite Hm, <- En, Nat2Z.id. exact Hb.
Qed.
End children.

(** ** The first child *)
Lemma take_mem_bytes m k : ∀ n p, (k ≤ n)%nat → take k (mem_bytes m p n) = mem_bytes m p k.
Proof.
  induction k as [|k IH]; intros n p Hk; [done|]. destruct n as [|n]; [lia|]. cbn [mem_bytes take]. f_equal. apply IH. lia.
Qed.

Lemma range_prefix m pd v n k p : 0 ≤ k ≤ n → range_at m pd v n p → range_at m pd v k p.
Proof. intros Hk [(Hv & Hn & Hm) Ht]. split; [|exact Ht]. split; [exact Hv|]. lia. Qed.

Lemma kept_range s s' pd v n p : kept s s' → range_at (mach (kern s)) pd v n p → range_at (mach (kern s')) pd v n p.
Proof. intros ((i & m & E) & _) H. rewrite E. exact H. Qed.

Lemma load_word_Ok s xp r v p w :
  in_program s xp → range_at (mach (kern s)) (pd_ xp) v 4 p → is_u32 w → mem_bytes (mem (mach (kern s))) p 4 = bytes_of_word w →
  load_word v r s = Ok (inl (w, r), s).
Proof.
  intros (_ & Hc & _) [Hv Ht] Hw Hb. unfold vtranslate in Ht. destruct (pds (mach (kern s)) !! pd_ xp) as [cpd|] eqn:Ep; [|done].
  unfold load_word. erewrite bind_Ok; [reflexivity|]. apply in_mach_read. apply (load32_word _ cpd v p); [by rewrite Hc|exact Hv|exact Ht|exact Hw|exact Hb].
Qed.

(** A variable of the program and one of the kernel, for a copy of [n] bytes. *)
Definition copy_ok (s : sys) (xp : Task) (v buf n up kp : Z) : Prop :=
  range_at (mach (kern s)) (pd_ xp) v n up ∧ range_at (mach (kern s)) (gKernelPageDir (mach (kern s))) buf n kp ∧ disjoint kp up n.

Lemma kept_copy_ok s s' xp v buf n up kp : kept s s' → copy_ok s xp v buf n up kp → copy_ok s' xp v buf n up kp.
Proof. intros ((i & m & E) & _) H. unfold copy_ok. rewrite E. exact H. Qed.

(** The queue with [p] at its front, the tasks of which are there, and the children of [p]. *)
Definition family (s : sys) (np p : Z) (l : list (Z * Z)) (hs : list Z) : Prop :=
  queue (kern s) ((np, p) :: l) ∧ Forall (alive (kern s)) ((np, p) :: l).*2 ∧ children_of (kern s) p ((np, p) :: l) = hs.

Lemma kept_family s s' np p l hs : kept s s' → family s np p l hs → family s' np p l hs.
Proof. intros ((i & m & E) & _) H. unfold family. rewrite E. exact H. Qed.

(** The calls and loads of [first_child] in a row. *)
Lemma first_child_run al1 al2 al3 this_addr buf r s r1 s1 r2 s2 r3 s3 p c n :
  call al1 (ProcessInfo 0 PROC_CURRENT this_addr 4) r s = Ok (inl ((K_OK, 4), r1), s1) → load_word this_addr r1 s1 = Ok (inl (p, r1), s1) →
  call al2 (ProcessInfo p PROC_CHILDREN 0 0) r1 s1 = Ok (inl ((K_BUFFER_TOO_SMALL, n), r2), s2) → 4 ≤ n → n mod 4 = 0 →
  call al3 (ProcessInfo p PROC_CHILDREN buf n) r2 s2 = Ok (inl ((K_OK, n), r3), s3) → load_word buf r3 s3 = Ok (inl (c, r3), s3) →
  first_child al1 al2 al3 this_addr buf r s = Ok (inl (Some c, r3), s3).
Proof.
  intros C1 L1 C2 Hn Hm C3 L3.
  unfold first_child. rewrite (prog_bind_Ok _ _ _ _ _ _ _ C1). cbn [fst snd]. rewrite Z.eqb_refl. erewrite prog_bind_Ok by reflexivity.
  rewrite (prog_bind_Ok _ _ _ _ _ _ _ L1), (prog_bind_Ok _ _ _ _ _ _ _ C2). cbn [fst snd].
  change (K_BUFFER_TOO_SMALL =? K_OK) with false. rewrite Z.eqb_refl. cbv iota. erewrite prog_bind_Ok by reflexivity.
  rewrite (proj2 (Z.leb_le _ _) Hn). erewrite prog_bind_Ok by reflexivity. rewrite (proj2 (Z.eqb_eq _ _) Hm).
  erewrite prog_bind_Ok by reflexivity. rewrite (prog_bind_Ok _ _ _ _ _ _ _ C3). cbn [fst snd]. rewrite Z.eqb_refl.
  erewrite prog_bind_Ok by reflexivity. rewrite (prog_bind_Ok _ _ _ _ _ _ _ L3). reflexivity.
Qed.

Lemma first_child_Ok al1 al2 al3 this_addr buf r s np p l xp c hs up1 kp1 up3 kp3 :
  in_program s xp → family s np p l (c :: hs) → is_u32 p → is_u32 c →
  copy_ok s xp this_addr (a_buf al1) 4 up1 kp1 → copy_ok s xp buf (a_buf al3) (4 * Z.of_nat (length (c :: hs))) up3 kp3 →
  ∃ r' s', first_child al1 al2 al3 this_addr buf r s = Ok (inl (Some c, r'), s') ∧ kept s s' ∧ same_frame r r'.
Proof.
  intros Hin Hfam Hp Hc (Hu1 & Hk1 & Hd1) H3. set (n := 4 * Z.of_nat (length (c :: hs))) in *.
  destruct (info_current al1 r s np p l xp this_addr up1 kp1 Hin (proj1 Hfam) Hu1 Hk1 Hd1) as (r1 & s1 & C1 & K1 & F1 & B1).
  pose proof (kept_in_program _ _ _ Hin K1) as Hin1. pose proof (kept_family _ _ _ _ _ _ K1 Hfam) as (Hq1 & Hal1 & Hch1).
  pose proof (load_word_Ok s1 xp r1 this_addr up1 p Hin1 (kept_range _ _ _ _ _ _ K1 Hu1) Hp B1) as L1.
  destruct (info_children_size al2 r1 s1 np p l xp Hin1 Hq1 Hal1) as (r2 & s2 & C2 & K2 & F2); [by rewrite Hch1|].
  rewrite Hch1 in C2. fold n in C2. pose proof (kept_in_program _ _ _ Hin1 K2) as Hin2. pose proof (kept_trans _ _ _ K1 K2) as K12.
  pose proof (kept_family _ _ _ _ _ _ K12 Hfam) as (Hq2 & Hal2 & Hch2). destruct (kept_copy_ok _ _ _ _ _ _ _ _ K12 H3) as (Hu3 & Hk3 & Hd3).
  destruct (info_children_copy al3 r2 s2 np p l xp Hin2 Hq2 Hal2 buf up3 kp3) as (r3 & s3 & C3 & K3 & F3 & B3); [by rewrite Hch2..|].
  rewrite Hch2 in C3, B3. fold n in C3, B3. pose proof (kept_in_program _ _ _ Hin2 K3) as Hin3.
  assert (Hn : 4 ≤ n) by (unfold n; cbn [length]; lia).
  assert (B3' : mem_bytes (mem (mach (kern s3))) up3 4 = bytes_of_word c).
  { rewrite <- (take_mem_bytes _ 4 (Z.to_nat n)) by lia. rewrite B3. done. }
  pose proof (load_word_Ok s3 xp r3 buf up3 c Hin3 (range_prefix _ _ _ n 4 _ ltac:(lia) (kept_range _ _ _ _ _ _ K3 Hu3)) Hc B3') as L3.
  exists r3, s3. split; [|split; [exact (kept_trans _ _ _ K12 K3)|exact (same_frame_trans _ _ _ F1 (same_frame_trans _ _ _ F2 F3))]].
  apply (first_child_run al1 al2 al3 this_addr buf r s r1 s1 r2 s2 r3 s3 p c n C1 L1 C2 Hn); [|exact C3|exact L3].
  unfold n. rewrite Z.mul_comm. by apply Z.mod_mul.
Qed.

Lemma child_in_queue k p x l c hs : children_of k p (x :: l) = c :: hs → c ≠ x.2 → c ∈ l.*2.
Proof.
  intros H Hne. assert (Hc : c ∈ children_of k p (x :: l)) by (rewrite H; by left).
  apply list_elem_of_filter in Hc as [_ Hc]. cbn [fmap list_fmap] in Hc. by apply elem_of_cons in Hc as [?|?].
Qed.

(** * Properties *)
Section wait.
  (** The program [p], the current task, runs with the registers [r]; [c] is the first of its
      children in the queue, and the first of the other tasks that can run is [t1].  The
      addresses of [wait]'s variables are mapped, and so are those of the kernel's. *)
  Context (al1 al2 al3 al4 : allocs) (this_addr buf : Z) (s : sys) (np p c : Z) (hs : list Z)
    (skip : list (Z * Z)) (n1 t1 : Z) (rest : list (Z * Z)) (xp : Task) (r : registers_t) (up1 kp1 up3 kp3 : Z).
  Hypothesis Htimer : timer_on s.
  Hypothesis Hinv : inv (kern s) ((np, p) :: skip ++ (n1, t1) :: rest).
  Hypothesis Hskip : Forall (λ y, runs (kern s) y = false) skip.
  Hypothesis Hruns : runs (kern s) (n1, t1) = true.
  Hypothesis Hp : may_wait (kern s) p c r xp.
  Hypothesis Hprog : in_program s xp.
  Hypothesis Hchildren : children_of (kern s) p ((np, p) :: skip ++ (n1, t1) :: rest) = c :: hs.
  Hypothesis Hu32 : is_u32 p ∧ is_u32 c.
  Hypothesis Hthis : copy_ok s xp this_addr (a_buf al1) 4 up1 kp1.
  Hypothesis Hbuf : copy_ok s xp buf (a_buf al3) (4 * Z.of_nat (length (c :: hs))) up3 kp3.

(** C5: [wait] returns the exit value of a child.  It asks the kernel for its own handle and
    for its children, picks the first and blocks; another task runs.  After any number of timer
    interrupts, when that child is current and exits with [v], and after any number of further
    ones, the timer interrupt that gets to the program continues [wait], in its own address
    space and on its own stack, where both of its assertions hold and the value it stores is
    [v]. *)
Theorem wait_returns_exit_value :
  ∃ a s1, wait al1 al2 al3 al4 this_addr buf r s = Ok (inr a, s1) ∧
  ∀ s2 nc skip2 n2 t2 rest2 xc cs al5 rc v,
    ticks p s1 ((n1, t1) :: rest ++ (np, p) :: skip) s2 ((nc, c) :: skip2 ++ (n2, t2) :: rest2) →
    Forall (λ y, runs (kern s2) y = false) skip2 → runs (kern s2) (n2, t2) = true → may_exit (kern s2) c xc cs →
    ∃ a2 s3, call al5 (ProcessKill v) rc s2 = Ok (inr a2, s3) ∧
    ∀ s4 n4 t4 skip4 rest4 x4 al6 r4,
      ticks p s3 ((n2, t2) :: rest2 ++ skip2) s4 ((n4, t4) :: skip4 ++ (np, p) :: rest4) →
      Forall (λ y, runs (kern s4) y = false) skip4 → int_no r4 = Interrupts.IRQ0 →
      tick_pre (entered (kern (at_interrupt r4 s4))) t4 x4 r4 →
      ∃ a5 s5, isr_handler al6 (at_interrupt r4 s4) = Ok (SwitchTask a5, s5) ∧
        wait_result (results (ProcessWait c TASK_TERMINATED) a5) = Ok v ∧
        eip a5 = eip r ∧ useresp a5 = useresp r ∧ gCurrentPageDir (mach (kern s5)) = pd_ xp.
Proof using Htimer Hinv Hskip Hruns Hp Hprog Hchildren Hu32 Hthis Hbuf.
  pose proof Hp as (Hxp & Hus & Hw & Hk & Hpc & Hv & Hst). destruct Hu32 as [Hp32 Hc32].
  assert (Hfam : family s np p (skip ++ (n1, t1) :: rest) (c :: hs)).
  { destruct Hinv as [(Hq & _ & Hal & _) _]. by split. }
  destruct (first_child_Ok al1 al2 al3 this_addr buf r s np p _ xp c hs up1 kp1 up3 kp3 Hprog Hfam Hp32 Hc32 Hthis Hbuf)
    as (r' & s' & Hrun & ((i & m & E) & Hcb & _) & (Hv' & He & Hsp)).
  assert (Hin : c ∈ (skip ++ (n1, t1) :: rest).*2) by (eapply (child_in_queue _ _ (np, p)); [exact Hchildren|]; cbn; congruence).
  assert (H' : timer_on s' ∧ inv (kern s') ((np, p) :: skip ++ (n1, t1) :: rest) ∧ Forall (λ y, runs (kern s') y = false) skip ∧
    runs (kern s') (n1, t1) = true ∧ may_wait (kern s') p c r' xp).
  { split; [unfold timer_on; by rewrite Hcb|]. rewrite E. split; [exact Hinv|]. split; [exact Hskip|]. split; [exact Hruns|].
    split; [exact Hxp|]. split; [exact Hus|]. split; [exact Hw|]. split; [exact Hk|]. split; [exact Hpc|]. split; [by rewrite Hv'|exact Hst]. }
  destruct H' as (Ht1 & Hi1 & Hs1 & Hr1 & Hm1).
  destruct (ProcessWait_exit_value al4 s' np p c skip n1 t1 rest xp r' Ht1 Hi1 Hs1 Hr1 Hm1 Hin) as (a & s1 & Hcall & Hthen).
  exists a, s1. split.
  { unfold wait. rewrite (prog_bind_Ok _ _ _ _ _ _ _ Hrun). exact (prog_bind_switch _ _ _ _ _ _ Hcall). }
  intros s2 nc skip2 n2 t2 rest2 xc cs al5 rc v Ht Hs2 Hr2 Hx2.
  destruct (Hthen s2 nc skip2 n2 t2 rest2 xc cs al5 rc v Ht Hs2 Hr2 Hx2) as (a2 & s3 & Hkill & Hend).
  exists a2, s3. split; [exact Hkill|]. intros s4 n4 t4 skip4 rest4 x4 al6 r4 Ht4 Hs4 Hno Hpre.
  destruct (Hend s4 n4 t4 skip4 rest4 x4 al6 r4 Ht4 Hs4 Hno Hpre) as (a5 & s5 & Hint & Hres & He5 & Hsp5 & Hpd).
  exists a5, s5. split; [exact Hint|]. split; [by rewrite Hres|]. split; [congruence|]. split; [congruence|exact Hpd].
Qed.
End wait.

(** * An example

    The tasks of [Scheduler.example_of], none of which waits; the program 200 runs and waits
    for its child 300, which exits with 7.  The variables of [wait] are in page 3 of the
    program.  At 0x400800 is the frame of the interrupted kernel task. *)
Definition example_idle_regs : registers_t :=
  mkRegs 0x10 0x10 0x10 0x10 0 0 0 0x400800 0 0 0 0 32 0 0x100000 0x08 0x200 0 0x10.

Definition example_child : Task := mkTask true example_user_regs 0x50000 0x3000 200 (replicate 256 0) [] [].

Definition example_family : kernel :=
  let k := example_of [] in
  set_tasks (<[300 := example_child]> (<[200 := set_listening [] example_200]> (tasks k)))
    (set_mach (set_current 0x2000
      (set_mem (stored (mem (mach k)) 0x400800 ([32; 0; 0x100000; 0x08; 0x200] ≫= bytes_of_word)) (mach k))) k).

Definition example_parent : sys := mkSys example_family zero_regs 0 [] [] 0 (Some scheduler_callback :: replicate 255 None).

Lemma example_family_lookup t x : tasks example_family !! t = Some x →
  (t = 200 ∧ x = set_listening [] example_200) ∨ (t = 300 ∧ x = example_child) ∨ (t = 100 ∧ x = example_100).
Proof.
  unfold example_family. cbn [tasks set_tasks]. intros [[<- <-]|[Hne [[<- <-]|[Hne' Hx]]%lookup_insert_Some]]%lookup_insert_Some; [by right; left|by left|].
  destruct (example_lookup _ _ _ Hx) as [[-> _]|[[-> _]|H]]; [done|done|by right; right].
Qed.

Lemma example_family_inv : inv example_family example_queue.
Proof.
  destruct (example_inv []) as [(Hq & Hnd & _ & H0 & Hk & _) _]. split; [split_and!; try done|split].
  - repeat constructor; eexists; reflexivity.
  - by exists example_100.
  - intros t x [[-> ->]|[[-> ->]|[-> ->]]]%example_family_lookup _; by split_and!.
  - intros t x [[-> ->]|[[-> ->]|[-> ->]]]%example_family_lookup; constructor.
Qed.

Definition state_after {A} (m : M sys A) (s : sys) : sys := match m s with Ok (_, s') => s' | Fault _ => s end.
Lemma state_after_Ok {A} (m : M sys A) s a s' : m s = Ok (a, s') → s' = state_after m s.
Proof. intros H. unfold state_after. by rewrite H. Qed.

Definition example_waits : sys := state_after (wait example_allocs example_allocs example_allocs example_allocs 0xC00020 0xC00040 example_user_regs) example_parent.
Definition example_exited : sys := state_after (call example_allocs (ProcessKill 7) example_user_regs) example_waits.

Lemma example_may_exit : may_exit (kern example_waits) 300 (set_listening [200] example_child) [].
Proof.
  destruct example_owned as [Hwf _]. assert (Hpm : pmm (mach (kern example_waits)) = example_pmm) by (vm_compute; reflexivity).
  split; [vm_compute; reflexivity|]. split; [vm_compute; discriminate|]. split; [discriminate|]. split.
  - split; [split; [done|split; [done|by constructor]]|]. split; [constructor|]. split; [apply (bool_decide_unpack _); vm_compute; exact I|].
    rewrite Hpm. split; [exact Hwf|]. split; [by constructor|by constructor].
  - assert (H : forallb (λ y, (y.1 =? 300) || negb (bool_decide (300 ∈ listening_for_signals_ y.2)))
      (map_to_list (tasks (kern example_waits))) = true) by (vm_compute; reflexivity).
    revert H. generalize (tasks (kern example_waits)) as ts. intros ts H t x Hx Hne. rewrite forallb_forall in H. specialize (H (t, x)). cbn [fst snd] in H.
    rewrite (proj2 (Z.eqb_neq _ _) Hne) in H. apply negb_true_iff, bool_decide_eq_false in H; [done|].
    apply list_elem_of_In, elem_of_map_to_list. exact Hx.
Qed.

Lemma example_idle_tick : tick_pre (entered (kern (at_interrupt example_idle_regs example_exited))) 100 example_100 example_idle_regs.
Proof.
  split; [vm_compute; reflexivity|]. split; [by split_and!|]. right.
  set (k := entered _).
  assert (H : match check_kernel_stack example_idle_regs k with Ok _ => true | Fault _ => false end = true) by (vm_compute; reflexivity).
  clearbody k. destruct (check_kernel_stack example_idle_regs k) as [[[] k']|] eqn:E; [|done]. by rewrite (check_kernel_stack_reads _ _ _ _ E).
Qed.

Lemma example_parent_typed : typed example_parent.
Proof.
  destruct example_machine_wf as (Hp & _ & H8). destruct example_owned as [Hwf _]. split; [|split; [|done]].
  - split; [split; [exact Hp|split; [by apply stored_u8|exact Hwf]]|].
    intros t x [[-> ->]|[[-> ->]|[-> ->]]]%example_family_lookup; (split; [repeat constructor|split; [reflexivity|]]);
      [apply Forall_cons; split; [done|]| |]; by apply Forall_replicate.
  - constructor; [by right|by apply Forall_replicate; left].
Qed.

Lemma example_in_program : in_program example_parent (set_listening [] example_200).
Proof.
  split; [exact example_parent_typed|]. split; [done|]. split; [done|].
  exists (upd (replicate 1024 0) 1 (new_pde 0x400000 0)), 0. by split_and!.
Qed.

Lemma example_copy_ok v : 0xC00000 ≤ v < 0xC10000 → copy_ok example_parent (set_listening [] example_200) v 0x400100 4 (v + 0x800000) 0x400100.
Proof.
  intros Hv. split; [|split].
  - split; [split; [unfold is_u32; lia|unfold kPageSize4M; dlia]|]. unfold vtranslate, translate. cbn [pds].
    change (pds (mach (kern example_parent)) !! pd_ (set_listening [] example_200)) with (Some example_user_pd). cbv iota.
    replace (v / kPageSize4M) with 3 by (unfold kPageSize4M; dlia). change (nthZ example_user_pd 3) with (Some (new_pde 0x1400000 PG_USER)).
    cbv iota. change (tobool (Z.land (new_pde 0x1400000 PG_USER) PG_PRESENT)) with true. cbv iota.
    change (Z.land (new_pde 0x1400000 PG_USER) kPageMask4M) with 0x1400000. f_equal. unfold kPageSize4M. dlia.
  - split; [split; [done|by vm_compute]|reflexivity].
  - left. lia.
Qed.

Lemma wait_returns_exit_value_witness : ∃ a s1 a2 s3 a5 s5,
  wait example_allocs example_allocs example_allocs example_allocs 0xC00020 0xC00040 example_user_regs example_parent = Ok (inr a, s1) ∧
  call example_allocs (ProcessKill 7) example_user_regs s1 = Ok (inr a2, s3) ∧
  isr_handler example_allocs (at_interrupt example_idle_regs s3) = Ok (SwitchTask a5, s5) ∧
  wait_result (results (ProcessWait 300 TASK_TERMINATED) a5) = Ok 7.
Proof.
  destruct (wait_returns_exit_value example_allocs example_allocs example_allocs example_allocs 0xC00020 0xC00040 example_parent
    20 200 300 [] [] 30 300 [(10, 100)] (set_listening [] example_200) example_user_regs 0x1400020 0x400100 0x1400040 0x400100)
    as (a & s1 & Hrun & Hthen).
  - exists (replicate 255 None). split; [done|by apply Forall_replicate].
  - exact example_family_inv.
  - constructor.
  - reflexivity.
  - by split_and!.
  - exact example_in_program.
  - reflexivity.
  - by split.
  - by apply (example_copy_ok 0xC00020).
  - by apply (example_copy_ok 0xC00040).
  - assert (E1 : s1 = example_waits) by exact (state_after_Ok _ _ _ _ Hrun).
    destruct (Hthen s1 30 [] 10 100 [(20, 200)] (set_listening [200] example_child) [] example_allocs example_user_regs 7)
      as (a2 & s3 & Hrun3 & Hend).
    + apply ticks_refl.
    + constructor.
    + rewrite E1. vm_compute. reflexivity.
    + rewrite E1. exact example_may_exit.
    + assert (E3 : s3 = example_exited) by (rewrite E1 in Hrun3; exact (state_after_Ok _ _ _ _ Hrun3)).
      destruct (Hend s3 10 100 [] [] example_100 example_allocs example_idle_regs) as (a5 & s5 & Hrun5 & Hres & _).
      * apply ticks_refl.
      * constructor.
      * reflexivity.
      * rewrite E3. exact example_idle_tick.
      * exists a, s1, a2, s3, a5, s5. split; [exact Hrun|]. split; [exact Hrun3|]. split; [exact Hrun5|exact Hres].
Defined.

(** ** Where [wait] fails *)

(** The copy of no bytes to the null pointer maps page 0 of the program first. *)
Lemma null_copy_fails s src pd :
  gOldPageDir s ≠ gCurrentPageDir (mach (kern s)) → pds (mach (kern s)) !! gOldPageDir s = Some pd → pd_ok pd → mapping pd 0 = None →
  copy_to_user 0 src 0 s = Fault AssertFailed.
Proof.
  intros Hne Hpd Hok Hm. unfold copy_to_user. erewrite bind_Ok by reflexivity. erewrite bind_Ok by (by apply in_mach_read).
  set (old := gOldPageDir s) in *. set (m := mach (kern s)) in *.
  assert (H : Memcpy (gCurrentPageDir m) old src 0 0 m = Fault AssertFailed).
  { unfold Memcpy. erewrite bind_Ok by reflexivity. rewrite (proj2 (Z.eqb_neq (gCurrentPageDir m) old)) by congruence. cbv iota. cbn [andb].
    rewrite Z.eqb_refl. erewrite bind_Ok by reflexivity. rewrite (proj2 (Z.eqb_neq old (gCurrentPageDir m))) by done.
    apply bind_Fault. unfold TempMap. erewrite bind_Ok by reflexivity. rewrite (proj2 (Z.eqb_neq old (gCurrentPageDir m))) by done.
    cbn [negb]. erewrite bind_Ok by reflexivity. change (PageAddress 0) with 0.
    assert (Hv : VaddrIsMapped old 0 m = Ok (false, m)).
    { rewrite (VaddrIsMapped_Ok m old pd 0 Hpd Hok) by (split; done). change (0 / kPageSize4M) with 0. by rewrite Hm. }
    cbv zeta. rewrite (bind_Ok _ _ _ _ _ Hv). reflexivity. }
  unfold in_mach, on_kern, on_mach, zoom, Memcpy_from. fold m. by rewrite H.
Qed.

(** Asking for the children of a task that has none, with the null pointer as [wait] does it,
    stops the kernel. *)
Lemma no_children_stop_kernel al r s np p l xp pd :
  in_program s xp → family s np p l [] → pds (mach (kern s)) !! pd_ xp = Some pd → pd_ok pd → mapping pd 0 = None →
  call al (ProcessInfo p PROC_CHILDREN 0 0) r s = Fault AssertFailed.
Proof.
  intros (_ & Hc & Hne & _) (Hq & Hal & Hch) Hpd Hok Hm. set (st := ProcessInfo p PROC_CHILDREN 0 0). set (s0 := in_kernel (args st r) s).
  rewrite (call_handler al st r s (SYS_ProcessInfo al)) by reflexivity. fold s0.
  rewrite (info_children_start al s0 np p l 0 0) by done. change (children_of (kern s0) p ((np, p) :: l)) with (children_of (kern s) p ((np, p) :: l)).
  rewrite Hch. assert (H : TryCopy (a_buf al) [] 0 0 s0 = Fault AssertFailed).
  { unfold TryCopy. change (0 <? Z.of_nat (length [])) with false. cbv iota zeta. erewrite bind_Ok by reflexivity. apply bind_Fault.
    apply (null_copy_fails s0 _ pd); [|change (gOldPageDir s0) with (gCurrentPageDir (mach (kern s))); rewrite Hc; exact Hpd|exact Hok|exact Hm].
    change (gOldPageDir s0) with (gCurrentPageDir (mach (kern s))). rewrite Hc. exact Hne. }
  change (handle_bytes []) with (@nil Z). rewrite (bind_Fault _ _ _ _ H). reflexivity.
Qed.

(** A child that has ended when [ProcessWait] is called: the status is one that [wait] expects,
    but the register of the signal still holds the handle, and the next assertion fails. *)
Lemma gone_child_fails al r s x l c :
  queue (kern s) (x :: l) → c ∉ (x :: l).*2 → c ≠ TASK_TERMINATED →
  ∃ w r' s', call al (ProcessWait c TASK_TERMINATED) r s = Ok (inl (w, r'), s') ∧ w = (K_INVALID_HANDLE, c, TASK_TERMINATED) ∧
    wait_result w = Fault AssertFailed.
Proof.
  intros Hq Hc Ht. set (st := ProcessWait c TASK_TERMINATED). set (s0 := in_kernel (args st r) s).
  assert (Hrun : SYS_ProcessWait s0 = Ok (Returned, set_regs_ (with_eax K_INVALID_HANDLE (regs s0)) s0)).
  { unfold SYS_ProcessWait. erewrite (bind_Ok _ _ s0 (regs s0) s0) by reflexivity. change (ecx (regs s0)) with TASK_TERMINATED.
    change (negb (tobool TASK_TERMINATED)) with false. cbv iota zeta. change (ebx (regs s0)) with c.
    erewrite bind_Ok by (apply on_kern_read; by apply (IsRunningTask_Ok _ x l)). rewrite bool_decide_false by done. reflexivity. }
  eexists _, _, _. split; [rewrite (call_handler al st r s SYS_ProcessWait) by reflexivity; fold s0; rewrite Hrun; reflexivity|].
  split; [reflexivity|]. unfold wait_result. cbn. by rewrite (proj2 (Z.eqb_neq _ _) Ht).
Qed.

End Wait.
