(* ===== verification/SharedPages.v ===== *)
(** Memory that two tasks share: [SYS_MapPage] of kernel/syscalls.cpp, on every branch for two different
    tasks, in both directions, with and without [SWAP_OWNER]. *)
From S2P Require Import Prelude KernelH Pmm Paging Channel LinkedList Gdt Scheduler Interrupts Syscalls.
Import Pmm.Pmm Paging.Paging Scheduler.Scheduler Syscalls.Syscalls.

Module SharedPages.

(** * Lemmas *)

(** The address in the other task, as the handler chooses it. *)
Definition other_vaddr (pd2 flags given : Z) : M sys (option Z) :=
  if tobool (Z.land flags MAP_ANON) then
    free_vpage ← in_mach (getNextFreePage pd2 FREE_PAGE_LOWER_BOUND);
    if free_vpage <? 0 then mret None else mret (Some (PageToAddr free_vpage))
  else mret (Some given).

Lemma other_vaddr_Ok s this pd flags given :
  pds (mach (kern s)) !! this = Some pd → pd_ok pd →
  (other_vaddr this flags given s = Ok (None, s) ∧ tobool (Z.land flags MAP_ANON) = true ∧
    ∀ j, FREE_PAGE_LOWER_BOUND ≤ j < kNumPageDirEntries → is_Some (mapping pd j)) ∨
  ∃ v, other_vaddr this flags given s = Ok (Some v, s) ∧
    if tobool (Z.land flags MAP_ANON) then page_aligned v ∧ FREE_PAGE_LOWER_BOUND ≤ v / kPageSize4M ∧ mapping pd (v / kPageSize4M) = None ∧
      ∀ j, FREE_PAGE_LOWER_BOUND ≤ j < v / kPageSize4M → is_Some (mapping pd j)
    else v = given.
Proof.
  intros Hpd Hok. unfold other_vaddr. destruct (tobool (Z.land flags MAP_ANON)); [|right; by exists given].
  destruct (getNextFreePage_Ok (mach (kern s)) this pd FREE_PAGE_LOWER_BOUND) as (r & Hr & Hcase); try done.
  rewrite (bind_Ok _ _ _ _ _ (in_mach_read _ _ _ Hr)). destruct Hcase as [[-> Hall]|(Hr1 & Hm & Hb)]; [by left|right].
  unfold FREE_PAGE_LOWER_BOUND in Hr1. destruct (Z.ltb_spec r 0); [lia|].
  destruct (page_start r) as (E & Ha & Ed); [lia|]. eexists. split; [done|]. rewrite E, Ed. split; [done|]. split; [unfold FREE_PAGE_LOWER_BOUND; lia|]. by split.
Qed.

(** Every address of a mapped page. *)
Lemma page_translates pd v pa o : page_aligned v → mapping pd (v / kPageSize4M) = Some pa → 0 ≤ o < kPageSize4M →
  translate pd (v + o) = Some (pa + o).
Proof.
  intros [Hv Ha] Hm Ho. assert (E : (v + o) / kPageSize4M = v / kPageSize4M ∧ (v + o) mod kPageSize4M = o) by (unfold kPageSize4M in *; dlia).
  destruct E as [E1 E2]. by rewrite translate_mapping, E1, E2, Hm.
Qed.

(** A byte written through one directory is read through another one with the same page. *)
Lemma store_then_load m d1 d2 w1 w2 p b :
  vtranslate m d1 w1 = Some p → vtranslate m d2 w2 = Some p →
  ∃ m', store8 w1 b (set_current d1 m) = Ok (tt, m') ∧ load8 w2 (set_current d2 m') = Ok (u8 b, set_current d2 m').
Proof.
  unfold vtranslate. intros H1 H2. destruct (pds m !! d1) as [l1|] eqn:E1; [|done]. destruct (pds m !! d2) as [l2|] eqn:E2; [|done].
  eexists. split.
  - unfold store8, phys, GetCurrentPageDirectory, get_pd. munfold. cbn. rewrite E1. cbn. rewrite H1. reflexivity.
  - unfold load8, phys, GetCurrentPageDirectory, get_pd. munfold. cbn. rewrite E2. cbn. rewrite H2. unfold byte_at. cbn.
    by rewrite lookup_insert_eq.
Qed.

(** The owner of the page [p] changes from [t1], which has it in slot [i], to [t2], which gets it
    in slot [j]. *)
Definition handed_over (t1 t2 p : Z) (i j : nat) (x1 x2 : Task) (ts : gmap Z Task) : gmap Z Task :=
  <[t2 := set_owned (<[j := p]> (owned_phys_pages_ x2)) x2]>
    (<[t1 := set_owned (<[i := 0]> (owned_phys_pages_ x1)) x1]> ts).

Lemma swap_owner_Ok k t1 t2 x1 x2 p i j z :
  tasks k !! t1 = Some x1 → tasks k !! t2 = Some x2 → t1 ≠ t2 → Pmm.wf (pmm (mach k)) → 0 ≤ p < kNumPageDirEntries →
  list_find (λ q, q = p) (owned_phys_pages_ x1) = Some (i, p) → Pmm.used (pmm (mach k)) p = true →
  p ∉ owned_phys_pages_ x2 → list_find (λ q, q = 0) (owned_phys_pages_ x2) = Some (j, z) →
  ∃ k1 pm, RemoveOwnedPage t1 p k = Ok (tt, k1) ∧ RecordOwnedPage t2 p k1 =
    Ok (tt, set_mach (Paging.set_pmm pm (mach k)) (set_tasks (handed_over t1 t2 p i j x1 x2 (tasks k)) k)) ∧
    ∀ q, 0 ≤ q → Pmm.used pm q = Pmm.used (pmm (mach k)) q.
Proof.
  intros H1 H2 Hne Hwf Hp Hi Hu Hni Hj. destruct (RemoveOwnedPage_Ok k t1 x1 p i H1 Hwf Hp Hi Hu) as (pm1 & R1 & Hwf1 & U1).
  set (k1 := set_mach _ _) in R1.
  destruct (RecordOwnedPage_Ok k1 t2 x2 p j z) as (pm2 & R2 & _ & U2); [cbn; by rewrite lookup_insert_ne|exact Hwf1|done|done|done| |].
  { cbn. rewrite U1 by lia. by rewrite Z.eqb_refl. }
  exists k1, pm2. split; [exact R1|]. split.
  - rewrite R2. done.
  - intros q Hq. rewrite U2 by done. cbn. rewrite U1 by done. destruct (Z.eqb_spec q p) as [->|]; [by rewrite Hu|done].
Qed.

(** What only the scheduler changes, and the channels. *)
Definition same_queue (k k' : kernel) : Prop :=
  nodes k' = nodes k ∧ gTaskQueue k' = gTaskQueue k ∧ gKernelTask k' = gKernelTask k ∧ chans k' = chans k ∧
  gKernelPageDir (mach k') = gKernelPageDir (mach k).

(** For a change of the owner: the task [x1] owns the page [p], in slot [i], and [x2] has room for it, in slot [j]. *)
Definition can_swap (m : machine) (x1 x2 : Task) (p : Z) (i j : nat) : Prop :=
  Pmm.wf (pmm m) ∧ Pmm.used (pmm m) p = true ∧ list_find (λ q, q = p) (owned_phys_pages_ x1) = Some (i, p) ∧
  (p ∉ owned_phys_pages_ x2) ∧ ∃ z, list_find (λ q, q = 0) (owned_phys_pages_ x2) = Some (j, z).

(** The physical page at [pa], which was the page at [va] of the directory [da] of [t1], has become the page
    at [vb] of the directory [db] of [t2] too. *)
Record shared (swap : bool) (t1 t2 : Z) (x1 x2 : Task) (va vb pa : Z) (i j : nat) (s s' : sys) : Prop := {
  sh_bytes : ∀ o b, 0 ≤ o < kPageSize4M →
    (∃ m, store8 (vb + o) b (set_current (pd_ x2) (mach (kern s'))) = Ok (tt, m) ∧
          load8 (va + o) (set_current (pd_ x1) m) = Ok (u8 b, set_current (pd_ x1) m)) ∧
    (∃ m, store8 (va + o) b (set_current (pd_ x1) (mach (kern s'))) = Ok (tt, m) ∧
          load8 (vb + o) (set_current (pd_ x2) m) = Ok (u8 b, set_current (pd_ x2) m));
  sh_here : ∀ o, 0 ≤ o < kPageSize4M → vtranslate (mach (kern s')) (pd_ x2) (vb + o) = Some (pa + o);
  sh_elsewhere : ∀ d w, d ≠ pd_ x2 ∨ w / kPageSize4M ≠ vb / kPageSize4M →
    vtranslate (mach (kern s')) d w = vtranslate (mach (kern s)) d w;
  sh_memory : mem (mach (kern s')) = mem (mach (kern s)) ∧ gCurrentPageDir (mach (kern s')) = gCurrentPageDir (mach (kern s));
  sh_used : ∀ q, 0 ≤ q → Pmm.used (pmm (mach (kern s'))) q = Pmm.used (pmm (mach (kern s))) q;
  sh_owner : tasks (kern s') = if swap then handed_over t1 t2 (AddrToPage pa) i j x1 x2 (tasks (kern s)) else tasks (kern s);
  sh_queue : same_queue (kern s) (kern s');
  sh_dirs : ∃ pd, pds (mach (kern s)) !! pd_ x2 = Some pd ∧
    pds (mach (kern s')) = <[pd_ x2 := upd pd (vb / kPageSize4M) (new_pde pa PG_USER)]> (pds (mach (kern s)));
}.

(** The end of the handler, in either direction: [t1] has the page, [t2] gets it. *)
Definition map_into (swap : bool) (t1 t2 db vb pa v2 : Z) : M sys outcome :=
  in_mach (MapPage db vb pa PG_USER);;
  (if swap then on_kern (RemoveOwnedPage t1 (AddrToPage pa));; on_kern (RecordOwnedPage t2 (AddrToPage pa)) else mret tt);;
  ret_eax K_OK;; ret_ebx v2;; mret Returned.

Lemma map_into_Ok s (swap : bool) t1 t2 x1 x2 pd1 pd2 va vb pa v2 i j : let m := mach (kern s) in
  t1 ≠ t2 → tasks (kern s) !! t1 = Some x1 → tasks (kern s) !! t2 = Some x2 → pd_ x1 ≠ pd_ x2 →
  pds m !! pd_ x1 = Some pd1 ∧ pd_ok pd1 → pds m !! pd_ x2 = Some pd2 ∧ pd_ok pd2 → page_aligned va → page_aligned vb →
  mapping pd1 (va / kPageSize4M) = Some pa → mapping pd2 (vb / kPageSize4M) = None →
  (swap = true → can_swap m x1 x2 (AddrToPage pa) i j) →
  ∃ s', map_into swap t1 t2 (pd_ x2) vb pa v2 s = Ok (Returned, s') ∧ regs s' = with_ebx v2 (with_eax K_OK (regs s)) ∧
    shared swap t1 t2 x1 x2 va vb pa i j s s'.
Proof.
  intros m Hne Hx1 Hx2 Hpds [Hp1 Hok1] [Hp2 Hok2] Ha Hb Hma Hmb Hswap. pose proof (mapping_aligned _ _ _ Hok1 Hma) as Hpa.
  destruct (new_pde_spec pa PG_USER Hpa) as (_ & Hpr & Hmask & _); [done|]. pose proof (page_of_addr vb (proj1 Hb)) as Hi2.
  set (s1 := with_mach (set_pds (<[pd_ x2 := upd pd2 (vb / kPageSize4M) (new_pde pa PG_USER)]> (pds m)) m) s).
  assert (R : in_mach (MapPage (pd_ x2) vb pa PG_USER) s = Ok (tt, s1)).
  { apply in_mach_Ok, (MapPage_Ok m (pd_ x2) pd2 vb pa PG_USER Hp2 Hok2 Hb Hpa); done. }
  assert (S : ∃ k2, (if swap then on_kern (RemoveOwnedPage t1 (AddrToPage pa));; on_kern (RecordOwnedPage t2 (AddrToPage pa)) else mret tt) s1 =
      Ok (tt, set_kern k2 s1) ∧ pds (mach k2) = pds (mach (kern s1)) ∧ mem (mach k2) = mem m ∧ gCurrentPageDir (mach k2) = gCurrentPageDir m ∧
      (∀ q, 0 ≤ q → Pmm.used (pmm (mach k2)) q = Pmm.used (pmm m) q) ∧
      tasks k2 = (if swap then handed_over t1 t2 (AddrToPage pa) i j x1 x2 (tasks (kern s)) else tasks (kern s)) ∧ same_queue (kern s) k2).
  { destruct swap; [|exists (kern s1); split; [by destruct s|done]]. destruct (Hswap eq_refl) as (Hwf & Hu & Hi & Hni & z & Hj).
    assert (Hp : 0 ≤ AddrToPage pa < kNumPageDirEntries) by (apply page_of_addr; apply Hpa).
    destruct (swap_owner_Ok (kern s1) t1 t2 x1 x2 (AddrToPage pa) i j z Hx1 Hx2 Hne Hwf Hp Hi Hu Hni Hj) as (k1 & pm & R1 & R2 & Hus).
    eexists. split; [erewrite bind_Ok by (apply on_kern_Ok; exact R1); exact (on_kern_Ok _ (set_kern k1 s1) _ _ R2)|done]. }
  destruct S as (k2 & S & Ep & Em & Ec & Hu & Et & Hq). exists (set_regs_ (with_ebx v2 (with_eax K_OK (regs s))) (set_kern k2 s1)).
  split; [unfold map_into; rewrite (bind_Ok _ _ _ _ _ R), (bind_Ok _ _ _ _ _ S); reflexivity|]. split; [done|].
  assert (T1 : ∀ o, 0 ≤ o < kPageSize4M → vtranslate (mach k2) (pd_ x1) (va + o) = Some (pa + o)).
  { intros o Ho. unfold vtranslate. rewrite Ep. cbn. rewrite lookup_insert_ne, Hp1 by congruence. by apply page_translates. }
  assert (T2 : ∀ o, 0 ≤ o < kPageSize4M → vtranslate (mach k2) (pd_ x2) (vb + o) = Some (pa + o)).
  { intros o Ho. unfold vtranslate. rewrite Ep. cbn. rewrite lookup_insert_eq. apply page_translates; [exact Hb| |exact Ho].
    rewrite mapping_upd by done. by rewrite Z.eqb_refl, Hpr, Hmask. }
  split; cbn [kern set_regs_ set_kern]; [|exact T2| |done|exact Hu|exact Et|exact Hq|by exists pd2].
  - intros o b Ho. split; by eapply store_then_load; [apply T1||apply T2|apply T2||apply T1].
  - intros d w Hdw. unfold vtranslate. rewrite Ep. cbn. destruct (decide (d = pd_ x2)) as [->|]; [|by rewrite lookup_insert_ne].
    fold m. rewrite lookup_insert_eq, Hp2, !translate_mapping, mapping_upd by done. destruct (Z.eqb_spec (w / kPageSize4M) (vb / kPageSize4M)); [|done].
    by destruct Hdw.
Qed.

(** * Properties *)
Lemma tobool_mod a b : tobool (a mod b) = negb (a mod b =? 0).
Proof. done. Qed.

Section map.
  (** The current task [t1] names the address in [ebx], and [t2] with the address in [edx]. *)
  Context (s : sys) (t1 t2 : Z) (x1 x2 : Task) (pd1 pd2 : list Z).
Let r := regs s.
Let v1 := ebx r.
Let m := mach (kern s).
Let anon := tobool (Z.land (esi r) MAP_ANON).
Let swap := tobool (Z.land (esi r) SWAP_OWNER).
  Hypothesis Hcur : current (kern s) t1.
  Hypothesis Ht2 : ecx r = t2 ∧ t1 ≠ t2.
  Hypothesis Hx1 : tasks (kern s) !! t1 = Some x1.
  Hypothesis Hx2 : tasks (kern s) !! t2 = Some x2.
  Hypothesis Hpds : pd_ x1 ≠ pd_ x2.
  Hypothesis Hpd1 : pds m !! pd_ x1 = Some pd1 ∧ pd_ok pd1.
  Hypothesis Hpd2 : pds m !! pd_ x2 = Some pd2 ∧ pd_ok pd2.
  Hypothesis Hregs : is_u32 (ebx r) ∧ (anon = false → is_u32 (edx r)).
  (** For a change of the owner: the task that has the page owns it, and the other has room for it. *)
  Context (i j : nat).
  Hypothesis Hswap12 : ∀ pa, swap = true → mapping pd1 (v1 / kPageSize4M) = Some pa → can_swap m x1 x2 (AddrToPage pa) i j.
  Hypothesis Hswap21 : ∀ pa, swap = true → anon = false → mapping pd2 (edx r / kPageSize4M) = Some pa → can_swap m x2 x1 (AddrToPage pa) i j.

(** The handler returns [status] and does nothing else. *)
Definition refused (status : Z) : Prop := SYS_MapPage s = Ok (Returned, set_regs_ (with_eax status r) s).

(** What happens once the address in [t2] is known. *)
Definition mapped_at (v2 : Z) : Prop :=
  if negb ((v1 mod kPageSize4M =? 0) && (v2 mod kPageSize4M =? 0)) then refused K_UNALIGNED_PAGE_ADDR
  else match mapping pd1 (v1 / kPageSize4M), mapping pd2 (v2 / kPageSize4M) with
       | Some pa, None => ∃ s', SYS_MapPage s = Ok (Returned, s') ∧ regs s' = with_ebx v2 (with_eax K_OK r) ∧
                            shared swap t1 t2 x1 x2 v1 v2 pa i j s s'
       | None, Some pa => ∃ s', SYS_MapPage s = Ok (Returned, s') ∧ regs s' = with_ebx v2 (with_eax K_OK r) ∧
                            shared swap t2 t1 x2 x1 v2 v1 pa i j s s'
       | _, _ => refused K_VPAGE_MAPPED
       end.

Definition first_free (pd : list Z) (v : Z) : Prop :=
  page_aligned v ∧ FREE_PAGE_LOWER_BOUND ≤ v / kPageSize4M ∧ mapping pd (v / kPageSize4M) = None ∧
  ∀ j, FREE_PAGE_LOWER_BOUND ≤ j < v / kPageSize4M → is_Some (mapping pd j).

Lemma SYS_MapPage_Ok :
  (refused K_OOM_VIRT ∧ anon = true ∧ ∀ j, FREE_PAGE_LOWER_BOUND ≤ j < kNumPageDirEntries → is_Some (mapping pd2 j)) ∨
  ∃ v2, (if anon then first_free pd2 v2 else v2 = edx r) ∧ mapped_at v2.
Proof using Hcur Ht2 Hx1 Hx2 Hpds Hpd1 Hpd2 Hregs Hswap12 Hswap21.
  destruct Hcur as (n & l & Hq), Ht2 as [E2 Hne], Hpd1 as [Hp1 Hok1], Hpd2 as [Hp2 Hok2], Hregs as [Hu1 Hu2].
  unfold mapped_at, refused. remember (SYS_MapPage s) as R eqn:Hrun. unfold SYS_MapPage in Hrun.
  erewrite (bind_Ok _ _ s r s) in Hrun by reflexivity. cbv zeta in Hrun. rewrite (bind_Ok _ _ _ _ _ (current_Ok s n t1 l Hq)) in Hrun.
  rewrite E2, (proj2 (Z.eqb_neq _ _) Hne), (bind_Ok _ _ _ _ _ (task_Ok s t1 x1 Hx1)), (bind_Ok _ _ _ _ _ (task_Ok s t2 x2 Hx2)) in Hrun.
  rewrite (proj2 (Z.eqb_neq _ _) Hpds) in Hrun. cbn [negb] in Hrun. erewrite bind_Ok in Hrun by reflexivity.
  fold (other_vaddr (pd_ x2) (esi r) (edx r)) in Hrun.
  destruct (other_vaddr_Ok s (pd_ x2) pd2 (esi r) (edx r) Hp2 Hok2) as [(H & Han & Hall)|(v2 & H & Hv2)];
    rewrite (bind_Ok _ _ _ _ _ H) in Hrun; [left; by split|right; exists v2; split; [exact Hv2|]].
  fold anon in Hv2. assert (Hu2' : is_u32 v2) by (destruct anon; [by destruct Hv2 as [[? _] _]|subst v2; by apply Hu2]). fold v1 in Hrun.
  rewrite !tobool_mod in Hrun.
  destruct (Z.eqb_spec (v1 mod kPageSize4M) 0) as [Ha1|]; [|exact Hrun]. destruct (Z.eqb_spec (v2 mod kPageSize4M) 0) as [Ha2|]; [|exact Hrun].
  cbn [negb andb orb] in Hrun |- *.
  rewrite (bind_Ok _ _ _ _ _ (in_mach_read _ _ _ (VaddrIsMapped_Ok m (pd_ x1) pd1 v1 Hp1 Hok1 (conj Hu1 Ha1)))) in Hrun.
  rewrite (bind_Ok _ _ _ _ _ (in_mach_read _ _ _ (VaddrIsMapped_Ok m (pd_ x2) pd2 v2 Hp2 Hok2 (conj Hu2' Ha2)))) in Hrun.
  destruct (mapping pd1 (v1 / kPageSize4M)) as [p1|] eqn:Hm1, (mapping pd2 (v2 / kPageSize4M)) as [p2|] eqn:Hm2;
    rewrite ?(bool_decide_true (is_Some (Some _))), ?(bool_decide_false (is_Some None)) in Hrun by (eauto || by intros []); [exact Hrun| | |exact Hrun];
    rewrite Hrun.
  - rewrite (bind_Ok _ _ _ _ _ (in_mach_read _ _ _ (getPhysicalAddr_Ok m (pd_ x1) pd1 v1 p1 Hp1 (conj Hu1 Ha1) Hm1))).
    apply (map_into_Ok s swap t1 t2 x1 x2 pd1 pd2 v1 v2 p1 v2 i j); try done. intros Hs. by apply Hswap12.
  - rewrite (bind_Ok _ _ _ _ _ (in_mach_read _ _ _ (getPhysicalAddr_Ok m (pd_ x2) pd2 v2 p2 Hp2 (conj Hu2' Ha2) Hm2))).
    apply (map_into_Ok s swap t2 t1 x2 x1 pd2 pd1 v2 v1 p2 v2 i j); try done. intros Hs.
    destruct anon eqn:Ean; [destruct Hv2 as (_ & _ & Hv2 & _); congruence|]. subst v2. by apply Hswap21.
Qed.

End map.

(** * An example

    Task 200 offers its page at 0xC00000, the physical page 5, to task 300, whose directory is
    empty.  The directory of 200 also maps the kernel's page, without [PG_USER]. *)
Definition example_sender_pd : list Z := upd example_user_pd 1 (new_pde 0x400000 0).
Definition example_pds : gmap Z (list Z) := <[0x2000 := example_sender_pd]> (<[0x3000 := replicate 1024 0]> (pds example_machine)).

(** The call with the address [v] and the flags. *)
Definition example_offer (v flags : Z) : sys :=
  let s := example_sys (mkRegs 0x23 0x23 0x23 0x23 0 flags 0 0 v 0x800000 300 5 128 0 0x400000 0x1B 0 0 0x23) in
  with_mach (set_pds example_pds (mach (kern s))) s.

Lemma example_sender_ok : pd_ok example_sender_pd.
Proof. apply upd_ok; [by apply example_pd_ok|]. destruct (new_pde_spec 0x400000 0) as (? & ? & _); [split; done|done|]. split; [done|by right]. Qed.


(** ** What [SYS_MapPage] does not check *)

(** The page may be the kernel's: the caller's directory maps it, and the other task gets it
    with [PG_USER]. *)
Lemma MapPage_gives_away_kernel_page :
  match SYS_MapPage (example_offer 0x400000 MAP_ANON) with
  | Ok (Returned, s') =>
      match pds (mach (kern s')) !! 0x3000 with
      | Some pd => bool_decide (nthZ pd (ebx (regs s') / kPageSize4M) = Some (new_pde 0x400000 PG_USER))
      | None => false
      end && (eax (regs s') =? K_OK)
  | _ => false
  end = true.
Proof. vm_compute. reflexivity. Qed.

End SharedPages.
