(* ===== verification/Spawn.v ===== *)
(** How a program starts another: the system calls of [LoadElfProgram] (libc/elf.cpp), from
    ProcessCreate to the task that waits for its turn in the queue.

    The program's side is a [prog] (UserSyscalls.v).  What the kernel's allocator returns is a
    function of the state that promises new addresses only ([KernelAlloc]).  The image is on a
    page that the program owns (Elf.v builds it there).  What the program does to its own memory
    between the calls, the relocations and the messages that it builds (Elf.v, Startup.v), is an
    argument: a function on memory. *)
From S2P Require Import Prelude KernelH Pmm Paging Channel LinkedList Gdt Scheduler Interrupts Syscalls Boot KernelMain KernelTypes UserSyscalls Wait SharedPages.
Import Pmm.Pmm Paging.Paging Scheduler.Scheduler Syscalls.Syscalls KernelMain.KernelMain KernelTypes.KernelTypes UserSyscalls.UserSyscalls Wait.Wait SharedPages.SharedPages.

Module Spawn.

(** * The program *)
Definition allocator : Type := sys → allocs.

Definition syscall {A} (alloc : allocator) (st : stub A) : prog A := λ r s, call (alloc s) st r s.

(** What the program itself does to its memory between its calls. *)
Definition stores : Type := gmap Z Z → gmap Z Z.
Definition program_stores (f : stores) : prog unit := λ r s, Ok (inl (tt, r), wrote (f (mem (mach (kern s)))) s).

(** The writes to the start-up channel: how each message is built in memory, its address and its
    size. *)
Fixpoint write_all (alloc : allocator) (end1 : Z) (ws : list (stores * Z * Z)) : prog unit :=
  match ws with
  | [] => mret tt
  | w :: ws => program_stores w.1.1;; syscall alloc (ChannelWrite end1 w.1.2 w.2);; write_all alloc end1 ws
  end.

(** The new process gets the image: its handle and [new_load_addr], which holds [uninit] before it
    is set.  The image is on the page [load_addr]; [relocate] is [ApplyRelocs], or nothing when there
    are no relocations. *)
Definition new_process (alloc : allocator) (load_addr uninit : Z) (relocate : Z → stores) : prog (Z * Z) :=
  i ← syscall alloc ProcessCreate;
  debug_assert (i.1 =? K_OK);;
  let proc_handle := i.2 in
  j ← (λ r s, MapAnonAndSwap (alloc s) load_addr proc_handle uninit r s);
  debug_assert (j.1 =? K_OK);;
  let new_load_addr := j.2 in
  program_stores (relocate new_load_addr);;
  mret (proc_handle, new_load_addr).

(** The channel to it: both ends. *)
Definition start_channel (alloc : allocator) (proc_handle : Z) (ws : list (stores * Z * Z)) : prog (Z * Z) :=
  e ← syscall alloc ChannelCreate;
  let '(end1, end2) := e in
  syscall alloc (TransferHandle proc_handle end2);;
  write_all alloc end1 ws;;
  mret (end1, end2).

Definition spawn (alloc : allocator) (load_addr uninit : Z) (relocate : Z → stores)
    (program_entry_point : Z) (ws : list (stores * Z * Z)) : prog Z :=
  i ← new_process alloc load_addr uninit relocate;
  let '(proc_handle, new_load_addr) := i in
  e ← start_channel alloc proc_handle ws;
  let '(end1, end2) := e in
  syscall alloc (ProcessStart proc_handle (u32 (new_load_addr + program_entry_point)) end2);;
  syscall alloc (HandleClose end1);;
  mret proc_handle.

(** What the handlers rely on: the allocator returns addresses that are not in use.  The
    buffer that a handler copies through is always at [kbuf]. *)
Class KernelAlloc (alloc : allocator) (kbuf : Z) : Prop := {
  alloc_pd s : a_pd (alloc s) ≠ 0 ∧ pds (mach (kern s)) !! a_pd (alloc s) = None;
  alloc_task s : a_task (alloc s) ≠ 0 ∧ tasks (kern s) !! a_task (alloc s) = None;
  alloc_stack s : a_stack (alloc s) ≠ 0 ∧ u32 (a_stack (alloc s) + kDefaultKernStackSize) mod 4 = 0;
  alloc_node s : a_node (alloc s) ≠ 0 ∧ nodes (kern s) !! a_node (alloc s) = None;
  alloc_ends s : a_d1 (alloc s) ≠ 0 ∧ a_d2 (alloc s) ≠ 0 ∧ a_d1 (alloc s) ≠ a_d2 (alloc s) ∧
    Channel.bufs (chans (kern s)) !! a_d1 (alloc s) = None ∧ Channel.bufs (chans (kern s)) !! a_d2 (alloc s) = None;
  alloc_new s : a_new (alloc s) ≠ 0 ∧ Channel.bufs (chans (kern s)) !! a_new (alloc s) = None;
  alloc_buf s : a_buf (alloc s) = kbuf }.

(** * Lemmas *)

(** What the channel calls leave alone. *)
Record frame := Frame {
  f_pds : gmap Z (list Z); f_tasks : gmap Z Task; f_nodes : LinkedList.store;
  f_queue : Z; f_ktask : Z; f_kpd : Z }.

Definition frame_of (s : sys) : frame :=
  let k := kern s in
  Frame (pds (mach k)) (tasks k) (nodes k) (gTaskQueue k) (gKernelTask k) (gKernelPageDir (mach k)).

Definition current_pd (s : sys) : Z := gCurrentPageDir (mach (kern s)).

(** The calls on channels change the channels and memory only. *)
Definition same (s s' : sys) : Prop := frame_of s' = frame_of s ∧ current_pd s' = current_pd s ∧ typed s'.

Lemma typed_wrote m s : typed s → map_Forall (λ _, is_u8) m → typed (wrote m s).
Proof. intros (((Hp & _ & Hw) & Ht) & H) Hm. split; [|exact H]. split; [|exact Ht]. by split_and!. Qed.

Lemma same_wrote m s : typed s → map_Forall (λ _, is_u8) m → same s (wrote m s).
Proof. intros Ht Hm. split; [reflexivity|]. split; [reflexivity|]. by apply typed_wrote. Qed.

Lemma same_trans s1 s2 s3 : same s1 s2 → same s2 s3 → same s1 s3.
Proof. intros (F1 & C1 & _) (F2 & C2 & T2). split; [by rewrite F2|]. split; [by rewrite C2|exact T2]. Qed.

Lemma same_back s s1 : frame_of s1 = frame_of s → typed (back (current_pd s) s1) → same s (back (current_pd s) s1).
Proof. intros E Ht. split; [exact E|]. split; [reflexivity|exact Ht]. Qed.

Lemma same_in_program s s' xp : in_program s xp → same s s' → in_program s' xp.
Proof.
  intros (_ & Hc & Hne & H) ([= Hp _ _ _ _ Hk] & Ec & Ht). unfold current_pd in Ec. split; [exact Ht|]. rewrite Hp, Hk, Ec. by split.
Qed.

(** Memory but for the kernel's buffer of [N] bytes at [kp]. *)
Definition same_outside (kp N : Z) (m m' : gmap Z Z) : Prop := ∀ a, a < kp ∨ kp + N ≤ a → byte_at m' a = byte_at m a.

(** The program stores bytes, and does not see the kernel's buffer. *)
Definition user_stores (kp N : Z) (f : stores) : Prop :=
  (∀ m, map_Forall (λ _, is_u8) m → map_Forall (λ _, is_u8) (f m)) ∧
  (∀ m m', same_outside kp N m m' → same_outside kp N (f m) (f m')).

(** A message: how it is built, its address and size, and where it is in physical memory. *)
Definition message : Type := stores * Z * Z * Z.
Definition built (x : message) : stores := x.1.1.1.
Definition address (x : message) : Z := x.1.1.2.
Definition msize (x : message) : Z := x.1.2.

(** The kernel can copy the message. *)
Definition sendable (s : sys) (kbuf kp N : Z) (x : message) : Prop :=
  let m := mach (kern s) in let n := msize x in
  range_at m (current_pd s) (address x) n x.2 ∧ range_at m (gKernelPageDir m) kbuf n kp ∧ (x.2 + n ≤ kp ∨ kp + N ≤ x.2) ∧ n ≤ N ∧
  user_stores kp N (built x).

Lemma same_sendable s s' kbuf kp N x : same s s' → sendable s kbuf kp N x → sendable s' kbuf kp N x.
Proof. intros ([= Hp _ _ _ _ Hk] & Ec & _). unfold sendable, range_at, vtranslate. by rewrite Ec, Hp, Hk. Qed.

Definition message_bytes (m : gmap Z Z) (x : message) : list Z := mem_bytes m x.2 (Z.to_nat (msize x)).

(** What is sent when the messages are built one after the other, and the memory then. *)
Fixpoint sent (m : gmap Z Z) (xs : list message) : list Z :=
  match xs with [] => [] | x :: xs => message_bytes (built x m) x ++ sent (built x m) xs end.
Fixpoint memory_after (m : gmap Z Z) (xs : list message) : gmap Z Z :=
  match xs with [] => m | x :: xs => memory_after (built x m) xs end.

Lemma length_sent xs : ∀ m, length (sent m xs) = sum_list_with (λ x, Z.to_nat (msize x)) xs.
Proof.
  induction xs as [|x xs IH]; intros m; [done|]. cbn [sent sum_list_with]. unfold message_bytes.
  by rewrite length_app, length_mem_bytes, IH.
Qed.

Lemma same_sent s kbuf kp N xs : Forall (sendable s kbuf kp N) xs → ∀ m m', same_outside kp N m m' →
  sent m' xs = sent m xs ∧ same_outside kp N (memory_after m xs) (memory_after m' xs).
Proof.
  induction 1 as [|x xs (_ & _ & Hd & _ & _ & Hs) _ IH]; intros m m' Hm; [done|]. cbn [sent memory_after].
  pose proof (Hs _ _ Hm) as Hm1. destruct (IH _ _ Hm1) as [-> Hm2]. split; [|exact Hm2]. f_equal.
  apply mem_bytes_ext. intros i Hi. apply Hm1. lia.
Qed.

Lemma same_outside_trans kp N m1 m2 m3 : same_outside kp N m1 m2 → same_outside kp N m2 m3 → same_outside kp N m1 m3.
Proof. intros H1 H2 a Ha. by rewrite H2, H1. Qed.

Lemma copied_outside m m' p kp n N : n ≤ N → copied m m' p kp n → same_outside kp N m m'.
Proof.
  intros Hn Hc a Ha. rewrite Hc. destruct (Z.leb_spec kp a); [|done]. destruct (Z.ltb_spec a (kp + n)); [lia|done].
Qed.

Lemma syscall_Ok {A} alloc (st : stub A) r s f s1 :
  nthZ (kSyscallHandlers (alloc s)) (eax (args st r)) = Some f →
  f (in_kernel (args st r) s) = Ok (Returned, s1) → ensures typed f outcome_ok → typed s →
  syscall alloc st r s = Ok (inl (results st (regs s1), regs s1), back (current_pd s) s1) ∧
  typed (back (current_pd s) s1).
Proof.
  intros Hn Hf Hk Ht. split.
  - unfold syscall. rewrite (call_handler _ _ _ _ _ Hn), Hf. done.
  - apply typed_back. by destruct (Hk _ _ _ (typed_in_kernel (args st r) s Ht) Hf).
Qed.

#[local] Strategy expand [MapAnonAndSwap syscall].

Lemma MapAnonAndSwap_syscall alloc v c u r s :
  MapAnonAndSwap (alloc s) v c u r s = syscall alloc (MapPage_ v c u (Z.lor SWAP_OWNER MAP_ANON)) r s.
Proof. reflexivity. Qed.

Lemma get_pd_Ok m this pd : pds m !! this = Some pd → get_pd this m = Ok (pd, m).
Proof. intros H. unfold get_pd. munfold. by rewrite H. Qed.

Lemma Clone_Ok m addr this pd : pds m !! this = Some pd → addr ≠ 0 →
  Clone addr this m = Ok (addr, set_pds (<[addr := pd]> (pds m)) m).
Proof.
  intros H Ha. unfold Clone. rewrite (bind_Ok _ _ _ _ _ (get_pd_Ok _ _ _ H)), LinkedList.tobool_ne by done. done.
Qed.

(** A new task of [p]. *)
Definition new_child (al : allocs) (p : Z) : Task :=
  let d := Z.lor Gdt.kUserDataSeg Gdt.kRing3 in
  let c := Z.lor Gdt.kUserCodeSeg Gdt.kRing3 in
  mkTask true (mkRegs d d d d 0 0 0 0 0 0 0 0 0 0 0 c 0 0 d) (a_stack al) (a_pd al) p (replicate kMaxPages 0) [] [].

(** It owns the page [q]. *)
Definition with_image (q : Z) (x : Task) : Task := set_owned (<[0%nat := q]> (owned_phys_pages_ x)) x.

Lemma new_task_Ok al p k :
  new_task (a_task al) (a_stack al) true (a_pd al) p k =
    Ok (tt, set_tasks (<[a_task al := new_child al p]> (tasks k))
              (set_stacks (if a_stack al =? 0 then stacks k else {[a_stack al]} ∪ stacks k) k)).
Proof. reflexivity. Qed.

(** ** The new task in the queue *)
Lemma added_inv k k' np p l n c xp i xc :
  inv k ((np, p) :: l) → tasks k !! p = Some xp → tasks k !! c = None → c ≠ 0 →
  tasks k' = <[c := xc]> (<[p := set_owned i xp]> (tasks k)) → gKernelTask k' = gKernelTask k →
  queue k' ((np, p) :: l ++ [(n, c)]) → task_ok xc → listening_for_signals_ xc = [] →
  inv k' ((np, p) :: l ++ [(n, c)]).
Proof.
  intros ((_ & Hnd & Hal & H0 & Hkt & xk & Hxk & Hwk) & Hoks & Hdan) Hxp Hc Hc0 Ets Ekt Hq Hok Hls.
  assert (Hal' : ∀ t, alive k t → alive k' t).
  { intros t [x Hx]. unfold alive. rewrite Ets. destruct (decide (t = c)) as [->|]; [rewrite lookup_insert_eq; eauto|].
    rewrite lookup_insert_ne by done. destruct (decide (t = p)) as [->|]; [rewrite lookup_insert_eq; eauto|]. rewrite lookup_insert_ne by done. eauto. }
  assert (Hne : ∀ t, alive k t → t ≠ c) by (intros t [x Hx] ->; congruence).
  assert (El : ((np, p) :: l ++ [(n, c)]).*2 = ((np, p) :: l).*2 ++ [c]) by by rewrite app_comm_cons, fmap_app.
  split; [|split].
  - split; [exact Hq|]. rewrite El. split; [|split; [|split; [|split]]].
    + apply NoDup_app. split; [exact Hnd|]. split; [|apply NoDup_singleton]. intros t Ht ->%list_elem_of_singleton.
      rewrite Forall_forall in Hal. by destruct (Hne c (Hal _ Ht)).
    + apply Forall_app. split; [eapply Forall_impl; [exact Hal|exact Hal']|]. repeat constructor. unfold alive. rewrite Ets, lookup_insert_eq. eauto.
    + apply Forall_app. split; [exact H0|]. by repeat constructor.
    + rewrite Ekt. apply elem_of_app. by left.
    + rewrite Ekt, Ets, lookup_insert_ne by (symmetry; apply Hne; by eexists).
      destruct (decide (p = gKernelTask k)) as [E|]; [|rewrite lookup_insert_ne by done; eauto].
      rewrite <- E in Hxk |- *. rewrite lookup_insert_eq. eexists. split; [done|]. by replace xp with xk by congruence.
  - intros t x Hx Hh. rewrite Ets in Hx. destruct (decide (t = c)) as [->|]; [rewrite lookup_insert_eq in Hx; by simplify_eq|].
    rewrite lookup_insert_ne in Hx by done. assert (t ≠ p) by (by intros ->). rewrite lookup_insert_ne in Hx by done.
    by apply (Hoks t).
  - intros t x Hx. rewrite Ets in Hx. destruct (decide (t = c)) as [->|]; [rewrite lookup_insert_eq in Hx; simplify_eq; by rewrite Hls|].
    rewrite lookup_insert_ne in Hx by done. destruct (decide (t = p)) as [->|].
    + rewrite lookup_insert_eq in Hx. simplify_eq. eapply Forall_impl; [exact (Hdan p xp Hxp)|exact Hal'].
    + rewrite lookup_insert_ne in Hx by done. eapply Forall_impl; [exact (Hdan t x Hx)|exact Hal'].
Qed.

Section steps.
  Context (alloc : allocator) (kbuf : Z) `{!KernelAlloc alloc kbuf}.

Lemma ProcessCreate_Ok r s np p l e :
  typed s → queue (kern s) ((np, p) :: l) → pds (mach (kern s)) !! gKernelPageDir (mach (kern s)) = Some e →
  let al := alloc s in
  ∃ r' s', syscall alloc ProcessCreate r s = Ok (inl ((K_OK, a_task al), r'), s') ∧ typed s' ∧
    frame_of s' = Frame (<[a_pd al := e]> (pds (mach (kern s)))) (<[a_task al := new_child al p]> (tasks (kern s)))
      (nodes (kern s)) (gTaskQueue (kern s)) (gKernelTask (kern s)) (gKernelPageDir (mach (kern s))) ∧
    current_pd s' = current_pd s ∧ chans (kern s') = chans (kern s) ∧ mem (mach (kern s')) = mem (mach (kern s)) ∧
    pmm (mach (kern s')) = pmm (mach (kern s)).
Proof.
  intros Ht Hq He al. destruct (alloc_pd s) as [Hpd _]. fold al in Hpd.
  assert (∃ s1, SYS_ProcessCreate al (in_kernel (args ProcessCreate r) s) = Ok (Returned, s1) ∧
    eax (regs s1) = K_OK ∧ ebx (regs s1) = a_task al ∧
    frame_of s1 = Frame (<[a_pd al := e]> (pds (mach (kern s)))) (<[a_task al := new_child al p]> (tasks (kern s)))
      (nodes (kern s)) (gTaskQueue (kern s)) (gKernelTask (kern s)) (gKernelPageDir (mach (kern s))) ∧
    chans (kern s1) = chans (kern s) ∧ mem (mach (kern s1)) = mem (mach (kern s)) ∧
    pmm (mach (kern s1)) = pmm (mach (kern s))) as (s1 & Hrun & Ha & Hb & Hfr & Hch & Hmem & Hpmm).
  { set (s0 := in_kernel _ s). unfold SYS_ProcessCreate. erewrite bind_Ok by (by apply in_mach_read).
    erewrite bind_Ok.
    2:{ apply in_mach_Ok. by apply (Clone_Ok _ _ _ e). }
    erewrite bind_Ok by (apply (current_Ok _ np p l); exact Hq).
    erewrite bind_Ok by (apply on_kern_Ok, new_task_Ok). eexists. split; [reflexivity|]. by split_and!. }
  destruct (syscall_Ok alloc ProcessCreate r s (SYS_ProcessCreate al) s1 eq_refl Hrun (typed_SYS_ProcessCreate al) Ht) as [Hs Hty].
  exists (regs s1), (back (current_pd s) s1). split; [rewrite Hs; cbn [results ProcessCreate]; by rewrite Ha, Hb|].
  by split_and!.
Qed.

(** The handler, when the caller gives its page at [v] to the task [c]. *)
Lemma give_page s np p l c xp xc pd1 e v pa i j z :
  typed s → queue (kern s) ((np, p) :: l) → p ≠ c →
  ebx (regs s) = v → ecx (regs s) = c → esi (regs s) = Z.lor SWAP_OWNER MAP_ANON →
  tasks (kern s) !! p = Some xp → tasks (kern s) !! c = Some xc → pd_ xp ≠ pd_ xc →
  pds (mach (kern s)) !! pd_ xp = Some pd1 → pds (mach (kern s)) !! pd_ xc = Some e →
  page_aligned v → mapping pd1 (v / kPageSize4M) = Some pa →
  (∃ j, FREE_PAGE_LOWER_BOUND ≤ j < kNumPageDirEntries ∧ mapping e j = None) →
  Pmm.used (pmm (mach (kern s))) (AddrToPage pa) = true →
  list_find (λ q, q = AddrToPage pa) (owned_phys_pages_ xp) = Some (i, AddrToPage pa) →
  AddrToPage pa ∉ owned_phys_pages_ xc → list_find (λ q, q = 0) (owned_phys_pages_ xc) = Some (j, z) →
  ∃ v2 s', SYS_MapPage s = Ok (Returned, s') ∧ eax (regs s') = K_OK ∧ ebx (regs s') = v2 ∧
    page_aligned v2 ∧ mapping e (v2 / kPageSize4M) = None ∧
    frame_of s' = Frame (<[pd_ xc := upd e (v2 / kPageSize4M) (new_pde pa PG_USER)]> (pds (mach (kern s))))
      (handed_over p c (AddrToPage pa) i j xp xc (tasks (kern s)))
      (nodes (kern s)) (gTaskQueue (kern s)) (gKernelTask (kern s)) (gKernelPageDir (mach (kern s))) ∧
    chans (kern s') = chans (kern s) ∧ mem (mach (kern s')) = mem (mach (kern s)).
Proof.
  intros Ht Hq Hpc Eb Ec Es Hxp Hxc Hpds Hpd1 Hpd2 Hv Hm1 (j0 & Hj0 & Hm0) Hu Hi Hni Hj.
  pose proof Ht as (((Hoks & _ & Hwf) & _) & _).
  assert (Ea : tobool (Z.land (esi (regs s)) MAP_ANON) = true) by by rewrite Es.
  assert (Eo : tobool (Z.land (esi (regs s)) SWAP_OWNER) = true) by by rewrite Es.
  destruct (SYS_MapPage_Ok s p c xp xc pd1 e) with (i := i) (j := j) as [(_ & _ & Hall)|(v2 & Hv2 & H)].
  - by exists np, l.
  - by split.
  - done.
  - done.
  - done.
  - split; [done|]. by apply (Hoks (pd_ xp)).
  - split; [done|]. by apply (Hoks (pd_ xc)).
  - rewrite Eb, Ea. split; [apply Hv|done].
  - rewrite Eb. intros pa' _ Hpa'. replace pa' with pa by congruence. split_and!; [done..|by exists z].
  - rewrite Ea. done.
  - destruct (Hall j0 Hj0) as [? E]. congruence.
  - rewrite Ea in Hv2. destruct Hv2 as (Ha2 & _ & Hm2 & _). pose proof Hv as [_ Hv0]. pose proof Ha2 as [_ Hz2].
    unfold mapped_at in H. rewrite Eb, Hv0, Hz2, Hm1, Hm2 in H. cbn [Z.eqb andb negb] in H. destruct H as (s1 & Hrun & Hr & Hsh).
    destruct (sh_queue _ _ _ _ _ _ _ _ _ _ _ _ Hsh) as (Hn1 & Hn2 & Hn3 & Hn4 & Hn5).
    destruct (sh_dirs _ _ _ _ _ _ _ _ _ _ _ _ Hsh) as (pd' & Hpd' & Hp). replace pd' with e in * by congruence.
    pose proof (sh_owner _ _ _ _ _ _ _ _ _ _ _ _ Hsh) as Hts. rewrite Eo in Hts. exists v2, s1.
    split; [exact Hrun|]. split; [by rewrite Hr|]. split; [by rewrite Hr|]. split; [exact Ha2|]. split; [exact Hm2|].
    split; [unfold frame_of; by rewrite Hp, Hts, Hn1, Hn2, Hn3, Hn5|]. split; [exact Hn4|]. apply (sh_memory _ _ _ _ _ _ _ _ _ _ _ _ Hsh).
Qed.

Lemma MapAnonAndSwap_Ok r s np p l c xp xc pd1 e v uninit pa i j z :
  typed s → queue (kern s) ((np, p) :: l) → p ≠ c →
  tasks (kern s) !! p = Some xp → tasks (kern s) !! c = Some xc → pd_ xp ≠ pd_ xc →
  pds (mach (kern s)) !! pd_ xp = Some pd1 → pds (mach (kern s)) !! pd_ xc = Some e →
  page_aligned v → mapping pd1 (v / kPageSize4M) = Some pa →
  (∃ j, FREE_PAGE_LOWER_BOUND ≤ j < kNumPageDirEntries ∧ mapping e j = None) →
  Pmm.used (pmm (mach (kern s))) (AddrToPage pa) = true →
  list_find (λ q, q = AddrToPage pa) (owned_phys_pages_ xp) = Some (i, AddrToPage pa) →
  AddrToPage pa ∉ owned_phys_pages_ xc → list_find (λ q, q = 0) (owned_phys_pages_ xc) = Some (j, z) →
  ∃ v2 r' s', MapAnonAndSwap (alloc s) v c uninit r s = Ok (inl ((K_OK, v2), r'), s') ∧ typed s' ∧
    page_aligned v2 ∧ mapping e (v2 / kPageSize4M) = None ∧
    frame_of s' = Frame (<[pd_ xc := upd e (v2 / kPageSize4M) (new_pde pa PG_USER)]> (pds (mach (kern s))))
      (handed_over p c (AddrToPage pa) i j xp xc (tasks (kern s)))
      (nodes (kern s)) (gTaskQueue (kern s)) (gKernelTask (kern s)) (gKernelPageDir (mach (kern s))) ∧
    current_pd s' = current_pd s ∧ chans (kern s') = chans (kern s) ∧ mem (mach (kern s')) = mem (mach (kern s)).
Proof.
  intros Ht Hq Hpc Hxp Hxc Hpds Hpd1 Hpd2 Hv Hm1 Hfree Hu Hi Hni Hj.
  set (st := MapPage_ v c uninit (Z.lor SWAP_OWNER MAP_ANON)).
  destruct (give_page (in_kernel (args st r) s) np p l c xp xc pd1 e v pa i j z) as
    (v2 & s1 & Hrun & Ha & Hb & Hal & Hm & Hfr & Hc & Hmem);
    [by apply typed_in_kernel|exact Hq|exact Hpc|reflexivity|reflexivity|reflexivity|exact Hxp|exact Hxc|exact Hpds|exact Hpd1
    |exact Hpd2|exact Hv|exact Hm1|exact Hfree|exact Hu|exact Hi|exact Hni|exact Hj|].
  destruct (syscall_Ok alloc st r s SYS_MapPage s1 eq_refl Hrun typed_SYS_MapPage Ht) as [Hs Hty].
  change (results st (regs s1)) with (eax (regs s1), ebx (regs s1)) in Hs. rewrite Ha, Hb in Hs.
  exists v2, (regs s1), (back (current_pd s) s1).
  split; [rewrite MapAnonAndSwap_syscall; exact Hs|]. split; [exact Hty|]. split; [exact Hal|].
  split; [exact Hm|]. split; [exact Hfr|]. split; [reflexivity|]. split; [exact Hc|exact Hmem].
Qed.

(** ** The channel *)
Lemma ChannelCreate_Ok r s np p l cs :
  let k := chans (kern s) in let n := length cs in
  typed s → queue (kern s) ((np, p) :: l) → Channel.rep k cs → (n < length (Channel.slots k))%nat → 0 < Channel.elements k →
  ∃ r' s' c, syscall alloc ChannelCreate r s =
      Ok (inl ((Channel.addr_of k n Channel.First, Channel.addr_of k n Channel.Second), r'), s') ∧
    same s s' ∧ mem (mach (kern s')) = mem (mach (kern s)) ∧ let k' := chans (kern s') in
    Channel.rep k' (cs ++ [c]) ∧ Channel.linked k' (cs ++ [c]) n ∧ Channel.owner1 c = p ∧
    (∀ d, Channel.waiting k' (cs ++ [c]) n d = []) ∧
    (∀ i d, Channel.waiting k' (cs ++ [c]) i d = Channel.waiting k cs i d) ∧ Channel.elements k' = Channel.elements k.
Proof.
  intros k n Ht Hq Hrep Hlt He. destruct (alloc_ends s) as (H1 & H2 & Hne & Hf1 & Hf2). set (al := alloc s) in *.
  destruct (Channel.Create_adds_channel k cs (a_storage al) (a_d1 al) (a_d2 al) p) as
    (k' & c & Hrun & Hrep' & Hlk & Ho & _ & Hw & Hrest & Hel & _); try done.
  set (s0 := in_kernel (args ChannelCreate r) s).
  assert (∃ s1, SYS_ChannelCreate al s0 = Ok (Returned, s1) ∧ kern s1 = set_chans k' (kern s0) ∧
    (eax (regs s1), ebx (regs s1)) = (Channel.addr1 k n, Channel.addr2 k n)) as (s1 & Hs1 & Ek & Er).
  { eexists. split; [unfold SYS_ChannelCreate; erewrite bind_Ok by (by apply (current_Ok s0 np p l))|].
    - erewrite bind_Ok by (apply chans_Ok; exact Hrun). reflexivity.
    - split; reflexivity. }
  destruct (syscall_Ok alloc ChannelCreate r s (SYS_ChannelCreate al) s1 eq_refl Hs1 (typed_SYS_ChannelCreate al) Ht) as [Hs Hty].
  change (results ChannelCreate (regs s1)) with (eax (regs s1), ebx (regs s1)) in Hs. rewrite Er in Hs.
  exists (regs s1), (back (current_pd s) s1), c. split; [exact Hs|]. split; [apply same_back; [unfold frame_of; by rewrite Ek|exact Hty]|].
  unfold back. cbn. rewrite Ek. by split_and!.
Qed.


(** A call that only works on the channels. *)
Lemma chans_call (st : stub unit) r s f {B} (g : M Channel.state B) b k' :
  nthZ (kSyscallHandlers (alloc s)) (eax (args st r)) = Some f →
  (∀ s0, regs s0 = regs (in_kernel (args st r) s) → f s0 = (on_kern (on_chans g);; mret Returned) s0) →
  ensures typed f outcome_ok → typed s → g (chans (kern s)) = Ok (b, k') →
  ∃ r' s', syscall alloc st r s = Ok (inl (tt, r'), s') ∧ same s s' ∧ mem (mach (kern s')) = mem (mach (kern s)) ∧
    chans (kern s') = k'.
Proof.
  intros Hn Hf Hk Ht Hg. set (s0 := in_kernel (args st r) s).
  assert (Hrun : f s0 = Ok (Returned, with_chans k' s0)).
  { rewrite Hf by reflexivity. by erewrite bind_Ok by (apply chans_Ok; exact Hg). }
  destruct (syscall_Ok alloc st r s f _ Hn Hrun Hk Ht) as [Hs Hty].
  eexists _, _. split; [rewrite Hs; by destruct (results st _)|]. split; [by apply same_back|]. by split.
Qed.

Lemma TransferHandle_Ok r s cs i c d o : let k := chans (kern s) in
  typed s → Channel.rep k cs → cs !! i = Some c →
  ∃ r' s', syscall alloc (TransferHandle o (Channel.addr_of k i d)) r s = Ok (inl (tt, r'), s') ∧ same s s' ∧
    mem (mach (kern s')) = mem (mach (kern s)) ∧ let k' := chans (kern s') in
    Channel.rep k' (<[i := Channel.given c d o]> cs) ∧ Channel.elements k' = Channel.elements k ∧
    ∀ j d', Channel.waiting k' (<[i := Channel.given c d o]> cs) j d' = Channel.waiting k cs j d'.
Proof.
  intros k Ht Hrep Hc. destruct (Channel.TransferOwner_Ok k cs i d c o Hrep Hc) as (Hrun & Hrep' & Hw).
  destruct (chans_call (TransferHandle o (Channel.addr_of k i d)) r s SYS_TransferHandle _ _ _
    eq_refl ltac:(intros s0 E; unfold SYS_TransferHandle; erewrite bind_Ok by done; by rewrite E) typed_SYS_TransferHandle Ht Hrun)
    as (r' & s' & Hs & Hsame & Hm & Ek).
  exists r', s'. split; [exact Hs|]. split; [exact Hsame|]. split; [exact Hm|]. rewrite Ek. by split_and!.
Qed.

Lemma HandleClose_Ok r s cs i c d : let k := chans (kern s) in
  typed s → Channel.rep k cs → cs !! i = Some c →
  Channel.other_ (Channel.ep_of c d) ≠ 0 → Channel.other_ (Channel.ep_of c (Channel.peer d)) ≠ 0 →
  ∃ r' s', syscall alloc (HandleClose (Channel.addr_of k i d)) r s = Ok (inl (tt, r'), s') ∧ same s s' ∧
    mem (mach (kern s')) = mem (mach (kern s)) ∧ let k' := chans (kern s') in
    Channel.rep k' (<[i := Channel.closed c d]> cs) ∧ Channel.elements k' = Channel.elements k ∧ Channel.bufs k' = Channel.bufs k.
Proof.
  intros k Ht Hrep Hc H1 H2. pose proof (Channel.Close_Ok k cs i d c Hrep Hc) as Hcl.
  rewrite (proj2 (Z.eqb_neq _ _) H1), (proj2 (Z.eqb_neq _ _) H2) in Hcl. destruct Hcl as (k' & Hrun & Hrep' & He & Hb).
  destruct (chans_call (HandleClose (Channel.addr_of k i d)) r s SYS_HandleClose _ _ _
    eq_refl ltac:(intros s0 E; unfold SYS_HandleClose; erewrite bind_Ok by done; by rewrite E) typed_SYS_HandleClose Ht Hrun)
    as (r' & s' & Hs & Hsame & Hm & Ek).
  exists r', s'. split; [exact Hs|]. split; [exact Hsame|]. split; [exact Hm|]. rewrite Ek. by split_and!.
Qed.


Lemma ChannelWrite_Ok r s xp cs i d kp N x : let k := chans (kern s) in
  in_program s xp → sendable s kbuf kp N x → Channel.rep k cs → Channel.linked k cs i →
  Z.of_nat (length (Channel.waiting k cs i (Channel.peer d))) + msize x < 2 ^ 32 →
  ∃ r' s' cs', syscall alloc (ChannelWrite (Channel.addr_of k i d) (address x) (msize x)) r s = Ok (inl (tt, r'), s') ∧ same s s' ∧
    same_outside kp N (mem (mach (kern s))) (mem (mach (kern s'))) ∧ let k' := chans (kern s') in
    Channel.rep k' cs' ∧ Channel.links cs' = Channel.links cs ∧ Channel.elements k' = Channel.elements k ∧
    Channel.waiting k' cs' i (Channel.peer d) =
      Channel.waiting k cs i (Channel.peer d) ++ message_bytes (mem (mach (kern s))) x ∧
    ∀ j d', (j, d') ≠ (i, Channel.peer d) → Channel.waiting k' cs' j d' = Channel.waiting k cs j d'.
Proof.
  intros k Hin (Hu & Hk & Hd & Hn & _) Hrep Hlk Hlen. pose proof Hin as (Ht & Hcur & _). destruct (alloc_new s) as [Hnew Hfr].
  pose proof (alloc_buf s) as Hbuf. set (al := alloc s) in *.
  set (st := ChannelWrite (Channel.addr_of k i d) (address x) (msize x)). set (s0 := in_kernel (args st r) s).
  destruct (ChannelWrite_sends al s0 cs i d x.2 kp) as (m' & k' & cs' & Hrun & Hcp & Hrep' & Hl & _ & He & Hw & Hrest);
    [by eapply program_in_handler|reflexivity|exact Hu|by rewrite Hbuf| |exact Hrep|exact Hlk|exact Hnew|exact Hfr|exact Hlen|].
  { change (edx (regs s0)) with (msize x). unfold disjoint. lia. }
  destruct (syscall_Ok alloc st r s (SYS_ChannelWrite al) _ eq_refl Hrun (typed_SYS_ChannelWrite al) Ht) as [Hs Hty].
  eexists _, _, cs'. split; [exact Hs|]. split; [by apply same_back|]. split; [by eapply copied_outside|]. by split_and!.
Qed.

Lemma write_all_Ok i d kp N xp : ∀ xs r s cs, let k := chans (kern s) in let m := mem (mach (kern s)) in
  in_program s xp → Forall (sendable s kbuf kp N) xs → Channel.rep k cs → Channel.linked k cs i →
  Z.of_nat (length (Channel.waiting k cs i (Channel.peer d) ++ sent m xs)) < 2 ^ 32 →
  ∃ r' s' cs', write_all alloc (Channel.addr_of k i d) xs.*1 r s = Ok (inl (tt, r'), s') ∧ same s s' ∧
    same_outside kp N (memory_after m xs) (mem (mach (kern s'))) ∧ let k' := chans (kern s') in
    Channel.rep k' cs' ∧ Channel.links cs' = Channel.links cs ∧ Channel.elements k' = Channel.elements k ∧
    Channel.waiting k' cs' i (Channel.peer d) = Channel.waiting k cs i (Channel.peer d) ++ sent m xs ∧
    ∀ j d', (j, d') ≠ (i, Channel.peer d) → Channel.waiting k' cs' j d' = Channel.waiting k cs j d'.
Proof.
  induction xs as [|x xs IH]; intros r s cs k m Hin Hxs Hrep Hlk Hlen.
  { exists r, s, cs. split; [reflexivity|]. split; [split; [done|split; [done|apply Hin]]|]. split; [done|]. cbn [sent].
    rewrite app_nil_r. by split_and!. }
  apply Forall_cons in Hxs as [Hx Hxs]. cbn [sent memory_after] in *. rewrite !length_app in Hlen.
  assert (El : Z.of_nat (length (message_bytes (built x m) x)) = msize x).
  { unfold message_bytes. rewrite length_mem_bytes. destruct Hx as ([(_ & ? & _) _] & _). lia. }
  set (s0 := wrote (built x m) s).
  assert (S0 : same s s0) by (apply same_wrote; [apply Hin|]; apply Hx; by destruct Hin as ((((_ & ? & _) & _) & _) & _)).
  assert (Hxs0 : ∀ y, sendable s kbuf kp N y → sendable s0 kbuf kp N y) by (intros y; by apply same_sendable).
  destruct (ChannelWrite_Ok r s0 xp cs i d kp N x) as (r1 & s1 & cs1 & Hs1 & Hsame & Hm1 & Hrep1 & Hl1 & He1 & Hw1 & Hr1);
    [by eapply same_in_program|by apply Hxs0|exact Hrep|exact Hlk|change (chans (kern s0)) with k; lia|].
  change (chans (kern s0)) with k in *. change (mem (mach (kern s0))) with (built x m) in *.
  pose proof (same_trans _ _ _ S0 Hsame) as S1. destruct (same_sent s kbuf kp N xs Hxs _ _ Hm1) as [Eb Hm1'].
  assert (Ea : Channel.addr_of (chans (kern s1)) i d = Channel.addr_of k i d).
  { unfold Channel.addr_of, Channel.addr1, Channel.addr2, Channel.addr1. by rewrite He1. }
  destruct (IH r1 s1 cs1) as (r2 & s2 & cs2 & Hs2 & Hsame2 & Hm2 & Hrep2 & Hl2 & He2 & Hw2 & Hr2);
    [by eapply same_in_program| |exact Hrep1|by eapply Channel.linked_links| |].
  { eapply Forall_impl; [exact Hxs|]. intros y. by apply same_sendable. }
  { rewrite Eb, Hw1, !length_app. lia. }
  rewrite Ea in Hs2. rewrite Eb, Hw1, <- app_assoc in Hw2. exists r2, s2, cs2.
  split.
  { rewrite fmap_cons. cbn [write_all].
    rewrite (prog_bind_Ok _ _ _ _ _ _ _ (eq_refl : program_stores (built x) r s = Ok (inl (tt, r), s0))).
    rewrite (prog_bind_Ok _ _ _ _ _ _ _ Hs1). exact Hs2. }
  split; [by eapply same_trans|]. split; [by eapply same_outside_trans|]. split; [exact Hrep2|]. split; [by rewrite Hl2|].
  split; [by rewrite He2|]. split; [exact Hw2|]. intros j d' Hne. by rewrite Hr2, Hr1.
Qed.

(** ** The start *)
Lemma ProcessStart_Ok r s l c xc entry arg : let n := a_node (alloc s) in
  typed s → queue (kern s) l → l ≠ [] → tasks (kern s) !! c = Some xc → listening_for_signals_ xc = [] →
  ∃ nd r' s', syscall alloc (ProcessStart c entry arg) r s = Ok (inl (tt, r'), s') ∧ typed s' ∧
    LinkedList.is_list nd (gTaskQueue (kern s)) (l ++ [(n, c)]) ∧
    frame_of s' = Frame (pds (mach (kern s))) (<[c := setArg arg (setEntry entry xc)]> (tasks (kern s)))
      nd (gTaskQueue (kern s)) (gKernelTask (kern s)) (gKernelPageDir (mach (kern s))) ∧
    current_pd s' = current_pd s ∧ chans (kern s') = chans (kern s) ∧ mem (mach (kern s')) = mem (mach (kern s)).
Proof.
  intros n Ht Hq Hl Hxc Hls. destruct (alloc_node s) as [Hn0 Hnf]. set (al := alloc s) in *.
  set (st := ProcessStart c entry arg). set (k0 := kern (in_kernel (args st r) s)).
  set (k1 := set_tasks (<[c := setArg arg (setEntry entry xc)]> (tasks k0)) k0).
  destruct (RegisterTask_Ok k1 l n c (setArg arg (setEntry entry xc))) as (nd & R & Hlist); try done; [apply lookup_insert_eq|].
  assert (∃ s1, SYS_ProcessStart al (in_kernel (args st r) s) = Ok (Returned, s1) ∧ kern s1 = set_nodes nd k1) as (s1 & Hrun & Ek).
  { eexists. split.
    - unfold SYS_ProcessStart. erewrite bind_Ok by reflexivity. cbv zeta.
      erewrite bind_Ok by (apply on_kern_Ok, with_task_Ok; exact Hxc).
      erewrite bind_Ok by (apply on_kern_Ok, with_task_Ok; apply lookup_insert_eq).
      erewrite (bind_Ok _ _ _ tt); [reflexivity|]. apply on_kern_Ok. rewrite <- R. f_equal.
      unfold k1, set_tasks. cbn. by rewrite insert_insert_eq.
    - reflexivity. }
  destruct (syscall_Ok alloc st r s (SYS_ProcessStart al) s1 eq_refl Hrun (typed_SYS_ProcessStart al) Ht) as [Hs Hty].
  exists nd, (regs s1), (back (current_pd s) s1). split; [exact Hs|]. split; [exact Hty|]. split; [exact Hlist|].
  unfold frame_of, back. cbn. rewrite Ek. by split_and!.
Qed.


(** ** The parts of [LoadElfProgram] *)
Lemma links_take n cs : take n (Channel.links cs) = Channel.links (take n cs).
Proof. unfold Channel.links. by rewrite fmap_take. Qed.

Lemma start_channel_Ok r s np p l xp cs c xs kp N :
  let k := chans (kern s) in let n := length cs in let m := mem (mach (kern s)) in
  in_program s xp → queue (kern s) ((np, p) :: l) → Channel.rep k cs → (n < length (Channel.slots k))%nat → 0 < Channel.elements k →
  Forall (sendable s kbuf kp N) xs → Z.of_nat (length (sent m xs)) < 2 ^ 32 →
  ∃ r' s' cs' ch, start_channel alloc c xs.*1 r s =
      Ok (inl ((Channel.addr_of k n Channel.First, Channel.addr_of k n Channel.Second), r'), s') ∧
    same s s' ∧ same_outside kp N (memory_after m xs) (mem (mach (kern s'))) ∧ let k' := chans (kern s') in
    Channel.rep k' cs' ∧ Channel.linked k' cs' n ∧ cs' !! n = Some ch ∧ Channel.owner1 ch = p ∧ Channel.owner2 ch = c ∧
    Channel.elements k' = Channel.elements k ∧ Channel.waiting k' cs' n Channel.Second = sent m xs ∧
    (∀ i d, (i < n)%nat → Channel.waiting k' cs' i d = Channel.waiting k cs i d) ∧
    length cs' = S n ∧ take n (Channel.links cs') = Channel.links cs.
Proof.
  intros k n m Hin Hq Hrep Hroom Hel Hxs Hlen.
  destruct (ChannelCreate_Ok r s np p l cs) as (r1 & s1 & ch & R1 & S1 & M1 & Hrep1 & Hlk1 & Ho & Hw0 & Hw1 & He1);
    [apply Hin|exact Hq|exact Hrep|exact Hroom|exact Hel|]. fold k n in R1, Hlk1, Hw0, Hw1, He1.
  assert (Hc1 : (cs ++ [ch]) !! n = Some ch) by (rewrite lookup_app_r, Nat.sub_diag; done).
  assert (Ea : ∀ k' d, Channel.elements k' = Channel.elements k → Channel.addr_of k' n d = Channel.addr_of k n d).
  { intros k' d E. unfold Channel.addr_of, Channel.addr1, Channel.addr2, Channel.addr1. by rewrite E. }
  destruct (TransferHandle_Ok r1 s1 (cs ++ [ch]) n ch Channel.Second c) as (r2 & s2 & R2 & S2 & M2 & Hrep2 & He2 & Hw2);
    [apply S1|exact Hrep1|exact Hc1|]. rewrite Ea in R2 by done.
  set (cs2 := <[n := Channel.given ch Channel.Second c]> (cs ++ [ch])) in *.
  assert (Hlk2 : Channel.linked (chans (kern s2)) cs2 n).
  { destruct Hlk1 as (ch' & Hch' & H1 & H2 & Hd). replace ch' with ch in * by congruence.
    exists (Channel.given ch Channel.Second c). split; [apply list_lookup_insert_eq; by eapply lookup_lt_Some|].
    unfold Channel.addr_of, Channel.addr1, Channel.addr2, Channel.addr1 in *. rewrite He2. split; [exact H1|]. split; [exact H2|].
    intros d. rewrite Channel.ep_of_given. apply Hd. }
  destruct (write_all_Ok n Channel.First kp N xp xs r2 s2 cs2) as (r3 & s3 & cs3 & R3 & S3 & M3 & Hrep3 & Hl3 & He3 & Hw3 & Hr3);
    [by eapply same_in_program; [eapply same_in_program|]| |exact Hrep2|exact Hlk2| |].
  { eapply Forall_impl; [exact Hxs|]. intros x Hx. by eapply same_sendable; [|eapply same_sendable]. }
  { rewrite Hw2, Hw0, M2, M1. exact Hlen. }
  rewrite Ea in R3 by congruence. rewrite M2, M1 in M3, Hw3. rewrite Hw2, Hw0 in Hw3.
  destruct (Channel.links_lookup cs2 cs3 n (Channel.given ch Channel.Second c) Hl3) as (ch' & Hch' & Ho1 & Ho2 & _); [apply list_lookup_insert_eq; by eapply lookup_lt_Some|].
  exists r3, s3, cs3, ch'. split.
  { unfold start_channel. rewrite (prog_bind_Ok _ _ _ _ _ _ _ R1). cbv iota beta.
    rewrite (prog_bind_Ok _ _ _ _ _ _ _ R2), (prog_bind_Ok _ _ _ _ _ _ _ R3). reflexivity. }
  split; [by eapply same_trans; [eapply same_trans|]|]. split; [exact M3|]. split; [exact Hrep3|].
  split; [by eapply Channel.linked_links|]. split; [exact Hch'|]. split; [by rewrite Ho1|]. split; [by rewrite Ho2|].
  split; [congruence|]. split; [exact Hw3|]. split; [intros i d Hi; rewrite Hr3, Hw2, Hw1; [done|]; intros [= -> _]; lia|].
  split.
  - pose proof (f_equal length Hl3) as E. unfold Channel.links in E. rewrite !length_fmap in E. rewrite E. unfold cs2.
    rewrite length_insert, length_app. cbn. unfold n. lia.
  - rewrite Hl3. unfold cs2. rewrite links_take, take_insert_ge by lia. unfold n. by rewrite take_app_length.
Qed.


Lemma new_process_Ok r s np p l xp pd1 e v uninit pa i relocate : let al := alloc s in let k := kern s in
  typed s → queue k ((np, p) :: l) → tasks k !! p = Some xp → pds (mach k) !! pd_ xp = Some pd1 →
  pds (mach k) !! gKernelPageDir (mach k) = Some e →
  page_aligned v → mapping pd1 (v / kPageSize4M) = Some pa →
  (∃ j, FREE_PAGE_LOWER_BOUND ≤ j < kNumPageDirEntries ∧ mapping e j = None) →
  Pmm.used (pmm (mach k)) (AddrToPage pa) = true → AddrToPage pa ≠ 0 →
  list_find (λ q, q = AddrToPage pa) (owned_phys_pages_ xp) = Some (i, AddrToPage pa) →
  (∀ v m, map_Forall (λ _, is_u8) m → map_Forall (λ _, is_u8) (relocate v m)) →
  ∃ v2 r' s', new_process alloc v uninit relocate r s = Ok (inl ((a_task al, v2), r'), s') ∧ typed s' ∧
    page_aligned v2 ∧ mapping e (v2 / kPageSize4M) = None ∧
    frame_of s' = Frame (<[a_pd al := upd e (v2 / kPageSize4M) (new_pde pa PG_USER)]> (pds (mach k)))
      (<[a_task al := with_image (AddrToPage pa) (new_child al p)]>
         (<[p := set_owned (<[i := 0]> (owned_phys_pages_ xp)) xp]> (tasks k)))
      (nodes k) (gTaskQueue k) (gKernelTask k) (gKernelPageDir (mach k)) ∧
    current_pd s' = current_pd s ∧ chans (kern s') = chans k ∧ mem (mach (kern s')) = relocate v2 (mem (mach k)).
Proof.
  intros al k Ht Hq Hxp Hpd1 He Hv Hm Hfree Hu H0 Hi Hrel.
  destruct (alloc_task s) as [_ Htf], (alloc_pd s) as [_ Hpf]. fold al k in Htf, Hpf.
  destruct (ProcessCreate_Ok r s np p l e Ht Hq He) as (r1 & s1 & R1 & T1 & F1 & C1 & K1 & M1 & P1). fold al k in R1, F1.
  injection F1 as Fp Ft Fn Fq Fk Fd. assert (Hpc : p ≠ a_task al) by (intros E; rewrite E in Hxp; congruence).
  destruct (MapAnonAndSwap_Ok r1 s1 np p l (a_task al) xp (new_child al p) pd1 e v uninit pa i 0 0) as
    (v2 & r2 & s2 & R2 & T2 & Ha2 & Hm2 & F2 & C2 & K2 & M2); [exact T1| |exact Hpc| | | | | |exact Hv|exact Hm|exact Hfree| |exact Hi| |done|].
  - unfold queue. rewrite Fn, Fq. exact Hq.
  - by rewrite Ft, lookup_insert_ne.
  - by rewrite Ft, lookup_insert_eq.
  - cbn. congruence.
  - rewrite Fp, lookup_insert_ne by congruence. exact Hpd1.
  - by rewrite Fp, lookup_insert_eq.
  - rewrite P1. exact Hu.
  - cbn [owned_phys_pages_ new_child]. by intros E%elem_of_replicate_inv.
  - exists v2, r2, (wrote (relocate v2 (mem (mach (kern s2)))) s2). split.
    { unfold new_process. rewrite (prog_bind_Ok _ _ _ _ _ _ _ R1). cbn [fst snd]. rewrite Z.eqb_refl.
      rewrite (prog_bind_Ok _ _ _ _ _ _ _ (eq_refl : debug_assert true r1 s1 = Ok (inl (tt, r1), s1))). cbv zeta.
      rewrite (prog_bind_Ok (λ r s, MapAnonAndSwap (alloc s) v (a_task al) uninit r s) _ _ _ _ _ _ R2). cbn [fst snd]. rewrite Z.eqb_refl. reflexivity. }
    split; [by apply typed_wrote, Hrel, T2|]. split; [exact Ha2|]. split; [exact Hm2|].
    change (frame_of (wrote (relocate v2 (mem (mach (kern s2)))) s2)) with (frame_of s2).
    change (current_pd (wrote (relocate v2 (mem (mach (kern s2)))) s2)) with (current_pd s2).
    rewrite F2, Fp, Ft, Fn, Fq, Fk, Fd. unfold handed_over. cbn [pd_ new_child]. rewrite insert_insert_eq.
    rewrite (insert_insert_ne (tasks k) p (a_task al)) by done. rewrite insert_insert_eq.
    split; [reflexivity|]. split; [congruence|]. split; [exact (eq_trans K2 K1)|]. cbn. by rewrite M2, M1.
Qed.


Lemma last_calls_Ok r s l c xc entry arg cs n ch : let k := chans (kern s) in let nc := a_node (alloc s) in
  typed s → queue (kern s) l → l ≠ [] → tasks (kern s) !! c = Some xc → listening_for_signals_ xc = [] →
  Channel.rep k cs → Channel.linked k cs n → cs !! n = Some ch →
  ∃ nd r1 s1 r' s', syscall alloc (ProcessStart c entry arg) r s = Ok (inl (tt, r1), s1) ∧
    syscall alloc (HandleClose (Channel.addr_of k n Channel.First)) r1 s1 = Ok (inl (tt, r'), s') ∧ typed s' ∧
    LinkedList.is_list nd (gTaskQueue (kern s)) (l ++ [(nc, c)]) ∧
    frame_of s' = Frame (pds (mach (kern s))) (<[c := setArg arg (setEntry entry xc)]> (tasks (kern s)))
      nd (gTaskQueue (kern s)) (gKernelTask (kern s)) (gKernelPageDir (mach (kern s))) ∧
    current_pd s' = current_pd s ∧ mem (mach (kern s')) = mem (mach (kern s)) ∧ let k' := chans (kern s') in
    Channel.rep k' (<[n := Channel.closed ch Channel.First]> cs) ∧ Channel.elements k' = Channel.elements k ∧
    ∀ j d, Channel.waiting k' (<[n := Channel.closed ch Channel.First]> cs) j d = Channel.waiting k cs j d.
Proof.
  intros k nc Ht Hq Hl Hxc Hls Hrep (ch' & Hch' & Ha1 & Ha2 & Hd) Hch. replace ch' with ch in * by congruence.
  destruct (ProcessStart_Ok r s l c xc entry arg Ht Hq Hl Hxc Hls) as (nd & r1 & s1 & R1 & T1 & Hlist & F1 & C1 & K1 & M1).
  destruct (HandleClose_Ok r1 s1 cs n ch Channel.First) as (r2 & s2 & R2 & (F2 & C2 & T2) & M2 & Hrep2 & He2 & Hb);
    [exact T1|by rewrite K1|exact Hch|rewrite Hd; exact Ha2|rewrite Hd; exact Ha1|]. rewrite K1 in R2, Hb, He2.
  exists nd, r1, s1, r2, s2. split; [exact R1|]. split; [exact R2|]. split; [exact T2|]. split; [exact Hlist|].
  split; [by rewrite F2|]. split; [congruence|]. split; [by rewrite M2|]. split; [exact Hrep2|]. split; [exact He2|]. by apply Channel.waiting_closed.
Qed.

End steps.

(** The new task when it is in the queue. *)
Definition started (al : allocs) (p q entry arg : Z) : Task := setArg arg (setEntry entry (with_image q (new_child al p))).

Lemma started_ok al p q entry arg : a_stack al ≠ 0 → u32 (a_stack al + kDefaultKernStackSize) mod 4 = 0 → task_ok (started al p q entry arg).
Proof. intros H1 H2. split; [reflexivity|]. split; [exact H1|]. split; [exact H2|]. done. Qed.

(** * Properties *)
Section start.
  Context (alloc : allocator) (kbuf : Z) `{!KernelAlloc alloc kbuf}.
  (** The program [p] runs, with the image on its page at [v], which is the physical page at
      [pa].  The kernel's directory has a free page. *)
  Context (s : sys) (np p : Z) (l : list (Z * Z)) (xp : Task) (pd1 kpd : list Z) (v pa : Z) (i : nat).
Let k := kern s.
Let m := mach k.
  Hypothesis Hin : in_program s xp.
  Hypothesis Hinv : inv k ((np, p) :: l).
  Hypothesis Hxp : tasks k !! p = Some xp.
  Hypothesis Hpd1 : pds m !! pd_ xp = Some pd1.
  Hypothesis Hkpd : pds m !! gKernelPageDir m = Some kpd.
  Hypothesis Hfree : ∃ j, FREE_PAGE_LOWER_BOUND ≤ j < kNumPageDirEntries ∧ mapping kpd j = None.
  Hypothesis Hpage : page_aligned v ∧ mapping pd1 (v / kPageSize4M) = Some pa.
  Hypothesis Howned : Pmm.used (pmm m) (AddrToPage pa) = true ∧ AddrToPage pa ≠ 0 ∧
    list_find (λ q, q = AddrToPage pa) (owned_phys_pages_ xp) = Some (i, AddrToPage pa).
  (** The relocations store bytes. *)
  Context (relocate : Z → stores).
  Hypothesis Hrel : ∀ v m, map_Forall (λ _, is_u8) m → map_Forall (λ _, is_u8) (relocate v m).
  (** The vector of the channels has room, and the kernel has memory for its copies of the messages. *)
  Context (cs : list Channel.Channel) (xs : list message) (kp N : Z).
  Hypothesis Hrep : Channel.rep (chans k) cs.
  Hypothesis Hroom : (length cs < length (Channel.slots (chans k)))%nat ∧ 0 < Channel.elements (chans k).
  Hypothesis Hxs : Forall (sendable s kbuf kp N) xs.
  Hypothesis Hlen : Z.of_nat (sum_list_with (λ x, Z.to_nat (msize x)) xs) < 2 ^ 32.

(** What a program has that was started. *)
Definition runs_image (c d v2 entry endp : Z) (s' : sys) : Prop :=
  let m' := mach (kern s') in
  tasks (kern s') = <[c := started (alloc s) p (AddrToPage pa) entry endp]>
    (<[p := set_owned (<[i := 0]> (owned_phys_pages_ xp)) xp]> (tasks k)) ∧
  (∀ o, 0 ≤ o < kPageSize4M → vtranslate m' d (v2 + o) = Some (pa + o)) ∧
  (∀ w, w / kPageSize4M ≠ v2 / kPageSize4M → vtranslate m' d w = vtranslate m (gKernelPageDir m) w) ∧
  (∀ d' w, d' ≠ d → vtranslate m' d' w = vtranslate m d' w).

Lemma new_directory c d v2 entry endp s' : pd_ok kpd →
  pds (mach (kern s')) = <[d := upd kpd (v2 / kPageSize4M) (new_pde pa PG_USER)]> (pds m) → page_aligned v2 → page_aligned pa →
  tasks (kern s') = <[c := started (alloc s) p (AddrToPage pa) entry endp]>
    (<[p := set_owned (<[i := 0]> (owned_phys_pages_ xp)) xp]> (tasks k)) →
  runs_image c d v2 entry endp s'.
Proof using Hkpd.
  intros Hok Ep Ha2 Hpa Et. destruct (new_pde_spec pa PG_USER Hpa) as (_ & Hpr & Hmask & _); [done|].
  pose proof (page_of_addr v2 (proj1 Ha2)) as Hi2. split; [exact Et|]. unfold vtranslate. rewrite Ep. split; [|split].
  - intros o Ho. rewrite lookup_insert_eq. apply page_translates; [exact Ha2| |exact Ho].
    rewrite mapping_upd by done. by rewrite Z.eqb_refl, Hpr, Hmask.
  - intros w Hw. rewrite lookup_insert_eq, Hkpd, !translate_mapping, mapping_upd by done.
    by rewrite (proj2 (Z.eqb_neq _ _) Hw).
  - intros d' w Hd. by rewrite lookup_insert_ne.
Qed.

(** The old directories are as they were behind [new_process]. *)
Lemma new_keeps s1 u :
  typed s1 → pds (mach (kern s1)) = <[a_pd (alloc s) := u]> (pds m) → gKernelPageDir (mach (kern s1)) = gKernelPageDir m →
  current_pd s1 = current_pd s → in_program s1 xp ∧ Forall (sendable s1 kbuf kp N) xs.
Proof using KernelAlloc0 Hin Hpd1 Hxs.
  intros Ht Ep Ek Ec. destruct (alloc_pd s) as [_ Hf]. unfold m, k in *. destruct Hin as (_ & Hc & Hne & cpd & j & Hcpd & Hj).
  assert (Hp : ∀ d pd, pds (mach (kern s)) !! d = Some pd → pds (mach (kern s1)) !! d = pds (mach (kern s)) !! d).
  { intros d pd Hd. rewrite Ep. apply lookup_insert_ne. congruence. }
  assert (Hcur : current_pd s = pd_ xp) by exact Hc. split.
  - split; [exact Ht|]. unfold current_pd in *. rewrite Ec, Ek. split; [exact Hc|]. split; [exact Hne|]. exists cpd, j.
    split; [|exact Hj]. by rewrite (Hp _ cpd).
  - eapply Forall_impl; [exact Hxs|]. intros x. unfold sendable, range_at, vtranslate.
    rewrite Ec, Ek, Hcur, (Hp _ _ Hpd1), (Hp _ _ Hcpd). done.
Qed.


End start.

(** * An example

    Program 200 of Wait.v has its image on the page at 0xC00000; its two messages are built one
    after the other at the same place, and the relocations store one byte.  The addresses that the allocator returns are new. *)
Definition new_address (X : gset Z) : Z := base.fresh ({[0]} ∪ X).

Lemma new_address_ok X : new_address X ≠ 0 ∧ new_address X ∉ X.
Proof. pose proof (is_fresh ({[0]} ∪ X)) as H. unfold new_address. set_solver. Qed.

Definition example_alloc : allocator := λ s,
  let k := kern s in
  let d1 := new_address (dom (Channel.bufs (chans k))) in
  mkAllocs 0x400100 (new_address (dom (pds (mach k)))) (new_address (dom (tasks k))) 0x60000
    (new_address (dom (nodes k))) 0 d1 (new_address ({[d1]} ∪ dom (Channel.bufs (chans k)))) d1.

#[export] Instance example_alloc_ok : KernelAlloc example_alloc 0x400100.
Proof.
  assert (H : ∀ {A} (g : gmap Z A), new_address (dom g) ≠ 0 ∧ g !! new_address (dom g) = None).
  { intros A g. destruct (new_address_ok (dom g)) as [H0 Hn]. split; [exact H0|]. by apply not_elem_of_dom. }
  split; intros s; [apply H|apply H|by split|apply H| |apply H|done].
  cbn [a_d1 a_d2 example_alloc]. set (d1 := new_address (dom _)). destruct (H _ (Channel.bufs (chans (kern s)))) as [H0 Hn].
  destruct (new_address_ok ({[d1]} ∪ dom (Channel.bufs (chans (kern s))))) as [H1 H2].
  split; [exact H0|]. split; [exact H1|]. split; [set_solver|]. split; [exact Hn|]. apply not_elem_of_dom. set_solver.
Qed.

Definition example_loader : sys := with_chans Channel.example_state example_parent.
Definition example_messages : list message := 
  [(λ m, <[0x1400020 := 7]> m, 0xC00020, 4, 0x1400020); (λ m, <[0x1400020 := 8]> m, 0xC00020, 2, 0x1400020)].
Definition example_relocate (v : Z) (m : gmap Z Z) : gmap Z Z := <[0x1400000 := u8 (v / kPageSize4M)]> m.

Lemma example_stores a b : is_u8 b → 0x1400000 ≤ a → user_stores 0x400100 4 (λ m, <[a := b]> m).
Proof.
  intros Hb Ha. split; [intros m Hm; by apply map_Forall_insert_2|]. intros m m' Hm q Hq. unfold byte_at in *.
  destruct (decide (q = a)) as [->|]; [by rewrite !lookup_insert_eq|]. rewrite !lookup_insert_ne by done. by apply Hm.
Qed.

Lemma example_sendable v n b : 0xC00000 ≤ v < 0xC10000 → 0 ≤ n ≤ 4 → is_u8 b →
  sendable example_loader 0x400100 0x400100 4 (λ m, <[v + 0x800000 := b]> m, v, n, v + 0x800000).
Proof.
  intros Hv Hn Hb. destruct (example_copy_ok v Hv) as ([(Hu & _ & Hm) Ht] & [(Hu' & _ & Hm') Ht'] & _). cbn [fst snd].
  split; [split; [split; [exact Hu|cbn; lia]|exact Ht]|]. split; [split; [split; [exact Hu'|cbn; lia]|exact Ht']|].
  split; [right; cbn; lia|]. split; [cbn; lia|]. apply example_stores; [exact Hb|lia].
Qed.


End Spawn.
