(* ===== verification/LibcString.v ===== *)
(** The string and memory functions of libc/string.cpp and libc/ctype.cpp.

    Memory is a map from addresses to bytes; an address that is not in the map is not
    backed by a page, and touching it is a [PageFault].  The address of the temporary buffer
    of [memmove] is an argument.  A loop over a C string visits distinct addresses, so the
    number of mapped bytes bounds it. *)
From S2P Require Import Prelude.

Module LibcString.

Abbreviation memory := (gmap Z Z).

Definition load (a : Z) : M memory Z := λ m,
  match m !! u32 a with Some b => Ok (b, m) | None => Fault PageFault end.

Definition store (a b : Z) : M memory unit := λ m,
  match m !! u32 a with Some _ => Ok (tt, <[u32 a := u8 b]> m) | None => Fault PageFault end.

(** A [char] is signed. *)
Definition schar (b : Z) : Z := if b <? 128 then b else b - 256.

Definition fuel_of (m : memory) : nat := S (size m).
#[global] Arguments fuel_of : simpl never.

(** ** Memory *)
Fixpoint memset_loop (size : nat) (p value : Z) : M memory unit :=
  match size with
  | O => mret tt
  | S size => store p value;; memset_loop size (p + 1) value
  end.

Definition memset (ptr value size : Z) : M memory Z := memset_loop (Z.to_nat size) ptr value;; mret ptr.

Fixpoint memcpy_loop (num : nat) (dst src : Z) : M memory unit :=
  match num with
  | O => mret tt
  | S num => b ← load src; store dst b;; memcpy_loop num (dst + 1) (src + 1)
  end.

Definition memcpy (dst src num : Z) : M memory Z := memcpy_loop (Z.to_nat num) dst src;; mret dst.

(** [malloc] returns [temp], [size] bytes of any value; [free] takes them away. *)
Fixpoint alloc (n : nat) (p : Z) (m : memory) : memory :=
  match n with O => m | S n => <[p := 0]> (alloc n (p + 1) m) end.
Fixpoint release (n : nat) (p : Z) (m : memory) : memory :=
  match n with O => m | S n => delete p (release n (p + 1) m) end.

Definition memmove (temp dest src size : Z) : M memory Z :=
  if size =? 0 then mret dest
  else
    modify (alloc (Z.to_nat size) temp);;
    memcpy temp src size;;
    memcpy dest temp size;;
    modify (release (Z.to_nat size) temp);;
    mret dest.

Fixpoint memcmp_loop (size : nat) (v1 v2 : Z) : M memory Z :=
  match size with
  | O => a ← load v1; b ← load v2; mret (a - b)
  | S size => a ← load v1; b ← load v2;
              if a =? b then memcmp_loop size (v1 + 1) (v2 + 1)
              else a ← load v1; b ← load v2; mret (a - b)
  end.

Definition memcmp (lhs rhs size : Z) : M memory Z := memcmp_loop (Z.to_nat size) lhs rhs.

(** ** Strings *)
Fixpoint strlen_loop (fuel : nat) (str len : Z) : M memory Z :=
  match fuel with
  | O => fail NoFuel
  | S fuel => c ← load (str + len); if tobool c then strlen_loop fuel str (len + 1) else mret len
  end.

Definition strlen (str : Z) : M memory Z := fuel ← gets fuel_of; strlen_loop fuel str 0.

Fixpoint pad (n : nat) (dst : Z) : M memory Z :=
  match n with O => mret dst | S n => store dst 0;; pad n (dst + 1) end.

Definition strncpy (dst src num : Z) : M memory Z :=
  len ← strlen src;
  let cpy := if len <? num then len else num in
  memcpy_loop (Z.to_nat cpy) dst src;;
  pad (Z.to_nat (num - cpy)) (dst + cpy).

Definition strcpy (dst src : Z) : M memory Z := len ← strlen src; strncpy dst src len.

Fixpoint strncmp_loop (fuel : nat) (s1 s2 n : Z) : M memory Z :=
  match fuel with
  | O => fail NoFuel
  | S fuel =>
      a ← load s1;
      b ← (if tobool a then load s2 else mret 0);
      if tobool a && (a =? b) then
        let n' := u32 (n - 1) in
        if tobool n then strncmp_loop fuel (s1 + 1) (s2 + 1) n'
        else a ← load s1; b ← load s2; mret (if tobool n' then schar a - schar b else 0)
      else
        if tobool n then a ← load s1; b ← load s2; mret (schar a - schar b) else mret 0
  end.

Definition strncmp (s1 s2 n : Z) : M memory Z :=
  if n =? 0 then mret 0 else fuel ← gets fuel_of; strncmp_loop fuel s1 s2 n.

Fixpoint strcmp_loop (fuel : nat) (s1 s2 : Z) : M memory Z :=
  match fuel with
  | O => fail NoFuel
  | S fuel =>
      a ← load s1;
      b ← load s2;
      if tobool a && (a =? b) then strcmp_loop fuel (s1 + 1) (s2 + 1) else mret (schar a - schar b)
  end.

Definition strcmp (s1 s2 : Z) : M memory Z := fuel ← gets fuel_of; strcmp_loop fuel s1 s2.

(** The inner loop of [strstr]: the first [j] where the strings differ or [str] ends. *)
Fixpoint match_at (fuel : nat) (str substr j : Z) : M memory Z :=
  match fuel with
  | O => fail NoFuel
  | S fuel =>
      a ← load (str + j);
      if tobool a then
        b ← load (substr + j);
        if a =? b then match_at fuel str substr (j + 1) else mret j
      else mret j
  end.

Fixpoint strstr_loop (fuel : nat) (str substr i : Z) : M memory Z :=
  match fuel with
  | O => fail NoFuel
  | S fuel =>
      c ← load (str + i);
      if tobool c then
        inner ← gets fuel_of;
        j ← match_at inner (str + i) substr 0;
        e ← load (substr + j);
        if tobool e then strstr_loop fuel str substr (i + 1) else mret (str + i)
      else mret 0
  end.

Definition strstr (str substr : Z) : M memory Z :=
  c ← load substr;
  if tobool c then fuel ← gets fuel_of; strstr_loop fuel str substr 0 else mret str.

Fixpoint strchr_loop (fuel : nat) (src ch : Z) : M memory Z :=
  match fuel with
  | O => fail NoFuel
  | S fuel =>
      c ← load src;
      if tobool c && negb (c =? ch) then strchr_loop fuel (src + 1) ch
      else mret (if c =? ch then src else 0)
  end.

Definition strchr (src c : Z) : M memory Z := fuel ← gets fuel_of; strchr_loop fuel src (u8 c).

(** ** ctype.cpp *)
Definition isspace (c : Z) : bool :=
  match c with 32 | 12 | 10 | 13 | 9 | 11 => true | _ => false end.

Definition isprint (c : Z) : bool := u32 (u32 c - 32) <? 95.

(** * C strings *)

(** The characters [s] are at [p], then a zero byte. *)
Fixpoint cstr (m : memory) (p : Z) (s : list Z) : Prop :=
  is_u32 p ∧
  match s with
  | [] => m !! p = Some 0
  | c :: s => m !! p = Some c ∧ 0 < c < 256 ∧ cstr m (p + 1) s
  end.

(** The difference that decides a comparison: of the first characters that differ, the end
    of a string being a zero. *)
Fixpoint diff (s t : list Z) : Z :=
  match s, t with
  | a :: s, b :: t => if a =? b then diff s t else schar a - schar b
  | a :: _, [] => schar a
  | [], b :: _ => - schar b
  | [], [] => 0
  end.

(** [t] is at the start of [s]. *)
Definition at_start (t s : list Z) : bool := bool_decide (take (length t) s = t).

(** The first place of [t] in [s]. *)
Fixpoint first_place (t s : list Z) (i : Z) : option Z :=
  if at_start t s then Some i
  else match s with [] => None | _ :: s => first_place t s (i + 1) end.

(** * Lemmas *)
Lemma cstr_range m p s : cstr m p s → is_u32 p.
Proof. destruct s; by intros [? _]. Qed.

Lemma cstr_load m p s : cstr m p s → load p m = Ok (default 0 (head s), m).
Proof.
  intros H. unfold load. rewrite u32_id by (by eapply cstr_range).
  destruct s as [|c s]; destruct H as [_ H]; [by rewrite H|]. destruct H as [-> _]. done.
Qed.

Lemma cstr_drop m p s i : cstr m p s → (i ≤ length s)%nat → cstr m (p + Z.of_nat i) (drop i s).
Proof.
  revert p s. induction i as [|i IH]; intros p s H Hi; [by rewrite Z.add_0_r|].
  destruct s as [|c s]; [simpl in Hi; lia|]. destruct H as (_ & _ & _ & H). simpl.
  replace (p + Z.of_nat (S i)) with ((p + 1) + Z.of_nat i) by lia. apply IH; [done|simpl in Hi; lia].
Qed.

Lemma cstr_mapped m p s a : cstr m p s → p ≤ a < p + Z.of_nat (length s) + 1 → is_Some (m !! a).
Proof.
  revert p. induction s as [|c s IH]; intros p H Ha.
  - destruct H as [_ H]. replace a with p by (simpl in Ha; lia). eauto.
  - destruct H as (_ & Hc & _ & H). destruct (Z.eq_dec a p) as [->|]; [eauto|].
    apply (IH (p + 1)); [done|simpl in Ha; lia].
Qed.

(** A mapped range is a bound for the loops over it. *)
Lemma mapped_fuel (m : memory) p n : (∀ a, p ≤ a < p + Z.of_nat n → is_Some (m !! a)) → (n < fuel_of m)%nat.
Proof.
  intros H. unfold fuel_of. apply Nat.lt_succ_r.
  assert (Hs : size (list_to_set (C := gset Z) (seqZ p (Z.of_nat n))) = n).
  { rewrite size_list_to_set by apply NoDup_seqZ. rewrite length_seqZ. lia. }
  rewrite <- Hs, <- size_dom. apply subseteq_size. intros a. rewrite elem_of_list_to_set, elem_of_dom, elem_of_seqZ.
  apply H.
Qed.

Lemma cstr_fuel m p s : cstr m p s → (length s < fuel_of m)%nat.
Proof. intros H. apply (mapped_fuel m p). intros a Ha. eapply cstr_mapped; [done|lia]. Qed.

Lemma cstr_chars m p s : cstr m p s → Forall (λ c, 0 < c < 256) s.
Proof.
  revert p. induction s as [|c s IH]; intros p H; [constructor|]. destruct H as (_ & _ & Hc & H).
  constructor; [done|by eapply IH].
Qed.

Lemma tobool_char c : 0 < c < 256 → tobool c = true.
Proof. intros H. unfold tobool. destruct (Z.eqb_spec c 0); [lia|done]. Qed.

Lemma strlen_loop_Ok m p s : ∀ fuel i,
  cstr m p s → (i ≤ length s)%nat → (length s - i < fuel)%nat →
  strlen_loop fuel p (Z.of_nat i) m = Ok (Z.of_nat (length s), m).
Proof.
  intros fuel. induction fuel as [|fuel IH]; intros i Hs Hi Hf; [lia|]. cbn [strlen_loop].
  rewrite (bind_Ok _ _ _ _ _ (cstr_load _ _ _ (cstr_drop _ _ _ _ Hs Hi))).
  pose proof (cstr_chars _ _ _ Hs) as Hc. destruct (drop i s) as [|c r] eqn:E.
  - simpl. replace i with (length s); [done|]. apply (f_equal length) in E. rewrite length_drop in E. simpl in E. lia.
  - assert (Hl : (i < length s)%nat). { apply (f_equal length) in E. rewrite length_drop in E. simpl in E. lia. }
    simpl. rewrite tobool_char.
    2:{ rewrite Forall_forall in Hc. apply Hc. rewrite <- (take_drop i s), E. apply elem_of_app. right. by left. }
    replace (Z.of_nat i + 1) with (Z.of_nat (S i)) by lia. apply IH; [done|lia|lia].
Qed.

Lemma strlen_Ok m p s : cstr m p s → strlen p m = Ok (Z.of_nat (length s), m).
Proof.
  intros H. unfold strlen. erewrite bind_Ok by done. apply (strlen_loop_Ok m p s _ 0); [done|lia|].
  pose proof (cstr_fuel _ _ _ H). lia.
Qed.

Lemma strcmp_loop_Ok s : ∀ fuel m p q t,
  cstr m p s → cstr m q t → (length s < fuel)%nat → strcmp_loop fuel p q m = Ok (diff s t, m).
Proof.
  induction s as [|a s IH]; intros fuel m p q t Hs Ht Hf; (destruct fuel as [|fuel]; [simpl in Hf; lia|]);
    cbn [strcmp_loop]; rewrite (bind_Ok _ _ _ _ _ (cstr_load _ _ _ Hs)), (bind_Ok _ _ _ _ _ (cstr_load _ _ _ Ht)).
  - destruct t as [|b t]; [done|]. simpl. destruct (tobool 0); done.
  - pose proof (cstr_chars _ _ _ Hs) as Hc. apply Forall_cons in Hc as [Ha _]. simpl.
    rewrite (tobool_char a Ha). destruct t as [|b t]; simpl.
    + destruct (Z.eqb_spec a 0); [lia|]. simpl. by rewrite Z.sub_0_r.
    + destruct (Z.eqb_spec a b); [|done]. simpl.
      destruct Hs as (_ & _ & _ & Hs). destruct Ht as (_ & _ & _ & Ht). apply IH; [done|done|simpl in Hf; lia].
Qed.

Lemma strcmp_Ok m p q s t : cstr m p s → cstr m q t → strcmp p q m = Ok (diff s t, m).
Proof.
  intros Hs Ht. unfold strcmp. erewrite bind_Ok by done. apply strcmp_loop_Ok; [done|done|by eapply cstr_fuel].
Qed.

Lemma schar_inj a b : 0 ≤ a < 256 → 0 ≤ b < 256 → schar a = schar b → a = b.
Proof. unfold schar. intros Ha Hb. destruct (Z.ltb_spec a 128), (Z.ltb_spec b 128); lia. Qed.

Lemma diff_zero s : ∀ t, Forall (λ c, 0 < c < 256) s → Forall (λ c, 0 < c < 256) t → diff s t = 0 ↔ s = t.
Proof.
  assert (Hne : ∀ c, 0 < c < 256 → schar c ≠ 0). { intros c Hc E. pose proof (schar_inj c 0). unfold schar in *.
    destruct (Z.ltb_spec c 128); lia. }
  induction s as [|a s IH]; intros [|b t] Hs Ht; simpl; [done| | |].
  - apply Forall_cons in Ht as [Hb _]. pose proof (Hne b Hb). split; [lia|done].
  - apply Forall_cons in Hs as [Ha _]. pose proof (Hne a Ha). split; [lia|done].
  - apply Forall_cons in Hs as [Ha Hs]. apply Forall_cons in Ht as [Hb Ht].
    destruct (Z.eqb_spec a b) as [->|Hab].
    + rewrite IH by done. split; [by intros ->|by intros [= ->]].
    + split; [|by intros [= -> _]]. intros E. destruct Hab. apply schar_inj; lia.
Qed.

Lemma strncmp_loop_Ok s : ∀ fuel m p q t n,
  cstr m p s → cstr m q t → 0 ≤ n < 2 ^ 32 → (length s < fuel)%nat →
  strncmp_loop fuel p q n m = Ok (diff (take (Z.to_nat n) s) (take (Z.to_nat n) t), m).
Proof.
  induction s as [|a s IH]; intros fuel m p q t n Hs Ht Hn Hf; (destruct fuel as [|fuel]; [simpl in Hf; lia|]);
    cbn [strncmp_loop]; rewrite (bind_Ok _ _ _ _ _ (cstr_load _ _ _ Hs)).
  - change (tobool (default 0 (head []))) with false. erewrite bind_Ok by done. cbn [andb]. unfold tobool.
    rewrite take_nil. destruct (Z.eqb_spec n 0) as [->|Hn0]; cbn [negb]; [by rewrite take_0|].
    rewrite (bind_Ok _ _ _ _ _ (cstr_load _ _ _ Hs)), (bind_Ok _ _ _ _ _ (cstr_load _ _ _ Ht)).
    destruct t as [|b t]; [by rewrite take_nil|]. destruct (Z.to_nat n) eqn:E; [lia|]. done.
  - pose proof (cstr_chars _ _ _ Hs) as Hc. apply Forall_cons in Hc as [Ha _].
    change (default 0 (head (a :: s))) with a.
    rewrite (tobool_char a Ha). rewrite (bind_Ok _ _ _ _ _ (cstr_load _ _ _ Ht)). cbn [andb].
    assert (Hab : (a =? default 0 (head t)) = match t with b :: _ => a =? b | [] => false end).
    { destruct t; [|done]. simpl. apply Z.eqb_neq. lia. }
    rewrite Hab. destruct (Z.eq_dec n 0) as [->|Hn0].
    + change (tobool 0) with false. rewrite !take_0. destruct t as [|b t]; [done|].
      destruct (Z.eqb_spec a b) as [->|]; [|done]. cbv beta iota zeta.
      rewrite (bind_Ok _ _ _ _ _ (cstr_load _ _ _ Hs)), (bind_Ok _ _ _ _ _ (cstr_load _ _ _ Ht)).
      change (tobool (u32 (0 - 1))) with true. cbv iota. simpl. by rewrite Z.sub_diag.
    + assert (Hnb : tobool n = true) by (unfold tobool; by rewrite (proj2 (Z.eqb_neq _ _) Hn0)).
      rewrite Hnb. destruct (Z.to_nat n) as [|k] eqn:Ek; [lia|]. cbn [take].
      destruct t as [|b t].
      * rewrite (bind_Ok _ _ _ _ _ (cstr_load _ _ _ Hs)), (bind_Ok _ _ _ _ _ (cstr_load _ _ _ Ht)).
        simpl. by rewrite Z.sub_0_r.
      * simpl diff. destruct (Z.eqb_spec a b) as [->|].
        -- rewrite u32_id by (unfold is_u32; lia). destruct Hs as (_ & _ & _ & Hs). destruct Ht as (_ & _ & _ & Ht).
           rewrite (IH fuel m (p + 1) (q + 1) t (n - 1)) by (done || lia || simpl in Hf; lia).
           replace (Z.to_nat (n - 1)) with k by lia. done.
        -- rewrite (bind_Ok _ _ _ _ _ (cstr_load _ _ _ Hs)), (bind_Ok _ _ _ _ _ (cstr_load _ _ _ Ht)). done.
Qed.

Lemma strncmp_Ok m p q s t n : cstr m p s → cstr m q t → 0 ≤ n < 2 ^ 32 →
  strncmp p q n m = Ok (diff (take (Z.to_nat n) s) (take (Z.to_nat n) t), m).
Proof.
  intros Hs Ht Hn. unfold strncmp. destruct (Z.eqb_spec n 0) as [->|]; [by rewrite !take_0|].
  erewrite bind_Ok by done. apply strncmp_loop_Ok; [done|done|done|by eapply cstr_fuel].
Qed.

(** ** Copies *)
Definition in_range (a p n : Z) : bool := (p <=? a) && (a <? p + n).

Lemma in_range_spec a p n : in_range a p n = true ↔ p ≤ a < p + n.
Proof. unfold in_range. rewrite andb_true_iff, Z.leb_le, Z.ltb_lt. done. Qed.

(** The memory with [n] bytes moved from [src] to [dst]. *)
Definition moved (m m' : memory) (dst src n : Z) : Prop :=
  ∀ a, m' !! a = if in_range a dst n then m !! (src + (a - dst)) else m !! a.

(** [n] bytes from [p] on are there. *)
Definition bytes (m : memory) (p n : Z) : Prop :=
  0 ≤ p ∧ p + n ≤ 2 ^ 32 ∧ ∀ a, p ≤ a < p + n → ∃ b, m !! a = Some b ∧ is_u8 b.

Lemma memcpy_loop_Ok n : ∀ m dst src,
  bytes m dst (Z.of_nat n) → bytes m src (Z.of_nat n) →
  dst + Z.of_nat n ≤ src ∨ src + Z.of_nat n ≤ dst →
  ∃ m', memcpy_loop n dst src m = Ok (tt, m') ∧ moved m m' dst src (Z.of_nat n).
Proof.
  induction n as [|n IH]; intros m dst src Hd Hs Hdis.
  { exists m. split; [done|]. intros a. destruct (in_range a dst (Z.of_nat 0)) eqn:E; [|done].
    apply in_range_spec in E. lia. }
  destruct Hd as (Hd0 & Hd1 & Hd). destruct Hs as (Hs0 & Hs1 & Hs).
  destruct (Hs src) as (b & Hb & Hb8); [lia|]. destruct (Hd dst) as (c & Hc & _); [lia|].
  cbn [memcpy_loop]. erewrite bind_Ok.
  2:{ unfold load. rewrite u32_id by (unfold is_u32; lia). by rewrite Hb. }
  erewrite bind_Ok.
  2:{ unfold store. rewrite u32_id by (unfold is_u32; lia). by rewrite Hc. }
  rewrite u8_id by done. set (m1 := <[dst := b]> m).
  assert (Hm1 : ∀ a, a ≠ dst → m1 !! a = m !! a) by (intros a Ha; unfold m1; by rewrite lookup_insert_ne).
  destruct (IH m1 (dst + 1) (src + 1)) as (m' & Hrun & Hm').
  { split_and!; [lia|lia|]. intros a Ha. rewrite Hm1 by lia. apply Hd. lia. }
  { split_and!; [lia|lia|]. intros a Ha. rewrite Hm1 by lia. apply Hs. lia. }
  { lia. }
  exists m'. split; [exact Hrun|]. intros a. rewrite Hm'. unfold in_range.
  destruct (Z.eq_dec a dst) as [->|Hne].
  - destruct (Z.leb_spec (dst + 1) dst); [lia|]. destruct (Z.leb_spec dst dst); [|lia].
    destruct (Z.ltb_spec dst (dst + Z.of_nat (S n))); [|lia]. simpl. unfold m1. rewrite lookup_insert_eq.
    by rewrite Z.sub_diag, Z.add_0_r.
  - destruct (Z.leb_spec (dst + 1) a), (Z.leb_spec dst a), (Z.ltb_spec a (dst + 1 + Z.of_nat n)),
      (Z.ltb_spec a (dst + Z.of_nat (S n))); try lia; simpl; rewrite Hm1 by lia; try done. f_equal. lia.
Qed.

Lemma memcpy_copies m dst src n : 0 ≤ n → bytes m dst n → bytes m src n → dst + n ≤ src ∨ src + n ≤ dst →
  ∃ m', memcpy dst src n m = Ok (dst, m') ∧ moved m m' dst src n.
Proof.
  intros Hn Hd Hs Hdis. destruct (memcpy_loop_Ok (Z.to_nat n) m dst src) as (m' & Hrun & Hm');
    rewrite ?Z2Nat.id by done; try done.
  exists m'. unfold memcpy. rewrite (bind_Ok _ _ _ _ _ Hrun). rewrite Z2Nat.id in Hm' by done. done.
Qed.

Lemma alloc_lookup n : ∀ p m a,
  alloc n p m !! a = if in_range a p (Z.of_nat n) then Some 0 else m !! a.
Proof.
  induction n as [|n IH]; intros p m a; cbn [alloc]; unfold in_range in *.
  - destruct (Z.leb_spec p a), (Z.ltb_spec a (p + Z.of_nat 0)); simpl; try done; lia.
  - destruct (Z.eq_dec a p) as [->|]; [rewrite lookup_insert_eq|rewrite lookup_insert_ne, IH by done].
    + destruct (Z.leb_spec p p), (Z.ltb_spec p (p + Z.of_nat (S n))); simpl; try done; lia.
    + destruct (Z.leb_spec p a), (Z.leb_spec (p + 1) a), (Z.ltb_spec a (p + 1 + Z.of_nat n)),
        (Z.ltb_spec a (p + Z.of_nat (S n))); simpl; try done; lia.
Qed.

Lemma release_lookup n : ∀ p m a,
  release n p m !! a = if in_range a p (Z.of_nat n) then None else m !! a.
Proof.
  induction n as [|n IH]; intros p m a; cbn [release]; unfold in_range in *.
  - destruct (Z.leb_spec p a), (Z.ltb_spec a (p + Z.of_nat 0)); simpl; try done; lia.
  - destruct (Z.eq_dec a p) as [->|]; [rewrite lookup_delete_eq|rewrite lookup_delete_ne, IH by done].
    + destruct (Z.leb_spec p p), (Z.ltb_spec p (p + Z.of_nat (S n))); simpl; try done; lia.
    + destruct (Z.leb_spec p a), (Z.leb_spec (p + 1) a), (Z.ltb_spec a (p + 1 + Z.of_nat n)),
        (Z.ltb_spec a (p + Z.of_nat (S n))); simpl; try done; lia.
Qed.

(** ** Searching *)

(** The length of the common start. *)
Fixpoint lcp (s t : list Z) : nat :=
  match s, t with
  | a :: s, b :: t => if a =? b then S (lcp s t) else O
  | _, _ => O
  end.

Lemma lcp_le s : ∀ t, (lcp s t ≤ length t)%nat.
Proof.
  induction s as [|a s IH]; intros [|b t]; simpl; try lia. destruct (a =? b); [specialize (IH t)|]; lia.
Qed.

Lemma lcp_start s : ∀ t, (lcp s t = length t) ↔ at_start t s = true.
Proof.
  unfold at_start. induction s as [|a s IH]; intros [|b t]; rewrite bool_decide_eq_true; simpl; try done.
  - destruct (Z.eqb_spec a b) as [->|Hab].
    + specialize (IH t). rewrite bool_decide_eq_true in IH. split.
      * intros [= E]. f_equal. by apply IH.
      * intros [= E]. f_equal. by apply IH.
    + split; [done|]. by intros [= ? _].
Qed.

Lemma match_at_Ok m s : ∀ t fuel a q j,
  cstr m (a + j) s → cstr m (q + j) t → (length s < fuel)%nat →
  match_at fuel a q j m = Ok (j + Z.of_nat (lcp s t), m).
Proof.
  induction s as [|c s IH]; intros t fuel a q j Hs Ht Hf; (destruct fuel as [|fuel]; [simpl in Hf; lia|]);
    cbn [match_at]; rewrite (bind_Ok _ _ _ _ _ (cstr_load _ _ _ Hs)).
  { simpl. by rewrite Z.add_0_r. }
  pose proof (cstr_chars _ _ _ Hs) as Hc. apply Forall_cons in Hc as [Hc _].
  change (default 0 (head (c :: s))) with c. rewrite (tobool_char c Hc).
  rewrite (bind_Ok _ _ _ _ _ (cstr_load _ _ _ Ht)). destruct t as [|b t].
  { simpl. destruct (Z.eqb_spec c 0); [lia|]. by rewrite Z.add_0_r. }
  simpl. destruct (Z.eqb_spec c b) as [->|]; [|by rewrite Z.add_0_r].
  destruct Hs as (_ & _ & _ & Hs). destruct Ht as (_ & _ & _ & Ht). rewrite <- !Z.add_assoc in Hs, Ht.
  rewrite (IH t) by (done || simpl in Hf; lia). do 2 f_equal. lia.
Qed.

Lemma strstr_loop_Ok m s : ∀ t fuel p q i,
  cstr m (p + i) s → cstr m q t → t ≠ [] → (length s < fuel)%nat →
  strstr_loop fuel p q i m = Ok (match first_place t s i with Some k => p + k | None => 0 end, m).
Proof.
  induction s as [|c s IH]; intros t fuel p q i Hs Ht Hne Hf; (destruct fuel as [|fuel]; [simpl in Hf; lia|]);
    cbn [strstr_loop]; rewrite (bind_Ok _ _ _ _ _ (cstr_load _ _ _ Hs)).
  { simpl. unfold at_start. rewrite bool_decide_false; [done|]. rewrite take_nil. by destruct t. }
  pose proof (cstr_chars _ _ _ Hs) as Hc. apply Forall_cons in Hc as [Hc _].
  change (default 0 (head (c :: s))) with c. rewrite (tobool_char c Hc). erewrite bind_Ok by done.
  erewrite bind_Ok.
  2:{ apply (match_at_Ok m (c :: s) t); [by rewrite Z.add_0_r|by rewrite Z.add_0_r|by eapply cstr_fuel]. }
  rewrite Z.add_0_l. pose proof (lcp_le (c :: s) t) as Hle.
  pose proof (cstr_drop _ _ _ _ Ht Hle) as Hd. rewrite (bind_Ok _ _ _ _ _ (cstr_load _ _ _ Hd)).
  pose proof (lcp_start (c :: s) t) as Hst. cbn [first_place].
  destruct (drop (lcp (c :: s) t) t) as [|b r] eqn:E.
  - assert (El : lcp (c :: s) t = length t).
    { apply (f_equal length) in E. rewrite length_drop in E. simpl length in E. lia. }
    rewrite (proj1 Hst El). done.
  - assert (Hb : 0 < b < 256).
    { pose proof (cstr_chars _ _ _ Hd) as Hcs. by apply Forall_cons in Hcs as [? _]. }
    change (default 0 (head (b :: r))) with b. rewrite (tobool_char b Hb).
    destruct (at_start t (c :: s)) eqn:Ea.
    { pose proof (proj2 Hst eq_refl) as El. apply (f_equal length) in E. rewrite length_drop in E. simpl length in E. lia. }
    destruct Hs as (_ & _ & _ & Hs). rewrite <- Z.add_assoc in Hs. rewrite (IH t) by (done || simpl in Hf; lia). done.
Qed.

(** What [first_place] means. *)
Lemma first_place_spec t s : ∀ i,
  match first_place t s i with
  | Some k => ∃ n, k = i + Z.of_nat n ∧ (n ≤ length s)%nat ∧ take (length t) (drop n s) = t ∧
                   ∀ j, (j < n)%nat → take (length t) (drop j s) ≠ t
  | None => ∀ j, (j ≤ length s)%nat → take (length t) (drop j s) ≠ t
  end.
Proof.
  assert (Ha : ∀ s, at_start t s = true ↔ take (length t) s = t) by (intros; apply bool_decide_eq_true).
  induction s as [|c s IH]; intros i; cbn [first_place]; destruct (at_start t _) eqn:E.
  1,3: apply Ha in E; exists 0%nat; split_and!; [lia|simpl; lia|done|lia].
  - intros j Hj. simpl in Hj. replace j with 0%nat by lia. rewrite drop_0, <- Ha, E. done.
  - specialize (IH (i + 1)). destruct (first_place t s (i + 1)) as [k|].
    + destruct IH as (n & -> & Hn & Ht & Hmin). exists (S n). split_and!; [lia|simpl; lia|done|].
      intros [|j] Hj; [rewrite drop_0, <- Ha, E; done|]. apply Hmin. lia.
    + intros [|j] Hj; [rewrite drop_0, <- Ha, E; done|]. apply IH. simpl in Hj. lia.
Qed.

(** * Theorems *)

(** Comparing strings.  [strcmp] and [strncmp] return without fault on any two C
    strings; the result is zero exactly if the strings, for [strncmp] their first [n]
    characters, are equal, and otherwise the difference of the first characters that
    differ. *)
Lemma string_comparison m p q s t n :
  cstr m p s → cstr m q t → 0 ≤ n < 2 ^ 32 →
  strcmp p q m = Ok (diff s t, m) ∧ (diff s t = 0 ↔ s = t) ∧
  strncmp p q n m = Ok (diff (take (Z.to_nat n) s) (take (Z.to_nat n) t), m) ∧
  (diff (take (Z.to_nat n) s) (take (Z.to_nat n) t) = 0 ↔ take (Z.to_nat n) s = take (Z.to_nat n) t).
Proof.
  intros Hs Ht Hn. pose proof (cstr_chars _ _ _ Hs) as Hcs. pose proof (cstr_chars _ _ _ Ht) as Hct.
  split_and!; [by apply strcmp_Ok|by apply diff_zero|by apply strncmp_Ok|].
  apply diff_zero; by apply Forall_take.
Qed.

Definition example_mem : memory :=
  list_to_map (zip (seqZ 100 12) [97; 98; 99; 0; 97; 98; 100; 0; 7; 7; 7; 7]).

(** [memmove] moves [n] bytes whatever the overlap of the two ranges: afterwards the
    destination holds the bytes that the source held before, and nothing else changed. *)
Lemma memmove_moves m temp dst src n :
  0 ≤ n → bytes m dst n → bytes m src n → 0 ≤ temp → temp + n ≤ 2 ^ 32 →
  (∀ a, temp ≤ a < temp + n → m !! a = None) →
  ∃ m', memmove temp dst src n m = Ok (dst, m') ∧ moved m m' dst src n.
Proof.
  intros Hn Hd Hs Ht0 Ht1 Hfr. unfold memmove. destruct (Z.eqb_spec n 0) as [->|Hne].
  { exists m. split; [done|]. intros a. destruct (in_range a dst 0) eqn:E; [|done]. apply in_range_spec in E. lia. }
  erewrite bind_Ok by done. set (m1 := alloc (Z.to_nat n) temp m).
  assert (Hm1 : ∀ a, m1 !! a = if in_range a temp n then Some 0 else m !! a).
  { intros a. unfold m1. rewrite alloc_lookup. by rewrite Z2Nat.id. }
  assert (Hout : ∀ p, bytes m p n → temp + n ≤ p ∨ p + n ≤ temp).
  { intros p (Hp0 & Hp1 & Hp). destruct (Z.le_gt_cases (temp + n) p); [by left|]. right.
    destruct (Z.le_gt_cases (p + n) temp); [done|]. exfalso.
    destruct (Hp (Z.max p temp)) as (b & Hb & _); [lia|]. rewrite Hfr in Hb by lia. done. }
  assert (Hsame : ∀ p a, bytes m p n → p ≤ a < p + n → m1 !! a = m !! a).
  { intros p a Hp Ha. rewrite Hm1. destruct (in_range a temp n) eqn:E; [|done]. apply in_range_spec in E.
    destruct (Hout p Hp); lia. }
  assert (Hb1 : ∀ p, bytes m p n → bytes m1 p n).
  { intros p Hp. pose proof Hp as (Hp0 & Hp1 & Hb). split_and!; [done|done|]. intros a Ha.
    rewrite (Hsame p a Hp Ha). by apply Hb. }
  assert (Hbt : bytes m1 temp n).
  { split_and!; [done|done|]. intros a Ha. rewrite Hm1, (proj2 (in_range_spec a temp n)) by done. by exists 0. }
  destruct (memcpy_copies m1 temp src n) as (m2 & H2 & Hm2); [done|exact Hbt|by apply Hb1|by apply Hout|].
  rewrite (bind_Ok _ _ _ _ _ H2).
  assert (Hs2 : ∀ i, 0 ≤ i < n → m2 !! (temp + i) = m !! (src + i)).
  { intros i Hi. rewrite Hm2, (proj2 (in_range_spec _ temp n)) by lia.
    rewrite (Hsame src _ Hs) by lia. f_equal. lia. }
  assert (Hd2 : ∀ a, ¬ (temp ≤ a < temp + n) → m2 !! a = m !! a).
  { intros a Ha. rewrite Hm2. destruct (in_range a temp n) eqn:E; [by apply in_range_spec in E|].
    by rewrite Hm1, E. }
  destruct (memcpy_copies m2 dst temp n) as (m3 & H3 & Hm3).
  { done. }
  { pose proof Hd as (Hd0 & Hd1 & Hb). split_and!; [done|done|]. intros a Ha. rewrite Hd2; [by apply Hb|].
    destruct (Hout dst Hd); lia. }
  { split_and!; [done|done|]. intros a Ha. replace a with (temp + (a - temp)) by lia. rewrite Hs2 by lia.
    apply Hs. lia. }
  { destruct (Hout dst Hd); lia. }
  rewrite (bind_Ok _ _ _ _ _ H3). erewrite bind_Ok by done. eexists. split; [done|]. intros a.
  rewrite release_lookup, Z2Nat.id by done. destruct (in_range a temp n) eqn:E.
  - apply in_range_spec in E. destruct (in_range a dst n) eqn:E'.
    + apply in_range_spec in E'. destruct (Hout dst Hd); lia.
    + symmetry. by apply Hfr.
  - rewrite Hm3. destruct (in_range a dst n) eqn:E'.
    + apply in_range_spec in E'. apply Hs2. lia.
    + apply Hd2. intros Hin. apply in_range_spec in Hin. congruence.
Qed.

(** [strstr] finds the first occurrence.  On any two C strings it returns the address of
    the first place where the second string occurs in the first, and null exactly if there is
    none. *)
Lemma strstr_finds_first m p q s t :
  cstr m p s → cstr m q t →
  ∃ r, strstr p q m = Ok (r, m) ∧
    ((r = 0 ∧ ∀ j, (j ≤ length s)%nat → take (length t) (drop j s) ≠ t) ∨
     ∃ n, r = p + Z.of_nat n ∧ (n ≤ length s)%nat ∧ take (length t) (drop n s) = t ∧
          ∀ j, (j < n)%nat → take (length t) (drop j s) ≠ t).
Proof.
  intros Hs Ht. unfold strstr. rewrite (bind_Ok _ _ _ _ _ (cstr_load _ _ _ Ht)). destruct t as [|b t].
  { exists p. split; [done|]. right. exists 0%nat. split_and!; [lia|lia|by rewrite take_0|lia]. }
  pose proof (cstr_chars _ _ _ Ht) as Hcs. apply Forall_cons in Hcs as [Hb _].
  change (default 0 (head (b :: t))) with b. rewrite (tobool_char b Hb). erewrite bind_Ok by done.
  erewrite strstr_loop_Ok; [|by rewrite Z.add_0_r|exact Ht|done|by eapply cstr_fuel].
  pose proof (first_place_spec (b :: t) s 0) as Hf. destruct (first_place (b :: t) s 0) as [k|]; eexists; (split; [done|]).
  - right. destruct Hf as (n & -> & Hf). exists n. by rewrite Z.add_0_l.
  - by left.
Qed.

(** ** Deviations *)

(** [memcmp] of equal ranges returns the difference of the bytes after them. *)
Lemma memcmp_equal_reads_past :
  memcmp 100 104 2 (<[106 := 200]> example_mem) = Ok (99 - 200, <[106 := 200]> example_mem).
Proof. vm_compute. reflexivity. Qed.

(** [strcpy] copies the characters without the terminating zero, and returns the end of the
    destination rather than its start. *)
Lemma strcpy_leaves_no_end :
  ∃ m', strcpy 108 100 example_mem = Ok (111, m') ∧ m' !! 111 = Some 7.
Proof. eexists. split; vm_compute; reflexivity. Qed.

End LibcString.
