(* ===== verification/StartParams.v ===== *)
(** The arguments of a program on their way into a new process: libc/startparams.cpp and
    libc/include/libc/startup/startparams.h.

    The parent (LoadElfProgram of libc/elf.cpp) packs the arguments into a buffer of
    [PackSize] bytes and writes it to the startup channel; the child
    (__libc_start_main.cpp) reads the bytes into a buffer of its own, at another address,
    and unpacks them there.  Pointers to the strings are stored relative to their own
    location, so that the bytes may be loaded anywhere. *)
From S2P Require Import Prelude LibcString.
Import LibcString.LibcString.

Module StartParams.

(** ** Words in memory *)
Definition bytes32 (w : Z) : list Z :=
  [w mod 256; (w / 2 ^ 8) mod 256; (w / 2 ^ 16) mod 256; (w / 2 ^ 24) mod 256].

Fixpoint store_list (p : Z) (bs : list Z) : M memory unit :=
  match bs with [] => mret tt | b :: bs => store p b;; store_list (p + 1) bs end.

Definition store32 (a w : Z) : M memory unit := store_list a (bytes32 w).

Definition load32 (a : Z) : M memory Z :=
  b0 ← load a; b1 ← load (a + 1); b2 ← load (a + 2); b3 ← load (a + 3);
  mret (b0 + 2 ^ 8 * b1 + 2 ^ 16 * b2 + 2 ^ 24 * b3).

(** ** [PackParams] *)

(** The loop; [params] are the [size] bytes of each argument, [slot] is [&argv_dst[i]]. *)
Fixpoint pack_loop (params : list (list Z)) (slot strs_dst end_ : Z) : M memory unit :=
  match params with
  | [] => mret tt
  | param :: params =>
      let len := Z.of_nat (length param) in
      assert_ (u32 (strs_dst + len + 1) <? end_);;
      store_list strs_dst param;;
      store (strs_dst + len) 0;;
      store32 slot (u32 (strs_dst - slot));;
      pack_loop params (slot + 4) (strs_dst + len + 1) end_
  end.

Definition PackParams (page_size load_addr : Z) (params : list (list Z)) : M memory unit :=
  let num_params := Z.of_nat (length params) in
  assert_ (load_addr mod 4 =? 0);;
  store32 load_addr num_params;;
  let argv_loc := u32 (load_addr + 4) in
  assert_ (argv_loc mod 4 =? 0);;
  let strs_dst := u32 (argv_loc + 4 * num_params) in
  let end_ := u32 (load_addr + page_size) in
  pack_loop params argv_loc strs_dst end_.

Definition PackSize (params : list (list Z)) : Z :=
  foldl (λ packsize param, u32 (packsize + (Z.of_nat (length param) + 1)))
        (u32 (4 + 4 * Z.of_nat (length params))) params.

(** ** [UnpackParams] *)
Fixpoint unpack_loop (n : nat) (slot : Z) : M memory unit :=
  match n with
  | O => mret tt
  | S n => w ← load32 slot; store32 slot (u32 (w + slot));; unpack_loop n (slot + 4)
  end.

(** A word read as an [int]. *)
Definition s32 (w : Z) : Z := if w <? 2 ^ 31 then w else w - 2 ^ 32.

(** [argc] and [argv]; a negative [argc] has no iterations. *)
Definition UnpackParams (params_addr : Z) : M memory (Z * Z) :=
  assert_ (params_addr mod 4 =? 0);;
  assert_ (u32 (params_addr + 4) mod 4 =? 0);;
  w ← load32 params_addr;
  let argc := s32 w in
  let argv := u32 (params_addr + 4) in
  unpack_loop (Z.to_nat argc) argv;;
  mret (argc, argv).

(** * Lemmas *)

(** The bytes [bs] are at [p]. *)
Definition contents (m : memory) (p : Z) (bs : list Z) : Prop :=
  ∀ i b, bs !! i = Some b → m !! (p + Z.of_nat i) = Some b.

Lemma contents_nil m p : contents m p [].
Proof. intros i b. by rewrite lookup_nil. Qed.

Lemma contents_cons m p b bs : contents m p (b :: bs) ↔ m !! p = Some b ∧ contents m (p + 1) bs.
Proof.
  split.
  - intros H. split; [specialize (H 0%nat b eq_refl); by rewrite Z.add_0_r in H|].
    intros i c Hc. specialize (H (S i) c Hc). by replace (p + 1 + Z.of_nat i) with (p + Z.of_nat (S i)) by lia.
  - intros [H0 H] [|i] c Hc; simpl in Hc; [simplify_eq; by rewrite Z.add_0_r|].
    replace (p + Z.of_nat (S i)) with (p + 1 + Z.of_nat i) by lia. by apply H.
Qed.

Lemma contents_app m p bs cs :
  contents m p (bs ++ cs) ↔ contents m p bs ∧ contents m (p + Z.of_nat (length bs)) cs.
Proof.
  revert p. induction bs as [|b bs IH]; intros p; simpl.
  - rewrite Z.add_0_r. split; [split; [apply contents_nil|done]|by intros [_ ?]].
  - rewrite !contents_cons, IH. replace (p + Z.of_nat (S (length bs))) with (p + 1 + Z.of_nat (length bs)) by lia.
    tauto.
Qed.

(** Memory that agrees on a range has the same contents there. *)
Lemma contents_local m m' p p' bs :
  (∀ i, 0 ≤ i < Z.of_nat (length bs) → m' !! (p' + i) = m !! (p + i)) → contents m p bs → contents m' p' bs.
Proof.
  intros Heq H i b Hb. rewrite Heq; [by apply H|]. apply lookup_lt_Some in Hb. lia.
Qed.

(** [n] bytes from [p] on can be written. *)
Definition writable (m : memory) (p n : Z) : Prop :=
  0 ≤ p ∧ p + n ≤ 2 ^ 32 ∧ ∀ a, p ≤ a < p + n → is_Some (m !! a).

(** Only [n] bytes from [p] on have changed, and they are still there. *)
Definition changed (m m' : memory) (p n : Z) : Prop :=
  (∀ a, ¬ (p ≤ a < p + n) → m' !! a = m !! a) ∧ ∀ a, is_Some (m !! a) → is_Some (m' !! a).

Lemma store_list_Ok bs : ∀ m p,
  writable m p (Z.of_nat (length bs)) → Forall is_u8 bs →
  ∃ m', store_list p bs m = Ok (tt, m') ∧ contents m' p bs ∧ changed m m' p (Z.of_nat (length bs)).
Proof.
  induction bs as [|b bs IH]; intros m p (H0 & H1 & Hm) Hb; cbn [store_list].
  { exists m. by repeat split; try apply contents_nil. }
  apply Forall_cons in Hb as [Hb8 Hb]. cbn [length] in *.
  destruct (Hm p) as [c Hc]; [lia|]. erewrite bind_Ok.
  2:{ unfold store. rewrite u32_id by (unfold is_u32; lia). by rewrite Hc. }
  rewrite u8_id by done. set (m1 := <[p := b]> m).
  assert (Hk : ∀ a, is_Some (m !! a) → is_Some (m1 !! a)).
  { intros a Ha. unfold m1. apply lookup_insert_is_Some'. by right. }
  destruct (IH m1 (p + 1)) as (m' & Hrun & Hcon & Hch & Hk').
  { split_and!; [lia|lia|]. intros a Ha. apply Hk, Hm. lia. }
  { done. }
  exists m'. refine (conj Hrun (conj _ (conj _ _))); [| |auto].
  - apply contents_cons. split; [|done]. rewrite Hch by lia. apply lookup_insert_eq.
  - intros a Ha. rewrite Hch by lia. unfold m1. rewrite lookup_insert_ne; [done|lia].
Qed.

Lemma bytes32_u8 w : Forall is_u8 (bytes32 w).
Proof. repeat constructor; apply Z.mod_pos_bound; lia. Qed.

Lemma load32_Ok m a w : is_u32 w → 0 ≤ a → a + 4 ≤ 2 ^ 32 → contents m a (bytes32 w) → load32 a m = Ok (w, m).
Proof.
  intros Hw H0 H1 Hc.
  assert (Hl : ∀ i b, bytes32 w !! i = Some b → load (a + Z.of_nat i) m = Ok (b, m)).
  { intros i b Hb. unfold load. rewrite u32_id.
    - by rewrite (Hc i b Hb).
    - apply lookup_lt_Some in Hb. unfold is_u32. simpl in Hb. lia. }
  unfold load32. rewrite <- (Z.add_0_r a) at 1.
  rewrite (bind_Ok _ _ _ _ _ (Hl 0%nat _ eq_refl)), (bind_Ok _ _ _ _ _ (Hl 1%nat _ eq_refl)).
  rewrite (bind_Ok _ _ _ _ _ (Hl 2%nat _ eq_refl)), (bind_Ok _ _ _ _ _ (Hl 3%nat _ eq_refl)).
  unfold mret, M_ret. do 2 f_equal. unfold is_u32 in Hw. dlia.
Qed.

(** The bytes the strings take. *)
Fixpoint strs_size (params : list (list Z)) : Z :=
  match params with [] => 0 | p :: ps => Z.of_nat (length p) + 1 + strs_size ps end.

Lemma strs_size_nonneg ps : 0 ≤ strs_size ps.
Proof. induction ps; simpl; lia. Qed.

(** A table of relative pointers at [slot] and the strings at [strs]. *)
Fixpoint packed (m : memory) (slot strs : Z) (params : list (list Z)) : Prop :=
  match params with
  | [] => True
  | p :: ps => contents m slot (bytes32 (u32 (strs - slot))) ∧ contents m strs (p ++ [0]) ∧
               packed m (slot + 4) (strs + Z.of_nat (length p) + 1) ps
  end.

(** [packed] looks at the table and the strings only, and may be moved as a whole. *)
Lemma packed_local m m' d ps : ∀ slot strs,
  (∀ i, 0 ≤ i < 4 * Z.of_nat (length ps) → m' !! (slot + d + i) = m !! (slot + i)) →
  (∀ i, 0 ≤ i < strs_size ps → m' !! (strs + d + i) = m !! (strs + i)) →
  packed m slot strs ps → packed m' (slot + d) (strs + d) ps.
Proof.
  induction ps as [|p ps IH]; intros slot strs Ht Hs H; [done|]. cbn [packed strs_size length] in *.
  pose proof (strs_size_nonneg ps). destruct H as (H1 & H2 & H3). split_and!.
  - replace (strs + d - (slot + d)) with (strs - slot) by lia. eapply contents_local; [|exact H1].
    intros i Hi. apply Ht. simpl in Hi. lia.
  - eapply contents_local; [|exact H2]. intros i Hi. apply Hs. rewrite length_app in Hi. simpl in Hi. lia.
  - replace (slot + d + 4) with (slot + 4 + d) by lia.
    replace (strs + d + Z.of_nat (length p) + 1) with (strs + Z.of_nat (length p) + 1 + d) by lia.
    apply IH; [| |exact H3].
    + intros i Hi. specialize (Ht (4 + i)). rewrite !Z.add_assoc in Ht. replace (slot + 4 + d) with (slot + d + 4) by lia.
      apply Ht. lia.
    + intros i Hi. specialize (Hs (Z.of_nat (length p) + 1 + i)). rewrite !Z.add_assoc in Hs.
      replace (strs + Z.of_nat (length p) + 1 + d) with (strs + d + Z.of_nat (length p) + 1) by lia. apply Hs. lia.
Qed.

(** ** Packing *)
Lemma store_list_app bs cs : ∀ p m,
  store_list p (bs ++ cs) m = (store_list p bs;; store_list (p + Z.of_nat (length bs)) cs) m.
Proof.
  induction bs as [|b bs IH]; intros p m; simpl; [by rewrite Z.add_0_r|].
  munfold. destruct (store p b m) as [[[] m1]|]; [|done]. rewrite IH. munfold.
  by replace (p + Z.of_nat (S (length bs))) with (p + 1 + Z.of_nat (length bs)) by lia.
Qed.

Lemma changed_contents m m' p n q bs :
  changed m m' p n → q + Z.of_nat (length bs) ≤ p ∨ p + n ≤ q → contents m q bs → contents m' q bs.
Proof.
  intros [Hch _] Hd. apply contents_local. intros i Hi. apply Hch. lia.
Qed.

(** One step of [PackParams]'s loop. *)
Lemma pack_step_Ok m param slot strs :
  writable m slot 4 → writable m strs (Z.of_nat (length param) + 1) → slot + 4 ≤ strs → Forall is_u8 param →
  ∃ m1 m2, (store_list strs param;; store (strs + Z.of_nat (length param)) 0) m = Ok (tt, m1) ∧
    store32 slot (u32 (strs - slot)) m1 = Ok (tt, m2) ∧
    contents m2 slot (bytes32 (u32 (strs - slot))) ∧ contents m2 strs (param ++ [0]) ∧
    changed m m1 strs (Z.of_nat (length param) + 1) ∧ changed m1 m2 slot 4.
Proof.
  intros Ht Hs Hd Hp.
  destruct (store_list_Ok (param ++ [0]) m strs) as (m1 & Hrun & Hc & Hch).
  { rewrite length_app. simpl. by rewrite Nat2Z.inj_add. }
  { apply Forall_app. split; [done|]. repeat constructor; unfold is_u8; lia. }
  rewrite length_app, Nat2Z.inj_add in Hch. change (Z.of_nat (length [0])) with 1 in Hch.
  destruct (store_list_Ok (bytes32 (u32 (strs - slot))) m1 slot) as (m2 & Hrun2 & Hc2 & Hch2).
  { destruct Ht as (? & ? & Hm). split_and!; [done|done|]. intros a Ha. apply Hch, Hm, Ha. }
  { apply bytes32_u8. }
  exists m1, m2. split_and!; try done.
  - rewrite store_list_app in Hrun. cbn [store_list] in Hrun. revert Hrun. munfold.
    destruct (store_list strs param m) as [[[] ?]|]; [|done]. by destruct (store _ 0 _) as [[[] ?]|].
  - apply (changed_contents _ _ _ _ _ _ Hch2); [simpl; lia|done].
Qed.

Lemma pack_loop_Ok ps : ∀ m slot strs end_,
  0 ≤ slot → slot + 4 * Z.of_nat (length ps) ≤ strs → strs + strs_size ps < end_ → end_ ≤ 2 ^ 32 →
  (∀ a, slot ≤ a < strs + strs_size ps → is_Some (m !! a)) → Forall (Forall is_u8) ps →
  ∃ m', pack_loop ps slot strs end_ m = Ok (tt, m') ∧ packed m' slot strs ps ∧
    (∀ a, ¬ (slot ≤ a < slot + 4 * Z.of_nat (length ps)) → ¬ (strs ≤ a < strs + strs_size ps) → m' !! a = m !! a).
Proof.
  induction ps as [|p ps IH]; intros m slot strs end_ H0 Hd He Ht Hm Hps; cbn [pack_loop packed strs_size length] in *.
  { by exists m. }
  apply Forall_cons in Hps as [Hp Hps]. pose proof (strs_size_nonneg ps) as Hn.
  rewrite (u32_id (strs + _ + _)) by (unfold is_u32; lia). rewrite (proj2 (Z.ltb_lt _ _)) by lia. erewrite bind_Ok by done.
  destruct (pack_step_Ok m p slot strs) as (m1 & m2 & R1 & R2 & C1 & C2 & K1 & K2); [| |lia|done|].
  { split_and!; [lia|lia|]. intros a Ha. apply Hm. lia. }
  { split_and!; [lia|lia|]. intros a Ha. apply Hm. lia. }
  destruct (IH m2 (slot + 4) (strs + Z.of_nat (length p) + 1) end_) as (m' & R & P & Hk); [lia..| |done|].
  { intros a Ha. apply K2, K1, Hm. lia. }
  exists m'. split_and!.
  - revert R1. munfold. destruct (store_list strs p m) as [[[] m0]|]; [|done].
    intros R1. rewrite R1, R2. exact R.
  - eapply contents_local; [|exact C1]. intros i Hi. simpl in Hi. apply Hk; lia.
  - eapply contents_local; [|exact C2]. intros i Hi. rewrite length_app in Hi. simpl in Hi. apply Hk; lia.
  - exact P.
  - intros a Ha1 Ha2. rewrite Hk by lia. destruct K1 as [K1 _], K2 as [K2 _]. rewrite K2, K1 by lia. done.
Qed.

(** The bytes a packed page needs. *)
Definition packed_size (params : list (list Z)) : Z := 4 + 4 * Z.of_nat (length params) + strs_size params.

Lemma PackSize_Ok params : packed_size params < 2 ^ 32 → PackSize params = packed_size params.
Proof.
  unfold PackSize, packed_size. set (n := length params). clearbody n. intros H.
  pose proof (strs_size_nonneg params). rewrite u32_id by (unfold is_u32; lia).
  assert (Hh : 0 ≤ 4 + 4 * Z.of_nat n) by lia. revert H Hh. generalize (4 + 4 * Z.of_nat n) as k. clear.
  induction params as [|p ps IH]; intros k H Hk; cbn [foldl strs_size] in *; [lia|].
  pose proof (strs_size_nonneg ps). rewrite u32_id by (unfold is_u32; lia). rewrite IH; lia.
Qed.

Lemma PackParams_Ok m page_size A params :
  A mod 4 = 0 → 0 ≤ A → A + page_size < 2 ^ 32 → packed_size params < page_size →
  (∀ a, A ≤ a < A + packed_size params → is_Some (m !! a)) → Forall (Forall is_u8) params →
  ∃ m', PackParams page_size A params m = Ok (tt, m') ∧
    contents m' A (bytes32 (Z.of_nat (length params))) ∧
    packed m' (A + 4) (A + 4 + 4 * Z.of_nat (length params)) params.
Proof.
  intros Ha H0 Ht Hs Hm Hp. unfold packed_size in *. pose proof (strs_size_nonneg params).
  unfold PackParams. rewrite Ha. erewrite bind_Ok by done.
  destruct (store_list_Ok (bytes32 (Z.of_nat (length params))) m A) as (m1 & R1 & C1 & K1).
  { split_and!; [lia|simpl; lia|]. intros a Hin. apply Hm. simpl in Hin. lia. }
  { apply bytes32_u8. }
  rewrite (bind_Ok _ _ _ _ _ R1). rewrite !u32_id by (unfold is_u32; rewrite ?u32_id by (unfold is_u32; lia); lia).
  replace ((A + 4) mod 4 =? 0) with true by (symmetry; apply Z.eqb_eq; dlia). erewrite bind_Ok by done.
  destruct (pack_loop_Ok params m1 (A + 4) (A + 4 + 4 * Z.of_nat (length params)) (A + page_size))
    as (m' & R & P & K); [lia..| |done|].
  { intros a Hin. apply K1, Hm. lia. }
  exists m'. split_and!; [exact R| |exact P].
  eapply contents_local; [|exact C1]. intros i Hi. simpl in Hi. apply K; lia.
Qed.

(** ** Unpacking *)
Lemma contents_cstr m s : ∀ p,
  0 ≤ p → p + Z.of_nat (length s) < 2 ^ 32 → Forall (λ c, 0 < c < 256) s → contents m p (s ++ [0]) → cstr m p s.
Proof.
  induction s as [|c s IH]; intros p H0 H1 Hs Hc; simpl in *; (split; [unfold is_u32; lia|]).
  - by apply contents_cons in Hc as [? _].
  - apply contents_cons in Hc as [Hc0 Hc]. apply Forall_cons in Hs as [? ?]. split_and!; [done|lia|lia|].
    apply IH; [lia|lia|done|done].
Qed.

(** A table of pointers at [slot] to the strings [params], the first of which is at [strs]. *)
Fixpoint argv_at (m : memory) (slot strs : Z) (params : list (list Z)) : Prop :=
  match params with
  | [] => True
  | p :: ps => contents m slot (bytes32 strs) ∧ contents m strs (p ++ [0]) ∧
               argv_at m (slot + 4) (strs + Z.of_nat (length p) + 1) ps
  end.

Lemma argv_at_local m m' ps : ∀ slot strs,
  (∀ i, 0 ≤ i < 4 * Z.of_nat (length ps) → m' !! (slot + i) = m !! (slot + i)) →
  (∀ i, 0 ≤ i < strs_size ps → m' !! (strs + i) = m !! (strs + i)) →
  argv_at m slot strs ps → argv_at m' slot strs ps.
Proof.
  induction ps as [|p ps IH]; intros slot strs Ht Hs H; [done|]. cbn [argv_at strs_size length] in *.
  pose proof (strs_size_nonneg ps). destruct H as (H1 & H2 & H3). split_and!.
  - eapply contents_local; [|exact H1]. intros i Hi. apply Ht. simpl in Hi. lia.
  - eapply contents_local; [|exact H2]. intros i Hi. apply Hs. rewrite length_app in Hi. simpl in Hi. lia.
  - apply IH; [| |exact H3]; intros i Hi.
    + specialize (Ht (4 + i)). rewrite !Z.add_assoc in Ht. apply Ht. lia.
    + specialize (Hs (Z.of_nat (length p) + 1 + i)). rewrite !Z.add_assoc in Hs. apply Hs. lia.
Qed.

Lemma unpack_loop_Ok ps : ∀ m slot strs,
  0 ≤ slot → slot + 4 * Z.of_nat (length ps) ≤ strs → strs + strs_size ps ≤ 2 ^ 32 → packed m slot strs ps →
  ∃ m', unpack_loop (length ps) slot m = Ok (tt, m') ∧ argv_at m' slot strs ps ∧
    changed m m' slot (4 * Z.of_nat (length ps)).
Proof.
  induction ps as [|p ps IH]; intros m slot strs H0 Hd Ht H; cbn [unpack_loop packed argv_at strs_size length] in *.
  { by exists m. }
  pose proof (strs_size_nonneg ps). destruct H as (Ct & Cs & P).
  rewrite (bind_Ok _ _ _ _ _ (load32_Ok _ _ _ (u32_range _) H0 ltac:(lia) Ct)).
  replace (u32 (u32 (strs - slot) + slot)) with strs by (unfold u32; dlia).
  destruct (store_list_Ok (bytes32 strs) m slot) as (m1 & R1 & C1 & K1).
  { split_and!; [lia|simpl; lia|]. intros a Ha. simpl in Ha.
    destruct (lookup_lt_is_Some_2 (bytes32 (u32 (strs - slot))) (Z.to_nat (a - slot))) as [b Hb]; [simpl; lia|].
    specialize (Ct _ _ Hb). replace (slot + Z.of_nat (Z.to_nat (a - slot))) with a in Ct by lia. by eexists. }
  { apply bytes32_u8. }
  change (Z.of_nat (length (bytes32 strs))) with 4 in K1. rewrite (bind_Ok _ _ _ _ _ R1).
  destruct (IH m1 (slot + 4) (strs + Z.of_nat (length p) + 1)) as (m' & R & A & K); [lia..| |].
  { rewrite <- (Z.add_0_r (slot + 4)), <- (Z.add_0_r (strs + _ + 1)). eapply packed_local; [| |exact P].
    - intros i Hi. rewrite Z.add_0_r. apply K1. lia.
    - intros i Hi. rewrite Z.add_0_r. apply K1. lia. }
  exists m'. split; [exact R|]. split; [split_and!; [| |exact A]|split].
  - eapply changed_contents; [exact K| |exact C1]. simpl. lia.
  - eapply changed_contents; [exact K|lia|]. eapply changed_contents; [exact K1|lia|exact Cs].
  - intros a Ha. destruct K as [K _], K1 as [K1 _]. rewrite K, K1 by lia. done.
  - intros a Ha. by apply K, K1.
Qed.

Lemma argv_at_lookup ps : ∀ m slot strs i p,
  0 ≤ slot → slot + 4 * Z.of_nat (length ps) ≤ strs → strs + strs_size ps ≤ 2 ^ 32 →
  Forall (Forall (λ c, 0 < c < 256)) ps → argv_at m slot strs ps → ps !! i = Some p →
  ∃ a, load32 (slot + 4 * Z.of_nat i) m = Ok (a, m) ∧ cstr m a p.
Proof.
  induction ps as [|q ps IH]; intros m slot strs i p H0 Hd Ht Hc H Hi; cbn [argv_at strs_size length] in *; [done|].
  pose proof (strs_size_nonneg ps). destruct H as (Ct & Cs & P). apply Forall_cons in Hc as [Hq Hc].
  destruct i as [|i]; cbn [lookup list_lookup] in Hi.
  - simplify_eq. exists strs. split; [|apply contents_cstr; [lia|lia|done|done]].
    replace (slot + 4 * Z.of_nat 0) with slot by lia. apply load32_Ok; [unfold is_u32; lia|lia|lia|done].
  - destruct (IH m (slot + 4) (strs + Z.of_nat (length q) + 1) i p) as (a & Ha); [lia..|done|done|done|].
    exists a. by replace (slot + 4 * Z.of_nat (S i)) with (slot + 4 + 4 * Z.of_nat i) by lia.
Qed.

Lemma UnpackParams_Ok m B params :
  B mod 4 = 0 → 0 ≤ B → B + packed_size params < 2 ^ 32 → Forall (Forall (λ c, 0 < c < 256)) params →
  contents m B (bytes32 (Z.of_nat (length params))) →
  packed m (B + 4) (B + 4 + 4 * Z.of_nat (length params)) params →
  ∃ m', UnpackParams B m = Ok ((Z.of_nat (length params), B + 4), m') ∧
    (∀ i p, params !! i = Some p → ∃ a, load32 (B + 4 + 4 * Z.of_nat i) m' = Ok (a, m') ∧ cstr m' a p) ∧
    changed m m' B (packed_size params).
Proof.
  unfold packed_size. intros Ha H0 Ht Hc Cn P. pose proof (strs_size_nonneg params).
  destruct (unpack_loop_Ok params m (B + 4) (B + 4 + 4 * Z.of_nat (length params))) as (m' & R & A & K);
    [lia|lia|lia|done|].
  exists m'. split; [|split; [|split; [intros a Hout; apply K; lia|apply K]]].
  - unfold UnpackParams. rewrite Ha, u32_id by (unfold is_u32; lia). erewrite bind_Ok by done.
    replace ((B + 4) mod 4 =? 0) with true by (symmetry; apply Z.eqb_eq; dlia). erewrite bind_Ok by done.
    rewrite (bind_Ok _ _ _ _ _ (load32_Ok _ _ (Z.of_nat (length params)) ltac:(unfold is_u32; lia) H0 ltac:(lia) Cn)).
    unfold s32. rewrite (proj2 (Z.ltb_lt (Z.of_nat (length params)) _)) by lia. rewrite Nat2Z.id. by rewrite (bind_Ok _ _ _ _ _ R).
  - intros i p Hi. eapply (argv_at_lookup params); [| | | |exact A|exact Hi]; [lia..|done].
Qed.

(** The packed bytes: the table of the distances to the strings, and the strings. *)
Fixpoint pack_table (d : Z) (params : list (list Z)) : list Z :=
  match params with
  | [] => []
  | p :: ps => bytes32 (u32 d) ++ pack_table (d + Z.of_nat (length p) + 1 - 4) ps
  end.

Definition pack_data (params : list (list Z)) : list Z :=
  bytes32 (Z.of_nat (length params)) ++ pack_table (4 * Z.of_nat (length params)) params ++ concat ((λ p, p ++ [0]) <$> params).

Lemma length_pack_table ps : ∀ d, length (pack_table d ps) = (4 * length ps)%nat.
Proof. induction ps as [|p ps IH]; intros d; cbn [pack_table length]; [done|]. rewrite length_app, IH. simpl. lia. Qed.

Lemma length_strings ps : Z.of_nat (length (concat ((λ p, p ++ [0]) <$> ps))) = strs_size ps.
Proof.
  induction ps as [|p ps IH]; [done|]. rewrite fmap_cons. cbn [concat strs_size]. rewrite <- IH, !length_app. cbn [length]. lia.
Qed.

Lemma length_pack_data params : Z.of_nat (length (pack_data params)) = packed_size params.
Proof.
  unfold pack_data, packed_size. rewrite !length_app, length_pack_table. change (length (bytes32 _)) with 4%nat.
  pose proof (length_strings params). lia.
Qed.

Lemma packed_contents m ps : ∀ slot strs, packed m slot strs ps →
  contents m slot (pack_table (strs - slot) ps) ∧ contents m strs (concat ((λ p, p ++ [0]) <$> ps)).
Proof.
  induction ps as [|p ps IH]; intros slot strs H; cbn [packed pack_table fmap list_fmap concat] in *; [by split; apply contents_nil|].
  destruct H as (H1 & H2 & H3). destruct (IH _ _ H3) as [Ht Hs]. rewrite (contents_app _ slot), (contents_app _ strs (p ++ [0])).
  split; (split; [done|]).
  - change (Z.of_nat (length (bytes32 _))) with 4.
    by replace (strs - slot + Z.of_nat (length p) + 1 - 4) with (strs + Z.of_nat (length p) + 1 - (slot + 4)) by lia.
  - rewrite length_app, Nat2Z.inj_add, Z.add_assoc. exact Hs.
Qed.

Lemma pack_data_contents m A params :
  contents m A (bytes32 (Z.of_nat (length params))) → packed m (A + 4) (A + 4 + 4 * Z.of_nat (length params)) params →
  contents m A (pack_data params).
Proof.
  intros Cn P. apply packed_contents in P as [Ht Hs]. unfold pack_data. rewrite !contents_app, length_pack_table.
  change (Z.of_nat (length (bytes32 _))) with 4. split; [done|].
  replace (A + 4 + 4 * Z.of_nat (length params) - (A + 4)) with (4 * Z.of_nat (length params)) in Ht by lia. split; [done|].
  by replace (Z.of_nat (4 * length params)) with (4 * Z.of_nat (length params)) by lia.
Qed.

Lemma pack_data_u8 params : Forall (Forall is_u8) params → Forall is_u8 (pack_data params).
Proof.
  intros H. unfold pack_data. rewrite !Forall_app. split; [apply bytes32_u8|]. split.
  - generalize (4 * Z.of_nat (length params)). induction params as [|p ps IH]; intros d; cbn [pack_table]; [constructor|].
    apply Forall_app. split; [apply bytes32_u8|]. apply IH. by apply Forall_cons in H as [_ H].
  - induction H as [|p ps Hp H IH]; cbn [fmap list_fmap concat]; [constructor|]. rewrite !Forall_app.
    split; [split; [done|by repeat constructor]|exact IH].
Qed.

(** The packed bytes may be unpacked wherever they are loaded. *)
Lemma params_arrive m A B params child :
  B mod 4 = 0 → 0 ≤ B → B + packed_size params < 2 ^ 32 → Forall (Forall (λ c, 0 < c < 256)) params →
  contents m A (bytes32 (Z.of_nat (length params))) → packed m (A + 4) (A + 4 + 4 * Z.of_nat (length params)) params →
  (∀ i, 0 ≤ i < packed_size params → child !! (B + i) = m !! (A + i)) →
  ∃ child', UnpackParams B child = Ok ((Z.of_nat (length params), B + 4), child') ∧
    (∀ i p, params !! i = Some p → ∃ a, load32 (B + 4 + 4 * Z.of_nat i) child' = Ok (a, child') ∧ cstr child' a p) ∧
    changed child child' B (packed_size params).
Proof.
  intros HB H0B HtB Hc Cn P Hcopy. pose proof (strs_size_nonneg params).
  apply UnpackParams_Ok; [done|done|done|done| |]; unfold packed_size in *.
  - eapply contents_local; [|exact Cn]. intros i Hi. apply Hcopy. simpl in Hi. lia.
  - replace (B + 4) with (A + 4 + (B - A)) by lia.
    replace (A + 4 + (B - A) + 4 * _) with (A + 4 + 4 * Z.of_nat (length params) + (B - A)) by lia.
    eapply packed_local; [| |exact P]; intros i Hi.
    + replace (A + 4 + (B - A) + i) with (B + (4 + i)) by lia. rewrite Hcopy by lia. f_equal. lia.
    + replace (A + 4 + _ + (B - A) + i) with (B + (4 + 4 * Z.of_nat (length params) + i)) by lia.
      rewrite Hcopy by lia. f_equal. lia.
Qed.

(** * Properties *)

(** The arguments of a program arrive.  If the parent's buffer at [A] is aligned, holds
    [PackSize] bytes and does not lie in the last page, and the arguments fit a page, then
    [PackParams] succeeds; and wherever the child loads those [PackSize] bytes (at [B],
    aligned), [UnpackParams] returns the number of arguments and a table whose i-th entry
    points at the i-th argument as a C string. *)
Lemma params_round_trip m page_size A B params :
  A mod 4 = 0 → B mod 4 = 0 → 0 ≤ A → 0 ≤ B →
  A + page_size < 2 ^ 32 → B + packed_size params < 2 ^ 32 → packed_size params < page_size →
  (∀ a, A ≤ a < A + packed_size params → is_Some (m !! a)) →
  Forall (Forall (λ c, 0 < c < 256)) params →
  ∃ m', PackParams page_size A params m = Ok (tt, m') ∧ PackSize params = packed_size params ∧
    ∀ child, (∀ i, 0 ≤ i < PackSize params → child !! (B + i) = m' !! (A + i)) →
      ∃ child', UnpackParams B child = Ok ((Z.of_nat (length params), B + 4), child') ∧
        ∀ i p, params !! i = Some p →
          ∃ a, load32 (B + 4 + 4 * Z.of_nat i) child' = Ok (a, child') ∧ cstr child' a p.
Proof.
  intros HA HB H0A H0B HtA HtB Hs Hm Hc. pose proof (strs_size_nonneg params).
  destruct (PackParams_Ok m page_size A params) as (m' & R & Cn & P); [done..| |].
  { eapply Forall_impl; [exact Hc|]. intros p Hp. eapply Forall_impl; [exact Hp|]. intros c Hch. simpl in Hch. unfold is_u8. lia. }
  assert (HP : PackSize params = packed_size params) by (apply PackSize_Ok; lia).
  exists m'. split_and!; [exact R|exact HP|]. rewrite HP. intros child Hcopy.
  destruct (params_arrive m' A B params child) as (child' & Ru & Hargs & _); [done..|].
  by exists child'.
Qed.

(** [{"ls", "-l"}]: the parent's buffer is at 4096, the child's at 8192. *)
End StartParams.
