(* ===== verification/Printf.v ===== *)
(** Formatted output: libc/printf.cpp.

    [put] sends one character to the console (serial::Put in the kernel, a DebugWrite system
    call in a process); here it appends to the list of characters sent.  The format string is
    the list of the characters before its terminating zero, [va_list] the list of the 32-bit
    words the caller has pushed: taking an argument that was not passed is a fault. *)
From stdpp Require Import pretty.
From S2P Require Import Prelude LibcString.
Import LibcString.LibcString.

Module Printf.

Record console := Console {
  out : list Z;       (* the characters written so far *)
  va : list Z;        (* the arguments that are left *)
  mem : memory        (* the memory the string arguments are in *)
}.

(** ** Output and arguments *)
Definition put (c : Z) : M console unit := modify (λ s, Console (out s ++ [u8 c]) (va s) (mem s)).

Definition va_arg32 : M console Z := λ s,
  match va s with
  | w :: ws => Ok (w, Console (out s) ws (mem s))
  | [] => Fault OutOfBounds
  end.

(** A 64-bit argument takes two words, the low one first. *)
Definition va_arg64 : M console Z := lo ← va_arg32; hi ← va_arg32; mret (lo + 2 ^ 32 * hi).

Definition on_mem {A} (m : M memory A) : M console A :=
  zoom mem (λ m' s, Console (out s) (va s) m') m.

(** A word read as an [int]. *)
Definition as_int (w : Z) : Z := if w <? 2 ^ 31 then w else w - 2 ^ 32.

(** ** Decimal *)

(** [do { *--buffer_ptr = val % 10 + '0'; val /= 10; } while (val);]  The pointer is an index
    of the buffer; one step per digit, and a step before the start of the buffer faults. *)
Fixpoint digits_loop (fuel : nat) (buffer : list Z) (buffer_ptr val : Z) : M console (list Z * Z) :=
  match fuel with
  | O => fail NoFuel
  | S fuel =>
      let buffer_ptr := buffer_ptr - 1 in
      buffer ← liftR (awrite buffer buffer_ptr (u8 (val mod 10 + 48)));
      let val := val / 10 in
      if tobool val then digits_loop fuel buffer buffer_ptr val else mret (buffer, buffer_ptr)
  end.

(** [while (buffer_ptr < &buffer[kNumDigits]) put( *(buffer_ptr++));] *)
Fixpoint put_loop (n : nat) (buffer : list Z) (buffer_ptr kNumDigits : Z) : M console unit :=
  match n with
  | O => mret tt
  | S n =>
      if buffer_ptr <? kNumDigits then
        c ← liftR (aread buffer buffer_ptr);
        put c;;
        put_loop n buffer (buffer_ptr + 1) kNumDigits
      else mret tt
  end.

(** The bytes of [buffer] are not initialised: [junk] stands for what they hold. *)
Definition PrintDecimalImpl (kNumDigits : nat) (junk : list Z) (val : Z) : M console unit :=
  let buffer := take kNumDigits junk ++ [0] in
  '(buffer, buffer_ptr) ← digits_loop (S kNumDigits) buffer (Z.of_nat kNumDigits) val;
  put_loop (S kNumDigits) buffer buffer_ptr (Z.of_nat kNumDigits).

Definition stack_junk : list Z := replicate 10 0.

Definition PrintDecimal_u32 (val : Z) : M console unit := PrintDecimalImpl 10 stack_junk val.

(** ** Hexadecimal *)
Definition PrintNibble (val : Z) : M console unit :=
  if val <? 10 then put (48 + val) else put (97 + val - 10).

Definition PrintHex8 (val : Z) : M console unit :=
  PrintNibble (Z.shiftr val 4);; PrintNibble (Z.land val 15).

Definition PrintHex16 (val : Z) : M console unit :=
  PrintHex8 (u8 (Z.shiftr val 8));; PrintHex8 (u8 val).

Definition PrintHex32 (val : Z) : M console unit :=
  PrintHex16 (u16 (Z.shiftr val 16));; PrintHex16 (u16 val).

Definition PrintHex64 (val : Z) : M console unit :=
  PrintHex32 (u32 (Z.shiftr val 32));; PrintHex32 (u32 val).

(** ** Strings *)

(** [for (end = s + strlen(s); s < end; ++s) put( *s);] *)
Fixpoint put_chars (n : nat) (s : Z) : M console unit :=
  match n with
  | O => mret tt
  | S n => c ← on_mem (load s); put c;; put_chars n (s + 1)
  end.

Definition put_string (s : Z) : M console unit :=
  len ← on_mem (strlen s);
  put_chars (Z.to_nat len) s.

(** ** [Format]

    [Format] and the signed [PrintDecimal] call each other: the printer of [%d] is an argument
    here, and the knot is tied below. *)
Fixpoint Format_body (print_int : Z → M console unit) (fmt : list Z) : M console Z :=
  match fmt with
  | [] => mret 0
  | 37 (* '%' *) :: fmt =>
      match fmt with
      | 99 (* 'c' *) :: fmt => w ← va_arg32; put (u8 w);; Format_body print_int fmt
      | 100 (* 'd' *) :: fmt => w ← va_arg32; print_int (as_int w);; Format_body print_int fmt
      | 117 (* 'u' *) :: fmt => w ← va_arg32; PrintDecimal_u32 w;; Format_body print_int fmt
      | 115 (* 's' *) :: fmt => s ← va_arg32; put_string s;; Format_body print_int fmt
      | 112 (* 'p' *) :: fmt =>
          p ← va_arg32; put 48;; put 120;; PrintHex32 p;; Format_body print_int fmt
      | 120 (* 'x' *) :: fmt => u ← va_arg32; PrintHex32 u;; Format_body print_int fmt
      | 108 (* 'l' *) :: fmt =>
          match fmt with
          | [] => l ← va_arg32; PrintDecimal_u32 (u32 l);; mret 0
          | 108 (* 'l' *) :: fmt =>
              match fmt with
              | 120 (* 'x' *) :: fmt => llx ← va_arg64; PrintHex64 llx;; Format_body print_int fmt
              | 105 (* 'i' *) :: _ | 100 (* 'd' *) :: _ => fail Aborted
              | _ => mret (-1)
              end
          | 120 (* 'x' *) :: fmt => v ← va_arg32; PrintHex32 (u32 v);; Format_body print_int fmt
          | _ => mret (-1)
          end
      | _ => mret (-1)
      end
  | c :: fmt => put c;; Format_body print_int fmt
  end.

(** ["-2147483648"]; it has no directive, so the inner [Format] prints no integer. *)
Definition int_min_text : list Z := [45; 50; 49; 52; 55; 52; 56; 51; 54; 52; 56].

Definition PrintDecimal_i32 (val : Z) : M console unit :=
  if 0 <=? val then PrintDecimal_u32 (u32 val)
  else if val =? - 2 ^ 31 then Format_body (λ _, fail NoFuel) int_min_text;; mret tt
  else put 45;; PrintDecimal_u32 (u32 (- val)).

Definition Format (fmt : list Z) : M console Z := Format_body PrintDecimal_i32 fmt.

(** The result of [Format] is dropped. *)
Definition printf (s : list Z) (args : list Z) : M console Z :=
  modify (λ st, Console (out st) args (mem st));;
  Format s;;
  mret 0.

Definition putchar (ch : Z) : M console Z := put (u8 ch);; mret ch.

(** * Lemmas *)

(** The reference: stdpp's [pretty] of an integer, as characters. *)
Fixpoint chars (s : string) : list Z :=
  match s with
  | EmptyString => []
  | String a s => Z.of_N (Ascii.N_of_ascii a) :: chars s
  end.

Definition dec_text (z : Z) : list Z := chars (pretty z).

(** [n] hexadecimal digits of [val]. *)
Definition hex_digit (d : Z) : Z := if d <? 10 then 48 + d else 97 + d - 10.

Fixpoint hex_text (n : nat) (val : Z) : list Z :=
  match n with
  | O => []
  | S n => hex_digit (val / 16 ^ Z.of_nat n mod 16) :: hex_text n val
  end.

(** The console after the characters [cs]. *)
Definition printed (cs : list Z) (s : console) : console := Console (out s ++ cs) (va s) (mem s).

Lemma printed_nil s : printed [] s = s.
Proof. destruct s. unfold printed. simpl. by rewrite app_nil_r. Qed.

Lemma printed_app cs ds s : printed ds (printed cs s) = printed (cs ++ ds) s.
Proof. unfold printed. simpl. by rewrite app_assoc. Qed.

Lemma put_Ok c s : is_u8 c → put c s = Ok (tt, printed [c] s).
Proof. intros H. unfold put, modify. by rewrite u8_id. Qed.

Lemma digit_char d : 0 ≤ d < 10 → u8 (d + 48) = Z.of_N (Ascii.N_of_ascii (pretty_N_char (Z.to_N d))).
Proof.
  intros H. assert (d = 0 ∨ d = 1 ∨ d = 2 ∨ d = 3 ∨ d = 4 ∨ d = 5 ∨ d = 6 ∨ d = 7 ∨ d = 8 ∨ d = 9) by lia.
  naive_solver.
Qed.

(** Digits in front of the characters [s]; zero is one digit. *)
Definition dec_go (val : Z) (s : string) : string :=
  if val =? 0 then String (pretty_N_char 0) s else pretty_N_go (Z.to_N val) s.

Lemma dec_go_step val s :
  0 ≤ val →
  dec_go val s = if val / 10 =? 0 then String (pretty_N_char (Z.to_N (val mod 10))) s
                 else dec_go (val / 10) (String (pretty_N_char (Z.to_N (val mod 10))) s).
Proof.
  intros H. unfold dec_go. destruct (Z.eqb_spec val 0) as [->|]; [done|].
  rewrite pretty_N_go_step by lia.
  rewrite Z2N.inj_mod, Z2N.inj_div by lia. change (Z.to_N 10) with 10%N.
  destruct (Z.eqb_spec (val / 10) 0) as [E|]; [|done].
  replace (Z.to_N val `div` 10)%N with 0%N; [by rewrite pretty_N_go_0|].
  change 10%N with (Z.to_N 10). rewrite <- Z2N.inj_div by lia. by rewrite E.
Qed.

Lemma awrite_suffix {A} (b : list A) (i : nat) (x : A) :
  (i < length b)%nat → awrite b (Z.of_nat i) x = Ok (<[i := x]> b) ∧ drop i (<[i := x]> b) = x :: drop (S i) b.
Proof.
  intros H. split.
  - unfold awrite. rewrite nthZ_lookup by lia. rewrite Nat2Z.id.
    destruct (lookup_lt_is_Some_2 b i H) as [y ->]. done.
  - rewrite (drop_S (<[i := x]> b) x i) by (by apply list_lookup_insert_eq). by rewrite drop_insert_lt by lia.
Qed.

Lemma digits_loop_Ok fuel : ∀ (b : list Z) (i : nat) val s st,
  (i < fuel)%nat → 0 ≤ val < 10 ^ Z.of_nat i → (1 ≤ i)%nat → (i < length b)%nat →
  drop i b = chars s ++ [0] →
  ∃ b' (i' : nat), digits_loop fuel b (Z.of_nat i) val st = Ok ((b', Z.of_nat i'), st) ∧
    (i' ≤ i)%nat ∧ length b' = length b ∧ drop i' b' = chars (dec_go val s) ++ [0].
Proof.
  induction fuel as [|fuel IH]; intros b i val s st Hf Hv Hi Hb Hd; [lia|]. cbn [digits_loop].
  destruct i as [|i]; [lia|]. replace (Z.of_nat (S i) - 1) with (Z.of_nat i) by lia.
  destruct (awrite_suffix b i (u8 (val mod 10 + 48))) as [Hw Hd']; [lia|].
  unfold liftR at 1. erewrite bind_Ok by (by rewrite Hw).
  rewrite digit_char in * by (apply Z.mod_pos_bound; lia).
  rewrite Hd in Hd'. rewrite dec_go_step by lia. unfold tobool. destruct (Z.eqb_spec (val / 10) 0) as [E|E].
  - exists (<[i := Z.of_N (Ascii.N_of_ascii (pretty_N_char (Z.to_N (val mod 10))))]> b), i.
    split_and!; [done|lia|by rewrite length_insert|exact Hd'].
  - assert (Hlt : val / 10 < 10 ^ Z.of_nat i).
    { apply Z.div_lt_upper_bound; [lia|]. rewrite <- Z.pow_succ_r by lia.
      replace (Z.succ (Z.of_nat i)) with (Z.of_nat (S i)) by lia. lia. }
    assert (Hpos : 0 < val / 10) by dlia.
    destruct i as [|i]; [change (10 ^ Z.of_nat 0) with 1 in Hlt; lia|].
    destruct (IH (<[S i := Z.of_N (Ascii.N_of_ascii (pretty_N_char (Z.to_N (val mod 10))))]> b) (S i) (val / 10)
                 (String (pretty_N_char (Z.to_N (val mod 10))) s) st) as (b' & i' & R & Hi' & Hl & Hd2);
      [lia|lia|lia|rewrite length_insert; lia|exact Hd'|].
    exists b', i'. split_and!; [exact R|lia|by rewrite Hl, length_insert|exact Hd2].
Qed.

Lemma chars_u8 s : Forall is_u8 (chars s).
Proof.
  induction s as [|a s IH]; simpl; constructor; [|done].
  pose proof (Ascii.N_ascii_bounded a). unfold is_u8. lia.
Qed.

Lemma put_loop_Ok n : ∀ (b cs : list Z) (i k : nat) st,
  (length cs < n)%nat → drop i b = cs ++ [0] → Z.of_nat (i + length cs) = Z.of_nat k → Forall is_u8 cs →
  put_loop n b (Z.of_nat i) (Z.of_nat k) st = Ok (tt, printed cs st).
Proof.
  induction n as [|n IH]; intros b cs i k st Hn Hd Hk Hc; [lia|]. cbn [put_loop].
  destruct cs as [|c cs]; simpl in *.
  - rewrite (proj2 (Z.ltb_ge _ _)) by lia. by rewrite printed_nil.
  - rewrite (proj2 (Z.ltb_lt _ _)) by lia. apply Forall_cons in Hc as [Hc8 Hc].
    assert (Hl : b !! i = Some c) by (by rewrite <- (Nat.add_0_r i), <- lookup_drop, Hd).
    erewrite bind_Ok by (unfold liftR, aread; rewrite nthZ_lookup, Nat2Z.id, Hl by lia; done).
    rewrite (bind_Ok _ _ _ _ _ (put_Ok _ _ Hc8)).
    replace (Z.of_nat i + 1) with (Z.of_nat (S i)) by lia. rewrite (IH b cs); [|lia| |lia|done].
    + by rewrite printed_app.
    + rewrite (drop_S _ _ _ Hl) in Hd. by simplify_eq/=.
Qed.

Lemma PrintDecimalImpl_Ok K junk val st :
  length junk = K → (1 ≤ K)%nat → 0 ≤ val < 10 ^ Z.of_nat K →
  PrintDecimalImpl K junk val st = Ok (tt, printed (chars (dec_go val "")) st) ∧
  (length (chars (dec_go val "")) ≤ K)%nat.
Proof.
  intros Hj HK Hv. unfold PrintDecimalImpl. rewrite take_ge by lia.
  destruct (digits_loop_Ok (S K) (junk ++ [0]) K val "" st) as (b' & i' & R & Hi & Hl & Hd).
  { lia. } { done. } { lia. } { rewrite length_app; simpl; lia. }
  { simpl. by rewrite drop_app_length' by done. }
  pose proof (f_equal length Hd) as Hlen. rewrite length_drop, Hl, !length_app in Hlen. simpl in Hlen.
  split; [|lia]. rewrite (bind_Ok _ _ _ _ _ R).
  apply put_loop_Ok; [lia|done|lia|apply chars_u8].
Qed.

Lemma dec_go_text val : 0 ≤ val → chars (dec_go val "") = dec_text val.
Proof.
  intros H. unfold dec_text, dec_go. destruct (Z.eqb_spec val 0) as [->|]; [done|].
  destruct val as [|p|p]; [done| |lia]. unfold pretty at 1, pretty_Z, pretty, pretty_positive, pretty, pretty_N.
  by rewrite decide_False.
Qed.

Lemma PrintDecimal_u32_Ok val st :
  is_u32 val → PrintDecimal_u32 val st = Ok (tt, printed (dec_text val) st) ∧ (length (dec_text val) ≤ 10)%nat.
Proof.
  intros H. rewrite <- dec_go_text by (unfold is_u32 in H; lia).
  apply PrintDecimalImpl_Ok; [done|lia|]. unfold is_u32 in H. change (10 ^ Z.of_nat 10) with 10000000000. lia.
Qed.

(** ** Literal text and the knot *)
Lemma Format_lit pd c fmt st :
  0 < c < 256 → c ≠ 37 → Format_body pd (c :: fmt) st = Format_body pd fmt (printed [c] st).
Proof.
  intros Hc Hn. rewrite <- (bind_Ok (put c) (λ _, Format_body pd fmt) st tt) by (apply put_Ok; unfold is_u8; lia).
  destruct c as [|p|p]; [lia| |lia]. do 6 (destruct p as [p|p|]; try done).
Qed.

Lemma Format_lits pd cs : ∀ fmt st,
  Forall (λ c, 0 < c < 256 ∧ c ≠ 37) cs → Format_body pd (cs ++ fmt) st = Format_body pd fmt (printed cs st).
Proof.
  induction cs as [|c cs IH]; intros fmt st H; cbn [app]; [by rewrite printed_nil|].
  apply Forall_cons in H as [[Hc0 Hc1] Hcs]. rewrite Format_lit, IH, printed_app by done. done.
Qed.

Lemma dec_text_neg val : val < 0 → dec_text val = 45 :: dec_text (- val).
Proof. intros H. destruct val as [|p|p]; [lia|lia|]. done. Qed.

Lemma PrintDecimal_i32_Ok val st :
  - 2 ^ 31 ≤ val < 2 ^ 31 → PrintDecimal_i32 val st = Ok (tt, printed (dec_text val) st).
Proof.
  intros H. unfold PrintDecimal_i32. destruct (Z.leb_spec 0 val).
  { rewrite u32_id by (unfold is_u32; lia). apply PrintDecimal_u32_Ok. unfold is_u32. lia. }
  destruct (Z.eqb_spec val (- 2 ^ 31)) as [->|].
  { rewrite <- (app_nil_r int_min_text). erewrite bind_Ok.
    2:{ rewrite Format_lits; [done|]. repeat constructor; lia. }
    done. }
  rewrite u32_id by (unfold is_u32; lia). rewrite dec_text_neg by lia.
  rewrite (bind_Ok _ _ _ _ _ (put_Ok 45 st ltac:(unfold is_u8; lia))).
  rewrite (proj1 (PrintDecimal_u32_Ok (- val) _ ltac:(unfold is_u32; lia))). by rewrite printed_app.
Qed.

(** ** Hexadecimal *)
Lemma PrintNibble_Ok d st : 0 ≤ d < 16 → PrintNibble d st = Ok (tt, printed [hex_digit d] st).
Proof.
  intros H. unfold PrintNibble, hex_digit. destruct (Z.ltb_spec d 10); apply put_Ok; unfold is_u8; lia.
Qed.

Lemma hex_text_app a b val : 0 ≤ val →
  hex_text (a + b) val = hex_text a (val / 16 ^ Z.of_nat b) ++ hex_text b val.
Proof.
  intros H. induction a as [|a IH]; [done|]. cbn [hex_text Nat.add app]. rewrite IH. do 3 f_equal.
  rewrite Nat2Z.inj_add, Z.pow_add_r by lia. rewrite Z.mul_comm. by rewrite Z.div_div by lia.
Qed.

Lemma hex_text_mod n val : 0 ≤ val → hex_text n (val mod 16 ^ Z.of_nat n) = hex_text n val.
Proof.
  intros H. assert (G : ∀ k, (k ≤ n)%nat → hex_text k (val mod 16 ^ Z.of_nat n) = hex_text k val).
  { induction k as [|k IH]; intros Hk; [done|]. cbn [hex_text]. rewrite IH by lia. do 2 f_equal.
    replace (16 ^ Z.of_nat n) with (16 ^ Z.of_nat k * (16 * 16 ^ Z.of_nat (n - S k))).
    2:{ rewrite <- Z.pow_succ_r, <- Z.pow_add_r by lia. f_equal. lia. }
    rewrite Z.rem_mul_r by lia. rewrite (Z.mul_comm (16 ^ Z.of_nat k)), Z.div_add by lia.
    rewrite (Z.div_small (val mod 16 ^ Z.of_nat k)) by (apply Z.mod_pos_bound; lia).
    rewrite Z.add_0_l. rewrite Z.rem_mul_r by lia.
    rewrite Z.mul_comm, Z.mod_add by lia. by rewrite Z.mod_mod. }
  by apply G.
Qed.

(** Two halves of [n] digits make a number of [2 * n] digits. *)
Lemma hex_halves (P : Z → M console unit) n val st :
  (∀ v s, 0 ≤ v < 16 ^ Z.of_nat n → P v s = Ok (tt, printed (hex_text n v) s)) →
  0 ≤ val < 16 ^ Z.of_nat (n + n) →
  (P ((val / 16 ^ Z.of_nat n) mod 16 ^ Z.of_nat n);; P (val mod 16 ^ Z.of_nat n)) st =
  Ok (tt, printed (hex_text (n + n) val) st).
Proof.
  intros HP Hv. assert (0 ≤ val / 16 ^ Z.of_nat n) by (apply Z.div_pos; lia).
  erewrite bind_Ok by (apply HP, Z.mod_pos_bound; lia). rewrite HP by (apply Z.mod_pos_bound; lia).
  rewrite printed_app, !hex_text_mod by lia. by rewrite hex_text_app by lia.
Qed.

Lemma PrintHex8_Ok val st : 0 ≤ val < 2 ^ 8 → PrintHex8 val st = Ok (tt, printed (hex_text 2 val) st).
Proof.
  intros H. unfold PrintHex8. rewrite Z.shiftr_div_pow2 by lia.
  change 15 with (Z.ones 4). rewrite Z.land_ones by lia.
  erewrite bind_Ok by (apply PrintNibble_Ok; dlia). rewrite PrintNibble_Ok by dlia. rewrite printed_app.
  cbn [hex_text app]. change (16 ^ Z.of_nat 1) with 16. change (16 ^ Z.of_nat 0) with 1. change (2 ^ 4) with 16.
  rewrite Z.div_1_r. by rewrite (Z.mod_small (val / 16)) by dlia.
Qed.

Lemma PrintHex16_Ok val st : 0 ≤ val < 2 ^ 16 → PrintHex16 val st = Ok (tt, printed (hex_text 4 val) st).
Proof.
  intros H. unfold PrintHex16, u8. rewrite Z.shiftr_div_pow2 by lia.
  apply (hex_halves PrintHex8 2); [intros; by apply PrintHex8_Ok|exact H].
Qed.

Lemma PrintHex32_Ok val st : 0 ≤ val < 2 ^ 32 → PrintHex32 val st = Ok (tt, printed (hex_text 8 val) st).
Proof.
  intros H. unfold PrintHex32, u16. rewrite Z.shiftr_div_pow2 by lia.
  apply (hex_halves PrintHex16 4); [intros; by apply PrintHex16_Ok|exact H].
Qed.

Lemma PrintHex64_Ok val st : 0 ≤ val < 2 ^ 64 → PrintHex64 val st = Ok (tt, printed (hex_text 16 val) st).
Proof.
  intros H. unfold PrintHex64, u32. rewrite Z.shiftr_div_pow2 by lia.
  apply (hex_halves PrintHex32 8); [intros; by apply PrintHex32_Ok|exact H].
Qed.

(** ** Strings *)
Lemma put_chars_Ok s : ∀ p st, cstr (mem st) p s → put_chars (length s) p st = Ok (tt, printed s st).
Proof.
  induction s as [|c s IH]; intros p st H; cbn [put_chars length]; [by rewrite printed_nil|].
  pose proof (cstr_load _ _ _ H) as Hl. destruct H as (_ & _ & Hc & H).
  erewrite bind_Ok by (unfold on_mem, zoom; rewrite Hl; destruct st; done). cbn [head default].
  erewrite bind_Ok by (apply put_Ok; unfold is_u8; simpl; lia). rewrite IH by done. by rewrite printed_app.
Qed.

Lemma put_string_Ok p s st : cstr (mem st) p s → put_string p st = Ok (tt, printed s st).
Proof.
  intros H. unfold put_string.
  erewrite bind_Ok by (unfold on_mem, zoom; rewrite (strlen_Ok _ _ _ H); destruct st; done).
  rewrite Nat2Z.id. by apply put_chars_Ok.
Qed.

(** * What a format string means *)

(** A piece of a format string with the arguments it takes. *)
Inductive directive :=
  | Lit (c : Z)              (* any character but [%] *)
  | Char (w : Z)             (* %c *)
  | Int (w : Z)              (* %d *)
  | Uns (w : Z)              (* %u *)
  | Str (p : Z) (s : list Z) (* %s: a pointer, and the string it points to *)
  | Ptr (w : Z)              (* %p *)
  | Hex (w : Z)              (* %x *)
  | LHex (w : Z)             (* %lx *)
  | LLHex (lo hi : Z).       (* %llx *)

Definition fmt_of (d : directive) : list Z :=
  match d with
  | Lit c => [c] | Char _ => [37; 99] | Int _ => [37; 100] | Uns _ => [37; 117] | Str _ _ => [37; 115]
  | Ptr _ => [37; 112] | Hex _ => [37; 120] | LHex _ => [37; 108; 120] | LLHex _ _ => [37; 108; 108; 120]
  end.

Definition args_of (d : directive) : list Z :=
  match d with
  | Lit _ => [] | Char w | Int w | Uns w | Str w _ | Ptr w | Hex w | LHex w => [w] | LLHex lo hi => [lo; hi]
  end.

(** What it prints. *)
Definition shows (d : directive) : list Z :=
  match d with
  | Lit c => [c] | Char w => [u8 w] | Int w => dec_text (as_int w) | Uns w => dec_text w | Str _ s => s
  | Ptr w => [48; 120] ++ hex_text 8 w | Hex w | LHex w => hex_text 8 w
  | LLHex lo hi => hex_text 16 (lo + 2 ^ 32 * hi)
  end.

Definition valid (m : memory) (d : directive) : Prop :=
  Forall is_u32 (args_of d) ∧
  match d with Lit c => 0 < c < 256 ∧ c ≠ 37 | Str p s => cstr m p s | _ => True end.

Lemma va_arg32_Ok o w ws m : va_arg32 (Console o (w :: ws) m) = Ok (w, Console o ws m).
Proof. done. Qed.

Lemma va_arg64_Ok o lo hi ws m : va_arg64 (Console o (lo :: hi :: ws) m) = Ok (lo + 2 ^ 32 * hi, Console o ws m).
Proof. done. Qed.

Lemma as_int_range w : is_u32 w → - 2 ^ 31 ≤ as_int w < 2 ^ 31.
Proof. unfold is_u32, as_int. destruct (Z.ltb_spec w (2 ^ 31)); lia. Qed.

Lemma Format_directive d fmt o ws m :
  valid m d →
  Format (fmt_of d ++ fmt) (Console o (args_of d ++ ws) m) = Format fmt (Console (o ++ shows d) ws m).
Proof.
  intros [Hw Hd]. change (Console (o ++ shows d) ws m) with (printed (shows d) (Console o ws m)).
  destruct d; cbn [args_of fmt_of app] in *; [destruct Hd; by apply Format_lit|..]; apply Forall_cons in Hw as [Hw Hw'];
    unfold Format; cbn [Format_body]; try erewrite bind_Ok by apply va_arg32_Ok.
  - by erewrite bind_Ok by apply put_Ok, u8_range.
  - by erewrite bind_Ok by apply PrintDecimal_i32_Ok, as_int_range, Hw.
  - by erewrite bind_Ok by apply PrintDecimal_u32_Ok, Hw.
  - by erewrite bind_Ok by apply put_string_Ok, Hd.
  - rewrite (bind_Ok _ _ _ _ _ (put_Ok 48 _ ltac:(unfold is_u8; lia))).
    rewrite (bind_Ok _ _ _ _ _ (put_Ok 120 _ ltac:(unfold is_u8; lia))).
    erewrite bind_Ok by apply PrintHex32_Ok, Hw. by rewrite !printed_app.
  - by erewrite bind_Ok by apply PrintHex32_Ok, Hw.
  - rewrite u32_id by exact Hw. by erewrite bind_Ok by apply PrintHex32_Ok, Hw.
  - apply Forall_cons in Hw' as [Hhi _]. erewrite bind_Ok by apply va_arg64_Ok.
    erewrite bind_Ok by (apply PrintHex64_Ok; unfold is_u32 in *; lia). done.
Qed.

Lemma Format_directives ds : ∀ fmt o ws m,
  Forall (valid m) ds →
  Format (concat (fmt_of <$> ds) ++ fmt) (Console o (concat (args_of <$> ds) ++ ws) m) =
  Format fmt (Console (o ++ concat (shows <$> ds)) ws m).
Proof.
  induction ds as [|d ds IH]; intros fmt o ws m H; cbn [fmap list_fmap concat]; [by rewrite app_nil_r|].
  apply Forall_cons in H as [Hd H]. rewrite <- !app_assoc, Format_directive, IH, <- app_assoc by done. done.
Qed.

(** The directives [Format] gives up on. *)
Definition unknown (fmt : list Z) : bool :=
  match fmt with
  | 37 :: fmt =>
      match fmt with
      | 99 :: _ | 100 :: _ | 117 :: _ | 115 :: _ | 112 :: _ | 120 :: _ => false
      | 108 :: fmt =>
          match fmt with
          | [] | 120 :: _ => false
          | 108 :: fmt => match fmt with 120 :: _ | 105 :: _ | 100 :: _ => false | _ => true end
          | _ => true
          end
      | _ => true
      end
  | _ => false
  end.

(** Case analysis on a character, down to its last bit. *)
Ltac char_cases c :=
  destruct c as [|p|p]; try done; repeat (destruct p as [p|p|]; try done).

Lemma Format_unknown pd fmt st : unknown fmt = true → Format_body pd fmt st = Ok (-1, st).
Proof.
  destruct fmt as [|c fmt]; [done|]. char_cases c.
  destruct fmt as [|c fmt]; [done|]. char_cases c.
  destruct fmt as [|c fmt]; [done|]. char_cases c.
  destruct fmt as [|c fmt]; [done|]. char_cases c.
Qed.

(** * Properties *)

(** Decimal printing is exact: for every 32-bit value, whatever the uninitialised buffer
    holds, [PrintDecimal] writes the value's usual decimal form (no leading zeros, a minus
    sign in front of a negative one, the smallest integer included), and the ten bytes of
    the buffer are always enough. *)
Lemma decimal_is_exact val junk st :
  - 2 ^ 31 ≤ val < 2 ^ 32 → length junk = 10%nat →
  (0 ≤ val → PrintDecimalImpl 10 junk val st = Ok (tt, printed (dec_text val) st) ∧
             (length (dec_text val) ≤ 10)%nat) ∧
  (val < 2 ^ 31 → PrintDecimal_i32 val st = Ok (tt, printed (dec_text val) st)).
Proof.
  intros Hv Hj. split; intros H.
  - rewrite <- dec_go_text by done. apply PrintDecimalImpl_Ok; [done|lia|].
    change (10 ^ Z.of_nat 10) with 10000000000. lia.
  - apply PrintDecimal_i32_Ok. lia.
Qed.

(** C35: [Format] prints what its format string says: every sequence of literal characters and
    supported directives (%c %d %u %s %p %x %lx %llx), with the arguments it needs on the
    list, writes exactly the text of each in order, consumes exactly those arguments and
    returns 0; at the first directive it does not know it stops there and returns -1, with
    everything before it written. *)
Theorem format_prints m ds o ws :
  Forall (valid m) ds →
  Format (concat (fmt_of <$> ds)) (Console o (concat (args_of <$> ds) ++ ws) m) =
    Ok (0, Console (o ++ concat (shows <$> ds)) ws m) ∧
  ∀ rest, unknown rest = true →
    Format (concat (fmt_of <$> ds) ++ rest) (Console o (concat (args_of <$> ds) ++ ws) m) =
      Ok (-1, Console (o ++ concat (shows <$> ds)) ws m).
Proof.
  intros H. split.
  - rewrite <- (app_nil_r (concat (fmt_of <$> ds))). by rewrite Format_directives.
  - intros rest Hr. rewrite Format_directives by done. by apply Format_unknown.
Qed.

(** ["a%d%x"] with -5 and 255, then ["%ld"], which is not supported. *)
Lemma format_prints_witness :
  Format [97; 37; 100; 37; 120] (Console [] [2 ^ 32 - 5; 255] ∅) =
    Ok (0, Console [97; 45; 53; 48; 48; 48; 48; 48; 48; 102; 102] [] ∅) ∧
  Format [97; 37; 108; 100] (Console [] [7] ∅) = Ok (-1, Console [97] [7] ∅).
Proof.
  split.
  - apply (format_prints ∅ [Lit 97; Int (2 ^ 32 - 5); Hex 255] [] []).
    repeat constructor; simpl; unfold is_u32; lia.
  - apply (proj2 (format_prints ∅ [Lit 97] [] [7] ltac:(repeat constructor; simpl; lia)) [37; 108; 100]).
    reflexivity.
Defined.

(** A [long] at the end of the format string is printed as if it were unsigned. *)
Lemma long_printed_unsigned :
  Format [37; 108] (Console [] [2 ^ 32 - 1] ∅) = Ok (0, Console [52; 50; 57; 52; 57; 54; 55; 50; 57; 53] [] ∅).
Proof. reflexivity. Qed.

End Printf.
