(* ===== verification/Diagnostics.v ===== *)
(** What the kernel reports when something goes wrong: the dump of the registers and the names of
    the exceptions (kernel/isr.cpp), the page fault handler and the list of mapped pages
    (kernel/paging.cpp), the bitmap of physical pages (kernel/pmm.cpp), the stack trace
    (kernel/stacktrace.cpp), unhandled exceptions (kernel/exceptions.cpp), the search for the users
    of a page (kernel/scheduler.cpp), and how a program stops (kernel/panic.cpp, libc/assert.cpp,
    libc/stdlib.cpp).

    The state is the kernel's and the characters sent to the console.  Every line is printed by the
    [printf] of Printf.v, on the format string of the source; the strings passed for [%s] are
    literals, which [pool] puts somewhere in memory.  The registers that only assembly can read,
    [cr2] and the frame pointer [ebp] of the function that asks for the trace, are arguments. *)
From S2P Require Import Prelude KernelH Pmm Paging LinkedList Gdt Scheduler Syscalls KernelMain LibcString Printf.
Import Pmm.Pmm Paging.Paging Scheduler.Scheduler.

Module Diagnostics.

(** * Printing *)
Record report := mkReport { kern : kernel; text : list Z }.

Definition set_kern x (s : report) := mkReport x (text s).
Definition set_text x (s : report) := mkReport (kern s) x.

Definition on_kern {A} (m : M kernel A) : M report A := zoom kern set_kern m.
Definition on_machine {A} (m : M machine A) : M report A := on_kern (on_mach m).

(** An argument of [printf]: a word, or a string literal. *)
Inductive arg := W (w : Z) | L (s : string).

Definition chars : string → list Z := Printf.chars.
Definition ln (s : string) : list Z := chars s ++ [10].

(** The words pushed for the arguments, and the literals in memory, one after the other from [p]. *)
Fixpoint pushed (p : Z) (args : list arg) : list Z :=
  match args with
  | [] => []
  | W w :: args => w :: pushed p args
  | L s :: args => p :: pushed (p + Z.of_nat (length (chars s)) + 1) args
  end.

Fixpoint bytes_from (p : Z) (bs : list Z) (m : LibcString.memory) : LibcString.memory :=
  match bs with [] => m | b :: bs => <[p := b]> (bytes_from (p + 1) bs m) end.

Fixpoint pool (p : Z) (args : list arg) : LibcString.memory :=
  match args with
  | [] => ∅
  | W _ :: args => pool p args
  | L s :: args => bytes_from p (chars s ++ [0]) (pool (p + Z.of_nat (length (chars s)) + 1) args)
  end.

Definition printf (fmt : list Z) (args : list arg) : M report unit := λ s,
  match Printf.printf fmt (pushed 1 args) (Printf.Console (text s) [] (pool 1 args)) with
  | Ok (_, c) => Ok (tt, set_text (Printf.out c) s)
  | Fault f => Fault f
  end.

(** * isr.cpp *)
Definition exception_msgs : list string := [
  "Division By Zero"; "Debugger"; "Non-Maskable Interrupt"; "Breakpoint"; "Overflow"; "Bounds";
  "Invalid Opcode"; "Coprocessor Not Available"; "Double fault"; "Coprocessor Segment Overrun";
  "Invalid Task State Segment"; "Segment Not Present"; "Stack Fault"; "General Protection Fault";
  "Page Fault"; "Reserved"; "Math Fault"; "Alignement Check"; "Machine Check";
  "SIMD Floating-Point Exception"; "Reserved"; "Reserved"; "Reserved"; "Reserved"; "Reserved";
  "Reserved"; "Reserved"; "Reserved"; "Reserved"; "Reserved"; "Reserved"; "Reserved"]%string.

Definition ExceptionStr (int_no : Z) : M report string := liftR (aread exception_msgs int_no).

Definition regs_Dump (r : registers_t) : M report unit :=
  printf (ln "gs:     0x%x fs:       0x%x es:     0x%x ds:  0x%x cs: 0x%x") [W (gs r); W (fs r); W (es r); W (ds r); W (cs r)];;
  printf (ln "eax:    0x%x ebx:      0x%x ecx:    0x%x edx: 0x%x") [W (eax r); W (ebx r); W (ecx r); W (edx r)];;
  printf (ln "edi:    0x%x esi:      0x%x ebp:    0x%x esp: 0x%x") [W (edi r); W (esi r); W (ebp r); W (esp r)];;
  printf (ln "int_no: 0x%x err_code: 0x%x") [W (int_no r); W (err_code r)];;
  printf (ln "eip:    0x%x eflags:   0x%x usersp: 0x%x ss:  0x%x") [W (eip r); W (eflags r); W (useresp r); W (ss r)].

(** * paging.cpp *)
Definition flag (pde bit : Z) (yes no : string) : arg := L (if tobool (Z.land pde bit) then yes else no).

(** A loop over the entries of a page directory, at index [i]. *)
Fixpoint for_entries (body : Z → Z → M report unit) (n : nat) (i : Z) (pd : list Z) : M report unit :=
  match n with
  | O => mret tt
  | S n => pde ← liftR (aread pd i); body i pde;; for_entries body n (i + 1) pd
  end.

(** The body of the loop of [DumpMappedPages]. *)
Definition dump_entry (i pde : Z) : M report unit :=
  if tobool pde then
    printf (ln "%u) 0x%x (vaddr 0x%x => paddr 0x%x, %s, %s, %s, %s, %s)")
      [W i; W pde; W (PageToAddr i); W (PageAddress pde);
       flag pde PG_PRESENT "present" "not present"; flag pde PG_WRITE "writable" "read-only";
       flag pde PG_USER "user-accessible" "user-inaccessible"; flag pde PG_PCD "cached" "not cached";
       flag pde PG_GLOBAL "global" "not global"]
  else mret tt.

Definition DumpMappedPages (this : Z) : M report unit :=
  printf (ln "Mapped pages:") [];;
  pd ← on_machine (get_pd this);
  for_entries dump_entry (Z.to_nat kNumPageDirEntries) 0 pd.

(** * stacktrace.cpp *)

(** One step per frame; a [StackFrame] is the caller's frame pointer and the return address. *)
Fixpoint trace_loop (fuel : nat) (stack : Z) : M report unit :=
  match fuel with
  | O => fail NoFuel
  | S fuel =>
      if tobool stack then
        cur ← on_machine GetCurrentPageDirectory;
        mapped ← on_machine (VaddrIsMapped cur (PageAddress stack));
        if (mapped : bool) then
          eip ← on_machine (load32 (u32 (stack + 4)));
          printf (ln "0x%x") [W eip];;
          stack ← on_machine (load32 stack);
          trace_loop fuel stack
        else mret tt
      else mret tt
  end.

Definition PrintStackTrace (fuel : nat) (ebp : Z) : M report unit :=
  printf (ln "Stack trace (pipe this through llvm-symbolizer):") [];;
  trace_loop fuel ebp.

(** * paging.cpp: page faults *)
Definition PageFaultHandler (fuel : nat) (cr2 ebp_ : Z) (regs : registers_t) : M report unit :=
  let present := Z.land (err_code regs) 0x1 in
  let rw := Z.land (err_code regs) 0x2 in
  let us := Z.land (err_code regs) 0x4 in
  let reserved := Z.land (err_code regs) 0x8 in
  let id := Z.land (err_code regs) 0x10 in
  printf (ln "Page fault!!! When trying to %s 0x%x " ++ ln "- IP:0x%x")
    [L (if tobool rw then "write to" else "read from"); W cr2; W (eip regs)];;
  printf (ln "- The page was %s") [L (if tobool present then "present" else "not present")];;
  (if tobool reserved then printf (ln "- Reserved bit was set") [] else mret tt);;
  (if tobool id then printf (ln "- Caused by an instruction fetch") [] else mret tt);;
  printf (ln "- CPU was in %s") [L (if tobool us then "user-mode" else "supervisor mode")];;
  t ← on_kern GetCurrentTask;
  kt ← on_kern GetMainKernelTask;
  (if t =? kt then printf (ln "- Occurred in main kernel task.") []
   else printf (ln "- Occurred in task at %p") [W t]);;
  regs_Dump regs;;
  cur ← on_machine GetCurrentPageDirectory;
  DumpMappedPages cur;;
  PrintStackTrace fuel ebp_.

(** * pmm.cpp *)

(** [for (size_t i = 0; i < gNum4MPages; i += CHAR_BIT)] *)
Fixpoint dump_bitmap (n : nat) (i : Z) : M report unit :=
  match n with
  | O => mret tt
  | S n =>
      num ← on_kern (on_pmm GetNum4MPages);
      if i <? num then
        b ← on_kern (on_pmm (read_byte (i / CHAR_BIT)));
        printf (ln "  0x%x") [W b];;
        dump_bitmap n (i + CHAR_BIT)
      else mret tt
  end.

Definition pmm_Dump : M report unit :=
  printf (ln "Physical 4M pages:") [];;
  num ← on_kern (on_pmm GetNum4MPages);
  dump_bitmap (S (Z.to_nat num)) 0.

(** * How a program stops *)

(** [abort] of the kernel prints, and then loops for ever. *)
Definition abort_report (fuel : nat) (ebp_ : Z) : M report unit :=
  printf (ln "KERNEL ABORT!!!") [];;
  PrintStackTrace fuel ebp_.
Definition abort {A} (fuel : nat) (ebp_ : Z) : M report A := abort_report fuel ebp_;; fail Aborted.

(** [__panic] up to its endless loop, with interrupts off. *)
Definition panic_report (msg file : string) (line : Z) : M report unit :=
  on_machine (modify (set_iflag false));;
  printf (ln "PANIC(%s) at %s:%d") [L msg; L file; W line].
Definition __panic {A} (msg file : string) (line : Z) : M report A := panic_report msg file line;; fail Aborted.

Definition __assert (condition : bool) (msg filename : string) (line : Z) (pretty_func : string) : M report unit :=
  if condition then mret tt
  else
    printf ([10] ++ ln "%s:%d: %s: Assertion `%s` failed." ++ ln "Aborted") [L filename; W line; L pretty_func; L msg];;
    fail AssertFailed.

(** * exceptions.cpp *)

(** The first line for an exception that has no handler. *)
Definition unhandled (r : registers_t) : M report unit :=
  t ← on_kern GetCurrentTask;
  e ← (if int_no r <? 32 then ExceptionStr (int_no r) else mret "Unknown"%string);
  printf (ln "unhandled %s %d in task %p: %s")
    [L (if int_no r <? 32 then "exception" else "interrupt"); W (int_no r); W t; L e].

(** [scheduler::GetCurrentTask().getPageDir().DumpMappedPages()] *)
Definition dump_task_pages : M report unit :=
  t ← on_kern GetCurrentTask;
  x ← on_kern (get_task t);
  DumpMappedPages (pd_ x).

Definition kernel_exception_report (r : registers_t) : M report unit :=
  unhandled r;;
  t ← on_kern GetCurrentTask;
  x ← on_kern (get_task t);
  printf (ln "- task was %s mode") [L (if is_user_ x then "user" else "supervisor")];;
  regs_Dump r;;
  dump_task_pages;;
  pmm_Dump.

Definition HandleKernelException (fuel : nat) (ebp_ : Z) (r : registers_t) : M report unit :=
  kernel_exception_report r;;
  abort fuel ebp_.

(** [Schedule] does not return to the task it kills; when it does, the kernel stops. *)
Definition DispatchUserException (fuel : nat) (cr2 ebp_ : Z) (r : registers_t) : M report outcome :=
  (if int_no r =? Syscalls.kPageFault then PageFaultHandler fuel cr2 ebp_ r
   else
     unhandled r;;
     regs_Dump r;;
     dump_task_pages);;
  o ← on_kern (Schedule None 1);
  match o with Returned => abort fuel ebp_ | SwitchTask a => mret (SwitchTask a) end.

(** * scheduler.cpp *)

(** The body of the inner loop of [PrintPagesMappingPhysical]. *)
Definition mapping_entry (paddr i pde : Z) : M report unit :=
  if PageAddress pde =? paddr then printf (ln "%u) 0x%x maps") [W i; W pde] else mret tt.

Fixpoint mapping_tasks (fuel : nat) (node paddr : Z) : M report unit :=
  match fuel with
  | O => fail NoFuel
  | S fuel =>
      t ← on_kern (on_nodes (LinkedList.LinkedList.get node));
      printf (ln "task %p") [W t];;
      x ← on_kern (get_task t);
      pd ← on_machine (get_pd (pd_ x));
      for_entries (mapping_entry paddr) (Z.to_nat kNumPageDirEntries) 0 pd;;
      node ← on_kern (on_nodes (LinkedList.LinkedList.next node));
      if tobool node then mapping_tasks fuel node paddr else mret tt
  end.

Definition PrintPagesMappingPhysical (fuel : nat) (paddr : Z) : M report unit :=
  node ← on_kern (gets gTaskQueue);
  assert_ (tobool node);;
  printf (ln "Checking vaddrs mapping to paddr 0x%x") [W (PageAddress paddr)];;
  mapping_tasks fuel node (PageAddress paddr).

(** * Lemmas: what a call of [printf] prints *)

Definition added (t : list Z) (s : report) : report := set_text (text s ++ t) s.

Lemma added_app t u s : added u (added t s) = added (t ++ u) s.
Proof. unfold added, set_text. cbn. by rewrite app_assoc. Qed.

Lemma added_nil s : added [] s = s.
Proof. destruct s. unfold added, set_text. cbn. by rewrite app_nil_r. Qed.

(** A directive with a word. *)
Definition directive_of (c w : Z) : option Printf.directive :=
  if c =? 100 then Some (Printf.Int w) else if c =? 117 then Some (Printf.Uns w)
  else if c =? 112 then Some (Printf.Ptr w) else if c =? 120 then Some (Printf.Hex w) else None.

(** The directives of a format with its arguments, whose literals start at [p]. *)
Fixpoint parse (p : Z) (fmt : list Z) (args : list arg) : option (list Printf.directive) :=
  match fmt with
  | [] => match args with [] => Some [] | _ => None end
  | c :: fmt =>
      if c =? 37 then
        match fmt, args with
        | d :: fmt, W w :: args => x ← directive_of d w; (x ::.) <$> parse p fmt args
        | d :: fmt, L s :: args =>
            if d =? 115 then (Printf.Str p (chars s) ::.) <$> parse (p + Z.of_nat (length (chars s)) + 1) fmt args else None
        | _, _ => None
        end
      else (Printf.Lit c ::.) <$> parse p fmt args
  end.

(** A string without zero bytes, and the memory a list of arguments takes. *)
Definition plain (s : list Z) : bool := forallb (λ c, (0 <? c) && (c <? 256)) s.

Definition arg_ok (a : arg) : Prop := match a with W w => is_u32 w | L s => plain (chars s) = true end.

Fixpoint end_of (p : Z) (args : list arg) : Z :=
  match args with
  | [] => p
  | W _ :: args => end_of p args
  | L s :: args => end_of (p + Z.of_nat (length (chars s)) + 1) args
  end.

(** The literals are in the memory [m]. *)
Fixpoint placed (m : LibcString.memory) (p : Z) (args : list arg) : Prop :=
  match args with
  | [] => True
  | W _ :: args => placed m p args
  | L s :: args => LibcString.cstr m p (chars s) ∧ placed m (p + Z.of_nat (length (chars s)) + 1) args
  end.

Lemma bytes_from_below bs : ∀ p m a, a < p → bytes_from p bs m !! a = m !! a.
Proof. induction bs as [|b bs IH]; intros p m a H; cbn; [done|]. rewrite lookup_insert_ne by lia. apply IH. lia. Qed.

Lemma bytes_from_above bs : ∀ p m a, p + Z.of_nat (length bs) ≤ a → bytes_from p bs m !! a = m !! a.
Proof.
  induction bs as [|b bs IH]; intros p m a H; cbn in *; [done|]. rewrite lookup_insert_ne by lia. apply IH. lia.
Qed.

(** A string stays where it is when only bytes below it change. *)
Lemma cstr_keep s : ∀ m m' p, LibcString.cstr m p s → (∀ a, p ≤ a → m' !! a = m !! a) → LibcString.cstr m' p s.
Proof.
  induction s as [|c s IH]; intros m m' p [Hp H] Hk; (split; [done|]); rewrite Hk by lia; [done|].
  destruct H as (Hc & H0 & H). split; [done|]. split; [done|]. apply (IH m); [done|]. intros a Ha. apply Hk. lia.
Qed.

Lemma bytes_from_cstr s : ∀ p m, plain s = true → 0 ≤ p → p + Z.of_nat (length s) < 2 ^ 32 →
  LibcString.cstr (bytes_from p (s ++ [0]) m) p s.
Proof.
  induction s as [|c s IH]; intros p m Hs Hp Hl; cbn [app bytes_from length] in *; (split; [unfold is_u32; lia|]); rewrite lookup_insert_eq; [done|].
  apply andb_true_iff in Hs as [Hc Hs]. split; [done|]. split; [lia|].
  apply (cstr_keep s (bytes_from (p + 1) (s ++ [0]) m)); [apply IH; [done|lia..]|]. intros a Ha. by rewrite lookup_insert_ne by lia.
Qed.

Lemma placed_keep args : ∀ m m' p, placed m p args → (∀ a, p ≤ a → m' !! a = m !! a) → placed m' p args.
Proof.
  induction args as [|[w|s] args IH]; intros m m' p H Hk; cbn in *; [done|by eapply IH|]. destruct H as [H1 H2].
  split; [by eapply cstr_keep|]. eapply IH; [done|]. intros a Ha. apply Hk. lia.
Qed.

Lemma end_of_le args : ∀ p, p ≤ end_of p args.
Proof. induction args as [|[w|s] args IH]; intros p; cbn; [lia|done|]. etrans; [|apply IH]. lia. Qed.

Lemma pool_placed args : ∀ p, Forall arg_ok args → 0 ≤ p → end_of p args ≤ 2 ^ 32 → placed (pool p args) p args.
Proof.
  induction args as [|[w|s] args IH]; intros p Ho Hp He; cbn in *; [done| |]; apply Forall_cons in Ho as [Hs Ho]; [by apply IH|].
  pose proof (end_of_le args (p + Z.of_nat (length (chars s)) + 1)). split; [apply bytes_from_cstr; [done|lia..]|].
  eapply placed_keep; [apply IH; [done|lia..]|]. intros a Ha. rewrite bytes_from_above; [done|]. rewrite length_app. cbn. lia.
Qed.

Lemma directive_of_Some d w x : directive_of d w = Some x → Printf.fmt_of x = [37; d] ∧ Printf.args_of x = [w] ∧
  ∀ m, is_u32 w → Printf.valid m x.
Proof.
  unfold directive_of. intros H. repeat case_match; simplify_eq; (split; [cbn; do 2 f_equal; lia|]); split; try done;
    intros m Hw; (split; [by apply Forall_singleton|done]).
Qed.

(** The format and the arguments are those of the directives, and each directive is printed. *)
Lemma parse_Some fmt : ∀ p args ds m, parse p fmt args = Some ds → Forall arg_ok args → Forall (λ c, 0 < c < 256) fmt → placed m p args →
  fmt = concat (Printf.fmt_of <$> ds) ∧ pushed p args = concat (Printf.args_of <$> ds) ∧ Forall (Printf.valid m) ds.
Proof.
  induction fmt as [fmt IH] using (induction_ltof1 _ length). intros p args ds m H Ho Hf Hm. unfold ltof in IH.
  destruct fmt as [|c fmt]; cbn in H; [by destruct args; simplify_eq|]. apply Forall_cons in Hf as [Hc Hf].
  destruct (Z.eqb_spec c 37) as [->|Hne].
  - destruct fmt as [|d fmt]; [done|]. apply Forall_cons in Hf as [Hd Hf]. destruct args as [|[w|s] args]; [done| |]; apply Forall_cons in Ho as [Ha Ho].
    + apply bind_Some in H as (x & Hx & (ds' & H & ->)%fmap_Some). apply directive_of_Some in Hx as (E1 & E2 & Hv).
      destruct (IH fmt ltac:(cbn; lia) p args ds' m H Ho Hf Hm) as (-> & E & Hds). cbn. rewrite E1, E2, <- E. by auto.
    + destruct (Z.eqb_spec d 115) as [->|]; [|done]. apply fmap_Some in H as (ds' & H & ->). destruct Hm as [Hs Hm].
      destruct (IH fmt ltac:(cbn; lia) _ args ds' m H Ho Hf Hm) as (-> & E & Hds). cbn. rewrite <- E. split; [done|]. split; [done|].
      constructor; [|done]. split; [|done]. apply Forall_singleton. by eapply LibcString.cstr_range.
  - apply fmap_Some in H as (ds' & H & ->). destruct (IH fmt ltac:(cbn; lia) p args ds' m H Ho Hf Hm) as (-> & E & Hds).
    split; [done|]. split; [done|]. constructor; [|done]. by split.
Qed.

(** The text of a format with its arguments. *)
Definition rendered (fmt : list Z) (args : list arg) : option (list Z) :=
  (λ ds, concat (Printf.shows <$> ds)) <$> parse 1 fmt args.

Lemma printf_Ok fmt args t s : rendered fmt args = Some t → plain fmt = true → Forall arg_ok args → end_of 1 args ≤ 2 ^ 32 →
  printf fmt args s = Ok (tt, added t s).
Proof.
  intros (ds & H & ->)%fmap_Some Hf Ho He.
  assert (Hf' : Forall (λ c, 0 < c < 256) fmt).
  { apply Forall_forall. intros c Hc. unfold plain in Hf. rewrite forallb_forall in Hf. apply list_elem_of_In, Hf in Hc. lia. }
  destruct (parse_Some fmt 1 args ds (pool 1 args) H Ho Hf' (pool_placed args 1 Ho ltac:(lia) He)) as (E1 & E2 & Hv).
  pose proof (Printf.Format_directives ds [] (text s) [] (pool 1 args) Hv) as HF. rewrite !app_nil_r in HF.
  unfold printf, Printf.printf. rewrite E2. clear H Hf Hf'. subst fmt. erewrite bind_Ok by reflexivity. cbn [Printf.out Printf.mem].
  by rewrite (bind_Ok _ _ _ _ _ HF).
Qed.

(** * What the reports say *)

Definition hex (w : Z) : list Z := chars "0x" ++ Printf.hex_text 8 w.

Definition trace_line (eip : Z) : list Z := hex eip ++ [10].

Definition says (pde : Z) (bit : Z) (yes no : string) : list Z := chars (if Z.testbit pde bit then yes else no).

(** The line of entry [i] of a page directory. *)
Definition page_line (i : nat) (pde : Z) : list Z :=
  Printf.dec_text (Z.of_nat i) ++ chars ") " ++ hex pde ++ chars " (vaddr " ++ hex (Z.of_nat i * kPageSize4M) ++
  chars " => paddr " ++ hex (pde - pde mod kPageSize4M) ++ chars ", " ++ says pde 0 "present" "not present" ++ chars ", " ++
  says pde 1 "writable" "read-only" ++ chars ", " ++ says pde 2 "user-accessible" "user-inaccessible" ++ chars ", " ++
  says pde 4 "cached" "not cached" ++ chars ", " ++ says pde 8 "global" "not global" ++ ln ")".

(** One line for every entry that is not zero. *)
Definition page_lines (pd : list Z) : list Z :=
  concat (imap (λ i pde, if pde =? 0 then [] else page_line i pde) pd).

(** One line for every entry whose address is that of the physical page [paddr]. *)
Definition mapping_line (paddr : Z) (i : nat) (pde : Z) : list Z :=
  if pde - pde mod kPageSize4M =? paddr then Printf.dec_text (Z.of_nat i) ++ chars ") " ++ hex pde ++ ln " maps" else [].

Definition named (name : string) (w : Z) : list Z := chars name ++ hex w.

Definition regs_lines (r : registers_t) : list (list Z) := [
  named "gs:     " (gs r) ++ named " fs:       " (fs r) ++ named " es:     " (es r) ++ named " ds:  " (ds r) ++ named " cs: " (cs r) ++ [10];
  named "eax:    " (eax r) ++ named " ebx:      " (ebx r) ++ named " ecx:    " (ecx r) ++ named " edx: " (edx r) ++ [10];
  named "edi:    " (edi r) ++ named " esi:      " (esi r) ++ named " ebp:    " (ebp r) ++ named " esp: " (esp r) ++ [10];
  named "int_no: " (int_no r) ++ named " err_code: " (err_code r) ++ [10];
  named "eip:    " (eip r) ++ named " eflags:   " (eflags r) ++ named " usersp: " (useresp r) ++ named " ss:  " (ss r) ++ [10]].

Definition regs_words (r : registers_t) : list Z :=
  [gs r; fs r; es r; ds r; edi r; esi r; ebp r; esp r; ebx r; edx r; ecx r; eax r; int_no r; err_code r;
   eip r; cs r; eflags r; useresp r; ss r].

(** The literals of a line: every choice is a string without zero bytes, and all of them fit. *)
Ltac literals :=
  repeat match goal with |- context [L (if ?b then _ else _)] => destruct b end; vm_compute; done.
Ltac arguments :=
  repeat (apply Forall_cons; split); [try assumption; try literals..|by apply Forall_nil].

Ltac prints t := erewrite bind_Ok; [|apply (printf_Ok _ _ t); [reflexivity|reflexivity|arguments|literals]].
Ltac prints_last t := rewrite (printf_Ok _ _ t); [|reflexivity|reflexivity|arguments|literals].

Lemma regs_Dump_Ok r s : Forall is_u32 (regs_words r) → regs_Dump r s = Ok (tt, added (concat (regs_lines r)) s).
Proof.
  unfold regs_words. rewrite !Forall_cons. intros H. decompose [and] H. unfold regs_Dump, regs_lines.
  match goal with |- context [concat [?a; ?b; ?c; ?d; ?e]] => prints a; prints b; prints c; prints d; prints_last e end.
  rewrite !added_app. cbn [concat]. by rewrite app_nil_r, <- !app_assoc.
Qed.

(** Reading the kernel's state. *)
Lemma report_kern_read {A} (c : M kernel A) s a : c (kern s) = Ok (a, kern s) → on_kern c s = Ok (a, s).
Proof. intros H. unfold on_kern, zoom. rewrite H. by destruct s. Qed.

Lemma report_machine_read {A} (c : M machine A) s a : c (mach (kern s)) = Ok (a, mach (kern s)) → on_machine c s = Ok (a, s).
Proof. intros H. by apply report_kern_read, KernelMain.on_mach_read. Qed.

(** ** The mapped pages *)

Lemma testbit_flag pde bit : is_u32 pde → 0 ≤ bit → tobool (Z.land pde (2 ^ bit)) = Z.testbit pde bit.
Proof.
  intros Hp Hb. unfold tobool. destruct (Z.eqb_spec (Z.land pde (2 ^ bit)) 0) as [E|E]; cbn.
  - symmetry. apply (f_equal (λ z, Z.testbit z bit)) in E. by rewrite Z.land_spec, Z.pow2_bits_true, Z.bits_0, andb_true_r in E.
  - destruct (Z.testbit pde bit) eqn:Eb; [done|]. destruct E. apply Z.bits_inj'. intros n Hn.
    rewrite Z.land_spec, Z.bits_0, Z.pow2_bits_eqb by done. destruct (Z.eqb_spec bit n) as [<-|]; [by rewrite Eb|apply andb_false_r].
Qed.

Lemma dump_entry_Ok (i : nat) pde s : (i < 1024)%nat → is_u32 pde →
  dump_entry (Z.of_nat i) pde s = Ok (tt, added (if pde =? 0 then [] else page_line i pde) s).
Proof.
  intros Hi Hp. unfold dump_entry, tobool. destruct (pde =? 0); cbn [negb]; [by rewrite added_nil|].
  unfold flag. change PG_PRESENT with (2 ^ 0). change PG_WRITE with (2 ^ 1). change PG_USER with (2 ^ 2).
  change PG_PCD with (2 ^ 4). change PG_GLOBAL with (2 ^ 8). rewrite !testbit_flag by first [assumption|lia].
  assert (Hv : PageToAddr (Z.of_nat i) = Z.of_nat i * kPageSize4M).
  { unfold PageToAddr. apply u32_id. unfold is_u32, kPageSize4M. lia. }
  rewrite Hv, PageAddress_spec by done.
  assert (is_u32 (Z.of_nat i)) by (unfold is_u32; lia). assert (is_u32 (Z.of_nat i * kPageSize4M)) by (unfold is_u32, kPageSize4M; lia).
  assert (is_u32 (pde - pde mod kPageSize4M)) by (unfold is_u32, kPageSize4M in *; dlia).
  by prints_last (page_line i pde).
Qed.

Lemma mapping_entry_Ok paddr (i : nat) pde s : (i < 1024)%nat → is_u32 pde →
  mapping_entry paddr (Z.of_nat i) pde s = Ok (tt, added (mapping_line paddr i pde) s).
Proof.
  intros Hi Hp. unfold mapping_entry, mapping_line. rewrite PageAddress_spec by done.
  destruct (_ =? paddr); [|by rewrite added_nil]. assert (is_u32 (Z.of_nat i)) by (unfold is_u32; lia).
  by prints_last (Printf.dec_text (Z.of_nat i) ++ chars ") " ++ hex pde ++ ln " maps").
Qed.

Section entries.
  Context (body : Z → Z → M report unit) (line : nat → Z → list Z).
  Context (Hbody : ∀ (i : nat) pde s, (i < 1024)%nat → is_u32 pde → body (Z.of_nat i) pde s = Ok (tt, added (line i pde) s)).
  Context (pd : list Z) (Hok : pd_ok pd).

Lemma for_entries_from n : ∀ (i : nat) s, (i + n = 1024)%nat →
  for_entries body n (Z.of_nat i) pd s = Ok (tt, added (concat (imap (λ j, line (i + j)) (drop i pd))) s).
Proof using Hbody Hok.
  destruct Hok as [Hl H32]. induction n as [|n IH]; intros i s Hi; cbn [for_entries].
  { rewrite drop_ge by lia. cbn. by rewrite added_nil. }
  destruct (lookup_lt_is_Some_2 pd i ltac:(lia)) as [pde Hp]. destruct (proj1 (Forall_lookup _ _) H32 i pde Hp) as [Hu _].
  erewrite bind_Ok by (unfold liftR, aread; rewrite nthZ_lookup, Nat2Z.id, Hp by lia; reflexivity).
  rewrite (bind_Ok _ _ _ _ _ (Hbody i pde s ltac:(lia) Hu)). replace (Z.of_nat i + 1) with (Z.of_nat (S i)) by lia.
  rewrite IH by lia. rewrite added_app, (drop_S _ _ _ Hp). cbn [imap concat]. rewrite Nat.add_0_r.
  do 5 f_equal. apply imap_ext. intros j x _. cbn. by rewrite Nat.add_succ_r.
Qed.

Lemma for_entries_Ok s : for_entries body (Z.to_nat kNumPageDirEntries) 0 pd s = Ok (tt, added (concat (imap line pd)) s).
Proof using Hbody Hok. apply (for_entries_from 1024 0 s). done. Qed.
End entries.

Lemma get_pd_read s this pd : pds (mach (kern s)) !! this = Some pd → on_machine (get_pd this) s = Ok (pd, s).
Proof. intros H. apply report_machine_read. unfold get_pd. munfold. by rewrite H. Qed.

Lemma DumpMappedPages_Ok s this pd : pds (mach (kern s)) !! this = Some pd → pd_ok pd →
  DumpMappedPages this s = Ok (tt, added (ln "Mapped pages:" ++ page_lines pd) s).
Proof.
  intros Hpd Hok. unfold DumpMappedPages. prints (ln "Mapped pages:").
  erewrite bind_Ok; [|by apply get_pd_read]. rewrite (for_entries_Ok _ _ dump_entry_Ok pd Hok). by rewrite added_app.
Qed.

(** ** The stack trace *)

(** The frames from [stack] on, with their return addresses: the chain ends with a null pointer or
    where a page is not mapped. *)
Inductive frames (m : machine) (pd : list Z) : Z → list Z → Prop :=
  | frames_null : frames m pd 0 []
  | frames_unmapped stack : is_u32 stack → stack ≠ 0 → translate pd stack = None → frames m pd stack []
  | frames_next stack p caller eip eips :
      stack ≠ 0 → in_page stack 8 → translate pd stack = Some p →
      is_u32 caller → Syscalls.mem_bytes (mem m) p 4 = Syscalls.bytes_of_word caller →
      is_u32 eip → Syscalls.mem_bytes (mem m) (p + 4) 4 = Syscalls.bytes_of_word eip →
      frames m pd caller eips → frames m pd stack (eip :: eips).

Lemma VaddrIsMapped_stack m this pd stack : pds m !! this = Some pd → pd_ok pd → is_u32 stack →
  VaddrIsMapped this (PageAddress stack) m = Ok (bool_decide (is_Some (translate pd stack)), m).
Proof.
  intros Hpd Hok Hs. destruct (PageAddress_aligned stack Hs) as (Ha & Hq & _). rewrite (VaddrIsMapped_Ok _ _ pd) by done.
  rewrite translate_mapping, Hq. do 2 f_equal. apply bool_decide_ext. by rewrite fmap_is_Some.
Qed.

Section trace.
  Context (s0 : report) (pd : list Z).
  Context (Hcur : pds (mach (kern s0)) !! gCurrentPageDir (mach (kern s0)) = Some pd) (Hok : pd_ok pd).

(** One frame of the loop. *)
Lemma trace_step fuel stack p caller eip s : kern s = kern s0 →
  stack ≠ 0 → in_page stack 8 → translate pd stack = Some p →
  is_u32 caller → Syscalls.mem_bytes (mem (mach (kern s0))) p 4 = Syscalls.bytes_of_word caller →
  is_u32 eip → Syscalls.mem_bytes (mem (mach (kern s0))) (p + 4) 4 = Syscalls.bytes_of_word eip →
  trace_loop (S fuel) stack s = trace_loop fuel caller (added (trace_line eip) s).
Proof.
  intros Hk H0 Hin Ht Hc Hcb He Heb. cbn [trace_loop]. unfold tobool. rewrite (proj2 (Z.eqb_neq _ _) H0). cbn [negb].
  erewrite bind_Ok; [|by apply report_machine_read].
  erewrite bind_Ok; [|apply report_machine_read; rewrite Hk; apply (VaddrIsMapped_stack _ _ pd); [done..|by destruct Hin]].
  rewrite Ht, bool_decide_true by done.
  destruct (KernelMain.translate_add pd stack 8 p 4 Hin ltac:(lia) Ht) as (E4 & H4 & Hin4). change (8 - 4) with 4 in Hin4. rewrite E4.
  erewrite bind_Ok; [|apply report_machine_read; rewrite Hk; by apply (KernelMain.load32_word _ pd _ (p + 4) eip)].
  prints (trace_line eip).
  assert (Hin1 : in_page stack 4) by (destruct Hin as (? & ? & ?); split; [done|lia]).
  erewrite bind_Ok; [|apply report_machine_read; unfold added, set_text; cbn [kern]; rewrite Hk; by apply (KernelMain.load32_word _ pd _ p caller)].
  done.
Qed.

Lemma trace_loop_Ok stack eips : frames (mach (kern s0)) pd stack eips → ∀ fuel s, (length eips < fuel)%nat → kern s = kern s0 →
  trace_loop fuel stack s = Ok (tt, added (concat (trace_line <$> eips)) s).
Proof.
  induction 1 as [|stack Hs H0 Ht|stack p caller eip eips H0 Hin Ht Hc Hcb He Heb Hf IH]; intros fuel s Hfuel Hk;
    (destruct fuel as [|fuel]; [lia|]).
  - cbn. by rewrite added_nil.
  - cbn [trace_loop]. unfold tobool. rewrite (proj2 (Z.eqb_neq _ _) H0). cbn [negb]. erewrite bind_Ok; [|by apply report_machine_read].
    erewrite bind_Ok; [|apply report_machine_read; rewrite Hk; by apply (VaddrIsMapped_stack _ _ pd)].
    rewrite Ht, bool_decide_false by (by intros []). cbn. by rewrite added_nil.
  - rewrite (trace_step fuel stack p caller eip) by done. cbn [length] in Hfuel. rewrite IH by first [lia|done]. by rewrite added_app.
Qed.

Lemma PrintStackTrace_Ok stack eips fuel s : frames (mach (kern s0)) pd stack eips → (length eips < fuel)%nat → kern s = kern s0 →
  PrintStackTrace fuel stack s =
    Ok (tt, added (ln "Stack trace (pipe this through llvm-symbolizer):" ++ concat (trace_line <$> eips)) s).
Proof.
  intros Hf Hn Hk. unfold PrintStackTrace. prints (ln "Stack trace (pipe this through llvm-symbolizer):").
  rewrite (trace_loop_Ok stack eips) by done. by rewrite added_app.
Qed.

(** A frame that is its own caller is printed for ever. *)
Lemma trace_cycle stack p eip : stack ≠ 0 → in_page stack 8 → translate pd stack = Some p →
  Syscalls.mem_bytes (mem (mach (kern s0))) p 4 = Syscalls.bytes_of_word stack →
  is_u32 eip → Syscalls.mem_bytes (mem (mach (kern s0))) (p + 4) 4 = Syscalls.bytes_of_word eip →
  ∀ fuel s, kern s = kern s0 → trace_loop fuel stack s = Fault NoFuel.
Proof.
  intros H0 Hin Ht Hb He Heb. induction fuel as [|fuel IH]; intros s Hk; [done|].
  rewrite (trace_step fuel stack p stack eip) by (done || by destruct Hin). by apply IH.
Qed.
End trace.

(** The trace can be read back: different return addresses give different lines. *)
Lemma hex_digit_inj a b : 0 ≤ a < 16 → 0 ≤ b < 16 → Printf.hex_digit a = Printf.hex_digit b → a = b.
Proof. unfold Printf.hex_digit. intros. destruct (Z.ltb_spec a 10), (Z.ltb_spec b 10); lia. Qed.

Lemma hex_text_inj n : ∀ a b, 0 ≤ a < 16 ^ Z.of_nat n → 0 ≤ b < 16 ^ Z.of_nat n → Printf.hex_text n a = Printf.hex_text n b → a = b.
Proof.
  induction n as [|n IH]; intros a b Ha Hb H; [change (16 ^ Z.of_nat 0) with 1 in *; lia|].
  rewrite Nat2Z.inj_succ, Z.pow_succ_r in Ha, Hb by lia. assert (0 < 16 ^ Z.of_nat n) by lia. cbn [Printf.hex_text] in H.
  injection H as Hd Ht. rewrite <- (Printf.hex_text_mod n a), <- (Printf.hex_text_mod n b) in Ht by lia.
  assert (Hq : ∀ c, 0 ≤ c < 16 * 16 ^ Z.of_nat n → c / 16 ^ Z.of_nat n mod 16 = c / 16 ^ Z.of_nat n).
  { intros c Hc. apply Z.mod_small. split; [apply Z.div_pos; lia|apply Z.div_lt_upper_bound; lia]. }
  apply hex_digit_inj in Hd; [|apply Z.mod_pos_bound; lia..]. rewrite !Hq in Hd by done.
  apply IH in Ht; [|apply Z.mod_pos_bound; lia..].
  rewrite (Z.div_mod a (16 ^ Z.of_nat n)), (Z.div_mod b (16 ^ Z.of_nat n)) by lia. congruence.
Qed.

Lemma trace_line_length eip : length (trace_line eip) = 11%nat.
Proof. done. Qed.

Lemma trace_inj eips : ∀ eips', Forall is_u32 eips → Forall is_u32 eips' →
  concat (trace_line <$> eips) = concat (trace_line <$> eips') → eips = eips'.
Proof.
  induction eips as [|e eips IH]; intros [|e' eips'] H H' E; [done|done|done|]. cbn [fmap list_fmap concat] in E.
  apply Forall_cons in H as [He H]. apply Forall_cons in H' as [He' H'].
  apply app_inj_1 in E as [E1 E2]; [|by rewrite !trace_line_length]. f_equal; [|by apply IH].
  unfold trace_line, hex in E1. apply app_inj_2 in E1 as [E1 _]; [|done]. apply app_inj_1 in E1 as [_ E1]; [|done].
  by apply (hex_text_inj 8) in E1.
Qed.

Lemma frames_u32 m pd stack eips : frames m pd stack eips → Forall is_u32 eips.
Proof. induction 1; [constructor..|]. by constructor. Qed.

(** ** Exceptions *)

Definition choose (r : registers_t) (bit : Z) (yes no : string) : list Z := chars (if Z.testbit (err_code r) bit then yes else no).
Definition when (r : registers_t) (bit : Z) (line : list Z) : list Z := if Z.testbit (err_code r) bit then line else [].

(** What is said about a page fault at [cr2] in the task [t]. *)
Definition fault_lines (cr2 t kt : Z) (r : registers_t) : list Z :=
  chars "Page fault!!! When trying to " ++ choose r 1 "write to" "read from" ++ chars " " ++ hex cr2 ++ ln " " ++
  named "- IP:" (eip r) ++ [10] ++
  chars "- The page was " ++ choose r 0 "present" "not present" ++ [10] ++
  when r 3 (ln "- Reserved bit was set") ++
  when r 4 (ln "- Caused by an instruction fetch") ++
  chars "- CPU was in " ++ choose r 2 "user-mode" "supervisor mode" ++ [10] ++
  (if t =? kt then ln "- Occurred in main kernel task." else named "- Occurred in task at " t ++ [10]).

Definition fault_text (cr2 t kt : Z) (r : registers_t) (pd eips : list Z) : list Z :=
  fault_lines cr2 t kt r ++ concat (regs_lines r) ++ ln "Mapped pages:" ++ page_lines pd ++
  ln "Stack trace (pipe this through llvm-symbolizer):" ++ concat (trace_line <$> eips).

Lemma printf_if (b : bool) line s : plain line = true → rendered line [] = Some line →
  (if b then printf line [] else mret tt) s = Ok (tt, added (if b then line else []) s).
Proof.
  intros Hp Hr. destruct b; [|by rewrite added_nil]. by apply printf_Ok.
Qed.

Lemma where_line_Ok t kt s : is_u32 t →
  (if t =? kt then printf (ln "- Occurred in main kernel task.") [] else printf (ln "- Occurred in task at %p") [W t]) s =
    Ok (tt, added (if t =? kt then ln "- Occurred in main kernel task." else named "- Occurred in task at " t ++ [10]) s).
Proof.
  intros Ht. destruct (t =? kt); [by prints_last (ln "- Occurred in main kernel task.")|by prints_last (named "- Occurred in task at " t ++ [10])].
Qed.

Lemma fault_lines_Ok cr2 ebp_ fuel t kt r s : is_u32 cr2 → is_u32 t → Forall is_u32 (regs_words r) →
  GetCurrentTask (kern s) = Ok (t, kern s) → gKernelTask (kern s) = kt →
  PageFaultHandler fuel cr2 ebp_ r s =
    (regs_Dump r;; cur ← on_machine GetCurrentPageDirectory; DumpMappedPages cur;; PrintStackTrace fuel ebp_) (added (fault_lines cr2 t kt r) s).
Proof.
  intros Hcr Ht Hr Hct Hkt. assert (He : is_u32 (eip r) ∧ is_u32 (err_code r)).
  { unfold regs_words in Hr. rewrite !Forall_cons in Hr. decompose [and] Hr. done. } destruct He as [Hip He].
  unfold PageFaultHandler. cbv zeta. change 0x1 with (2 ^ 0). change 0x2 with (2 ^ 1). change 0x4 with (2 ^ 2).
  change 0x8 with (2 ^ 3). change 0x10 with (2 ^ 4). rewrite !testbit_flag by first [assumption|lia].
  prints (chars "Page fault!!! When trying to " ++ choose r 1 "write to" "read from" ++ chars " " ++ hex cr2 ++ ln " " ++ named "- IP:" (eip r) ++ [10]).
  prints (chars "- The page was " ++ choose r 0 "present" "not present" ++ [10]).
  rewrite (bind_Ok _ _ _ _ _ (printf_if (Z.testbit (err_code r) 3) (ln "- Reserved bit was set") _ eq_refl eq_refl)).
  rewrite (bind_Ok _ _ _ _ _ (printf_if (Z.testbit (err_code r) 4) (ln "- Caused by an instruction fetch") _ eq_refl eq_refl)).
  prints (chars "- CPU was in " ++ choose r 2 "user-mode" "supervisor mode" ++ [10]).
  erewrite bind_Ok; [|by apply report_kern_read]. erewrite bind_Ok; [|apply report_kern_read; unfold GetMainKernelTask; munfold; cbn; by rewrite Hkt].
  rewrite (bind_Ok _ _ _ _ _ (where_line_Ok t kt _ Ht)).
  rewrite !added_app. unfold fault_lines, when. by rewrite <- !app_assoc.
Qed.

Lemma PageFaultHandler_Ok cr2 ebp_ fuel t kt r s pd eips : is_u32 cr2 → is_u32 t → Forall is_u32 (regs_words r) →
  GetCurrentTask (kern s) = Ok (t, kern s) → gKernelTask (kern s) = kt →
  pds (mach (kern s)) !! gCurrentPageDir (mach (kern s)) = Some pd → pd_ok pd →
  frames (mach (kern s)) pd ebp_ eips → (length eips < fuel)%nat →
  PageFaultHandler fuel cr2 ebp_ r s = Ok (tt, added (fault_text cr2 t kt r pd eips) s).
Proof.
  intros Hcr Ht Hr Hct Hkt Hpd Hok Hf Hn. rewrite (fault_lines_Ok _ _ _ t kt) by done.
  rewrite (bind_Ok _ _ _ _ _ (regs_Dump_Ok r _ Hr)). erewrite bind_Ok; [|by apply report_machine_read].
  erewrite bind_Ok; [|by apply (DumpMappedPages_Ok _ _ pd)]. rewrite (PrintStackTrace_Ok s pd Hpd Hok ebp_ eips) by done.
  rewrite !added_app. unfold fault_text. by rewrite <- !app_assoc.
Qed.

(** ** Other exceptions *)
Definition exception_name (int_no : Z) : string := default "Unknown"%string (nthZ exception_msgs int_no).

Lemma exception_name_ok i : plain (chars (exception_name i)) = true ∧ Z.of_nat (length (chars (exception_name i))) ≤ 100.
Proof.
  assert (H : Forall (λ e, plain (chars e) = true ∧ Z.of_nat (length (chars e)) ≤ 100) exception_msgs).
  { repeat (apply Forall_cons; split; [vm_compute; done|]). by apply Forall_nil. }
  unfold exception_name. destruct (nthZ exception_msgs i) as [e|] eqn:E; [|by vm_compute].
  eapply (proj1 (Forall_lookup _ _) H (Z.to_nat i)).
  unfold nthZ in E. by destruct (i <? 0).
Qed.

Definition unhandled_line (t : Z) (r : registers_t) : list Z :=
  chars "unhandled " ++ chars (if int_no r <? 32 then "exception" else "interrupt") ++ chars " " ++
  Printf.dec_text (int_no r) ++ named " in task " t ++ chars ": " ++ chars (exception_name (int_no r)) ++ [10].

Lemma unhandled_Ok t r s : is_u32 t → 0 ≤ int_no r < 256 → GetCurrentTask (kern s) = Ok (t, kern s) →
  unhandled r s = Ok (tt, added (unhandled_line t r) s).
Proof.
  intros Ht Hi Hc. unfold unhandled. erewrite bind_Ok; [|by apply report_kern_read].
  assert (Hn : (if int_no r <? 32 then ExceptionStr (int_no r) else mret "Unknown"%string) s = Ok (exception_name (int_no r), s)).
  { unfold ExceptionStr, exception_name, liftR, aread. destruct (Z.ltb_spec (int_no r) 32); rewrite nthZ_lookup by lia.
    - destruct (lookup_lt_is_Some_2 exception_msgs (Z.to_nat (int_no r))) as [e He]; [cbn; lia|]. by rewrite He.
    - by rewrite lookup_ge_None_2 by (cbn; lia). }
  rewrite (bind_Ok _ _ _ _ _ Hn). destruct (exception_name_ok (int_no r)) as [Hp Hl].
  assert (Ei : Printf.as_int (int_no r) = int_no r) by (unfold Printf.as_int; destruct (Z.ltb_spec (int_no r) (2 ^ 31)); lia).
  rewrite (printf_Ok _ _ (unhandled_line t r)); [done| |reflexivity| |].
  - unfold unhandled_line. replace (Printf.dec_text (int_no r)) with (Printf.dec_text (Printf.as_int (int_no r))) by (by rewrite Ei). reflexivity.
  - repeat (apply Forall_cons; split); [literals|cbn; unfold is_u32; lia|done|done|by apply Forall_nil].
  - destruct (int_no r <? 32); cbn [end_of]; change (length (chars "exception")) with 9%nat; change (length (chars "interrupt")) with 9%nat; lia.
Qed.

Lemma dump_task_pages_Ok t x tpd s : GetCurrentTask (kern s) = Ok (t, kern s) → tasks (kern s) !! t = Some x →
  pds (mach (kern s)) !! pd_ x = Some tpd → pd_ok tpd →
  dump_task_pages s = Ok (tt, added (ln "Mapped pages:" ++ page_lines tpd) s).
Proof.
  intros Hc Hx Hp Hok. unfold dump_task_pages. erewrite bind_Ok; [|by apply report_kern_read].
  erewrite bind_Ok; [|apply report_kern_read; unfold get_task; by rewrite Hx].
  by apply DumpMappedPages_Ok.
Qed.

(** The report of a process that is killed. *)
Definition killed_text (cr2 t kt : Z) (r : registers_t) (pd tpd eips : list Z) : list Z :=
  if int_no r =? Syscalls.kPageFault then fault_text cr2 t kt r pd eips
  else unhandled_line t r ++ concat (regs_lines r) ++ ln "Mapped pages:" ++ page_lines tpd.

(** * Properties *)


(** * An example

    Task 200 of [Syscalls.example_kern] has written to address 8; the handler's frame, at 0x400100,
    has no caller. *)
Definition example_faulting : kernel :=
  set_mach (set_mem (Syscalls.stored ∅ 0x400100 (Syscalls.bytes_of_word 0 ++ Syscalls.bytes_of_word 0x401234))
    (mach Syscalls.example_kern)) Syscalls.example_kern.

Definition example_fault_regs : registers_t :=
  mkRegs 0x23 0x23 0x23 0x23 0 0 0 0 0 0 0 0 14 6 0x800000 0x1B 0 0 0x23.

Definition example_fault : report := mkReport example_faulting [].


(** * The other reports *)

Lemma on_pmm_read {A} (c : M Pmm.state A) s a : c (pmm (mach (kern s))) = Ok (a, pmm (mach (kern s))) → on_kern (on_pmm c) s = Ok (a, s).
Proof. intros H. apply report_machine_read. unfold in_pmm, zoom. rewrite H. by destruct (mach (kern s)). Qed.

(** One line for every eight physical pages that the machine has. *)
Definition bitmap_line (b : Z) : list Z := named "  " b ++ [10].
Definition bitmap_lines (p : Pmm.state) : list Z :=
  concat (bitmap_line <$> take (Z.to_nat ((gNum4MPages p + 7) / 8)) (gPhysicalBitmap p)).

Lemma dump_bitmap_Ok p : Pmm.wf p → ∀ n (j : nat) s, pmm (mach (kern s)) = p → gNum4MPages p ≤ 8 * Z.of_nat (j + n) →
  dump_bitmap n (8 * Z.of_nat j) s =
    Ok (tt, added (concat (bitmap_line <$> drop j (take (Z.to_nat ((gNum4MPages p + 7) / 8)) (gPhysicalBitmap p)))) s).
Proof.
  intros (Hl & H8 & Hn). unfold kNumPageDirEntries in Hn. induction n as [|n IH]; intros j s Hp Hj; cbn [dump_bitmap].
  { rewrite drop_ge by (rewrite length_take; dlia). by rewrite added_nil. }
  erewrite bind_Ok by (by apply on_pmm_read). rewrite Hp. destruct (Z.ltb_spec (8 * Z.of_nat j) (gNum4MPages p)).
  - destruct (lookup_lt_is_Some_2 (gPhysicalBitmap p) j ltac:(lia)) as [b Hb].
    assert (Hu : is_u32 b) by (pose proof (proj1 (Forall_lookup _ _) H8 j b Hb) as Hb8; unfold is_u8, is_u32 in *; lia).
    replace (8 * Z.of_nat j / CHAR_BIT) with (Z.of_nat j) by (unfold CHAR_BIT; dlia).
    erewrite bind_Ok; [|apply on_pmm_read; rewrite Hp; unfold read_byte, liftR, aread; munfold; rewrite nthZ_lookup, Nat2Z.id, Hb by lia; reflexivity].
    prints (bitmap_line b). replace (8 * Z.of_nat j + CHAR_BIT) with (8 * Z.of_nat (S j)) by (unfold CHAR_BIT; lia).
    rewrite IH by (done || lia). rewrite added_app. erewrite (drop_S _ b j); [done|]. rewrite lookup_take_lt by dlia. done.
  - rewrite drop_ge by (rewrite length_take; dlia). by rewrite added_nil.
Qed.

Lemma pmm_Dump_Ok s : Pmm.wf (pmm (mach (kern s))) →
  pmm_Dump s = Ok (tt, added (ln "Physical 4M pages:" ++ bitmap_lines (pmm (mach (kern s)))) s).
Proof.
  intros Hwf. unfold pmm_Dump. prints (ln "Physical 4M pages:").
  erewrite bind_Ok by (by apply on_pmm_read).
  rewrite (dump_bitmap_Ok _ Hwf _ 0) by (done || (destruct Hwf as (_ & _ & ?); cbn; lia)). by rewrite added_app.
Qed.

(** The whole report of an exception in the kernel. *)
Lemma kernel_exception_reported t x tpd r s : is_u32 t → 0 ≤ int_no r < 256 → Forall is_u32 (regs_words r) →
  GetCurrentTask (kern s) = Ok (t, kern s) → tasks (kern s) !! t = Some x →
  pds (mach (kern s)) !! pd_ x = Some tpd → pd_ok tpd → Pmm.wf (pmm (mach (kern s))) →
  kernel_exception_report r s = Ok (tt, added (
    unhandled_line t r ++ chars "- task was " ++ chars (if is_user_ x then "user" else "supervisor") ++ ln " mode" ++
    concat (regs_lines r) ++ ln "Mapped pages:" ++ page_lines tpd ++
    ln "Physical 4M pages:" ++ bitmap_lines (pmm (mach (kern s)))) s).
Proof.
  intros Ht Hi Hr Hc Hx Hp Hok Hwf. unfold kernel_exception_report.
  rewrite (bind_Ok _ _ _ _ _ (unhandled_Ok t r s Ht Hi Hc)). erewrite bind_Ok; [|by apply report_kern_read].
  erewrite bind_Ok; [|apply report_kern_read; unfold get_task; cbn; by rewrite Hx].
  prints (chars "- task was " ++ chars (if is_user_ x then "user" else "supervisor") ++ ln " mode").
  rewrite (bind_Ok _ _ _ _ _ (regs_Dump_Ok r _ Hr)). erewrite bind_Ok; [|by apply (dump_task_pages_Ok t x tpd)].
  rewrite pmm_Dump_Ok by done. rewrite !added_app. by rewrite <- !app_assoc.
Qed.

(** [PrintPagesMappingPhysical] goes through the tasks of the queue in order. *)
Definition task_lines (k : kernel) (paddr t : Z) : list Z :=
  named "task " t ++ [10] ++
  concat (imap (mapping_line paddr) (default [] (x ← tasks k !! t; pds (mach k) !! pd_ x))).

Lemma mapping_tasks_Ok k paddr l : ∀ fuel n s, kern s = k → LinkedList.LinkedList.chain (nodes k) n l → l ≠ [] → (length l ≤ fuel)%nat →
  Forall (λ x, is_u32 x.2 ∧ ∃ y pd, tasks k !! x.2 = Some y ∧ pds (mach k) !! pd_ y = Some pd ∧ pd_ok pd) l →
  mapping_tasks fuel n paddr s = Ok (tt, added (concat (task_lines k paddr <$> l.*2)) s).
Proof.
  induction l as [|[a t] l IH]; intros fuel n s Hk Hc Hne Hf Hl; [done|]. destruct fuel as [|fuel]; [cbn in Hf; lia|].
  destruct Hc as (-> & H0 & n' & Hn & Hc). apply Forall_cons in Hl as [(Ht & y & pd & Hy & Hp & Hok) Hl]. cbn [fst snd] in *. cbn [mapping_tasks].
  erewrite bind_Ok; [|apply report_kern_read, on_nodes_read; rewrite Hk; by apply (LinkedList.LinkedList.get_Ok _ _ t n')].
  prints (named "task " t ++ [10]). erewrite bind_Ok; [|apply report_kern_read; unfold get_task; cbn [kern added set_text]; by rewrite Hk, Hy].
  erewrite bind_Ok; [|apply get_pd_read; cbn [kern added set_text]; by rewrite Hk].
  rewrite (bind_Ok _ _ _ _ _ (for_entries_Ok _ _ (mapping_entry_Ok paddr) pd Hok _)).
  erewrite bind_Ok; [|apply report_kern_read, on_nodes_read; cbn [kern added set_text]; rewrite Hk; by apply (LinkedList.LinkedList.next_Ok _ _ t n')].
  rewrite added_app. assert (E : (named "task " t ++ [10]) ++ concat (imap (mapping_line paddr) pd) = task_lines k paddr t).
  { unfold task_lines. rewrite Hy. cbn. by rewrite Hp. }
  rewrite E. destruct l as [|[a' t'] l].
  - cbn in Hc. subst n'. cbn. by rewrite app_nil_r.
  - assert (tobool n' = true) as -> by (apply LinkedList.LinkedList.tobool_ne; by destruct Hc as (-> & ? & _)).
    rewrite IH by (done || (cbn in *; lia)). by rewrite added_app.
Qed.

Lemma PrintPagesMappingPhysical_Ok fuel paddr s l : LinkedList.LinkedList.chain (nodes (kern s)) (gTaskQueue (kern s)) l → l ≠ [] →
  (length l ≤ fuel)%nat → is_u32 paddr →
  Forall (λ x, is_u32 x.2 ∧ ∃ y pd, tasks (kern s) !! x.2 = Some y ∧ pds (mach (kern s)) !! pd_ y = Some pd ∧ pd_ok pd) l →
  PrintPagesMappingPhysical fuel paddr s = Ok (tt, added (
    named "Checking vaddrs mapping to paddr " (PageAddress paddr) ++ [10] ++
    concat (task_lines (kern s) (PageAddress paddr) <$> l.*2)) s).
Proof.
  intros Hc Hne Hf Hp Hl. unfold PrintPagesMappingPhysical. erewrite bind_Ok; [|by apply report_kern_read].
  assert (tobool (gTaskQueue (kern s)) = true) as -> by (destruct l; [done|]; apply LinkedList.LinkedList.tobool_ne; by destruct Hc as (-> & ? & _)).
  erewrite bind_Ok by reflexivity.
  assert (is_u32 (PageAddress paddr)) by (rewrite PageAddress_spec by done; unfold is_u32, kPageSize4M in *; dlia).
  prints (named "Checking vaddrs mapping to paddr " (PageAddress paddr) ++ [10]).
  rewrite (mapping_tasks_Ok (kern s) _ l) by done. rewrite added_app. by rewrite <- app_assoc.
Qed.

(** An entry that maps nothing counts as one that maps the first physical page. *)
Lemma unmapped_listed_for_page_zero i : mapping_line 0 i 0 = Printf.dec_text (Z.of_nat i) ++ chars ") " ++ hex 0 ++ ln " maps".
Proof. done. Qed.

(** A string that can be an argument of [printf]. *)
Definition short (s : string) : Prop := plain (chars s) = true ∧ Z.of_nat (length (chars s)) ≤ 2 ^ 20.

(** The assertions of the models are those of the library: one that holds prints nothing, and one that does not
    stops the program after its message. *)
Lemma assert_refines b msg file line f s : short msg → short file → short f → is_u32 line →
  __assert b msg file line f s = assert_ b s.
Proof.
  intros [Hm Hm1] [Hf Hf1] [Hg Hg1] Hl. destruct b; [done|]. unfold __assert. erewrite bind_Ok; [done|].
  eapply printf_Ok; [reflexivity|reflexivity|by repeat (apply Forall_cons; split)|cbn [end_of]; lia].
Qed.

(** The kernel stops with interrupts off. *)
Lemma panic_Ok msg file line s : short msg → short file → is_u32 line →
  panic_report msg file line s = Ok (tt, added (
    chars "PANIC(" ++ chars msg ++ chars ") at " ++ chars file ++ chars ":" ++ Printf.dec_text (Printf.as_int line) ++ [10])
    (set_kern (set_mach (set_iflag false (mach (kern s))) (kern s)) s)).
Proof.
  intros [Hm Hm1] [Hf Hf1] Hl. unfold panic_report. erewrite bind_Ok by reflexivity.
  apply printf_Ok; [reflexivity|reflexivity|by repeat (apply Forall_cons; split)|cbn [end_of]; lia].
Qed.

End Diagnostics.
