(* ===== verification/CxxString.v ===== *)
(** Strings: libcxx/include/string.

    A [basic_string<char>] owns an array [data_] and counts the characters that belong to it
    in [length_]; what the array holds after them is its own business, a terminating zero
    if all went well.  Iterators are offsets from [begin()].  [__throw_out_of_range] ends the
    program ([Aborted]); an access outside of the array is a fault. *)
From S2P Require Import Prelude.

Module CxxString.

Record string := Str { data_ : list Z; length_ : Z }.

Definition npos : Z := 2 ^ 32 - 1.

(** ** Construction *)
Definition empty_string : string := Str [0] 0.

Definition of_char (c : Z) : string := Str [c; 0] 1.

(** From a C string, given by its characters before the zero. *)
Definition of_cstr (str : list Z) : string := Str (str ++ [0]) (Z.of_nat (length str)).

(** [operator[]] *)
Definition at_ (s : string) (j : Z) : result Z :=
  if length_ s <=? j then Fault Aborted else aread (data_ s) j.

(** The characters [s[pos]], ..., [s[pos + n - 1]], one by one. *)
Fixpoint chars_from (s : string) (pos : Z) (n : nat) : result (list Z) :=
  match n with
  | O => Ok []
  | S n => c ← at_ s pos; cs ← chars_from s (pos + 1) n; Ok (c :: cs)
  end.

Definition copy (s : string) : result string :=
  cs ← chars_from s 0 (Z.to_nat (length_ s));
  Ok (Str (cs ++ [0]) (length_ s)).

(** From the first [count] of the bytes at a pointer. *)
Definition of_buffer (other : list Z) (count : Z) : result string :=
  if count <=? Z.of_nat (length other) then Ok (Str (take (Z.to_nat count) other ++ [0]) count)
  else Fault OutOfBounds.

Definition substr (other : string) (pos count : Z) : result string :=
  if length_ other <? pos then Fault Aborted
  else
    let length := Z.min (length_ other - pos) count in
    cs ← chars_from other pos (Z.to_nat length);
    Ok (Str (cs ++ [0]) length).

(** ** Access *)
Definition str_length (s : string) : Z := length_ s.
Definition size (s : string) : Z := length_ s.
Definition empty (s : string) : bool := length_ s =? 0.
Definition begin_ (s : string) : Z := 0.
Definition end_ (s : string) : Z := length_ s.

(** [*it] does not look at [length_]. *)
Definition deref (s : string) (it : Z) : result Z := aread (data_ s) it.

(** ** Changes *)

(** [memmove] inside of the array. *)
Definition move (d : list Z) (dst src n : nat) : result (list Z) :=
  if (src + n <=? length d)%nat && (dst + n <=? length d)%nat
  then Ok (take dst d ++ take n (drop src d) ++ drop (dst + n) d)
  else Fault OutOfBounds.

Definition erase_range (s : string) (first last : Z) : result string :=
  if negb ((begin_ s <=? first) && (first <? end_ s)) then Fault AssertFailed
  else if negb (begin_ s <? last) then Fault AssertFailed
  else if negb (first <? last) then Fault AssertFailed
  else
    let last := if end_ s <? last then end_ s else last in
    let remaining := end_ s - last in
    d ← move (data_ s) (Z.to_nat first) (Z.to_nat last) (Z.to_nat remaining);
    d ← awrite d (first + remaining) 0;
    Ok (Str d (length_ s - (last - first))).

Definition erase (s : string) (index count : Z) : result string :=
  if size s <? index then Fault Aborted
  else erase_range s index (index + Z.min count (size s - index)).

Definition erase_at (s : string) (pos : Z) : result string := erase_range s pos (pos + 1).

(** [operator=] *)
Definition assign (s : string) : result string :=
  cs ← chars_from s 0 (Z.to_nat (length_ s));
  Ok (Str cs (length_ s)).

(** [operator+=]; the own characters are read from the array. *)
Definition append (this s : string) : result string :=
  let new_length := u32 (length_ this + length_ s) in
  if Z.of_nat (length (data_ this)) <? length_ this then Fault OutOfBounds
  else
    cs ← chars_from s 0 (Z.to_nat (length_ s));
    Ok (Str (take (Z.to_nat (length_ this)) (data_ this) ++ cs ++ [0]) new_length).

Definition plus (this other : string) : result string := s ← copy this; append s other.

(** ** Search and comparison *)

(** [it] runs from [begin() + pos] to [end()]; the array bounds the number of steps. *)
Fixpoint find_loop (fuel : nat) (s : string) (it c : Z) : result Z :=
  match fuel with
  | O => Fault NoFuel
  | S fuel =>
      if it =? end_ s then Ok npos
      else x ← deref s it; if x =? c then Ok it else find_loop fuel s (it + 1) c
  end.

(** [pos] is cast to a signed offset. *)
Definition find (s : string) (c pos : Z) : result Z :=
  find_loop (S (length (data_ s))) s (if pos <? 2 ^ 31 then pos else pos - 2 ^ 32) c.

Fixpoint eq_loop (fuel : nat) (this rhs : string) (n cap : Z) : result Z :=
  match fuel with
  | O => Fault NoFuel
  | S fuel =>
      if n <? cap then
        a ← at_ this n; b ← at_ rhs n;
        if a =? b then eq_loop fuel this rhs (n + 1) cap else Ok n
      else Ok n
  end.

(** [operator==] *)
Definition eq (this rhs : string) : result bool :=
  if negb (str_length this =? str_length rhs) then Ok false
  else
    let cap := str_length this in
    n ← eq_loop (S (Z.to_nat cap)) this rhs 0 cap;
    Ok (n =? cap).

(** * The text of a string *)

(** [l] are the string's characters; [rep]: a terminating zero follows them. *)
Definition text (s : string) (l : list Z) : Prop :=
  length_ s = Z.of_nat (length l) ∧ ∃ rest, data_ s = l ++ rest.

Definition rep (s : string) (l : list Z) : Prop :=
  length_ s = Z.of_nat (length l) ∧ ∃ rest, data_ s = l ++ 0 :: rest.

Lemma rep_text s l : rep s l → text s l.
Proof. intros [? [rest ?]]. split; eauto. Qed.

Lemma text_unique s l l' : text s l → text s l' → l = l'.
Proof.
  intros [H [r Hr]] [H' [r' Hr']]. rewrite Hr in Hr'. apply app_inj_1 in Hr' as [? _]; [done|lia].
Qed.

Lemma of_cstr_rep l : rep (of_cstr l) l.
Proof. split; [done|by exists []]. Qed.

Lemma rep_app_nil l r n : n = Z.of_nat (length l) → rep (Str (l ++ 0 :: r) n) l.
Proof. intros ->. split; [done|by exists r]. Qed.

Lemma data_lookup s l i : text s l → 0 ≤ i < Z.of_nat (length l) → nthZ (data_ s) i = l !! Z.to_nat i.
Proof.
  intros [_ [r Hr]] Hi. rewrite Hr, nthZ_lookup by lia. apply lookup_app_l. lia.
Qed.

Lemma at_Ok s l j c : text s l → 0 ≤ j → l !! Z.to_nat j = Some c → at_ s j = Ok c.
Proof.
  intros H Hj Hc. pose proof (lookup_lt_Some _ _ _ Hc). unfold at_.
  destruct H as [Hl Hr]. rewrite (proj2 (Z.leb_gt _ _)) by lia. unfold aread.
  rewrite (data_lookup _ l) by (done || lia). by rewrite Hc.
Qed.

Lemma at_out s l j : text s l → Z.of_nat (length l) ≤ j → at_ s j = Fault Aborted.
Proof. intros [Hl _] Hj. unfold at_. by rewrite (proj2 (Z.leb_le _ _)) by lia. Qed.

Lemma str_deref_Ok s l i c : text s l → 0 ≤ i → l !! Z.to_nat i = Some c → deref s i = Ok c.
Proof.
  intros H Hi Hc. pose proof (lookup_lt_Some _ _ _ Hc). unfold deref, aread.
  rewrite (data_lookup _ l) by (done || lia). by rewrite Hc.
Qed.

Lemma chars_from_Ok s l n : ∀ pos,
  text s l → (pos + n ≤ length l)%nat → chars_from s (Z.of_nat pos) n = Ok (take n (drop pos l)).
Proof.
  induction n as [|n IH]; intros pos H Hn; simpl; [by rewrite take_0|].
  destruct (lookup_lt_is_Some_2 l pos) as [c Hc]; [lia|].
  rewrite (at_Ok s l _ c) by (rewrite ?Nat2Z.id; done || lia). simpl.
  replace (Z.of_nat pos + 1) with (Z.of_nat (S pos)) by lia. rewrite IH by (done || lia). simpl.
  by rewrite (drop_S _ _ _ Hc).
Qed.

Lemma chars_from_all s l : text s l → chars_from s 0 (Z.to_nat (length_ s)) = Ok l.
Proof.
  intros H. pose proof H as [Hl _]. rewrite Hl, Nat2Z.id.
  rewrite (chars_from_Ok s l _ 0) by (done || lia). by rewrite drop_0, take_ge by lia.
Qed.

Lemma copy_Ok s l : text s l → ∃ s', copy s = Ok s' ∧ rep s' l.
Proof.
  intros H. unfold copy. rewrite (chars_from_all s l H). simpl. eexists. split; [done|].
  apply rep_app_nil, H.
Qed.

Lemma assign_Ok s l : text s l → assign s = Ok (Str l (length_ s)) ∧ text (Str l (length_ s)) l.
Proof.
  intros H. unfold assign. rewrite (chars_from_all s l H). split; [done|]. split; [apply H|].
  exists []. by rewrite app_nil_r.
Qed.

Lemma of_buffer_Ok bs n : 0 ≤ n ≤ Z.of_nat (length bs) →
  ∃ s, of_buffer bs n = Ok s ∧ rep s (take (Z.to_nat n) bs).
Proof.
  intros H. unfold of_buffer. rewrite (proj2 (Z.leb_le _ _)) by lia. eexists. split; [done|].
  apply rep_app_nil. rewrite length_take. lia.
Qed.

Lemma substr_Ok s l pos count :
  text s l → 0 ≤ pos ≤ Z.of_nat (length l) → 0 ≤ count →
  ∃ s', substr s pos count = Ok s' ∧ rep s' (take (Z.to_nat count) (drop (Z.to_nat pos) l)).
Proof.
  intros H Hp Hc. pose proof H as [Hl _]. unfold substr. rewrite (proj2 (Z.ltb_ge _ _)) by lia.
  pose proof (chars_from_Ok s l (Z.to_nat (Z.min (length_ s - pos) count)) (Z.to_nat pos) H ltac:(lia)) as R.
  rewrite Z2Nat.id in R by lia. cbv zeta. rewrite R. simpl. eexists. split; [done|].
  replace (take (Z.to_nat (Z.min _ _)) (drop _ l)) with (take (Z.to_nat count) (drop (Z.to_nat pos) l)).
  - apply rep_app_nil. rewrite length_take, length_drop. lia.
  - destruct (Z.le_gt_cases count (length_ s - pos)); [by rewrite Z.min_r by lia|].
    rewrite Z.min_l by lia. rewrite !take_ge; [done|rewrite length_drop; lia..].
Qed.

Lemma append_Ok s1 s2 l1 l2 :
  text s1 l1 → text s2 l2 → Z.of_nat (length (l1 ++ l2)) < 2 ^ 32 →
  ∃ s', append s1 s2 = Ok s' ∧ rep s' (l1 ++ l2).
Proof.
  intros H1 H2 Hb. pose proof H1 as [Hl1 [r1 Hr1]]. pose proof H2 as [Hl2 _]. rewrite length_app in Hb.
  unfold append. rewrite (proj2 (Z.ltb_ge _ _)) by (rewrite Hr1, length_app; lia).
  rewrite (chars_from_all s2 l2 H2). simpl. eexists. split; [done|].
  rewrite Hr1, Hl1, Nat2Z.id, take_app_length, app_assoc. apply rep_app_nil.
  rewrite Hl2, u32_id by (unfold is_u32; lia). rewrite length_app. lia.
Qed.

Lemma plus_Ok s1 s2 l1 l2 :
  text s1 l1 → text s2 l2 → Z.of_nat (length (l1 ++ l2)) < 2 ^ 32 →
  ∃ s', plus s1 s2 = Ok s' ∧ rep s' (l1 ++ l2).
Proof.
  intros H1 H2 Hb. unfold plus. destruct (copy_Ok s1 l1 H1) as (s' & -> & Hs'). simpl.
  by apply append_Ok; [apply rep_text| |].
Qed.

(** Removing the characters from [first] up to [last]. *)
Lemma erase_range_Ok s l first last :
  text s l → 0 ≤ first < Z.of_nat (length l) → first < last →
  ∃ s', erase_range s first last = Ok s' ∧
        rep s' (take (Z.to_nat first) l ++ drop (Z.to_nat last) l).
Proof.
  intros [Hl [r Hr]] Hf Hlt. unfold erase_range, begin_, end_. rewrite Hl.
  rewrite (proj2 (Z.leb_le 0 first)), (proj2 (Z.ltb_lt first (Z.of_nat _))) by lia. simpl.
  rewrite !(proj2 (Z.ltb_lt _ last)) by lia. simpl.
  set (n := length l) in *.
  set (last' := if Z.of_nat n <? last then Z.of_nat n else last).
  assert (Hlast : first < last' ≤ Z.of_nat n ∧ drop (Z.to_nat last) l = drop (Z.to_nat last') l).
  { unfold last'. destruct (Z.ltb_spec (Z.of_nat n) last); [|done]. split; [lia|].
    rewrite !drop_ge by lia. done. }
  destruct Hlast as [Hlast ->]. clearbody last'. set (rem := drop (Z.to_nat last') l).
  assert (Hrem : Z.of_nat n - last' = Z.of_nat (length rem)) by (unfold rem; rewrite length_drop; lia).
  assert (Hd : length (data_ s) = (n + length r)%nat) by (rewrite Hr, length_app; done).
  unfold move. rewrite (proj2 (Nat.leb_le _ _)) by lia. rewrite (proj2 (Nat.leb_le _ _)) by lia. simpl.
  rewrite Hrem, Nat2Z.id, Hr, (take_app_le l r), (drop_app_le l r) by lia. fold rem. rewrite take_app_length.
  destruct (drop (Z.to_nat first + length rem) (l ++ r)) as [|x rest] eqn:Ex.
  { apply (f_equal length) in Ex. rewrite length_drop, length_app in Ex. simpl in Ex. lia. }
  rewrite awrite_in_range.
  2:{ rewrite !length_app, length_take. simpl. lia. }
  eexists. split; [done|].
  replace (Z.to_nat (first + Z.of_nat (length rem))) with (length (take (Z.to_nat first) l ++ rem) + 0)%nat
    by (rewrite length_app, length_take; lia).
  rewrite app_assoc, insert_app_r. simpl. apply rep_app_nil. rewrite length_app, length_take. lia.
Qed.

Lemma str_erase_Ok s l index count :
  text s l → 0 ≤ index < Z.of_nat (length l) → 0 < count →
  ∃ s', erase s index count = Ok s' ∧
        rep s' (take (Z.to_nat index) l ++ drop (Z.to_nat (index + count)) l).
Proof.
  intros H Hi Hc. pose proof H as [Hl _]. unfold erase, size. rewrite (proj2 (Z.ltb_ge _ _)) by lia.
  destruct (erase_range_Ok s l index (index + Z.min count (length_ s - index))) as (s' & -> & Hs'); [done|lia|lia|].
  exists s'. split; [done|].
  destruct (Z.le_gt_cases count (length_ s - index)); [by rewrite Z.min_l in Hs' by lia|].
  rewrite Z.min_r in Hs' by lia. rewrite drop_ge in Hs' by lia. by rewrite (drop_ge _ (Z.to_nat (index + count))) by lia.
Qed.

(** ** Search *)
Lemma find_loop_Ok s l c : ∀ fuel (i : nat),
  text s l → (i ≤ length l)%nat → (length l - i < fuel)%nat →
  find_loop fuel s (Z.of_nat i) c =
    match list_find (c =.) (drop i l) with
    | Some (k, _) => Ok (Z.of_nat (i + k))
    | None => Ok npos
    end.
Proof.
  induction fuel as [|fuel IH]; intros i H Hi Hf; [lia|]. cbn [find_loop]. pose proof H as [Hl _].
  unfold end_. rewrite Hl. destruct (Z.eqb_spec (Z.of_nat i) (Z.of_nat (length l))) as [E|E].
  { by rewrite drop_ge by lia. }
  destruct (lookup_lt_is_Some_2 l i) as [x Hx]; [lia|].
  rewrite (str_deref_Ok s l _ x) by (rewrite ?Nat2Z.id; done || lia). simpl.
  rewrite (drop_S _ _ _ Hx). simpl. destruct (Z.eqb_spec x c) as [->|Hne].
  - rewrite decide_True by done. f_equal. lia.
  - rewrite decide_False by congruence. replace (Z.of_nat i + 1) with (Z.of_nat (S i)) by lia.
    rewrite IH by (done || lia). destruct (list_find _ _) as [[k y]|]; simpl; [|done]. f_equal. lia.
Qed.

Lemma str_find_Ok s l c pos :
  text s l → 0 ≤ pos ≤ Z.of_nat (length l) → pos < 2 ^ 31 →
  find s c pos = match list_find (c =.) (drop (Z.to_nat pos) l) with
                 | Some (k, _) => Ok (pos + Z.of_nat k)
                 | None => Ok npos
                 end.
Proof.
  intros H Hp Hb. unfold find. rewrite (proj2 (Z.ltb_lt _ _)) by lia. pose proof H as [_ [r Hr]].
  rewrite <- (Z2Nat.id pos) at 1 by lia. rewrite (find_loop_Ok s l c) by (done || (rewrite ?Hr, ?length_app; lia)).
  destruct (list_find _ _) as [[k y]|]; [|done]. f_equal. lia.
Qed.

(** ** Comparison *)
Lemma eq_loop_Ok s1 s2 l1 l2 : ∀ fuel n,
  text s1 l1 → text s2 l2 → length l1 = length l2 →
  (n ≤ length l1)%nat → take n l1 = take n l2 → (length l1 - n < fuel)%nat →
  ∃ k, eq_loop fuel s1 s2 (Z.of_nat n) (Z.of_nat (length l1)) = Ok k ∧
       (k = Z.of_nat (length l1) ↔ l1 = l2).
Proof.
  induction fuel as [|fuel IH]; intros n H1 H2 Hl Hn Ht Hf; [lia|]. cbn [eq_loop].
  destruct (Z.ltb_spec (Z.of_nat n) (Z.of_nat (length l1))) as [Hlt|Hge].
  - destruct (lookup_lt_is_Some_2 l1 n) as [a Ha]; [lia|]. destruct (lookup_lt_is_Some_2 l2 n) as [b Hb]; [lia|].
    rewrite (at_Ok s1 l1 _ a), (at_Ok s2 l2 _ b) by (rewrite ?Nat2Z.id; done || lia). simpl.
    destruct (Z.eqb_spec a b) as [->|Hne].
    + replace (Z.of_nat n + 1) with (Z.of_nat (S n)) by lia. apply IH; [done|done|done|lia| |lia].
      by rewrite (take_S_r _ _ _ Ha), (take_S_r _ _ _ Hb), Ht.
    + eexists. split; [done|]. split; [lia|]. intros ->. congruence.
  - eexists. split; [done|]. split; [|lia]. intros _. rewrite !take_ge in Ht by lia. done.
Qed.

Lemma eq_Ok s1 s2 l1 l2 : text s1 l1 → text s2 l2 → eq s1 s2 = Ok (bool_decide (l1 = l2)).
Proof.
  intros H1 H2. pose proof H1 as [Hl1 _]. pose proof H2 as [Hl2 _]. unfold eq, str_length. rewrite Hl1, Hl2.
  destruct (Z.eqb_spec (Z.of_nat (length l1)) (Z.of_nat (length l2))) as [E|E]; cbn [negb].
  - rewrite Nat2Z.id. destruct (eq_loop_Ok s1 s2 l1 l2 (S (length l1)) 0) as (k & R & Hk); [done|done|lia|lia|done|lia|].
    change (Z.of_nat 0) with 0 in R. rewrite R. unfold mbind, result_bind. f_equal.
    destruct (Z.eqb_spec k (Z.of_nat (length l1))); case_bool_decide; tauto.
  - rewrite bool_decide_eq_false_2; [done|]. congruence.
Qed.

(** Every case of [erase]. *)
Lemma erase_cases s l index count : text s l → 0 ≤ index → 0 ≤ count →
  if Z.of_nat (length l) <? index then erase s index count = Fault Aborted
  else if (index =? Z.of_nat (length l)) || (count =? 0) then erase s index count = Fault AssertFailed
  else ∃ s', erase s index count = Ok s' ∧ rep s' (take (Z.to_nat index) l ++ drop (Z.to_nat (index + count)) l).
Proof.
  intros H Hi Hc. destruct (Z.ltb_spec (Z.of_nat (length l)) index) as [Hlt|Hle].
  { unfold erase, size. by rewrite (proj1 H), (proj2 (Z.ltb_lt _ _)). }
  destruct (Z.eqb_spec index (Z.of_nat (length l))), (Z.eqb_spec count 0); cbn [orb];
    [..|apply str_erase_Ok; [done|lia|lia]];
    unfold erase, erase_range, size, begin_, end_; rewrite (proj1 H), (proj2 (Z.ltb_ge _ _)), (proj2 (Z.leb_le 0 index)) by lia; cbn [andb].
  1, 2: by rewrite (proj2 (Z.ltb_ge _ _)) by lia.
  rewrite (proj2 (Z.ltb_lt index _)) by lia. cbn [negb].
  destruct (negb (0 <? _)); [done|]. by rewrite (proj2 (Z.ltb_ge index _)) by lia.
Qed.

Lemma find_behind s l c pos : text s l → Z.of_nat (length l) < pos → Z.of_nat (length (data_ s)) ≤ pos < 2 ^ 31 →
  find s c pos = Fault OutOfBounds.
Proof.
  intros H Hl Hp. unfold find. rewrite (proj2 (Z.ltb_lt pos _)) by lia. cbn [find_loop]. unfold end_.
  rewrite (proj1 H), (proj2 (Z.eqb_neq _ _)) by lia. unfold deref, aread. rewrite nthZ_lookup, lookup_ge_None_2 by lia. done.
Qed.

(** * Properties *)

(** C39: Strings behave as lists of characters.  Whatever follows its characters in the array,
    a string with the text [l] answers [operator[]] and [==] as the list [l] does, and copies,
    substrings and concatenations are the expected lists again, each with its terminating zero;
    assignment copies the text (only).  An index or position beyond the text ends the program in
    [operator[]], [substr] and [erase].  [erase] of at least one character that is there gives the
    list without it and the next ones; of none, or at the end, it fails an assertion.  [find]
    from a position in the text or at its end finds the first such character from there on, or
    nothing; from a position behind the array it reads outside of the array. *)
Theorem string_refines_list s l s2 l2 :
  text s l → text s2 l2 →
  (∀ j, 0 ≤ j → at_ s j = match l !! Z.to_nat j with Some c => Ok c | None => Fault Aborted end) ∧
  (∃ s', copy s = Ok s' ∧ rep s' l) ∧
  (∃ s', assign s = Ok s' ∧ text s' l) ∧
  (∀ pos count, 0 ≤ pos ≤ Z.of_nat (length l) → 0 ≤ count →
     ∃ s', substr s pos count = Ok s' ∧ rep s' (take (Z.to_nat count) (drop (Z.to_nat pos) l))) ∧
  (∀ pos count, Z.of_nat (length l) < pos → substr s pos count = Fault Aborted) ∧
  (∀ index count, 0 ≤ index → 0 ≤ count →
     if Z.of_nat (length l) <? index then erase s index count = Fault Aborted
     else if (index =? Z.of_nat (length l)) || (count =? 0) then erase s index count = Fault AssertFailed
     else ∃ s', erase s index count = Ok s' ∧ rep s' (take (Z.to_nat index) l ++ drop (Z.to_nat (index + count)) l)) ∧
  (Z.of_nat (length (l ++ l2)) < 2 ^ 32 → ∃ s', append s s2 = Ok s' ∧ rep s' (l ++ l2)) ∧
  (∀ c pos, 0 ≤ pos ≤ Z.of_nat (length l) → pos < 2 ^ 31 →
     find s c pos = match list_find (c =.) (drop (Z.to_nat pos) l) with
                    | Some (k, _) => Ok (pos + Z.of_nat k) | None => Ok npos end) ∧
  (∀ c pos, Z.of_nat (length l) < pos → Z.of_nat (length (data_ s)) ≤ pos < 2 ^ 31 → find s c pos = Fault OutOfBounds) ∧
  eq s s2 = Ok (bool_decide (l = l2)).
Proof.
  intros H H2. split_and!.
  - intros j Hj. destruct (l !! Z.to_nat j) as [c|] eqn:E; [by eapply at_Ok|].
    apply lookup_ge_None_1 in E. eapply at_out; [done|lia].
  - by apply copy_Ok.
  - eexists. by apply assign_Ok.
  - intros. by apply substr_Ok.
  - intros pos count Hp. unfold substr. rewrite (proj1 H), (proj2 (Z.ltb_lt _ _)) by lia. done.
  - intros. by apply erase_cases.
  - by apply append_Ok.
  - intros. by apply str_find_Ok.
  - intros. by eapply find_behind.
  - by apply eq_Ok.
Qed.

(** ["a/b"]: the separator is at 1; erasing up to it leaves ["b"]. *)
Lemma string_refines_list_witness :
  find (of_cstr [97; 47; 98]) 47 0 = Ok 1 ∧ eq (of_cstr [97; 47; 98]) (of_cstr [98]) = Ok false ∧
  ∃ s', erase (of_cstr [97; 47; 98]) 0 2 = Ok s' ∧ rep s' [98].
Proof.
  destruct (string_refines_list (of_cstr [97; 47; 98]) [97; 47; 98] (of_cstr [98]) [98]
              (rep_text _ _ (of_cstr_rep _)) (rep_text _ _ (of_cstr_rep _)))
    as (_ & _ & _ & _ & _ & He & _ & Hf & _ & Heq).
  split; [|split].
  - apply (Hf 47 0); simpl; lia.
  - exact Heq.
  - apply (He 0 2); simpl; lia.
Defined.

(** An assigned string has no terminating zero, which [c_str] promises. *)
Lemma assigned_string_unterminated c : assign (of_char c) = Ok (Str [c] 1) ∧ deref (Str [c] 1) 1 = Fault OutOfBounds.
Proof. done. Qed.

(** Erasing nothing is an error, and so is erasing at the end. *)
Lemma erase_nothing_fails s : erase s 0 0 = Fault AssertFailed ∨ size s < 0.
Proof.
  unfold erase, size. destruct (Z.ltb_spec (length_ s) 0); [by right|left].
  unfold erase_range, begin_, end_. rewrite Z.min_l by lia. rewrite Z.add_0_r, Z.ltb_irrefl. simpl.
  by destruct (0 <? length_ s).
Qed.

End CxxString.
