(* ===== verification/StringOrder.v ===== *)
(** The orderings of strings: the comparison operators of libcxx/include/string, with the
    overloads that take a character or a C string for one of the strings.

    [operator>] looks at the first characters that differ: letters are compared without their
    case first.  A [char] is signed. *)
From S2P Require Import Prelude LibcString CxxString.
Import LibcString.LibcString CxxString.CxxString.

Module StringOrder.

(** An operand, and the string that an overload makes of it. *)
Inductive operand :=
  | OString (s : string)
  | OChar (c : Z)
  | OCstr (str : list Z).

Definition as_string (o : operand) : string :=
  match o with OString s => s | OChar c => of_char c | OCstr str => of_cstr str end.

(** [operator==] *)
Definition eq_op (lhs rhs : operand) : result bool := eq (as_string lhs) (as_string rhs).

Definition is_letter (c : Z) : bool :=
  ((65 <=? schar c) && (schar c <=? 90)) || ((97 <=? schar c) && (schar c <=? 122)).

(** How [operator>] compares two characters that differ. *)
Definition char_gt (a b : Z) : bool :=
  if is_letter a && is_letter b then
    let A := Z.land (schar a) (Z.lnot 32) in
    let B := Z.land (schar b) (Z.lnot 32) in
    if negb (A =? B) then B <? A else schar b <? schar a
  else schar b <? schar a.

(** [operator>] of two strings; the loop is that of [operator==]. *)
Definition gt (lhs rhs : string) : result bool :=
  let cap := if str_length lhs <? str_length rhs then str_length lhs else str_length rhs in
  n ← eq_loop (S (Z.to_nat cap)) lhs rhs 0 cap;
  if n =? cap then Ok (str_length rhs <? str_length lhs)
  else a ← at_ lhs n; b ← at_ rhs n; Ok (char_gt a b).

Definition gt_op (lhs rhs : operand) : result bool := gt (as_string lhs) (as_string rhs).

Definition ne_op (lhs rhs : operand) : result bool := e ← eq_op lhs rhs; Ok (negb e).

Definition lt_op (lhs rhs : operand) : result bool :=
  e ← eq_op lhs rhs;
  if e : bool then Ok false else g ← gt_op lhs rhs; Ok (negb g).

Definition le_op (lhs rhs : operand) : result bool := g ← gt_op lhs rhs; Ok (negb g).

Definition ge_op (lhs rhs : operand) : result bool :=
  e ← eq_op lhs rhs;
  if e : bool then Ok true else gt_op lhs rhs.

(** [operator+] with an operand that is converted first. *)
Definition plus_op (lhs rhs : operand) : result string :=
  s ← copy (as_string lhs); append s (as_string rhs).

(** * The order *)

Fixpoint gt_list (l m : list Z) : bool :=
  match l, m with
  | x :: l, y :: m => if x =? y then gt_list l m else char_gt x y
  | _ :: _, [] => true
  | [], _ => false
  end.

Lemma gt_list_app p l m : gt_list (p ++ l) (p ++ m) = gt_list l m.
Proof. induction p as [|x p IH]; simpl; [done|]. by rewrite Z.eqb_refl. Qed.

(** Where the loop stops: after the common start, or after the shorter string. *)
Lemma eq_loop_common s1 s2 l1 l2 cap : ∀ fuel n,
  text s1 l1 → text s2 l2 → cap = Nat.min (length l1) (length l2) →
  (n ≤ cap)%nat → take n l1 = take n l2 → (cap - n < fuel)%nat →
  ∃ k, eq_loop fuel s1 s2 (Z.of_nat n) (Z.of_nat cap) = Ok (Z.of_nat k) ∧ (k ≤ cap)%nat ∧
       take k l1 = take k l2 ∧ (k = cap ∨ ∃ a b, l1 !! k = Some a ∧ l2 !! k = Some b ∧ a ≠ b).
Proof.
  induction fuel as [|fuel IH]; intros n H1 H2 Hc Hn Ht Hf; [lia|]. cbn [eq_loop].
  destruct (Z.ltb_spec (Z.of_nat n) (Z.of_nat cap)) as [Hlt|Hge].
  - destruct (lookup_lt_is_Some_2 l1 n) as [a Ha]; [lia|]. destruct (lookup_lt_is_Some_2 l2 n) as [b Hb]; [lia|].
    rewrite (at_Ok s1 l1 _ a), (at_Ok s2 l2 _ b) by (rewrite ?Nat2Z.id; done || lia). simpl.
    destruct (Z.eqb_spec a b) as [->|Hne].
    + replace (Z.of_nat n + 1) with (Z.of_nat (S n)) by lia. apply IH; [done|done|done|lia| |lia].
      by rewrite (take_S_r _ _ _ Ha), (take_S_r _ _ _ Hb), Ht.
    + exists n. split; [done|]. split; [lia|]. split; [done|]. right. by exists a, b.
  - exists n. split; [done|]. split; [lia|]. split; [done|]. left. lia.
Qed.

(** [operator>] is the order of the texts. *)
Lemma gt_Ok s1 s2 l1 l2 : text s1 l1 → text s2 l2 → gt s1 s2 = Ok (gt_list l1 l2).
Proof.
  intros H1 H2. pose proof H1 as [E1 _]. pose proof H2 as [E2 _]. unfold gt, str_length. rewrite E1, E2.
  set (cap := Nat.min (length l1) (length l2)).
  assert ((if Z.of_nat (length l1) <? Z.of_nat (length l2) then Z.of_nat (length l1) else Z.of_nat (length l2))
    = Z.of_nat cap) as -> by (unfold cap; destruct (Z.ltb_spec (Z.of_nat (length l1)) (Z.of_nat (length l2))); lia).
  destruct (eq_loop_common s1 s2 l1 l2 cap (S (Z.to_nat (Z.of_nat cap))) 0 H1 H2) as
    (k & R & Hk & Ht & Hcase); [done|lia|done|lia|].
  change (Z.of_nat 0) with 0 in R. cbv zeta. rewrite R. cbn [mbind result_bind].
  rewrite <- (take_drop k l1), <- (take_drop k l2), Ht, gt_list_app.
  destruct Hcase as [->|(a & b & Ha & Hb & Hne)].
  - rewrite Z.eqb_refl, !length_app, !length_take, !length_drop.
    destruct (drop cap l1) as [|x r1] eqn:D1, (drop cap l2) as [|y r2] eqn:D2;
      apply (f_equal length) in D1, D2; rewrite length_drop in D1, D2; simpl in D1, D2; unfold cap in *; simpl.
    + rewrite (proj2 (Z.ltb_ge _ _)) by lia. done.
    + rewrite (proj2 (Z.ltb_ge _ _)) by lia. done.
    + rewrite (proj2 (Z.ltb_lt _ _)) by lia. done.
    + lia.
  - pose proof (lookup_lt_Some _ _ _ Ha). pose proof (lookup_lt_Some _ _ _ Hb).
    rewrite (proj2 (Z.eqb_neq _ _)).
    2:{ intros E. assert (k = cap) by lia. unfold cap in *. lia. }
    rewrite (at_Ok s1 l1 _ a), (at_Ok s2 l2 _ b) by (rewrite ?Nat2Z.id; done || lia). simpl.
    rewrite (drop_S _ _ _ Ha), (drop_S _ _ _ Hb). simpl. by rewrite (proj2 (Z.eqb_neq _ _)).
Qed.

(** Of two different characters exactly one is greater: by the 65536 cases. *)
Lemma char_gt_converse a b : is_u8 a → is_u8 b → a ≠ b → char_gt b a = negb (char_gt a b).
Proof.
  intros Ha Hb Hne.
  assert (forallb (λ b, (a =? b) || Bool.eqb (char_gt b a) (negb (char_gt a b))) (seqZ 0 256) = true) as F.
  { revert a Ha Hne. intros a Ha _. revert a Ha.
    apply (byte_ind (λ a, forallb (λ b, (a =? b) || Bool.eqb (char_gt b a) (negb (char_gt a b))) (seqZ 0 256))).
    vm_compute. reflexivity. }
  pose proof (byte_ind _ F b Hb) as C. simpl in C.
  apply orb_true_iff in C as [C%Z.eqb_eq|C%Bool.eqb_prop]; done.
Qed.

Lemma gt_list_converse l m : Forall is_u8 l → Forall is_u8 m →
  gt_list m l = negb (gt_list l m) && negb (bool_decide (l = m)).
Proof.
  intros Hl. revert m. induction Hl as [|x l Hx Hl IH]; intros m Hm; destruct Hm as [|y m Hy Hm]; simpl; try done.
  rewrite (Z.eqb_sym y x). destruct (Z.eqb_spec x y) as [<-|Hne].
  - rewrite IH by done. f_equal. f_equal. apply bool_decide_ext. split; [by intros ->|by intros [= ->]].
  - rewrite (char_gt_converse x y) by done. rewrite bool_decide_eq_false_2 by congruence. simpl. by rewrite andb_true_r.
Qed.

(** The operators of two operands agree with each other: exactly one of [<], [==] and [>] holds,
    [<=] and [>=] include equality, and [<] is the converse of [>]. *)
Lemma comparisons_consistent lhs rhs l m :
  text (as_string lhs) l → text (as_string rhs) m → Forall is_u8 l → Forall is_u8 m →
  ∃ e g, eq_op lhs rhs = Ok e ∧ gt_op lhs rhs = Ok g ∧ e = bool_decide (l = m) ∧ (e && g = false) ∧
    ne_op lhs rhs = Ok (negb e) ∧ lt_op lhs rhs = Ok (negb e && negb g) ∧
    le_op lhs rhs = Ok (negb g) ∧ ge_op lhs rhs = Ok (e || g) ∧
    gt_op rhs lhs = lt_op lhs rhs ∧ ge_op rhs lhs = le_op lhs rhs.
Proof.
  intros Hl Hm Ul Um. exists (bool_decide (l = m)), (gt_list l m).
  unfold ne_op, lt_op, le_op, ge_op, eq_op, gt_op.
  rewrite !(eq_Ok _ _ l m), !(gt_Ok _ _ l m), !(eq_Ok _ _ m l), !(gt_Ok _ _ m l) by done.
  cbn [mbind result_bind]. rewrite (gt_list_converse l m) by done.
  assert (bool_decide (m = l) = bool_decide (l = m)) as -> by (by apply bool_decide_ext).
  assert (bool_decide (l = m) && gt_list l m = false) as D.
  { apply andb_false_iff. case_bool_decide as E; [|by left]. right. subst m.
    rewrite <- (app_nil_r l), gt_list_app. done. }
  repeat split; try done; destruct (bool_decide (l = m)), (gt_list l m); done.
Qed.

(** On texts of letters [>] orders by the letters without their case and then by case: with
    the place of a letter in that order as key, it is the dictionary order of the keys. *)
Definition key (c : Z) : Z := 256 * Z.land c (Z.lnot 32) + c.

Lemma char_gt_key a b : is_u8 a → is_u8 b → is_letter a = true → is_letter b = true →
  char_gt a b = (key b <? key a).
Proof.
  intros Ha Hb La Lb.
  assert (forallb (λ b, negb (is_letter a) || negb (is_letter b) || Bool.eqb (char_gt a b) (key b <? key a))
            (seqZ 0 256) = true) as F.
  { clear La. revert a Ha.
    apply (byte_ind (λ a, forallb (λ b, negb (is_letter a) || negb (is_letter b) ||
      Bool.eqb (char_gt a b) (key b <? key a)) (seqZ 0 256))).
    vm_compute. reflexivity. }
  pose proof (byte_ind _ F b Hb) as C. simpl in C. rewrite La, Lb in C. by apply Bool.eqb_prop in C.
Qed.

Definition letters (l : list Z) : Prop := Forall (λ c, is_u8 c ∧ is_letter c = true) l.

Lemma gt_list_trans l m k : letters l → letters m → letters k →
  gt_list l m = true → gt_list m k = true → gt_list l k = true.
Proof.
  intros Hl. revert m k. induction Hl as [|x l [Ux Lx] Hl IH]; intros m k Hm Hk; [by destruct m|].
  destruct Hm as [|y m [Uy Ly] Hm]; [by destruct k|]. destruct Hk as [|z k [Uz Lz] Hk]; [done|]. simpl.
  destruct (Z.eqb_spec x y) as [E|Hxy], (Z.eqb_spec y z) as [E'|Hyz]; try subst y; try subst z; try done.
  - rewrite Z.eqb_refl. by apply IH.
  - by destruct (Z.eqb_spec x z).
  - by rewrite (proj2 (Z.eqb_neq _ _)).
  - rewrite !char_gt_key by done. intros ?%Z.ltb_lt ?%Z.ltb_lt.
    rewrite (proj2 (Z.eqb_neq x z)) by (intros ->; lia). apply Z.ltb_lt. lia.
Qed.

Lemma letters_ordered s1 s2 s3 l m k :
  text s1 l → text s2 m → text s3 k → letters l → letters m → letters k →
  gt s1 s2 = Ok true → gt s2 s3 = Ok true → gt s1 s3 = Ok true.
Proof.
  intros H1 H2 H3 L1 L2 L3. rewrite (gt_Ok _ _ l m), (gt_Ok _ _ m k), (gt_Ok _ _ l k) by done.
  intros [= E1] [= E2]. f_equal. exact (gt_list_trans l m k L1 L2 L3 E1 E2).
Qed.

(** With other characters it is no order: ["B" > "a"], ["_" > "B"] and ["a" > "_"], since ['_']
    lies between the capital and the small letters. *)
Lemma order_has_cycle :
  gt_op (OCstr [66]) (OCstr [97]) = Ok true ∧ gt_op (OCstr [95]) (OCstr [66]) = Ok true ∧
  gt_op (OCstr [97]) (OCstr [95]) = Ok true.
Proof. done. Qed.

(** An operand that is converted is appended as its string. *)
Lemma plus_op_Ok lhs rhs l m :
  text (as_string lhs) l → text (as_string rhs) m → Z.of_nat (length (l ++ m)) < 2 ^ 32 →
  ∃ s, plus_op lhs rhs = Ok s ∧ rep s (l ++ m).
Proof. apply plus_Ok. Qed.

End StringOrder.
