(* ===== verification/Vfs.v ===== *)
(** The file system of a process: libc/include/libc/startup/vfs.h and libc/vfs.cpp.

    A directory owns its nodes; a [VFSNode *] is the node's position, the list of the indices
    that lead to it from the root, and the parent of a node is the position without its last
    index.  Nodes are never removed or reordered, so positions stay valid. *)
From S2P Require Import Prelude LibcString CxxString.
Import CxxString.CxxString.

Module Vfs.

(** ** Nodes *)
Inductive node :=
  | File (name_ : string) (data_ size_ : Z)
  | Dir (name_ : string) (nodes_ : list node).

Definition getName (n : node) : string := match n with File name _ _ => name | Dir name _ => name end.
Definition isFile (n : node) : bool := match n with File _ _ _ => true | Dir _ _ => false end.
Definition isDir (n : node) : bool := negb (isFile n).
Definition children (n : node) : list node := match n with File _ _ _ => [] | Dir _ ns => ns end.

(** Positions of a node found among the later siblings, in this directory, in child [i]. *)
Definition later (r : option (nat * node)) : option (nat * node) :=
  match r with Some (i, n) => Some (S i, n) | None => None end.
Definition here (r : option (nat * node)) : option (list nat * node) :=
  match r with Some (i, n) => Some ([i], n) | None => None end.
Definition below (i : nat) (r : option (list nat * node)) : option (list nat * node) :=
  match r with Some (p, n) => Some (i :: p, n) | None => None end.

(** [Dir::getNode]: the first node of that name, with its index. *)
Fixpoint getNode (nodes : list node) (name : string) : result (option (nat * node)) :=
  match nodes with
  | [] => Ok None
  | n :: nodes =>
      b ← eq (getName n) name;
      if (b : bool) then Ok (Some (0%nat, n))
      else r ← getNode nodes name; Ok (later r)
  end.

Definition HasNode (nodes : list node) (name : string) : result bool :=
  r ← getNode nodes name; Ok (bool_decide (is_Some r)).

Definition getDir (nodes : list node) (name : string) : result (option (nat * node)) :=
  r ← getNode nodes name;
  match r with
  | Some (i, n) => if isDir n then Ok (Some (i, n)) else Ok None
  | None => Ok None
  end.

Definition getFile (nodes : list node) (name : string) : result (option (nat * node)) :=
  r ← getNode nodes name;
  match r with
  | Some (i, n) => if isFile n then Ok (Some (i, n)) else Ok None
  | None => Ok None
  end.

Definition Add (nodes : list node) (n : node) : result (list node) :=
  b ← HasNode nodes (getName n);
  assertR (negb b);;
  Ok (nodes ++ [n]).

(** The constructors copy the name. *)
Definition new_Dir (name : string) (nodes : list node) : result node := s ← copy name; Ok (Dir s nodes).
Definition new_File (data size : Z) (name : string) : result node := s ← copy name; Ok (File s data size).

(** ** Paths *)
Definition kPathSep : Z := 47.

Definition IsAbsPath (path : string) : result bool := c ← at_ path 0; Ok (c =? kPathSep).
Definition IsRelPath (path : string) : result bool := b ← IsAbsPath path; Ok (negb b).

(** The loops remove a character per step; [path[0]] ends the program on an empty string. *)
Fixpoint lstrip_loop (fuel : nat) (should_strip : Z → bool) (path : string) : result string :=
  match fuel with
  | O => Fault NoFuel
  | S fuel =>
      c ← at_ path 0;
      if should_strip c then path ← erase_at path (begin_ path); lstrip_loop fuel should_strip path
      else Ok path
  end.

Definition InplaceLStrip (should_strip : Z → bool) (path : string) : result string :=
  if empty path then Ok path else lstrip_loop (S (Z.to_nat (size path))) should_strip path.

Fixpoint rstrip_loop (fuel : nat) (should_strip : Z → bool) (path : string) : result string :=
  match fuel with
  | O => Fault NoFuel
  | S fuel =>
      let it := end_ path - 1 in
      c ← deref path it;
      if negb (should_strip c) then Ok path
      else path ← erase_at path it; rstrip_loop fuel should_strip path
  end.

Definition InplaceRStrip (should_strip : Z → bool) (path : string) : result string :=
  if empty path then Ok path else rstrip_loop (S (Z.to_nat (size path))) should_strip path.

Definition is_dot_slash (path : string) : result bool :=
  if 2 <=? size path then
    c0 ← at_ path 0;
    if c0 =? 46 then c1 ← at_ path 1; Ok (c1 =? kPathSep) else Ok false
  else Ok false.

Definition is_root_path (path : string) : result bool :=
  if size path =? 1 then c ← at_ path 0; Ok (c =? kPathSep) else Ok false.

Definition CleanPath (path : string) : result string :=
  path ← InplaceLStrip LibcString.isspace path;
  b ← is_dot_slash path;
  path ← (if (b : bool) then erase path 0 2 else Ok path);
  path ← InplaceRStrip LibcString.isspace path;
  b ← is_root_path path;
  if (b : bool) then Ok path else InplaceRStrip (λ c, c =? kPathSep) path.

(** ** Building the tree *)

(** [NodeBuilder::ParsePathRelative]; [mk] is the constructor of the node at the end of the
    path.  Every step takes at least a character off the path. *)
Fixpoint parse_path (fuel : nat) (mk : string → result node) (path : string) (cwd : list node) :
    result (list node) :=
  match fuel with
  | O => Fault NoFuel
  | S fuel =>
      rel ← IsRelPath path; assertR rel;;
      e ← deref path (end_ path); assertR (negb (e =? kPathSep));;
      c ← at_ path 0; assertR (negb (LibcString.isspace c));;
      e ← deref path (end_ path); assertR (negb (LibcString.isspace e));;
      assertR (negb (empty path));;
      path_sep_loc ← find path kPathSep 0;
      if path_sep_loc =? npos then n ← mk path; Add cwd n
      else
        dirname ← substr path 0 path_sep_loc;
        path ← erase path 0 (path_sep_loc + 1);
        existing ← getDir cwd dirname;
        match existing with
        | Some (i, existing_dir) =>
            if negb (empty path) then
              ns ← parse_path fuel mk path (children existing_dir);
              Ok (<[i := Dir (getName existing_dir) ns]> cwd)
            else Ok cwd
        | None =>
            dir ← new_Dir dirname [];
            ns ← (if negb (empty path) then parse_path fuel mk path (children dir) else Ok []);
            Add cwd (Dir (getName dir) ns)
        end
  end.

Definition ParsePathRelative (mk : string → result node) (path : string) (cwd : list node) : result (list node) :=
  parse_path (S (Z.to_nat (size path))) mk path cwd.

(** ** Looking up *)

(** [GetNodeFromRelPathImpl]: the position below [search_path], and the node. *)
Fixpoint rel_path_impl (fuel : nat) (path : string) (search_path : list node) :
    result (option (list nat * node)) :=
  match fuel with
  | O => Fault NoFuel
  | S fuel =>
      assertR (negb (empty path));;
      c ← at_ path 0; assertR (negb (c =? kPathSep));;
      e ← deref path (end_ path); assertR (negb (e =? kPathSep));;
      path_sep_loc ← find path kPathSep 0;
      if path_sep_loc =? npos then
        r ← getNode search_path path; Ok (here r)
      else
        dirname ← substr path 0 path_sep_loc;
        path ← erase path 0 (path_sep_loc + 1);
        existing ← getDir search_path dirname;
        match existing with
        | Some (i, existing_dir) =>
            r ← rel_path_impl fuel path (children existing_dir);
            Ok (below i r)
        | None => Ok None
        end
  end.

Definition GetNodeFromRelPathImpl (path : string) (search_path : list node) : result (option (list nat * node)) :=
  rel_path_impl (S (Z.to_nat (size path))) path search_path.

(** ** The process's file system *)
Record fs := FS {
  root : list node;          (* the nodes of the root directory, [GetGlobalFS()] *)
  cwd : list nat;            (* [GetCurrentDir()] *)
  path_env : option string   (* the variable [PATH] *)
}.

(** The node at a position; the root itself is at []. *)
Fixpoint node_at (nodes : list node) (pos : list nat) : option node :=
  match pos with
  | [] => None
  | i :: pos =>
      match nodes !! i with
      | Some n => match pos with [] => Some n | _ => node_at (children n) pos end
      | None => None
      end
  end.

(** The nodes of the directory at a position. *)
Definition dir_nodes (f : fs) (pos : list nat) : list node :=
  match pos with
  | [] => root f
  | _ => match node_at (root f) pos with Some n => children n | None => [] end
  end.

Definition is_dir_at (f : fs) (pos : list nat) : bool :=
  match pos with [] => true | _ => match node_at (root f) pos with Some n => isDir n | None => false end end.

(** [PathEnvIterator]: [start] is [search_start_]. *)
Definition kPathEnvSep : Z := 58.
Definition ReachedEnd (path : string) (start : Z) : bool := size path <=? start.
Definition iter_next (path : string) (start : Z) : result Z :=
  if negb (ReachedEnd path start) then find path kPathEnvSep start else Ok start.
Definition iter_get (path : string) (start : Z) : result string :=
  next_path_idx ← find path kPathEnvSep start;
  substr path start next_path_idx.

(** The loop over the directories of [PATH]; [dir_of] is [GetDirFromPathEnv]. *)
Fixpoint env_loop (fuel : nat) (dir_of : string → result (option (list nat))) (f : fs) (path env : string) (start : Z) :
    result (option (list nat)) :=
  match fuel with
  | O => Fault NoFuel
  | S fuel =>
      if ReachedEnd env start then Ok None
      else
        path_dir ← iter_get env start;
        dir ← dir_of path_dir;
        found ← match dir with
                | Some p =>
                    path_cpy ← copy path;
                    r ← GetNodeFromRelPathImpl path_cpy (dir_nodes f p);
                    Ok (match r with Some (q, _) => Some (p ++ q) | None => None end)
                | None => Ok None
                end;
        match found with
        | Some p => Ok (Some p)
        | None => start ← iter_next env start; env_loop fuel dir_of f path env start
        end
  end.

(** [GetNodeFromRelPath]; the position of a directory is never null here. *)
Definition GetNodeFromRelPath (dir_of : string → result (option (list nat))) (f : fs) (path : string)
    (dir : list nat) (search_path_env : bool) : result (option (list nat)) :=
  path ← copy path;
  path ← CleanPath path;
  found ← match (if search_path_env then path_env f else None) with
          | Some env => env_loop (S (Z.to_nat (size env))) dir_of f path env 0
          | None => Ok None
          end;
  match found with
  | Some p => Ok (Some p)
  | None =>
      r ← GetNodeFromRelPathImpl path (dir_nodes f dir);
      Ok (match r with Some (q, _) => Some (dir ++ q) | None => None end)
  end.

(** Without [search_path_env] the loop over [PATH] is not entered. *)
Definition no_dir (_ : string) : result (option (list nat)) := Ok None.

Definition GetNodeFromAbsPath (f : fs) (path : string) : result (option (list nat)) :=
  path ← copy path;
  path ← CleanPath path;
  abs ← IsAbsPath path;
  if negb abs then Ok None
  else
    b ← is_root_path path;
    if (b : bool) then Ok (Some [])
    else
      c ← at_ path 0; assertR (c =? kPathSep);;
      path ← erase path 0 1;
      GetNodeFromRelPath no_dir f path [] false.

Definition path_impl (dir_of : string → result (option (list nat))) (f : fs) (path : string) (search_path_env : bool) :
    result (option (list nat)) :=
  if empty path then Ok None
  else
    abs ← IsAbsPath path;
    if (abs : bool) then GetNodeFromAbsPath f path
    else GetNodeFromRelPath dir_of f path (cwd f) search_path_env.

Definition GetDirFromPathEnv (f : fs) (path : string) : result (option (list nat)) :=
  found ← path_impl no_dir f path false;
  Ok (match found with Some p => if is_dir_at f p then Some p else None | None => None end).

(** [GetNodeFromPathImpl] *)
Definition GetNodeFromPathImpl (f : fs) (path : string) (search_path_env : bool) : result (option (list nat)) :=
  path_impl (GetDirFromPathEnv f) f path search_path_env.

Definition GetNodeFromPath (f : fs) (path : string) : result (option (list nat)) := GetNodeFromPathImpl f path true.

(** ** Absolute paths *)
Definition slash : string := of_cstr [kPathSep].

(** [getAbsPath]; [rpos] is the position from the node up to the root. *)
Fixpoint abs_path_rev (f : fs) (rpos : list nat) : result string :=
  match rpos with
  | [] => copy slash
  | _ :: parent =>
      match node_at (root f) (rev rpos) with
      | None => Fault BadPointer
      | Some n =>
          match parent with
          | [] => append slash (getName n)
          | _ => p ← abs_path_rev f parent; s ← plus p slash; plus s (getName n)
          end
      end
  end.

Definition getAbsPath (f : fs) (pos : list nat) : result string := abs_path_rev f (rev pos).

(** ** Entries of the archive: the callbacks of [InitVFS] *)
Definition FullPath (prefix name : list Z) : result string := append (of_cstr prefix) (of_cstr name).

Definition add_entry (mk : string → result node) (prefix name : list Z) (root : list node) : result (list node) :=
  path ← FullPath prefix name;
  path ← CleanPath path;
  if empty path then Ok root else ParsePathRelative mk path root.

Definition dir_callback (prefix name : list Z) (root : list node) : result (list node) :=
  add_entry (λ path, new_Dir path []) prefix name root.

Definition file_callback (prefix name : list Z) (size data : Z) (root : list node) : result (list node) :=
  add_entry (new_File data size) prefix name root.

(** * The tree as a map from paths to nodes *)

(** The characters of a string. *)
Definition chars_of (s : string) : list Z := take (Z.to_nat (length_ s)) (CxxString.data_ s).

Lemma rep_chars_of s l : text s l → chars_of s = l.
Proof. intros [Hl [r Hr]]. unfold chars_of. by rewrite Hl, Hr, Nat2Z.id, take_app_length. Qed.

(** A name: not empty, no separator, no white space in front. *)
Definition good_name (c : list Z) : Prop :=
  (kPathSep ∉ c) ∧ ∃ x, head c = Some x ∧ LibcString.isspace x = false.

(** The path with these components. *)
Fixpoint join (cs : list (list Z)) : list Z :=
  match cs with
  | [] => []
  | [c] => c
  | c :: cs => c ++ kPathSep :: join cs
  end.

Definition name_of (n : node) : list Z := chars_of (getName n).

(** The index of the node with a name. *)
Fixpoint index_of (nodes : list node) (c : list Z) : option (nat * node) :=
  match nodes with
  | [] => None
  | n :: nodes => if decide (name_of n = c) then Some (0%nat, n)
                  else later (index_of nodes c)
  end.

(** Where the components lead to. *)
Fixpoint resolve (nodes : list node) (cs : list (list Z)) : option (list nat * node) :=
  match cs with
  | [] => None
  | [c] => here (index_of nodes c)
  | c :: cs =>
      match index_of nodes c with
      | Some (i, n) => if isDir n then below i (resolve (children n) cs) else None
      | None => None
      end
  end.

(** Names are strings with their terminating zero, good, and distinct within a directory. *)
Definition ok_name (n : node) : Prop := rep (getName n) (name_of n) ∧ good_name (name_of n).

Fixpoint wf_node (n : node) : Prop :=
  ok_name n ∧
  match n with
  | File _ _ _ => True
  | Dir _ ns => NoDup (name_of <$> ns) ∧ foldr and True (map wf_node ns)
  end.

Definition wf_nodes (ns : list node) : Prop := NoDup (name_of <$> ns) ∧ Forall wf_node ns.

Lemma wf_node_Dir s ns : wf_node (Dir s ns) ↔ ok_name (Dir s ns) ∧ wf_nodes ns.
Proof.
  unfold wf_nodes. cbn [wf_node].
  assert (foldr and True (map wf_node ns) ↔ Forall wf_node ns) as ->; [|done].
  induction ns as [|n ns IH]; simpl; [by split|]. rewrite Forall_cons, IH. done.
Qed.

Lemma wf_node_name n : wf_node n → ok_name n.
Proof. destruct n; intros [? ?]; done. Qed.

Lemma wf_children n : wf_node n → wf_nodes (children n).
Proof. destruct n as [|name ns]; [by repeat constructor|]. intros [_ H]%wf_node_Dir. done. Qed.

Lemma getNode_Ok ns name c :
  Forall wf_node ns → text name c → getNode ns name = Ok (index_of ns c).
Proof.
  intros H Hc. induction ns as [|n ns IH]; simpl; [done|]. apply Forall_cons in H as [Hn H].
  destruct (wf_node_name n Hn) as [Hr _].
  rewrite (eq_Ok _ _ (name_of n) c) by (done || by apply rep_text). simpl.
  case_bool_decide as E; [by rewrite decide_True|]. rewrite decide_False by done. by rewrite IH.
Qed.

Lemma getDir_Ok ns name c :
  Forall wf_node ns → text name c →
  getDir ns name = Ok (match index_of ns c with Some (i, n) => if isDir n then Some (i, n) else None | None => None end).
Proof.
  intros H Hc. unfold getDir. rewrite (getNode_Ok ns name c) by done. simpl.
  destruct (index_of ns c) as [[i n]|]; [|done]. by destruct (isDir n).
Qed.

Lemma index_of_Some ns c i n : index_of ns c = Some (i, n) → ns !! i = Some n ∧ name_of n = c.
Proof.
  revert i. induction ns as [|m ns IH]; intros i H; simpl in H; [done|].
  destruct (decide (name_of m = c)); [by simplify_eq|].
  destruct (index_of ns c) as [[j n']|]; [|done]. simpl in H. simplify_eq. by apply IH.
Qed.

Lemma index_of_None ns c : index_of ns c = None ↔ c ∉ name_of <$> ns.
Proof.
  induction ns as [|m ns IH]; simpl; [split; [intros _; apply not_elem_of_nil|done]|].
  rewrite not_elem_of_cons. destruct (decide (name_of m = c)) as [->|]; [naive_solver|].
  destruct (index_of ns c) as [[j n']|]; simpl; naive_solver.
Qed.

Lemma index_of_app ns n c :
  index_of (ns ++ [n]) c =
    match index_of ns c with
    | Some p => Some p
    | None => if decide (name_of n = c) then Some (length ns, n) else None
    end.
Proof.
  induction ns as [|m ns IH]; simpl; [by destruct (decide _)|].
  destruct (decide (name_of m = c)); [done|]. rewrite IH.
  destruct (index_of ns c) as [[j n']|]; simpl; [done|]. by destruct (decide _).
Qed.

Lemma index_of_insert ns c i n n' d :
  index_of ns c = Some (i, n) → name_of n' = c →
  index_of (<[i := n']> ns) d = if decide (d = c) then Some (i, n') else index_of ns d.
Proof.
  intros H Hn'. revert i H. induction ns as [|m ns IH]; intros i H; simpl in H; [done|].
  destruct (decide (name_of m = c)) as [Hm|Hm].
  - injection H as <- <-. simpl. repeat case_decide; congruence.
  - destruct (index_of ns c) as [[j n0]|] eqn:E; [|done]. injection H as <- <-. simpl.
    rewrite (IH j eq_refl). repeat case_decide; simpl; congruence.
Qed.

(** ** One step along a path *)
Lemma good_name_nil : ¬ good_name [].
Proof. intros [_ (x & H & _)]. done. Qed.

Lemma join_cons c cs : cs ≠ [] → join (c :: cs) = c ++ kPathSep :: join cs.
Proof. by destruct cs. Qed.

Lemma find_sep_none c : kPathSep ∉ c → list_find (kPathSep =.) c = None.
Proof. intros H. apply list_find_None, Forall_forall. intros x Hx Hk. apply H. by rewrite Hk. Qed.

Lemma find_sep_some c l : kPathSep ∉ c → list_find (kPathSep =.) (c ++ kPathSep :: l) = Some (length c, kPathSep).
Proof.
  intros H. apply list_find_Some. split_and!; [by rewrite list_lookup_middle|done|].
  intros j y Hj Hlt Hk. rewrite lookup_app_l in Hj by done. apply H. rewrite Hk. by eapply list_elem_of_lookup_2.
Qed.

(** What both walks see of a path whose first component is [c]. *)
Lemma path_step path c cs :
  rep path (join (c :: cs)) → good_name c → Z.of_nat (length (join (c :: cs))) < npos →
  (∃ x, at_ path 0 = Ok x ∧ x ≠ kPathSep ∧ LibcString.isspace x = false) ∧
  deref path (end_ path) = Ok 0 ∧ empty path = false ∧
  match cs with
  | [] => find path kPathSep 0 = Ok npos
  | _ => find path kPathSep 0 = Ok (Z.of_nat (length c)) ∧
         (∃ d, substr path 0 (Z.of_nat (length c)) = Ok d ∧ rep d c) ∧
         (∃ p', erase path 0 (Z.of_nat (length c) + 1) = Ok p' ∧ rep p' (join cs))
  end.
Proof.
  intros H [Hc (x & Hx & Hs)] Hb. pose proof (rep_text _ _ H) as Ht. pose proof H as [Hl [r Hr]].
  assert (Hhd : join (c :: cs) !! 0%nat = Some x).
  { destruct c as [|y c]; [done|]. simpl in Hx. simplify_eq. by destruct cs. }
  assert (Hpos : (0 < length (join (c :: cs)))%nat) by (by eapply lookup_lt_Some).
  split_and!.
  - exists x. split_and!; [by eapply at_Ok| |done]. intros ->. apply Hc.
    destruct c; simplify_eq/=. by left.
  - unfold deref, end_, aread. rewrite Hl, Hr, nthZ_lookup, Nat2Z.id by lia. by rewrite list_lookup_middle.
  - unfold empty. rewrite Hl. apply Z.eqb_neq. lia.
  - unfold npos in Hb. pose proof (str_find_Ok _ _ kPathSep 0 Ht ltac:(lia) ltac:(lia)) as Hf.
    rewrite drop_0 in Hf. destruct cs as [|c' cs]; [by rewrite Hf, find_sep_none|].
    rewrite join_cons in * by done. rewrite find_sep_some in Hf by done. rewrite length_app in Hpos, Hb.
    simpl in Hb. split_and!; [done| |].
    + destruct (substr_Ok path _ 0 (Z.of_nat (length c)) Ht) as (d & Hd & Hrd); [lia|lia|].
      rewrite Nat2Z.id, drop_0, take_app_length in Hrd. eauto.
    + destruct (str_erase_Ok path _ 0 (Z.of_nat (length c) + 1) Ht) as (p' & Hp & Hrp).
      { rewrite length_app. simpl. lia. } { lia. }
      rewrite take_0 in Hrp. replace (Z.to_nat _) with (length c + 1)%nat in Hrp by lia.
      rewrite drop_app_add in Hrp. eauto.
Qed.

(** ** Looking up *)
Lemma join_length c cs : (length (join cs) < length (join (c :: cs)) ∨ cs = [])%nat.
Proof. destruct cs; [by right|left]. rewrite (join_cons c), length_app by done. simpl. lia. Qed.

Lemma rel_path_impl_Ok fuel : ∀ path nodes cs,
  rep path (join cs) → cs ≠ [] → Forall good_name cs → Z.of_nat (length (join cs)) < npos →
  (length (join cs) < fuel)%nat → Forall wf_node nodes →
  rel_path_impl fuel path nodes = Ok (resolve nodes cs).
Proof.
  induction fuel as [|fuel IH]; intros path nodes cs H Hne Hg Hb Hf Hw; [lia|].
  destruct cs as [|c cs]; [done|]. apply Forall_cons in Hg as [Hc Hg].
  destruct (path_step path c cs H Hc Hb) as ((x & Hx & Hsep & Hsp) & He & Hem & Hrest).
  cbn [rel_path_impl]. rewrite Hem. simpl. rewrite Hx. simpl. rewrite (proj2 (Z.eqb_neq _ _) Hsep). simpl.
  rewrite He. simpl. destruct cs as [|c' cs].
  - rewrite Hrest. simpl. by rewrite (getNode_Ok nodes path c) by (done || by apply rep_text).
  - destruct Hrest as (Hfind & (d & Hd & Hrd) & (p' & Hp & Hrp)). rewrite Hfind. simpl.
    rewrite (join_cons c), length_app in Hb, Hf by done. cbn [length] in Hb, Hf.
    rewrite (proj2 (Z.eqb_neq _ _)) by lia.
    rewrite Hd. simpl. rewrite Hp. simpl. rewrite (getDir_Ok nodes d c) by (done || by apply rep_text). simpl.
    destruct (index_of nodes c) as [[i n]|] eqn:E; [|done]. destruct (isDir n); [|done].
    rewrite (IH p' (children n) (c' :: cs)); [done|done|done|done|lia|lia|].
    apply index_of_Some in E as [Hi _]. apply wf_children. eapply Forall_lookup_1; done.
Qed.

(** ** The kinds of nodes a path can lead to *)
Inductive kind := KFile (data size : Z) | KDir.

Definition kind_of (n : node) : kind := match n with File _ d s => KFile d s | Dir _ _ => KDir end.

Definition kind_at (nodes : list node) (ds : list (list Z)) : option kind :=
  match resolve nodes ds with Some (_, n) => Some (kind_of n) | None => None end.

Definition kind_in (n : node) (ds : list (list Z)) : option kind :=
  match ds with [] => Some (kind_of n) | _ => kind_at (children n) ds end.

Lemma kind_at_nil ds : kind_at [] ds = None.
Proof. by destruct ds as [|d [|d' ds]]. Qed.

Lemma kind_at_cons nodes d ds :
  kind_at nodes (d :: ds) = match index_of nodes d with Some (_, n) => kind_in n ds | None => None end.
Proof.
  unfold kind_in. destruct ds as [|d' ds].
  - unfold kind_at. simpl. by destruct (index_of nodes d) as [[]|].
  - unfold kind_at at 1. change (resolve nodes (d :: d' :: ds)) with
      (match index_of nodes d with
       | Some (i, n) => if isDir n then below i (resolve (children n) (d' :: ds)) else None
       | None => None
       end).
    destruct (index_of nodes d) as [[i [name da sz|name ns]]|]; cbn [isDir isFile negb children]; [|by unfold kind_at; destruct (resolve _ _) as [[]|]|done].
    by rewrite kind_at_nil.
Qed.

(** A path can be added if it leads through directories to a name that is not taken. *)
Fixpoint can_insert (nodes : list node) (cs : list (list Z)) : bool :=
  match cs with
  | [] => false
  | c :: cs =>
      match index_of nodes c with
      | None => true
      | Some (_, n) => isDir n && can_insert (children n) cs
      end
  end.

#[global] Arguments can_insert : simpl never.

Lemma can_insert_cons nodes c cs :
  can_insert nodes (c :: cs) =
    match index_of nodes c with None => true | Some (_, n) => isDir n && can_insert (children n) cs end.
Proof. done. Qed.

(** What the tree says after [cs] was added. *)
Definition kind_after (nodes : list node) (cs : list (list Z)) (k : kind) (ds : list (list Z)) : option kind :=
  if decide (ds = cs) then Some k
  else if decide (ds ≠ [] ∧ ds `prefix_of` cs) then Some KDir
  else kind_at nodes ds.

Lemma kind_after_cons nodes c cs k d ds :
  kind_after nodes (c :: cs) k (d :: ds) =
    if decide (d = c) then
      if decide (ds = cs) then Some k
      else if decide (ds `prefix_of` cs) then Some KDir else kind_at nodes (d :: ds)
    else kind_at nodes (d :: ds).
Proof.
  unfold kind_after. destruct (decide (d = c)) as [->|Hd].
  - assert (c :: ds `prefix_of` c :: cs ↔ ds `prefix_of` cs) as Hp.
    { split; [apply prefix_cons_inv_2|apply prefix_cons]. }
    repeat case_decide; naive_solver.
  - rewrite decide_False by congruence. rewrite decide_False; [done|].
    intros [_ Hp]. by apply prefix_cons_inv_1 in Hp.
Qed.

(** Adding a node under a new name. *)
Lemma kind_at_added nodes n d ds :
  index_of nodes (name_of n) = None →
  kind_at (nodes ++ [n]) (d :: ds) = if decide (d = name_of n) then kind_in n ds else kind_at nodes (d :: ds).
Proof.
  intros H. rewrite !kind_at_cons, index_of_app. destruct (decide (d = name_of n)) as [->|Hne].
  - by rewrite H, decide_True.
  - destruct (index_of nodes d) as [[]|]; [done|]. by rewrite decide_False.
Qed.

Lemma kind_at_replaced nodes c i n n' d ds :
  index_of nodes c = Some (i, n) → name_of n' = c →
  kind_at (<[i := n']> nodes) (d :: ds) = if decide (d = c) then kind_in n' ds else kind_at nodes (d :: ds).
Proof.
  intros H Hn'. rewrite !kind_at_cons, (index_of_insert _ _ _ _ _ d H Hn'). by destruct (decide (d = c)).
Qed.

Lemma wf_nodes_app nodes n :
  wf_nodes nodes → wf_node n → index_of nodes (name_of n) = None → wf_nodes (nodes ++ [n]).
Proof.
  intros [Hd Hw] Hn Hi. split; [|by apply Forall_app; repeat constructor].
  rewrite fmap_app. apply NoDup_app. split_and!; [done| |apply NoDup_singleton].
  intros x Hx Hx'. simpl in Hx'. apply list_elem_of_singleton in Hx' as ->. by apply index_of_None in Hi.
Qed.

Lemma wf_nodes_replaced nodes i n n' :
  wf_nodes nodes → nodes !! i = Some n → name_of n' = name_of n → wf_node n' → wf_nodes (<[i := n']> nodes).
Proof.
  intros [Hd Hw] Hi Hn Hn'. split; [|by apply Forall_insert].
  rewrite list_fmap_insert, list_insert_id; [done|]. by rewrite Hn, list_lookup_fmap, Hi.
Qed.

Lemma Add_Ok nodes n :
  wf_nodes nodes → wf_node n →
  Add nodes n = if decide (index_of nodes (name_of n) = None) then Ok (nodes ++ [n]) else Fault AssertFailed.
Proof.
  intros [_ Hw] Hn. unfold Add, HasNode. destruct (wf_node_name n Hn) as [Hr _].
  rewrite (getNode_Ok nodes _ (name_of n)) by (done || by apply rep_text). simpl.
  by destruct (index_of nodes (name_of n)) as [p|].
Qed.

(** ** Adding *)

(** What [ParsePathRelative] needs of the constructor of the last node. *)
Definition builds (mk : string → result node) (k : kind) : Prop :=
  ∀ path c, rep path c → good_name c →
    ∃ n, mk path = Ok n ∧ name_of n = c ∧ wf_node n ∧ kind_of n = k ∧ children n = [].

Lemma kind_in_fresh n ds : children n = [] → kind_in n ds = if decide (ds = []) then Some (kind_of n) else None.
Proof. intros H. destruct ds as [|d ds]; simpl; [done|]. by rewrite H, kind_at_nil. Qed.

Lemma new_Dir_Ok name c : rep name c → good_name c → ∃ s, new_Dir name [] = Ok (Dir s []) ∧ rep s c ∧
  ∀ ns, wf_nodes ns → wf_node (Dir s ns) ∧ name_of (Dir s ns) = c.
Proof.
  intros H Hg. unfold new_Dir. destruct (copy_Ok name c (rep_text _ _ H)) as (s & -> & Hs). simpl.
  exists s. split_and!; [done|done|]. intros ns Hns.
  assert (Hc : chars_of s = c) by (by apply rep_chars_of, rep_text).
  split; [|done]. apply wf_node_Dir. split; [|done]. unfold ok_name, name_of. simpl. by rewrite Hc.
Qed.

(** A last component: the node is added to this directory. *)
Lemma add_last nodes n k c :
  wf_nodes nodes → wf_node n → name_of n = c → kind_of n = k → children n = [] → index_of nodes c = None →
  ∃ nodes', Add nodes n = Ok nodes' ∧ wf_nodes nodes' ∧ ∀ ds, kind_at nodes' ds = kind_after nodes [c] k ds.
Proof.
  intros Hw Hn <- <- Hch Hi. rewrite Add_Ok, decide_True by done. eexists. split; [done|]. split; [by apply wf_nodes_app|].
  intros [|d ds]; [done|]. rewrite kind_at_added, kind_after_cons by done.
  destruct (decide (d = name_of n)) as [->|]; [|done]. rewrite kind_in_fresh by done.
  destruct ds as [|d ds]; [by rewrite !decide_True by done|]. 
  rewrite kind_at_cons, Hi. repeat case_decide; try done. exfalso. by eapply prefix_nil_not.
Qed.

(** A directory whose new content is [ns]. *)
Lemma kind_at_dir nodes nodes' c cs k ns old :
  (∀ d ds, kind_at nodes' (d :: ds) = if decide (d = c) then kind_in (Dir old ns) ds else kind_at nodes (d :: ds)) →
  cs ≠ [] → (∀ ds, kind_at ns ds = kind_after (match index_of nodes c with Some (_, n) => children n | None => [] end) cs k ds) →
  (∀ i n, index_of nodes c = Some (i, n) → isDir n) →
  ∀ ds, kind_at nodes' ds = kind_after nodes (c :: cs) k ds.
Proof.
  intros Hat Hne Hns Hdir [|d ds]; [done|]. rewrite Hat, kind_after_cons. destruct (decide (d = c)) as [->|]; [|done].
  destruct ds as [|d' ds].
  - rewrite decide_False by (by intros <-). rewrite decide_True; [done|apply prefix_nil].
  - cbn [kind_in children]. rewrite Hns. unfold kind_after.
    destruct (decide (d' :: ds = cs)) as [|Hne1]; [done|].
    destruct (decide (d' :: ds `prefix_of` cs)) as [|Hne2]; [by rewrite decide_True|]. rewrite decide_False by tauto.
    rewrite (kind_at_cons nodes). destruct (index_of nodes c) as [[i n]|]; [done|by rewrite kind_at_nil].
Qed.

Lemma parse_path_Ok fuel mk k : ∀ path nodes cs,
  builds mk k → rep path (join cs) → cs ≠ [] → Forall good_name cs → Z.of_nat (length (join cs)) < npos →
  (length (join cs) < fuel)%nat → wf_nodes nodes →
  if can_insert nodes cs then
    ∃ nodes', parse_path fuel mk path nodes = Ok nodes' ∧ wf_nodes nodes' ∧
              ∀ ds, kind_at nodes' ds = kind_after nodes cs k ds
  else parse_path fuel mk path nodes = Fault AssertFailed.
Proof.
  intros path nodes cs Hmk. revert path nodes cs.
  induction fuel as [|fuel IH]; intros path nodes cs H Hne Hg Hb Hf Hw; [lia|].
  destruct cs as [|c cs]; [done|]. apply Forall_cons in Hg as [Hc Hg].
  destruct (path_step path c cs H Hc Hb) as ((x & Hx & Hsep & Hsp) & He & Hem & Hrest).
  cbn [parse_path]. rewrite can_insert_cons. unfold IsRelPath, IsAbsPath. rewrite Hx. simpl.
  rewrite (proj2 (Z.eqb_neq _ _) Hsep). simpl. rewrite He. simpl. rewrite Hsp. simpl. rewrite Hem. simpl.
  destruct cs as [|c' cs].
  - rewrite Hrest. simpl. destruct (Hmk path c H Hc) as (n & -> & Hn & Hwn & Hk & Hch). simpl.
    destruct (index_of nodes c) as [[i n']|] eqn:E.
    + change (can_insert (children n') []) with false. rewrite andb_false_r. rewrite Add_Ok, Hn, E by done. done.
    + by apply (add_last nodes n).
  - destruct Hrest as (Hfind & (d & Hd & Hrd) & (p' & Hp & Hrp)). rewrite Hfind. simpl.
    rewrite (join_cons c), length_app in Hb, Hf by done. cbn [length] in Hb, Hf.
    rewrite (proj2 (Z.eqb_neq _ _)) by lia. rewrite Hd. simpl. rewrite Hp. simpl.
    rewrite (getDir_Ok nodes d c) by (apply Hw || by apply rep_text). simpl.
    assert (Hem' : empty p' = false).
    { unfold empty. destruct Hrp as [-> _]. apply Z.eqb_neq. apply Forall_cons in Hg as [[_ (y & Hy & _)] _].
      destruct c'; [done|]. destruct cs; simpl; lia. }
    rewrite Hem'. simpl. destruct (index_of nodes c) as [[i n]|] eqn:E.
    + pose proof (index_of_Some _ _ _ _ E) as [Hi Hname]. assert (Hwn : wf_node n) by (eapply Forall_lookup_1; [apply Hw|done]).
      destruct (isDir n) eqn:Edir; simpl.
      * specialize (IH p' (children n) (c' :: cs) Hrp ltac:(done) Hg ltac:(lia) ltac:(lia) (wf_children _ Hwn)).
        destruct (can_insert (children n) (c' :: cs)); [|by rewrite IH].
        destruct IH as (ns & -> & Hns & Hk). simpl. eexists. split; [done|].
        assert (Hn' : name_of (Dir (getName n) ns) = c) by done.
        split.
        -- eapply wf_nodes_replaced; [done|done|by rewrite Hn'|]. apply wf_node_Dir. split; [|done].
           apply wf_node_name in Hwn. done.
        -- apply (kind_at_dir nodes _ c _ k ns (getName n)); [|done|by rewrite E|intros ? ? ?; simplify_eq; by rewrite Edir].
           intros d' ds. by apply (kind_at_replaced nodes c i n).
      * destruct (new_Dir_Ok d c Hrd Hc) as (s & -> & Hs & Hwd). simpl.
        specialize (IH p' [] (c' :: cs) Hrp ltac:(done) Hg ltac:(lia) ltac:(lia) ltac:(by repeat constructor)).
        rewrite can_insert_cons in IH. cbn [index_of] in IH. destruct IH as (ns & -> & Hns & Hk). simpl.
        destruct (Hwd ns Hns) as [Hwd' Hnm]. by rewrite Add_Ok, Hnm, E by done.
    + destruct (new_Dir_Ok d c Hrd Hc) as (s & -> & Hs & Hwd). simpl.
      specialize (IH p' [] (c' :: cs) Hrp ltac:(done) Hg ltac:(lia) ltac:(lia) ltac:(by repeat constructor)).
      rewrite can_insert_cons in IH. cbn [index_of] in IH. destruct IH as (ns & -> & Hns & Hk). simpl.
      destruct (Hwd ns Hns) as [Hwd' Hnm]. rewrite Add_Ok, Hnm, E by done. eexists. split; [done|].
      split; [apply wf_nodes_app; by rewrite ?Hnm|].
      apply (kind_at_dir nodes _ c _ k ns s); [|done|by rewrite E|by intros ? ? ?; simplify_eq].
      intros d' ds. rewrite kind_at_added; by rewrite Hnm.
Qed.

Lemma builds_dir : builds (λ path, new_Dir path []) KDir.
Proof.
  intros path c H Hg. destruct (new_Dir_Ok path c H Hg) as (s & R & _ & Hw). exists (Dir s []).
  destruct (Hw [] ltac:(by repeat constructor)). done.
Qed.

Lemma builds_file data size : builds (new_File data size) (KFile data size).
Proof.
  intros path c H Hg. unfold new_File. destruct (copy_Ok path c (rep_text _ _ H)) as (s & -> & Hs). simpl.
  eexists. split; [done|]. assert (Hc : chars_of s = c) by (by apply rep_chars_of, rep_text).
  refine (conj Hc (conj _ (conj eq_refl eq_refl))). split; [|done]. unfold ok_name, name_of. simpl. by rewrite Hc.
Qed.

(** ** Cleaning *)
Section Strip.
Context (strip : Z → bool).

Lemma lstrip_loop_Ok x l : strip x = false → ∀ ws fuel path,
  Forall (λ c, strip c = true) ws → rep path (ws ++ x :: l) → (length ws < fuel)%nat →
  ∃ p, lstrip_loop fuel strip path = Ok p ∧ rep p (x :: l).
Proof using Type.
  intros Hx ws. induction ws as [|w ws IH]; intros fuel path Hw H Hf; (destruct fuel as [|fuel]; simpl in Hf; [lia|]);
    cbn [lstrip_loop].
  - rewrite (at_Ok path _ 0 x (rep_text _ _ H)) by done. simpl. rewrite Hx. eauto.
  - apply Forall_cons in Hw as [Hw0 Hw]. rewrite (at_Ok path _ 0 w (rep_text _ _ H)) by done. simpl. rewrite Hw0.
    destruct (erase_range_Ok path _ 0 1 (rep_text _ _ H)) as (p1 & R & H1); [simpl; lia|lia|].
    unfold erase_at, begin_. change (0 + 1) with 1. rewrite R. simpl. simpl in H1. rewrite drop_0 in H1.
    apply (IH fuel p1); [done|done|lia].
Qed.

Lemma rstrip_loop_Ok x l : strip x = false → ∀ ws fuel path,
  Forall (λ c, strip c = true) ws → rep path (l ++ x :: ws) → (length ws < fuel)%nat →
  ∃ p, rstrip_loop fuel strip path = Ok p ∧ rep p (l ++ [x]).
Proof using Type.
  intros Hx ws. induction ws as [|w ws IH] using rev_ind; intros fuel path Hw H Hf;
    (destruct fuel as [|fuel]; [lia|]); cbn [rstrip_loop]; pose proof H as [Hl _]; unfold end_; rewrite Hl, length_app.
  - simpl. rewrite (str_deref_Ok path _ _ x (rep_text _ _ H)); [|lia|].
    + simpl. rewrite Hx. eauto.
    + replace (Z.to_nat _) with (length l) by lia. by rewrite list_lookup_middle.
  - apply Forall_app in Hw as [Hw Hw0]. apply Forall_cons in Hw0 as [Hw0 _]. rewrite length_app in Hf. simpl in Hf.
    replace (Z.of_nat (length l + length (x :: ws ++ [w])) - 1) with (Z.of_nat (length (l ++ x :: ws)))
      by (rewrite length_app; simpl; rewrite length_app; simpl; lia).
    replace (l ++ x :: ws ++ [w]) with ((l ++ x :: ws) ++ [w]) in H by (by rewrite <- app_assoc).
    rewrite (str_deref_Ok path _ _ w (rep_text _ _ H)); [|lia|by rewrite Nat2Z.id, list_lookup_middle].
    simpl. rewrite Hw0. simpl. unfold erase_at.
    destruct (erase_range_Ok path _ (Z.of_nat (length (l ++ x :: ws))) (Z.of_nat (length (l ++ x :: ws)) + 1) (rep_text _ _ H))
      as (p1 & R & H1); [rewrite (length_app _ [w]); simpl; lia|lia|].
    rewrite R. simpl. rewrite Nat2Z.id, take_app_length, drop_ge, app_nil_r in H1 by (rewrite (length_app _ [w]); simpl; lia).
    apply (IH fuel p1); [done|done|lia].
Qed.

Lemma InplaceLStrip_Ok x l ws path :
  strip x = false → Forall (λ c, strip c = true) ws → rep path (ws ++ x :: l) →
  ∃ p, InplaceLStrip strip path = Ok p ∧ rep p (x :: l).
Proof using Type.
  intros Hx Hw H. pose proof H as [Hl _]. unfold InplaceLStrip, empty, size. rewrite Hl, length_app. cbn [length].
  rewrite (proj2 (Z.eqb_neq _ _)) by lia. apply (lstrip_loop_Ok x l Hx ws); [done|done|lia].
Qed.

Lemma InplaceRStrip_Ok x l ws path :
  strip x = false → Forall (λ c, strip c = true) ws → rep path (l ++ x :: ws) →
  ∃ p, InplaceRStrip strip path = Ok p ∧ rep p (l ++ [x]).
Proof using Type.
  intros Hx Hw H. pose proof H as [Hl _]. unfold InplaceRStrip, empty, size. rewrite Hl, length_app. cbn [length].
  rewrite (proj2 (Z.eqb_neq _ _)) by lia. apply (rstrip_loop_Ok x l Hx ws); [done|done|lia].
Qed.
End Strip.

Lemma is_dot_slash_Ok path l :
  rep path l → is_dot_slash path = Ok (bool_decide (take 2 l = [46; kPathSep])).
Proof.
  intros H. pose proof H as [Hl _]. pose proof (rep_text _ _ H) as Ht. unfold is_dot_slash, size. rewrite Hl.
  destruct l as [|a [|b l]]; [done|by rewrite bool_decide_false|]. rewrite (proj2 (Z.leb_le _ _)) by (simpl; lia).
  rewrite (at_Ok path _ 0 a Ht), (at_Ok path _ 1 b Ht) by done. simpl.
  destruct (Z.eqb_spec a 46) as [->|]; simpl.
  - f_equal. destruct (Z.eqb_spec b kPathSep) as [->|]; [by rewrite bool_decide_true|].
    rewrite bool_decide_false; [done|]. congruence.
  - rewrite bool_decide_false; [done|]. congruence.
Qed.

Lemma is_root_path_Ok path l : rep path l → is_root_path path = Ok (bool_decide (l = [kPathSep])).
Proof.
  intros H. pose proof H as [Hl _]. pose proof (rep_text _ _ H) as Ht. unfold is_root_path, size. rewrite Hl.
  destruct l as [|a [|b l]]; [done| |].
  - simpl. rewrite (at_Ok path _ 0 a Ht) by done. simpl. f_equal.
    destruct (Z.eqb_spec a kPathSep) as [->|]; [by rewrite bool_decide_true|].
    rewrite bool_decide_false; [done|]. congruence.
  - rewrite (proj2 (Z.eqb_neq _ _)) by (simpl; lia). by rewrite bool_decide_false.
Qed.

(** A path proper: no white space and no separator at either end of interest. *)
Definition clean (l : list Z) : Prop :=
  (∃ x, head l = Some x ∧ LibcString.isspace x = false) ∧
  (∃ y, last l = Some y ∧ LibcString.isspace y = false ∧ y ≠ kPathSep).

Lemma clean_ends l : clean l → ∃ a x b y, l = x :: a ∧ l = b ++ [y] ∧
  LibcString.isspace x = false ∧ LibcString.isspace y = false ∧ y ≠ kPathSep.
Proof.
  intros [(x & Hx & Hs) (y & Hy & Hs' & Hn)]. destruct l as [|x' a]; [done|]. simpl in Hx. simplify_eq.
  apply last_Some in Hy as [b Hb]. by exists a, x, b, y.
Qed.

(** What is left of [./] is empty. *)
Lemma CleanPath_root path : rep path [46; kPathSep] → ∃ p, CleanPath path = Ok p ∧ empty p = true.
Proof.
  intros H. unfold CleanPath. destruct (InplaceLStrip_Ok LibcString.isspace 46 [kPathSep] [] path) as (p1 & -> & H1); [done|constructor|exact H|].
  simpl. rewrite (is_dot_slash_Ok p1 _ H1). simpl.
  destruct (str_erase_Ok p1 _ 0 2 (rep_text _ _ H1)) as (p2 & -> & H2); [simpl; lia|lia|]. simpl in H2 |- *.
  assert (E : empty p2 = true) by (unfold empty; by rewrite (proj1 H2)).
  unfold InplaceRStrip. rewrite E. simpl. rewrite (is_root_path_Ok p2 _ H2). simpl. rewrite E. by exists p2.
Qed.

(** What [CleanPath] makes of a path with white space around it, [./] in front of it and
    separators after it. *)
Lemma CleanPath_Ok path ws dot l seps ws' :
  Forall (λ c, LibcString.isspace c = true) ws → Forall (λ c, LibcString.isspace c = true) ws' →
  Forall (λ c, (c =? kPathSep) = true) seps → clean l →
  (dot = [46; kPathSep] ∨ dot = [] ∧ take 2 (l ++ seps ++ ws') ≠ [46; kPathSep]) →
  rep path (ws ++ dot ++ l ++ seps ++ ws') →
  ∃ p, CleanPath path = Ok p ∧ rep p l.
Proof.
  intros Hws Hws' Hsep Hl Hdot H. destruct (clean_ends l Hl) as (a & x & b & y & Ea & Eb & Hx & Hy & Hn).
  assert (∃ x0 l0, dot ++ l ++ seps ++ ws' = x0 :: l0 ∧ LibcString.isspace x0 = false) as (x0 & l0 & E0 & Hx0).
  { destruct Hdot as [->|[-> _]]; [by eexists _, _|]. rewrite Ea. by eexists _, _. }
  unfold CleanPath. rewrite E0 in H. destruct (InplaceLStrip_Ok _ x0 l0 ws path Hx0 Hws H) as (p1 & -> & H1). simpl.
  rewrite (is_dot_slash_Ok p1 _ H1), <- E0. simpl.
  assert (∃ p2, (if bool_decide (take 2 (dot ++ l ++ seps ++ ws') = [46; kPathSep]) then erase p1 0 2 else Ok p1) = Ok p2 ∧
                rep p2 (l ++ seps ++ ws')) as (p2 & -> & H2).
  { rewrite <- E0 in H1. destruct Hdot as [->|[-> Hnd]].
    - rewrite bool_decide_true by done.
      destruct (str_erase_Ok p1 _ 0 2 (rep_text _ _ H1)) as (p2 & R & H2); [simpl; lia|lia|]. eauto.
    - rewrite bool_decide_false by done. eauto. }
  simpl. assert (∃ p3, InplaceRStrip LibcString.isspace p2 = Ok p3 ∧ rep p3 (l ++ seps)) as (p3 & -> & H3).
  { destruct seps as [|sep seps] using rev_ind.
    - rewrite Eb in H2 |- *. rewrite app_nil_r, <- app_assoc in *. by apply (InplaceRStrip_Ok _ y b ws').
    - apply Forall_app in Hsep as [_ [Hsep%Z.eqb_eq _]%Forall_cons]. subst sep.
      rewrite <- app_assoc, app_assoc in H2. rewrite app_assoc. by apply (InplaceRStrip_Ok _ kPathSep (l ++ seps) ws'). }
  simpl. rewrite (is_root_path_Ok p3 _ H3). simpl.
  destruct (bool_decide_reflect (l ++ seps = [kPathSep])) as [E|_].
  { exfalso. rewrite Eb in E. destruct b as [|b0 b]; simplify_eq/=. by destruct b. }
  rewrite Eb, <- app_assoc in H3. destruct (InplaceRStrip_Ok (λ c, c =? kPathSep) y b seps p3) as (p4 & R & H4).
  - by apply Z.eqb_neq.
  - done.
  - done.
  - exists p4. by rewrite Eb.
Qed.

(** ** Positions and names *)
Fixpoint names_at (nodes : list node) (pos : list nat) : option (list (list Z)) :=
  match pos with
  | [] => Some []
  | i :: pos =>
      match nodes !! i with
      | Some n => match names_at (children n) pos with Some cs => Some (name_of n :: cs) | None => None end
      | None => None
      end
  end.

Lemma index_of_lookup nodes i n :
  NoDup (name_of <$> nodes) → nodes !! i = Some n → index_of nodes (name_of n) = Some (i, n).
Proof.
  revert i. induction nodes as [|m nodes IH]; intros i Hd Hi; [done|]. simpl in Hd. apply NoDup_cons in Hd as [Hm Hd].
  destruct i as [|i]; simpl in Hi; simplify_eq; simpl; [by rewrite decide_True|].
  rewrite decide_False; [by rewrite (IH i)|]. intros E. apply Hm. rewrite E.
  apply list_elem_of_fmap. exists n. split; [done|]. by eapply list_elem_of_lookup_2.
Qed.

Lemma names_at_resolve pos : ∀ nodes cs,
  wf_nodes nodes → pos ≠ [] → names_at nodes pos = Some cs →
  cs ≠ [] ∧ Forall good_name cs ∧ ∃ n, wf_node n ∧ node_at nodes pos = Some n ∧ resolve nodes cs = Some (pos, n).
Proof.
  induction pos as [|i pos IH]; intros nodes cs Hw Hne H; [done|]. cbn [names_at node_at] in *.
  destruct (nodes !! i) as [n|] eqn:Hi; [|done]. destruct Hw as [Hd Hw].
  assert (Hn : wf_node n) by (by eapply Forall_lookup_1).
  destruct (names_at (children n) pos) as [cs'|] eqn:E; [|done]. injection H as <-.
  pose proof (index_of_lookup nodes i n Hd Hi) as Hidx. destruct (wf_node_name n Hn) as [_ Hg]. split; [done|].
  destruct pos as [|j pos].
  - simpl in E. simplify_eq. split; [by apply Forall_singleton|]. exists n. simpl. by rewrite Hidx.
  - destruct (IH (children n) cs' (wf_children n Hn) ltac:(done) E) as (Hcs & Hgs & n' & Hn' & Hat & Hr).
    split; [by constructor|]. exists n'. split_and!; [done|done|].
    destruct n as [|name ns]; [done|].
    destruct cs' as [|c cs']; [done|].
    change (resolve nodes (name_of (Dir name ns) :: c :: cs')) with
      (match index_of nodes (name_of (Dir name ns)) with
       | Some (i, n) => if isDir n then below i (resolve (children n) (c :: cs')) else None
       | None => None
       end).
    rewrite Hidx. cbn [isDir isFile negb]. by rewrite Hr.
Qed.

Lemma names_at_snoc pos i : ∀ nodes cs,
  names_at nodes (pos ++ [i]) = Some cs →
  ∃ cs0 n, cs = cs0 ++ [name_of n] ∧ names_at nodes pos = Some cs0 ∧ node_at nodes (pos ++ [i]) = Some n.
Proof.
  induction pos as [|j pos IH]; intros nodes cs H; cbn [app names_at node_at] in *.
  - destruct (nodes !! i) as [n|]; [|done]. simplify_eq. by exists [], n.
  - destruct (nodes !! j) as [m|]; [|done].
    destruct (names_at (children m) (pos ++ [i])) as [cs'|] eqn:E; [|done]. simplify_eq.
    destruct (IH (children m) cs' E) as (cs0 & n & -> & -> & Hat). exists (name_of m :: cs0), n.
    split_and!; [done|done|]. by destruct (pos ++ [i]) eqn:Ep; [destruct pos|].
Qed.

Lemma join_snoc cs c : cs ≠ [] → join (cs ++ [c]) = join cs ++ kPathSep :: c.
Proof.
  induction cs as [|d cs IH]; intros H; [done|]. destruct cs as [|e cs]; [done|]. cbn [app].
  rewrite (join_cons d (e :: cs ++ [c])), (join_cons d (e :: cs)) by done. cbn [app] in IH. by rewrite IH, <- app_assoc by done.
Qed.

Lemma getAbsPath_Ok f pos : ∀ cs,
  wf_nodes (root f) → pos ≠ [] → names_at (root f) pos = Some cs → Z.of_nat (length (join cs)) + 1 < 2 ^ 32 →
  ∃ s, getAbsPath f pos = Ok s ∧ rep s (kPathSep :: join cs).
Proof.
  unfold getAbsPath. induction pos as [|i pos IH] using rev_ind; intros cs Hw Hne H Hb; [done|].
  destruct (names_at_snoc pos i _ _ H) as (cs0 & n & -> & H0 & Hat).
  destruct (names_at_resolve _ _ _ Hw Hne H) as (_ & _ & n' & Hwn & Hat' & _). rewrite Hat in Hat'. simplify_eq.
  destruct (wf_node_name n' Hwn) as [Hr _]. rewrite rev_app_distr. cbn [rev app abs_path_rev].
  rewrite rev_involutive, Hat. destruct pos as [|j pos] using rev_ind.
  - simpl in H0. simplify_eq. simpl.
    apply (append_Ok slash (getName n') [kPathSep] (name_of n') (rep_text _ _ (of_cstr_rep _)) (rep_text _ _ Hr)).
    rewrite length_app. simpl in Hb |- *. lia.
  - clear IHpos. destruct (names_at_snoc pos j _ _ H0) as (cs1 & m & -> & _ & _).
    rewrite (join_snoc (cs1 ++ [name_of m])) in Hb |- * by (by destruct cs1). rewrite length_app in Hb. cbn [length] in Hb.
    destruct (IH (cs1 ++ [name_of m])) as (p & R & Hp); [done|by destruct pos|done|lia|].
    rewrite rev_app_distr in R |- *. cbn [rev app] in R |- *. rewrite R. simpl.
    destruct (plus_Ok p slash (kPathSep :: join (cs1 ++ [name_of m])) [kPathSep] (rep_text _ _ Hp) (rep_text _ _ (of_cstr_rep _)))
      as (s & -> & Hs); [rewrite length_app; simpl; lia|]. simpl.
    destruct (plus_Ok s (getName n') _ (name_of n') (rep_text _ _ Hs) (rep_text _ _ Hr)) as (s' & -> & Hs').
    { rewrite length_app, (length_app (kPathSep :: _)). simpl. lia. }
    exists s'. split; [done|]. by rewrite <- app_assoc in Hs'.
Qed.

(** ** Whole lookups *)
Lemma clean_unchanged path l :
  rep path l → clean l → take 2 l ≠ [46; kPathSep] → ∃ p, CleanPath path = Ok p ∧ rep p l.
Proof.
  intros H Hc Hd. apply (CleanPath_Ok path [] [] l [] []); [constructor..|done| |].
  - right. by rewrite !app_nil_r.
  - by rewrite !app_nil_r.
Qed.

Lemma GetNodeFromRelPathImpl_Ok path nodes cs :
  rep path (join cs) → cs ≠ [] → Forall good_name cs → Z.of_nat (length (join cs)) < npos → Forall wf_node nodes →
  GetNodeFromRelPathImpl path nodes = Ok (resolve nodes cs).
Proof.
  intros H Hne Hg Hb Hw. unfold GetNodeFromRelPathImpl. apply rel_path_impl_Ok; try done.
  destruct H as [Hl _]. unfold size. rewrite Hl. lia.
Qed.

Lemma GetNodeFromRelPath_root f path cs :
  rep path (join cs) → cs ≠ [] → Forall good_name cs → Z.of_nat (length (join cs)) < npos →
  Forall wf_node (root f) → clean (join cs) → take 2 (join cs) ≠ [46; kPathSep] →
  GetNodeFromRelPath no_dir f path [] false =
    Ok (match resolve (root f) cs with Some (p, _) => Some p | None => None end).
Proof.
  intros H Hne Hg Hb Hw Hc Hd. unfold GetNodeFromRelPath.
  destruct (copy_Ok path _ (rep_text _ _ H)) as (p1 & -> & H1). simpl.
  destruct (clean_unchanged p1 _ H1 Hc Hd) as (p2 & -> & H2). simpl.
  rewrite (GetNodeFromRelPathImpl_Ok p2 (root f) cs) by done. done.
Qed.

Lemma clean_abs l : clean l → clean (kPathSep :: l).
Proof.
  intros [(x & Hx & _) (y & Hy & H)]. split; [by exists kPathSep|]. exists y. split; [|done].
  destruct l; [done|]. done.
Qed.

Lemma GetNodeFromPath_abs f path cs :
  rep path (kPathSep :: join cs) → cs ≠ [] → Forall good_name cs → Z.of_nat (length (join cs)) < npos →
  Forall wf_node (root f) → clean (join cs) → take 2 (join cs) ≠ [46; kPathSep] →
  GetNodeFromPath f path = Ok (match resolve (root f) cs with Some (p, _) => Some p | None => None end).
Proof.
  intros H Hne Hg Hb Hw Hc Hd. unfold GetNodeFromPath, GetNodeFromPathImpl, path_impl. pose proof (rep_text _ _ H) as Ht.
  assert (He : empty path = false) by (unfold empty; rewrite (proj1 H); apply Z.eqb_neq; simpl; lia).
  rewrite He. unfold IsAbsPath at 1. rewrite (at_Ok path _ 0 kPathSep Ht) by done. simpl. unfold GetNodeFromAbsPath.
  destruct (copy_Ok path _ Ht) as (p1 & -> & H1). simpl.
  destruct (clean_unchanged p1 _ H1 (clean_abs _ Hc)) as (p2 & -> & H2); [done|]. simpl.
  pose proof (rep_text _ _ H2) as Ht2. unfold IsAbsPath. rewrite (at_Ok p2 _ 0 kPathSep Ht2) by done. simpl.
  rewrite (is_root_path_Ok p2 _ H2). simpl. rewrite bool_decide_false.
  2:{ intros E. simplify_eq. destruct Hc as [(x & Hx & _) _]. by rewrite E in Hx. }
  destruct (str_erase_Ok p2 _ 0 1 Ht2) as (p3 & -> & H3); [simpl; lia|lia|]. simpl in H3. rewrite drop_0 in H3. simpl.
  by apply GetNodeFromRelPath_root.
Qed.

Definition found_kind (r : option (list nat * node)) : option kind :=
  match r with Some (_, n) => Some (kind_of n) | None => None end.

Lemma lookup_kind path nodes ds :
  wf_nodes nodes → ds ≠ [] → Forall good_name ds → rep path (join ds) → Z.of_nat (length (join ds)) < npos →
  ∃ r, GetNodeFromRelPathImpl path nodes = Ok r ∧ found_kind r = kind_at nodes ds.
Proof.
  intros Hw Hds Hgs Hr Hlen. rewrite (GetNodeFromRelPathImpl_Ok path nodes ds) by (done || apply Hw).
  eexists. split; [done|]. unfold kind_at, found_kind. by destruct (resolve nodes ds) as [[]|].
Qed.

Lemma add_entry_Ok mk k nodes prefix name cs dot seps :
  builds mk k → wf_nodes nodes → cs ≠ [] → Forall good_name cs → clean (join cs) →
  Forall (λ c, (c =? kPathSep) = true) seps → prefix ++ name = dot ++ join cs ++ seps →
  (dot = [46; kPathSep] ∨ dot = [] ∧ take 2 (join cs ++ seps) ≠ [46; kPathSep]) →
  Z.of_nat (length (prefix ++ name)) < npos →
  if can_insert nodes cs then
    ∃ nodes', add_entry mk prefix name nodes = Ok nodes' ∧ wf_nodes nodes' ∧
      ∀ ds, kind_at nodes' ds = kind_after nodes cs k ds
  else add_entry mk prefix name nodes = Fault AssertFailed.
Proof.
  intros Hmk Hw Hne Hg Hc Hs Hp Hd Hb. unfold add_entry, FullPath.
  destruct (append_Ok (of_cstr prefix) (of_cstr name) prefix name) as (p1 & -> & H1);
    [apply rep_text, of_cstr_rep..|unfold npos in Hb; lia|]. simpl. rewrite Hp in H1, Hb. rewrite !length_app in Hb.
  destruct (CleanPath_Ok p1 [] dot (join cs) seps []) as (p2 & -> & H2); try done.
  { by rewrite app_nil_r. } { by rewrite app_nil_r. }
  assert (Hpos : (0 < length (join cs))%nat) by (destruct Hc as [(x & Hx & _) _]; destruct (join cs); simpl in *; [done|lia]).
  simpl. unfold empty. rewrite (proj1 H2), (proj2 (Z.eqb_neq _ _)) by lia. unfold ParsePathRelative, size. rewrite (proj1 H2).
  exact (parse_path_Ok (S (Z.to_nat (Z.of_nat (length (join cs))))) mk k p2 nodes cs Hmk H2 Hne Hg ltac:(lia) ltac:(lia) Hw).
Qed.

(** The entry [./] stands for the root. *)
Lemma add_entry_root mk prefix name nodes : prefix ++ name = [46; kPathSep] → add_entry mk prefix name nodes = Ok nodes.
Proof.
  intros Hp. unfold add_entry, FullPath.
  destruct (append_Ok (of_cstr prefix) (of_cstr name) prefix name) as (p1 & -> & H1);
    [apply rep_text, of_cstr_rep..|by rewrite Hp|]. simpl. rewrite Hp in H1.
  destruct (CleanPath_root p1 H1) as (p2 & -> & E). simpl. by rewrite E.
Qed.

(** ** Every way of writing a path *)
Definition all_spaces (l : list Z) : Prop := Forall (λ c, LibcString.isspace c = true) l.

(** The names [cs] with white space around them, possibly [./] in front and separators behind. *)
Definition written (cs : list (list Z)) (l : list Z) : Prop :=
  cs ≠ [] ∧ Forall good_name cs ∧ clean (join cs) ∧
  ∃ ws dot seps ws', all_spaces ws ∧ all_spaces ws' ∧ Forall (λ c, (c =? kPathSep) = true) seps ∧
    (dot = [46; kPathSep] ∨ dot = [] ∧ take 2 (join cs ++ seps ++ ws') ≠ [46; kPathSep]) ∧
    l = ws ++ dot ++ join cs ++ seps ++ ws'.

(** The characters of a path and what they say: whether the path starts at the root, and the
    names on it.  The empty path is the relative path without names. *)
Inductive spells : list Z → bool → list (list Z) → Prop :=
  | spells_nothing : spells [] false []
  | spells_root ws : all_spaces ws → spells (kPathSep :: ws) true []
  | spells_abs l cs : written cs l → spells (kPathSep :: l) true cs
  | spells_rel l cs : written cs l → spells l false cs.

(** The node that names lead to from a directory. *)
Definition walk (f : fs) (from : list nat) (cs : list (list Z)) : option (list nat) :=
  match resolve (dir_nodes f from) cs with Some (p, _) => Some (from ++ p) | None => None end.

Definition place (f : fs) (abs : bool) (cs : list (list Z)) : option (list nat) :=
  match cs with
  | [] => if abs then Some [] else None
  | _ => walk f (if abs then [] else cwd f) cs
  end.

(** Where a path leads to when [env] is the directory that PATH names: a relative path is
    looked up there first and in the working directory after that. *)
Definition destination (f : fs) (env : option (bool * list (list Z))) (abs : bool) (cs : list (list Z)) : option (list nat) :=
  match abs, cs, env with
  | false, _ :: _, Some (abs', ds) =>
      match place f abs' ds with
      | Some d => if is_dir_at f d then match walk f d cs with Some p => Some p | None => place f abs cs end
                  else place f abs cs
      | None => place f abs cs
      end
  | _, _, _ => place f abs cs
  end.

(** PATH is not set, or it names one directory. *)
Definition one_directory (path : option (list Z)) (env : option (bool * list (list Z))) : Prop :=
  match path, env with
  | None, None => True
  | Some l, Some (abs, ds) => spells l abs ds ∧ (kPathEnvSep ∉ l) ∧ Z.of_nat (length l) < npos
  | _, _ => False
  end.

Lemma written_CleanPath cs path l : written cs l → rep path l → ∃ p, CleanPath path = Ok p ∧ rep p (join cs).
Proof.
  intros (_ & _ & Hc & ws & dot & seps & ws' & Hws & Hws' & Hs & Hd & ->) H. exact (CleanPath_Ok path ws dot (join cs) seps ws' Hws Hws' Hs Hc Hd H).
Qed.

(** The first [CleanPath] of an absolute path leaves what is in front of the names. *)
Lemma written_CleanPath_abs cs path l : written cs l → rep path (kPathSep :: l) →
  ∃ p l', CleanPath path = Ok p ∧ rep p (kPathSep :: l') ∧ l' ≠ [] ∧ written cs l' ∧ (length l' ≤ length l)%nat.
Proof.
  intros (Hne & Hg & Hc & ws & dot & seps & ws' & Hws & Hws' & Hs & Hd & ->) H.
  assert (Hn : ws ++ dot ++ join cs ≠ []).
  { intros E. apply (f_equal length) in E. rewrite !length_app in E.
    destruct Hc as [(x & Hx & _) _]. destruct (join cs); [done|]. simpl in E. lia. }
  destruct (CleanPath_Ok path [] [] (kPathSep :: ws ++ dot ++ join cs) seps ws') as (p & R & Hp); try done.
  - split; [by exists kPathSep|]. destruct Hc as [_ (y & Hy & Hy')]. exists y. split; [|done].
    rewrite !app_comm_cons, !last_app, Hy. done.
  - by right.
  - by rewrite <- app_comm_cons, <- !app_assoc.
  - exists p, (ws ++ dot ++ join cs). split_and!; [done|done|done|..].
    + split_and!; [done|done|done|]. exists ws, dot, [], []. split_and!; [done|constructor|constructor| |by rewrite !app_nil_r].
      destruct Hd as [->|[-> Hd]]; [by left|right]. split; [done|]. rewrite !app_nil_r. intros E. apply Hd.
      destruct (join cs) as [|a [|b j]]; [done..|exact E].
    + rewrite !length_app. lia.
Qed.

Lemma wf_dir_nodes f pos : wf_nodes (root f) → wf_nodes (dir_nodes f pos).
Proof.
  intros Hw. unfold dir_nodes. destruct pos as [|i pos]; [done|].
  destruct (node_at (root f) (i :: pos)) as [n|] eqn:E; [|by repeat constructor].
  apply wf_children. clear -Hw E. revert Hw E. generalize (root f) as nodes. revert i.
  induction pos as [|j pos IH]; intros i nodes [_ Hw] E; cbn [node_at] in E;
    (destruct (nodes !! i) as [m|] eqn:Ei; [|done]); pose proof (Forall_lookup_1 _ _ _ _ Hw Ei) as Hm.
  - by simplify_eq.
  - by apply (IH j (children m)); [apply wf_children|].
Qed.

Lemma written_short cs l : written cs l → (length (join cs) ≤ length l)%nat.
Proof. intros (_ & _ & _ & ws & dot & seps & ws' & _ & _ & _ & _ & ->). rewrite !length_app. lia. Qed.

(** The lookup of names in one directory. *)
Lemma rel_walk f path from cs : rep path (join cs) → cs ≠ [] → Forall good_name cs →
  Z.of_nat (length (join cs)) < npos → wf_nodes (root f) →
  (r ← GetNodeFromRelPathImpl path (dir_nodes f from);
   Ok (match r with Some (q, _) => Some (from ++ q) | None => None end)) = Ok (walk f from cs).
Proof.
  intros H Hne Hg Hb Hw. rewrite (GetNodeFromRelPathImpl_Ok path _ cs) by (done || apply (wf_dir_nodes f from Hw)). done.
Qed.

(** A relative path when PATH is not searched. *)
Lemma GetNodeFromRelPath_plain dir_of f path l cs from b :
  written cs l → rep path l → Z.of_nat (length l) < npos → wf_nodes (root f) → (b = true → path_env f = None) →
  GetNodeFromRelPath dir_of f path from b = Ok (walk f from cs).
Proof.
  intros Hl H Hb Hw He. pose proof (written_short _ _ Hl). unfold GetNodeFromRelPath.
  destruct (copy_Ok path _ (rep_text _ _ H)) as (p1 & -> & H1). simpl.
  destruct (written_CleanPath cs p1 l Hl H1) as (p2 & -> & H2). simpl.
  assert ((if b then path_env f else None) = None) as -> by (destruct b; auto). simpl.
  apply rel_walk; [done|apply Hl|apply Hl|lia|done].
Qed.

(** The root's path with white space behind it. *)
Lemma CleanPath_spaces path ws : all_spaces ws → rep path (kPathSep :: ws) → ∃ p, CleanPath path = Ok p ∧ rep p [kPathSep].
Proof.
  intros Hws H. unfold CleanPath.
  destruct (InplaceLStrip_Ok LibcString.isspace kPathSep ws [] path) as (p1 & -> & H1); [done|constructor|done|]. simpl.
  rewrite (is_dot_slash_Ok p1 _ H1), bool_decide_false by (by destruct ws). simpl.
  destruct (InplaceRStrip_Ok LibcString.isspace kPathSep [] ws p1) as (p2 & -> & H2); [done..|]. simpl.
  rewrite (is_root_path_Ok p2 _ H2). simpl. by exists p2.
Qed.

Lemma GetNodeFromAbsPath_Ok f path l cs :
  spells l true cs → rep path l → Z.of_nat (length l) < npos → wf_nodes (root f) →
  GetNodeFromAbsPath f path = Ok (place f true cs).
Proof.
  intros Hl H Hb Hw. unfold GetNodeFromAbsPath. destruct (copy_Ok path _ (rep_text _ _ H)) as (p1 & -> & H1). simpl.
  inversion Hl as [|ws Hws|l0 cs0 Hw0|]; subst.
  - destruct (CleanPath_spaces p1 ws Hws H1) as (p2 & -> & H2). simpl. unfold IsAbsPath.
    rewrite (at_Ok p2 _ 0 kPathSep (rep_text _ _ H2)) by done. simpl. rewrite (is_root_path_Ok p2 _ H2). done.
  - destruct (written_CleanPath_abs cs p1 l0 Hw0 H1) as (p2 & l' & -> & H2 & Hne & Hw' & Hle). simpl.
    pose proof (rep_text _ _ H2) as Ht2. unfold IsAbsPath. rewrite (at_Ok p2 _ 0 kPathSep Ht2) by done. simpl.
    rewrite (is_root_path_Ok p2 _ H2), bool_decide_false by congruence. simpl.
    destruct (str_erase_Ok p2 _ 0 1 Ht2) as (p3 & -> & H3); [simpl; lia|lia|]. simpl in H3. rewrite drop_0 in H3. simpl in Hb |- *.
    rewrite (GetNodeFromRelPath_plain no_dir f p3 l' cs [] false) by (done || lia).
    destruct Hw' as [Hcs _]. by destruct cs.
Qed.

Lemma rel_first l cs : written cs l → ∃ x l', l = x :: l' ∧ (x =? kPathSep) = false.
Proof.
  intros (Hne & Hg & Hc & ws & dot & seps & ws' & Hws & _ & _ & Hd & ->). destruct ws as [|w ws].
  - destruct Hd as [->|[-> _]]; [by eexists _, _|]. destruct cs as [|c cs]; [done|].
    apply Forall_cons in Hg as [[Hs (x & Hx & _)] _]. destruct c as [|y c]; [done|]. simpl in Hx. simplify_eq.
    exists x. assert (Hxs : (x =? kPathSep) = false) by (apply Z.eqb_neq; set_solver).
    destruct cs; simpl; eexists; by split.
  - apply Forall_cons in Hws as [Hw _]. exists w. eexists. split; [done|]. apply Z.eqb_neq. by intros ->.
Qed.

(** A path that is not relative to PATH. *)
Lemma path_impl_plain dir_of f path l abs cs b :
  spells l abs cs → rep path l → Z.of_nat (length l) < npos → wf_nodes (root f) → (b = true → path_env f = None) →
  path_impl dir_of f path b = Ok (place f abs cs).
Proof.
  intros Hl H Hb Hw He. unfold path_impl, empty. rewrite (proj1 H). destruct l as [|x l0].
  - inversion Hl as [| | |l0 cs0 Hl0]; subst; [done|]. by destruct (rel_first [] cs Hl0) as (? & ? & ? & _).
  - rewrite (proj2 (Z.eqb_neq _ _)) by (simpl; lia). unfold IsAbsPath. rewrite (at_Ok path _ 0 x (rep_text _ _ H)) by done. simpl.
    destruct abs.
    + assert (x = kPathSep) as -> by (by inversion Hl). by apply (GetNodeFromAbsPath_Ok f path (kPathSep :: l0)).
    + inversion Hl as [| | |l1 cs0 Hl0]; subst. destruct (rel_first _ cs Hl0) as (? & ? & [= -> ->] & ->).
      rewrite (GetNodeFromRelPath_plain dir_of f path _ cs) by done. destruct Hl0 as [Hcs _]. by destruct cs.
Qed.

Lemma GetDirFromPathEnv_Ok f path l abs ds :
  spells l abs ds → rep path l → Z.of_nat (length l) < npos → wf_nodes (root f) →
  GetDirFromPathEnv f path = Ok (match place f abs ds with Some d => if is_dir_at f d then Some d else None | None => None end).
Proof. intros. unfold GetDirFromPathEnv. by rewrite (path_impl_plain no_dir f path l abs ds false). Qed.

(** The loop over a PATH of one directory ends after one turn. *)
Lemma env_loop_one f path cs env l abs ds :
  text env l → spells l abs ds → kPathEnvSep ∉ l → Z.of_nat (length l) < npos → wf_nodes (root f) →
  rep path (join cs) → cs ≠ [] → Forall good_name cs → Z.of_nat (length (join cs)) < npos →
  env_loop (S (Z.to_nat (size env))) (GetDirFromPathEnv f) f path env 0 =
    Ok (match place f abs ds with Some d => if is_dir_at f d then walk f d cs else None | None => None end).
Proof.
  intros Ht Hl Hno Hb Hw Hp Hne Hg Hbc. pose proof Ht as [Hlen _]. cbn [env_loop]. unfold ReachedEnd at 1, size at 1. rewrite Hlen.
  destruct (Z.leb_spec (Z.of_nat (length l)) 0) as [H0|H0].
  { destruct l; [|simpl in H0; lia]. inversion Hl as [| | |l0 cs0 Hl0]; subst; [done|].
    by destruct (rel_first [] ds Hl0) as (? & ? & ? & _). }
  assert (Hfind : find env kPathEnvSep 0 = Ok npos).
  { rewrite (str_find_Ok env l kPathEnvSep 0 Ht) by lia. change (Z.to_nat 0) with 0%nat. rewrite drop_0.
    destruct (list_find _ l) as [[i x]|] eqn:E; [|done]. apply list_find_Some in E as (Hi & <- & _).
    by apply list_elem_of_lookup_2 in Hi. }
  unfold iter_get. rewrite Hfind. simpl.
  destruct (substr_Ok env l 0 npos Ht) as (s & -> & Hs); [lia|done|]. simpl.
  change (Z.to_nat 0) with 0%nat in Hs. rewrite drop_0, take_ge in Hs by lia.
  rewrite (GetDirFromPathEnv_Ok f s l abs ds) by done. simpl.
  assert (Hnext : iter_next env 0 = Ok npos).
  { unfold iter_next, ReachedEnd, size. rewrite Hlen, (proj2 (Z.leb_gt _ _)) by lia. exact Hfind. }
  assert (Hend : ∀ fuel, env_loop (S fuel) (GetDirFromPathEnv f) f path env npos = Ok None).
  { intros fuel. cbn [env_loop]. unfold ReachedEnd, size. by rewrite Hlen, (proj2 (Z.leb_le _ _)) by lia. }
  destruct (Z.to_nat (size env)) as [|fuel] eqn:Ef; [unfold size in Ef; rewrite Hlen in Ef; lia|].
  destruct (place f abs ds) as [d|]; [|simpl; rewrite Hnext; simpl; apply Hend].
  destruct (is_dir_at f d); [|simpl; rewrite Hnext; simpl; apply Hend].
  destruct (copy_Ok path _ (rep_text _ _ Hp)) as (p1 & -> & H1). cbn [mbind result_bind].
  rewrite (GetNodeFromRelPathImpl_Ok p1 _ cs) by (done || apply (wf_dir_nodes f d Hw)). cbn [mbind result_bind]. unfold walk.
  destruct (resolve (dir_nodes f d) cs) as [[q ?]|]; [done|]. rewrite Hnext. cbn [mbind result_bind]. apply Hend.
Qed.

(** The lookup of every path that is spelled, with a PATH of at most one directory. *)
Lemma GetNodeFromPath_destination f path l abs cs penv env :
  spells l abs cs → rep path l → Z.of_nat (length l) < npos → wf_nodes (root f) →
  match path_env f, penv with Some s, Some l => text s l | None, None => True | _, _ => False end →
  one_directory penv env →
  GetNodeFromPath f path = Ok (destination f env abs cs).
Proof.
  intros Hl H Hb Hw Hpe Hone. unfold GetNodeFromPath, GetNodeFromPathImpl, destination.
  destruct (path_env f) as [s|] eqn:Es, penv as [le|]; try done.
  2:{ destruct env as [[]|]; [done|]. rewrite (path_impl_plain _ f path l abs cs) by done. by destruct abs, cs. }
  destruct env as [[abs' ds]|]; [|done]. destruct Hone as (Hle & Hno & Hlen).
  unfold path_impl, empty. rewrite (proj1 H). destruct l as [|x l0].
  { inversion Hl as [| | |l0 cs0 Hl0]; subst; [done|]. by destruct (rel_first [] cs Hl0) as (? & ? & ? & _). }
  rewrite (proj2 (Z.eqb_neq _ _)) by (simpl; lia). unfold IsAbsPath. rewrite (at_Ok path _ 0 x (rep_text _ _ H)) by done. simpl.
  destruct abs.
  { assert (x = kPathSep) as -> by (by inversion Hl). by apply (GetNodeFromAbsPath_Ok f path (kPathSep :: l0)). }
  inversion Hl as [| | |l1 cs0 Hl0]; subst. destruct (rel_first _ cs Hl0) as (? & ? & [= -> ->] & ->).
  pose proof (written_short _ _ Hl0). unfold GetNodeFromRelPath.
  destruct (copy_Ok path _ (rep_text _ _ H)) as (p1 & -> & H1). cbn [mbind result_bind].
  destruct (written_CleanPath cs p1 _ Hl0 H1) as (p2 & -> & H2). cbn [mbind result_bind]. rewrite Es.
  rewrite (env_loop_one f p2 cs s le abs' ds) by (done || apply Hl0 || lia). cbn [mbind result_bind].
  rewrite (rel_walk f p2 (cwd f) cs) by (done || apply Hl0 || lia).
  destruct Hl0 as [Hcs _]. destruct cs as [|c cs]; [done|]. cbn [place].
  destruct (place f abs' ds) as [d|]; [|done]. destruct (is_dir_at f d); [|done]. by destruct (walk f d _).
Qed.

(** * Properties *)

(** An entry of the archive appears in the tree, and nothing else changes.  For an entry
    whose path is made of good names [cs], possibly with [./] in front of it and separators
    after it: if the path leads through directories to a name that is not taken, the
    callback of [InitVFS] succeeds, the tree stays well formed, and from then on looking up a path
    finds the new file or directory at [cs], a directory at every prefix of [cs], and what
    it found before everywhere else; if it does not, an assertion stops the program. *)
Lemma archive_entry_added nodes prefix name cs dot seps k callback :
  wf_nodes nodes → cs ≠ [] → Forall good_name cs → clean (join cs) →
  Forall (λ c, (c =? kPathSep) = true) seps → prefix ++ name = dot ++ join cs ++ seps →
  (dot = [46; kPathSep] ∨ dot = [] ∧ take 2 (join cs ++ seps) ≠ [46; kPathSep]) →
  Z.of_nat (length (prefix ++ name)) < npos →
  ((k = KDir ∧ callback = dir_callback prefix name) ∨
   (∃ data size, k = KFile data size ∧ callback = file_callback prefix name size data)) →
  if can_insert nodes cs then
    ∃ nodes', callback nodes = Ok nodes' ∧ wf_nodes nodes' ∧
      ∀ ds path, ds ≠ [] → Forall good_name ds → rep path (join ds) → Z.of_nat (length (join ds)) < npos →
        ∃ r, GetNodeFromRelPathImpl path nodes' = Ok r ∧ found_kind r = kind_after nodes cs k ds
  else callback nodes = Fault AssertFailed.
Proof.
  intros Hw Hne Hg Hc Hs Hp Hd Hb Hcb.
  assert (∃ mk, builds mk k ∧ callback = add_entry mk prefix name) as (mk & Hmk & ->).
  { destruct Hcb as [[-> ->]|(data & sz & -> & ->)]; eexists; (split; [|done]); [apply builds_dir|apply builds_file]. }
  pose proof (add_entry_Ok mk k nodes prefix name cs dot seps Hmk Hw Hne Hg Hc Hs Hp Hd Hb) as R.
  destruct (can_insert nodes cs); [|exact R]. destruct R as (nodes' & R & Hw' & Hk). exists nodes'.
  split; [exact R|]. split; [done|]. intros ds path Hds Hgs Hr Hlen. rewrite <- Hk. by apply lookup_kind.
Qed.

(** C31: The absolute path of every node leads back to it.  In a well-formed tree, for a node
    whose path has a clean end and does not start with [./], [getAbsPath] succeeds with the
    names from the root joined by separators, and [GetNodeFromPath] of the result is that
    very node, whatever the working directory and PATH are; the root's path is [/]. *)
Theorem abs_path_round_trip f pos cs :
  wf_nodes (root f) → names_at (root f) pos = Some cs → Z.of_nat (length (join cs)) + 1 < npos →
  (pos ≠ [] → clean (join cs) ∧ take 2 (join cs) ≠ [46; kPathSep]) →
  ∃ s, getAbsPath f pos = Ok s ∧ rep s (kPathSep :: join cs) ∧ GetNodeFromPath f s = Ok (Some pos).
Proof.
  intros Hw H Hb Hcl. destruct pos as [|i pos].
  { simpl in H. simplify_eq. eexists. split; [done|]. split; [by apply (rep_app_nil [47] [])|done]. }
  destruct (Hcl ltac:(done)) as [Hc Hd]. unfold npos in Hb.
  destruct (getAbsPath_Ok f (i :: pos) cs Hw ltac:(done) H) as (s & R & Hs); [lia|].
  destruct (names_at_resolve (i :: pos) (root f) cs Hw ltac:(done) H) as (Hne & Hg & n & _ & _ & Hr).
  exists s. split_and!; [done|done|].
  rewrite (GetNodeFromPath_abs f s cs) by (done || (unfold npos; lia) || apply Hw). by rewrite Hr.
Qed.

(** [/bin/ls] in a tree with one directory and one file. *)
Lemma abs_path_round_trip_witness :
  let f := FS [Dir (of_cstr [98; 105; 110]) [File (of_cstr [108; 115]) 4096 12]] [] None in
  ∃ s, getAbsPath f [0; 0]%nat = Ok s ∧ rep s [47; 98; 105; 110; 47; 108; 115] ∧
       GetNodeFromPath f s = Ok (Some [0; 0]%nat).
Proof.
  intros f. apply (abs_path_round_trip f [0; 0]%nat [[98; 105; 110]; [108; 115]]).
  - assert (G : ∀ l, good_name l → ok_name (Dir (of_cstr l) []) ∧ ∀ d s, ok_name (File (of_cstr l) d s)).
    { intros l Hl. assert (E : chars_of (of_cstr l) = l) by (apply rep_chars_of, rep_text, of_cstr_rep).
      unfold ok_name, name_of. simpl. rewrite E. split; intros; (split; [apply of_cstr_rep|done]). }
    assert (G1 : good_name [98; 105; 110]) by (split; [set_solver|by eexists]).
    assert (G2 : good_name [108; 115]) by (split; [set_solver|by eexists]).
    split; [apply NoDup_singleton|]. apply Forall_singleton, wf_node_Dir. split; [exact (proj1 (G _ G1))|].
    split; [apply NoDup_singleton|]. apply Forall_singleton. split; [exact (proj2 (G _ G2) _ _)|done].
  - reflexivity.
  - reflexivity.
  - intros _. split; [split; [by eexists|by eexists]|done].
Defined.

(** ** Paths that are not handled *)

(** [//] is stripped to nothing, and the next step reads the character before the array. *)
Lemma CleanPath_two_slashes : CleanPath (of_cstr [47; 47]) = Fault OutOfBounds.
Proof. reflexivity. Qed.

(** White space is stripped to nothing, and the next step asks for the first character. *)
Lemma CleanPath_space : CleanPath (of_cstr [32]) = Fault Aborted.
Proof. reflexivity. Qed.

(** The iterator over PATH finds the separator it stands on again and never passes it: with two
    directories, a name that is in neither is searched for ever. *)
Section TwoDirectories.
Let f : fs := FS [Dir (of_cstr [98]) []; Dir (of_cstr [99]) []] [] None.
(** ["/b:/c"] *)
Let env : string := of_cstr [47; 98; 58; 47; 99].
Let path : string := of_cstr [120].

Lemma env_loop_stuck fuel : env_loop fuel (GetDirFromPathEnv f) f path env 2 = Fault NoFuel.
Proof using Type. induction fuel as [|fuel IH]; [done|]. exact IH. Qed.

Lemma two_directories_never_end fuel : env_loop fuel (GetDirFromPathEnv f) f path env 0 = Fault NoFuel.
Proof using Type. destruct fuel as [|fuel]; [done|]. exact (env_loop_stuck fuel). Qed.
End TwoDirectories.

End Vfs.
