(* ===== verification/VfsTree.v ===== *)
(** The drawing of a directory: [VFSNode::TreeImpl] of libc/vfs.cpp and [Dir::Tree] of
    libc/include/libc/startup/vfs.h.

    The state is the text and the vector [last], which says for every directory on the way whether
    it is the last entry of its parent; the recursion pushes and pops it. *)
From S2P Require Import Prelude LibcString Printf CxxString Vfs.
Import CxxString.CxxString Vfs.Vfs.

Module VfsTree.

Record drawing := mkDrawing { text : list Z; last_ : list bool }.

Definition print (s : list Z) : M drawing unit := modify (λ d, mkDrawing (text d ++ s) (last_ d)).
Definition push_back (b : bool) : M drawing unit := modify (λ d, mkDrawing (text d) (last_ d ++ [b])).

(** An empty vector has nothing to pop. *)
Definition pop_back : M drawing unit := λ d,
  match last_ d with [] => Fault OutOfBounds | _ => Ok (tt, mkDrawing (text d) (removelast (last_ d))) end.

(** ["   "], ["|  "], ["`--"] and ["|--"] *)
Definition blank : list Z := [32; 32; 32].
Definition bar : list Z := [124; 32; 32].
Definition corner : list Z := [96; 45; 45].
Definition tee : list Z := [124; 45; 45].

(** What is printed for [last]: one cell for all but the last of its elements, then a branch. *)
Fixpoint indent (last : list bool) : list Z :=
  match last with
  | [] => []
  | [b] => if b : bool then corner else tee
  | b :: last => (if b : bool then blank else bar) ++ indent last
  end.

(** What [%s] prints: the characters up to the first zero. *)
Fixpoint up_to_zero (cs : list Z) : result (list Z) :=
  match cs with
  | [] => Fault OutOfBounds
  | c :: cs => if c =? 0 then Ok [] else r ← up_to_zero cs; Ok (c :: r)
  end.

Definition print_name (n : node) : M drawing unit :=
  name ← liftR (up_to_zero (data_ (getName n)));
  print (name ++ [10]).

Fixpoint TreeImpl (n : node) : M drawing unit :=
  last ← gets last_;
  print (indent last);;
  print_name n;;
  match n with
  | File _ _ _ => mret tt
  | Dir _ nodes =>
      (fix each (nodes : list node) : M drawing unit :=
         match nodes with
         | [] => mret tt
         | [n] => push_back true;; TreeImpl n;; pop_back
         | n :: nodes => push_back false;; TreeImpl n;; pop_back;; each nodes
         end) nodes
  end.

(** [Tree] starts with an empty vector. *)
Definition Tree (n : node) : M (list Z) unit := λ out,
  match TreeImpl n (mkDrawing out []) with Ok (_, d) => Ok (tt, text d) | Fault f => Fault f end.

(** * What is drawn *)

(** The names of a tree, without what is in the files. *)
Inductive rose := Rose (name : list Z) (sub : list rose).

Definition rname (t : rose) : list Z := match t with Rose c _ => c end.
Definition rsub (t : rose) : list rose := match t with Rose _ ts => ts end.

Fixpoint skeleton (n : node) : rose :=
  match n with
  | File _ _ _ => Rose (name_of n) []
  | Dir _ ns => Rose (name_of n) (map skeleton ns)
  end.

(** A line for every node, depth first, with its cells. *)
Fixpoint rows (last : list bool) (t : rose) : list (list bool * list Z) :=
  match t with
  | Rose c ts =>
      (last, c) ::
      (fix each (ts : list rose) : list (list bool * list Z) :=
         match ts with
         | [] => []
         | [t] => rows (last ++ [true]) t
         | t :: ts => rows (last ++ [false]) t ++ each ts
         end) ts
  end.

Fixpoint forest (last : list bool) (ts : list rose) : list (list bool * list Z) :=
  match ts with
  | [] => []
  | [t] => rows (last ++ [true]) t
  | t :: ts => rows (last ++ [false]) t ++ forest last ts
  end.

(** A line as it is to look: for every directory on the way down a column, empty where that directory
    was the last of its parent's entries and a bar where more of them follow; then the branch to the
    node itself, which ends in a corner for the last entry; then the name. *)
Definition column (was_last : bool) : list Z := Printf.Printf.chars (if was_last then "   " else "|  ")%string.
Definition branch (is_last : bool) : list Z := Printf.Printf.chars (if is_last then "`--" else "|--")%string.
Definition row_text (r : list bool * list Z) : list Z :=
  concat (column <$> removelast r.1) ++ from_option branch [] (list.last r.1) ++ r.2 ++ [10].
#[local] Arguments row_text : simpl never.

Lemma indent_columns l : indent l = concat (column <$> removelast l) ++ from_option branch [] (list.last l).
Proof.
  induction l as [|b l IH]; [done|]. destruct l as [|b' l]; [by destruct b|].
  change (indent (b :: b' :: l)) with ((if b then blank else bar) ++ indent (b' :: l)). rewrite IH.
  change (removelast (b :: b' :: l)) with (b :: removelast (b' :: l)). cbn [fmap list_fmap concat]. rewrite <- app_assoc. by destruct b.
Qed.

Lemma row_text_indent r : row_text r = indent r.1 ++ r.2 ++ [10].
Proof. unfold row_text. by rewrite indent_columns, <- app_assoc. Qed.

Lemma rows_eq last t : rows last t = (last, rname t) :: forest last (rsub t).
Proof.
  destruct t as [c ts]. cbn. f_equal. induction ts as [|t ts IH]; [done|]. destruct ts as [|t' ts]; [done|].
  change (forest last (t :: t' :: ts)) with (rows (last ++ [false]) t ++ forest last (t' :: ts)). rewrite <- IH. reflexivity.
Qed.

(** The recursion that the definition hides. *)
Fixpoint each (nodes : list node) : M drawing unit :=
  match nodes with
  | [] => mret tt
  | [n] => push_back true;; TreeImpl n;; pop_back
  | n :: nodes => push_back false;; TreeImpl n;; pop_back;; each nodes
  end.

Lemma TreeImpl_eq n : TreeImpl n = (last ← gets last_; print (indent last);; print_name n;; each (children n)).
Proof.
  destruct n as [name data size|name ns]; [reflexivity|]. cbn [TreeImpl children].
  assert (E : (fix each (nodes : list node) : M drawing unit :=
    match nodes with
    | [] => mret tt
    | [n] => push_back true;; TreeImpl n;; pop_back
    | n :: nodes => push_back false;; TreeImpl n;; pop_back;; each nodes
    end) ns = each ns); [|by rewrite E].
  induction ns as [|n ns IH]; [done|]. destruct ns as [|n' ns]; [done|].
  change (each (n :: n' :: ns)) with (push_back false;; TreeImpl n;; pop_back;; each (n' :: ns)). rewrite <- IH. reflexivity.
Qed.


(** * Lemmas *)

(** Induction with a hypothesis for every node of a directory. *)
Section induction.
  Context (P : node → Prop).
  Context (Hfile : ∀ name data size, P (File name data size)) (Hdir : ∀ name ns, Forall P ns → P (Dir name ns)).

Lemma node_induction : ∀ n, P n.
Proof using Hfile Hdir.
  fix IH 1. intros [name data size|name ns]; [apply Hfile|]. apply Hdir. induction ns as [|n ns IHns]; constructor; [apply IH|exact IHns].
Qed.
End induction.

Lemma up_to_zero_Ok l rest : Forall (λ c, c ≠ 0) l → up_to_zero (l ++ 0 :: rest) = Ok l.
Proof.
  induction 1 as [|c l Hc _ IH]; [done|]. cbn. rewrite (proj2 (Z.eqb_neq _ _) Hc). by rewrite IH.
Qed.

(** Names are C strings. *)
Definition named (n : node) : Prop := rep (getName n) (name_of n) ∧ Forall (λ c, c ≠ 0 ∧ c ≠ 10) (name_of n).

Fixpoint all_named (n : node) : Prop :=
  named n ∧ match n with File _ _ _ => True | Dir _ ns => foldr and True (map all_named ns) end.

Lemma all_named_eq n : all_named n ↔ named n ∧ Forall all_named (children n).
Proof.
  destruct n as [name data size|name ns]; cbn; [by rewrite Forall_nil|].
  assert (foldr and True (map all_named ns) ↔ Forall all_named ns) as ->; [|done].
  induction ns as [|n ns IH]; cbn; [by rewrite Forall_nil|]. by rewrite Forall_cons, IH.
Qed.

Definition drawn (rs : list (list bool * list Z)) (d : drawing) : drawing := mkDrawing (text d ++ concat (row_text <$> rs)) (last_ d).

Lemma drawn_app rs rs' d : drawn rs' (drawn rs d) = drawn (rs ++ rs') d.
Proof. unfold drawn. cbn. by rewrite fmap_app, concat_app, app_assoc. Qed.

Lemma print_name_Ok n d : named n → print_name n d = Ok (tt, mkDrawing (text d ++ name_of n ++ [10]) (last_ d)).
Proof.
  intros [[_ [rest Hr]] Hc]. unfold print_name. erewrite bind_Ok; [reflexivity|]. unfold liftR. rewrite Hr, up_to_zero_Ok; [done|].
  eapply Forall_impl; [exact Hc|]. by intros c [? _].
Qed.

(** A node is drawn between a push and a pop. *)
Lemma child_Ok b n d rs : TreeImpl n (mkDrawing (text d) (last_ d ++ [b])) = Ok (tt, drawn rs (mkDrawing (text d) (last_ d ++ [b]))) →
  (push_back b;; TreeImpl n;; pop_back) d = Ok (tt, drawn rs d).
Proof.
  intros H. erewrite bind_Ok by reflexivity. rewrite (bind_Ok _ _ _ _ _ H). unfold pop_back. cbn [last_ drawn].
  destruct (last_ d ++ [b]) eqn:E; [by destruct (last_ d)|]. rewrite <- E, removelast_last. done.
Qed.

Lemma each_Ok ns : Forall (λ n, ∀ d, TreeImpl n d = Ok (tt, drawn (rows (last_ d) (skeleton n)) d)) ns →
  ∀ d, each ns d = Ok (tt, drawn (forest (last_ d) (skeleton <$> ns)) d).
Proof.
  induction 1 as [|n ns Hn Hns IH]; intros d.
  { unfold drawn. cbn. rewrite app_nil_r. by destruct d. }
  destruct ns as [|n' ns]; [by apply child_Ok, Hn|].
  change (each (n :: n' :: ns)) with (push_back false;; TreeImpl n;; pop_back;; each (n' :: ns)).
  assert (E : (push_back false;; TreeImpl n;; pop_back;; each (n' :: ns)) d = ((push_back false;; TreeImpl n;; pop_back);; each (n' :: ns)) d).
  { unfold mbind, M_bind. destruct (push_back false d) as [[[] d1]|]; [|done]. by destruct (TreeImpl n d1) as [[[] d2]|]. }
  rewrite E, (bind_Ok _ _ _ _ _ (child_Ok _ _ _ _ (Hn _))). cbn [last_]. rewrite IH, drawn_app. done.
Qed.

Lemma TreeImpl_Ok n : all_named n → ∀ d, TreeImpl n d = Ok (tt, drawn (rows (last_ d) (skeleton n)) d).
Proof.
  induction n as [name data size|name ns IH] using node_induction; intros [Hn Hc]%all_named_eq d; rewrite TreeImpl_eq, rows_eq;
    erewrite bind_Ok by reflexivity; erewrite bind_Ok by reflexivity; rewrite (bind_Ok _ _ _ _ _ (print_name_Ok _ _ Hn)).
  - cbn. unfold drawn. cbn. rewrite row_text_indent. cbn. by rewrite app_nil_r, <- !app_assoc.
  - assert (Hns : Forall (λ n, ∀ d, TreeImpl n d = Ok (tt, drawn (rows (last_ d) (skeleton n)) d)) ns).
    { cbn in Hc. apply Forall_forall. intros n Hin. rewrite Forall_forall in IH, Hc. by apply IH, Hc. }
    cbn [children]. rewrite (each_Ok ns Hns). unfold drawn. cbn. rewrite row_text_indent. cbn. by rewrite <- !app_assoc.
Qed.

(** ** Reading the drawing back *)

(** Cells tell where the branch is, so that a line has one reading. *)
Lemma indent_inj l : ∀ l' c c', l ≠ [] → l' ≠ [] → indent l ++ c = indent l' ++ c' → l = l' ∧ c = c'.
Proof.
  induction l as [|b l IH]; intros [|b' l'] c c' Hl Hl' E; [done..|].
  destruct l as [|b1 l], l' as [|b1' l'].
  - destruct b, b'; cbn in E; simplify_eq; done.
  - exfalso. change (indent (b' :: b1' :: l')) with ((if b' then blank else bar) ++ indent (b1' :: l')) in E. rewrite <- app_assoc in E.
    destruct b, b'; cbn [indent blank bar corner tee app] in E; simplify_eq.
  - exfalso. change (indent (b :: b1 :: l)) with ((if b then blank else bar) ++ indent (b1 :: l)) in E. rewrite <- app_assoc in E.
    destruct b, b'; cbn [indent blank bar corner tee app] in E; simplify_eq.
  - change (indent (b :: b1 :: l)) with ((if b then blank else bar) ++ indent (b1 :: l)) in E.
    change (indent (b' :: b1' :: l')) with ((if b' then blank else bar) ++ indent (b1' :: l')) in E. rewrite <- !app_assoc in E.
    assert (Hb : b = b' ∧ indent (b1 :: l) ++ c = indent (b1' :: l') ++ c').
    { destruct b, b'; cbn [blank bar app] in E; [|discriminate E|discriminate E|]; injection E as E; done. }
    destruct Hb as [-> E']. destruct (IH (b1' :: l') c c' ltac:(done) ltac:(done) E') as [-> ->]. done.
Qed.

Lemma split_line a : ∀ b x y, 10 ∉ a → 10 ∉ b → a ++ 10 :: x = b ++ 10 :: y → a = b ∧ x = y.
Proof.
  induction a as [|c a IH]; intros [|c' b] x y Ha Hb E; cbn in E; simplify_eq; [done|set_solver|set_solver|].
  destruct (IH b x y) as [-> ->]; [set_solver|set_solver|done|done].
Qed.

Lemma indent_no_newline l : 10 ∉ indent l.
Proof.
  induction l as [|b l IH]; [by apply not_elem_of_nil|]. destruct l as [|b' l]; [destruct b; cbn; set_solver|].
  change (indent (b :: b' :: l)) with ((if b then blank else bar) ++ indent (b' :: l)). rewrite elem_of_app. intros [H|H]; [|done].
  destruct b; cbn in H; set_solver.
Qed.

(** Lines below the root. *)
Definition readable (r : list bool * list Z) : Prop := r.1 ≠ [] ∧ 10 ∉ r.2.

Lemma text_cons l c rs : concat (row_text <$> (l, c) :: rs) = (indent l ++ c) ++ 10 :: concat (row_text <$> rs).
Proof. cbn. rewrite row_text_indent. cbn. by rewrite <- !app_assoc. Qed.

Lemma rows_text_inj rs : ∀ rs', Forall readable rs → Forall readable rs' → concat (row_text <$> rs) = concat (row_text <$> rs') → rs = rs'.
Proof.
  induction rs as [|[l c] rs IH]; intros [|[l' c'] rs'] H H' E; rewrite ?text_cons in E; [done| | |].
  - by destruct (indent l' ++ c').
  - by destruct (indent l ++ c).
  - apply Forall_cons in H as [[Hl Hc] H]. apply Forall_cons in H' as [[Hl' Hc'] H']. cbn in *.
    apply split_line in E as [E1 E2]; [|rewrite elem_of_app; pose proof (indent_no_newline l); tauto|rewrite elem_of_app; pose proof (indent_no_newline l'); tauto].
    apply indent_inj in E1 as [-> ->]; [|done..]. f_equal. by apply IH.
Qed.

(** Depth first lines with their depths determine the tree. *)
Fixpoint weight (t : rose) : nat := match t with Rose _ ts => S (sum_list (map weight ts)) end.

Definition below_depth (d : nat) (rs : list (list bool * list Z)) : Prop := match rs with [] => True | r :: _ => (length r.1 ≤ d)%nat end.

Lemma forest_cons last t ts : ∃ b, forest last (t :: ts) = rows (last ++ [b]) t ++ forest last ts.
Proof. destruct ts as [|t' ts]; [exists true; cbn [forest]; by rewrite app_nil_r|by exists false]. Qed.

Lemma forest_head last t ts rest : ¬ below_depth (length last) (forest last (t :: ts) ++ rest).
Proof. destruct (forest_cons last t ts) as [b ->]. rewrite rows_eq. cbn. rewrite length_app. cbn. lia. Qed.

Lemma forest_below last b ts rest : below_depth (length last) rest → below_depth (length (last ++ [b])) (forest last ts ++ rest).
Proof.
  rewrite length_app. destruct ts as [|t ts]; intros H.
  - destruct rest; [done|]. cbn in *. lia.
  - destruct (forest_cons last t ts) as [b' ->]. rewrite rows_eq. cbn. rewrite length_app. cbn. lia.
Qed.

Lemma forest_inj n : ∀ ts us last rest rest', (sum_list (map weight ts) ≤ n)%nat →
  below_depth (length last) rest → below_depth (length last) rest' →
  forest last ts ++ rest = forest last us ++ rest' → ts = us ∧ rest = rest'.
Proof.
  induction n as [|n IH]; intros ts us last rest rest' Hn Hr Hr' E;
    (destruct ts as [|t ts], us as [|u us]; [done|cbn [forest app] in E; rewrite E in Hr; by apply forest_head in Hr|
      change (forest last [] ++ rest') with rest' in E; rewrite <- E in Hr'; by apply forest_head in Hr'|]).
  { destruct t; cbn in Hn. lia. }
  destruct (forest_cons last t ts) as [b Eb], (forest_cons last u us) as [b' Eb']. rewrite Eb, Eb', !rows_eq in E.
  cbn [app] in E. injection E as Eb2 En E. apply app_inj_tail in Eb2 as [_ <-]. rewrite <- !app_assoc in E.
  destruct t as [c sub], u as [c' sub']. cbn in *. subst c'.
  apply IH in E as [-> E]; [|lia|by apply forest_below..]. apply IH in E as [-> ->]; [done|lia|done|done].
Qed.

(** ** The drawing as a whole *)

Lemma rose_readable n : all_named n → ∀ last, last ≠ [] → Forall readable (rows last (skeleton n)).
Proof.
  induction n as [name data size|name ns IH] using node_induction; intros [[_ Hn] Hc]%all_named_eq last Hl; rewrite rows_eq;
    (constructor; [split; [done|]; cbn [skeleton rname snd]; intros Hin; rewrite Forall_forall in Hn; by apply Hn in Hin as [_ ?]|]); [done|].
  cbn [skeleton rsub children] in *. clear Hn. induction ns as [|n ns IHns]; [done|]. apply Forall_cons in IH as [IHn IH]. apply Forall_cons in Hc as [Hcn Hc].
  cbn [map]. destruct (forest_cons last (skeleton n) (map skeleton ns)) as [b ->]. apply Forall_app. split; [|by apply IHns].
  apply IHn; [done|]. by destruct last.
Qed.

Lemma forest_readable ns : Forall all_named ns → Forall readable (forest [] (skeleton <$> ns)).
Proof.
  induction 1 as [|n ns Hn _ IH]; [constructor|]. cbn [fmap list_fmap].
  destruct (forest_cons [] (skeleton n) (skeleton <$> ns)) as [b ->]. apply Forall_app. split; [by apply rose_readable|done].
Qed.

(** * Properties *)

(** C33: [Tree] draws a directory, and the drawing can be read back.  The recursion, from any vector,
    leaves the vector as it was, and adds to the text one line for the node and one for every node
    below it, depth first; [Tree] does so from the empty vector.  A line has a column of three
    characters for every directory between, empty below a last entry and with a bar below the others,
    then the branch, with a corner for a last entry and a tee for the others, and the name.  When two directories, whose names have no newline, give the same drawing,
    they have the same names in the same places. *)
Theorem Tree_draws n out : all_named n →
  (∀ d, TreeImpl n d = Ok (tt, mkDrawing (text d ++ concat (row_text <$> rows (last_ d) (skeleton n))) (last_ d))) ∧
  Tree n out = Ok (tt, out ++ concat (row_text <$> rows [] (skeleton n))) ∧
  ∀ n' out', all_named n' → Tree n' out = Ok (tt, out') → Tree n out = Ok (tt, out') → skeleton n = skeleton n'.
Proof.
  intros Hn. assert (HT : ∀ m, all_named m → Tree m out = Ok (tt, out ++ concat (row_text <$> rows [] (skeleton m)))).
  { intros m Hm. unfold Tree. by rewrite (TreeImpl_Ok m Hm). }
  split; [exact (TreeImpl_Ok n Hn)|]. split; [by apply HT|]. intros n' out' Hn' E' E. rewrite (HT n Hn) in E. rewrite (HT n' Hn') in E'. injection E as <-.
  injection E' as E'. apply app_inv_head in E'. rewrite !rows_eq, !text_cons in E'. cbn [indent app] in E'.
  assert (Hname : ∀ m, all_named m → rname (skeleton m) = name_of m ∧ rsub (skeleton m) = skeleton <$> children m ∧ 10 ∉ name_of m).
  { intros m [[_ Hm] _]%all_named_eq. split; [by destruct m|]. split; [by destruct m|]. intros Hin. rewrite Forall_forall in Hm. by apply Hm in Hin as [_ ?]. }
  destruct (Hname n Hn) as (N1 & S1 & L1), (Hname n' Hn') as (N2 & S2 & L2). rewrite N1, N2, S1, S2 in E'.
  apply split_line in E' as [En Ef]; [|done|done]. apply all_named_eq in Hn as [_ Hc], Hn' as [_ Hc'].
  apply rows_text_inj in Ef; [|by apply forest_readable..].
  destruct (forest_inj _ (skeleton <$> children n) (skeleton <$> children n') [] [] [] (le_n _)) as [Es _]; [done|done|by rewrite !app_nil_r|].
  destruct (skeleton n) as [c ts], (skeleton n') as [c' ts']. cbn in *. congruence.
Qed.

(** The directory [r] with the file [a] and the directory [b], in which is the file [c]. *)
Definition example_tree : node :=
  Dir (of_cstr [114]) [File (of_cstr [97]) 0 0; Dir (of_cstr [98]) [File (of_cstr [99]) 0 0]].

Lemma named_char c : 10 < c → ∀ n, getName n = of_cstr [c] → name_of n = [c] → named n.
Proof. intros Hc n E En. unfold named. rewrite E, En. split; [apply of_cstr_rep|]. apply Forall_singleton. lia. Qed.

Lemma Tree_draws_witness : Tree example_tree [] = Ok (tt, [114; 10] ++ (tee ++ [97; 10]) ++ (corner ++ [98; 10]) ++ (blank ++ corner ++ [99; 10])).
Proof.
  refine (proj1 (proj2 (Tree_draws example_tree [] _))). cbn.
  refine (conj (named_char 114 _ _ _ _) (conj (conj (named_char 97 _ _ _ _) I)
    (conj (conj (named_char 98 _ _ _ _) (conj (conj (named_char 99 _ _ _ _) I) I)) I))); reflexivity.
Defined.

(** A file and an empty directory look the same. *)
Lemma empty_dir_looks_like_file name data size : skeleton (File name data size) = skeleton (Dir name []).
Proof. done. Qed.

End VfsTree.
