(* ===== verification/Ustar.v ===== *)
(** The initial file system: the USTAR archive of libc/ustar.cpp and libc/include/libc/ustar.h,
    and [InitVFS] of libc/vfs.cpp.

    The archive is in memory at some address.  A callback is a function on the value its
    [void *arg] points to; the address of the literal ["ustar"] is an argument. *)
From S2P Require Import Prelude LibcString StartParams CxxString Vfs.
Import LibcString.LibcString.

Module Ustar.
Import StartParams.

(** ** Blocks *)
Definition kTarBlockSize : Z := 512.

(** Offsets of the fields of [TarBlock]. *)
Definition off_name : Z := 0.
Definition off_size : Z := 124.
Definition off_type : Z := 156.
Definition off_ustar : Z := 257.
Definition off_prefix : Z := 345.
Definition size_digits : nat := 11.   (* sizeof(TarBlock::size) - 1 *)

Definition kDirectory : Z := 53.

Fixpoint zero_loop (n : nat) (tar_page : Z) : M memory bool :=
  match n with
  | O => mret true
  | S n => b ← load tar_page; if tobool b then mret false else zero_loop n (tar_page + 1)
  end.

Definition IsZeroPage (tar_page : Z) : M memory bool := zero_loop (Z.to_nat kTarBlockSize) tar_page.

Fixpoint oct_loop (size : nat) (c n : Z) : M memory Z :=
  match size with
  | O => mret n
  | S size =>
      let n := u32 (n * 8) in
      x ← load c;
      assert_ (48 <=? schar x);;
      x ← load c;
      oct_loop size (c + 1) (u32 (n + u32 (schar x - 48)))
  end.

Definition oct2bin (str : Z) (size : nat) : M memory Z := oct_loop size str 0.

(** ** The walk over the archive *)
Section Iterate.
Context {A : Type}.
(** prefix and name; prefix, name, size and data *)
Context (dircallback : option (Z → Z → A → M memory A)).
Context (filecallback : option (Z → Z → Z → Z → A → M memory A)).
Context (ustar_literal : Z).

Definition call_dir (prefix name : Z) (arg : A) : M memory A :=
  match dircallback with Some f => f prefix name arg | None => mret arg end.
Definition call_file (prefix name size data : Z) (arg : A) : M memory A :=
  match filecallback with Some f => f prefix name size data arg | None => mret arg end.

Fixpoint iterate (fuel : nat) (archive tar : Z) (arg : A) : M memory (A * Z) :=
  match fuel with
  | O => fail NoFuel
  | S fuel =>
      z1 ← IsZeroPage tar;
      z2 ← (if (z1 : bool) then IsZeroPage (tar + kTarBlockSize) else mret false);
      if (z2 : bool) then mret (arg, u32 (tar - archive + kTarBlockSize * 2))
      else
        r ← memcmp (tar + off_ustar) ustar_literal 5; assert_ (r =? 0);;
        let prefix := tar + off_prefix in
        let name := tar + off_name in
        filesize ← oct2bin (tar + off_size) size_digits;
        ty ← load (tar + off_type);
        if ty =? kDirectory then
          assert_ (negb (tobool filesize));;
          arg ← call_dir prefix name arg;
          iterate fuel archive (tar + kTarBlockSize) arg
        else
          assert_ (tobool filesize);;
          let tar := tar + kTarBlockSize in
          let num_chunks := if tobool (filesize mod kTarBlockSize) then filesize / kTarBlockSize + 1
                            else filesize / kTarBlockSize in
          arg ← call_file prefix name filesize tar arg;
          iterate fuel archive (tar + kTarBlockSize * num_chunks) arg
  end.

(** A block has alignment 1, so the check of the alignment is trivial. *)
Definition IterateUSTAR (archive : Z) (arg : A) : M memory (A * Z) :=
  assert_ (archive mod 1 =? 0);;
  fuel ← gets fuel_of;
  iterate fuel archive archive arg.
End Iterate.

Definition GetTarsize (ustar_literal archive : Z) : M memory Z :=
  r ← IterateUSTAR (A := unit) None None ustar_literal archive tt; mret (r.2).

(** ** [InitVFS] *)
Fixpoint read_bytes (n : nat) (p : Z) : M memory (list Z) :=
  match n with
  | O => mret []
  | S n => c ← load p; cs ← read_bytes n (p + 1); mret (c :: cs)
  end.

(** The string at a pointer, as the constructor of [std::string] reads it. *)
Definition read_cstr (p : Z) : M memory (list Z) := len ← strlen p; read_bytes (Z.to_nat len) p.

Definition vfs_dir (prefix name : Z) (root : list Vfs.node) : M memory (list Vfs.node) :=
  p ← read_cstr prefix; n ← read_cstr name; liftR (Vfs.dir_callback p n root).

Definition vfs_file (prefix name size data : Z) (root : list Vfs.node) : M memory (list Vfs.node) :=
  p ← read_cstr prefix; n ← read_cstr name; liftR (Vfs.file_callback p n size data root).

Definition InitVFS (ustar_literal : Z) (root : list Vfs.node) (raw_vfs_data : Z) : M memory (list Vfs.node) :=
  r ← IterateUSTAR (Some vfs_dir) (Some vfs_file) ustar_literal raw_vfs_data root; mret (r.1).

(** * Archives *)

Inductive entry :=
  | EDir (prefix name : list Z)
  | EFile (prefix name : list Z) (size data : Z).

(** The value of octal digits. *)
Definition octal (ds : list Z) : Z := foldl (λ n d, 8 * n + (d - 48)) 0 ds.

(** A header block at [p]; the file's size is given in eleven octal digits. *)
Definition header (m : memory) (p : Z) (prefix name : list Z) (ty size : Z) : Prop :=
  (∀ a, p ≤ a < p + kTarBlockSize → is_Some (m !! a)) ∧
  contents m (p + off_ustar) [117; 115; 116; 97; 114; 0] ∧
  cstr m (p + off_prefix) prefix ∧ cstr m (p + off_name) name ∧
  m !! (p + off_type) = Some ty ∧
  ∃ ds, length ds = size_digits ∧ Forall (λ d, 48 ≤ d < 56) ds ∧ contents m (p + off_size) ds ∧ octal ds = size.

Definition chunks (size : Z) : Z := (size + kTarBlockSize - 1) / kTarBlockSize.

(** The archive of the entries [es] is at [p] and ends before [q]. *)
Fixpoint archive_at (m : memory) (p : Z) (es : list entry) (q : Z) : Prop :=
  match es with
  | [] => (∀ a, p ≤ a < p + kTarBlockSize * 2 → m !! a = Some 0) ∧ q = p + kTarBlockSize * 2
  | EDir prefix name :: es => header m p prefix name kDirectory 0 ∧ archive_at m (p + kTarBlockSize) es q
  | EFile prefix name size data :: es =>
      (∃ ty, ty ≠ kDirectory ∧ header m p prefix name ty size) ∧ 0 < size < 2 ^ 32 ∧ data = p + kTarBlockSize ∧
      (∀ a, data ≤ a < data + kTarBlockSize * chunks size → is_Some (m !! a)) ∧
      archive_at m (data + kTarBlockSize * chunks size) es q
  end.

(** * Lemmas *)
Lemma load_mapped m a b : is_u32 a → m !! a = Some b → load a m = Ok (b, m).
Proof. intros Ha Hb. unfold load. by rewrite u32_id, Hb. Qed.

Lemma zero_loop_true n : ∀ p m,
  0 ≤ p → p + Z.of_nat n ≤ 2 ^ 32 → (∀ a, p ≤ a < p + Z.of_nat n → m !! a = Some 0) → zero_loop n p m = Ok (true, m).
Proof.
  induction n as [|n IH]; intros p m H0 H1 H; cbn [zero_loop]; [done|].
  rewrite (bind_Ok _ _ _ _ _ (load_mapped m p 0 ltac:(unfold is_u32; lia) (H p ltac:(lia)))).
  cbn [tobool Z.eqb negb]. apply IH; [lia|lia|]. intros a Ha. apply H. lia.
Qed.

Lemma zero_loop_false n a b : ∀ p m,
  0 ≤ p → p + Z.of_nat n ≤ 2 ^ 32 → (∀ a, p ≤ a < p + Z.of_nat n → is_Some (m !! a)) →
  p ≤ a < p + Z.of_nat n → m !! a = Some b → b ≠ 0 → zero_loop n p m = Ok (false, m).
Proof.
  induction n as [|n IH]; intros p m H0 H1 H Ha Hb Hne; cbn [zero_loop]; [lia|].
  destruct (H p) as [c Hc]; [lia|]. rewrite (bind_Ok _ _ _ _ _ (load_mapped m p c ltac:(unfold is_u32; lia) Hc)).
  unfold tobool. destruct (Z.eqb_spec c 0) as [->|]; [|done]. cbn [negb]. apply IH; [lia|lia| | |done|done].
  - intros a' Ha'. apply H. lia.
  - assert (a ≠ p) by congruence. lia.
Qed.

Lemma contents_lookup m p bs i b : contents m p bs → bs !! Z.to_nat i = Some b → 0 ≤ i → m !! (p + i) = Some b.
Proof. intros H Hb Hi. specialize (H _ _ Hb). by rewrite Z2Nat.id in H. Qed.

(** [memcmp] of equal bytes that are followed by equal bytes. *)
Lemma memcmp_loop_equal n : ∀ m p q bs,
  contents m p bs → contents m q bs → length bs = S n → 0 ≤ p → p + Z.of_nat (S n) ≤ 2 ^ 32 → 0 ≤ q → q + Z.of_nat (S n) ≤ 2 ^ 32 →
  memcmp_loop n p q m = Ok (0, m).
Proof.
  induction n as [|n IH]; intros m p q bs Hp Hq Hl Hp0 Hp1 Hq0 Hq1; (destruct bs as [|b bs]; [done|]);
    apply contents_cons in Hp as [Hp Hp']; apply contents_cons in Hq as [Hq Hq']; cbn [memcmp_loop];
    rewrite (bind_Ok _ _ _ _ _ (load_mapped m p b ltac:(unfold is_u32; lia) Hp));
    rewrite (bind_Ok _ _ _ _ _ (load_mapped m q b ltac:(unfold is_u32; lia) Hq)).
  - by rewrite Z.sub_diag.
  - rewrite Z.eqb_refl. apply (IH m (p + 1) (q + 1) bs); [done|done|simpl in Hl; lia|lia..].
Qed.

Lemma octal_ge ds : ∀ n, 0 ≤ n → Forall (λ d, 48 ≤ d < 56) ds → n ≤ foldl (λ n d, 8 * n + (d - 48)) n ds.
Proof.
  induction ds as [|d ds IH]; intros n Hn Hd; simpl; [lia|]. apply Forall_cons in Hd as [Hd0 Hd].
  specialize (IH (8 * n + (d - 48)) ltac:(lia) Hd). lia.
Qed.

Lemma oct_loop_Ok ds : ∀ m c n,
  Forall (λ d, 48 ≤ d < 56) ds → contents m c ds → 0 ≤ c → c + Z.of_nat (length ds) ≤ 2 ^ 32 → 0 ≤ n →
  foldl (λ n d, 8 * n + (d - 48)) n ds < 2 ^ 32 →
  oct_loop (length ds) c n m = Ok (foldl (λ n d, 8 * n + (d - 48)) n ds, m).
Proof.
  induction ds as [|d ds IH]; intros m c n Hd Hc Hc0 Hc1 Hn Hb; cbn [oct_loop length foldl]; [done|].
  apply Forall_cons in Hd as [Hd0 Hd]. apply contents_cons in Hc as [Hc Hcs]. cbn [foldl length] in *.
  pose proof (octal_ge ds (8 * n + (d - 48)) ltac:(lia) Hd).
  pose proof (load_mapped m c d ltac:(unfold is_u32; lia) Hc) as Hl. rewrite (bind_Ok _ _ _ _ _ Hl).
  unfold schar. rewrite (proj2 (Z.ltb_lt d 128)) by lia. rewrite (proj2 (Z.leb_le 48 d)) by lia.
  erewrite bind_Ok by done. rewrite (bind_Ok _ _ _ _ _ Hl). rewrite (proj2 (Z.ltb_lt d 128)) by lia.
  rewrite (u32_id (n * 8)), (u32_id (d - 48)) by (unfold is_u32; lia). rewrite u32_id by (unfold is_u32; lia).
  replace (n * 8 + (d - 48)) with (8 * n + (d - 48)) by lia. apply IH; [done|done|lia|lia|lia|done].
Qed.

Lemma archive_at_end es : ∀ m p q, archive_at m p es q → p + kTarBlockSize * 2 ≤ q.
Proof.
  induction es as [|[pr nm|pr nm sz d] es IH]; intros m p q H; cbn [archive_at] in H.
  - lia.
  - destruct H as [_ H]. apply IH in H. unfold kTarBlockSize in *. lia.
  - destruct H as (_ & Hs & -> & _ & H). apply IH in H. unfold chunks, kTarBlockSize in *. dlia.
Qed.

Lemma archive_at_mapped es : ∀ m p q a, archive_at m p es q → p ≤ a < q → is_Some (m !! a).
Proof.
  induction es as [|[pr nm|pr nm sz d] es IH]; intros m p q a H Ha; cbn [archive_at] in H.
  - destruct H as [H ->]. eexists. by apply H.
  - destruct H as [[H0 _] H]. destruct (Z.lt_ge_cases a (p + kTarBlockSize)); [apply H0; lia|eapply IH; [done|lia]].
  - destruct H as ((ty & _ & H0 & _) & _ & -> & H1 & H).
    destruct (Z.lt_ge_cases a (p + kTarBlockSize)); [apply H0; lia|].
    destruct (Z.lt_ge_cases a (p + kTarBlockSize + kTarBlockSize * chunks sz)); [apply H1; lia|].
    eapply IH; [done|lia].
Qed.

Lemma archive_at_length es : ∀ m p q, archive_at m p es q → Z.of_nat (length es) < q - p.
Proof.
  induction es as [|[pr nm|pr nm sz d] es IH]; intros m p q H; cbn [archive_at length] in *.
  - unfold kTarBlockSize in H. lia.
  - destruct H as [_ H]. apply IH in H. unfold kTarBlockSize in *. lia.
  - destruct H as (_ & Hs & -> & _ & H). apply IH in H. unfold chunks, kTarBlockSize in *. dlia.
Qed.

Definition ustar_bytes : list Z := [117; 115; 116; 97; 114; 0].

Lemma header_step m p prefix name ty size lit :
  header m p prefix name ty size → 0 ≤ size < 2 ^ 32 → 0 ≤ p → p + kTarBlockSize ≤ 2 ^ 32 →
  contents m lit ustar_bytes → 0 ≤ lit → lit + 6 ≤ 2 ^ 32 →
  IsZeroPage p m = Ok (false, m) ∧ memcmp (p + off_ustar) lit 5 m = Ok (0, m) ∧
  oct2bin (p + off_size) size_digits m = Ok (size, m) ∧ load (p + off_type) m = Ok (ty, m).
Proof.
  unfold kTarBlockSize, off_ustar, off_size, off_type. intros (Hm & Hu & _ & _ & Ht & ds & Hl & Hd & Hs & Ho) Hsz H0 H1 Hlit Hl0 Hl1.
  unfold kTarBlockSize, off_ustar, off_size, off_type in *. split_and!.
  - apply (zero_loop_false 512 (p + 257) 117); [done|done|exact Hm|lia| |done].
    rewrite <- (Z.add_0_r (p + 257)). by apply (contents_lookup _ _ _ 0 117 Hu).
  - apply (memcmp_loop_equal 5 m _ _ ustar_bytes Hu Hlit); [done|lia|lia|lia|lia].
  - unfold oct2bin. rewrite <- Hl, <- Ho. apply oct_loop_Ok; [done|done|lia|rewrite Hl; unfold size_digits; lia|lia|].
    unfold octal in Ho. lia.
  - apply load_mapped; [unfold is_u32; lia|done].
Qed.

Section IterateOk.
Context {A : Type} (m : memory) (lit : Z).
Context (dircallback : Z → Z → A → M memory A) (filecallback : Z → Z → Z → Z → A → M memory A).
Context (dir_step : list Z → list Z → A → result A) (file_step : list Z → list Z → Z → Z → A → result A).

Definition pure_result (r : result A) : result (A * memory) := match r with Ok a => Ok (a, m) | Fault f => Fault f end.

Hypothesis dir_Ok : ∀ p n prefix name a,
  cstr m p prefix → cstr m n name → dircallback p n a m = pure_result (dir_step prefix name a).
Hypothesis file_Ok : ∀ p n prefix name size data a,
  cstr m p prefix → cstr m n name → filecallback p n size data a m = pure_result (file_step prefix name size data a).
Hypothesis lit_Ok : contents m lit ustar_bytes.
Hypothesis lit_range : 0 ≤ lit ∧ lit + 6 ≤ 2 ^ 32.

(** The entries one after the other. *)
Fixpoint run_entries (es : list entry) (a : A) : result A :=
  match es with
  | [] => Ok a
  | EDir prefix name :: es => a ← dir_step prefix name a; run_entries es a
  | EFile prefix name size data :: es => a ← file_step prefix name size data a; run_entries es a
  end.

Lemma iterate_Ok archive es : ∀ fuel tar a q,
  archive_at m tar es q → 0 ≤ tar → q ≤ 2 ^ 32 → (length es < fuel)%nat →
  iterate (Some dircallback) (Some filecallback) lit fuel archive tar a m =
    match run_entries es a with Ok a' => Ok ((a', u32 (q - archive)), m) | Fault f => Fault f end.
Proof using dir_Ok file_Ok lit_Ok lit_range.
  induction es as [|e es IH]; intros fuel tar a q H H0 Hq Hf; (destruct fuel as [|fuel]; [simpl in Hf; lia|]);
    pose proof (archive_at_end _ _ _ _ H) as Hend; cbn [iterate run_entries].
  - destruct H as [Hz ->]. unfold kTarBlockSize in *.
    erewrite bind_Ok by (apply (zero_loop_true 512); [lia|lia|intros a' Ha'; apply Hz; lia]).
    erewrite bind_Ok by (apply (zero_loop_true 512); [lia|lia|intros a' Ha'; apply Hz; lia]).
    unfold mret, M_ret. do 4 f_equal. lia.
  - destruct e as [prefix name|prefix name size data]; cbn [archive_at] in H.
    + destruct H as [Hh H]. pose proof (archive_at_end _ _ _ _ H) as Hend'. unfold kTarBlockSize in *.
      destruct (header_step m tar prefix name kDirectory 0 lit Hh) as (Hz & Hc & Ho & Ht);
        [lia|lia|unfold kTarBlockSize; lia|done|apply lit_range|apply lit_range|].
      rewrite (bind_Ok _ _ _ _ _ Hz). erewrite bind_Ok by done. cbv beta iota zeta. rewrite (bind_Ok _ _ _ _ _ Hc). erewrite bind_Ok by done.
      rewrite (bind_Ok _ _ _ _ _ Ho), (bind_Ok _ _ _ _ _ Ht). cbn [Z.eqb kDirectory Pos.eqb]. erewrite bind_Ok by done.
      destruct Hh as (_ & _ & Hp & Hn & _). unfold call_dir, mbind, M_bind at 1. rewrite (dir_Ok _ _ prefix name) by done.
      destruct (dir_step prefix name a) as [a'|]; [|done]. apply IH; [done|lia|done|simpl in Hf; lia].
    + destruct H as ((ty & Hty & Hh) & Hs & -> & _ & H). pose proof (archive_at_end _ _ _ _ H) as Hend'.
      assert (Hch : 0 ≤ chunks size) by (unfold chunks, kTarBlockSize; dlia).
      destruct (header_step m tar prefix name ty size lit Hh) as (Hz & Hc & Ho & Ht);
        [lia|lia|unfold kTarBlockSize in *; lia|done|apply lit_range|apply lit_range|].
      rewrite (bind_Ok _ _ _ _ _ Hz). erewrite bind_Ok by done. cbv beta iota zeta. rewrite (bind_Ok _ _ _ _ _ Hc). erewrite bind_Ok by done.
      rewrite (bind_Ok _ _ _ _ _ Ho), (bind_Ok _ _ _ _ _ Ht). rewrite (proj2 (Z.eqb_neq _ _) Hty).
      assert (Hnz : tobool size = true) by (unfold tobool; by rewrite (proj2 (Z.eqb_neq size 0)) by lia).
      rewrite Hnz. erewrite bind_Ok by done.
      destruct Hh as (_ & _ & Hp & Hn & _). cbv zeta. unfold call_file, mbind, M_bind at 1.
      rewrite (file_Ok _ _ prefix name) by done. destruct (file_step prefix name size _ a) as [a'|]; [|done].
      replace (if tobool (size mod kTarBlockSize) then size / kTarBlockSize + 1 else size / kTarBlockSize) with (chunks size).
      * apply IH; [done|unfold kTarBlockSize in *; lia|done|simpl in Hf; lia].
      * unfold chunks, kTarBlockSize, tobool. destruct (Z.eqb_spec (size mod 512) 0); simpl; dlia.
Qed.

Lemma IterateUSTAR_Ok archive es a q :
  archive_at m archive es q → 0 ≤ archive → q ≤ 2 ^ 32 →
  IterateUSTAR (Some dircallback) (Some filecallback) lit archive a m =
    match run_entries es a with Ok a' => Ok ((a', u32 (q - archive)), m) | Fault f => Fault f end.
Proof using dir_Ok file_Ok lit_Ok lit_range.
  intros H H0 Hq. unfold IterateUSTAR. rewrite Z.mod_1_r. erewrite bind_Ok by done. erewrite bind_Ok by done.
  apply iterate_Ok; [done|done|done|]. pose proof (archive_at_length _ _ _ _ H) as Hl.
  enough (Z.to_nat (q - archive) < fuel_of m)%nat by lia.
  apply (mapped_fuel m archive). intros x Hx. eapply archive_at_mapped; [done|lia].
Qed.
End IterateOk.

(** ** [InitVFS] *)
Lemma read_bytes_Ok s : ∀ m p, cstr m p s → read_bytes (length s) p m = Ok (s, m).
Proof.
  induction s as [|c s IH]; intros m p H; cbn [read_bytes length]; [done|].
  pose proof (cstr_load _ _ _ H) as Hl. destruct H as (_ & _ & _ & H).
  rewrite (bind_Ok _ _ _ _ _ Hl), (bind_Ok _ _ _ _ _ (IH _ _ H)). done.
Qed.

Lemma read_cstr_Ok s m p : cstr m p s → read_cstr p m = Ok (s, m).
Proof.
  intros H. unfold read_cstr. rewrite (bind_Ok _ _ _ _ _ (strlen_Ok _ _ _ H)), Nat2Z.id. by apply read_bytes_Ok.
Qed.

Lemma InitVFS_Ok m lit root raw es q :
  archive_at m raw es q → 0 ≤ raw → q ≤ 2 ^ 32 → contents m lit ustar_bytes → 0 ≤ lit → lit + 6 ≤ 2 ^ 32 →
  InitVFS lit root raw m =
    match run_entries Vfs.dir_callback Vfs.file_callback es root with Ok r => Ok (r, m) | Fault f => Fault f end.
Proof.
  intros H H0 Hq Hl Hl0 Hl1. unfold InitVFS, mbind, M_bind.
  rewrite (IterateUSTAR_Ok m lit vfs_dir vfs_file Vfs.dir_callback Vfs.file_callback) with (es := es) (q := q); try done.
  - by destruct (run_entries _ _ es root).
  - intros p n prefix name a Hp Hn. unfold vfs_dir.
    by rewrite (bind_Ok _ _ _ _ _ (read_cstr_Ok _ _ _ Hp)), (bind_Ok _ _ _ _ _ (read_cstr_Ok _ _ _ Hn)).
  - intros p n prefix name size data a Hp Hn. unfold vfs_file.
    by rewrite (bind_Ok _ _ _ _ _ (read_cstr_Ok _ _ _ Hp)), (bind_Ok _ _ _ _ _ (read_cstr_Ok _ _ _ Hn)).
Qed.

(** * The specification: a file system is a partial map from paths to files and directories *)
Abbreviation path := (list (list Z)).
Abbreviation tree := (path → option Vfs.kind).

(** The root is always there. *)
Definition add (t : tree) (cs : path) (k : Vfs.kind) : tree := λ ds,
  if decide (cs = []) then t ds else if decide (ds = cs) then Some k else if decide (ds ≠ [] ∧ ds `prefix_of` cs) then Some Vfs.KDir else t ds.

(** The name is free, and all that is above it is free or a directory. *)
Definition addable (t : tree) (cs : path) : Prop :=
  t cs = None ∧ ∀ ds, ds ≠ [] → ds `prefix_of` cs → t ds = None ∨ t ds = Some Vfs.KDir.

Fixpoint grown (t : tree) (new : list (path * Vfs.kind)) : tree :=
  match new with [] => t | (cs, k) :: new => grown (add t cs k) new end.

Fixpoint growable (t : tree) (new : list (path * Vfs.kind)) : Prop :=
  match new with [] => True | (cs, k) :: new => (cs = [] ∨ addable t cs) ∧ growable (add t cs k) new end.

(** An entry of the archive that stands for a file or directory at [cs], or for the root, which tar lists as
    [./] when it is told to archive a directory. *)
Definition stands_for (e : entry) (new : path * Vfs.kind) : Prop :=
  let '(prefix, name, k) := match e with
                            | EDir prefix name => (prefix, name, Vfs.KDir)
                            | EFile prefix name size data => (prefix, name, Vfs.KFile data size)
                            end in
  new.2 = k ∧
  (new.1 = [] ∧ prefix ++ name = [46; Vfs.kPathSep] ∨
   new.1 ≠ [] ∧ Forall Vfs.good_name new.1 ∧ Vfs.clean (Vfs.join new.1) ∧
   Z.of_nat (length (prefix ++ name)) < CxxString.npos ∧
   ∃ dot seps, Forall (λ c, (c =? Vfs.kPathSep) = true) seps ∧ prefix ++ name = dot ++ Vfs.join new.1 ++ seps ∧
     (dot = [46; Vfs.kPathSep] ∨ dot = [] ∧ take 2 (Vfs.join new.1 ++ seps) ≠ [46; Vfs.kPathSep])).

Lemma addable_can_insert cs : ∀ nodes, cs ≠ [] → addable (Vfs.kind_at nodes) cs → Vfs.can_insert nodes cs = true.
Proof.
  induction cs as [|c cs IH]; intros nodes Hne [Hn Hp]; [done|]. rewrite Vfs.can_insert_cons.
  destruct (Vfs.index_of nodes c) as [[i n]|] eqn:E; [|done]. rewrite Vfs.kind_at_cons, E in Hn.
  destruct cs as [|c' cs]; [done|].
  assert (Hdir : Vfs.kind_of n = Vfs.KDir).
  { destruct (Hp [c]) as [H|H]; [done|by apply prefix_cons, prefix_nil|..]; rewrite Vfs.kind_at_cons, E in H; by simplify_eq/=. }
  destruct n as [|name ns]; [done|]. cbn [Vfs.isDir Vfs.isFile negb andb Vfs.children]. apply IH; [done|]. split; [exact Hn|].
  intros ds Hds Hpre. destruct ds as [|d ds]; [done|].
  specialize (Hp (c :: d :: ds) ltac:(done) ltac:(by apply prefix_cons)). by rewrite Vfs.kind_at_cons, E in Hp.
Qed.

Lemma grown_ext new : ∀ t t', (∀ ds, t ds = t' ds) → ∀ ds, grown t new ds = grown t' new ds.
Proof.
  induction new as [|[cs k] new IH]; intros t t' H ds; cbn [grown]; [done|]. apply IH. intros ds'. unfold add. by rewrite H.
Qed.

Lemma growable_ext new : ∀ t t', (∀ ds, t ds = t' ds) → growable t new → growable t' new.
Proof.
  induction new as [|[cs k] new IH]; intros t t' H Hg; cbn [growable] in *; [done|]. destruct Hg as [Ha Hg]. split.
  - destruct Ha as [?|[Hn Hp]]; [by left|right]. split; [by rewrite <- H|]. intros ds. rewrite <- H. by apply Hp.
  - eapply IH; [|exact Hg]. intros ds. unfold add. by rewrite H.
Qed.

Lemma run_entries_Ok es : ∀ nodes new,
  Vfs.wf_nodes nodes → Forall2 stands_for es new → growable (Vfs.kind_at nodes) new →
  ∃ nodes', run_entries Vfs.dir_callback Vfs.file_callback es nodes = Ok nodes' ∧ Vfs.wf_nodes nodes' ∧
    ∀ ds, Vfs.kind_at nodes' ds = grown (Vfs.kind_at nodes) new ds.
Proof.
  induction es as [|e es IH]; intros nodes new Hw Hs Hg.
  { apply Forall2_nil_inv_l in Hs as ->. by exists nodes. }
  apply Forall2_cons_inv_l in Hs as ([cs k] & new' & He & Hs & ->). destruct Hg as [Hadd Hg].
  assert (∃ mk prefix name, Vfs.builds mk k ∧ stands_for e (cs, k) ∧
    match e with EDir p n => (p, n) | EFile p n _ _ => (p, n) end = (prefix, name) ∧
    ∀ a, run_entries Vfs.dir_callback Vfs.file_callback (e :: es) a =
      (a' ← Vfs.add_entry mk prefix name a; run_entries Vfs.dir_callback Vfs.file_callback es a'))
    as (mk & prefix & name & Hmk & _ & Epn & Hrun).
  { destruct e as [p n|p n sz d]; pose proof He as [Hk _]; simpl in Hk; subst k.
    - by exists (λ path, Vfs.new_Dir path []), p, n; split; [apply Vfs.builds_dir|].
    - by exists (Vfs.new_File d sz), p, n; split; [apply Vfs.builds_file|]. }
  assert (Hst : cs = [] ∧ prefix ++ name = [46; Vfs.kPathSep] ∨
    cs ≠ [] ∧ Forall Vfs.good_name cs ∧ Vfs.clean (Vfs.join cs) ∧
    Z.of_nat (length (prefix ++ name)) < CxxString.npos ∧
    ∃ dot seps, Forall (λ c, (c =? Vfs.kPathSep) = true) seps ∧ prefix ++ name = dot ++ Vfs.join cs ++ seps ∧
      (dot = [46; Vfs.kPathSep] ∨ dot = [] ∧ take 2 (Vfs.join cs ++ seps) ≠ [46; Vfs.kPathSep])).
  { destruct e; simplify_eq/=; apply He. }
  assert (Hone : ∃ nodes1, Vfs.add_entry mk prefix name nodes = Ok nodes1 ∧ Vfs.wf_nodes nodes1 ∧
    ∀ ds, Vfs.kind_at nodes1 ds = add (Vfs.kind_at nodes) cs k ds).
  { destruct Hst as [[-> Hp]|(Hne & Hgs & Hc & Hb & dot & seps & Hsep & Hp & Hd)].
    - exists nodes. split; [by apply Vfs.add_entry_root|]. done.
    - destruct Hadd as [?|Hadd]; [done|].
      pose proof (Vfs.add_entry_Ok mk k nodes prefix name cs dot seps Hmk Hw Hne Hgs Hc Hsep Hp Hd Hb) as R.
      rewrite (addable_can_insert cs nodes Hne Hadd) in R. destruct R as (nodes1 & R & Hw1 & Hk1). exists nodes1.
      split; [exact R|]. split; [exact Hw1|]. intros ds. rewrite Hk1. unfold add. by rewrite (decide_False (P := cs = [])). }
  destruct Hone as (nodes1 & R & Hw1 & Hk1). destruct (IH nodes1 new' Hw1 Hs) as (nodes' & R' & Hw' & Hk').
  { eapply growable_ext; [|exact Hg]. intros ds. by rewrite Hk1. }
  exists nodes'. split; [|split; [done|]].
  - by rewrite Hrun, R.
  - intros ds. rewrite Hk'. cbn [grown]. apply grown_ext. intros ds'. by rewrite Hk1.
Qed.

(** * Properties *)

(** C22: The initial file system is the one of the archive.  For a USTAR archive in memory
    whose entries stand for files and directories at paths that can be added one after the
    other, or for the root itself ([./], which adds nothing), [InitVFS] on an empty root terminates and succeeds without changing memory, and
    looking up any path in the result finds exactly what the specification, a map from paths
    to files (with their data and size) and directories, has there. *)
Theorem InitVFS_builds_archive m lit raw es q new :
  archive_at m raw es q → 0 ≤ raw → q ≤ 2 ^ 32 →
  contents m lit ustar_bytes → 0 ≤ lit → lit + 6 ≤ 2 ^ 32 →
  Forall2 stands_for es new → growable (λ _, None) new →
  ∃ nodes, InitVFS lit [] raw m = Ok (nodes, m) ∧ Vfs.wf_nodes nodes ∧
    ∀ ds p, ds ≠ [] → Forall Vfs.good_name ds → CxxString.rep p (Vfs.join ds) →
      Z.of_nat (length (Vfs.join ds)) < CxxString.npos →
      ∃ r, Vfs.GetNodeFromRelPathImpl p nodes = Ok r ∧ Vfs.found_kind r = grown (λ _, None) new ds.
Proof.
  intros H H0 Hq Hl Hl0 Hl1 Hs Hg.
  assert (Hnil : ∀ ds, Vfs.kind_at [] ds = None) by apply Vfs.kind_at_nil.
  destruct (run_entries_Ok es [] new) as (nodes & R & Hw & Hk).
  { split; constructor. } { done. } { eapply growable_ext; [|exact Hg]. done. }
  exists nodes. split; [|split; [done|]].
  - rewrite (InitVFS_Ok m lit [] raw es q) by done. by rewrite R.
  - intros ds p Hds Hgs Hr Hlen. destruct (Vfs.lookup_kind p nodes ds Hw Hds Hgs Hr Hlen) as (r & Hrun & Hf).
    exists r. split; [done|]. rewrite Hf, Hk. by apply grown_ext.
Qed.

(** An archive as tar makes it of a directory, at 1024: the root [./] and the directory [./b/]; the literal is at 16. *)
Definition example_header (name : list Z) : list Z :=
  name ++ replicate (124 - length name) 0 ++ replicate 11 48 ++ replicate 21 0 ++ [kDirectory] ++ replicate 100 0 ++
  ustar_bytes ++ replicate 249 0.

Definition example_archive : memory :=
  list_to_map (zip (seqZ 16 6) ustar_bytes ++
    zip (seqZ 1024 2048) (example_header [46; 47] ++ example_header [46; 47; 98; 47] ++ replicate 1024 0)).

Lemma check_range (P : Z → bool) p n : forallb P (seqZ p n) = true → ∀ a, p ≤ a < p + n → P a = true.
Proof. intros H a Ha. rewrite forallb_forall in H. by apply H, list_elem_of_In, elem_of_seqZ. Qed.

Lemma mapped_dec (m : memory) p n : forallb (λ a, bool_decide (is_Some (m !! a))) (seqZ p n) = true → ∀ a, p ≤ a < p + n → is_Some (m !! a).
Proof. intros H a Ha. apply (check_range _ _ _ H) in Ha. by apply bool_decide_eq_true in Ha. Qed.

Lemma zeros_dec (m : memory) p n : forallb (λ a, bool_decide (m !! a = Some 0)) (seqZ p n) = true → ∀ a, p ≤ a < p + n → m !! a = Some 0.
Proof. intros H a Ha. apply (check_range _ _ _ H) in Ha. by apply bool_decide_eq_true in Ha. Qed.

Lemma contents_dec m p bs :
  forallb (λ i, bool_decide (m !! (p + Z.of_nat i) = bs !! i)) (seq 0 (length bs)) = true → contents m p bs.
Proof.
  intros H i b Hb. rewrite forallb_forall in H. specialize (H i). rewrite bool_decide_eq_true in H. rewrite H; [done|].
  apply list_elem_of_In, elem_of_seq. apply lookup_lt_Some in Hb. lia.
Qed.

(** A header that evaluates. *)
Ltac check_header p :=
  split_and!;
  [ apply (mapped_dec example_archive p 512); by vm_compute
  | apply contents_dec; by vm_compute
  | split; [split; done|]; by vm_compute
  | repeat (split; [split; done|]; split; [by vm_compute|]; split; [lia|]); split; [split; done|]; by vm_compute
  | by vm_compute
  | exists (replicate 11 48); split_and!; [done|by apply Forall_replicate|apply contents_dec; by vm_compute|done] ].

Definition example_entries : list entry := [EDir [] [46; 47]; EDir [] [46; 47; 98; 47]].

Lemma example_archive_Ok : archive_at example_archive 1024 example_entries 3072.
Proof.
  unfold example_entries. cbn [archive_at]. split; [check_header 1024|]. split; [check_header 1536|]. split; [|done].
  apply (zeros_dec example_archive 2048 1024). by vm_compute.
Qed.

Definition example_new : list (path * Vfs.kind) := [([], Vfs.KDir); ([[98]], Vfs.KDir)].

Lemma example_stands : Forall2 stands_for example_entries example_new.
Proof.
  apply Forall2_cons. split; [split; [done|by left]|]. apply Forall2_cons. split; [|constructor].
  split; [done|]. right. split_and!; try done.
  - apply Forall_singleton. split; [apply (bool_decide_unpack _); by vm_compute|by eexists].
  - split; by eexists.
  - exists [46; 47], [47]. split_and!; [by repeat constructor|done|by left].
Qed.

Lemma example_growable : growable (λ _, None) example_new.
Proof. split; [by left|]. split; [right|done]. split; [done|]. intros. by left. Qed.

Lemma InitVFS_builds_archive_witness :
  ∃ nodes, InitVFS 16 [] 1024 example_archive = Ok (nodes, example_archive) ∧ Vfs.wf_nodes nodes ∧
    ∀ ds p, ds ≠ [] → Forall Vfs.good_name ds → CxxString.rep p (Vfs.join ds) →
      Z.of_nat (length (Vfs.join ds)) < CxxString.npos →
      ∃ r, Vfs.GetNodeFromRelPathImpl p nodes = Ok r ∧
        Vfs.found_kind r = grown (λ _, None) example_new ds.
Proof.
  apply (InitVFS_builds_archive example_archive 16 1024 example_entries 3072 example_new).
  - exact example_archive_Ok.
  - lia.
  - lia.
  - apply contents_dec. vm_compute. reflexivity.
  - lia.
  - lia.
  - exact example_stands.
  - exact example_growable.
Defined.

(** The magic of GNU tar, ["ustar  "], does not end after its fifth letter; as [memcmp] goes on
    to compare the byte after the five, such an archive is refused. *)
Definition gnu_archive : memory := <[1024 + 257 + 5 := 32]> (<[1024 + 257 + 6 := 32]> example_archive).

Lemma gnu_archive_refused : InitVFS 16 [] 1024 gnu_archive = Fault AssertFailed.
Proof. by vm_compute. Qed.

End Ustar.
