(* ===== verification/Envp.v ===== *)
(** The environment of a process and the buffers it travels in:
    libc/include/libc/resizable_buffer.h, libc/include/libc/startup/globalstate.h,
    libc/globalstate.cpp and libc/getenv.cpp.

    A buffer owns an allocation of [capacity_] bytes of which the first [size_] are its
    content; what a fresh allocation holds is an argument, [junk].  The environment is the
    vector of its pairs, each a key and a value. *)
From S2P Require Import Prelude LibcString StartParams CxxString.
Import CxxString.CxxString.

Module Envp.

(** * [ResizableBuffer] *)
Record buffer := Buffer {
  size_ : Z;
  capacity_ : Z;
  bytes : list Z      (* the allocation [data_] points to *)
}.

Definition kDefaultCap : Z := 8.

(** What [malloc(n)] returns; only its length is known. *)
Definition malloc (junk : nat → list Z) (n : Z) : list Z := take (Z.to_nat n) (junk (Z.to_nat n)).

(** [memcpy] into an allocation. *)
Definition blit (d : list Z) (off : Z) (bs : list Z) : result (list Z) :=
  if (0 <=? off) && (off + Z.of_nat (length bs) <=? Z.of_nat (length d))
  then Ok (take (Z.to_nat off) d ++ bs ++ drop (Z.to_nat off + length bs) d)
  else Fault OutOfBounds.

(** [n] bytes of an allocation. *)
Definition slice (d : list Z) (off n : Z) : result (list Z) :=
  if (0 <=? off) && (0 <=? n) && (off + n <=? Z.of_nat (length d))
  then Ok (take (Z.to_nat n) (drop (Z.to_nat off) d))
  else Fault OutOfBounds.

Abbreviation envp := (list (string * string)).

Section Buffer.
Context (junk : nat → list Z).

Definition new_buffer (size : Z) : buffer :=
  let capacity := Z.max size kDefaultCap in Buffer size capacity (malloc junk capacity).

Definition buf_empty (b : buffer) : bool := size_ b =? 0.

Definition ReserveIfNeeded (newsize : Z) (b : buffer) : result buffer :=
  if capacity_ b <? newsize then
    old ← slice (bytes b) 0 (size_ b);
    newalloc ← blit (malloc junk newsize) 0 old;
    Ok (Buffer (size_ b) newsize newalloc)
  else Ok b.

Definition Write (src : list Z) (b : buffer) : result buffer :=
  let size := Z.of_nat (length src) in
  b ← ReserveIfNeeded (u32 (size + size_ b)) b;
  d ← blit (bytes b) (size_ b) src;
  Ok (Buffer (u32 (size_ b + size)) (capacity_ b) d).

Definition WriteFront (src : list Z) (b : buffer) : result buffer :=
  let size := Z.of_nat (length src) in
  b ← ReserveIfNeeded (u32 (size + size_ b)) b;
  old ← slice (bytes b) 0 (size_ b);
  d ← blit (bytes b) size old;
  d ← blit d 0 src;
  Ok (Buffer (u32 (size_ b + size)) (capacity_ b) d).

(** The length as a [size_t], then the data. *)
Definition WriteLenAndData (src : list Z) (b : buffer) : result buffer :=
  b ← Write (StartParams.bytes32 (Z.of_nat (length src))) b;
  Write src b.

Definition Resize (size : Z) (b : buffer) : result buffer :=
  b ← (if size_ b <? size then ReserveIfNeeded size b else Ok b);
  Ok (Buffer size (capacity_ b) (bytes b)).

(** [Read]: the bytes read, and the buffer without them. *)
Definition Read (size : Z) (b : buffer) : result (list Z * buffer) :=
  assertR (size <=? size_ b);;
  out ← slice (bytes b) 0 size;
  rest ← slice (bytes b) size (size_ b - size);
  d ← blit (bytes b) 0 rest;
  Ok (out, Buffer (size_ b - size) (capacity_ b) d).

Definition word_of (bs : list Z) : Z :=
  match bs with [b0; b1; b2; b3] => b0 + 2 ^ 8 * b1 + 2 ^ 16 * b2 + 2 ^ 24 * b3 | _ => 0 end.

Definition ReadLen (b : buffer) : result (Z * buffer) :=
  '(bs, b) ← Read 4 b; Ok (word_of bs, b).

(** With a null destination only the move is done. *)
Definition Skip (size : Z) (b : buffer) : result buffer :=
  assertR (size <=? size_ b);;
  rest ← slice (bytes b) size (size_ b - size);
  d ← blit (bytes b) 0 rest;
  Ok (Buffer (size_ b - size) (capacity_ b) d).

Definition Clear (b : buffer) : buffer := Buffer 0 (capacity_ b) (bytes b).

(** * [Envp] *)
(** The index of the first pair with that key. *)
Fixpoint getVal (env : envp) (key : string) : result (option nat) :=
  match env with
  | [] => Ok None
  | kv :: env =>
      b ← eq kv.1 key;
      if (b : bool) then Ok (Some 0%nat)
      else r ← getVal env key; Ok (match r with Some i => Some (S i) | None => None end)
  end.

(** [EnvpPair(key, val)] copies both. *)
Definition Add (env : envp) (key val : string) : result envp :=
  k ← copy key; v ← copy val; Ok (env ++ [(k, v)]).

Definition setVal (env : envp) (key val : string) : result envp :=
  found ← getVal env key;
  match found with
  | None => Add env key val
  | Some i =>
      v ← assign val;
      match env !! i with Some kv => Ok (<[i := (kv.1, v)]> env) | None => Fault BadPointer end
  end.

(** [c_str()] as a source of [size] bytes. *)
Definition c_bytes (s : string) : result (list Z) := slice (data_ s) 0 (length_ s).

Fixpoint Pack (env : envp) (b : buffer) : result buffer :=
  match env with
  | [] => Ok b
  | kv :: env =>
      k ← c_bytes kv.1; b ← WriteLenAndData k b;
      v ← c_bytes kv.2; b ← WriteLenAndData v b;
      Pack env b
  end.

(** A round takes at least the two lengths off the buffer. *)
Fixpoint unpack_loop (fuel : nat) (env : envp) (b : buffer) : result (envp * buffer) :=
  match fuel with
  | O => Fault NoFuel
  | S fuel =>
      if buf_empty b then Ok (env, b)
      else
        '(keysize, b) ← ReadLen b;
        key ← of_buffer (bytes b) keysize;
        b ← Skip keysize b;
        '(valsize, b) ← ReadLen b;
        val ← of_buffer (bytes b) valsize;
        b ← Skip valsize b;
        env ← setVal env key val;
        unpack_loop fuel env b
  end.

Definition Unpack (env : envp) (b : buffer) : result (envp * buffer) :=
  unpack_loop (S (Z.to_nat (size_ b))) env b.
End Buffer.

(** ** [UnpackEnvp]: the entries of a null-terminated table of strings [KEY=VAL] *)
Fixpoint UnpackEnvp (fuel : nat) (table : list (list Z)) (env : envp) : result envp :=
  match fuel with
  | O => Fault NoFuel
  | S fuel =>
      match table with
      | [] => Ok env
      | e :: rest =>
          let entry := of_cstr e in
          found_sep ← find entry 61 0;
          if (found_sep =? npos) || (found_sep =? 0) then UnpackEnvp fuel table env
          else
            k ← substr entry 0 found_sep;
            v ← substr entry (found_sep + 1) npos;
            env ← setVal env k v;
            UnpackEnvp fuel rest env
      end
  end.

(** ** The plain table [environ] points to *)

(** [dst] is advanced past the entry. *)
Definition CopyEntry (dst : Z) (kv : string * string) : M LibcString.memory Z :=
  key ← liftR (c_bytes kv.1);
  StartParams.store_list dst key;;
  let dst := dst + length_ kv.1 in
  LibcString.store dst 61;;
  val ← liftR (c_bytes kv.2);
  StartParams.store_list (dst + 1) val;;
  let dst := dst + 1 + length_ kv.2 in
  LibcString.store dst 0;;
  mret (dst + 1).

(** [slot] is [&start[i]]. *)
Fixpoint apply_loop (env : envp) (slot strings_start : Z) : M LibcString.memory Z :=
  match env with
  | [] => mret slot
  | kv :: env =>
      StartParams.store32 slot strings_start;;
      strings_start ← CopyEntry strings_start kv;
      apply_loop env (slot + 4) strings_start
  end.

Definition ApplyRelative (env : envp) (dst : Z) : M LibcString.memory unit :=
  slot ← apply_loop env dst (dst + 4 * (Z.of_nat (length env) + 1));
  StartParams.store32 slot 0.

Definition plain_size (env : envp) : Z :=
  foldl (λ total kv, u32 (total + length_ kv.1 + 1 + length_ kv.2 + 1)) (u32 ((Z.of_nat (length env) + 1) * 4)) env.

(** [buff] is the address [new char[]] returns. *)
Definition getPlainEnvp (buff : Z) (env : envp) : M LibcString.memory Z :=
  modify (LibcString.alloc (Z.to_nat (plain_size env)) buff);;
  ApplyRelative env buff;;
  mret buff.

(** ** getenv.cpp *)

(** The value's characters from its first on; [operator[]] is used to get at them. *)
Definition getenv (env : envp) (name : list Z) : result (option (list Z)) :=
  r ← getVal env (of_cstr name);
  match r with
  | None => Ok None
  | Some i =>
      match env !! i with
      | Some kv => at_ kv.2 0;; Ok (Some (data_ kv.2))
      | None => Fault BadPointer
      end
  end.

Definition EINVAL : Z := 22.

(** The result with [errno], and the environment; a null name is [None]. *)
Definition setenv (env : envp) (envname : option (list Z)) (envval : list Z) (overwrite : Z) :
    result (Z * option Z * envp) :=
  match envname with
  | None => Ok (-1, Some EINVAL, env)
  | Some name =>
      if bool_decide (name = []) || bool_decide (61 ∈ name) then Ok (-1, Some EINVAL, env)
      else
        val ← getVal env (of_cstr name);
        if bool_decide (is_Some val) && (overwrite =? 0) then Ok (0, None, env)
        else
          env ← setVal env (of_cstr name) (of_cstr envval);
          Ok (0, None, env)
  end.

(** * Lemmas: buffers as lists of bytes *)
Lemma length_bytes32 w : length (StartParams.bytes32 w) = 4%nat.
Proof. done. Qed.

Definition buf_rep (b : buffer) (l : list Z) : Prop :=
  size_ b = Z.of_nat (length l) ∧ capacity_ b = Z.of_nat (length (bytes b)) ∧ ∃ rest, bytes b = l ++ rest.

Lemma slice_Ok d1 d2 d3 off n :
  off = Z.of_nat (length d1) → n = Z.of_nat (length d2) → slice (d1 ++ d2 ++ d3) off n = Ok d2.
Proof.
  intros -> ->. unfold slice. rewrite !length_app.
  rewrite (proj2 (Z.leb_le 0 (Z.of_nat (length d1)))), (proj2 (Z.leb_le 0 (Z.of_nat (length d2)))), (proj2 (Z.leb_le _ (Z.of_nat (length d1 + _)))) by lia.
  simpl. by rewrite !Nat2Z.id, drop_app_length, take_app_length.
Qed.

Lemma slice_first d1 d2 n : n = Z.of_nat (length d1) → slice (d1 ++ d2) 0 n = Ok d1.
Proof. intros Hn. by apply (slice_Ok [] d1 d2). Qed.

Lemma blit_Ok d off bs :
  0 ≤ off → off + Z.of_nat (length bs) ≤ Z.of_nat (length d) →
  ∃ d', blit d off bs = Ok d' ∧ length d' = length d ∧ ∃ rest, d' = take (Z.to_nat off) d ++ bs ++ rest.
Proof.
  intros H0 H1. unfold blit. rewrite (proj2 (Z.leb_le 0 off)), (proj2 (Z.leb_le (off + _) _)) by lia. simpl.
  eexists. split; [done|]. split; [|by eexists]. rewrite !length_app, length_take, length_drop. lia.
Qed.

Section BufferLemmas.
Context (junk : nat → list Z).
Hypothesis junk_length : ∀ n, (n ≤ length (junk n))%nat.

Lemma length_malloc n : 0 ≤ n → length (malloc junk n) = Z.to_nat n.
Proof using junk_length. intros H. unfold malloc. rewrite length_take. specialize (junk_length (Z.to_nat n)). lia. Qed.

Lemma ReserveIfNeeded_buf n b l :
  buf_rep b l → Z.of_nat (length l) ≤ n →
  ∃ b', ReserveIfNeeded junk n b = Ok b' ∧ buf_rep b' l ∧ n ≤ capacity_ b'.
Proof using junk_length.
  intros H Hn. unfold ReserveIfNeeded. destruct (Z.ltb_spec (capacity_ b) n) as [Hlt|Hge]; [|by exists b].
  destruct H as (Hs & Hc & rest & Hb). rewrite Hb.
  rewrite slice_first by done. simpl.
  destruct (blit_Ok (malloc junk n) 0 l) as (d & -> & Hl & r & Hr); [lia|rewrite length_malloc; lia|]. simpl.
  eexists. split; [done|]. split; [|simpl; lia]. rewrite length_malloc in Hl by lia.
  split; [done|]. split; [simpl; lia|]. by exists r.
Qed.

Lemma Write_buf src b l :
  buf_rep b l → Z.of_nat (length (l ++ src)) < 2 ^ 32 → ∃ b', Write junk src b = Ok b' ∧ buf_rep b' (l ++ src).
Proof using junk_length.
  intros H Hb. rewrite length_app in Hb. pose proof H as (Hs & _). unfold Write. rewrite Hs.
  rewrite u32_id by (unfold is_u32; lia).
  destruct (ReserveIfNeeded_buf (Z.of_nat (length src) + Z.of_nat (length l)) b l H) as (b1 & -> & (Hs1 & Hc1 & r1 & Hb1) & Hn); [lia|].
  simpl. destruct (blit_Ok (bytes b1) (size_ b1) src) as (d & -> & Hl & r & Hr); [lia|lia|]. simpl.
  eexists. split; [done|]. rewrite Hs1, Nat2Z.id, Hb1, take_app_length in Hr. split; [|split].
  - simpl. rewrite Hs1, u32_id by (unfold is_u32; lia). rewrite length_app. lia.
  - simpl. by rewrite Hl.
  - exists r. simpl. by rewrite Hr, app_assoc.
Qed.

Lemma WriteLenAndData_buf src b l :
  buf_rep b l → Z.of_nat (length l + 4 + length src) < 2 ^ 32 →
  ∃ b', WriteLenAndData junk src b = Ok b' ∧ buf_rep b' (l ++ StartParams.bytes32 (Z.of_nat (length src)) ++ src).
Proof using junk_length.
  intros H Hb. unfold WriteLenAndData.
  destruct (Write_buf (StartParams.bytes32 (Z.of_nat (length src))) b l H) as (b1 & -> & H1); [rewrite length_app, length_bytes32; lia|].
  cbn [mbind result_bind]. rewrite app_assoc. apply Write_buf; [done|]. rewrite !length_app, length_bytes32. lia.
Qed.
End BufferLemmas.

Lemma Skip_buf b l1 l2 n :
  buf_rep b (l1 ++ l2) → n = Z.of_nat (length l1) → ∃ b', Skip n b = Ok b' ∧ buf_rep b' l2.
Proof.
  intros (Hs & Hc & rest & Hb) Hn. unfold Skip. rewrite length_app in Hs.
  rewrite (proj2 (Z.leb_le n (size_ b))) by lia. simpl. rewrite Hb, <- app_assoc.
  rewrite (slice_Ok l1 l2 rest n) by (done || lia). simpl.
  destruct (blit_Ok (l1 ++ l2 ++ rest) 0 l2) as (d & -> & Hl & r & Hr); [lia|rewrite !length_app; lia|]. simpl.
  eexists. split; [done|]. split; [simpl; lia|]. split; [|by exists r]. simpl. by rewrite Hc, Hl, Hb, <- app_assoc.
Qed.

Lemma Read_buf b l1 l2 n :
  buf_rep b (l1 ++ l2) → n = Z.of_nat (length l1) → ∃ b', Read n b = Ok (l1, b') ∧ buf_rep b' l2.
Proof.
  intros H Hn. destruct (Skip_buf b l1 l2 n H Hn) as (b' & HS & H'). exists b'. split; [|done].
  revert HS. unfold Read, Skip. destruct (assertR (n <=? size_ b)); [|done]. simpl.
  destruct H as (Hs & Hc & rest & Hb). rewrite Hb, <- app_assoc.
  rewrite (slice_first l1) by done. simpl.
  destruct (slice _ n _); [|done]. simpl. destruct (blit _ 0 _); [|done]. simpl. by intros [= ->].
Qed.

Lemma word_of_bytes32 n : is_u32 n → word_of (StartParams.bytes32 n) = n.
Proof. intros H. unfold is_u32 in H. unfold StartParams.bytes32, word_of. dlia. Qed.

Lemma ReadLen_buf b n l :
  buf_rep b (StartParams.bytes32 n ++ l) → is_u32 n → ∃ b', ReadLen b = Ok (n, b') ∧ buf_rep b' l.
Proof.
  intros H Hn. unfold ReadLen. destruct (Read_buf b _ l 4 H eq_refl) as (b' & -> & H'). exists b'.
  split; [|done]. unfold mbind, result_bind. by rewrite word_of_bytes32.
Qed.

(** * Lemmas: environments as association lists *)
Definition pair_rep (p : string * string) (kv : list Z * list Z) : Prop := text p.1 kv.1 ∧ text p.2 kv.2.
Abbreviation env_rep := (Forall2 pair_rep).

Definition lookup_kv (kvs : list (list Z * list Z)) (k : list Z) : option nat :=
  match list_find (λ kv, kv.1 = k) kvs with Some (i, _) => Some i | None => None end.

Definition set_kv (kvs : list (list Z * list Z)) (kv : list Z * list Z) : list (list Z * list Z) :=
  match lookup_kv kvs kv.1 with Some i => <[i := kv]> kvs | None => kvs ++ [kv] end.

Lemma getVal_env env kvs key k : env_rep env kvs → text key k → getVal env key = Ok (lookup_kv kvs k).
Proof.
  intros H Hk. induction H as [|p kv env kvs [Hp1 Hp2] H IH]; [done|]. simpl. unfold lookup_kv. simpl.
  rewrite (eq_Ok p.1 key kv.1 k) by done. simpl. case_bool_decide as E.
  - by rewrite decide_True.
  - rewrite decide_False by done. rewrite IH. simpl. unfold lookup_kv. by destruct (list_find _ kvs) as [[]|].
Qed.

Lemma setVal_env env kvs key val k v :
  env_rep env kvs → text key k → text val v → ∃ env', setVal env key val = Ok env' ∧ env_rep env' (set_kv kvs (k, v)).
Proof.
  intros H Hk Hv. unfold setVal, set_kv. rewrite (getVal_env env kvs key k H Hk). cbn [mbind result_bind fst].
  unfold lookup_kv. destruct (list_find (λ kv, kv.1 = k) kvs) as [[i kv]|] eqn:E.
  - apply list_find_Some in E as (Hi & Hkv & _).
    destruct (Forall2_lookup_r _ _ _ _ _ H Hi) as (p & Hp & Hr1 & Hr2).
    destruct (assign_Ok val v Hv) as [-> Ha]. simpl. rewrite Hp. eexists. split; [done|].
    apply Forall2_insert; [done|]. split; [|done]. simpl. by rewrite <- Hkv.
  - destruct (copy_Ok key k Hk) as (k' & Rk & Hk'). destruct (copy_Ok val v Hv) as (v' & Rv & Hv').
    unfold Add. rewrite Rk, Rv. simpl. eexists. split; [done|]. apply Forall2_app; [done|].
    repeat constructor; apply rep_text; done.
Qed.

Lemma set_kv_fresh kvs kv : kv.1 ∉ kvs.*1 → set_kv kvs kv = kvs ++ [kv].
Proof.
  intros H. unfold set_kv, lookup_kv. destruct (list_find _ kvs) as [[i kv']|] eqn:E; [|done]. exfalso.
  apply list_find_Some in E as (Hi & Hk & _). apply H. rewrite <- Hk. apply list_elem_of_fmap.
  exists kv'. split; [done|]. by eapply list_elem_of_lookup_2.
Qed.

(** A value with its terminator; a new variable gets one. *)
Definition terminated (env : envp) : Prop := Forall (λ p, ∃ l, rep p.2 l) env.

Lemma setVal_terminated env kvs key val k v env' :
  env_rep env kvs → text key k → text val v → k ∉ kvs.*1 → setVal env key val = Ok env' → terminated env → terminated env'.
Proof.
  intros H Hk Hv Hn. unfold setVal. rewrite (getVal_env env kvs key k H Hk). cbn [mbind result_bind].
  unfold lookup_kv. destruct (list_find (λ kv, kv.1 = k) kvs) as [[i kv]|] eqn:E.
  { exfalso. apply list_find_Some in E as (Hi & <- & _). apply Hn, list_elem_of_fmap. exists kv. split; [done|].
    by eapply list_elem_of_lookup_2. }
  destruct (copy_Ok key k Hk) as (k' & Rk & Hk'). destruct (copy_Ok val v Hv) as (v' & Rv & Hv').
  unfold Add. rewrite Rk, Rv. simpl. intros [= <-] Ht. apply Forall_app. split; [done|]. apply Forall_singleton. by exists v.
Qed.

(** ** Packing and unpacking *)
Definition packed (kvs : list (list Z * list Z)) : list Z :=
  concat ((λ kv, StartParams.bytes32 (Z.of_nat (length kv.1)) ++ kv.1 ++
                 StartParams.bytes32 (Z.of_nat (length kv.2)) ++ kv.2) <$> kvs).

Lemma packed_cons kv kvs :
  packed (kv :: kvs) = (StartParams.bytes32 (Z.of_nat (length kv.1)) ++ kv.1 ++
                        StartParams.bytes32 (Z.of_nat (length kv.2)) ++ kv.2) ++ packed kvs.
Proof. done. Qed.

Lemma c_bytes_Ok s l : text s l → c_bytes s = Ok l.
Proof. intros [Hl [r Hr]]. unfold c_bytes. rewrite Hr. by apply slice_first. Qed.

Lemma Pack_env junk env kvs : (∀ n, (n ≤ length (junk n))%nat) → env_rep env kvs → ∀ b l,
  buf_rep b l → Z.of_nat (length (l ++ packed kvs)) < 2 ^ 32 →
  ∃ b', Pack junk env b = Ok b' ∧ buf_rep b' (l ++ packed kvs).
Proof.
  intros Hj H. induction H as [|p kv env kvs [Hp1 Hp2] H IH]; intros b l Hb Hlen; cbn [Pack].
  { exists b. split; [done|]. change (packed []) with (@nil Z). by rewrite app_nil_r. }
  rewrite packed_cons in Hlen |- *. rewrite !length_app, !length_bytes32 in Hlen.
  rewrite (c_bytes_Ok p.1 kv.1 Hp1). cbn [mbind result_bind].
  destruct (WriteLenAndData_buf junk Hj kv.1 b l Hb) as (b1 & -> & H1); [lia|]. cbn [mbind result_bind].
  rewrite (c_bytes_Ok p.2 kv.2 Hp2). cbn [mbind result_bind].
  destruct (WriteLenAndData_buf junk Hj kv.2 b1 _ H1) as (b2 & -> & H2);
    [rewrite !length_app, length_bytes32; lia|]. cbn [mbind result_bind].
  destruct (IH b2 _ H2) as (b3 & -> & H3); [rewrite !length_app, !length_bytes32; lia|]. exists b3. split; [done|].
  by rewrite <- !app_assoc in H3 |- *.
Qed.

Lemma of_buffer_front b l1 l2 n :
  buf_rep b (l1 ++ l2) → n = Z.of_nat (length l1) → ∃ s, of_buffer (bytes b) n = Ok s ∧ rep s l1.
Proof.
  intros (_ & _ & r & Hb) ->. rewrite Hb, <- app_assoc.
  destruct (of_buffer_Ok (l1 ++ l2 ++ r) (Z.of_nat (length l1))) as (s & Hs & Hr); [rewrite length_app; lia|].
  exists s. by rewrite Nat2Z.id, take_app_length in Hr.
Qed.

Lemma unpack_loop_env kvs : ∀ fuel env b old,
  env_rep env old → buf_rep b (packed kvs) → Z.of_nat (length (packed kvs)) < 2 ^ 32 → (length kvs < fuel)%nat →
  ∃ env' b', unpack_loop fuel env b = Ok (env', b') ∧ env_rep env' (foldl set_kv old kvs) ∧ buf_rep b' [] ∧
    (NoDup (old ++ kvs).*1 → terminated env → terminated env').
Proof.
  induction kvs as [|kv kvs IH]; intros fuel env b old Hr Hb Hlen Hf; (destruct fuel as [|fuel]; [simpl in Hf; lia|]);
    cbn [unpack_loop].
  - unfold buf_empty. rewrite (proj1 Hb). exists env, b. by auto.
  - rewrite packed_cons in Hb, Hlen. rewrite <- !app_assoc in Hb. unfold buf_empty. rewrite (proj1 Hb).
    rewrite !length_app, !length_bytes32 in *. rewrite (proj2 (Z.eqb_neq _ _)) by lia.
    destruct (ReadLen_buf b _ _ Hb) as (b1 & -> & H1); [unfold is_u32; lia|]. cbn [mbind result_bind].
    destruct (of_buffer_front b1 kv.1 _ (Z.of_nat (length kv.1)) H1 eq_refl) as (key & -> & Hkey). cbn [mbind result_bind].
    destruct (Skip_buf b1 kv.1 _ (Z.of_nat (length kv.1)) H1 eq_refl) as (b2 & -> & H2). cbn [mbind result_bind].
    destruct (ReadLen_buf b2 _ _ H2) as (b3 & -> & H3); [unfold is_u32; lia|]. cbn [mbind result_bind].
    destruct (of_buffer_front b3 kv.2 _ (Z.of_nat (length kv.2)) H3 eq_refl) as (val & -> & Hval). cbn [mbind result_bind].
    destruct (Skip_buf b3 kv.2 _ (Z.of_nat (length kv.2)) H3 eq_refl) as (b4 & -> & H4). cbn [mbind result_bind].
    destruct (setVal_env env old key val kv.1 kv.2 Hr (rep_text _ _ Hkey) (rep_text _ _ Hval)) as (env1 & R1 & Henv).
    rewrite R1. cbn [mbind result_bind foldl]. destruct kv as [k v].
    destruct (IH fuel env1 b4 (set_kv old (k, v)) Henv H4) as (env' & b' & R & Hr' & Hb' & Ht); [lia|simpl in Hf; lia|].
    exists env', b'. split; [done|]. split; [done|]. split; [done|]. intros Hd Hte. pose proof Hd as Hd'.
    rewrite fmap_app, fmap_cons, NoDup_app in Hd. destruct Hd as (_ & Hd & _).
    assert (Hk : k ∉ old.*1) by (intros Hin; apply (Hd _ Hin); by left).
    apply Ht; [by rewrite set_kv_fresh, <- app_assoc by done|].
    exact (setVal_terminated env old key val k v env1 Hr (rep_text _ _ Hkey) (rep_text _ _ Hval) Hk R1 Hte).
Qed.

(** Taking bytes off a buffer leaves its allocation. *)
Lemma Skip_capacity n b b' : Skip n b = Ok b' → capacity_ b' = capacity_ b.
Proof.
  unfold Skip. destruct (assertR _); [|done]. cbn [mbind result_bind]. destruct (slice _ _ _); [|done]. cbn [mbind result_bind].
  destruct (blit _ _ _); [|done]. by intros [= <-].
Qed.

Lemma ReadLen_capacity b n b' : ReadLen b = Ok (n, b') → capacity_ b' = capacity_ b.
Proof.
  unfold ReadLen, Read. destruct (assertR _); [|done]. cbn [mbind result_bind]. destruct (slice _ _ 4); [|done]. cbn [mbind result_bind].
  destruct (slice _ _ _); [|done]. cbn [mbind result_bind]. destruct (blit _ _ _); [|done]. by intros [= <- <-].
Qed.

Lemma unpack_loop_capacity fuel : ∀ env b env' b', unpack_loop fuel env b = Ok (env', b') → capacity_ b' = capacity_ b.
Proof.
  induction fuel as [|fuel IH]; intros env b env' b'; cbn [unpack_loop]; [done|]. destruct (buf_empty b); [by intros [= _ <-]|].
  destruct (ReadLen b) as [[k b1]|] eqn:E1; [|done]. cbn [mbind result_bind]. destruct (of_buffer _ _); [|done]. cbn [mbind result_bind].
  destruct (Skip k b1) as [b2|] eqn:E2; [|done]. cbn [mbind result_bind].
  destruct (ReadLen b2) as [[v b3]|] eqn:E3; [|done]. cbn [mbind result_bind]. destruct (of_buffer _ _); [|done]. cbn [mbind result_bind].
  destruct (Skip v b3) as [b4|] eqn:E4; [|done]. cbn [mbind result_bind]. destruct (setVal _ _ _); [|done]. cbn [mbind result_bind].
  intros H. apply IH in H. apply Skip_capacity in E2, E4. apply ReadLen_capacity in E1, E3. congruence.
Qed.

Lemma packed_length kvs : (length kvs ≤ length (packed kvs))%nat.
Proof. induction kvs as [|kv kvs IH]; [done|]. rewrite packed_cons, !length_app, !length_bytes32. simpl. lia. Qed.

Lemma foldl_set_kv kvs : ∀ old, NoDup ((old ++ kvs).*1) → foldl set_kv old kvs = old ++ kvs.
Proof.
  induction kvs as [|kv kvs IH]; intros old H; simpl; [by rewrite app_nil_r|].
  rewrite set_kv_fresh.
  - rewrite IH; [by rewrite <- app_assoc|]. by rewrite <- app_assoc.
  - intros Hin. rewrite fmap_app, fmap_cons, NoDup_app in H. destruct H as (_ & H & _). apply (H _ Hin). by left.
Qed.

(** ** The plain table *)
Definition entry_text (kv : list Z * list Z) : list Z := kv.1 ++ 61 :: kv.2.

Lemma CopyEntry_Ok m dst p kv :
  pair_rep p kv → StartParams.writable m dst (Z.of_nat (length (entry_text kv)) + 1) →
  Forall is_u8 (entry_text kv) →
  ∃ m', CopyEntry dst p m = Ok (dst + Z.of_nat (length (entry_text kv)) + 1, m') ∧
    StartParams.contents m' dst (entry_text kv ++ [0]) ∧
    StartParams.changed m m' dst (Z.of_nat (length (entry_text kv)) + 1).
Proof.
  intros [Hk Hv] Hw Hu. destruct (StartParams.store_list_Ok (entry_text kv ++ [0]) m dst) as (m' & R & C & K).
  { rewrite length_app, Nat2Z.inj_add. exact Hw. }
  { apply Forall_app. split; [done|]. repeat constructor; unfold is_u8; lia. }
  rewrite length_app, Nat2Z.inj_add in K. exists m'. split; [|done]. revert R.
  unfold CopyEntry, entry_text. rewrite (c_bytes_Ok _ _ Hk). rewrite <- app_assoc. cbn [app].
  rewrite StartParams.store_list_app. munfold.
  destruct (StartParams.store_list dst kv.1 m) as [[[] m1]|]; [|done]. cbn [StartParams.store_list]. munfold.
  rewrite (proj1 Hk). destruct (LibcString.store (dst + Z.of_nat (length kv.1)) 61 m1) as [[[] m2]|]; [|done].
  rewrite StartParams.store_list_app, (c_bytes_Ok _ _ Hv). munfold.
  destruct (StartParams.store_list _ kv.2 m2) as [[[] m3]|]; [|done]. cbn [StartParams.store_list]. munfold.
  rewrite (proj1 Hv). destruct (LibcString.store _ 0 m3) as [[[] m4]|]; [|done]. intros [= ->]. do 2 f_equal.
  rewrite length_app. simpl. lia.
Qed.

Lemma apply_loop_Ok env kvs : env_rep env kvs → ∀ m slot strs,
  0 ≤ slot → slot + 4 * Z.of_nat (length kvs) + 4 ≤ strs →
  strs + StartParams.strs_size (entry_text <$> kvs) ≤ 2 ^ 32 →
  (∀ a, slot ≤ a < strs + StartParams.strs_size (entry_text <$> kvs) → is_Some (m !! a)) →
  Forall (λ kv, Forall is_u8 (entry_text kv)) kvs →
  ∃ m', apply_loop env slot strs m = Ok (slot + 4 * Z.of_nat (length kvs), m') ∧
    StartParams.argv_at m' slot strs (entry_text <$> kvs) ∧
    StartParams.changed m m' slot (strs + StartParams.strs_size (entry_text <$> kvs) - slot) ∧
    (∀ a, slot + 4 * Z.of_nat (length kvs) ≤ a < strs → m' !! a = m !! a).
Proof.
  intros H. induction H as [|p kv env kvs Hp H IH]; intros m slot strs H0 Hd Ht Hm Hu;
    cbn [apply_loop fmap list_fmap StartParams.argv_at StartParams.strs_size length] in *.
  { exists m. rewrite Z.add_0_r. repeat split; done. }
  apply Forall_cons in Hu as [Hu0 Hu]. pose proof (StartParams.strs_size_nonneg (entry_text <$> kvs)) as Hn.
  destruct (StartParams.store_list_Ok (StartParams.bytes32 strs) m slot) as (m1 & R1 & C1 & K1).
  { split; [lia|]. split; [rewrite length_bytes32; lia|]. intros a Ha. apply Hm. rewrite length_bytes32 in Ha. lia. }
  { apply StartParams.bytes32_u8. }
  rewrite length_bytes32 in K1. unfold StartParams.store32. rewrite (bind_Ok _ _ _ _ _ R1).
  destruct (CopyEntry_Ok m1 strs p kv Hp) as (m2 & R2 & C2 & K2).
  { split; [lia|]. split; [lia|]. intros a Ha. apply K1, Hm. lia. } { done. }
  rewrite (bind_Ok _ _ _ _ _ R2).
  destruct (IH m2 (slot + 4) (strs + Z.of_nat (length (entry_text kv)) + 1)) as (m' & R & A & K & Kt); [lia..| |done|].
  { intros a Ha. apply K2, K1, Hm. lia. }
  assert (Hout : ∀ a, slot ≤ a < slot + 4 ∨ strs ≤ a < strs + Z.of_nat (length (entry_text kv)) + 1 → m' !! a = m2 !! a).
  { intros a Ha. destruct Ha as [Ha|Ha]; [by apply K; lia|]. apply Kt. lia. }
  exists m'. split; [rewrite R; do 2 f_equal; lia|]. split; [|split].
  - split; [|split; [|exact A]].
    + eapply StartParams.contents_local; [|exact C1]. intros i Hi. rewrite length_bytes32 in Hi.
      rewrite Hout by lia. apply K2. lia.
    + eapply StartParams.contents_local; [|exact C2]. intros i Hi. rewrite length_app in Hi. simpl in Hi.
      apply Hout. lia.
  - split.
    + intros a Ha. destruct K as [K _], K1 as [K1 _], K2 as [K2 _]. rewrite K, K2, K1 by lia. done.
    + intros a Ha. by apply K, K2, K1.
  - intros a Ha. rewrite Kt by lia. destruct K1 as [K1 _], K2 as [K2 _]. rewrite K2, K1 by lia. done.
Qed.

(** [environ] is a table of the entries [KEY=VAL], ended by a null pointer. *)
Lemma ApplyRelative_Ok env kvs m dst :
  env_rep env kvs → 0 ≤ dst →
  let strs := dst + 4 * (Z.of_nat (length kvs) + 1) in
  strs + StartParams.strs_size (entry_text <$> kvs) ≤ 2 ^ 32 →
  (∀ a, dst ≤ a < strs + StartParams.strs_size (entry_text <$> kvs) → is_Some (m !! a)) →
  Forall (λ kv, Forall is_u8 (entry_text kv)) kvs →
  ∃ m', ApplyRelative env dst m = Ok (tt, m') ∧ StartParams.argv_at m' dst strs (entry_text <$> kvs) ∧
    StartParams.contents m' (dst + 4 * Z.of_nat (length kvs)) (StartParams.bytes32 0) ∧
    StartParams.changed m m' dst (strs + StartParams.strs_size (entry_text <$> kvs) - dst).
Proof.
  intros H H0 strs Ht Hm Hu. pose proof (StartParams.strs_size_nonneg (entry_text <$> kvs)) as Hn.
  unfold ApplyRelative. rewrite (Forall2_length _ _ _ H). fold strs.
  destruct (apply_loop_Ok env kvs H m dst strs) as (m1 & R1 & A & K & _); [lia|unfold strs; lia|done|done|done|].
  rewrite (bind_Ok _ _ _ _ _ R1).
  destruct (StartParams.store_list_Ok (StartParams.bytes32 0) m1 (dst + 4 * Z.of_nat (length kvs))) as (m2 & R2 & C2 & K2).
  { rewrite length_bytes32. split; [lia|]. split; [unfold strs in *; lia|]. intros a Ha. apply K, Hm. unfold strs. lia. }
  { apply StartParams.bytes32_u8. }
  exists m2. split; [exact R2|]. rewrite length_bytes32 in K2. split; [|split; [exact C2|split]].
  - eapply StartParams.argv_at_local; [| |exact A]; intros i Hi; apply K2; rewrite ?length_fmap in Hi; unfold strs; lia.
  - intros a Ha. destruct K as [K _], K2 as [K2 _]. rewrite K2 by (unfold strs in *; lia). by apply K.
  - intros a Ha. by apply K2, K.
Qed.

Lemma plain_size_Ok env kvs : env_rep env kvs →
  4 * (Z.of_nat (length kvs) + 1) + StartParams.strs_size (entry_text <$> kvs) < 2 ^ 32 →
  plain_size env = 4 * (Z.of_nat (length kvs) + 1) + StartParams.strs_size (entry_text <$> kvs).
Proof.
  intros H. unfold plain_size. rewrite (Forall2_length _ _ _ H).
  assert (Hk : 0 ≤ 4 * (Z.of_nat (length kvs) + 1)) by lia. intros Hb.
  pose proof (StartParams.strs_size_nonneg (entry_text <$> kvs)) as Hn.
  rewrite u32_id by (unfold is_u32; lia). replace ((Z.of_nat (length kvs) + 1) * 4) with (4 * (Z.of_nat (length kvs) + 1)) by lia.
  clear Hn. revert Hb Hk. generalize (4 * (Z.of_nat (length kvs) + 1)) as k.
  induction H as [|p kv env kvs [H1 H2] H IH]; intros k Hb Hk; cbn [foldl fmap list_fmap StartParams.strs_size] in *; [lia|].
  pose proof (StartParams.strs_size_nonneg (entry_text <$> kvs)). unfold entry_text in Hb at 1 |- * at 1.
  rewrite length_app in Hb |- *. cbn [length] in *. rewrite (proj1 H1), (proj1 H2).
  rewrite u32_id by (unfold is_u32; lia). rewrite IH by lia. lia.
Qed.

(** [environ] in an allocation of its own. *)
Lemma getPlainEnvp_Ok env kvs m buff :
  env_rep env kvs → Forall (λ kv, Forall is_u8 (entry_text kv)) kvs → 0 ≤ buff →
  let n := 4 * (Z.of_nat (length kvs) + 1) + StartParams.strs_size (entry_text <$> kvs) in
  buff + n ≤ 2 ^ 32 → n < 2 ^ 32 →
  ∃ m', getPlainEnvp buff env m = Ok (buff, m') ∧
    StartParams.argv_at m' buff (buff + 4 * (Z.of_nat (length kvs) + 1)) (entry_text <$> kvs) ∧
    StartParams.contents m' (buff + 4 * Z.of_nat (length kvs)) (StartParams.bytes32 0) ∧
    (∀ a, ¬ (buff ≤ a < buff + n) → m' !! a = m !! a).
Proof.
  intros H Hu H0 n Hb Hn. pose proof (StartParams.strs_size_nonneg (entry_text <$> kvs)) as Hs.
  unfold getPlainEnvp. erewrite bind_Ok by done. rewrite (plain_size_Ok env kvs H Hn). fold n.
  assert (Hal : ∀ a, LibcString.alloc (Z.to_nat n) buff m !! a = if LibcString.in_range a buff n then Some 0 else m !! a).
  { intros a. rewrite LibcString.alloc_lookup, Z2Nat.id by (unfold n; lia). done. }
  destruct (ApplyRelative_Ok env kvs (LibcString.alloc (Z.to_nat n) buff m) buff H H0) as (m' & R & A & Hnull & K & _);
    [unfold n in *; lia| |done|].
  { intros a Ha. rewrite Hal, (proj2 (LibcString.in_range_spec _ _ _)) by (unfold n; lia). by eexists. }
  exists m'. rewrite (bind_Ok _ _ _ _ _ R). split; [done|]. split; [exact A|]. split; [exact Hnull|]. intros a Ha.
  rewrite K by (unfold n in *; lia). rewrite Hal. destruct (LibcString.in_range a buff n) eqn:E; [|done].
  apply LibcString.in_range_spec in E. lia.
Qed.

(** * Properties *)

(** The environment arrives.  For an environment with distinct keys, packing it into a new
    buffer succeeds; a receiver that has the packed bytes in a buffer of its own unpacks,
    in bounded time, an environment with the same keys and values in the same order (so
    every [getVal] gives the same), and uses up the buffer; unpacking into an environment that is
    not empty sets the received variables one after the other. *)
Lemma envp_round_trip junk env kvs old_env old :
  (∀ n, (n ≤ length (junk n))%nat) → env_rep env kvs → env_rep old_env old →
  Z.of_nat (length (packed kvs)) < 2 ^ 32 →
  ∃ b, Pack junk env (new_buffer junk 0) = Ok b ∧
    ∀ received, buf_rep received (take (Z.to_nat (size_ b)) (bytes b)) →
      ∃ env' b', Unpack old_env received = Ok (env', b') ∧ buf_empty b' = true ∧
        env_rep env' (foldl set_kv old kvs) ∧
        (old = [] → NoDup kvs.*1 → env_rep env' kvs ∧ ∀ key k, text key k → getVal env' key = getVal env key).
Proof.
  intros Hj He Hold Hlen. assert (H0 : buf_rep (new_buffer junk 0) []).
  { split; [done|]. split; [|by eexists]. cbn [bytes capacity_ new_buffer]. rewrite length_malloc; [done|done|]. lia. }
  destruct (Pack_env junk env kvs Hj He _ [] H0 Hlen) as (b & R & Hs & _ & rest & Hb). exists b. split; [done|].
  intros rcv Hr. rewrite Hs, Nat2Z.id, Hb, take_app_length in Hr. cbn [app] in Hr. unfold Unpack.
  destruct (unpack_loop_env kvs (S (Z.to_nat (size_ rcv))) old_env rcv old Hold Hr Hlen) as (env' & b' & R' & Henv & Hb' & _).
  { rewrite (proj1 Hr). pose proof (packed_length kvs). lia. }
  exists env', b'. split; [done|]. split; [unfold buf_empty; by rewrite (proj1 Hb')|]. split; [done|].
  intros -> Hd. rewrite foldl_set_kv in Henv by done. split; [done|]. intros key k Hk.
  by rewrite (getVal_env env' kvs key k Henv Hk), (getVal_env env kvs key k He Hk).
Qed.

(** ** Where the code falls short *)

(** An entry without a key is never passed: [continue] skips the [++envp]. *)
Lemma malformed_entry_never_ends fuel env : UnpackEnvp fuel [[65; 66]] env = Fault NoFuel.
Proof. induction fuel as [|fuel IH]; [done|]. exact IH. Qed.

(** A variable with an empty value cannot be read: its first character is out of range. *)
Lemma getenv_empty_value_aborts : getenv [(of_cstr [65], of_cstr [])] [65] = Fault Aborted.
Proof. reflexivity. Qed.

(** After a variable was set again, the pointer [getenv] returns leads to an array without a
    terminating zero. *)
Lemma setenv_twice_unterminated :
  ∃ env, setenv [(of_cstr [65], of_cstr [49])] (Some [65]) [50] 1 = Ok (0, None, env) ∧
         getenv env [65] = Ok (Some [50]).
Proof. by eexists. Qed.

End Envp.
