(* ===== verification/Elf.v ===== *)
(** Loading a program: libc/elf.cpp and libc/include/libc/elf/elf.h.

    The ELF file and the page the program is loaded to are both in the memory of the loading
    process; headers are read from memory where the code reads them, at their offsets.
    The symbol and section tables of [ElfModule], which the loader does not use, are in ElfSymbols.v. *)
From S2P Require Import Prelude LibcString StartParams.
Import LibcString.LibcString.
Import StartParams.StartParams.

Module Elf.

Definition load16 (a : Z) : M memory Z := b0 ← load a; b1 ← load (a + 1); mret (b0 + 2 ^ 8 * b1).

(** ** Constants *)
Definition PT_LOAD : Z := 1.
Definition PT_DYNAMIC : Z := 2.
Definition DT_NULL : Z := 0.
Definition DT_STRTAB : Z := 5.
Definition DT_SYMTAB : Z := 6.
Definition DT_STRSZ : Z := 10.
Definition DT_SYMENT : Z := 11.
Definition DT_RPATH : Z := 15.
Definition DT_REL : Z := 17.
Definition DT_RELSZ : Z := 18.
Definition DT_RELENT : Z := 19.
Definition DT_DEBUG : Z := 21.
Definition DT_JMPREL : Z := 23.
Definition DT_FLAGS : Z := 30.
Definition DT_GNU_HASH : Z := 0x6ffffef5.
Definition DT_RELCOUNT : Z := 0x6ffffffa.
Definition DT_FLAGS_1 : Z := 0x6ffffffb.
Definition DF_1_PIE : Z := 0x8000000.
Definition R_386_RELATIVE : Z := 8.

(** Offsets of [Elf32_Ehdr] and [Elf32_Phdr], and the sizes of the table entries. *)
Definition e_entry : Z := 24.
Definition e_phoff : Z := 28.
Definition e_phnum : Z := 44.
Definition p_type : Z := 0.
Definition p_offset : Z := 4.
Definition p_vaddr : Z := 8.
Definition p_filesz : Z := 16.
Definition p_memsz : Z := 20.
Definition sizeof_Phdr : Z := 32.
Definition sizeof_Dyn : Z := 8.
Definition sizeof_Rel : Z := 8.
Definition kMinAlign : Z := 4.

(** ** [ElfModule] *)
Definition IsValidElf (hdr : Z) : M memory bool :=
  c0 ← load hdr; c1 ← load (hdr + 1); c2 ← load (hdr + 2); c3 ← load (hdr + 3);
  mret ((c0 =? 127) && (c1 =? 69) && (c2 =? 76) && (c3 =? 70)).

Definition ElfModule (elf_data : Z) : M memory unit :=
  assert_ (elf_data mod kMinAlign =? 0);;
  b ← IsValidElf elf_data; assert_ b.

Definition getProgHdr (elf_data : Z) : M memory Z := off ← load32 (elf_data + e_phoff); mret (u32 (elf_data + off)).

(** ** The loadable segments *)

(** The body of the loop; [segment] is the address of the program header. *)
Definition load_segment (elf_data load_addr segment : Z) : M memory unit :=
  ty ← load32 (segment + p_type);
  if negb (s32 ty =? PT_LOAD) then mret tt
  else
    vaddr ← load32 (segment + p_vaddr);
    let dst := u32 (load_addr + vaddr) in
    off ← load32 (segment + p_offset);
    let src := u32 (elf_data + off) in
    memsz ← load32 (segment + p_memsz);
    filesz ← load32 (segment + p_filesz);
    if s32 filesz <? s32 memsz then
      cpy_size ← load32 (segment + p_filesz);
      memcpy dst src cpy_size;;
      memsz ← load32 (segment + p_memsz);
      memset (u32 (dst + cpy_size)) 0 (u32 (memsz - cpy_size));;
      mret tt
    else
      memsz ← load32 (segment + p_memsz);
      memcpy dst src memsz;;
      mret tt.

(** [i] is below [e_phnum], a 16-bit number, which bounds the loop. *)
Fixpoint segment_loop (fuel : nat) (elf_data load_addr phdr i : Z) : M memory unit :=
  match fuel with
  | O => fail NoFuel
  | S fuel =>
      n ← load16 (elf_data + e_phnum);
      if i <? n then
        load_segment elf_data load_addr (phdr + sizeof_Phdr * i);;
        segment_loop fuel elf_data load_addr phdr (i + 1)
      else mret tt
  end.

Definition load_segments (elf_data load_addr : Z) : M memory unit :=
  phdr ← getProgHdr elf_data;
  segment_loop (Z.to_nat (2 ^ 16)) elf_data load_addr phdr 0.

(** ** The dynamic section *)
Record Relocator := mkRelocator { rel_addr_ : Z; rel_size_ : Z; rel_ent_size_ : Z; found_relocs_ : bool }.

Definition no_relocs : Relocator := mkRelocator 0 0 0 false.

Definition SaveRelocs (rel_addr rel_size rel_ent_size : Z) (r : Relocator) : M memory Relocator :=
  assert_ (negb (found_relocs_ r));;
  mret (mkRelocator rel_addr rel_size rel_ent_size true).

(** What the walk over the section has found: the values behind the pointers. *)
Record dyn_info := Dyn { rel_addr : option Z; rel_size : option Z; rel_ent_size : option Z; rel_count : option Z;
                         flags1 : option Z }.

(** Case by case as in the switch; a tag that is not listed traps. *)
Definition dyn_tag (tag val : Z) (d : dyn_info) : option (option dyn_info) :=
  if tag =? DT_NULL then Some None
  else if existsb (Z.eqb tag) [DT_STRTAB; DT_SYMTAB; DT_SYMENT; DT_STRSZ; DT_RPATH; DT_DEBUG; DT_JMPREL; DT_FLAGS; DT_GNU_HASH]
  then Some (Some d)
  else if tag =? DT_REL then Some (Some (Dyn (Some val) (rel_size d) (rel_ent_size d) (rel_count d) (flags1 d)))
  else if tag =? DT_RELSZ then Some (Some (Dyn (rel_addr d) (Some val) (rel_ent_size d) (rel_count d) (flags1 d)))
  else if tag =? DT_RELENT then Some (Some (Dyn (rel_addr d) (rel_size d) (Some val) (rel_count d) (flags1 d)))
  else if tag =? DT_RELCOUNT then Some (Some (Dyn (rel_addr d) (rel_size d) (rel_ent_size d) (Some val) (flags1 d)))
  else if tag =? DT_FLAGS_1 then Some (Some (Dyn (rel_addr d) (rel_size d) (rel_ent_size d) (rel_count d) (Some val)))
  else None.

Fixpoint dynamic_loop (fuel : nat) (dynamic : Z) (d : dyn_info) : M memory dyn_info :=
  match fuel with
  | O => fail NoFuel
  | S fuel =>
      tag ← load32 dynamic;
      val ← (if s32 tag =? DT_NULL then mret 0 else load32 (dynamic + 4));
      match dyn_tag (s32 tag) val d with
      | Some None => mret d
      | Some (Some d) => dynamic_loop fuel (dynamic + sizeof_Dyn) d
      | None => fail Aborted
      end
  end.

(** [uninit] is what the uninitialised pointer [rel_count] happens to lead to, if it is not null. *)
Definition HandleDynamicSection (uninit : option Z) (dynamic : Z) (r : Relocator) : M memory Relocator :=
  fuel ← gets fuel_of;
  d ← dynamic_loop fuel dynamic (Dyn None None None uninit None);
  r ← match rel_addr d with
      | Some addr =>
          match rel_size d, rel_ent_size d with
          | Some size, Some ent =>
              assert_ (0 <=? s32 size);;
              assert_ (0 <=? s32 ent);;
              match rel_count d with
              | Some count => assert_ (s32 (u32 (s32 count * s32 ent)) =? s32 size)
              | None => mret tt
              end;;
              SaveRelocs addr size ent r
          | _, _ => fail AssertFailed
          end
      | None => mret r
      end;
  match flags1 d with
  | Some f => assert_ (tobool (Z.land f DF_1_PIE))
  | None => mret tt
  end;;
  mret r.

(** The first segment of type [PT_DYNAMIC]. *)
Fixpoint find_dynamic (fuel : nat) (uninit : option Z) (elf_data phdr i : Z) (r : Relocator) : M memory Relocator :=
  match fuel with
  | O => fail NoFuel
  | S fuel =>
      n ← load16 (elf_data + e_phnum);
      if i <? n then
        ty ← load32 (phdr + sizeof_Phdr * i + p_type);
        if s32 ty =? PT_DYNAMIC then
          off ← load32 (phdr + sizeof_Phdr * i + p_offset);
          HandleDynamicSection uninit (u32 (elf_data + off)) r
        else find_dynamic fuel uninit elf_data phdr (i + 1) r
      else mret r
  end.

(** ** Relocations *)
Fixpoint reloc_loop (fuel : nat) (reloc end_ this_load new_load : Z) : M memory unit :=
  match fuel with
  | O => fail NoFuel
  | S fuel =>
      r_offset ← load32 reloc;
      let dst := u32 (this_load + r_offset) in
      r_info ← load32 (reloc + 4);
      let sym := Z.shiftr (s32 r_info) 8 in
      let type := u8 r_info in
      if type =? R_386_RELATIVE then
        assert_ (sym =? 0);;
        w ← load32 dst;
        store32 dst (u32 (w + new_load));;
        let reloc := reloc + sizeof_Rel in
        if reloc <? end_ then reloc_loop fuel reloc end_ this_load new_load else mret tt
      else fail Aborted
  end.

Definition ApplyRelocs (r : Relocator) (elf_data this_proc_load_addr new_proc_load_addr : Z) : M memory unit :=
  assert_ (found_relocs_ r);;
  assert_ (rel_ent_size_ r =? sizeof_Rel);;
  assert_ (u32 (elf_data + rel_addr_ r) mod 4 =? 0);;
  assert_ (0 <? rel_size_ r);;
  reloc_loop (S (Z.to_nat (rel_size_ r))) (u32 (elf_data + rel_addr_ r))
    (u32 (elf_data + rel_addr_ r + rel_size_ r)) this_proc_load_addr new_proc_load_addr.

(** The part of [LoadElfProgram] that builds the image in the page at [load_addr], for the
    new process's page at [new_load_addr]; the result is the program's entry point. *)
Definition build_image (uninit : option Z) (elf_data load_addr new_load_addr : Z) : M memory Z :=
  ElfModule elf_data;;
  program_entry_point ← load32 (elf_data + e_entry);
  load_segments elf_data load_addr;;
  phdr ← getProgHdr elf_data;
  relocator ← find_dynamic (Z.to_nat (2 ^ 16)) uninit elf_data phdr 0 no_relocs;
  (if found_relocs_ relocator then ApplyRelocs relocator elf_data load_addr new_load_addr else mret tt);;
  mret (u32 (new_load_addr + program_entry_point)).

(** * Lemmas *)

Lemma load16_Ok m a b0 b1 : 0 ≤ a → a + 2 ≤ 2 ^ 32 → contents m a [b0; b1] → load16 a m = Ok (b0 + 2 ^ 8 * b1, m).
Proof.
  intros H0 H1 Hc. apply contents_cons in Hc as [Hb0 Hc]. apply contents_cons in Hc as [Hb1 _].
  unfold load16, load. munfold. rewrite !u32_id by (unfold is_u32; lia). by rewrite Hb0, Hb1.
Qed.

Lemma memset_loop_Ok n : ∀ m p v, writable m p (Z.of_nat n) →
  ∃ m', memset_loop n p v m = Ok (tt, m') ∧
        ∀ a, m' !! a = if in_range a p (Z.of_nat n) then Some (u8 v) else m !! a.
Proof.
  induction n as [|n IH]; intros m p v (H0 & H1 & Hm).
  { exists m. split; [done|]. intros a. destruct (in_range a p _) eqn:E; [|done]. apply in_range_spec in E. lia. }
  destruct (Hm p) as [b Hb]; [lia|]. cbn [memset_loop].
  erewrite bind_Ok by (unfold store; rewrite u32_id by (unfold is_u32; lia); by rewrite Hb).
  destruct (IH (<[p := u8 v]> m) (p + 1) v) as (m' & Hrun & Hm').
  { split; [lia|]. split; [lia|]. intros a Ha. rewrite lookup_insert_ne by lia. apply Hm. lia. }
  exists m'. split; [exact Hrun|]. intros a. rewrite Hm'. unfold in_range. destruct (Z.eq_dec a p) as [->|].
  - destruct (Z.leb_spec (p + 1) p), (Z.leb_spec p p), (Z.ltb_spec p (p + Z.of_nat (S n))); try lia. simpl.
    by rewrite lookup_insert_eq.
  - destruct (Z.leb_spec (p + 1) a), (Z.leb_spec p a), (Z.ltb_spec a (p + 1 + Z.of_nat n)),
      (Z.ltb_spec a (p + Z.of_nat (S n))); try lia; simpl; rewrite ?lookup_insert_ne by lia; done.
Qed.

Lemma memset_sets m p v n : 0 ≤ n → writable m p n →
  ∃ m', memset p v n m = Ok (p, m') ∧ ∀ a, m' !! a = if in_range a p n then Some (u8 v) else m !! a.
Proof.
  intros Hn Hw. destruct (memset_loop_Ok (Z.to_nat n) m p v) as (m' & Hrun & Hm');
    rewrite ?Z2Nat.id in * by done; [done|].
  exists m'. unfold memset. by rewrite (bind_Ok _ _ _ _ _ Hrun).
Qed.

(** ** Segments *)

Lemma moved_out m m' dst src n a : moved m m' dst src n → ¬ (dst ≤ a < dst + n) → m' !! a = m !! a.
Proof. intros H Ha. rewrite H. destruct (in_range a dst n) eqn:E; [|done]. by apply in_range_spec in E. Qed.

(** The fields of a program header that the loader reads. *)
Record segment := Segment { ty : Z; off : Z; vaddr : Z; filesz : Z; memsz : Z }.

Definition header_at (m : memory) (p : Z) (h : segment) : Prop :=
  contents m (p + p_type) (bytes32 (ty h)) ∧ contents m (p + p_offset) (bytes32 (off h)) ∧
  contents m (p + p_vaddr) (bytes32 (vaddr h)) ∧ contents m (p + p_filesz) (bytes32 (filesz h)) ∧
  contents m (p + p_memsz) (bytes32 (memsz h)).

(** The numbers are words; what is loaded is in the file, of [flen] bytes, and fits the page. *)
Definition fits (flen psize : Z) (h : segment) : Prop :=
  is_u32 (ty h) ∧ is_u32 (off h) ∧ is_u32 (vaddr h) ∧ is_u32 (filesz h) ∧ is_u32 (memsz h) ∧
  (ty h = PT_LOAD → filesz h < 2 ^ 31 ∧ memsz h < 2 ^ 31 ∧ off h + Z.min (filesz h) (memsz h) ≤ flen ∧
                    vaddr h + memsz h ≤ psize).

Definition covers (h : segment) (o : Z) : bool := (ty h =? PT_LOAD) && in_range o (vaddr h) (memsz h).

(** The byte a segment puts at offset [o] of the page. *)
Definition seg_byte (m : memory) (elf_data : Z) (h : segment) (o : Z) : option Z :=
  if o - vaddr h <? filesz h then m !! (elf_data + off h + (o - vaddr h)) else Some 0.

Lemma s32_eqb w k : is_u32 w → 0 ≤ k < 2 ^ 31 → (s32 w =? k) = (w =? k).
Proof.
  unfold is_u32, s32. intros Hw Hk.
  destruct (Z.ltb_spec w (2 ^ 31)); [done|]. destruct (Z.eqb_spec (w - 2 ^ 32) k), (Z.eqb_spec w k); lia || done.
Qed.

(** What one run of the loop's body does to the memory. *)
Definition loaded (elf_data page psize : Z) (h : segment) (m m' : memory) : Prop :=
  ∀ a, m' !! a = if in_range a page psize && covers h (a - page) then seg_byte m elf_data h (a - page) else m !! a.

Section segments.
  Context (elf_data flen page psize : Z).
  Hypothesis Hsep : elf_data + flen ≤ page ∨ page + psize ≤ elf_data.

(** The file and the page are there, below the last byte of the address space. *)
Definition there (m : memory) : Prop :=
  (bytes m elf_data flen ∧ bytes m page psize) ∧ elf_data + flen < 2 ^ 32 ∧ page + psize < 2 ^ 32.

Lemma loaded_there h m m' : fits flen psize h → there m → loaded elf_data page psize h m m' → there m'.
Proof using Hsep.
  intros Hfit [[(He0 & He1 & He) (Hp0 & Hp1 & Hp)] Hlt] Hl. split; [|done]. split; (split; [done|split; [done|]]); intros a Ha; rewrite Hl.
  - destruct (in_range a page psize) eqn:E; [apply in_range_spec in E; lia|]. by apply He.
  - destruct (in_range a page psize) eqn:E; [|by apply Hp]. simpl.
    destruct (covers h (a - page)) eqn:Ec; [|by apply Hp].
    unfold covers in Ec. apply andb_true_iff in Ec as [Et%Z.eqb_eq Ec%in_range_spec].
    destruct Hfit as (? & Ho & ? & ? & ? & Hfit). destruct (Hfit Et) as (_ & _ & Hi & Hj).
    unfold seg_byte. destruct (Z.ltb_spec (a - page - vaddr h) (filesz h)); [|by exists 0].
    apply He. unfold is_u32 in Ho. lia.
Qed.

(** The file does not change. *)
Lemma loaded_file h m m' p bs : loaded elf_data page psize h m m' →
  elf_data ≤ p → p + Z.of_nat (length bs) ≤ elf_data + flen → contents m p bs → contents m' p bs.
Proof using Hsep.
  intros Hl H0 H1. apply contents_local. intros i Hi. rewrite Hl.
  destruct (in_range (p + i) page psize) eqn:E; [apply in_range_spec in E; lia|done].
Qed.

(** [c] bytes of the file and then zeros, up to the size in memory. *)
Lemma loaded_intro m m1 m2 h c :
  fits flen psize h → ty h = PT_LOAD → c = Z.min (filesz h) (memsz h) →
  moved m m1 (page + vaddr h) (elf_data + off h) c →
  (∀ a, m2 !! a = if in_range a (page + vaddr h + c) (memsz h - c) then Some 0 else m1 !! a) →
  loaded elf_data page psize h m m2.
Proof using.
  intros (_ & _ & Hv & Hf & Hm & Hfit) Ht Hc H1 H2 a. destruct (Hfit Ht) as (_ & _ & _ & Hpg). unfold is_u32 in *.
  rewrite H2, H1. unfold covers, seg_byte, in_range. rewrite Ht.
  destruct (Z.leb_spec (page + vaddr h + c) a), (Z.ltb_spec a (page + vaddr h + c + (memsz h - c))),
    (Z.leb_spec (page + vaddr h) a), (Z.ltb_spec a (page + vaddr h + c)), (Z.leb_spec page a), (Z.ltb_spec a (page + psize)),
    (Z.leb_spec (vaddr h) (a - page)), (Z.ltb_spec (a - page) (vaddr h + memsz h)),
    (Z.ltb_spec (a - page - vaddr h) (filesz h)); simpl; try done; try lia.
  f_equal. lia.
Qed.

(** The body of the branch that both sizes lead to. *)
Lemma copy_segment_Ok m h :
  there m → fits flen psize h → ty h = PT_LOAD →
  ∃ m1, memcpy (page + vaddr h) (elf_data + off h) (Z.min (filesz h) (memsz h)) m = Ok (page + vaddr h, m1) ∧
        moved m m1 (page + vaddr h) (elf_data + off h) (Z.min (filesz h) (memsz h)) ∧ writable m1 page psize.
Proof using Hsep.
  intros [[(He0 & He1 & He) (Hp0 & Hp1 & Hp)] Hlt] (_ & Ho & Hv & Hf & Hm & Hfit) Ht.
  destruct (Hfit Ht) as (_ & _ & Hin & Hpg). unfold is_u32 in *.
  destruct (memcpy_copies m (page + vaddr h) (elf_data + off h) (Z.min (filesz h) (memsz h))) as (m1 & Hrun & Hmv).
  { lia. }
  { split; [lia|]. split; [lia|]. intros a Ha. apply Hp. lia. }
  { split; [lia|]. split; [lia|]. intros a Ha. apply He. lia. }
  { lia. }
  exists m1. split; [done|]. split; [done|]. split; [done|]. split; [done|]. intros a Ha. rewrite Hmv.
  destruct (in_range a _ _) eqn:E; [apply in_range_spec in E|].
  - destruct (He (elf_data + off h + (a - (page + vaddr h)))) as (b & -> & _); [lia|done].
  - destruct (Hp a Ha) as (b & -> & _). done.
Qed.

Lemma load_segment_Ok m p h :
  there m → fits flen psize h → elf_data ≤ p → p + sizeof_Phdr ≤ elf_data + flen → header_at m p h →
  ∃ m', load_segment elf_data page p m = Ok (tt, m') ∧ loaded elf_data page psize h m m'.
Proof using Hsep.
  intros Hth Hfits Hb1 Hb2 (Ht & Ho & Hv & Hf & Hm).
  pose proof Hfits as (Hty & Hof & Hva & Hfs & Hms & Hfit). pose proof Hth as [[(He0 & _ & _) (Hp0 & _ & _)] [He1 Hp1]].
  unfold p_type, p_offset, p_vaddr, p_filesz, p_memsz, sizeof_Phdr in *.
  assert (Rd : ∀ m k w, is_u32 w → 0 ≤ k ≤ 28 → contents m (p + k) (bytes32 w) → load32 (p + k) m = Ok (w, m))
    by (intros m0 k w Hw Hk; apply load32_Ok; [done|lia|lia]).
  unfold load_segment, p_type. rewrite (bind_Ok _ _ _ _ _ (Rd _ 0 _ Hty ltac:(lia) Ht)).
  rewrite s32_eqb by (done || unfold PT_LOAD; lia).
  destruct (Z.eqb_spec (ty h) PT_LOAD) as [E|E]; cbn [negb].
  2:{ exists m. split; [done|]. intros a. unfold covers. rewrite (proj2 (Z.eqb_neq _ _) E). by rewrite andb_false_r. }
  destruct (Hfit E) as (Hf1 & Hm1 & Hin & Hpg).
  unfold p_vaddr, p_offset, p_memsz, p_filesz.
  rewrite (bind_Ok _ _ _ _ _ (Rd _ 8 _ Hva ltac:(lia) Hv)), (bind_Ok _ _ _ _ _ (Rd _ 4 _ Hof ltac:(lia) Ho)).
  rewrite (bind_Ok _ _ _ _ _ (Rd _ 20 _ Hms ltac:(lia) Hm)), (bind_Ok _ _ _ _ _ (Rd _ 16 _ Hfs ltac:(lia) Hf)).
  destruct (copy_segment_Ok m h Hth Hfits E) as (m1 & Hcpy & Hmv & (_ & _ & Hw)). unfold is_u32 in *.
  assert (Hs : ∀ w, 0 ≤ w < 2 ^ 31 → s32 w = w) by (intros w Hl; unfold s32; destruct (Z.ltb_spec w (2 ^ 31)); lia).
  rewrite !Hs by lia. destruct (Z.ltb_spec (filesz h) (memsz h)) as [Hl|Hl].
  - rewrite (bind_Ok _ _ _ _ _ (Rd _ 16 _ Hfs ltac:(lia) Hf)), !(u32_id (_ + vaddr h)), (u32_id (_ + off h)) by (unfold is_u32; lia).
    rewrite Z.min_l in Hcpy, Hmv by lia. rewrite (bind_Ok _ _ _ _ _ Hcpy).
    rewrite (bind_Ok _ _ _ _ _ (Rd _ 20 _ Hms ltac:(lia) ltac:(eapply contents_local; [|exact Hm]; intros i Hi;
      eapply moved_out; [exact Hmv|simpl in Hi; lia]))).
    rewrite !u32_id by (unfold is_u32; lia).
    destruct (memset_sets m1 (page + vaddr h + filesz h) 0 (memsz h - filesz h)) as (m2 & Hset & Hm2); [lia|..].
    { split; [lia|]. split; [lia|]. intros a Ha. apply Hw. lia. }
    rewrite (bind_Ok _ _ _ _ _ Hset). exists m2. split; [done|].
    apply (loaded_intro m m1 m2 h (filesz h)); [done|done|lia|done|done].
  - rewrite (bind_Ok _ _ _ _ _ (Rd _ 20 _ Hms ltac:(lia) Hm)), !u32_id by (unfold is_u32; lia).
    rewrite Z.min_r in Hcpy, Hmv by lia. rewrite (bind_Ok _ _ _ _ _ Hcpy). exists m1. split; [done|].
    apply (loaded_intro m m1 m1 h (memsz h)); [done|done|lia|done|]. intros a.
    destruct (in_range a _ _) eqn:Er; [|done]. apply in_range_spec in Er. lia.
Qed.

(** The bytes of the page, after the segments [hs] have been loaded over [m0]. *)
Definition image (m : memory) (hs : list segment) (o : Z) : option Z :=
  foldl (λ b h, if covers h o then seg_byte m elf_data h o else b) (m !! (page + o)) hs.

(** The headers [hs] are at [p]. *)
Fixpoint headers_at (m : memory) (p : Z) (hs : list segment) : Prop :=
  match hs with
  | [] => True
  | h :: hs => header_at m p h ∧ headers_at m (p + sizeof_Phdr) hs
  end.

Lemma loaded_headers h m m' hs : ∀ p, loaded elf_data page psize h m m' →
  elf_data ≤ p → p + sizeof_Phdr * Z.of_nat (length hs) ≤ elf_data + flen → headers_at m p hs → headers_at m' p hs.
Proof using Hsep.
  induction hs as [|h' hs IH]; intros p Hl H0 H1 Hh; [done|]. cbn [headers_at length] in *. destruct Hh as [Hh Hhs].
  unfold sizeof_Phdr in *. split; [|apply IH; [done|lia|lia|done]].
  unfold header_at, p_type, p_offset, p_vaddr, p_filesz, p_memsz in *.
  repeat (destruct Hh as [? Hh] || split); (eapply loaded_file; [done| | |eassumption]; cbn [length bytes32]; lia).
Qed.

(** The bytes a segment puts into the page come from the file. *)
Lemma image_same m m' hs o b :
  Forall (fits flen psize) hs → (∀ a, elf_data ≤ a < elf_data + flen → m' !! a = m !! a) → there m →
  foldl (λ b h, if covers h o then seg_byte m' elf_data h o else b) b hs =
  foldl (λ b h, if covers h o then seg_byte m elf_data h o else b) b hs.
Proof using.
  intros Hf Hs Hth. revert b. induction Hf as [|h hs (_ & Ho & Hv & Hfs & Hms & Hh) _ IH]; intros b; [done|].
  cbn [foldl]. rewrite IH. f_equal. destruct (covers h o) eqn:Ec; [|done].
  unfold covers in Ec. apply andb_true_iff in Ec as [Et%Z.eqb_eq Ec%in_range_spec].
  destruct (Hh Et) as (_ & _ & Hin & _). unfold seg_byte, is_u32 in *.
  destruct (Z.ltb_spec (o - vaddr h) (filesz h)); [|done]. apply Hs. lia.
Qed.

Lemma segment_loop_Ok n nb0 nb1 hs : ∀ fuel m p i,
  nb0 + 2 ^ 8 * nb1 = n → 0 ≤ i → n = i + Z.of_nat (length hs) → (length hs < fuel)%nat →
  there m → Forall (fits flen psize) hs → e_phnum + 2 ≤ flen → contents m (elf_data + e_phnum) [nb0; nb1] →
  elf_data ≤ p + sizeof_Phdr * i → p + sizeof_Phdr * n ≤ elf_data + flen → headers_at m (p + sizeof_Phdr * i) hs →
  ∃ m', segment_loop fuel elf_data page p i m = Ok (tt, m') ∧ there m' ∧
    ∀ a, m' !! a = if in_range a page psize then image m hs (a - page) else m !! a.
Proof using Hsep.
  induction hs as [|h hs IH]; intros fuel m p i Hnb Hi Hn Hfuel Hth Hf Hlen Hnum H0 H1 Hh;
    (destruct fuel as [|fuel]; [simpl in Hfuel; lia|]); cbn [segment_loop length] in *;
    pose proof Hth as [[(He0 & _ & _) (Hp0 & _ & _)] [He1 Hp1]]; unfold sizeof_Phdr, e_phnum in *;
    rewrite (bind_Ok _ _ _ _ _ (load16_Ok m (elf_data + 44) _ _ ltac:(lia) ltac:(lia) Hnum)), Hnb.
  - destruct (Z.ltb_spec i n); [lia|]. exists m. split; [done|]. split; [done|]. intros a.
    unfold image. simpl. replace (page + (a - page)) with a by lia. by destruct (in_range _ _ _).
  - destruct (Z.ltb_spec i n); [|lia]. cbn [headers_at] in Hh. destruct Hh as [Hh Hhs].
    apply Forall_cons in Hf as [Hfh Hf].
    destruct (load_segment_Ok m (p + 32 * i) h) as (m1 & Hrun & Hl); [done|done|lia|unfold sizeof_Phdr; lia|done|].
    rewrite (bind_Ok _ _ _ _ _ Hrun). unfold sizeof_Phdr in *.
    destruct (IH fuel m1 p (i + 1)) as (m' & Hrun' & Hth' & Hm'); try done; try lia.
    { by eapply loaded_there. }
    { eapply loaded_file; [done|lia| |done]. simpl. lia. }
    { replace (p + 32 * (i + 1)) with (p + 32 * i + 32) by lia. eapply loaded_headers; [done|lia| |done].
      unfold sizeof_Phdr. lia. }
    exists m'. split; [done|]. split; [done|]. intros a. rewrite Hm'.
    destruct (in_range a page psize) eqn:Er.
    2:{ rewrite Hl, Er. done. }
    unfold image. cbn [foldl]. replace (page + (a - page)) with a by lia. rewrite Hl, Er. simpl.
    apply image_same; [done| |done]. intros b Hb. rewrite Hl.
    destruct (in_range b page psize) eqn:Eb; [apply in_range_spec in Eb; lia|done].
Qed.
(** ** Relocations *)

(** Entries of type [R_386_RELATIVE] for the words at the offsets [os]. *)
Fixpoint rels_at (m : memory) (p : Z) (os : list Z) : Prop :=
  match os with
  | [] => True
  | o :: os => contents m p (bytes32 o) ∧ contents m (p + 4) (bytes32 R_386_RELATIVE) ∧ rels_at m (p + sizeof_Rel) os
  end.

(** The words do not overlap. *)
Fixpoint apart (os : list Z) : Prop :=
  match os with [] => True | o :: os => Forall (λ o', o + 4 ≤ o' ∨ o' + 4 ≤ o) os ∧ apart os end.

Definition in_page (o : Z) : Prop := 0 ≤ o ∧ o + 4 ≤ psize.

(** The words at [os] have grown by [new_load], nothing else has changed. *)
Definition relocated (new_load : Z) (os : list Z) (m m' : memory) : Prop :=
  (∀ o w, o ∈ os → is_u32 w → contents m (page + o) (bytes32 w) → contents m' (page + o) (bytes32 (u32 (w + new_load)))) ∧
  (∀ a, (∀ o, o ∈ os → ¬ (page + o ≤ a < page + o + 4)) → m' !! a = m !! a).

Lemma word_unique m p w w' :
  is_u32 w → is_u32 w' → contents m p (bytes32 w) → contents m p (bytes32 w') → w = w'.
Proof using.
  unfold bytes32, is_u32. intros Hw Hw' H H'. rewrite !contents_cons in H, H'.
  destruct H as (A0 & A1 & A2 & A3 & _), H' as (B0 & B1 & B2 & B3 & _). simplify_eq. dlia.
Qed.

(** Any four bytes are a word. *)
Lemma word_at m p : bytes m p 4 → ∃ w, is_u32 w ∧ contents m p (bytes32 w).
Proof using.
  intros (H0 & H1 & Hb). destruct (Hb p) as (b0 & H'0 & Hu0); [lia|]. destruct (Hb (p + 1)) as (b1 & H'1 & Hu1); [lia|].
  destruct (Hb (p + 2)) as (b2 & H'2 & Hu2); [lia|]. destruct (Hb (p + 3)) as (b3 & H'3 & Hu3); [lia|].
  exists (b0 + 2 ^ 8 * b1 + 2 ^ 16 * b2 + 2 ^ 24 * b3). unfold is_u8, is_u32 in *. split; [lia|].
  unfold bytes32. rewrite !contents_cons. replace (p + 1 + 1) with (p + 2) by lia. replace (p + 2 + 1) with (p + 3) by lia.
  rewrite H'0, H'1, H'2, H'3. repeat split; try apply contents_nil; f_equal; dlia.
Qed.

Lemma store32_Ok m p w : writable m p 4 →
  ∃ m', store32 p w m = Ok (tt, m') ∧ contents m' p (bytes32 w) ∧ changed m m' p 4.
Proof using. intros H. apply (store_list_Ok (bytes32 w)); [exact H|apply bytes32_u8]. Qed.

Lemma writable_bytes m p n : bytes m p n → writable m p n.
Proof using. intros (H0 & H1 & Hb). split; [done|]. split; [done|]. intros a Ha. by destruct (Hb a Ha) as (b & -> & _). Qed.

(** A word of the page is written: the file and the page are still there. *)
Lemma word_there m m' o w :
  in_page o → there m → contents m' (page + o) (bytes32 w) → changed m m' (page + o) 4 → there m'.
Proof using Hsep.
  intros [Ho1 Ho2] [[(He0 & He1 & He) (Hp0 & Hp1 & Hp)] Hlt] Hc [Hch _].
  split; [|done]. split; (split; [done|split; [done|]]); intros a Ha.
  - rewrite Hch by lia. by apply He.
  - destruct (decide (page + o ≤ a < page + o + 4)) as [Hin|Hout]; [|rewrite Hch by done; by apply Hp].
    destruct (lookup_lt_is_Some_2 (bytes32 w) (Z.to_nat (a - (page + o)))) as [b Hb]; [simpl; lia|].
    exists b. pose proof (Hc _ _ Hb) as Hl. replace (page + o + _) with a in Hl by lia. split; [done|].
    exact (proj1 (Forall_lookup _ _) (bytes32_u8 w) _ _ Hb).
Qed.

(** One entry. *)
Lemma reloc_step_Ok m p o new_load :
  there m → in_page o → elf_data ≤ p → p + 8 ≤ elf_data + flen →
  contents m p (bytes32 o) → contents m (p + 4) (bytes32 R_386_RELATIVE) →
  ∃ w m1, is_u32 w ∧ contents m (page + o) (bytes32 w) ∧
    load32 p m = Ok (o, m) ∧ load32 (p + 4) m = Ok (R_386_RELATIVE, m) ∧ u32 (page + o) = page + o ∧
    load32 (page + o) m = Ok (w, m) ∧ store32 (page + o) (u32 (w + new_load)) m = Ok (tt, m1) ∧
    contents m1 (page + o) (bytes32 (u32 (w + new_load))) ∧ changed m m1 (page + o) 4 ∧ there m1.
Proof using Hsep.
  intros Hth [Ho1 Ho2] Hb1 Hb2 Hc1 Hc2.
  pose proof Hth as [[(He0 & He1 & He) (Hp0 & Hp1 & Hp)] [Hl1 Hl2]].
  assert (Hword : bytes m (page + o) 4) by (split; [lia|split; [lia|]]; intros a Ha; apply Hp; lia).
  destruct (word_at m (page + o) Hword) as (w & Hw & Hcw).
  destruct (store32_Ok m (page + o) (u32 (w + new_load)) (writable_bytes _ _ _ Hword)) as (m1 & Hrun & Hc & Hch).
  exists w, m1. split; [done|]. split; [done|]. split; [apply load32_Ok; [unfold is_u32; lia|lia|lia|done]|].
  split; [apply load32_Ok; [done|lia|lia|done]|]. split; [apply u32_id; unfold is_u32; lia|].
  split; [apply load32_Ok; [done|lia|lia|done]|]. split; [done|]. split; [done|]. split; [done|].
  by eapply (word_there m m1 o _ (conj Ho1 Ho2)).
Qed.

Lemma relocated_cons new_load o os m m1 m' w :
  is_u32 w → contents m (page + o) (bytes32 w) → contents m1 (page + o) (bytes32 (u32 (w + new_load))) →
  changed m m1 (page + o) 4 → Forall (λ o', o + 4 ≤ o' ∨ o' + 4 ≤ o) os →
  relocated new_load os m1 m' → relocated new_load (o :: os) m m'.
Proof using.
  intros Hw Hc Hc1 Hch Hap [Hin Hout]. rewrite Forall_forall in Hap. split.
  - intros o' w' Ho' Hw' Hcw. apply elem_of_cons in Ho' as [->|Ho'].
    + assert (w' = w) as -> by (apply (word_unique m (page + o)); done).
      eapply contents_local; [|exact Hc1]. intros i Hi. simpl in Hi. apply Hout. intros o2 Ho2. specialize (Hap _ Ho2). lia.
    + apply Hin; [done|done|]. eapply changed_contents; [exact Hch| |exact Hcw]. specialize (Hap _ Ho'). simpl. lia.
  - intros a Ha. rewrite Hout by (intros o' Ho'; apply Ha; by right). apply Hch. apply Ha. by left.
Qed.

Lemma rels_local m m' os : ∀ p,
  (∀ a, elf_data ≤ a < elf_data + flen → m' !! a = m !! a) → elf_data ≤ p →
  p + sizeof_Rel * Z.of_nat (length os) ≤ elf_data + flen → rels_at m p os → rels_at m' p os.
Proof using.
  unfold sizeof_Rel. induction os as [|o os IH]; intros p Hs H0 H1 Hr; [done|]. cbn [rels_at length] in *.
  destruct Hr as (Hr1 & Hr2 & Hr3). unfold sizeof_Rel in *. split; [|split; [|apply IH; [done|lia|lia|done]]].
  - eapply contents_local; [|exact Hr1]. intros i Hi. simpl in Hi. apply Hs. lia.
  - eapply contents_local; [|exact Hr2]. intros i Hi. simpl in Hi. apply Hs. lia.
Qed.

Lemma reloc_loop_Ok new_load os : ∀ fuel o m p,
  (length os < fuel)%nat → there m → Forall in_page (o :: os) → apart (o :: os) →
  elf_data ≤ p → p + 8 * Z.of_nat (length (o :: os)) ≤ elf_data + flen → rels_at m p (o :: os) →
  ∃ m', reloc_loop fuel p (p + 8 * Z.of_nat (length (o :: os))) page new_load m = Ok (tt, m') ∧
        relocated new_load (o :: os) m m' ∧ there m'.
Proof using Hsep.
  induction os as [|o2 os IH]; intros fuel o m p Hfuel Hth Hpg Hap Hb1 Hb2 Hr;
    (destruct fuel as [|fuel]; [simpl in Hfuel; lia|]); cbn [reloc_loop];
    cbn [rels_at] in Hr; destruct Hr as (Hr1 & Hr2 & Hr); apply Forall_cons in Hpg as [Hpo Hpg];
    cbn [apart] in Hap; destruct Hap as [Hao Hap]; cbn [length] in *;
    (destruct (reloc_step_Ok m p o new_load) as (w & m1 & Hw & Hcw & R1 & R2 & Hd & R3 & R4 & Hc1 & Hch & Hth1);
      [done|done|lia|lia|done|done|]);
    rewrite (bind_Ok _ _ _ _ _ R1), (bind_Ok _ _ _ _ _ R2); cbv zeta; rewrite Hd;
    change (u8 R_386_RELATIVE =? R_386_RELATIVE) with true; change (Z.shiftr (s32 R_386_RELATIVE) 8 =? 0) with true; cbv iota;
    erewrite bind_Ok by done; rewrite (bind_Ok _ _ _ _ _ R3), (bind_Ok _ _ _ _ _ R4); unfold sizeof_Rel in *.
  - destruct (Z.ltb_spec (p + 8) (p + 8 * Z.of_nat 1)); [lia|]. exists m1. split; [done|]. split; [|done].
    eapply relocated_cons; [done..|]. split; [|done]. intros ? ? []%elem_of_nil.
  - destruct (Z.ltb_spec (p + 8) (p + 8 * Z.of_nat (S (S (length os))))); [|lia].
    destruct (IH fuel o2 m1 (p + 8)) as (m' & Hrun & Hrel & Hth'); [lia|done|done|done|lia|lia| |].
    { eapply rels_local; [|lia| |exact Hr]; [|unfold sizeof_Rel; cbn [length]; lia].
      intros a Ha. apply Hch. destruct Hpo. lia. }
    exists m'. replace (p + 8 * Z.of_nat (S (S (length os)))) with (p + 8 + 8 * Z.of_nat (S (length os))) by lia.
    split; [exact Hrun|]. split; [|done]. by eapply relocated_cons.
Qed.

Lemma ApplyRelocs_Ok m new_load r o os :
  there m → Forall in_page (o :: os) → apart (o :: os) →
  found_relocs_ r = true → rel_ent_size_ r = sizeof_Rel → rel_size_ r = sizeof_Rel * Z.of_nat (length (o :: os)) →
  0 ≤ rel_addr_ r → rel_addr_ r + rel_size_ r ≤ flen → (elf_data + rel_addr_ r) mod 4 = 0 →
  rels_at m (elf_data + rel_addr_ r) (o :: os) →
  ∃ m', ApplyRelocs r elf_data page new_load m = Ok (tt, m') ∧ relocated new_load (o :: os) m m' ∧ there m'.
Proof using Hsep.
  intros Hth Hpg Hap Hf He Hs Ha1 Ha2 Hal Hr. pose proof Hth as [[(He0 & _) _] [Hl1 _]].
  unfold ApplyRelocs. rewrite Hf, He. unfold sizeof_Rel in *.
  erewrite bind_Ok by done. erewrite bind_Ok by done. cbn [length] in *.
  rewrite !u32_id by (unfold is_u32; lia). rewrite Hal. erewrite bind_Ok by done.
  rewrite (proj2 (Z.ltb_lt 0 (rel_size_ r))) by lia. erewrite bind_Ok by done.
  rewrite Hs. apply reloc_loop_Ok; [cbn [length] in *; lia|done|done|done|lia|cbn [length]; lia|done].
Qed.

End segments.

(** ** The dynamic section *)

(** The entries [ds], a tag and a value each, and the end of the section. *)
Fixpoint dyn_at (m : memory) (p : Z) (ds : list (Z * Z)) : Prop :=
  match ds with
  | [] => contents m p (bytes32 DT_NULL)
  | d :: ds => contents m p (bytes32 d.1) ∧ contents m (p + 4) (bytes32 d.2) ∧ dyn_at m (p + sizeof_Dyn) ds
  end.

(** The tags of the switch, except the one that ends the section. *)
Definition known_tags : list Z :=
  [DT_STRTAB; DT_SYMTAB; DT_SYMENT; DT_STRSZ; DT_RPATH; DT_DEBUG; DT_JMPREL; DT_FLAGS; DT_GNU_HASH; DT_REL; DT_RELSZ;
   DT_RELENT; DT_RELCOUNT; DT_FLAGS_1].

(** The value of the last entry with a tag, [v] if there is none. *)
Definition dyn_find (t : Z) (ds : list (Z * Z)) (v : option Z) : option Z :=
  foldl (λ v d, if d.1 =? t then Some d.2 else v) v ds.

Definition dyn_collect (ds : list (Z * Z)) (d : dyn_info) : dyn_info :=
  Dyn (dyn_find DT_REL ds (rel_addr d)) (dyn_find DT_RELSZ ds (rel_size d)) (dyn_find DT_RELENT ds (rel_ent_size d))
      (dyn_find DT_RELCOUNT ds (rel_count d)) (dyn_find DT_FLAGS_1 ds (flags1 d)).

Lemma dyn_tag_collect t v d : t ∈ known_tags → dyn_tag t v d = Some (Some (dyn_collect [(t, v)] d)).
Proof.
  intros Ht. unfold known_tags in Ht. destruct d.
  repeat (apply elem_of_cons in Ht as [->|Ht]; [reflexivity|]). by apply elem_of_nil in Ht.
Qed.

Lemma known_tag t : t ∈ known_tags → is_u32 t ∧ s32 t = t ∧ (t =? DT_NULL) = false.
Proof.
  intros Ht. unfold known_tags in Ht.
  repeat (apply elem_of_cons in Ht as [->|Ht]; [repeat split; by vm_compute|]). by apply elem_of_nil in Ht.
Qed.

Lemma dynamic_loop_Ok m ds : ∀ fuel p d,
  (length ds < fuel)%nat → 0 ≤ p → p + sizeof_Dyn * Z.of_nat (length ds) + 4 ≤ 2 ^ 32 →
  Forall (λ d, d.1 ∈ known_tags ∧ is_u32 d.2) ds → dyn_at m p ds →
  dynamic_loop fuel p d m = Ok (dyn_collect ds d, m).
Proof.
  unfold sizeof_Dyn.
  induction ds as [|[t v] ds IH]; intros fuel p d Hfuel H0 H1 Hk Hd; (destruct fuel as [|fuel]; [simpl in Hfuel; lia|]);
    cbn [dynamic_loop dyn_at length] in *.
  - rewrite (bind_Ok _ _ _ _ _ (load32_Ok m p DT_NULL ltac:(done) H0 ltac:(lia) Hd)). by destruct d.
  - apply Forall_cons in Hk as [[Ht Hv] Hk]. destruct Hd as (Hd1 & Hd2 & Hd3). simpl in Ht, Hv, Hd1, Hd2.
    destruct (known_tag t Ht) as (Hu & Hst & Hn).
    rewrite (bind_Ok _ _ _ _ _ (load32_Ok m p t Hu H0 ltac:(lia) Hd1)), Hst, Hn.
    rewrite (bind_Ok _ _ _ _ _ (load32_Ok m (p + 4) v Hv ltac:(lia) ltac:(lia) Hd2)), (dyn_tag_collect _ _ _ Ht).
    unfold sizeof_Dyn in *. rewrite IH; [by destruct d|lia|lia|lia|done|done].
Qed.

(** ** A whole file *)
Record program := Program { entry : Z; phoff : Z; segs : list segment; dyns : list (Z * Z); rels : list Z }.

(** The offset of the dynamic section: that of the first segment of its type. *)
Definition first_dynamic (hs : list segment) : option Z := off <$> head (filter (λ h, ty h = PT_DYNAMIC) hs).

(** What the sections says about the relocations, in the file of [flen] bytes. *)
Definition relocs_at (m : memory) (elf_data flen : Z) (ds : list (Z * Z)) (os : list Z) : Prop :=
  match dyn_find DT_REL ds None with
  | None => os = []
  | Some ra =>
      let size := sizeof_Rel * Z.of_nat (length os) in
      dyn_find DT_RELSZ ds None = Some size ∧ dyn_find DT_RELENT ds None = Some sizeof_Rel ∧
      dyn_find DT_RELCOUNT ds None = Some (Z.of_nat (length os)) ∧
      os ≠ [] ∧ size < 2 ^ 31 ∧ 0 ≤ ra ∧ ra + size ≤ flen ∧ (elf_data + ra) mod 4 = 0 ∧ rels_at m (elf_data + ra) os
  end.

Definition dynamic_at (m : memory) (elf_data flen : Z) (f : program) : Prop :=
  match first_dynamic (segs f) with
  | None => rels f = []
  | Some o =>
      0 ≤ o ∧ o + sizeof_Dyn * Z.of_nat (length (dyns f)) + 4 ≤ flen ∧ dyn_at m (elf_data + o) (dyns f) ∧
      Forall (λ d, d.1 ∈ known_tags ∧ is_u32 d.2) (dyns f) ∧
      default DF_1_PIE (dyn_find DT_FLAGS_1 (dyns f) None) = DF_1_PIE ∧
      relocs_at m elf_data flen (dyns f) (rels f)
  end.

Definition elf_at (m : memory) (elf_data flen psize : Z) (f : program) : Prop :=
  let n := Z.of_nat (length (segs f)) in
  elf_data mod kMinAlign = 0 ∧ 52 ≤ flen ∧ contents m elf_data [127; 69; 76; 70] ∧
  is_u32 (entry f) ∧ contents m (elf_data + e_entry) (bytes32 (entry f)) ∧
  0 ≤ phoff f ∧ contents m (elf_data + e_phoff) (bytes32 (phoff f)) ∧
  n < 2 ^ 16 ∧ contents m (elf_data + e_phnum) [n mod 2 ^ 8; n / 2 ^ 8] ∧
  phoff f + sizeof_Phdr * n ≤ flen ∧ headers_at m (elf_data + phoff f) (segs f) ∧
  Forall (fits flen psize) (segs f) ∧ dynamic_at m elf_data flen f ∧
  Forall (in_page psize) (rels f) ∧ apart (rels f).

Lemma dyn_find_default t ds v : dyn_find t ds v = match dyn_find t ds None with Some w => Some w | None => v end.
Proof.
  unfold dyn_find. revert v. induction ds as [|d ds IH]; intros v; [done|]. cbn [foldl].
  destruct (d.1 =? t); [|apply IH]. rewrite (IH (Some d.2)). by destruct (foldl _ None ds).
Qed.

(** The file is where it was, the page may have changed. *)
Definition same_file (elf_data flen : Z) (m m' : memory) : Prop := ∀ a, elf_data ≤ a < elf_data + flen → m' !! a = m !! a.

Lemma file_contents elf_data flen m m' p bs :
  same_file elf_data flen m m' → elf_data ≤ p → p + Z.of_nat (length bs) ≤ elf_data + flen →
  contents m p bs → contents m' p bs.
Proof. intros Hs H0 H1. apply contents_local. intros i Hi. apply Hs. lia. Qed.

Lemma file_dyn elf_data flen m m' ds : ∀ p, same_file elf_data flen m m' → elf_data ≤ p →
  p + sizeof_Dyn * Z.of_nat (length ds) + 4 ≤ elf_data + flen → dyn_at m p ds → dyn_at m' p ds.
Proof.
  unfold sizeof_Dyn. induction ds as [|d ds IH]; intros p Hs H0 H1 Hd; cbn [dyn_at length] in *.
  - eapply file_contents; [done|lia| |done]. simpl. lia.
  - destruct Hd as (Hd1 & Hd2 & Hd3). unfold sizeof_Dyn in *.
    split; [|split; [|apply IH; [done|lia|lia|done]]]; (eapply file_contents; [done| | |eassumption]; simpl; lia).
Qed.

Lemma file_relocs elf_data flen m m' ds os :
  same_file elf_data flen m m' → relocs_at m elf_data flen ds os → relocs_at m' elf_data flen ds os.
Proof.
  intros Hs. unfold relocs_at. destruct (dyn_find DT_REL ds None) as [ra|]; [|done].
  intros (H1 & H2 & H3 & H4 & H5 & H6 & H7 & H8 & H9). repeat (split; [done|]).
  eapply rels_local; [done|lia|lia|done].
Qed.

(** The relocator the section leads to. *)
Definition relocator_of (ds : list (Z * Z)) (os : list Z) : Relocator :=
  match dyn_find DT_REL ds None with
  | Some ra => mkRelocator ra (sizeof_Rel * Z.of_nat (length os)) sizeof_Rel true
  | None => no_relocs
  end.

Lemma s32_small w : 0 ≤ w < 2 ^ 31 → s32 w = w.
Proof. intros H. unfold s32. destruct (Z.ltb_spec w (2 ^ 31)); lia. Qed.

(** With the count in the section, it does not matter what the uninitialised pointer holds. *)
Lemma HandleDynamicSection_Ok uninit m elf_data flen ds os p :
  0 ≤ p → p + sizeof_Dyn * Z.of_nat (length ds) + 4 ≤ 2 ^ 32 → dyn_at m p ds →
  (∀ a, p ≤ a < p + sizeof_Dyn * Z.of_nat (length ds) → is_Some (m !! a)) →
  Forall (λ d, d.1 ∈ known_tags ∧ is_u32 d.2) ds → default DF_1_PIE (dyn_find DT_FLAGS_1 ds None) = DF_1_PIE →
  relocs_at m elf_data flen ds os →
  HandleDynamicSection uninit p no_relocs m = Ok (relocator_of ds os, m).
Proof.
  intros H0 H1 Hd Hm Hk Hpie Hr. unfold HandleDynamicSection. erewrite bind_Ok by done.
  assert (Hfuel : (length ds < fuel_of m)%nat).
  { apply (mapped_fuel m p). intros a Ha. apply Hm. unfold sizeof_Dyn. lia. }
  rewrite (bind_Ok _ _ _ _ _ (dynamic_loop_Ok m ds _ p _ Hfuel H0 H1 Hk Hd)).
  cbn [dyn_collect rel_addr rel_size rel_ent_size rel_count flags1].
  unfold relocs_at, relocator_of in *. destruct (dyn_find DT_REL ds None) as [ra|].
  - destruct Hr as (Hr1 & Hr2 & Hr3 & Hr4 & Hr5 & _). rewrite Hr1, Hr2, (dyn_find_default DT_RELCOUNT ds uninit), Hr3.
    unfold sizeof_Rel in *.
    rewrite (s32_small (8 * _)), (s32_small (Z.of_nat _)), (s32_small 8) by lia. rewrite (proj2 (Z.leb_le 0 (8 * _))) by lia.
    rewrite (u32_id (_ * 8)), s32_small by (unfold is_u32; lia). rewrite (Z.mul_comm _ 8), Z.eqb_refl.
    destruct (dyn_find DT_FLAGS_1 ds None) as [f|]; simpl in Hpie; [subst f|]; reflexivity.
  - destruct (dyn_find DT_FLAGS_1 ds None) as [f|]; simpl in Hpie; [subst f|]; reflexivity.
Qed.

(** The search runs over the headers from [i] on. *)
Lemma find_dynamic_Ok uninit m elf_data flen f n nb0 nb1 p hs : ∀ fuel i,
  nb0 + 2 ^ 8 * nb1 = n → 0 ≤ i → n = i + Z.of_nat (length hs) → (length hs < fuel)%nat →
  bytes m elf_data flen → elf_data + flen < 2 ^ 32 → e_phnum + 2 ≤ flen → contents m (elf_data + e_phnum) [nb0; nb1] →
  elf_data ≤ p + sizeof_Phdr * i → p + sizeof_Phdr * n ≤ elf_data + flen → headers_at m (p + sizeof_Phdr * i) hs →
  Forall (λ h, is_u32 (ty h) ∧ is_u32 (off h)) hs →
  first_dynamic hs = first_dynamic (segs f) → dynamic_at m elf_data flen f →
  find_dynamic fuel uninit elf_data p i no_relocs m =
    Ok (match first_dynamic hs with Some _ => relocator_of (dyns f) (rels f) | None => no_relocs end, m).
Proof.
  induction hs as [|h hs IH]; intros fuel i Hnb Hi Hn Hfuel Hby Hlt Hlen Hnum H0 H1 Hh Hu Hfd Hdyn;
    (destruct fuel as [|fuel]; [simpl in Hfuel; lia|]); cbn [find_dynamic length] in *;
    pose proof Hby as (He0 & _ & Hb); unfold sizeof_Phdr, e_phnum in *;
    rewrite (bind_Ok _ _ _ _ _ (load16_Ok m (elf_data + 44) _ _ ltac:(lia) ltac:(lia) Hnum)), Hnb.
  { destruct (Z.ltb_spec i n); [lia|done]. }
  destruct (Z.ltb_spec i n); [|lia]. cbn [headers_at] in Hh. destruct Hh as [(Ht & Ho & _) Hhs].
  apply Forall_cons in Hu as [[Hty Hof] Hu]. unfold p_type, p_offset in *.
  rewrite (bind_Ok _ _ _ _ _ (load32_Ok m (p + 32 * i + 0) _ Hty ltac:(lia) ltac:(lia) Ht)).
  rewrite s32_eqb by (done || unfold PT_DYNAMIC; lia).
  unfold first_dynamic in Hfd |- *. rewrite filter_cons in Hfd |- *.
  destruct (Z.eqb_spec (ty h) PT_DYNAMIC) as [E|E].
  - rewrite decide_True in Hfd |- * by done. cbn [head fmap option_fmap option_map] in *.
    rewrite (bind_Ok _ _ _ _ _ (load32_Ok m (p + 32 * i + 4) _ Hof ltac:(lia) ltac:(lia) Ho)).
    unfold dynamic_at, first_dynamic in Hdyn. rewrite <- Hfd in Hdyn. destruct Hdyn as (Hd0 & Hd1 & Hd2 & Hd3 & Hd4 & Hd5).
    unfold sizeof_Dyn in *. rewrite u32_id by (unfold is_u32; lia).
    eapply HandleDynamicSection_Ok; [lia|unfold sizeof_Dyn; lia|done| |done|done|done].
    intros a Ha. unfold sizeof_Dyn in Ha. destruct (Hb a) as (b & -> & _); [lia|done].
  - rewrite decide_False in Hfd |- * by done. unfold sizeof_Phdr in *.
    apply IH; try done; try lia. by replace (p + 32 * (i + 1)) with (p + 32 * i + 32) by lia.
Qed.

(** The header checks and the entry point. *)
Lemma ElfModule_Ok m elf_data :
  0 ≤ elf_data → elf_data + 4 ≤ 2 ^ 32 → elf_data mod kMinAlign = 0 → contents m elf_data [127; 69; 76; 70] →
  ElfModule elf_data m = Ok (tt, m).
Proof.
  intros H0 H1 Hal Hc. unfold ElfModule, IsValidElf, load. rewrite Hal. munfold. rewrite !u32_id by (unfold is_u32; lia). cbn [Z.eqb].
  rewrite !contents_cons in Hc. destruct Hc as (C0 & C1 & C2 & C3 & _).
  replace (elf_data + 1 + 1) with (elf_data + 2) in * by lia. replace (elf_data + 2 + 1) with (elf_data + 3) in * by lia.
  by rewrite C0, C1, C2, C3.
Qed.

Lemma phoff_Ok m elf_data flen f :
  0 ≤ elf_data → elf_data + flen < 2 ^ 32 → 52 ≤ flen → 0 ≤ phoff f → phoff f ≤ flen →
  contents m (elf_data + e_phoff) (bytes32 (phoff f)) → getProgHdr elf_data m = Ok (elf_data + phoff f, m).
Proof.
  intros H0 H1 H2 H3 H4 Hc. unfold getProgHdr, e_phoff in *.
  rewrite (bind_Ok _ _ _ _ _ (load32_Ok m (elf_data + 28) (phoff f) ltac:(unfold is_u32; lia) ltac:(lia) ltac:(lia) Hc)).
  by rewrite u32_id by (unfold is_u32; lia).
Qed.

Lemma phnum_bytes n : n mod 2 ^ 8 + 2 ^ 8 * (n / 2 ^ 8) = n.
Proof. rewrite Z.add_comm. symmetry. apply Z.div_mod. done. Qed.

Lemma file_headers elf_data flen m m' hs : ∀ p, same_file elf_data flen m m' → elf_data ≤ p →
  p + sizeof_Phdr * Z.of_nat (length hs) ≤ elf_data + flen → headers_at m p hs → headers_at m' p hs.
Proof.
  induction hs as [|h hs IH]; intros p Hs H0 H1 Hh; [done|]. cbn [headers_at length] in *. destruct Hh as [Hh Hhs].
  unfold sizeof_Phdr in *. split; [|apply IH; [done|lia|lia|done]].
  unfold header_at, p_type, p_offset, p_vaddr, p_filesz, p_memsz in *.
  repeat (destruct Hh as [? Hh] || split); (eapply file_contents; [done| | |eassumption]; cbn [length bytes32]; lia).
Qed.

Section image.
  Context (uninit : option Z) (elf_data flen page psize new_load : Z) (f : program).
  Hypothesis Hsep : elf_data + flen ≤ page ∨ page + psize ≤ elf_data.

Lemma load_segments_Ok m :
  there elf_data flen page psize m → elf_at m elf_data flen psize f →
  ∃ m', load_segments elf_data page m = Ok (tt, m') ∧ there elf_data flen page psize m' ∧
    ∀ a, m' !! a = if in_range a page psize then image elf_data page m (segs f) (a - page) else m !! a.
Proof using Hsep.
  intros Hth (_ & Hlen & _ & _ & _ & Hpo & Hcp & Hn & Hcn & Hpe & Hh & Hfit & _).
  pose proof Hth as [[(He0 & _) _] [Hl1 _]]. unfold load_segments, sizeof_Phdr in *.
  rewrite (bind_Ok _ _ _ _ _ (phoff_Ok m _ flen f He0 Hl1 Hlen Hpo ltac:(lia) Hcp)).
  eapply (segment_loop_Ok elf_data flen page psize Hsep (Z.of_nat (length (segs f))));
    [by rewrite phnum_bytes|lia|lia|lia|done|done|unfold e_phnum; lia|exact Hcn|lia|unfold sizeof_Phdr; lia|].
  by rewrite Z.mul_0_r, Z.add_0_r.
Qed.

Lemma relocations_Ok m m1 :
  elf_at m elf_data flen psize f → same_file elf_data flen m m1 → there elf_data flen page psize m1 →
  ∃ m', (phdr ← getProgHdr elf_data;
         relocator ← find_dynamic (Z.to_nat (2 ^ 16)) uninit elf_data phdr 0 no_relocs;
         (if found_relocs_ relocator then ApplyRelocs relocator elf_data page new_load else mret tt)) m1 = Ok (tt, m') ∧
    relocated page new_load (rels f) m1 m'.
Proof using Hsep.
  intros (_ & Hlen & _ & _ & _ & Hpo & Hcp & Hn & Hcn & Hpe & Hh & Hfit & Hdyn & Hpg & Hap) Hsf Hth.
  pose proof Hth as [[(He0 & He1 & He) _] [Hl1 _]]. unfold sizeof_Phdr in *.
  assert (Hk : ∀ p bs, elf_data ≤ p → p + Z.of_nat (length bs) ≤ elf_data + flen → contents m p bs → contents m1 p bs)
    by (intros p bs; by apply file_contents).
  rewrite (bind_Ok _ _ _ _ _ (phoff_Ok m1 _ flen f He0 Hl1 Hlen Hpo ltac:(lia)
    (Hk (elf_data + e_phoff) (bytes32 (phoff f)) ltac:(unfold e_phoff; lia) ltac:(unfold e_phoff; cbn [length bytes32]; lia) Hcp))).
  assert (Hdyn1 : dynamic_at m1 elf_data flen f).
  { unfold dynamic_at in *. destruct (first_dynamic (segs f)); [|done].
    destruct Hdyn as (Hd0 & Hd1 & Hd2 & Hd3 & Hd4 & Hd5). unfold sizeof_Dyn in *. repeat (split; [done|]).
    split; [eapply file_dyn; [done|lia|unfold sizeof_Dyn; lia|done]|]. do 2 (split; [done|]). by eapply file_relocs. }
  erewrite bind_Ok.
  2:{ eapply (find_dynamic_Ok uninit m1 elf_data flen f (Z.of_nat (length (segs f)))) with (hs := segs f);
      [by rewrite phnum_bytes|lia|lia|lia|by split|done|unfold e_phnum; lia| |lia|unfold sizeof_Phdr; lia| | |done|done].
      - apply Hk; [unfold e_phnum; lia|unfold e_phnum; simpl; lia|exact Hcn].
      - rewrite Z.mul_0_r, Z.add_0_r. eapply file_headers; [done|lia|unfold sizeof_Phdr; lia|done].
      - eapply Forall_impl; [exact Hfit|]. intros h (? & ? & _). done. }
  assert (Hnone : rels f = [] → relocated page new_load (rels f) m1 m1).
  { intros ->. split; [|done]. intros ? ? []%elem_of_nil. }
  unfold dynamic_at in Hdyn1. destruct (first_dynamic (segs f)) as [o|]; [|by exists m1; auto].
  destruct Hdyn1 as (_ & _ & _ & _ & _ & Hr). unfold relocs_at, relocator_of in *.
  destruct (dyn_find DT_REL (dyns f) None) as [ra|]; [|by exists m1; auto].
  destruct Hr as (_ & _ & _ & Hne & _ & Hr1 & Hr2 & Hr3 & Hr4). destruct (rels f) as [|r0 rs] eqn:Er; [done|].
  cbn [found_relocs_].
  destruct (ApplyRelocs_Ok elf_data flen page psize Hsep m1 new_load
    (mkRelocator ra (sizeof_Rel * Z.of_nat (length (r0 :: rs))) sizeof_Rel true) r0 rs) as (m' & Hrun & Hrel & _); try done.
  by exists m'.
Qed.

End image.

(** C13: a program is loaded as its file says.  Whatever the file and wherever the page, if
    the file is well formed and its segments fit the page, the loader ends; the entry point
    is the file's plus the address of the page in the new process; every byte of the page is
    the one the last segment that covers it puts there (from the file, or zero behind the
    bytes of the file); the words that the file lists as relative have grown by the address
    of the page in the new process; and no byte outside of the page has changed. *)
Theorem program_is_loaded uninit m elf_data flen page psize new_load f :
  elf_data + flen ≤ page ∨ page + psize ≤ elf_data → there elf_data flen page psize m → elf_at m elf_data flen psize f →
  ∃ m', build_image uninit elf_data page new_load m = Ok (u32 (new_load + entry f), m') ∧
    (∀ a, ¬ (page ≤ a < page + psize) → m' !! a = m !! a) ∧
    (∀ o, 0 ≤ o < psize → (∀ r, r ∈ rels f → ¬ (r ≤ o < r + 4)) →
          m' !! (page + o) = image elf_data page m (segs f) o) ∧
    (∀ r w, r ∈ rels f → is_u32 w →
            (∀ i b, bytes32 w !! i = Some b → image elf_data page m (segs f) (r + Z.of_nat i) = Some b) →
            contents m' (page + r) (bytes32 (u32 (w + new_load)))).
Proof.
  intros Hsep Hth Helf.
  destruct (load_segments_Ok elf_data flen page psize f Hsep m Hth Helf) as (m1 & Hseg & Hth1 & Hm1).
  assert (Hsf : same_file elf_data flen m m1).
  { intros a Ha. rewrite Hm1. destruct (in_range a page psize) eqn:E; [apply in_range_spec in E; lia|done]. }
  destruct (relocations_Ok uninit elf_data flen page psize new_load f Hsep m m1 Helf Hsf Hth1) as (m' & Hrel & Hin & Hout).
  pose proof Helf as (Hal & Hlen & Hmag & Hen & Hce & _ & _ & _ & _ & _ & _ & _ & _ & Hpg & _). rewrite Forall_forall in Hpg.
  pose proof Hth as [[(He0 & _) _] [Hl1 _]]. unfold build_image, e_entry in *.
  rewrite (bind_Ok _ _ _ _ _ (ElfModule_Ok m _ He0 ltac:(lia) Hal Hmag)).
  rewrite (bind_Ok _ _ _ _ _ (load32_Ok m (elf_data + 24) _ Hen ltac:(lia) ltac:(lia) Hce)), (bind_Ok _ _ _ _ _ Hseg).
  exists m'. split.
  { revert Hrel. munfold. destruct (getProgHdr elf_data m1) as [[phdr m2]|]; [|done].
    destruct (find_dynamic _ _ _ _ _ _ m2) as [[r m3]|]; [|done]. intros Hrel. by rewrite Hrel. }
  split; [|split].
  - intros a Ha. rewrite Hout, Hm1; [|intros r [Hr1 Hr2]%Hpg; lia].
    destruct (in_range a page psize) eqn:E; [by apply in_range_spec in E|done].
  - intros o Ho Hr. rewrite Hout, Hm1; [|intros r Hrr; specialize (Hr r Hrr); lia].
    rewrite (proj2 (in_range_spec _ _ _)) by lia. f_equal. lia.
  - intros r w Hr Hw Hi. apply Hin; [done|done|]. intros i b Hb. rewrite Hm1. apply lookup_lt_Some in Hb as Hlt. simpl in Hlt.
    destruct (Hpg r Hr). rewrite (proj2 (in_range_spec _ _ _)) by lia.
    replace (page + r + Z.of_nat i - page) with (r + Z.of_nat i) by lia. by apply Hi.
Qed.

(** A file with one segment of eight bytes that takes twelve in memory, at offset 16 of the
    page, and one relocation, of the segment's first word. *)
Definition words (ws : list Z) : list Z := ws ≫= bytes32.

Definition example_file : list Z :=
  [127; 69; 76; 70] ++ replicate 20 0 ++ words [16; 52] ++ replicate 12 0 ++ [2; 0; 0; 0; 0; 0; 0; 0] ++
  words [PT_LOAD; 152; 16; 0; 8; 12; 0; 0] ++ words [PT_DYNAMIC; 116; 0; 0; 36; 36; 0; 0] ++
  words [DT_REL; 160; DT_RELSZ; 8; DT_RELENT; 8; DT_RELCOUNT; 1; DT_NULL] ++ words [32; 5] ++ words [16; R_386_RELATIVE].

Definition example_program : program :=
  Program 16 52 [Segment PT_LOAD 152 16 8 12; Segment PT_DYNAMIC 116 0 36 36]
    [(DT_REL, 160); (DT_RELSZ, 8); (DT_RELENT, 8); (DT_RELCOUNT, 1)] [16].

Definition example_load (file : list Z) : memory := list_to_map (zip (seqZ 4096 168) file) ∪ alloc 32 8192 ∅.

Lemma bytes_check m p n : 0 ≤ p → p + n ≤ 2 ^ 32 →
  forallb (λ a, match m !! a with Some b => (0 <=? b) && (b <? 2 ^ 8) | None => false end) (seqZ p n) = true → bytes m p n.
Proof.
  intros H0 H1 H. split; [done|]. split; [done|]. intros a Ha. rewrite forallb_forall in H.
  specialize (H a (proj1 (list_elem_of_In _ _) (proj2 (elem_of_seqZ _ _ _) Ha))).
  destruct (m !! a) as [b|]; [|done]. exists b. split; [done|]. unfold is_u8. lia.
Qed.

Ltac contents_check := repeat (apply contents_cons; split; [vm_compute; reflexivity|]); apply contents_nil.

Lemma example_file_at : elf_at (example_load example_file) 4096 168 32 example_program.
Proof.
  unfold elf_at, example_program. cbn [entry phoff segs dyns rels length].
  repeat match goal with |- _ ∧ _ => split end; try done; try contents_check.
  - cbn [headers_at]. unfold header_at. cbn [ty off vaddr filesz memsz].
    repeat match goal with |- _ ∧ _ => split end; try done; contents_check.
  - repeat constructor; cbn [ty off vaddr filesz memsz]; try done; vm_compute; congruence.
  - unfold dynamic_at, relocs_at. change (first_dynamic _) with (Some 116). change (dyn_find DT_REL _ None) with (Some 160).
    cbn [dyns rels dyn_at rels_at fst snd]. cbv zeta.
    repeat match goal with |- _ ∧ _ => split end; try done; try contents_check.
    repeat (apply Forall_cons; split; [split; [apply (bool_decide_unpack _); by vm_compute|by vm_compute]|]). apply Forall_nil_2.
  - repeat constructor; by vm_compute.
Qed.

Lemma example_there file : file = example_file → there 4096 168 8192 32 (example_load file).
Proof. intros ->. split; [|done]. split; apply bytes_check; done || by vm_compute. Qed.

Lemma program_is_loaded_witness :
  ∃ m', build_image None 4096 8192 16384 (example_load example_file) = Ok (16400, m') ∧
    contents m' (8192 + 16) (bytes32 16416) ∧ m' !! 8216 = Some 0 ∧ m' !! 8212 = Some 5.
Proof.
  destruct (program_is_loaded None (example_load example_file) 4096 168 8192 32 16384 example_program)
    as (m' & Hrun & _ & Hb & Hr); [lia|by apply example_there|apply example_file_at|].
  exists m'. split; [exact Hrun|]. clear Hrun. split; [clear Hb|clear Hr; split].
  - apply (Hr 16 32); clear Hr; [left|done|].
    intros i b Hi. do 4 (destruct i as [|i]; [revert Hi; vm_compute; exact id|]). discriminate Hi.
  - change 8216 with (8192 + 24). rewrite (Hb 24 ltac:(lia)); [vm_compute; reflexivity|]. clear Hb. intros r [->|[]%elem_of_nil]%elem_of_cons. lia.
  - change 8212 with (8192 + 20). rewrite (Hb 20 ltac:(lia)); [vm_compute; reflexivity|]. clear Hb. intros r [->|[]%elem_of_nil]%elem_of_cons. lia.
Defined.

(** Without [DT_RELCOUNT] in the file, what the loader does depends on the value that the
    uninitialised pointer [rel_count] happens to have. *)
Definition file_without_count : list Z :=
  take 140 example_file ++ words [DT_NULL; 0; 0] ++ drop 152 example_file.

Definition is_Ok {A} (r : result A) : bool := match r with Ok _ => true | Fault _ => false end.

Lemma rel_count_uninitialised :
  is_Ok (build_image None 4096 8192 16384 (example_load file_without_count)) = true ∧
  build_image (Some 7) 4096 8192 16384 (example_load file_without_count) = Fault AssertFailed.
Proof. split; vm_compute; reflexivity. Qed.

End Elf.
