(* ===== verification/ElfSymbols.v ===== *)
(** The section and symbol tables of an ELF file: the accessors of [ElfModule] in
    libc/include/libc/elf/elf.h that look entries up by name, and the fields of the relocations.

    Entries are found in memory as in Elf.v.  The literals ".symtab" and ".strtab" are somewhere in
    the memory of the program: their addresses are arguments.  A null pointer is 0. *)
From S2P Require Import Prelude LibcString StartParams Elf.
Import LibcString.LibcString StartParams.StartParams Elf.Elf.

Module ElfSymbols.

(** * elf.h *)

(** Offsets in [Elf32_Ehdr], [Elf32_Shdr] and [Elf32_Sym]. *)
Definition e_shoff : Z := 32.
Definition e_shnum : Z := 48.
Definition e_shstrndx : Z := 50.
Definition sh_name : Z := 0.
Definition sh_offset : Z := 16.
Definition sh_size : Z := 20.
Definition sizeof_Shdr : Z := 40.
Definition st_name : Z := 0.
Definition sizeof_Sym : Z := 16.

(** [r_info] is signed, and so is the number of its symbol. *)
Definition ELF32_R_SYM (i : Z) : Z := Z.shiftr i 8.
Definition ELF32_R_TYPE (i : Z) : Z := u8 i.
Definition ELF32_R_INFO (s t : Z) : Z := s32 (u32 (Z.shiftl s 8 + u8 t)).

Definition getSectionHdrs (elf_data : Z) : M memory Z := off ← load32 (elf_data + e_shoff); mret (u32 (elf_data + off)).

Definition getStrTabHdr (elf_data : Z) : M memory Z :=
  shdr ← getSectionHdrs elf_data; i ← load16 (elf_data + e_shstrndx); mret (shdr + sizeof_Shdr * i).

(** [getSection] of a header. *)
Definition getSection (elf_data section_hdr : Z) : M memory Z :=
  off ← load32 (section_hdr + sh_offset); mret (u32 (elf_data + off)).

Definition getSectionHdrStrTab (elf_data : Z) : M memory Z := h ← getStrTabHdr elf_data; getSection elf_data h.

(** The loops over the sections and over the symbols: the first [i] below the limit such that the
    name of entry [i] is the one wanted. *)
Fixpoint find_named (fuel : nat) (limit : M memory Z) (entry_name : Z → M memory Z) (name i : Z) : M memory (option Z) :=
  match fuel with
  | O => fail NoFuel
  | S fuel =>
      n ← limit;
      if i <? n then
        p ← entry_name i;
        r ← strcmp name p;
        if r =? 0 then mret (Some i) else find_named fuel limit entry_name name (i + 1)
      else mret None
  end.

(** [strtab + section_hdr.sh_name] *)
Definition section_name_of (shdr strtab i : Z) : M memory Z :=
  w ← load32 (shdr + sizeof_Shdr * i + sh_name); mret (u32 (strtab + w)).

(** [getSectionHdr] of a name; the number of sections has 16 bits. *)
Definition getSectionHdr (elf_data section_name : Z) : M memory Z :=
  shdr ← getSectionHdrs elf_data;
  strtab ← getSectionHdrStrTab elf_data;
  i ← find_named (Z.to_nat (2 ^ 16)) (load16 (elf_data + e_shnum)) (section_name_of shdr strtab) section_name 0;
  mret (match i with Some i => shdr + sizeof_Shdr * i | None => 0 end).

(** [getSection] of a name. *)
Definition getSection_named (elf_data section_name : Z) : M memory Z :=
  h ← getSectionHdr elf_data section_name;
  if tobool h then getSection elf_data h else mret 0.

Section literals.
  Context (symtab_literal strtab_literal : Z).

Definition getSymTabHdr (elf_data : Z) : M memory Z := getSectionHdr elf_data symtab_literal.
Definition getSymTab (elf_data : Z) : M memory Z := getSection_named elf_data symtab_literal.
Definition getStrTab (elf_data : Z) : M memory Z := getSection_named elf_data strtab_literal.

(** [&getStrTab()[symbol.st_name]] *)
Definition symbol_name_of (elf_data symtab i : Z) : M memory Z :=
  strtab ← getStrTab elf_data;
  w ← load32 (symtab + sizeof_Sym * i + st_name); mret (u32 (strtab + w)).

Definition getSymbol (elf_data symbol_name : Z) : M memory Z :=
  symtab ← getSymTab elf_data;
  if tobool symtab then
    h ← getSymTabHdr elf_data;
    symtab_size ← load32 (h + sh_size);
    assert_ (symtab_size mod sizeof_Sym =? 0);;
    let num_syms := symtab_size / sizeof_Sym in
    i ← find_named (S (Z.to_nat num_syms)) (mret num_syms) (symbol_name_of elf_data symtab) symbol_name 0;
    mret (match i with Some i => symtab + sizeof_Sym * i | None => 0 end)
  else mret 0.

Definition getSymbolIndex (elf_data symbol : Z) : M memory Z :=
  symtab ← getSymTab elf_data; mret (u32 (symbol - symtab) / sizeof_Sym).
End literals.

(** * Lemmas *)

(** The macros for a relocation fit together. *)
Lemma r_info_fields s t : 0 ≤ s < 2 ^ 23 → 0 ≤ t < 2 ^ 8 →
  ELF32_R_SYM (ELF32_R_INFO s t) = s ∧ ELF32_R_TYPE (ELF32_R_INFO s t) = t.
Proof.
  intros Hs Ht. unfold ELF32_R_SYM, ELF32_R_TYPE, ELF32_R_INFO. rewrite Z.shiftl_mul_pow2, Z.shiftr_div_pow2 by lia.
  rewrite (u8_id t) by done. rewrite u32_id by (unfold is_u32; lia).
  unfold s32. destruct (Z.ltb_spec (s * 2 ^ 8 + t) (2 ^ 31)); [|lia]. unfold u8. split; dlia.
Qed.

(** ** The search *)

(** The first entry of a list with a name. *)
Definition first_named (names : list (list Z)) (s : list Z) : option nat := fst <$> list_find (λ t, t = s) names.

Section search.
  Context (m : memory) (limit : M memory Z) (entry_name : Z → M memory Z) (name : Z) (s : list Z) (names : list (list Z)).
  Hypothesis Hname : cstr m name s.
  Hypothesis Hlimit : limit m = Ok (Z.of_nat (length names), m).
  Hypothesis Hentries : ∀ i t, names !! i = Some t → ∃ p, entry_name (Z.of_nat i) m = Ok (p, m) ∧ cstr m p t.

Lemma find_named_from fuel : ∀ i, (i ≤ length names)%nat → (length names - i < fuel)%nat →
  find_named fuel limit entry_name name (Z.of_nat i) m =
    Ok ((λ j, Z.of_nat (i + j)) <$> first_named (drop i names) s, m).
Proof using Hname Hlimit Hentries.
  induction fuel as [|fuel IH]; intros i Hi Hf; [lia|]. cbn [find_named]. rewrite (bind_Ok _ _ _ _ _ Hlimit).
  destruct (Z.ltb_spec (Z.of_nat i) (Z.of_nat (length names))).
  - destruct (lookup_lt_is_Some_2 names i) as [t Ht]; [lia|]. destruct (Hentries i t Ht) as (p & Hp & Hc).
    rewrite (bind_Ok _ _ _ _ _ Hp), (bind_Ok _ _ _ _ _ (strcmp_Ok _ _ _ _ _ Hname Hc)).
    rewrite (drop_S _ _ _ Ht). unfold first_named. cbn [list_find].
    pose proof (diff_zero s t (cstr_chars _ _ _ Hname) (cstr_chars _ _ _ Hc)) as Hd.
    destruct (Z.eqb_spec (diff s t) 0) as [E|E].
    + apply Hd in E as <-. rewrite decide_True by done. cbn. by rewrite Nat.add_0_r.
    + rewrite decide_False by (intros ->; by apply E, Hd).
      replace (Z.of_nat i + 1) with (Z.of_nat (S i)) by lia. rewrite IH by lia. unfold first_named.
      destruct (list_find _ (drop (S i) names)) as [[j u]|]; cbn; [|done]. do 3 f_equal. lia.
  - rewrite drop_ge by lia. done.
Qed.

Lemma find_named_Ok fuel : (length names < fuel)%nat →
  find_named fuel limit entry_name name 0 m = Ok (Z.of_nat <$> first_named names s, m).
Proof using Hname Hlimit Hentries. intros Hf. apply (find_named_from fuel 0); lia. Qed.
End search.

(** ** A file with its tables *)

(** A section: its name, where it is in the file, and its size. *)
Record section := Sec { sname : list Z; soff : Z; ssize : Z }.

(** The section headers at [shdr]; their names are in the table at [strtab]. *)
Definition section_headers_at (m : memory) (shdr strtab : Z) (secs : list section) : Prop :=
  ∀ i x, secs !! i = Some x →
    let h := shdr + sizeof_Shdr * Z.of_nat i in
    (∃ w, is_u32 w ∧ contents m (h + sh_name) (bytes32 w) ∧ cstr m (u32 (strtab + w)) (sname x)) ∧
    is_u32 (soff x) ∧ contents m (h + sh_offset) (bytes32 (soff x)) ∧
    is_u32 (ssize x) ∧ contents m (h + sh_size) (bytes32 (ssize x)).

Definition half (w : Z) : list Z := [w mod 2 ^ 8; w / 2 ^ 8].

(** The file at [elf_data] has the sections [secs], of which number [x] holds their names. *)
Record has_sections (m : memory) (elf_data shoff : Z) (x : nat) (secs : list section) : Prop := {
  sec_base : 0 ≤ elf_data ∧ elf_data + 64 ≤ 2 ^ 32;
  sec_shoff : 0 ≤ shoff ∧ elf_data + shoff + sizeof_Shdr * Z.of_nat (length secs) < 2 ^ 32;
  sec_nonnull : 0 < elf_data + shoff;
  sec_count : Z.of_nat (length secs) < 2 ^ 16;
  sec_field : contents m (elf_data + e_shoff) (bytes32 shoff) ∧ contents m (elf_data + e_shnum) (half (Z.of_nat (length secs))) ∧
    contents m (elf_data + e_shstrndx) (half (Z.of_nat x));
  sec_names : ∃ s, secs !! x = Some s ∧ section_headers_at m (elf_data + shoff) (u32 (elf_data + soff s)) secs }.

Lemma half_Ok m a w : 0 ≤ w < 2 ^ 16 → 0 ≤ a → a + 2 ≤ 2 ^ 32 → contents m a (half w) → load16 a m = Ok (w, m).
Proof. intros Hw H0 H1 Hc. rewrite (load16_Ok m a _ _ H0 H1 Hc). do 2 f_equal. dlia. Qed.

Section tables.
  Context (m : memory) (elf_data shoff : Z) (x : nat) (secs : list section).
  Hypothesis Hsec : has_sections m elf_data shoff x secs.
Let shdr := elf_data + shoff.
Let hdr (i : nat) := shdr + sizeof_Shdr * Z.of_nat i.

(** The fields of a header are words below the end of memory. *)
Lemma field_Ok i s o w : secs !! i = Some s → 0 ≤ o ≤ 36 → is_u32 w → contents m (hdr i + o) (bytes32 w) →
  load32 (hdr i + o) m = Ok (w, m).
Proof using Hsec.
  intros Hi Ho Hw Hc. apply lookup_lt_Some in Hi. destruct (sec_shoff _ _ _ _ _ Hsec), (sec_base _ _ _ _ _ Hsec).
  apply load32_Ok; [done| | |done]; unfold hdr, shdr, sizeof_Shdr in *; lia.
Qed.

Lemma getSectionHdrs_Ok : getSectionHdrs elf_data m = Ok (shdr, m).
Proof using Hsec.
  destruct Hsec as [[H0 H1] [Hs Hlt] _ _ (Hf & _) _]. unfold getSectionHdrs, e_shoff in *.
  assert (is_u32 shoff) by (unfold is_u32, sizeof_Shdr in *; lia).
  erewrite bind_Ok by (apply load32_Ok; [done|lia|lia|exact Hf]). rewrite u32_id; [done|]. unfold is_u32, sizeof_Shdr in *. lia.
Qed.

Lemma getSection_Ok i s : secs !! i = Some s → getSection elf_data (hdr i) m = Ok (u32 (elf_data + soff s), m).
Proof using Hsec.
  intros Hi. destruct (sec_names _ _ _ _ _ Hsec) as (s0 & _ & Hh). destruct (Hh i s Hi) as (_ & Hu & Hc & _).
  unfold getSection. by erewrite bind_Ok by (by apply (field_Ok i s)).
Qed.

Lemma strtab_Ok s : secs !! x = Some s → getSectionHdrStrTab elf_data m = Ok (u32 (elf_data + soff s), m).
Proof using Hsec.
  intros Hx. pose proof Hsec as [[H0 H1] _ _ Hn (_ & _ & Hf) _]. unfold getSectionHdrStrTab, getStrTabHdr.
  erewrite bind_Ok; [by apply getSection_Ok|]. rewrite (bind_Ok _ _ _ _ _ getSectionHdrs_Ok).
  apply lookup_lt_Some in Hx. unfold e_shstrndx in *. by erewrite bind_Ok by (apply (half_Ok m _ (Z.of_nat x)); [lia|lia|lia|exact Hf]).
Qed.

(** The header of the first section with a name. *)
Lemma getSectionHdr_Ok p name : cstr m p name →
  getSectionHdr elf_data p m = Ok (match first_named (sname <$> secs) name with Some i => hdr i | None => 0 end, m).
Proof using Hsec.
  intros Hp. pose proof Hsec as [[H0 H1] _ _ Hn (_ & Hnum & _) (s & Hx & Hh)]. unfold getSectionHdr.
  rewrite (bind_Ok _ _ _ _ _ getSectionHdrs_Ok), (bind_Ok _ _ _ _ _ (strtab_Ok s Hx)).
  erewrite bind_Ok.
  2:{ apply (find_named_Ok m _ _ p name (sname <$> secs) Hp).
      - rewrite length_fmap. unfold e_shnum in *. apply (half_Ok m _ (Z.of_nat (length secs))); [lia|lia|lia|exact Hnum].
      - intros i t Ht. apply list_lookup_fmap_Some in Ht as (y & -> & Hy). destruct (Hh i y Hy) as [(w & Hw & Hc & Hs) _].
        eexists. split; [|exact Hs]. unfold section_name_of. by erewrite bind_Ok by (by apply (field_Ok i y)).
      - rewrite length_fmap. lia. }
  by destruct (first_named _ _).
Qed.

Lemma hdr_nonnull i : tobool (hdr i) = true.
Proof using Hsec.
  pose proof (sec_nonnull _ _ _ _ _ Hsec). unfold tobool, hdr, shdr, sizeof_Shdr. apply negb_true_iff, Z.eqb_neq. lia.
Qed.

Lemma first_named_Some {A} (f : A → list Z) l name i : first_named (f <$> l) name = Some i → ∃ y, l !! i = Some y ∧ f y = name.
Proof using.
  unfold first_named. intros ([j t] & (Hj & Ht & _)%list_find_Some & ->)%fmap_Some. simpl in *.
  apply list_lookup_fmap_Some in Hj as (y & -> & Hy). eauto.
Qed.

Lemma getSection_named_Ok p name : cstr m p name →
  getSection_named elf_data p m =
    Ok (match first_named (sname <$> secs) name ≫= (secs !!.) with Some y => u32 (elf_data + soff y) | None => 0 end, m).
Proof using Hsec.
  intros Hp. unfold getSection_named. rewrite (bind_Ok _ _ _ _ _ (getSectionHdr_Ok p name Hp)).
  destruct (first_named _ _) as [i|] eqn:E; [|done]. destruct (first_named_Some _ _ _ _ E) as (y & Hy & _).
  rewrite hdr_nonnull, (getSection_Ok i y Hy). cbn. by rewrite Hy.
Qed.
End tables.

(** The symbols at [symtab], with their names in the table at [strtab]. *)
Definition symbols_at (m : memory) (symtab strtab : Z) (names : list (list Z)) : Prop :=
  ∀ i t, names !! i = Some t →
    ∃ w, is_u32 w ∧ contents m (symtab + sizeof_Sym * Z.of_nat i + st_name) (bytes32 w) ∧ cstr m (u32 (strtab + w)) t.

(** The first section with a name. *)
Definition section_named (secs : list section) (name : list Z) : option section := first_named (sname <$> secs) name ≫= (secs !!.).

Definition dot_symtab : list Z := [46; 115; 121; 109; 116; 97; 98].
Definition dot_strtab : list Z := [46; 115; 116; 114; 116; 97; 98].

(** * Properties *)
Section symbols.
  Context (m : memory) (elf_data shoff : Z) (x : nat) (secs : list section).
  Hypothesis Hsec : has_sections m elf_data shoff x secs.
  (** The literals. *)
  Context (a b : Z).
  Hypothesis Ha : cstr m a dot_symtab.
  Hypothesis Hb : cstr m b dot_strtab.
  (** The symbol table lies in memory, and not at its start. *)
  Hypothesis Hin : ∀ y, section_named secs dot_symtab = Some y → 0 < elf_data + soff y ∧ elf_data + soff y + ssize y < 2 ^ 32.
Let strtab := match section_named secs dot_strtab with Some z => u32 (elf_data + soff z) | None => 0 end.

Lemma getSymTab_Ok y : section_named secs dot_symtab = Some y → getSymTab a elf_data m = Ok (elf_data + soff y, m).
Proof using Hsec Ha Hin.
  intros Hy. unfold getSymTab. rewrite (getSection_named_Ok m elf_data shoff x secs Hsec a dot_symtab Ha).
  unfold section_named in Hy. rewrite Hy. rewrite u32_id; [done|]. destruct (Hin y Hy).
  pose proof (sec_names _ _ _ _ _ Hsec) as (s & _ & Hh). unfold section_named in Hy.
  destruct (first_named _ _) as [i|]; [|done]. cbn in Hy. destruct (Hh i y Hy) as (_ & Hu & _ & Hs & _). unfold is_u32 in *. lia.
Qed.

Lemma symtab_size_Ok y : section_named secs dot_symtab = Some y → is_u32 (ssize y) ∧
  ∃ h, getSymTabHdr a elf_data m = Ok (h, m) ∧ load32 (h + sh_size) m = Ok (ssize y, m).
Proof using Hsec Ha.
  unfold section_named. intros Hy. pose proof (sec_names _ _ _ _ _ Hsec) as (s & _ & Hh).
  unfold getSymTabHdr. rewrite (getSectionHdr_Ok m elf_data shoff x secs Hsec a dot_symtab Ha).
  destruct (first_named _ _) as [i|]; [|done]. cbn in Hy. destruct (Hh i y Hy) as (_ & _ & _ & Hs & Hc).
  split; [exact Hs|]. eexists. split; [reflexivity|]. by apply (field_Ok m elf_data shoff x secs Hsec i y).
Qed.

Lemma symbol_name_Ok y names i t : section_named secs dot_symtab = Some y →
  symbols_at m (elf_data + soff y) strtab names → Z.of_nat (length names) = ssize y / sizeof_Sym → names !! i = Some t →
  ∃ p, symbol_name_of b elf_data (elf_data + soff y) (Z.of_nat i) m = Ok (p, m) ∧ cstr m p t.
Proof using Hsec Hb Hin.
  intros Hy Hs Hlen Hi. destruct (Hs i t Hi) as (w & Hw & Hc & Hp). eexists. split; [|exact Hp].
  unfold symbol_name_of, getStrTab. rewrite (bind_Ok _ _ _ _ _ (getSection_named_Ok m elf_data shoff x secs Hsec b dot_strtab Hb)).
  destruct (Hin y Hy). apply lookup_lt_Some in Hi. erewrite bind_Ok; [reflexivity|].
  apply load32_Ok; [done| | |exact Hc]; unfold sizeof_Sym, st_name in *; dlia.
Qed.

(** Looking up a symbol.  Without a section ".symtab" the result is null; when the size of that
    section is not a multiple of the size of a symbol, the assertion fails.  Otherwise the result is
    the first symbol whose name, in the table of the section ".strtab", is the one wanted, and
    [getSymbolIndex] of it is its number; when no symbol has that name, the result is null. *)
Lemma getSymbol_finds p name : cstr m p name →
  match section_named secs dot_symtab with
  | None => getSymbol a b elf_data p m = Ok (0, m)
  | Some y =>
      if negb (ssize y mod sizeof_Sym =? 0) then getSymbol a b elf_data p m = Fault AssertFailed
      else ∀ names, symbols_at m (elf_data + soff y) strtab names → Z.of_nat (length names) = ssize y / sizeof_Sym →
        match first_named names name with
        | Some i => getSymbol a b elf_data p m = Ok (elf_data + soff y + sizeof_Sym * Z.of_nat i, m) ∧
            getSymbolIndex a elf_data (elf_data + soff y + sizeof_Sym * Z.of_nat i) m = Ok (Z.of_nat i, m)
        | None => getSymbol a b elf_data p m = Ok (0, m)
        end
  end.
Proof using Hsec Ha Hb Hin.
  intros Hp. unfold getSymbol. destruct (section_named secs dot_symtab) as [y|] eqn:Hy in |- *.
  2:{ unfold getSymTab. rewrite (bind_Ok _ _ _ _ _ (getSection_named_Ok m elf_data shoff x secs Hsec a dot_symtab Ha)).
      unfold section_named in Hy. by rewrite Hy. }
  destruct (Hin y Hy) as [H0 H1]. destruct (symtab_size_Ok y Hy) as (Hu & h & Hh & Hs).
  rewrite (bind_Ok _ _ _ _ _ (getSymTab_Ok y Hy)).
  assert (Et : tobool (elf_data + soff y) = true) by (apply negb_true_iff, Z.eqb_neq; lia). rewrite Et.
  rewrite (bind_Ok _ _ _ _ _ Hh), (bind_Ok _ _ _ _ _ Hs). destruct (Z.eqb_spec (ssize y mod sizeof_Sym) 0) as [E|]; cbn [negb].
  2:{ done. }
  intros names Hn Hlen. erewrite bind_Ok by reflexivity. cbv zeta.
  assert (Hl : (mret (ssize y / sizeof_Sym) : M memory Z) m = Ok (Z.of_nat (length names), m)) by by rewrite Hlen.
  rewrite (bind_Ok _ _ _ _ _ (find_named_Ok m _ _ p name names Hp Hl
    (λ i t, symbol_name_Ok y names i t Hy Hn Hlen) (S (Z.to_nat (ssize y / sizeof_Sym))) ltac:(lia))).
  destruct (first_named names name) as [i|] eqn:Ef; cbn; [|done]. split; [done|].
  assert (Hi : (i < length names)%nat).
  { unfold first_named in Ef. apply fmap_Some in Ef as ([j t] & (Hj & _)%list_find_Some & ->). by eapply lookup_lt_Some. }
  unfold getSymbolIndex. rewrite (bind_Ok _ _ _ _ _ (getSymTab_Ok y Hy)).
  replace (elf_data + soff y + sizeof_Sym * Z.of_nat i - (elf_data + soff y)) with (sizeof_Sym * Z.of_nat i) by lia.
  pose proof (sec_base _ _ _ _ _ Hsec). unfold mret, M_ret. do 2 f_equal. unfold is_u32, sizeof_Sym in *. rewrite u32_id by (unfold is_u32; dlia). dlia.
Qed.
End symbols.

(** * An example

    A file at 4096 with the sections ".symtab", ".strtab" and the one of the names; its symbols are
    "f" and "main".  All names are in one table, which also has the literals. *)
Definition example_header_words (name off size : Z) : list Z := words [name; 1; 0; 0; off; size; 0; 0; 0; 0].
Definition example_names : list Z := [0] ++ dot_symtab ++ [0] ++ dot_strtab ++ [0; 102; 0; 109; 97; 105; 110; 0].

Definition example_module : list Z :=
  [127; 69; 76; 70] ++ replicate 28 0 ++ words [64] ++ replicate 12 0 ++ [3; 0; 2; 0] ++ replicate 12 0 ++
  example_header_words 1 184 32 ++ example_header_words 9 216 24 ++ example_header_words 0 216 24 ++
  words [17; 0; 0; 0; 19; 0; 0; 0] ++ example_names.

Definition example_memory : memory := list_to_map (zip (seqZ 4096 240) example_module).
Definition example_sections : list section := [Sec dot_symtab 184 32; Sec dot_strtab 216 24; Sec [] 216 24].

(** The strings and words are checked by evaluation. *)
Ltac cstr_check := repeat (split; [done|]); vm_compute; reflexivity.

Lemma example_has_sections : has_sections example_memory 4096 64 2 example_sections.
Proof.
  split; [done|done|done|done| |].
  - split; [contents_check|]. split; contents_check.
  - eexists. split; [reflexivity|]. intros [|[|[|i]]] y Hy; [..|discriminate Hy]; injection Hy as <-; cbn [sname soff ssize];
      (split; [|split; [done|split; [contents_check|split; [done|contents_check]]]]).
    + exists 1. split; [done|]. split; [contents_check|]. cstr_check.
    + exists 9. split; [done|]. split; [contents_check|]. cstr_check.
    + exists 0. split; [done|]. split; [contents_check|]. cstr_check.
Qed.

(** Without ".strtab" the names are looked up from address 0 on. *)
Lemma no_strtab_reads_null b elf_data symtab i w m :
  getSection_named elf_data b m = Ok (0, m) → load32 (symtab + sizeof_Sym * i + st_name) m = Ok (w, m) → is_u32 w →
  symbol_name_of b elf_data symtab i m = Ok (w, m).
Proof.
  intros H Hw Hu. unfold symbol_name_of, getStrTab. rewrite (bind_Ok _ _ _ _ _ H), (bind_Ok _ _ _ _ _ Hw).
  by rewrite Z.add_0_l, u32_id.
Qed.

End ElfSymbols.
