(* ===== verification/TaskSwitch.v ===== *)
(** The assembly between the processor and the kernel: the stubs that the interrupt vectors point to
    (kernel/isr.S) and [switch_task] (kernel/switchtask.S), with the layout of [registers_t]
    (kernel/include/kernel/isr.h) that they share with the C++ code through the offsets of
    kernel/include/kernel/scheduler.h.

    The state is the registers of the processor and the memory that its stacks are in.  Every
    instruction is a function on it.  [raise_interrupt] is what the processor does at an interrupt: the stack
    that it switches to when it comes from user code is an argument.  Segments have base 0, and the data
    segments of a user task are ones that user code may use, so that [iret] leaves them loaded. *)
From S2P Require Import Prelude LibcString StartParams Elf Scheduler.
Import LibcString.LibcString StartParams.StartParams.

Module TaskSwitch.

Inductive reg := EAX | ECX | EDX | EBX | ESP | EBP | ESI | EDI | DS | ES | FS | GS | SS | CS | EIP | EFLAGS.

#[export] Instance reg_eq_dec : EqDecision reg.
Proof. solve_decision. Defined.

Record state := St { cpu : reg → Z; mem : memory }.

Definition upd (r : reg) (v : Z) (c : reg → Z) : reg → Z := λ r', if decide (r' = r) then v else c r'.

(** * Instructions *)
Definition get (r : reg) : M state Z := gets (λ s, cpu s r).
Definition set (r : reg) (v : Z) : M state unit := modify (λ s, St (upd r v (cpu s)) (mem s)).
Definition on_mem {A} (m : M memory A) : M state A := zoom mem (λ m' s, St (cpu s) m') m.

(** The two bytes of a segment register. *)
Definition half (w : Z) : list Z := [w mod 256; (w / 2 ^ 8) mod 256].

Definition push_bytes (bs : list Z) : M state unit :=
  sp ← get ESP;
  let sp := u32 (sp - Z.of_nat (length bs)) in
  set ESP sp;;
  on_mem (store_list sp bs).
Definition push (v : Z) : M state unit := push_bytes (bytes32 v).
Definition pushw (r : reg) : M state unit := v ← get r; push_bytes (half v).

Definition pop : M state Z := sp ← get ESP; v ← on_mem (load32 sp); set ESP (u32 (sp + 4));; mret v.
Definition popw (r : reg) : M state unit := sp ← get ESP; v ← on_mem (Elf.Elf.load16 sp); set ESP (u32 (sp + 2));; set r v.
Definition add_esp (n : Z) : M state unit := sp ← get ESP; set ESP (u32 (sp + n)).

(** [pusha] pushes the stack pointer as it was; [popa] skips it. *)
Definition push_reg (r : reg) : M state unit := v ← get r; push v.
Definition pop_reg (r : reg) : M state unit := v ← pop; set r v.

Definition pusha : M state unit :=
  temp ← get ESP;
  push_reg EAX;; push_reg ECX;; push_reg EDX;; push_reg EBX;; push temp;; push_reg EBP;; push_reg ESI;; push_reg EDI.
Definition popa : M state unit :=
  pop_reg EDI;; pop_reg ESI;; pop_reg EBP;; add_esp 4;; pop_reg EBX;; pop_reg EDX;; pop_reg ECX;; pop_reg EAX.

Definition IF_bit : Z := 9.
Definition cli : M state unit := f ← get EFLAGS; set EFLAGS (Z.clearbit f IF_bit).
Definition sti : M state unit := f ← get EFLAGS; set EFLAGS (Z.setbit f IF_bit).

(** [iret] takes a stack from its frame when it returns to a lower privilege. *)
Definition ring (cs : Z) : Z := Z.land cs 3.
Definition iret : M state unit :=
  old ← get CS;
  ip ← pop; cs ← pop; fl ← pop;
  set EIP ip;; set CS cs;; set EFLAGS fl;;
  if ring old <? ring cs then
    sp ← pop; ss ← pop; set ESP sp;; set SS ss
  else mret tt.

(** The processor at an interrupt: to the stack [esp0] of the kernel when it was in user code, through
    an interrupt gate to [handler], with an error code for some of the exceptions. *)
Definition kernel_cs : Z := 0x08.
Definition raise_interrupt (esp0 handler : Z) (err : option Z) : M state unit :=
  sp ← get ESP; ss ← get SS; fl ← get EFLAGS; cs ← get CS; ip ← get EIP;
  (if ring kernel_cs <? ring cs then set ESP esp0;; set SS 0x10;; push ss;; push sp else mret tt);;
  push fl;; push cs;; push ip;;
  (match err with Some e => push e | None => mret tt end);;
  set CS kernel_cs;; set EIP handler;; cli.

(** * isr.S *)
Definition SAVE_REGISTERS : M state unit :=
  pusha;;
  pushw DS;; pushw ES;; pushw FS;; pushw GS;;
  a ← get EAX;
  set EAX (Z.lor (a - a mod 2 ^ 16) 0x10);;
  set DS 0x10;; set ES 0x10;; set FS 0x10;; set GS 0x10;;
  push_reg ESP.

Definition RESTORE_REGISTERS : M state unit :=
  add_esp 4;;
  popw GS;; popw FS;; popw ES;; popw DS;;
  popa;;
  add_esp 8;;
  sti;;
  iret.

(** [ISR_NOERRCODE] and [ISR_ERRCODE], up to the call of the handler. *)
Definition stub (errcode : bool) (isr_num : Z) : M state unit :=
  cli;;
  (if errcode then mret tt else push 0);;
  push isr_num;;
  SAVE_REGISTERS.

(** The table of stubs: the vectors made with [ISR_ERRCODE], and the stub of a vector. *)
Definition isr_errcodes : list Z := [8; 10; 11; 12; 13; 14; 17; 30].
Definition isr (isr_num : Z) : M state unit := stub (bool_decide (isr_num ∈ isr_errcodes)) isr_num.

(** The vectors for which a processor may push an error code. *)
Definition cpu_errcodes : list Z := [8; 10; 11; 12; 13; 14; 17; 21; 29; 30].

(** * scheduler.h *)
Definition GS_OFFSET : Z := 0.
Definition FS_OFFSET : Z := 2.
Definition ES_OFFSET : Z := 4.
Definition DS_OFFSET : Z := 6.
Definition EDI_OFFSET : Z := 8.
Definition ESI_OFFSET : Z := 12.
Definition EBP_OFFSET : Z := 16.
Definition ESP_OFFSET : Z := 20.
Definition EBX_OFFSET : Z := 24.
Definition EDX_OFFSET : Z := 28.
Definition ECX_OFFSET : Z := 32.
Definition EAX_OFFSET : Z := 36.
Definition EIP_OFFSET : Z := 48.
Definition CS_OFFSET : Z := 52.
Definition EFLAGS_OFFSET : Z := 56.
Definition USERESP_OFFSET : Z := 60.
Definition SS_OFFSET : Z := 64.

(** * switchtask.S *)
Definition mov (off : Z) (r : reg) : M state unit := a ← get EAX; v ← on_mem (load32 (u32 (a + off))); set r v.
Definition movw (off : Z) (r : reg) : M state unit := a ← get EAX; v ← on_mem (Elf.Elf.load16 (u32 (a + off))); set r v.
Definition push_field (off : Z) : M state unit := a ← get EAX; v ← on_mem (load32 (u32 (a + off))); push v.

Definition switch_task : M state unit :=
  sp ← get ESP;
  args ← on_mem (load32 (u32 (sp + 4)));
  set EAX args;;
  movw DS_OFFSET DS;; movw ES_OFFSET ES;; movw FS_OFFSET FS;; movw GS_OFFSET GS;;
  mov EDI_OFFSET EDI;; mov ESI_OFFSET ESI;; mov EBP_OFFSET EBP;;
  mov EBX_OFFSET EBX;; mov EDX_OFFSET EDX;; mov ECX_OFFSET ECX;;
  cs ← on_mem (load32 (u32 (args + CS_OFFSET)));
  if cs =? 0x08 then
    mov ESP_OFFSET ESP;;
    add_esp 8;;
    mov EAX_OFFSET EAX;;
    iret
  else
    push 0x23;; push_field USERESP_OFFSET;; push_field EFLAGS_OFFSET;; push_field CS_OFFSET;; push_field EIP_OFFSET;;
    mov EAX_OFFSET EAX;;
    iret.

(** * Lemmas *)

Lemma upd_eq r v c : upd r v c r = v.
Proof. unfold upd. by rewrite decide_True. Qed.

Lemma upd_ne r r' v c : r' ≠ r → upd r v c r' = c r'.
Proof. intros H. unfold upd. by rewrite decide_False. Qed.

(** The value of a register after updates. *)
Ltac regs := repeat (rewrite upd_eq || rewrite upd_ne by discriminate).

(** [l] is on top of the stack; there is room down to [lo], and memory is that of [m0] outside of the
    part from [lo] to [hi]. *)
Record on_stack (m0 : memory) (lo hi : Z) (l : list Z) (s : state) : Prop := {
  st_top : contents (mem s) (cpu s ESP) l;
  st_room : ∀ a, lo ≤ a < cpu s ESP → is_Some (mem s !! a);
  st_lo : 0 ≤ lo ≤ cpu s ESP;
  st_hi : cpu s ESP + Z.of_nat (length l) < 2 ^ 32;
  st_frame : ∀ a, ¬ (lo ≤ a < hi) → mem s !! a = m0 !! a;
}.

Lemma on_stack_set m0 lo hi l r v c m : on_stack m0 lo hi l (St c m) → r ≠ ESP → on_stack m0 lo hi l (St (upd r v c) m).
Proof. intros [H1 H2 H3 H4 H5] Hr. split; cbn in *; rewrite ?upd_ne by done; done. Qed.

Lemma half_u8 w : Forall is_u8 (half w).
Proof. repeat constructor; apply Z.mod_pos_bound; lia. Qed.

Lemma half_load m a v : 0 ≤ v < 2 ^ 16 → 0 ≤ a → a + 2 ≤ 2 ^ 32 → contents m a (half v) → Elf.Elf.load16 a m = Ok (v, m).
Proof. intros Hv H0 H1 Hc. rewrite (Elf.Elf.load16_Ok m a _ _ H0 H1 Hc). do 2 f_equal. dlia. Qed.

Section steps.
  Context (m0 : memory) (lo hi : Z).

Lemma push_bytes_Ok {B} bs (k : unit → M state B) l c m : on_stack m0 lo hi l (St c m) → Forall is_u8 bs →
  lo + Z.of_nat (length bs) ≤ c ESP ≤ hi →
  ∃ m', (push_bytes bs ≫= k) (St c m) = k tt (St (upd ESP (c ESP - Z.of_nat (length bs)) c) m') ∧
    on_stack m0 lo hi (bs ++ l) (St (upd ESP (c ESP - Z.of_nat (length bs)) c) m').
Proof.
  intros [H1 H2 H3 H4 H5] Hb Hroom. cbn in *. set (n := Z.of_nat (length bs)) in *.
  assert (Hn : 0 ≤ n) by (unfold n; lia).
  destruct (store_list_Ok bs m (c ESP - n)) as (m' & R & C & K1 & K2); [|done|].
  { split; [lia|]. split; [lia|]. intros a Ha. apply H2. fold n in Ha. lia. }
  exists m'. split.
  - unfold push_bytes. unfold mbind at 1, M_bind at 1. erewrite bind_Ok by reflexivity. cbv zeta. fold n. cbn [cpu].
    rewrite u32_id by (unfold is_u32; lia). erewrite bind_Ok by reflexivity. unfold on_mem, zoom. cbn [mem cpu]. by rewrite R.
  - split; cbn; rewrite ?upd_eq; fold n in K1.
    + apply contents_app. split; [exact C|]. fold n. replace (c ESP - n + n) with (c ESP) by lia.
      eapply contents_local; [|exact H1]. intros i Hi. apply K1. lia.
    + intros a Ha. apply K2, H2. lia.
    + lia.
    + rewrite length_app. unfold n. lia.
    + intros a Ha. rewrite K1 by lia. apply H5. lia.
Qed.

Lemma push_Ok {B} v (k : unit → M state B) l c m : on_stack m0 lo hi l (St c m) → lo + 4 ≤ c ESP ≤ hi →
  ∃ m', (push v ≫= k) (St c m) = k tt (St (upd ESP (c ESP - 4) c) m') ∧ on_stack m0 lo hi (bytes32 v ++ l) (St (upd ESP (c ESP - 4) c) m').
Proof. intros H Hr. by apply (push_bytes_Ok (bytes32 v) k l c m H (bytes32_u8 v)). Qed.

Lemma push_reg_Ok {B} r (k : unit → M state B) l c m : on_stack m0 lo hi l (St c m) → lo + 4 ≤ c ESP ≤ hi →
  ∃ m', (push_reg r ≫= k) (St c m) = k tt (St (upd ESP (c ESP - 4) c) m') ∧ on_stack m0 lo hi (bytes32 (c r) ++ l) (St (upd ESP (c ESP - 4) c) m').
Proof. intros H Hr. by apply (push_bytes_Ok (bytes32 (c r)) k l c m H (bytes32_u8 _)). Qed.

Lemma pushw_Ok {B} r (k : unit → M state B) l c m : on_stack m0 lo hi l (St c m) → lo + 2 ≤ c ESP ≤ hi →
  ∃ m', (pushw r ≫= k) (St c m) = k tt (St (upd ESP (c ESP - 2) c) m') ∧ on_stack m0 lo hi (half (c r) ++ l) (St (upd ESP (c ESP - 2) c) m').
Proof. intros H Hr. by apply (push_bytes_Ok (half (c r)) k l c m H (half_u8 _)). Qed.

(** Taking bytes off the stack. *)
Lemma on_stack_drop bs l c m : on_stack m0 lo hi (bs ++ l) (St c m) → on_stack m0 lo hi l (St (upd ESP (c ESP + Z.of_nat (length bs)) c) m).
Proof.
  intros [H1 H2 H3 H4 H5]. cbn in *. rewrite length_app in H4. apply contents_app in H1 as [H0 H1]. split; cbn; rewrite ?upd_eq; [done| |lia|lia|done].
  intros a Ha. destruct (Z.lt_ge_cases a (c ESP)); [apply H2; lia|].
  destruct (lookup_lt_is_Some_2 bs (Z.to_nat (a - c ESP))) as [b Hb]; [lia|]. apply H0 in Hb.
  replace (c ESP + Z.of_nat (Z.to_nat (a - c ESP))) with a in Hb by lia. by eexists.
Qed.

Lemma pop_Ok {B} v (k : Z → M state B) l c m : on_stack m0 lo hi (bytes32 v ++ l) (St c m) → is_u32 v →
  (pop ≫= k) (St c m) = k v (St (upd ESP (c ESP + 4) c) m) ∧ on_stack m0 lo hi l (St (upd ESP (c ESP + 4) c) m).
Proof.
  intros H Hv. split; [|by apply (on_stack_drop (bytes32 v))]. destruct H as [H1 H2 H3 H4 _]. cbn [cpu mem] in *.
  rewrite length_app in H4. change (length (bytes32 v)) with 4%nat in H4. apply contents_app in H1 as [H0 _]. unfold pop. unfold mbind at 1, M_bind at 1. erewrite bind_Ok by reflexivity. cbn [cpu].
  erewrite bind_Ok by (unfold on_mem, zoom; cbn [mem]; rewrite (load32_Ok m (c ESP) v) by (done || lia); reflexivity).
  cbn [cpu]. rewrite u32_id by (unfold is_u32; lia). done.
Qed.

Lemma pop_reg_Ok {B} r v (k : unit → M state B) l c m : r ≠ ESP → on_stack m0 lo hi (bytes32 v ++ l) (St c m) → is_u32 v →
  (pop_reg r ≫= k) (St c m) = k tt (St (upd r v (upd ESP (c ESP + 4) c)) m) ∧ on_stack m0 lo hi l (St (upd r v (upd ESP (c ESP + 4) c)) m).
Proof.
  intros Hr H Hv. destruct (pop_Ok v (λ v, set r v ≫= k) l c m H Hv) as [E H']. split; [|by apply on_stack_set].
  etrans; [|exact E]. unfold pop_reg, mbind, M_bind. by destruct (pop (St c m)) as [[]|].
Qed.

Lemma popw_Ok {B} r v (k : unit → M state B) l c m : r ≠ ESP → on_stack m0 lo hi (half v ++ l) (St c m) → 0 ≤ v < 2 ^ 16 →
  (popw r ≫= k) (St c m) = k tt (St (upd r v (upd ESP (c ESP + 2) c)) m) ∧ on_stack m0 lo hi l (St (upd r v (upd ESP (c ESP + 2) c)) m).
Proof.
  intros Hr H Hv. split; [|apply on_stack_set; [by apply (on_stack_drop (half v))|done]]. destruct H as [H1 H2 H3 H4 _]. cbn [cpu mem] in *.
  rewrite length_app in H4. change (length (half v)) with 2%nat in H4. apply contents_app in H1 as [H0 _].
  unfold popw. unfold mbind at 1, M_bind at 1. erewrite bind_Ok by reflexivity. cbn [cpu].
  erewrite bind_Ok by (unfold on_mem, zoom; cbn [mem]; rewrite (half_load m (c ESP) v) by (done || lia); reflexivity).
  cbn [cpu]. rewrite u32_id by (unfold is_u32; lia). done.
Qed.

Lemma add_esp_Ok {B} bs (k : unit → M state B) l c m : on_stack m0 lo hi (bs ++ l) (St c m) →
  (add_esp (Z.of_nat (length bs)) ≫= k) (St c m) = k tt (St (upd ESP (c ESP + Z.of_nat (length bs)) c) m) ∧
  on_stack m0 lo hi l (St (upd ESP (c ESP + Z.of_nat (length bs)) c) m).
Proof.
  intros H. split; [|by apply on_stack_drop]. destruct H as [_ _ H3 H4 _]. cbn [cpu mem] in *. rewrite length_app in H4.
  unfold add_esp. unfold mbind at 1, M_bind at 1. erewrite bind_Ok by reflexivity. cbn [cpu]. by rewrite u32_id by (unfold is_u32; lia).
Qed.
End steps.

(** * The layout of [registers_t] *)
Import Scheduler.Scheduler.

Definition image (r : registers_t) : list Z :=
  half (gs r) ++ half (fs r) ++ half (es r) ++ half (ds r) ++
  concat (bytes32 <$> [edi r; esi r; ebp r; esp r; ebx r; edx r; ecx r; eax r; int_no r; err_code r; eip r; cs r; eflags r]) ++
  bytes32 (useresp r) ++ bytes32 (ss r).

Record regs_ok (r : registers_t) : Prop := {
  ok_segments : Forall (λ w, 0 ≤ w < 2 ^ 16) [gs r; fs r; es r; ds r];
  ok_words : Forall is_u32 [edi r; esi r; ebp r; esp r; ebx r; edx r; ecx r; eax r; int_no r; err_code r; eip r; cs r; eflags r; useresp r; ss r];
}.

(** The registers that an interrupt saves: [top] is the stack pointer before [pusha], [u] and [s] are the
    words above the frame, which are the stack of the task when it was in user code. *)
Definition saved (c : reg → Z) (isr_num err top u s : Z) : registers_t :=
  mkRegs (c GS) (c FS) (c ES) (c DS) (c EDI) (c ESI) (c EBP) top (c EBX) (c EDX) (c ECX) (c EAX) isr_num err
    (c EIP) (c CS) (c EFLAGS) u s.

(** The registers of the processor when a user task runs with [r]. *)
Definition running (r : registers_t) (x : reg) : Z :=
  match x with
  | EAX => eax r | ECX => ecx r | EDX => edx r | EBX => ebx r | ESP => useresp r | EBP => ebp r | ESI => esi r | EDI => edi r
  | DS => ds r | ES => es r | FS => fs r | GS => gs r | SS => ss r | CS => cs r | EIP => eip r | EFLAGS => eflags r
  end.

(** * Stepping through instructions *)
Lemma bind_assoc_at {A B C} (x : M state A) (f : A → M state B) (g : B → M state C) s :
  ((x ≫= f) ≫= g) s = (x ≫= λ a, f a ≫= g) s.
Proof. unfold mbind, M_bind. by destruct (x s) as [[]|]. Qed.

Lemma get_step {B} r (k : Z → M state B) c m : (get r ≫= k) (St c m) = k (c r) (St c m).
Proof. done. Qed.

Lemma set_step {B} r v (k : unit → M state B) c m : (set r v ≫= k) (St c m) = k tt (St (upd r v c) m).
Proof. done. Qed.

Lemma ret_step {B} (k : unit → M state B) s : (mret tt ≫= k) s = k tt s.
Proof. done. Qed.

Lemma bind_mret (x : M state unit) s : (x ≫= mret) s = x s.
Proof. unfold mbind, M_bind, mret, M_ret. by destruct (x s) as [[[] ?]|]. Qed.

Ltac regs_in H := repeat (rewrite upd_eq in H || rewrite upd_ne in H by discriminate).
Ltac bounds := regs; cbn [length]; lia.
Ltac next E H H' := rewrite E; clear E H; regs_in H'; regs; cbv beta.

(** One instruction; the hypothesis about the stack follows. *)
Ltac step :=
  rewrite ?bind_assoc_at;
  lazymatch goal with
  | H : on_stack ?m0 ?lo ?hi ?l (St ?c ?m) |- context [(push ?v ≫= ?k) (St ?c ?m)] =>
      let m' := fresh "m" in let E := fresh in let H' := fresh "H" in
      destruct (push_Ok m0 lo hi v k l c m H) as (m' & E & H'); [bounds|]; next E H H'
  | H : on_stack ?m0 ?lo ?hi ?l (St ?c ?m) |- context [(push_reg ?r ≫= ?k) (St ?c ?m)] =>
      let m' := fresh "m" in let E := fresh in let H' := fresh "H" in
      destruct (push_reg_Ok m0 lo hi r k l c m H) as (m' & E & H'); [bounds|]; next E H H'
  | H : on_stack ?m0 ?lo ?hi ?l (St ?c ?m) |- context [(pushw ?r ≫= ?k) (St ?c ?m)] =>
      let m' := fresh "m" in let E := fresh in let H' := fresh "H" in
      destruct (pushw_Ok m0 lo hi r k l c m H) as (m' & E & H'); [bounds|]; next E H H'
  | |- context [(get ?r ≫= ?k) (St ?c ?m)] => rewrite (get_step r k c m); regs; cbv beta
  | H : on_stack ?m0 ?lo ?hi ?l (St ?c ?m) |- context [(set ?r ?v ≫= ?k) (St ?c ?m)] =>
      rewrite (set_step r v k c m); cbv beta;
      let H' := fresh "H" in
      assert (H' : on_stack m0 lo hi l (St (upd r v c) m)) by (apply on_stack_set; [exact H|discriminate]); clear H
  | |- context [(mret tt ≫= ?k) ?s] => rewrite (ret_step k s); cbv beta
  end.

(** ** Saving *)
Lemma SAVE_REGISTERS_Ok m0 lo hi l c m : on_stack m0 lo hi l (St c m) → lo + 44 ≤ c ESP ≤ hi →
  ∃ c' m', SAVE_REGISTERS (St c m) = Ok (tt, St c' m') ∧
    on_stack m0 lo hi (bytes32 (c ESP - 40) ++ half (c GS) ++ half (c FS) ++ half (c ES) ++ half (c DS) ++
      concat (bytes32 <$> [c EDI; c ESI; c EBP; c ESP; c EBX; c EDX; c ECX; c EAX]) ++ l) (St c' m') ∧
    c' ESP = c ESP - 44 ∧ c' DS = 0x10 ∧ c' ES = 0x10 ∧ c' FS = 0x10 ∧ c' GS = 0x10 ∧ c' CS = c CS ∧ c' SS = c SS ∧ c' EFLAGS = c EFLAGS.
Proof.
  intros H Hr. unfold SAVE_REGISTERS, pusha. do 19 step. rewrite <- bind_mret. step. eexists _, _. split; [reflexivity|]. regs.
  replace (c ESP - 4 - 4 - 4 - 4 - 4 - 4 - 4 - 4 - 2 - 2 - 2 - 2) with (c ESP - 40) in * by lia.
  split; [cbn [fmap list_fmap concat]; rewrite <- ?app_assoc; cbn [app] in *; assumption|]. split_and!; done || lia.
Qed.

(** From user code to the call of the handler: the registers are on the kernel's stack, at the address
    that is passed. *)
Lemma entry_Ok c m esp0 handler (errcode : bool) err isr_num : ring (c CS) = 3 → 72 ≤ esp0 < 2 ^ 32 →
  (∀ a, esp0 - 72 ≤ a < esp0 → is_Some (m !! a)) →
  ∃ c' m', (raise_interrupt esp0 handler (if errcode then Some err else None);; stub errcode isr_num) (St c m) = Ok (tt, St c' m') ∧
    contents m' (c' ESP) (bytes32 (esp0 - 68) ++ image (saved c isr_num (if errcode then err else 0) (esp0 - 28) (c ESP) (c SS))) ∧
    c' ESP = esp0 - 72 ∧ c' CS = kernel_cs ∧ c' DS = 0x10 ∧ c' ES = 0x10 ∧ c' FS = 0x10 ∧ c' GS = 0x10 ∧ c' SS = 0x10 ∧
    Z.testbit (c' EFLAGS) IF_bit = false ∧ (∀ a, ¬ (esp0 - 72 ≤ a < esp0) → m' !! a = m !! a).
Proof.
  intros Hu He Hm.
  assert (H : on_stack m (esp0 - 72) esp0 [] (St (upd SS 0x10 (upd ESP esp0 c)) m)).
  { split; cbn [cpu mem]; regs; [apply contents_nil|done|lia|cbn; lia|done]. }
  unfold raise_interrupt, stub, cli. do 5 step. rewrite Hu. change (ring kernel_cs <? 3) with true. cbv iota.
  rewrite ?bind_assoc_at, set_step. cbv beta. rewrite ?bind_assoc_at, set_step. cbv beta. do 5 step.
  destruct errcode; do 9 step.
  all: replace (esp0 - 4 - 4 - 4 - 4 - 4 - 4 - 4) with (esp0 - 28) in * by lia.
  all: match goal with H : on_stack _ _ _ _ _ |- _ =>
    destruct (SAVE_REGISTERS_Ok _ _ _ _ _ _ H) as (c' & m' & R & Hs & S1 & S2 & S3 & S4 & S5 & S6 & S7 & S8); [bounds|] end.
  all: revert S1 S6 S7 S8 Hs; regs; replace (esp0 - 28 - 40) with (esp0 - 68) by lia; intros S1 S6 S7 S8 Hs.
  all: exists c', m'; split; [exact R|]; destruct Hs as [Ht _ _ _ Hf]; cbn [cpu mem] in *.
  all: split; [unfold image, saved; cbn [fmap list_fmap concat] in *; rewrite <- ?app_assoc, ?app_nil_r in *; exact Ht|].
  all: rewrite S8, Z.clearbit_eq; split_and!; done || lia.
Qed.

(** From kernel code: the frame is on the stack that was in use. *)
Lemma entry_kernel_Ok c m esp0 handler (errcode : bool) err isr_num u s : ring (c CS) = 0 → 64 ≤ c ESP < 2 ^ 32 - 8 →
  (∀ a, c ESP - 64 ≤ a < c ESP → is_Some (m !! a)) → contents m (c ESP) (bytes32 u ++ bytes32 s) →
  ∃ c' m', (raise_interrupt esp0 handler (if errcode then Some err else None);; stub errcode isr_num) (St c m) = Ok (tt, St c' m') ∧
    contents m' (c' ESP) (bytes32 (c ESP - 60) ++ image (saved c isr_num (if errcode then err else 0) (c ESP - 20) u s)) ∧
    c' ESP = c ESP - 64 ∧ c' CS = kernel_cs ∧ c' SS = c SS ∧ Z.testbit (c' EFLAGS) IF_bit = false ∧
    (∀ a, ¬ (c ESP - 64 ≤ a < c ESP) → m' !! a = m !! a).
Proof.
  intros Hu He Hm Habove.
  assert (H : on_stack m (c ESP - 64) (c ESP) (bytes32 u ++ bytes32 s) (St c m)).
  { split; cbn [cpu mem]; [done..|lia| |done]. change (length (bytes32 u ++ bytes32 s)) with 8%nat. lia. }
  unfold raise_interrupt, stub, cli. do 5 step. rewrite Hu. change (ring kernel_cs <? 0) with false. cbv iota. do 4 step.
  destruct errcode; do 9 step.
  all: replace (c ESP - 4 - 4 - 4 - 4 - 4) with (c ESP - 20) in * by lia.
  all: match goal with H : on_stack _ _ _ _ _ |- _ =>
    destruct (SAVE_REGISTERS_Ok _ _ _ _ _ _ H) as (c' & m' & R & Hs & S1 & S2 & S3 & S4 & S5 & S6 & S7 & S8); [bounds|] end.
  all: revert S1 S6 S7 S8 Hs; regs; replace (c ESP - 20 - 40) with (c ESP - 60) by lia; intros S1 S6 S7 S8 Hs.
  all: exists c', m'; split; [exact R|]; destruct Hs as [Ht _ _ _ Hf]; cbn [cpu mem] in *.
  all: split; [unfold image, saved; cbn [fmap list_fmap concat] in *; rewrite <- ?app_assoc, ?app_nil_r in *; exact Ht|].
  all: rewrite S8, Z.clearbit_eq; split_and!; done || lia.
Qed.

(** ** Restoring *)
Lemma add_esp_word {B} m0 lo hi v (k : unit → M state B) l c m : on_stack m0 lo hi (bytes32 v ++ l) (St c m) →
  (add_esp 4 ≫= k) (St c m) = k tt (St (upd ESP (c ESP + 4) c) m) ∧ on_stack m0 lo hi l (St (upd ESP (c ESP + 4) c) m).
Proof. intros H. exact (add_esp_Ok m0 lo hi (bytes32 v) k l c m H). Qed.

Lemma add_esp_words {B} m0 lo hi v w (k : unit → M state B) l c m : on_stack m0 lo hi (bytes32 v ++ bytes32 w ++ l) (St c m) →
  (add_esp 8 ≫= k) (St c m) = k tt (St (upd ESP (c ESP + 8) c) m) ∧ on_stack m0 lo hi l (St (upd ESP (c ESP + 8) c) m).
Proof. intros H. exact (add_esp_Ok m0 lo hi (bytes32 v ++ bytes32 w) k l c m H). Qed.

(** One instruction that takes from the stack. *)
Ltac take :=
  rewrite ?bind_assoc_at;
  lazymatch goal with
  | H : on_stack ?m0 ?lo ?hi (bytes32 ?v ++ ?l) (St ?c ?m) |- context [(pop_reg ?r ≫= ?k) (St ?c ?m)] =>
      let E := fresh in let H' := fresh "H" in
      destruct (pop_reg_Ok m0 lo hi r v k l c m) as [E H']; [discriminate|exact H|assumption|]; next E H H'
  | H : on_stack ?m0 ?lo ?hi (half ?v ++ ?l) (St ?c ?m) |- context [(popw ?r ≫= ?k) (St ?c ?m)] =>
      let E := fresh in let H' := fresh "H" in
      destruct (popw_Ok m0 lo hi r v k l c m) as [E H']; [discriminate|exact H|assumption|]; next E H H'
  | H : on_stack ?m0 ?lo ?hi (bytes32 ?v ++ ?l) (St ?c ?m) |- context [(pop ≫= ?k) (St ?c ?m)] =>
      let E := fresh in let H' := fresh "H" in
      destruct (pop_Ok m0 lo hi v k l c m H) as [E H']; [assumption|]; next E H H'
  | H : on_stack ?m0 ?lo ?hi (bytes32 ?v ++ ?l) (St ?c ?m) |- context [(add_esp 4 ≫= ?k) (St ?c ?m)] =>
      let E := fresh in let H' := fresh "H" in
      destruct (add_esp_word m0 lo hi v k l c m H) as [E H']; next E H H'
  | H : on_stack ?m0 ?lo ?hi (bytes32 ?v ++ bytes32 ?w ++ ?l) (St ?c ?m) |- context [(add_esp 8 ≫= ?k) (St ?c ?m)] =>
      let E := fresh in let H' := fresh "H" in
      destruct (add_esp_words m0 lo hi v w k l c m H) as [E H']; next E H H'
  end.

(** [iret] to user code: the frame has the stack of the task. *)
Lemma iret_user m0 lo hi l ip cs_ fl sp ss_ c m : (ring (c CS) <? ring cs_) = true →
  on_stack m0 lo hi (bytes32 ip ++ bytes32 cs_ ++ bytes32 fl ++ bytes32 sp ++ bytes32 ss_ ++ l) (St c m) →
  is_u32 ip → is_u32 cs_ → is_u32 fl → is_u32 sp → is_u32 ss_ →
  ∃ c', iret (St c m) = Ok (tt, St c' m) ∧ c' EIP = ip ∧ c' CS = cs_ ∧ c' EFLAGS = fl ∧ c' ESP = sp ∧ c' SS = ss_ ∧
    ∀ x, x ∉ [EIP; CS; EFLAGS; ESP; SS] → c' x = c x.
Proof.
  intros Hr H. intros. unfold iret. step. do 3 take. do 3 step. rewrite Hr. do 2 take. rewrite set_step. cbv beta.
  eexists. split; [reflexivity|]. cbn [cpu mem]. regs. do 5 (split; [done|]).
  intros x Hx. rewrite !not_elem_of_cons in Hx. destruct Hx as (? & ? & ? & ? & ? & _). by rewrite !upd_ne by done.
Qed.

(** [iret] to kernel code: the stack stays. *)
Lemma iret_kernel m0 lo hi l ip cs_ fl c m : (ring (c CS) <? ring cs_) = false →
  on_stack m0 lo hi (bytes32 ip ++ bytes32 cs_ ++ bytes32 fl ++ l) (St c m) → is_u32 ip → is_u32 cs_ → is_u32 fl →
  ∃ c', iret (St c m) = Ok (tt, St c' m) ∧ c' EIP = ip ∧ c' CS = cs_ ∧ c' EFLAGS = fl ∧ c' ESP = c ESP + 12 ∧
    ∀ x, x ∉ [EIP; CS; EFLAGS; ESP] → c' x = c x.
Proof.
  intros Hr H. intros. unfold iret. step. do 3 take. do 3 step. rewrite Hr.
  eexists. split; [reflexivity|]. cbn [cpu mem]. regs. do 3 (split; [done|]). split; [lia|].
  intros x Hx. rewrite !not_elem_of_cons in Hx. destruct Hx as (? & ? & ? & ? & _). by rewrite !upd_ne by done.
Qed.

Lemma image_app r : image r =
  half (gs r) ++ half (fs r) ++ half (es r) ++ half (ds r) ++
  bytes32 (edi r) ++ bytes32 (esi r) ++ bytes32 (ebp r) ++ bytes32 (esp r) ++ bytes32 (ebx r) ++ bytes32 (edx r) ++
  bytes32 (ecx r) ++ bytes32 (eax r) ++ bytes32 (int_no r) ++ bytes32 (err_code r) ++
  bytes32 (eip r) ++ bytes32 (cs r) ++ bytes32 (eflags r) ++ bytes32 (useresp r) ++ bytes32 (ss r) ++ [].
Proof. done. Qed.

(** One register is not, or is, among a list of others. *)
Ltac other := apply (bool_decide_unpack _); exact I.

(** Returning from the handler, up to [iret]. *)
Lemma RESTORE_REGISTERS_loads m0 lo hi p r c m : regs_ok r → on_stack m0 lo hi (bytes32 p ++ image r) (St c m) →
  ∃ c', RESTORE_REGISTERS (St c m) = iret (St c' m) ∧
    on_stack m0 lo hi (bytes32 (eip r) ++ bytes32 (cs r) ++ bytes32 (eflags r) ++ bytes32 (useresp r) ++ bytes32 (ss r) ++ []) (St c' m) ∧
    c' ESP = c ESP + 52 ∧ c' CS = c CS ∧ c' SS = c SS ∧ ∀ x, x ∉ [EIP; CS; EFLAGS; ESP; SS] → c' x = running r x.
Proof.
  intros [Hseg Hw] H. rewrite !Forall_cons in Hseg. rewrite !Forall_cons in Hw.
  destruct Hseg as (? & ? & ? & ? & _), Hw as (? & ? & ? & ? & ? & ? & ? & ? & ? & ? & ? & ? & ? & ? & ? & _).
  rewrite image_app in H. unfold RESTORE_REGISTERS, popa, sti. do 14 take. do 2 step. eexists. split; [reflexivity|]. split; [eassumption|].
  regs. do 3 (split; [done || lia|]). intros [] Hx; first [by regs | by destruct Hx; other].
Qed.

Lemma RESTORE_REGISTERS_user m0 lo hi p r c m : (ring (c CS) <? ring (cs r)) = true → regs_ok r →
  on_stack m0 lo hi (bytes32 p ++ image r) (St c m) →
  ∃ c', RESTORE_REGISTERS (St c m) = Ok (tt, St c' m) ∧ ∀ x, c' x = running r x.
Proof.
  intros Hr Hok H. destruct (RESTORE_REGISTERS_loads _ _ _ _ _ _ _ Hok H) as (c1 & -> & H1 & _ & Hcs & _ & K1).
  destruct Hok as [_ Hw]. rewrite !Forall_cons in Hw. destruct Hw as (_ & _ & _ & _ & _ & _ & _ & _ & _ & _ & ? & ? & ? & ? & ? & _).
  destruct (iret_user _ _ _ _ _ _ _ _ _ c1 m ltac:(rewrite Hcs; exact Hr) H1) as (c' & E & E1 & E2 & E3 & E4 & E5 & K); [done..|].
  exists c'. split; [exact E|]. intros []; try done; rewrite K, K1 by other; done.
Qed.

Lemma RESTORE_REGISTERS_kernel m0 lo hi p r c m : (ring (c CS) <? ring (cs r)) = false → regs_ok r →
  on_stack m0 lo hi (bytes32 p ++ image r) (St c m) →
  ∃ c', RESTORE_REGISTERS (St c m) = Ok (tt, St c' m) ∧ c' ESP = c ESP + 64 ∧ c' SS = c SS ∧ ∀ x, x ≠ ESP → x ≠ SS → c' x = running r x.
Proof.
  intros Hr Hok H. destruct (RESTORE_REGISTERS_loads _ _ _ _ _ _ _ Hok H) as (c1 & -> & H1 & Hsp & Hcs & Hss & K1).
  destruct Hok as [_ Hw]. rewrite !Forall_cons in Hw. destruct Hw as (_ & _ & _ & _ & _ & _ & _ & _ & _ & _ & ? & ? & ? & ? & ? & _).
  destruct (iret_kernel _ _ _ _ _ _ _ c1 m ltac:(rewrite Hcs; exact Hr) H1) as (c' & E & E1 & E2 & E3 & E4 & K); [done..|].
  exists c'. split; [exact E|]. split; [lia|]. split; [by rewrite K by other|].
  intros [] ? ?; try done; rewrite K, K1 by other; done.
Qed.

(** ** switch_task *)
Definition field_at (r : registers_t) (off : Z) (bs : list Z) : Prop :=
  image r = take (Z.to_nat off) (image r) ++ bs ++ drop (Z.to_nat off + length bs) (image r).

(** The static assertions of scheduler.cpp: the offsets are those of the fields. *)
Definition offsets_match (r : registers_t) : Prop :=
  field_at r GS_OFFSET (half (gs r)) ∧ field_at r FS_OFFSET (half (fs r)) ∧ field_at r ES_OFFSET (half (es r)) ∧ field_at r DS_OFFSET (half (ds r)) ∧
  field_at r EDI_OFFSET (bytes32 (edi r)) ∧ field_at r ESI_OFFSET (bytes32 (esi r)) ∧ field_at r EBP_OFFSET (bytes32 (ebp r)) ∧ field_at r ESP_OFFSET (bytes32 (esp r)) ∧
  field_at r EBX_OFFSET (bytes32 (ebx r)) ∧ field_at r EDX_OFFSET (bytes32 (edx r)) ∧ field_at r ECX_OFFSET (bytes32 (ecx r)) ∧ field_at r EAX_OFFSET (bytes32 (eax r)) ∧
  field_at r EIP_OFFSET (bytes32 (eip r)) ∧ field_at r CS_OFFSET (bytes32 (cs r)) ∧ field_at r EFLAGS_OFFSET (bytes32 (eflags r)) ∧
  field_at r USERESP_OFFSET (bytes32 (useresp r)) ∧ field_at r SS_OFFSET (bytes32 (ss r)).

Lemma offsets_hold r : offsets_match r.
Proof. unfold offsets_match. split_and!; reflexivity. Qed.

Section args.
  Context (m0 : memory) (lo hi A : Z) (r : registers_t).
  Context (Hargs : contents m0 A (image r)) (Hout : A + 68 ≤ lo ∨ hi ≤ A) (HA : 0 ≤ A ∧ A + 68 < 2 ^ 32).

Lemma field_contents m off bs : (∀ a, ¬ (lo ≤ a < hi) → m !! a = m0 !! a) → 0 ≤ off ∧ off + Z.of_nat (length bs) ≤ 68 → field_at r off bs →
  contents m (A + off) bs.
Proof.
  intros Hm Ho E. assert (Hc : contents m A (image r)).
  { eapply contents_local; [|exact Hargs]. intros i Hi. apply Hm. change (Z.of_nat (length (image r))) with 68 in Hi. lia. }
  rewrite E in Hc. apply contents_app in Hc as [_ Hc]. apply contents_app in Hc as [Hc _].
  rewrite length_take_le in Hc by (change (length (image r)) with 68%nat; lia). by rewrite Z2Nat.id in Hc by lia.
Qed.

Lemma field32 m off v : (∀ a, ¬ (lo ≤ a < hi) → m !! a = m0 !! a) → 0 ≤ off ≤ 64 → field_at r off (bytes32 v) → is_u32 v →
  load32 (u32 (A + off)) m = Ok (v, m).
Proof.
  intros Hm Ho E Hv. rewrite u32_id by (unfold is_u32; lia). apply load32_Ok; [done|lia..|].
  apply field_contents; [done|cbn; lia|done].
Qed.

Lemma field16 m off v : (∀ a, ¬ (lo ≤ a < hi) → m !! a = m0 !! a) → 0 ≤ off ≤ 64 → field_at r off (half v) → 0 ≤ v < 2 ^ 16 →
  Elf.Elf.load16 (u32 (A + off)) m = Ok (v, m).
Proof.
  intros Hm Ho E Hv. rewrite u32_id by (unfold is_u32; lia). apply half_load; [done|lia..|].
  apply field_contents; [done|cbn; lia|done].
Qed.

(** [load off] as a step, with its value. *)
Lemma mov_Ok {B} off x v (k : unit → M state B) c m : (∀ a, ¬ (lo ≤ a < hi) → m !! a = m0 !! a) → c EAX = A →
  0 ≤ off ≤ 64 → field_at r off (bytes32 v) → is_u32 v →
  (mov off x ≫= k) (St c m) = k tt (St (upd x v c) m).
Proof.
  intros Hf HE Ho E Hv. unfold mov. rewrite bind_assoc_at, get_step, HE. cbv beta. rewrite bind_assoc_at.
  erewrite bind_Ok by (unfold on_mem, zoom; cbn [mem]; rewrite (field32 m off v Hf Ho E Hv); reflexivity). done.
Qed.

Lemma movw_Ok {B} off x v (k : unit → M state B) c m : (∀ a, ¬ (lo ≤ a < hi) → m !! a = m0 !! a) → c EAX = A →
  0 ≤ off ≤ 64 → field_at r off (half v) → 0 ≤ v < 2 ^ 16 →
  (movw off x ≫= k) (St c m) = k tt (St (upd x v c) m).
Proof.
  intros Hf HE Ho E Hv. unfold movw. rewrite bind_assoc_at, get_step, HE. cbv beta. rewrite bind_assoc_at.
  erewrite bind_Ok by (unfold on_mem, zoom; cbn [mem]; rewrite (field16 m off v Hf Ho E Hv); reflexivity). done.
Qed.

Lemma push_field_Ok {B} off v (k : unit → M state B) c m : (∀ a, ¬ (lo ≤ a < hi) → m !! a = m0 !! a) → c EAX = A →
  0 ≤ off ≤ 64 → field_at r off (bytes32 v) → is_u32 v →
  (push_field off ≫= k) (St c m) = (push v ≫= k) (St c m).
Proof.
  intros Hf HE Ho E Hv. unfold push_field. rewrite bind_assoc_at, get_step, HE. cbv beta. rewrite bind_assoc_at.
  erewrite bind_Ok by (unfold on_mem, zoom; cbn [mem]; rewrite (field32 m off v Hf Ho E Hv); reflexivity). done.
Qed.
End args.

(** One instruction of [switch_task] that reads the field [v]. *)
Ltac fetch v :=
  rewrite ?bind_assoc_at;
  lazymatch goal with
  | Hargs : contents ?m0 ?A (image ?r), Hout : _ ∨ _, HA : 0 ≤ ?A ∧ _, H : on_stack ?m0 ?lo ?hi ?l (St ?c ?m) |- context [(mov ?off ?x ≫= ?k) (St ?c ?m)] =>
      rewrite (mov_Ok m0 lo hi A r Hargs Hout HA off x v k c m (st_frame _ _ _ _ _ H)) by (by regs || done); cbv beta;
      first [apply (on_stack_set _ _ _ _ x v) in H; [|discriminate] | idtac]
  | Hargs : contents ?m0 ?A (image ?r), Hout : _ ∨ _, HA : 0 ≤ ?A ∧ _, H : on_stack ?m0 ?lo ?hi ?l (St ?c ?m) |- context [(movw ?off ?x ≫= ?k) (St ?c ?m)] =>
      rewrite (movw_Ok m0 lo hi A r Hargs Hout HA off x v k c m (st_frame _ _ _ _ _ H)) by (by regs || done); cbv beta;
      apply (on_stack_set _ _ _ _ x v) in H; [|discriminate]
  | Hargs : contents ?m0 ?A (image ?r), Hout : _ ∨ _, HA : 0 ≤ ?A ∧ _, H : on_stack ?m0 ?lo ?hi ?l (St ?c ?m) |- context [(push_field ?off ≫= ?k) (St ?c ?m)] =>
      rewrite (push_field_Ok m0 lo hi A r Hargs Hout HA off v k c m (st_frame _ _ _ _ _ H)) by (by regs || done); step
  end.

(** The registers that [switch_task] has loaded when it looks at the kind of task. *)
Definition loaded (A : Z) (r : registers_t) (c : reg → Z) : reg → Z :=
  upd ECX (ecx r) (upd EDX (edx r) (upd EBX (ebx r) (upd EBP (ebp r) (upd ESI (esi r) (upd EDI (edi r)
    (upd GS (gs r) (upd FS (fs r) (upd ES (es r) (upd DS (ds r) (upd EAX A c)))))))))).

Section switch.
  Context (m : memory) (c : reg → Z) (ret A : Z) (r : registers_t).
  Context (Hr : regs_ok r) (HA : 0 ≤ A ∧ A + 68 < 2 ^ 32) (Hargs : contents m A (image r)).
  Context (Hcall : contents m (c ESP) (bytes32 ret ++ bytes32 A)) (Hsp : 20 ≤ c ESP < 2 ^ 32 - 8).
  Context (Hroom : ∀ a, c ESP - 20 ≤ a < c ESP → is_Some (m !! a)) (Hout : A + 68 ≤ c ESP - 20 ∨ c ESP ≤ A).

Definition enter_task (cs : Z) : M state unit :=
  if cs =? 0x08 then mov ESP_OFFSET ESP;; add_esp 8;; mov EAX_OFFSET EAX;; iret
  else push 0x23;; push_field USERESP_OFFSET;; push_field EFLAGS_OFFSET;; push_field CS_OFFSET;; push_field EIP_OFFSET;;
    mov EAX_OFFSET EAX;; iret.

Lemma call_stack : on_stack m (c ESP - 20) (c ESP) (bytes32 ret ++ bytes32 A) (St c m).
Proof. split; cbn [cpu mem]; [done..|lia| |done]. change (length (bytes32 ret ++ bytes32 A)) with 8%nat. lia. Qed.

Lemma switch_task_loads : switch_task (St c m) = enter_task (cs r) (St (loaded A r c) m).
Proof.
  pose proof call_stack as H. destruct Hr as [Hseg Hw]. rewrite !Forall_cons in Hseg. rewrite !Forall_cons in Hw.
  destruct Hseg as (? & ? & ? & ? & _), Hw as (? & ? & ? & ? & ? & ? & ? & ? & ? & ? & ? & ? & ? & ? & ? & _).
  unfold switch_task. step. apply contents_app in Hcall as [_ HcA]. change (Z.of_nat (length (bytes32 ret))) with 4 in HcA.
  erewrite bind_Ok by (unfold on_mem, zoom; cbn [mem]; rewrite u32_id by (unfold is_u32; lia);
    rewrite (load32_Ok m (c ESP + 4) A) by (done || (unfold is_u32; lia)); reflexivity).
  cbn [cpu]. step. fetch (ds r). fetch (es r). fetch (fs r). fetch (gs r).
  fetch (edi r). fetch (esi r). fetch (ebp r). fetch (ebx r). fetch (edx r). fetch (ecx r).
  erewrite bind_Ok by (unfold on_mem, zoom; cbn [mem]; rewrite (field32 m (c ESP - 20) (c ESP) A r Hargs Hout HA m CS_OFFSET (cs r)) by done; reflexivity).
  done.
Qed.

(** A user task goes on with the registers of the argument; the stack segment is that of user code. *)
Lemma switch_task_user : cs r ≠ 0x08 → (ring (c CS) <? ring (cs r)) = true → ss r = 0x23 →
  ∃ c' m', switch_task (St c m) = Ok (tt, St c' m') ∧ (∀ x, c' x = running r x) ∧ ∀ a, ¬ (c ESP - 20 ≤ a < c ESP) → m' !! a = m !! a.
Proof.
  intros Hcs Hring Hss. rewrite switch_task_loads. assert (H : on_stack m (c ESP - 20) (c ESP) (bytes32 ret ++ bytes32 A) (St (loaded A r c) m)).
  { do 11 (apply on_stack_set; [|discriminate]). exact call_stack. }
  destruct Hr as [Hseg Hw]. rewrite !Forall_cons in Hw. destruct Hw as (? & ? & ? & ? & ? & ? & ? & ? & ? & ? & ? & ? & ? & ? & ? & _).
  unfold enter_task. rewrite (proj2 (Z.eqb_neq _ _) Hcs). unfold loaded in *. step.
  fetch (useresp r). fetch (eflags r). fetch (cs r). fetch (eip r). fetch (eax r).
  match goal with H : on_stack _ _ _ _ (St ?c1 ?m1) |- _ => destruct (iret_user _ _ _ _ _ _ _ _ _ c1 m1 ltac:(regs; exact Hring) H)
    as (c' & E & E1 & E2 & E3 & E4 & E5 & K); [done..|]; exists c', m1; split; [exact E|]; split; [|exact (st_frame _ _ _ _ _ H)] end.
  intros []; try done; [..|by rewrite E5]; rewrite K by other; by regs.
Qed.

(** A kernel task goes on on its own stack, where the frame of its interrupt still is. *)
Lemma switch_task_kernel : cs r = 0x08 → ring (c CS) = 0 → esp r + 20 < 2 ^ 32 →
  contents m (esp r) (concat (bytes32 <$> [int_no r; err_code r; eip r; cs r; eflags r])) →
  ∃ c', switch_task (St c m) = Ok (tt, St c' m) ∧ c' ESP = esp r + 20 ∧ c' SS = c SS ∧ ∀ x, x ≠ ESP → x ≠ SS → c' x = running r x.
Proof.
  intros Hcs Hring Hs Hframe. rewrite switch_task_loads. unfold enter_task. rewrite Hcs. change (0x08 =? 0x08) with true. cbv iota.
  destruct Hr as [Hseg Hw]. rewrite !Forall_cons in Hw. destruct Hw as (? & ? & ? & Hesp & ? & ? & ? & ? & ? & ? & ? & ? & ? & ? & ? & _).
  rewrite (mov_Ok m (c ESP - 20) (c ESP) A r Hargs Hout HA ESP_OFFSET ESP (esp r)) by done. cbv beta.
  assert (H' : on_stack m (esp r) (esp r) (concat (bytes32 <$> [int_no r; err_code r; eip r; cs r; eflags r])) (St (upd ESP (esp r) (loaded A r c)) m)).
  { split; cbn [cpu mem]; regs; [done|lia|unfold is_u32 in Hesp; lia| |done]. cbn [fmap list_fmap concat]. rewrite ?length_app. cbn. lia. }
  cbn [fmap list_fmap concat] in H'. unfold loaded in *. take.
  rewrite (mov_Ok m (c ESP - 20) (c ESP) A r Hargs Hout HA EAX_OFFSET EAX (eax r)) by (done || by regs). cbv beta.
  match goal with H : on_stack _ _ _ _ _ |- _ => apply (on_stack_set _ _ _ _ EAX (eax r)) in H; [|discriminate] end.
  match goal with H : on_stack _ _ _ _ (St ?c1 _) |- _ => destruct (iret_kernel _ _ _ _ (eip r) (cs r) (eflags r) c1 m ltac:(regs; by rewrite Hring, Hcs) H)
    as (c' & E & E1 & E2 & E3 & E4 & K); [done..|]; revert E4 end.
  regs. intros E4. exists c'. split; [exact E|]. split; [lia|]. split; [rewrite K by other; by regs|].
  intros [] ? ?; try done; rewrite K by other; by regs.
Qed.
End switch.

(** * Interrupt, and back *)
Record cpu_ok (c : reg → Z) : Prop := {
  cpu_segments : Forall (λ x, 0 ≤ c x < 2 ^ 16) [GS; FS; ES; DS];
  cpu_words : Forall (λ x, is_u32 (c x)) [EDI; ESI; EBP; ESP; EBX; EDX; ECX; EAX; EIP; CS; EFLAGS; SS];
}.

(** [switch_task] is called with the registers [r], on a stack with room for the frame of [iret]. *)
Record switch_call (r : registers_t) (s : state) : Prop := {
  sc_kernel : cpu s CS = kernel_cs;
  sc_stack : 20 ≤ cpu s ESP < 2 ^ 32 - 8;
  sc_room : ∀ a, cpu s ESP - 20 ≤ a < cpu s ESP → is_Some (mem s !! a);
  sc_args : ∃ ret A, contents (mem s) (cpu s ESP) (bytes32 ret ++ bytes32 A) ∧ contents (mem s) A (image r) ∧
    (0 ≤ A ∧ A + 68 < 2 ^ 32) ∧ (A + 68 ≤ cpu s ESP - 20 ∨ cpu s ESP ≤ A);
}.

Lemma saved_ok c n e top u s : cpu_ok c → Forall is_u32 [n; e; top; u; s] → regs_ok (saved c n e top u s).
Proof.
  intros [Hs Hw] He. rewrite !Forall_cons in Hs. rewrite !Forall_cons in Hw. rewrite !Forall_cons in He.
  split; cbn [gs fs es ds edi esi ebp esp ebx edx ecx eax int_no err_code eip cs eflags useresp ss saved].
  all: rewrite !Forall_cons, Forall_nil; tauto.
Qed.

Lemma stack_of m c l : contents m (c ESP) l → 0 ≤ c ESP → c ESP + Z.of_nat (length l) < 2 ^ 32 → on_stack m (c ESP) (c ESP) l (St c m).
Proof. intros. split; cbn [cpu mem]; [done|lia..|done]. Qed.

Definition handler_state (r : registers_t) (s0 s : state) : Prop :=
  cpu s CS = kernel_cs ∧ cpu s ESP = cpu s0 ESP ∧ contents (mem s) (cpu s ESP) (bytes32 (cpu s ESP + 4) ++ image r).

(** A kernel task is interrupted on its own stack; the frame has to be there still when [switch_task] returns to it. *)
Lemma interrupted_kernel_resumes c m esp0 handler (errcode : bool) err isr_num u s :
  let e := if errcode then err else 0 in
  let r := saved c isr_num e (c ESP - 20) u s in
  cpu_ok c → c CS = kernel_cs → Forall is_u32 [isr_num; err; u; s] → 64 ≤ c ESP < 2 ^ 32 - 8 →
  (∀ a, c ESP - 64 ≤ a < c ESP → is_Some (m !! a)) → contents m (c ESP) (bytes32 u ++ bytes32 s) →
  ∃ s1, (raise_interrupt esp0 handler (if errcode then Some err else None);; stub errcode isr_num) (St c m) = Ok (tt, s1) ∧
    handler_state r s1 s1 ∧ cpu s1 SS = c SS ∧ Z.testbit (cpu s1 EFLAGS) IF_bit = false ∧
    (∀ s2, handler_state r s1 s2 → cpu s2 SS = c SS → ∃ c', RESTORE_REGISTERS s2 = Ok (tt, St c' (mem s2)) ∧ ∀ x, c' x = c x) ∧
    (∀ s2, switch_call r s2 → cpu s2 SS = c SS →
      contents (mem s2) (c ESP - 20) (concat (bytes32 <$> [isr_num; e; c EIP; c CS; c EFLAGS])) →
      ∃ c', switch_task s2 = Ok (tt, St c' (mem s2)) ∧ ∀ x, c' x = c x).
Proof.
  intros e r Hok Hu He Hsp Hm Hab. rewrite !Forall_cons in He. destruct He as (Hn & He & Hu' & Hs & _).
  assert (Hring : ring (c CS) = 0) by by rewrite Hu.
  destruct (entry_kernel_Ok c m esp0 handler errcode err isr_num u s Hring Hsp Hm Hab) as (c1 & m1 & R & C & S1 & S2 & S3 & S4 & F).
  fold e r in C. exists (St c1 m1). cbn [cpu mem].
  assert (Hr : regs_ok r).
  { apply saved_ok; [done|]. rewrite !Forall_cons, Forall_nil.
    assert (is_u32 (c ESP - 20)) by (unfold is_u32; lia). assert (is_u32 e) by (unfold e; by destruct errcode). tauto. }
  split; [exact R|]. split. { split; cbn [cpu mem]; [done|]. split; [done|]. by replace (c1 ESP + 4) with (c ESP - 60) by lia. }
  do 2 (split; [done|]). split.
  - intros [c2 m2] (H1 & H2 & H3) H4. cbn [cpu mem] in *.
    apply stack_of in H3; [|lia|change (length (bytes32 (c2 ESP + 4) ++ image r)) with 72%nat; lia].
    destruct (RESTORE_REGISTERS_kernel _ _ _ _ r c2 m2 ltac:(unfold r; cbn; by rewrite H1, Hring) Hr H3) as (c' & E & E1 & E2 & K).
    exists c'. split; [exact E|]. intros []; first [lia | congruence | by apply K].
  - intros [c2 m2] [H1 H2 H3 (ret & A & C1 & C2 & HA & Ho)] H4 Hf. cbn [cpu mem] in *.
    destruct (switch_task_kernel m2 c2 ret A r Hr HA C2 C1 H2 H3 Ho Hu ltac:(by rewrite H1) ltac:(unfold r; cbn; lia) Hf) as (c' & E & E1 & E2 & K).
    change (esp r) with (c ESP - 20) in E1. exists c'. split; [exact E|]. intros []; first [lia | congruence | by apply K].
Qed.

(** C20: when an interrupt arrives while user code runs, with or without an error code, the stub hands the
    handler a [registers_t] that holds every register of the task, with the kernel's segments loaded,
    interrupts off and no other memory changed.  When the handler returns with that structure in place,
    RESTORE_REGISTERS gives the task back every register; and so does [switch_task], called at any later
    time, on any stack, with a copy of the structure. *)
Theorem interrupted_task_resumes c m esp0 handler (errcode : bool) err isr_num :
  let e := if errcode then err else 0 in
  let r := saved c isr_num e (esp0 - 28) (c ESP) (c SS) in
  cpu_ok c → ring (c CS) = 3 → c SS = 0x23 → is_u32 err → is_u32 isr_num →
  72 ≤ esp0 < 2 ^ 32 → (∀ a, esp0 - 72 ≤ a < esp0 → is_Some (m !! a)) →
  ∃ s1, (raise_interrupt esp0 handler (if errcode then Some err else None);; stub errcode isr_num) (St c m) = Ok (tt, s1) ∧
    handler_state r s1 s1 ∧ Forall (λ x, cpu s1 x = 0x10) [DS; ES; FS; GS; SS] ∧ Z.testbit (cpu s1 EFLAGS) IF_bit = false ∧
    (∀ a, ¬ (esp0 - 72 ≤ a < esp0) → mem s1 !! a = m !! a) ∧
    (∀ s2, handler_state r s1 s2 → ∃ c', RESTORE_REGISTERS s2 = Ok (tt, St c' (mem s2)) ∧ ∀ x, c' x = c x) ∧
    (∀ s2, switch_call r s2 → ∃ c' m', switch_task s2 = Ok (tt, St c' m') ∧ ∀ x, c' x = c x).
Proof.
  intros e r Hok Hu Hss He Hn Hsp Hm.
  destruct (entry_Ok c m esp0 handler errcode err isr_num Hu Hsp Hm) as (c1 & m1 & R & C & S1 & S2 & S3 & S4 & S5 & S6 & S7 & S8 & F).
  fold e r in C. exists (St c1 m1). cbn [cpu mem].
  assert (Hr : regs_ok r).
  { destruct Hok as [Hs Hw]. apply saved_ok; [by split|]. rewrite !Forall_cons in Hw. rewrite !Forall_cons, Forall_nil.
    assert (is_u32 (esp0 - 28)) by (unfold is_u32; lia). assert (is_u32 e) by (unfold e; by destruct errcode). tauto. }
  split; [exact R|]. split. { split; cbn [cpu mem]; [done|]. split; [done|]. by replace (c1 ESP + 4) with (esp0 - 68) by lia. }
  split; [by rewrite !Forall_cons, Forall_nil|]. do 2 (split; [done|]). split.
  - intros [c2 m2] (H1 & H2 & H3). cbn [cpu mem] in *.
    apply stack_of in H3; [|lia|change (length (bytes32 (c2 ESP + 4) ++ image r)) with 72%nat; lia].
    destruct (RESTORE_REGISTERS_user _ _ _ _ r c2 m2 ltac:(unfold r; cbn; by rewrite H1, Hu) Hr H3) as (c' & E & K).
    exists c'. split; [exact E|]. intros []; apply K.
  - intros [c2 m2] [H1 H2 H3 (ret & A & C1 & C2 & HA & Ho)]. cbn [cpu mem] in *.
    destruct (switch_task_user m2 c2 ret A r Hr HA C2 C1 H2 H3 Ho) as (c' & m' & E & K & _).
    + unfold r. cbn. intros Hcs. by rewrite Hcs in Hu.
    + unfold r. cbn. by rewrite H1, Hu.
    + done.
    + exists c', m'. split; [exact E|]. intros []; apply K.
Qed.

(** The table has the stub that fits the processor for every vector but 21 and 29, which came after
    the processors that the kernel is made for. *)
Lemma isr_table_fits n : n ≠ 21 → n ≠ 29 → isr n = stub (bool_decide (n ∈ cpu_errcodes)) n.
Proof.
  intros H1 H2. unfold isr. f_equal. apply bool_decide_ext. unfold isr_errcodes, cpu_errcodes. set_solver.
Qed.

Definition sample_memory : memory := list_to_map ((λ i, (i, 0)) <$> seqZ 0 128).
Definition sample_cpu (x : reg) : Z :=
  match x with
  | EAX => 1 | ECX => 2 | EDX => 3 | EBX => 4 | ESP => 0x5000 | EBP => 0x5010 | ESI => 7 | EDI => 8
  | DS => 0x23 | ES => 0x23 | FS => 0x23 | GS => 0x23 | SS => 0x23 | CS => 0x1b | EIP => 0x40000010 | EFLAGS => 0x202
  end.

Lemma sample_ok : cpu_ok sample_cpu.
Proof. split; rewrite !Forall_cons, Forall_nil; unfold is_u32; cbn [sample_cpu]; lia. Qed.

Lemma sample_room : ∀ a, 100 - 72 ≤ a < 100 → is_Some (sample_memory !! a).
Proof.
  intros a Ha. apply elem_of_dom. unfold sample_memory. rewrite dom_list_to_map_L, elem_of_list_to_set.
  apply list_elem_of_fmap. exists (a, 0). split; [done|]. apply list_elem_of_fmap. exists a. split; [done|]. apply elem_of_seqZ. lia.
Qed.

Lemma interrupted_task_resumes_witness : ∃ s1 c', (raise_interrupt 100 0x100 None;; stub false 32) (St sample_cpu sample_memory) = Ok (tt, s1) ∧
  RESTORE_REGISTERS s1 = Ok (tt, St c' (mem s1)) ∧ ∀ x, c' x = sample_cpu x.
Proof.
  destruct (interrupted_task_resumes sample_cpu sample_memory 100 0x100 false 0 32 sample_ok eq_refl eq_refl ltac:(done) ltac:(done) ltac:(lia) sample_room)
    as (s1 & R & Hh & _ & _ & _ & Hr & _).
  destruct (Hr s1 Hh) as (c' & E & K). exists s1, c'. exact (conj R (conj E K)).
Defined.

End TaskSwitch.
