(* ===== verification/Proc.v ===== *)
(** A running process as libc sees it: the working directory, the directory streams and
    the start of a program file: libc/chdir.cpp, libc/getcwd.cpp, libc/opendir.cpp,
    libc/exec.cpp and the global state of libc/__libc_start_main.cpp.

    A [Dir *] is a position in the tree, as in Vfs.v; the state holds the tree, the working
    directory, the environment, [errno] and the memory. *)
From S2P Require Import Prelude LibcString StartParams CxxString Vfs Ustar Envp Elf.
Import CxxString.CxxString.

Module Proc.

Record proc := mkProc {
  gGlobalFs : list Vfs.node;
  gCurrentDir : list nat;
  gEnvp : Envp.envp;
  errno : Z;
  memory : LibcString.memory
}.

Definition set_cwd (x : list nat) (p : proc) := mkProc (gGlobalFs p) x (gEnvp p) (errno p) (memory p).
Definition set_env (x : Envp.envp) (p : proc) := mkProc (gGlobalFs p) (gCurrentDir p) x (errno p) (memory p).
Definition set_errno (x : Z) (p : proc) := mkProc (gGlobalFs p) (gCurrentDir p) (gEnvp p) x (memory p).
Definition set_memory (x : LibcString.memory) (p : proc) := mkProc (gGlobalFs p) (gCurrentDir p) (gEnvp p) (errno p) x.

Definition ENOENT : Z := 2.
Definition EACCES : Z := 13.
Definition ENOTDIR : Z := 20.
Definition EINVAL : Z := 22.
Definition ERANGE : Z := 34.

Definition kPWDEnv : list Z := [80; 87; 68].
Definition kPATHEnv : list Z := [80; 65; 84; 72].

(** The string behind the pointer [getVal] returns. *)
Definition env_value (env : Envp.envp) (key : list Z) : result (option string) :=
  r ← Envp.getVal env (of_cstr key);
  Ok (match r with Some i => snd <$> env !! i | None => None end).

(** What the lookup of a path works on. *)
Definition fs_of (p : proc) : result Vfs.fs :=
  path ← env_value (gEnvp p) kPATHEnv;
  Ok (Vfs.FS (gGlobalFs p) (gCurrentDir p) path).

Definition GetNodeFromPath (path : list Z) : M proc (option (list nat)) :=
  f ← gets fs_of; f ← liftR f;
  liftR (Vfs.GetNodeFromPath f (of_cstr path)).

Definition isDir (pos : list nat) : M proc bool :=
  f ← gets fs_of; f ← liftR f; mret (Vfs.is_dir_at f pos).

(** ** The working directory *)

(** [SetCurrentDir] of a directory; a position is never null. *)
Definition SetCurrentDir (wd : list nat) : M proc unit :=
  modify (set_cwd wd);;
  f ← gets fs_of; f ← liftR f;
  abspath ← liftR (Vfs.getAbsPath f wd);
  env ← gets gEnvp;
  env ← liftR (Envp.setVal env (of_cstr kPWDEnv) abspath);
  modify (set_env env).

(** [SetCurrentDir] of a path, at the start of a process. *)
Definition SetCurrentDir_path (pwd : list Z) : M proc unit :=
  node ← GetNodeFromPath pwd;
  match node with
  | None => mret tt
  | Some pos =>
      b ← isDir pos;
      if negb b then mret tt else SetCurrentDir pos
  end.

Definition chdir (path : list Z) : M proc Z :=
  node ← GetNodeFromPath path;
  match node with
  | None => modify (set_errno ENOENT);; mret (-1)
  | Some pos =>
      b ← isDir pos;
      if negb b then modify (set_errno ENOTDIR);; mret (-1)
      else SetCurrentDir pos;; mret 0
  end.

Definition on_memory {A} (m : M LibcString.memory A) : M proc A := zoom memory set_memory m.

(** A null pointer is 0. *)
Definition getcwd (buf size : Z) : M proc Z :=
  if (buf =? 0) || (size =? 0) then modify (set_errno EINVAL);; mret 0
  else
    cwd ← gets gCurrentDir;
    f ← gets fs_of; f ← liftR f;
    abspath ← liftR (Vfs.getAbsPath f cwd);
    if size - 1 <? CxxString.size abspath then modify (set_errno ERANGE);; mret 0
    else
      let cpysize := Z.min (CxxString.size abspath) (size - 1) in
      bs ← liftR (Envp.slice (data_ abspath) 0 cpysize);
      on_memory (StartParams.store_list buf bs);;
      on_memory (LibcString.store (buf + cpysize) 0);;
      mret buf.

(** ** Directory streams *)
Record DIR := mkDIR {
  d_nodes : list Vfs.node;   (* the vector the iterators point into *)
  it : nat;
  d_end : nat;
  d_name : list Z            (* the array of the entry *)
}.

Definition DNAME_SIZE : Z := 256.

(** What the array of a new entry holds is an argument. *)
Definition opendir (junk : list Z) (dirname : list Z) : M proc (option DIR) :=
  dir ← GetNodeFromPath dirname;
  match dir with
  | None => mret None
  | Some pos =>
      b ← isDir pos;
      if negb b then mret None
      else
        f ← gets fs_of; f ← liftR f;
        let ns := Vfs.dir_nodes f pos in
        mret (Some (mkDIR ns 0 (length ns) junk))
  end.

(** The entry is returned as its array. *)
Definition readdir (dirp : DIR) : result (option (list Z) * DIR) :=
  if (it dirp =? d_end dirp)%nat then Ok (None, dirp)
  else
    match d_nodes dirp !! it dirp with
    | None => Fault BadPointer
    | Some node =>
        let name := Vfs.getName node in
        let len := Z.min (DNAME_SIZE - 1) (size name) in
        bs ← Envp.slice (data_ name) 0 len;
        d ← Envp.blit (d_name dirp) 0 bs;
        d ← awrite d len 0;
        Ok (Some d, mkDIR (d_nodes dirp) (S (it dirp)) (d_end dirp) d)
    end.

(** The string in an array of characters. *)
Fixpoint c_string (bs : list Z) : result (list Z) :=
  match bs with
  | [] => Fault OutOfBounds
  | b :: bs => if tobool b then s ← c_string bs; Ok (b :: s) else Ok []
  end.

(** [while ((myfile = readdir(mydir)) != NULL)]: the names, in order. *)
Fixpoint readdir_all (fuel : nat) (dirp : DIR) : result (list (list Z)) :=
  match fuel with
  | O => Fault NoFuel
  | S fuel =>
      '(e, dirp) ← readdir dirp;
      match e with
      | None => Ok []
      | Some d => n ← c_string d; ns ← readdir_all fuel dirp; Ok (n :: ns)
      end
  end.

(** The loop over a stream that is open. *)
Definition entries (dirp : DIR) : result (list (list Z)) := readdir_all (S (d_end dirp - it dirp)) dirp.

(** ** Starting a program *)

(** What [LoadElfProgram] is called with. *)
Record launch := mkLaunch { elf_data : Z; params : list (list Z); vfs_data_size : Z; launch_env : Envp.envp }.

(** [aligned] is what [new] returns for the copy of a file whose data is not aligned. *)
Definition ExecImpl (ustar_literal raw_vfs aligned : Z) (path : list Z) (argv : list (list Z)) (envp : Envp.envp) :
    M proc (Z * option launch) :=
  node ← GetNodeFromPath path;
  f ← gets fs_of; f ← liftR f;
  match node with
  | None => modify (set_errno EACCES);; mret (-1, None)
  | Some pos =>
      match Vfs.node_at (Vfs.root f) pos with
      | Some (Vfs.File _ data size) =>
          vfs_data_size ← on_memory (Ustar.GetTarsize ustar_literal raw_vfs);
          if negb (data mod Elf.kMinAlign =? 0) then
            on_memory (modify (LibcString.alloc (Z.to_nat size) aligned));;
            on_memory (LibcString.memcpy aligned data size);;
            mret (0, Some (mkLaunch aligned argv vfs_data_size envp))
          else mret (0, Some (mkLaunch data argv vfs_data_size envp))
      | _ => modify (set_errno EACCES);; mret (-1, None)
      end
  end.

Definition execv (ustar_literal raw_vfs aligned : Z) (path : list Z) (argv : list (list Z)) : M proc (Z * option launch) :=
  env ← gets gEnvp; ExecImpl ustar_literal raw_vfs aligned path argv env.

Definition execve (ustar_literal raw_vfs aligned : Z) (fuel : nat) (path : list Z) (argv envp : list (list Z)) :
    M proc (Z * option launch) :=
  env ← liftR (Envp.UnpackEnvp fuel envp []); ExecImpl ustar_literal raw_vfs aligned path argv env.

(** * Lemmas *)

Lemma env_value_Ok env kvs key :
  Envp.env_rep env kvs →
  ∃ r, env_value env key = Ok r ∧
    match Envp.lookup_kv kvs key with
    | Some i => ∃ s kv, r = Some s ∧ kvs !! i = Some kv ∧ text s kv.2
    | None => r = None
    end.
Proof.
  intros H. unfold env_value. rewrite (Envp.getVal_env env kvs _ key H (rep_text _ _ (of_cstr_rep _))).
  eexists. split; [done|]. destruct (Envp.lookup_kv kvs key) as [i|] eqn:E; [|done].
  unfold Envp.lookup_kv in E. destruct (list_find _ kvs) as [[j kv]|] eqn:Ef; [|done]. injection E as ->.
  apply list_find_Some in Ef as (Hi & _). destruct (Forall2_lookup_r _ _ _ _ _ H Hi) as (x & -> & _ & Ht).
  exists x.2, kv. done.
Qed.

Lemma fs_of_Ok p kvs : Envp.env_rep (gEnvp p) kvs →
  ∃ path, fs_of p = Ok (Vfs.FS (gGlobalFs p) (gCurrentDir p) path).
Proof.
  intros H. destruct (env_value_Ok (gEnvp p) kvs kPATHEnv H) as (r & Hr & _). unfold fs_of. rewrite Hr. by exists r.
Qed.

(** A directory has a path. *)
Lemma node_at_names pos : ∀ nodes n, Vfs.node_at nodes pos = Some n → ∃ cs, Vfs.names_at nodes pos = Some cs.
Proof.
  induction pos as [|i pos IH]; intros nodes n H; [by exists []|]. cbn [Vfs.node_at Vfs.names_at] in *.
  destruct (nodes !! i) as [n'|]; [|done]. destruct pos as [|j pos]; [by eexists|].
  destruct (IH _ _ H) as [cs ->]. by eexists.
Qed.

Lemma dir_has_path f pos : Vfs.is_dir_at f pos = true → ∃ cs, Vfs.names_at (Vfs.root f) pos = Some cs.
Proof.
  destruct pos as [|i pos]; [by exists []|]. unfold Vfs.is_dir_at.
  destruct (Vfs.node_at (Vfs.root f) (i :: pos)) as [n|] eqn:E; [|done]. intros _. by eapply node_at_names.
Qed.

(** The text of the path of a directory, the root's included. *)
Lemma abs_path_text f pos cs :
  Vfs.wf_nodes (Vfs.root f) → Vfs.names_at (Vfs.root f) pos = Some cs → Z.of_nat (length (Vfs.join cs)) + 1 < 2 ^ 32 →
  ∃ s, Vfs.getAbsPath f pos = Ok s ∧ rep s (Vfs.kPathSep :: Vfs.join cs).
Proof.
  intros Hw H Hb. destruct pos as [|i pos]; [|by apply Vfs.getAbsPath_Ok].
  simpl in H. simplify_eq. eexists. split; [done|]. by apply (rep_app_nil [47] []).
Qed.

Lemma SetCurrentDir_Ok p kvs pos cs :
  Envp.env_rep (gEnvp p) kvs → Vfs.wf_nodes (gGlobalFs p) → Vfs.names_at (gGlobalFs p) pos = Some cs →
  Z.of_nat (length (Vfs.join cs)) + 1 < 2 ^ 32 →
  ∃ env', SetCurrentDir pos p = Ok (tt, set_env env' (set_cwd pos p)) ∧
    Envp.env_rep env' (Envp.set_kv kvs (kPWDEnv, Vfs.kPathSep :: Vfs.join cs)).
Proof.
  intros He Hw Hn Hb. unfold SetCurrentDir. erewrite bind_Ok by done. erewrite bind_Ok by done.
  destruct (fs_of_Ok (set_cwd pos p) kvs He) as [path Hf]. rewrite Hf. erewrite bind_Ok by done.
  destruct (abs_path_text (Vfs.FS (gGlobalFs p) pos path) pos cs Hw Hn Hb) as (s & Hs & Hrep).
  cbn [gGlobalFs gCurrentDir set_cwd]. rewrite Hs. erewrite bind_Ok by done. erewrite bind_Ok by done.
  destruct (Envp.setVal_env (gEnvp p) kvs (of_cstr kPWDEnv) s kPWDEnv (Vfs.kPathSep :: Vfs.join cs) He) as (env' & Hset & Hr).
  { apply rep_text, of_cstr_rep. } { by apply rep_text. }
  exists env'. split; [|done]. cbn [gEnvp set_cwd]. rewrite Hset. done.
Qed.

Lemma GetNodeFromPath_run p f path r :
  fs_of p = Ok f → Vfs.GetNodeFromPath f (of_cstr path) = Ok r → GetNodeFromPath path p = Ok (r, p).
Proof. intros Hf Hr. unfold GetNodeFromPath. erewrite bind_Ok by done. rewrite Hf. erewrite bind_Ok by done. by rewrite Hr. Qed.

Lemma isDir_run p f pos : fs_of p = Ok f → isDir pos p = Ok (Vfs.is_dir_at f pos, p).
Proof. intros Hf. unfold isDir. erewrite bind_Ok by done. rewrite Hf. by erewrite bind_Ok by done. Qed.

(** [getcwd] on every argument. *)
Lemma getcwd_Ok p kvs cs buf size :
  Envp.env_rep (gEnvp p) kvs → Vfs.wf_nodes (gGlobalFs p) → Vfs.names_at (gGlobalFs p) (gCurrentDir p) = Some cs →
  Z.of_nat (length (Vfs.join cs)) + 1 < 2 ^ 32 → 0 < buf → Forall is_u8 (Vfs.join cs) →
  let path := Vfs.kPathSep :: Vfs.join cs in
  if size =? 0 then getcwd buf size p = Ok (0, set_errno EINVAL p)
  else if size - 1 <? Z.of_nat (length path) then getcwd buf size p = Ok (0, set_errno ERANGE p)
  else StartParams.writable (memory p) buf size →
    ∃ m', getcwd buf size p = Ok (buf, set_memory m' p) ∧ StartParams.contents m' buf (path ++ [0]) ∧
          StartParams.changed (memory p) m' buf size.
Proof.
  intros He Hw Hn Hb Hbuf Hu8 path. unfold getcwd. rewrite (proj2 (Z.eqb_neq buf 0)) by lia. cbn [orb].
  destruct (Z.eqb_spec size 0) as [->|Hs0]; [done|]. erewrite bind_Ok by done. erewrite bind_Ok by done.
  destruct (fs_of_Ok p kvs He) as [pe Hf]. rewrite Hf. erewrite bind_Ok by done.
  destruct (abs_path_text (Vfs.FS (gGlobalFs p) (gCurrentDir p) pe) (gCurrentDir p) cs Hw Hn Hb) as (s & Hs & Hrep).
  rewrite Hs. erewrite bind_Ok by done. pose proof Hrep as [Hl [rest Hd]]. unfold CxxString.size. rewrite Hl. fold path in Hl, Hd |- *.
  destruct (Z.ltb_spec (size - 1) (Z.of_nat (length path))) as [Hlt|Hge]; [done|]. intros (Hm0 & Hm1 & Hm).
  rewrite Z.min_l by lia. rewrite Hd, (Envp.slice_first path (0 :: rest)) by done. erewrite bind_Ok by done.
  destruct (StartParams.store_list_Ok (path ++ [0]) (memory p) buf) as (m' & Hrun & Hc & Hch).
  { split; [lia|]. rewrite length_app, Nat2Z.inj_add. change (Z.of_nat (length [0])) with 1. split; [lia|].
    intros a Ha. apply Hm. lia. }
  { apply Forall_app. split; [|by repeat constructor]. constructor; [done|done]. }
  exists m'. split; [|split; [done|]].
  - rewrite StartParams.store_list_app in Hrun. unfold on_memory. revert Hrun. munfold. cbn [StartParams.store_list].
    destruct (StartParams.store_list buf path (memory p)) as [[[] m1]|]; [|done]. cbn [memory set_memory]. munfold.
    destruct (LibcString.store (buf + Z.of_nat (length path)) 0 m1) as [[[] m2]|]; [|done]. by intros [= ->].
  - rewrite length_app, Nat2Z.inj_add in Hch. change (Z.of_nat (length [0])) with 1 in Hch.
    destruct Hch as [Hc1 Hc2]. split; [|done]. intros a Ha. apply Hc1. lia.
Qed.

(** ** Properties of the working directory *)

(** The value of a variable. *)
Definition value_of (kvs : list (list Z * list Z)) (key : list Z) : option (list Z) :=
  match Envp.lookup_kv kvs key with Some i => snd <$> kvs !! i | None => None end.

(** The tree and the working directory, apart from PATH. *)
Definition tree_of (p : proc) : Vfs.fs := Vfs.FS (gGlobalFs p) (gCurrentDir p) None.

Lemma fs_of_value p kvs : Envp.env_rep (gEnvp p) kvs →
  ∃ pe, fs_of p = Ok (Vfs.FS (gGlobalFs p) (gCurrentDir p) pe) ∧
    match pe, value_of kvs kPATHEnv with Some s, Some l => text s l | None, None => True | _, _ => False end.
Proof.
  intros H. destruct (env_value_Ok (gEnvp p) kvs kPATHEnv H) as (r & Hr & Hv). unfold fs_of, value_of. rewrite Hr.
  exists r. split; [done|]. destruct (Envp.lookup_kv kvs kPATHEnv) as [i|]; [|by subst].
  by destruct Hv as (s & kv & -> & -> & Ht).
Qed.

(** The lookup that [chdir], [opendir] and [ExecImpl] start with, for every path that is spelled. *)
Lemma lookup_destination p kvs path abs cs env :
  Envp.env_rep (gEnvp p) kvs → Vfs.wf_nodes (gGlobalFs p) → Vfs.spells path abs cs → Z.of_nat (length path) < npos →
  Vfs.one_directory (value_of kvs kPATHEnv) env →
  GetNodeFromPath path p = Ok (Vfs.destination (tree_of p) env abs cs, p).
Proof.
  intros He Hw Hs Hl Ho. destruct (fs_of_value p kvs He) as (pe & Hf & Hv). apply (GetNodeFromPath_run _ _ _ _ Hf).
  exact (Vfs.GetNodeFromPath_destination (Vfs.FS (gGlobalFs p) (gCurrentDir p) pe) _ path abs cs _ env Hs (of_cstr_rep path) Hl Hw Hv Ho).
Qed.

Lemma isDir_tree p kvs pos : Envp.env_rep (gEnvp p) kvs → isDir pos p = Ok (Vfs.is_dir_at (tree_of p) pos, p).
Proof. intros He. destruct (fs_of_value p kvs He) as (pe & Hf & _). exact (isDir_run p _ pos Hf). Qed.

(** C30: The working directory is the one that was entered.  For every path that is spelled
    as names joined by separators, behind the separator of the root or not, possibly with white
    space around the names, [./] in front of them and separators behind, and a PATH that is not
    set or names one directory in this way:
    the lookup ends, an absolute path leads from the root, a relative one from the directory of
    PATH and, if it leads nowhere there, from the working directory.  [chdir] to a path that
    leads nowhere (the empty path too) or to a file fails with ENOENT or ENOTDIR and changes nothing
    else; to a directory it succeeds, sets PWD to the absolute path and no other variable, and
    [getcwd] then writes that path and its terminator, and nothing beyond the buffer, if
    it fits, and otherwise leaves the buffer alone and fails with ERANGE (EINVAL for an empty
    one). *)
Theorem chdir_then_getcwd p kvs path abs cs env :
  Envp.env_rep (gEnvp p) kvs → Vfs.wf_nodes (gGlobalFs p) →
  Vfs.spells path abs cs → Z.of_nat (length path) < npos → Vfs.one_directory (value_of kvs kPATHEnv) env →
  match Vfs.destination (tree_of p) env abs cs with
  | None => chdir path p = Ok (-1, set_errno ENOENT p)
  | Some pos =>
      if Vfs.is_dir_at (tree_of p) pos then
        ∃ ns, Vfs.names_at (gGlobalFs p) pos = Some ns ∧
          let wd := Vfs.kPathSep :: Vfs.join ns in
          (Z.of_nat (length wd) < 2 ^ 32 → Forall is_u8 wd →
           ∃ env', let p' := set_env env' (set_cwd pos p) in
             chdir path p = Ok (0, p') ∧ Envp.env_rep env' (Envp.set_kv kvs (kPWDEnv, wd)) ∧
             ∀ buf size, 0 < buf →
               if size =? 0 then getcwd buf size p' = Ok (0, set_errno EINVAL p')
               else if size - 1 <? Z.of_nat (length wd) then getcwd buf size p' = Ok (0, set_errno ERANGE p')
               else StartParams.writable (memory p) buf size →
                 ∃ m', getcwd buf size p' = Ok (buf, set_memory m' p') ∧ StartParams.contents m' buf (wd ++ [0]) ∧
                       StartParams.changed (memory p) m' buf size)
      else chdir path p = Ok (-1, set_errno ENOTDIR p)
  end.
Proof.
  intros He Hw Hs Hl Ho. pose proof (lookup_destination p kvs path abs cs env He Hw Hs Hl Ho) as Hrun.
  unfold chdir. destruct (Vfs.destination (tree_of p) env abs cs) as [pos|]; [|by rewrite (bind_Ok _ _ _ _ _ Hrun)].
  pose proof (isDir_tree p kvs pos He) as Hd. destruct (Vfs.is_dir_at (tree_of p) pos) eqn:Ed.
  2:{ rewrite (bind_Ok _ _ _ _ _ Hrun), (bind_Ok _ _ _ _ _ Hd). done. }
  destruct (dir_has_path (tree_of p) pos Ed) as [ns Hns]. exists ns. split; [done|].
  intros Hlen Hu8. cbn [length] in Hlen. apply Forall_cons in Hu8 as [_ Hu8].
  destruct (SetCurrentDir_Ok p kvs pos ns He Hw Hns) as (env' & Hset & Henv); [lia|].
  exists env'. split; [|split; [done|]].
  - rewrite (bind_Ok _ _ _ _ _ Hrun), (bind_Ok _ _ _ _ _ Hd). cbn [negb]. by rewrite (bind_Ok _ _ _ _ _ Hset).
  - intros buf size Hbuf. by eapply (getcwd_Ok (set_env env' (set_cwd pos p))); [exact Henv|exact Hw|exact Hns|lia|done|done].
Qed.

(** [/bin] is entered in a tree with [/bin/ls]. *)
Definition example_proc : proc :=
  mkProc [Vfs.Dir (of_cstr [98; 105; 110]) [Vfs.File (of_cstr [108; 115]) 4096 12]] [] [] 0 (LibcString.alloc 8 100 ∅).

Lemma example_tree_wf : Vfs.wf_nodes (gGlobalFs example_proc).
Proof.
  assert (Hg : Vfs.good_name [98; 105; 110] ∧ Vfs.good_name [108; 115]).
  { split; (split; [apply (bool_decide_unpack _); by vm_compute|by eexists]). }
  split; [apply NoDup_singleton|]. apply Forall_singleton, Vfs.wf_node_Dir.
  split; [split; [apply of_cstr_rep|apply Hg]|]. split; [apply NoDup_singleton|]. apply Forall_singleton.
  split; [split; [apply of_cstr_rep|apply Hg]|done].
Qed.

(** ["./bin/"] with PATH set to ["/lib"], which is not there. *)
Definition example_searching : proc :=
  set_env [(of_cstr kPATHEnv, of_cstr [47; 108; 105; 98])] example_proc.

Lemma example_spelled cs : Forall Vfs.good_name cs → cs ≠ [] → Vfs.clean (Vfs.join cs) →
  Vfs.spells ([46; Vfs.kPathSep] ++ Vfs.join cs ++ [Vfs.kPathSep]) false cs ∧
  (take 2 (Vfs.join cs) ≠ [46; Vfs.kPathSep] → Vfs.spells (Vfs.kPathSep :: Vfs.join cs) true cs).
Proof.
  intros Hg Hne Hc. split; [|intros Hd]; constructor; (split_and!; [done..|]).
  - exists [], [46; Vfs.kPathSep], [Vfs.kPathSep], []. split_and!; [constructor|constructor|by repeat constructor|by left|done].
  - exists [], [], [], []. split_and!; [constructor..| |by rewrite !app_nil_r].
    right. by rewrite !app_nil_r.
Qed.

Lemma chdir_then_getcwd_witness :
  ∃ env', let p' := set_env env' (set_cwd [0%nat] example_searching) in
    chdir [46; 47; 98; 105; 110; 47] example_searching = Ok (0, p') ∧
    ∃ m', getcwd 100 8 p' = Ok (100, set_memory m' p') ∧ StartParams.contents m' 100 [47; 98; 105; 110; 0].
Proof.
  assert (Hg : Forall Vfs.good_name [[98; 105; 110]] ∧ Forall Vfs.good_name [[108; 105; 98]]).
  { split; apply Forall_singleton; (split; [apply (bool_decide_unpack _); by vm_compute|by eexists]). }
  destruct (chdir_then_getcwd example_searching [(kPATHEnv, [47; 108; 105; 98])] [46; 47; 98; 105; 110; 47] false [[98; 105; 110]]
    (Some (true, [[108; 105; 98]]))) as (ns & Hns & H).
  - constructor; [split; apply rep_text, of_cstr_rep|constructor].
  - apply example_tree_wf.
  - apply (example_spelled [[98; 105; 110]]); [apply Hg|done|split; by eexists].
  - reflexivity.
  - split_and!; [|apply (bool_decide_unpack _); by vm_compute|reflexivity].
    apply (example_spelled [[108; 105; 98]]); [apply Hg|done|split; by eexists|done].
  - vm_compute in Hns. injection Hns as <-.
    destruct H as (env' & Hrun & _ & Hget); [reflexivity|by repeat constructor|].
    exists env'. split; [exact Hrun|]. destruct (Hget 100 8) as (m' & Hm & Hc & _); [lia| |].
    + split; [lia|]. split; [lia|]. intros a Ha. change (memory example_searching) with (LibcString.alloc 8 100 ∅).
      rewrite LibcString.alloc_lookup, (proj2 (LibcString.in_range_spec _ _ _)) by lia. by eexists.
    + exists m'. split; [exact Hm|exact Hc].
Defined.

(** ** Directory streams *)
Lemma c_string_Ok s rest : Forall (λ c, c ≠ 0) s → c_string (s ++ 0 :: rest) = Ok s.
Proof.
  induction s as [|c s IH]; intros H; [done|]. apply Forall_cons in H as [Hc H]. cbn [c_string app].
  unfold tobool. rewrite (proj2 (Z.eqb_neq c 0) Hc). cbn [negb]. by rewrite IH.
Qed.

(** One entry: the name, cut to what the array holds. *)
Lemma readdir_Ok dirp n :
  (it dirp < d_end dirp)%nat → d_nodes dirp !! it dirp = Some n → rep (Vfs.getName n) (Vfs.name_of n) →
  length (d_name dirp) = 256%nat → Forall (λ c, c ≠ 0) (Vfs.name_of n) →
  ∃ d, readdir dirp = Ok (Some d, mkDIR (d_nodes dirp) (S (it dirp)) (d_end dirp) d) ∧
    length d = 256%nat ∧ c_string d = Ok (take 255 (Vfs.name_of n)).
Proof.
  intros Hlt Hn [Hl [rest Hd]] Hlen Hz. unfold readdir. destruct (Nat.eqb_spec (it dirp) (d_end dirp)); [lia|].
  rewrite Hn. cbv zeta. unfold DNAME_SIZE, size. rewrite Hl. set (l := Vfs.name_of n) in *.
  replace (Z.min (256 - 1) (Z.of_nat (length l))) with (Z.of_nat (length (take 255 l))) by (rewrite length_take; lia).
  rewrite Hd, <- (take_drop 255 l), <- app_assoc. rewrite Envp.slice_first by (by rewrite take_drop).
  rewrite take_drop. cbn [mbind result_bind]. pose proof (length_take l 255) as Hk.
  destruct (Envp.blit_Ok (d_name dirp) 0 (take 255 l)) as (d & -> & Hdl & r & Hr); [lia|lia|]. cbn [mbind result_bind].
  rewrite awrite_in_range by lia. cbn [mbind result_bind]. eexists. split; [done|].
  split; [rewrite length_insert; lia|]. rewrite Hr. change (take (Z.to_nat 0) _) with (@nil Z). cbn [app].
  rewrite Nat2Z.id. destruct r as [|x r].
  { rewrite app_nil_r in Hr. apply (f_equal length) in Hr. simpl in Hr. lia. }
  replace (length (take 255 l)) with (length (take 255 l) + 0)%nat at 1 by lia. rewrite insert_app_r. simpl.
  apply c_string_Ok. by apply Forall_take.
Qed.

Lemma readdir_all_Ok ns ns' : ∀ fuel dirp,
  d_nodes dirp = ns ++ ns' → it dirp = length ns → d_end dirp = length (ns ++ ns') → (length ns' < fuel)%nat →
  length (d_name dirp) = 256%nat →
  Forall (λ n, rep (Vfs.getName n) (Vfs.name_of n) ∧ Forall (λ c, c ≠ 0) (Vfs.name_of n)) ns' →
  readdir_all fuel dirp = Ok ((λ n, take 255 (Vfs.name_of n)) <$> ns').
Proof.
  revert ns. induction ns' as [|n ns' IH]; intros ns fuel dirp Hns Hit Hend Hf Hl Hok;
    (destruct fuel as [|fuel]; [simpl in Hf; lia|]); cbn [readdir_all].
  { unfold readdir. rewrite Hit, Hend, app_nil_r, Nat.eqb_refl. done. }
  apply Forall_cons in Hok as [[Hr Hz] Hok]. rewrite length_app in Hend. simpl in Hend, Hf.
  destruct (readdir_Ok dirp n) as (d & -> & Hd & Hc); [lia| |done|done|done|].
  { rewrite Hns, Hit, lookup_app_r, Nat.sub_diag by lia. done. }
  cbn [mbind result_bind]. rewrite Hc. cbn [mbind result_bind].
  rewrite (IH (ns ++ [n]) fuel); [done|..]; cbn [d_nodes it d_end d_name].
  - by rewrite Hns, <- app_assoc.
  - rewrite Hit, length_app. simpl. lia.
  - rewrite Hend, !length_app. simpl. lia.
  - lia.
  - done.
  - done.
Qed.

(** A directory stream gives every entry once.  [opendir] of a path that leads to no
    directory gives a null pointer; of a directory, the loop over [readdir] ends after as
    many rounds as the directory has nodes and yields their names in the directory's
    order, each cut to the 255 characters that an entry holds. *)
Lemma directory_is_listed p kvs f path r junk :
  Envp.env_rep (gEnvp p) kvs → fs_of p = Ok f → Vfs.GetNodeFromPath f (of_cstr path) = Ok r →
  length junk = 256%nat →
  match r with
  | Some pos =>
      if Vfs.is_dir_at f pos then
        ∃ dirp, opendir junk path p = Ok (Some dirp, p) ∧ (d_end dirp - it dirp = length (Vfs.dir_nodes f pos))%nat ∧
          (Forall (λ n, rep (Vfs.getName n) (Vfs.name_of n) ∧ Forall (λ c, c ≠ 0) (Vfs.name_of n)) (Vfs.dir_nodes f pos) →
           entries dirp = Ok ((λ n, take 255 (Vfs.name_of n)) <$> Vfs.dir_nodes f pos))
      else opendir junk path p = Ok (None, p)
  | None => opendir junk path p = Ok (None, p)
  end.
Proof.
  intros He Hf Hr Hj. pose proof (GetNodeFromPath_run p f path r Hf Hr) as Hrun.
  unfold opendir. rewrite (bind_Ok _ _ _ _ _ Hrun). destruct r as [pos|]; [|done].
  rewrite (bind_Ok _ _ _ _ _ (isDir_run p f pos Hf)). destruct (Vfs.is_dir_at f pos); cbn [negb]; [|done].
  erewrite bind_Ok by done. rewrite Hf. erewrite bind_Ok by done. eexists. split; [done|]. cbn [d_end it].
  split; [lia|]. intros Hok. unfold entries. cbn [d_end it]. apply (readdir_all_Ok []); cbn [d_nodes it d_end d_name]; done || lia.
Qed.

End Proc.
