(* ===== verification/Startup.v ===== *)
(** How a process hands its child what the child needs to start: the end of
    [LoadElfProgram] (libc/elf.cpp) writes the file system, the environment and the
    arguments into a channel, [__libc_start_main] (libc/__libc_start_main.cpp) of the child
    reads them from the other end.

    Both sides see the channel through the interface [StartChannel]: bytes that are written
    are appended to a queue, bytes that are read are taken from its front.  The kernel's
    channels (Channel.v) are an instance of it.  All of the parent's writes come before the
    child is started, so the reads come after all the writes. *)
From S2P Require Import Prelude Channel LibcString StartParams CxxString Vfs Ustar Envp Proc.
Import CxxString.CxxString.

Module Startup.

(** * The interface *)
Class StartChannel (C : Type) := {
  chan_write : list Z → C → result C;                   (* [ChannelWrite] at the parent's end *)
  chan_read : Z → C → result (option (list Z) * C);     (* [ChannelRead] at the child's end; [None]: not enough *)
  chan_holds : C → list Z → Prop;
  chan_write_law c q bs : chan_holds c q → Z.of_nat (length q + length bs) < 2 ^ 32 →
    ∃ c', chan_write bs c = Ok c' ∧ chan_holds c' (q ++ bs);
  chan_read_law c q n : chan_holds c q → 0 ≤ n →
    if n <=? Z.of_nat (length q) then
      ∃ c', chan_read n c = Ok (Some (take (Z.to_nat n) q), c') ∧ chan_holds c' (drop (Z.to_nat n) q)
    else chan_read n c = Ok (None, c)
}.

(** ** The kernel's channel [i], the parent at end [d] *)

(** An address [kmalloc] may return: neither null nor that of an allocation. *)
Definition fresh_addr (s : Channel.state) : Z := fresh ({[0]} ∪ dom (Channel.bufs s) : gset Z).

Lemma fresh_addr_Ok s : fresh_addr s ≠ 0 ∧ Channel.bufs s !! fresh_addr s = None.
Proof.
  pose proof (is_fresh ({[0]} ∪ dom (Channel.bufs s) : gset Z)) as H. fold (fresh_addr s) in H.
  rewrite not_elem_of_union, not_elem_of_singleton, not_elem_of_dom in H. done.
Qed.

Definition kernel_write (i : nat) (d : Channel.side) (bs : list Z) (s : Channel.state) : result Channel.state :=
  r ← Channel.Write (fresh_addr s) (Channel.addr_of s i d) bs s; Ok r.2.

Definition kernel_read (i : nat) (d : Channel.side) (n : Z) (s : Channel.state) : result (option (list Z) * Channel.state) :=
  r ← Channel.Read (fresh_addr s) (Channel.addr_of s i (Channel.peer d)) n s;
  match r.1 with inr bs => Ok (Some bs, r.2) | inl _ => Ok (None, r.2) end.

Definition kernel_holds (i : nat) (d : Channel.side) (s : Channel.state) (q : list Z) : Prop :=
  ∃ cs, Channel.rep s cs ∧ Channel.linked s cs i ∧ Channel.waiting s cs i (Channel.peer d) = q.

Lemma kernel_write_law i d s q bs :
  kernel_holds i d s q → Z.of_nat (length q + length bs) < 2 ^ 32 →
  ∃ s', kernel_write i d bs s = Ok s' ∧ kernel_holds i d s' (q ++ bs).
Proof.
  intros (cs & Hr & Hl & <-) Hlen. destruct (fresh_addr_Ok s) as [Hn Hf].
  destruct (Channel.Write_Ok s cs i d (fresh_addr s) bs Hr Hl Hn Hf) as (s' & cs' & Hw & Hr' & Hk & _ & He & Hq & _); [lia|].
  exists s'. unfold kernel_write. rewrite Hw. split; [done|]. exists cs'. split; [done|]. split; [by eapply Channel.linked_links|done].
Qed.

Lemma kernel_read_law i d s q n :
  kernel_holds i d s q → 0 ≤ n →
  if n <=? Z.of_nat (length q) then
    ∃ s', kernel_read i d n s = Ok (Some (take (Z.to_nat n) q), s') ∧ kernel_holds i d s' (drop (Z.to_nat n) q)
  else kernel_read i d n s = Ok (None, s).
Proof.
  intros (cs & Hr & Hl & <-) Hn0. destruct (fresh_addr_Ok s) as [Hn Hf]. pose proof Hl as (c & Hc & _).
  pose proof (Channel.Read_Ok s cs i (Channel.peer d) c (fresh_addr s) n Hr Hc Hn Hf Hn0) as H. unfold kernel_read.
  destruct (n <=? _).
  - destruct H as (s' & cs' & -> & Hr' & Hk & _ & He & Hq & _). exists s'. split; [done|]. exists cs'. split; [done|].
    split; [by eapply Channel.linked_links|done].
  - by rewrite H.
Qed.

Definition kernel_channel (i : nat) (d : Channel.side) : StartChannel Channel.state := {|
  chan_write := kernel_write i d; chan_read := kernel_read i d; chan_holds := kernel_holds i d;
  chan_write_law := kernel_write_law i d; chan_read_law := kernel_read_law i d
|}.

(** * The protocol *)
Section protocol.
  Context {C : Type} `{!StartChannel C}.
  Context (junk : nat → list Z).   (* what a new allocation holds *)

(** [ChannelReadBlocking]; a failed read is repeated. *)
Fixpoint ChannelReadBlocking (fuel : nat) (size : Z) (c : C) : result (list Z * C) :=
  match fuel with
  | O => Fault NoFuel
  | S fuel =>
      '(r, c) ← chan_read size c;
      match r with Some bs => Ok (bs, c) | None => ChannelReadBlocking fuel size c end
  end.

(** The parent: [m] is its memory, with the archive at [vfs_data] and the buffer that the
    arguments are packed into at [argv_buf]. *)
Definition send_startup (page_size vfs_data vfs_data_size argv_buf : Z) (params : list (list Z)) (env : Envp.envp)
    (m : LibcString.memory) (c : C) : result (LibcString.memory * C) :=
  c ← chan_write (StartParams.bytes32 vfs_data_size) c;
  '(vfs, m) ← Ustar.read_bytes (Z.to_nat vfs_data_size) vfs_data m;
  c ← chan_write vfs c;
  buffer ← Envp.Pack junk env (Envp.new_buffer junk 0);
  let envpsize := Envp.size_ buffer in
  c ← chan_write (StartParams.bytes32 envpsize) c;
  data ← Envp.slice (Envp.bytes buffer) 0 envpsize;
  c ← chan_write data c;
  buffer ← Envp.Resize junk (StartParams.PackSize params) (Envp.Clear buffer);
  '(_, m) ← StartParams.PackParams page_size argv_buf params m;
  let argvsize := Envp.size_ buffer in
  c ← chan_write (StartParams.bytes32 argvsize) c;
  '(data, m) ← Ustar.read_bytes (Z.to_nat argvsize) argv_buf m;
  c ← chan_write data c;
  Ok (m, c).

(** First the size, then as many bytes. *)
Definition receive (fuel : nat) (c : C) : result (list Z * C) :=
  '(size, c) ← ChannelReadBlocking fuel 4 c;
  ChannelReadBlocking fuel (Envp.word_of size) c.

(** The child: the process it starts as, and the arguments of [main].  [ustar_literal] is
    the address of the literal; [vfs_buf], [environ_buf] and [argv_buf] are the addresses of
    the allocations. *)
Definition start_fs (ustar_literal vfs_buf : Z) (vfs : list Z) (m : LibcString.memory) :
    result (list Vfs.node * LibcString.memory) :=
  let vfssize := Z.of_nat (length vfs) in
  let m := LibcString.alloc (Z.to_nat (Z.max vfssize Envp.kDefaultCap)) vfs_buf m in
  '(_, m) ← StartParams.store_list vfs_buf vfs m;
  Ustar.InitVFS ustar_literal [] vfs_buf m.

Definition start_env (data : list Z) : result (Envp.envp * Envp.buffer) :=
  let b := Envp.new_buffer junk (Z.of_nat (length data)) in
  bytes ← Envp.blit (Envp.bytes b) 0 data;
  Envp.Unpack [] (Envp.Buffer (Envp.size_ b) (Envp.capacity_ b) bytes).

(** PWD and PATH. *)
Definition start_dirs : M Proc.proc unit :=
  env ← gets Proc.gEnvp;
  pwd ← liftR (Envp.getenv env Proc.kPWDEnv);
  match pwd with
  | Some chars => s ← liftR (Proc.c_string chars); Proc.SetCurrentDir_path s
  | None => mret tt
  end;;
  env ← gets Proc.gEnvp;
  path ← liftR (Envp.getVal env (of_cstr Proc.kPATHEnv));
  match path with
  | None => env ← liftR (Envp.setVal env (of_cstr Proc.kPATHEnv) (of_cstr [47; 98; 105; 110])); modify (Proc.set_env env)
  | Some _ => mret tt
  end.

Definition start_args (argv_buf : Z) (b : Envp.buffer) (data : list Z) (m : LibcString.memory) :
    result ((Z * Z) * LibcString.memory) :=
  b ← Envp.Resize junk (Z.of_nat (length data)) (Envp.Clear b);
  let m := LibcString.alloc (Z.to_nat (Envp.capacity_ b)) argv_buf m in
  '(_, m) ← StartParams.store_list argv_buf data m;
  StartParams.UnpackParams argv_buf m.

Definition libc_start_main (fuel : nat) (ustar_literal vfs_buf environ_buf argv_buf : Z)
    (m : LibcString.memory) (c : C) : result ((Z * Z) * Proc.proc * C) :=
  '(vfs, c) ← receive fuel c;
  '(root, m) ← start_fs ustar_literal vfs_buf vfs m;
  '(data, c) ← receive fuel c;
  '(env, b) ← start_env data;
  '(_, m) ← Envp.getPlainEnvp environ_buf env m;
  '(_, p) ← start_dirs (Proc.mkProc root [] env 0 m);
  '(data, c) ← receive fuel c;
  '(args, m) ← start_args argv_buf b data (Proc.memory p);
  Ok (args, Proc.set_memory m p, c).

End protocol.

(** * Lemmas *)

Section protocol_lemmas.
  Context {C : Type} `{!StartChannel C}.

Lemma ChannelReadBlocking_Ok fuel n bs rest c :
  (0 < fuel)%nat → chan_holds c (bs ++ rest) → n = Z.of_nat (length bs) →
  ∃ c', ChannelReadBlocking fuel n c = Ok (bs, c') ∧ chan_holds c' rest.
Proof.
  intros Hf Hq ->. destruct fuel as [|fuel]; [lia|]. cbn [ChannelReadBlocking].
  pose proof (chan_read_law c _ (Z.of_nat (length bs)) Hq ltac:(lia)) as H.
  rewrite (proj2 (Z.leb_le _ _)) in H by (rewrite length_app; lia). destruct H as (c' & -> & Hq').
  rewrite Nat2Z.id, take_app_length in *. rewrite drop_app_length in Hq'. by exists c'.
Qed.

Lemma receive_Ok fuel bs rest c :
  (0 < fuel)%nat → chan_holds c (StartParams.bytes32 (Z.of_nat (length bs)) ++ bs ++ rest) → Z.of_nat (length bs) < 2 ^ 32 →
  ∃ c', receive fuel c = Ok (bs, c') ∧ chan_holds c' rest.
Proof.
  intros Hf Hq Hn. unfold receive.
  destruct (ChannelReadBlocking_Ok fuel 4 (StartParams.bytes32 (Z.of_nat (length bs))) (bs ++ rest) c Hf Hq eq_refl) as (c1 & -> & H1).
  cbn [mbind result_bind]. rewrite Envp.word_of_bytes32 by (unfold is_u32; lia). by apply ChannelReadBlocking_Ok.
Qed.

(** A size and as many bytes. *)
Lemma send_Ok q bs c :
  chan_holds c q → Z.of_nat (length q + 4 + length bs) < 2 ^ 32 →
  ∃ c1 c2, chan_write (StartParams.bytes32 (Z.of_nat (length bs))) c = Ok c1 ∧ chan_write bs c1 = Ok c2 ∧
    chan_holds c2 (q ++ StartParams.bytes32 (Z.of_nat (length bs)) ++ bs).
Proof.
  intros Hq Hlen. destruct (chan_write_law c q (StartParams.bytes32 (Z.of_nat (length bs))) Hq) as (c1 & R1 & H1).
  { rewrite Envp.length_bytes32. lia. }
  destruct (chan_write_law c1 _ bs H1) as (c2 & R2 & H2); [rewrite length_app, Envp.length_bytes32; lia|].
  exists c1, c2. split; [done|]. split; [done|]. by rewrite app_assoc.
Qed.

End protocol_lemmas.

Lemma read_bytes_contents bs : ∀ m p,
  StartParams.contents m p bs → 0 ≤ p → p + Z.of_nat (length bs) ≤ 2 ^ 32 → Ustar.read_bytes (length bs) p m = Ok (bs, m).
Proof.
  induction bs as [|b bs IH]; intros m p Hc H0 H1; [done|]. cbn [Ustar.read_bytes length] in *.
  apply StartParams.contents_cons in Hc as [Hb Hc].
  rewrite (bind_Ok _ _ _ _ _ (Ustar.load_mapped m p b ltac:(unfold is_u32; lia) Hb)).
  by rewrite (bind_Ok _ _ _ _ _ (IH m (p + 1) Hc ltac:(lia) ltac:(lia))).
Qed.

(** The bytes at a range that is there. *)
Lemma mapped_contents (m : LibcString.memory) n : ∀ p, (∀ a, p ≤ a < p + Z.of_nat n → is_Some (m !! a)) →
  ∃ bs, length bs = n ∧ StartParams.contents m p bs.
Proof.
  induction n as [|n IH]; intros p Hm; [exists []; split; [done|apply StartParams.contents_nil]|].
  destruct (Hm p) as [b Hb]; [lia|]. destruct (IH (p + 1)) as (bs & Hl & Hc); [intros a Ha; apply Hm; lia|].
  exists (b :: bs). split; [simpl; lia|]. by apply StartParams.contents_cons.
Qed.

Lemma contents_agree m m' p p' bs :
  StartParams.contents m p bs → StartParams.contents m' p' bs →
  ∀ i, 0 ≤ i < Z.of_nat (length bs) → m' !! (p' + i) = m !! (p + i).
Proof.
  intros H H' i Hi. destruct (lookup_lt_is_Some_2 bs (Z.to_nat i)) as [b Hb]; [lia|].
  specialize (H _ _ Hb). specialize (H' _ _ Hb). rewrite Z2Nat.id in H, H' by lia. by rewrite H, H'.
Qed.

(** ** An archive at another address *)
Lemma cstr_shift m m' s : ∀ p p',
  LibcString.cstr m p s → (∀ i, 0 ≤ i < Z.of_nat (length s) + 1 → m' !! (p' + i) = m !! (p + i)) →
  0 ≤ p' → p' + Z.of_nat (length s) < 2 ^ 32 → LibcString.cstr m' p' s.
Proof.
  induction s as [|c s IH]; intros p p' H Ha H0 H1; cbn [LibcString.cstr length] in *.
  - destruct H as [_ H]. split; [unfold is_u32; lia|]. specialize (Ha 0 ltac:(lia)). by rewrite !Z.add_0_r, H in Ha.
  - destruct H as (_ & Hc & Hr & H). split; [unfold is_u32; lia|]. split; [|split; [done|]].
    + specialize (Ha 0 ltac:(lia)). by rewrite !Z.add_0_r, Hc in Ha.
    + apply (IH (p + 1)); [done| |lia|lia]. intros i Hi. specialize (Ha (1 + i) ltac:(lia)). by rewrite !Z.add_assoc in Ha.
Qed.

(** A string ends at the latest at the next zero. *)
Lemma cstr_before_zero m s z : ∀ p, LibcString.cstr m p s → p ≤ z → m !! z = Some 0 → p + Z.of_nat (length s) ≤ z.
Proof.
  induction s as [|c s IH]; intros p H Hp Hz; cbn [LibcString.cstr length] in *; [lia|].
  destruct H as (_ & Hc & Hr & H). destruct (Z.eq_dec p z) as [->|]; [rewrite Hc in Hz; simplify_eq; lia|].
  specialize (IH (p + 1) H ltac:(lia) Hz). lia.
Qed.

Definition shift_entry (d : Z) (e : Ustar.entry) : Ustar.entry :=
  match e with
  | Ustar.EDir prefix name => Ustar.EDir prefix name
  | Ustar.EFile prefix name size data => Ustar.EFile prefix name size (data + d)
  end.

Lemma archive_zero es : ∀ m p q, Ustar.archive_at m p es q → ∃ z, p ≤ z < q ∧ z = q - 1024 ∧ m !! z = Some 0.
Proof.
  induction es as [|[pr nm|pr nm sz d] es IH]; intros m p q H; pose proof (Ustar.archive_at_end _ _ _ _ H) as He;
    unfold Ustar.kTarBlockSize in *; cbn [Ustar.archive_at] in H.
  - destruct H as [H ->]. unfold Ustar.kTarBlockSize in *. exists p. split; [lia|]. split; [lia|]. apply H. lia.
  - destruct H as [_ H]. destruct (IH _ _ _ H) as (z & Hz & -> & Hm). unfold Ustar.kTarBlockSize in *.
    exists (q - 1024). split; [lia|done].
  - destruct H as (_ & Hs & -> & _ & H). destruct (IH _ _ _ H) as (z & Hz & -> & Hm). exists (q - 1024). split; [|done].
    unfold Ustar.chunks, Ustar.kTarBlockSize in *. dlia.
Qed.

Section shift.
  Context (m m' : LibcString.memory) (d q : Z).
  (** The memory from the start of the archive up to [q], its end, is found [d] bytes further on. *)
  Context (start : Z).
  Hypothesis agree : ∀ a, start ≤ a < q → m' !! (a + d) = m !! a.
  Hypothesis bounds : 0 ≤ start + d ∧ q + d ≤ 2 ^ 32.

Lemma contents_shift p bs :
  start ≤ p → p + Z.of_nat (length bs) ≤ q → StartParams.contents m p bs → StartParams.contents m' (p + d) bs.
Proof using agree.
  intros H0 H1. apply StartParams.contents_local. intros i Hi. replace (p + d + i) with (p + i + d) by lia. apply agree. lia.
Qed.

Lemma header_shift p prefix name ty size z :
  start ≤ p → p + 512 ≤ z → z < q → m !! z = Some 0 →
  Ustar.header m p prefix name ty size → Ustar.header m' (p + d) prefix name ty size.
Proof using agree bounds.
  intros H0 H1 H2 Hz (Hm & Hu & Hp & Hn & Ht & ds & Hl & Hd & Hs & Ho).
  unfold Ustar.header, Ustar.kTarBlockSize, Ustar.off_ustar, Ustar.off_prefix, Ustar.off_name, Ustar.off_type,
    Ustar.off_size in *.
  assert (Hstr : ∀ k s, 0 ≤ k < 512 → LibcString.cstr m (p + k) s → LibcString.cstr m' (p + d + k) s).
  { intros k s Hk Hc. pose proof (cstr_before_zero m s z _ Hc ltac:(lia) Hz).
    eapply (cstr_shift m m' s (p + k)); [done| |lia|lia].
    intros i Hi. replace (p + d + k + i) with (p + k + i + d) by lia. apply agree. lia. }
  assert (Hcon : ∀ k bs, 0 ≤ k → k + Z.of_nat (length bs) ≤ 512 →
    StartParams.contents m (p + k) bs → StartParams.contents m' (p + d + k) bs).
  { intros k bs Hk Hb Hc. replace (p + d + k) with (p + k + d) by lia. apply contents_shift; [lia|lia|done]. }
  split; [|split; [|split; [|split; [|split]]]].
  - intros a Ha. replace a with (a - d + d) by lia. rewrite agree by lia. apply Hm. lia.
  - apply Hcon; [lia|simpl; lia|done].
  - apply Hstr; [lia|done].
  - apply Hstr; [lia|done].
  - replace (p + d + 156) with (p + 156 + d) by lia. rewrite agree by lia. done.
  - exists ds. split; [done|]. split; [done|]. split; [|done]. apply Hcon; [lia| |done]. rewrite Hl. unfold Ustar.size_digits. lia.
Qed.

Lemma archive_shift es : ∀ p, start ≤ p → Ustar.archive_at m p es q →
  Ustar.archive_at m' (p + d) (shift_entry d <$> es) (q + d).
Proof using agree bounds.
  induction es as [|[pr nm|pr nm sz dt] es IH]; intros p H0 H; pose proof (archive_zero _ _ _ _ H) as (z & Hz1 & Hz2 & Hz);
    cbn [Ustar.archive_at shift_entry fmap list_fmap] in *; unfold Ustar.kTarBlockSize in *.
  - destruct H as [H ->]. split; [|lia]. intros a Ha. replace a with (a - d + d) by lia. rewrite agree by lia. apply H. lia.
  - destruct H as [Hh H]. pose proof (Ustar.archive_at_end _ _ _ _ H) as He. unfold Ustar.kTarBlockSize in He.
    split; [apply (header_shift p _ _ _ _ z); [lia|lia|lia|done|done]|].
    replace (p + d + 512) with (p + 512 + d) by lia. apply IH; [lia|done].
  - destruct H as ((ty & Hty & Hh) & Hs & -> & Hm & H). pose proof (Ustar.archive_at_end _ _ _ _ H) as He.
    unfold Ustar.kTarBlockSize in He. assert (Hc : 0 < Ustar.chunks sz) by (unfold Ustar.chunks, Ustar.kTarBlockSize; dlia).
    split; [|split; [done|split; [lia|split]]].
    + exists ty. split; [done|]. apply (header_shift p _ _ _ _ z); [lia|lia|lia|done|done].
    + intros a Ha. replace a with (a - d + d) by lia. rewrite agree by lia. apply Hm. lia.
    + replace (p + 512 + d + _) with (p + 512 + 512 * Ustar.chunks sz + d) by lia. apply IH; [lia|done].
Qed.

End shift.

(** What the entries stand for, with the data of the files [d] bytes further on. *)
Definition shift_kind (d : Z) (k : Vfs.kind) : Vfs.kind :=
  match k with Vfs.KFile data size => Vfs.KFile (data + d) size | Vfs.KDir => Vfs.KDir end.

Definition shift_new (d : Z) (new : list (Ustar.path * Vfs.kind)) : list (Ustar.path * Vfs.kind) :=
  (λ x, (x.1, shift_kind d x.2)) <$> new.

Lemma stands_for_shift d es new :
  Forall2 Ustar.stands_for es new → Forall2 Ustar.stands_for (shift_entry d <$> es) (shift_new d new).
Proof.
  intros H. unfold shift_new. apply Forall2_fmap. eapply Forall2_impl; [exact H|]. intros [pr nm|pr nm sz dt] [cs k];
    unfold Ustar.stands_for; simpl; intros (-> & Hrest); (split; [done|exact Hrest]).
Qed.

(** Both grow to the same tree, but for the addresses. *)
Lemma add_shift d t t' cs k :
  (∀ ds, t' ds = shift_kind d <$> t ds) → ∀ ds, Ustar.add t' cs (shift_kind d k) ds = shift_kind d <$> Ustar.add t cs k ds.
Proof. intros H ds. unfold Ustar.add. repeat case_decide; [apply H|done|done|apply H]. Qed.

Lemma grown_shift d new : ∀ t t', (∀ ds, t' ds = shift_kind d <$> t ds) →
  ∀ ds, Ustar.grown t' (shift_new d new) ds = shift_kind d <$> Ustar.grown t new ds.
Proof.
  induction new as [|[cs k] new IH]; intros t t' H ds; cbn [Ustar.grown shift_new fmap list_fmap fst snd]; [apply H|].
  apply (IH (Ustar.add t cs k)). by apply add_shift.
Qed.

Lemma growable_shift d new : ∀ t t', (∀ ds, t' ds = shift_kind d <$> t ds) →
  Ustar.growable t new → Ustar.growable t' (shift_new d new).
Proof.
  induction new as [|[cs k] new IH]; intros t t' H Hg; cbn [Ustar.growable shift_new fmap list_fmap fst snd] in *; [done|].
  destruct Hg as [Ha Hg]. split; [|apply (IH (Ustar.add t cs k)); [by apply add_shift|done]].
  destruct Ha as [?|[Hn Hp]]; [by left|right]. split; [by rewrite H, Hn|]. intros ds Hds Hpre. rewrite H. destruct (Hp ds Hds Hpre) as [-> | ->]; [by left|by right].
Qed.

(** ** The child's side *)

(** [alloc] and the copy into it. *)
Lemma buffer_Ok m n buf bs :
  0 ≤ buf → buf + n ≤ 2 ^ 32 → Z.of_nat (length bs) ≤ n → Forall is_u8 bs →
  ∃ m', StartParams.store_list buf bs (LibcString.alloc (Z.to_nat n) buf m) = Ok (tt, m') ∧
    StartParams.contents m' buf bs ∧ (∀ a, ¬ (buf ≤ a < buf + n) → m' !! a = m !! a).
Proof.
  intros H0 H1 Hn Hu.
  assert (Hal : ∀ a, LibcString.alloc (Z.to_nat n) buf m !! a = if LibcString.in_range a buf n then Some 0 else m !! a).
  { intros a. rewrite LibcString.alloc_lookup, Z2Nat.id by lia. done. }
  destruct (StartParams.store_list_Ok bs (LibcString.alloc (Z.to_nat n) buf m) buf) as (m' & R & Hc & K & _); [|done|].
  { split; [done|]. split; [lia|]. intros a Ha. rewrite Hal, (proj2 (LibcString.in_range_spec _ _ _)) by lia. by eexists. }
  exists m'. split; [done|]. split; [done|]. intros a Ha. rewrite K by lia. rewrite Hal.
  destruct (LibcString.in_range a buf n) eqn:E; [|done]. by apply LibcString.in_range_spec in E.
Qed.

Lemma start_fs_Ok pm vfs_data es q new vfs lit vfs_buf m :
  Ustar.archive_at pm vfs_data es q → StartParams.contents pm vfs_data vfs → Z.of_nat (length vfs) = q - vfs_data →
  Forall is_u8 vfs → Forall2 Ustar.stands_for es new → Ustar.growable (λ _, None) new →
  0 ≤ vfs_buf → vfs_buf + Z.of_nat (length vfs) ≤ 2 ^ 32 →
  StartParams.contents m lit Ustar.ustar_bytes → 0 ≤ lit → lit + 6 ≤ 2 ^ 32 →
  lit + 6 ≤ vfs_buf ∨ vfs_buf + Z.of_nat (length vfs) ≤ lit →
  ∃ root m', start_fs lit vfs_buf vfs m = Ok (root, m') ∧ Vfs.wf_nodes root ∧
    (∀ ds, Vfs.kind_at root ds = shift_kind (vfs_buf - vfs_data) <$> Ustar.grown (λ _, None) new ds) ∧
    StartParams.contents m' vfs_buf vfs ∧ (∀ a, ¬ (vfs_buf ≤ a < vfs_buf + Z.of_nat (length vfs)) → m' !! a = m !! a).
Proof.
  intros Har Hv Hlen Hu Hst Hg Hb0 Hb1 Hl Hl0 Hl1 Hdis.
  pose proof (Ustar.archive_at_end _ _ _ _ Har) as He. unfold Ustar.kTarBlockSize in He.
  unfold start_fs, Envp.kDefaultCap. rewrite Z.max_l by lia.
  destruct (buffer_Ok m (Z.of_nat (length vfs)) vfs_buf vfs Hb0 Hb1 ltac:(lia) Hu) as (m' & R & Hc & K).
  rewrite R. cbn [mbind result_bind]. set (d := vfs_buf - vfs_data).
  assert (Har' : Ustar.archive_at m' vfs_buf (shift_entry d <$> es) (q + d)).
  { replace vfs_buf with (vfs_data + d) by (unfold d; lia). apply (archive_shift pm m' d q vfs_data); [|unfold d; lia|lia|done].
    intros a Ha. replace (a + d) with (vfs_buf + (a - vfs_data)) by (unfold d; lia).
    rewrite (contents_agree pm m' vfs_data vfs_buf vfs Hv Hc) by lia. f_equal. lia. }
  assert (Hnone : ∀ ds, Vfs.kind_at [] ds = shift_kind d <$> (λ _, None : option Vfs.kind) ds) by (intros ds; by rewrite Vfs.kind_at_nil).
  destruct (Ustar.run_entries_Ok (shift_entry d <$> es) [] (shift_new d new)) as (root & Rr & Hw & Hk).
  { split; constructor. } { by apply stands_for_shift. } { by apply (growable_shift d new (λ _, None)). }
  exists root, m'. split.
  - rewrite (Ustar.InitVFS_Ok m' lit [] vfs_buf (shift_entry d <$> es) (q + d)); [by rewrite Rr|done|done|unfold d; lia| |done|done].
    eapply StartParams.contents_local; [|exact Hl]. intros i Hi. simpl in Hi. apply K. lia.
  - split; [done|]. split; [|split; [done|done]]. intros ds. rewrite Hk. by apply grown_shift.
Qed.

Lemma start_env_Ok junk kvs :
  (∀ n, (n ≤ length (junk n))%nat) → Z.of_nat (length (Envp.packed kvs)) < 2 ^ 32 → NoDup kvs.*1 →
  ∃ env b, start_env junk (Envp.packed kvs) = Ok (env, b) ∧ Envp.env_rep env kvs ∧ Envp.terminated env ∧ Envp.buf_rep b [] ∧
    Envp.capacity_ b = Z.max (Z.of_nat (length (Envp.packed kvs))) Envp.kDefaultCap.
Proof.
  intros Hj Hlen Hd. unfold start_env.
  set (b0 := Envp.new_buffer junk (Z.of_nat (length (Envp.packed kvs)))).
  assert (Hb0 : length (Envp.bytes b0) = Z.to_nat (Envp.capacity_ b0) ∧
    Z.of_nat (length (Envp.packed kvs)) ≤ Envp.capacity_ b0).
  { unfold b0, Envp.new_buffer. cbn [Envp.bytes Envp.capacity_]. rewrite Envp.length_malloc by (done || lia). lia. }
  destruct (Envp.blit_Ok (Envp.bytes b0) 0 (Envp.packed kvs)) as (d & -> & Hdl & r & Hr); [lia|lia|]. cbn [mbind result_bind].
  assert (Hrep : Envp.buf_rep (Envp.Buffer (Envp.size_ b0) (Envp.capacity_ b0) d) (Envp.packed kvs)).
  { split; [done|]. split; [cbn [Envp.capacity_ Envp.bytes]; lia|]. exists r. exact Hr. }
  unfold Envp.Unpack.
  destruct (Envp.unpack_loop_env kvs (S (Z.to_nat (Envp.size_ b0))) [] _ [] ltac:(constructor) Hrep Hlen) as
    (env & b & R & He & Hb & Ht).
  { unfold b0, Envp.new_buffer. cbn [Envp.size_]. pose proof (Envp.packed_length kvs). lia. }
  exists env, b. split; [exact R|]. rewrite Envp.foldl_set_kv in He by done. split; [done|]. split; [|split; [done|]].
  - apply Ht; [done|constructor].
  - by rewrite (Envp.unpack_loop_capacity _ _ _ _ _ R).
Qed.

Lemma start_args_Ok junk pm A params data buf b m :
  (∀ n, (n ≤ length (junk n))%nat) → Envp.buf_rep b [] →
  StartParams.contents pm A (StartParams.bytes32 (Z.of_nat (length params))) →
  StartParams.packed pm (A + 4) (A + 4 + 4 * Z.of_nat (length params)) params →
  StartParams.contents pm A data → Z.of_nat (length data) = StartParams.packed_size params → Forall is_u8 data →
  Forall (Forall (λ c, 0 < c < 256)) params →
  let n := Z.max (Z.of_nat (length data)) (Envp.capacity_ b) in
  buf mod 4 = 0 → 0 ≤ buf → buf + n < 2 ^ 32 →
  ∃ m', start_args junk buf b data m = Ok ((Z.of_nat (length params), buf + 4), m') ∧
    (∀ i p, params !! i = Some p →
       ∃ a, StartParams.load32 (buf + 4 + 4 * Z.of_nat i) m' = Ok (a, m') ∧ LibcString.cstr m' a p) ∧
    (∀ a, ¬ (buf ≤ a < buf + n) → m' !! a = m !! a).
Proof.
  intros Hj Hb Cn P Hdata Hlen Hu Hc n Hal H0 H1. pose proof (StartParams.strs_size_nonneg params) as Hs.
  unfold start_args, Envp.Resize. cbn [Envp.size_ Envp.Clear].
  rewrite (proj2 (Z.ltb_lt _ _)) by (rewrite Hlen; unfold StartParams.packed_size; lia).
  assert (Hcl : Envp.buf_rep (Envp.Clear b) []) by (destruct Hb as (Hb1 & Hb2 & Hb3); by split).
  destruct (Envp.ReserveIfNeeded_buf junk Hj (Z.of_nat (length data)) (Envp.Clear b) [] Hcl) as (b1 & R1 & Hb1 & Hcap); [simpl; lia|].
  rewrite R1. cbn [mbind result_bind Envp.capacity_].
  assert (Hn : Envp.capacity_ b1 = n).
  { unfold Envp.ReserveIfNeeded in R1. cbn [Envp.capacity_ Envp.Clear] in R1. unfold n.
    destruct (Z.ltb_spec (Envp.capacity_ b) (Z.of_nat (length data))).
    - destruct (Envp.slice _ _ _); [|done]. cbn [mbind result_bind] in R1. destruct (Envp.blit _ _ _); [|done].
      cbn [mbind result_bind] in R1. injection R1 as <-. cbn [Envp.capacity_]. lia.
    - injection R1 as <-. cbn [Envp.capacity_ Envp.Clear]. lia. }
  rewrite Hn. destruct (buffer_Ok m n buf data H0 ltac:(lia) ltac:(lia) Hu) as (m1 & R & Hc1 & K1). rewrite R.
  cbn [mbind result_bind].
  destruct (StartParams.params_arrive pm A buf params m1 Hal H0 ltac:(lia) Hc Cn P) as (m' & Ru & Hargs & K2 & _).
  { intros i Hi. apply (contents_agree pm m1 A buf data Hdata Hc1). lia. }
  exists m'. split; [exact Ru|]. split; [exact Hargs|]. intros a Ha. rewrite K2 by lia. by apply K1.
Qed.

(** ** The working directory and PATH of the child *)
(** What a path leads to has that path. *)
Lemma resolve_names cs : ∀ nodes pos n, Vfs.resolve nodes cs = Some (pos, n) →
  pos ≠ [] ∧ Vfs.names_at nodes pos = Some cs ∧ Vfs.node_at nodes pos = Some n.
Proof.
  induction cs as [|c cs IH]; intros nodes pos n H; [done|]. cbn [Vfs.resolve] in H.
  destruct (Vfs.index_of nodes c) as [[i x]|] eqn:E; [|by destruct cs]. apply Vfs.index_of_Some in E as [Hi Hn].
  destruct cs as [|c' cs].
  - cbn [Vfs.here] in H. simplify_eq. cbn [Vfs.names_at Vfs.node_at]. by rewrite Hi.
  - destruct (Vfs.isDir x); [|done]. destruct (Vfs.resolve (Vfs.children x) (c' :: cs)) as [[pos' y]|] eqn:Er; [|done].
    cbn [Vfs.below] in H. simplify_eq. destruct (IH _ _ _ Er) as (Hne & Hna & Hat).
    cbn [Vfs.names_at Vfs.node_at]. rewrite Hi, Hna. split; [done|]. split; [done|]. by destruct pos'.
Qed.

Definition path_value (kvs : list (list Z * list Z)) (k : list Z) : option (list Z) :=
  match Envp.lookup_kv kvs k with Some i => snd <$> kvs !! i | None => None end.

(** The directory that the variable PWD names: the root if it is not set. *)
Definition starts_in (t : Ustar.tree) (kvs : list (list Z * list Z)) (cs : Ustar.path) : Prop :=
  match path_value kvs Proc.kPWDEnv with
  | None => cs = []
  | Some v => v = Vfs.kPathSep :: Vfs.join cs ∧ Forall (λ c, c ≠ 0) v ∧ Z.of_nat (length v) < CxxString.npos ∧
      (cs = [] ∨ cs ≠ [] ∧ t cs = Some Vfs.KDir ∧ Forall Vfs.good_name cs ∧ Vfs.clean (Vfs.join cs) ∧
                 take 2 (Vfs.join cs) ≠ [46; Vfs.kPathSep])
  end.

(** PATH is added if it is missing. *)
Definition with_path (kvs : list (list Z * list Z)) : list (list Z * list Z) :=
  match Envp.lookup_kv kvs Proc.kPATHEnv with
  | Some _ => kvs
  | None => kvs ++ [(Proc.kPATHEnv, [47; 98; 105; 110])]
  end.

Lemma set_kv_same kvs k i v : Envp.lookup_kv kvs k = Some i → kvs !! i = Some (k, v) → Envp.set_kv kvs (k, v) = kvs.
Proof. intros Hl Hi. unfold Envp.set_kv. cbn [fst]. rewrite Hl. by apply list_insert_id. Qed.

Lemma lookup_kv_Some kvs k i : Envp.lookup_kv kvs k = Some i → ∃ v, kvs !! i = Some (k, v).
Proof.
  unfold Envp.lookup_kv. destruct (list_find _ kvs) as [[j [k' v]]|] eqn:E; [|done]. intros [= <-].
  apply list_find_Some in E as (Hi & Hk & _). simpl in Hk. subst k'. by exists v.
Qed.

(** [getenv] of a variable whose value is terminated. *)
Lemma getenv_Ok env kvs k :
  Envp.env_rep env kvs → Envp.terminated env →
  match path_value kvs k with
  | Some v => v ≠ [] → ∃ rest, Envp.getenv env k = Ok (Some (v ++ 0 :: rest))
  | None => Envp.getenv env k = Ok None
  end.
Proof.
  intros H Ht. unfold path_value, Envp.getenv.
  rewrite (Envp.getVal_env env kvs _ k H (rep_text _ _ (of_cstr_rep _))). cbn [mbind result_bind].
  destruct (Envp.lookup_kv kvs k) as [i|] eqn:E; [|done]. destruct (lookup_kv_Some _ _ _ E) as [v Hv].
  rewrite Hv. cbn [fmap option_fmap option_map snd]. intros Hne.
  destruct (Forall2_lookup_r _ _ _ _ _ H Hv) as (x & Hx & _ & Hxv). simpl in Hxv. rewrite Hx.
  destruct (Forall_lookup_1 _ _ _ _ Ht Hx) as (l & Hl). pose proof (text_unique _ _ _ (rep_text _ _ Hl) Hxv) as ->.
  destruct v as [|c v]; [done|]. rewrite (at_Ok x.2 (c :: v) 0 c) by done. cbn [mbind result_bind].
  destruct Hl as [_ [rest ->]]. by exists rest.
Qed.

(** The node PWD leads to, and that it is a directory. *)
Lemma pwd_leads root cwd path v cs :
  Vfs.wf_nodes root → v = Vfs.kPathSep :: Vfs.join cs → Z.of_nat (length v) < CxxString.npos →
  (cs = [] ∨ cs ≠ [] ∧ Vfs.kind_at root cs = Some Vfs.KDir ∧ Forall Vfs.good_name cs ∧ Vfs.clean (Vfs.join cs) ∧
             take 2 (Vfs.join cs) ≠ [46; Vfs.kPathSep]) →
  ∃ pos, Vfs.GetNodeFromPath (Vfs.FS root cwd path) (of_cstr v) = Ok (Some pos) ∧
    Vfs.is_dir_at (Vfs.FS root cwd path) pos = true ∧ Vfs.names_at root pos = Some cs.
Proof.
  intros Hw -> Hlen [->|(Hne & Hk & Hg & Hcl & Hdot)]; [by exists []|].
  unfold Vfs.kind_at in Hk. destruct (Vfs.resolve root cs) as [[pos n]|] eqn:E; [|done].
  destruct (resolve_names _ _ _ _ E) as (Hp & Hna & Hat). exists pos. split; [|split; [|done]].
  - rewrite (Vfs.GetNodeFromPath_abs _ _ cs); [cbn [Vfs.root]; by rewrite E|apply of_cstr_rep|done|done| |apply Hw|done|done].
    simpl in Hlen. lia.
  - destruct pos as [|i pos]; [done|]. unfold Vfs.is_dir_at. cbn [Vfs.root]. rewrite Hat. by destruct n.
Qed.

Lemma start_dirs_Ok root env kvs m cs :
  Vfs.wf_nodes root → Envp.env_rep env kvs → Envp.terminated env → starts_in (Vfs.kind_at root) kvs cs →
  ∃ env' pos, start_dirs (Proc.mkProc root [] env 0 m) = Ok (tt, Proc.mkProc root pos env' 0 m) ∧
    Vfs.names_at root pos = Some cs ∧ Envp.env_rep env' (with_path kvs).
Proof.
  intros Hw He Ht Hst. unfold start_dirs. erewrite bind_Ok by done. cbn [Proc.gEnvp].
  assert (Hpath : ∀ env pos, Envp.env_rep env kvs → ∃ env',
    (env ← gets Proc.gEnvp;
     path ← liftR (Envp.getVal env (of_cstr Proc.kPATHEnv));
     match path with
     | None => env ← liftR (Envp.setVal env (of_cstr Proc.kPATHEnv) (of_cstr [47; 98; 105; 110])); modify (Proc.set_env env)
     | Some _ => mret tt
     end) (Proc.mkProc root pos env 0 m) = Ok (tt, Proc.mkProc root pos env' 0 m) ∧ Envp.env_rep env' (with_path kvs)).
  { intros env0 pos H0. erewrite bind_Ok by done. cbn [Proc.gEnvp].
    rewrite (Envp.getVal_env env0 kvs _ Proc.kPATHEnv H0 (rep_text _ _ (of_cstr_rep _))). erewrite bind_Ok by done.
    unfold with_path. destruct (Envp.lookup_kv kvs Proc.kPATHEnv) as [i|] eqn:E; [by exists env0|].
    destruct (Envp.setVal_env env0 kvs (of_cstr Proc.kPATHEnv) (of_cstr [47; 98; 105; 110]) Proc.kPATHEnv [47; 98; 105; 110] H0)
      as (env1 & Hset & H1); [apply rep_text, of_cstr_rep..|].
    exists env1. unfold Envp.set_kv in H1. cbn [fst] in H1. rewrite E in H1. split; [|done]. by rewrite Hset. }
  pose proof (getenv_Ok env kvs Proc.kPWDEnv He Ht) as Hg. unfold starts_in in Hst.
  destruct (path_value kvs Proc.kPWDEnv) as [v|] eqn:Ev.
  2:{ rewrite Hg. erewrite bind_Ok by done. erewrite bind_Ok by done. subst cs.
      destruct (Hpath env [] He) as (env' & R & H'). exists env', []. by split. }
  destruct Hst as (Hv & Hz & Hlen & Hdir). destruct Hg as [rest Hg]; [by rewrite Hv|]. rewrite Hg. erewrite bind_Ok by done.
  unfold path_value in Ev. destruct (Envp.lookup_kv kvs Proc.kPWDEnv) as [i|] eqn:El; [|done].
  destruct (lookup_kv_Some _ _ _ El) as [v' Hi]. rewrite Hi in Ev. simpl in Ev. injection Ev as ->.
  set (p0 := Proc.mkProc root [] env 0 m). destruct (Proc.fs_of_Ok p0 kvs He) as [pe Hf].
  destruct (pwd_leads root [] pe v cs Hw Hv Hlen Hdir) as (pos & Hpos & Hisd & Hna).
  destruct (Proc.SetCurrentDir_Ok p0 kvs pos cs He Hw Hna) as (env1 & Rs & H1).
  { subst v. unfold CxxString.npos in Hlen. simpl in Hlen. lia. }
  rewrite <- Hv, (set_kv_same _ _ _ _ El Hi) in H1.
  destruct (Hpath env1 pos H1) as (env' & R & H'). exists env', pos. split; [|by split].
  erewrite bind_Ok; [exact R|]. rewrite (Proc.c_string_Ok v rest Hz). erewrite bind_Ok by done.
  unfold Proc.SetCurrentDir_path. rewrite (bind_Ok _ _ _ _ _ (Proc.GetNodeFromPath_run p0 _ v (Some pos) Hf Hpos)).
  rewrite (bind_Ok _ _ _ _ _ (Proc.isDir_run p0 _ pos Hf)). change (Proc.gGlobalFs p0) with root. 
  change (Proc.gCurrentDir p0) with (@nil nat). rewrite Hisd. exact Rs.
Qed.

(** ** The parent's side *)
Lemma send_startup_Ok {C} `{!StartChannel C} junk page_size m c vfs_data vfs argv_buf params env kvs :
  (∀ n, (n ≤ length (junk n))%nat) → chan_holds c [] →
  StartParams.contents m vfs_data vfs → 0 ≤ vfs_data → vfs_data + Z.of_nat (length vfs) ≤ 2 ^ 32 →
  Envp.env_rep env kvs → argv_buf mod 4 = 0 → 0 ≤ argv_buf → argv_buf + page_size < 2 ^ 32 →
  StartParams.packed_size params < page_size → Forall (Forall is_u8) params →
  (∀ a, argv_buf ≤ a < argv_buf + StartParams.packed_size params → is_Some (m !! a)) →
  12 + Z.of_nat (length vfs) + Z.of_nat (length (Envp.packed kvs)) + StartParams.packed_size params < 2 ^ 32 →
  let data := StartParams.pack_data params in
  ∃ m' c', send_startup junk page_size vfs_data (Z.of_nat (length vfs)) argv_buf params env m c = Ok (m', c') ∧
    StartParams.contents m' argv_buf (StartParams.bytes32 (Z.of_nat (length params))) ∧
    StartParams.packed m' (argv_buf + 4) (argv_buf + 4 + 4 * Z.of_nat (length params)) params ∧
    chan_holds c' (((StartParams.bytes32 (Z.of_nat (length vfs)) ++ vfs) ++
                    StartParams.bytes32 (Z.of_nat (length (Envp.packed kvs))) ++ Envp.packed kvs) ++
                   StartParams.bytes32 (Z.of_nat (length data)) ++ data).
Proof.
  intros Hj Hq Hv Hv0 Hv1 He Ha1 Ha2 Ha3 Ha4 Hp Hm Hlen data. pose proof (StartParams.strs_size_nonneg params) as Hs.
  assert (Hps : 0 < StartParams.packed_size params) by (unfold StartParams.packed_size; lia).
  unfold send_startup. destruct (send_Ok [] vfs c Hq) as (c1 & c2 & W1 & W2 & Q1); [simpl; lia|]. rewrite W1.
  cbn [mbind result_bind]. rewrite Nat2Z.id, (read_bytes_contents vfs m vfs_data Hv Hv0 Hv1). cbn [mbind result_bind].
  rewrite W2. cbn [mbind result_bind].
  assert (Hb0 : Envp.buf_rep (Envp.new_buffer junk 0) []).
  { split; [done|]. split; [|by eexists]. cbn [Envp.bytes Envp.capacity_ Envp.new_buffer]. by rewrite Envp.length_malloc. }
  destruct (Envp.Pack_env junk env kvs Hj He _ [] Hb0) as (b & -> & Hb); [simpl; lia|]. cbn [mbind result_bind app].
  pose proof Hb as (Hbs & Hbc & r & Hbr). cbn [app] in Hbs, Hbr. rewrite Hbs.
  destruct (send_Ok _ (Envp.packed kvs) c2 Q1) as (c3 & c4 & W3 & W4 & Q2); [cbn [app]; rewrite !length_app, Envp.length_bytes32; lia|].
  rewrite W3. cbn [mbind result_bind]. rewrite Hbr, Envp.slice_first by done. cbn [mbind result_bind]. rewrite W4.
  cbn [mbind result_bind]. rewrite StartParams.PackSize_Ok by lia.
  unfold Envp.Resize. cbn [Envp.size_ Envp.Clear]. rewrite (proj2 (Z.ltb_lt _ _)) by lia.
  destruct (Envp.ReserveIfNeeded_buf junk Hj (StartParams.packed_size params) (Envp.Clear b) []) as (b1 & -> & _ & _).
  { split; [done|]. split; [done|]. by exists (Envp.packed kvs ++ r). }
  { simpl. lia. }
  cbn [mbind result_bind Envp.size_ Envp.capacity_ Envp.bytes].
  destruct (StartParams.PackParams_Ok m page_size argv_buf params) as (m' & R & Cn & P); [done..|]. rewrite R.
  cbn [mbind result_bind]. pose proof (StartParams.length_pack_data params) as Hdl. fold data in Hdl. rewrite <- Hdl.
  destruct (send_Ok _ data c4 Q2) as (c5 & c6 & W5 & W6 & Q3).
  { cbn [app]. rewrite !length_app, !Envp.length_bytes32. rewrite !Nat2Z.inj_add, Hdl. lia. }
  rewrite W5. cbn [mbind result_bind].
  rewrite Nat2Z.id, (read_bytes_contents data m' argv_buf); [|by apply StartParams.pack_data_contents|done|lia].
  cbn [mbind result_bind]. rewrite W6. exists m', c6. split; [done|]. split; [done|]. split; [done|]. exact Q3.
Qed.

(** * Properties *)

(** The size of the table [environ] and of its strings. *)
Definition environ_size (kvs : list (list Z * list Z)) : Z :=
  4 * (Z.of_nat (length kvs) + 1) + StartParams.strs_size (Envp.entry_text <$> kvs).

(** The size of the child's second buffer, used for the environment and then for the arguments. *)
Definition buffer_size (kvs : list (list Z * list Z)) (params : list (list Z)) : Z :=
  Z.max (StartParams.packed_size params) (Z.max (Z.of_nat (length (Envp.packed kvs))) Envp.kDefaultCap).

(** Two ranges of addresses do not overlap. *)
Definition apart (p n q k : Z) : Prop := p + n ≤ q ∨ q + k ≤ p.

(** What the parent has: an archive (the bytes [vfs]) that stands for [new], a buffer for the
    arguments, an environment and arguments of sizes that a channel can hold. *)
Definition parent_ok (m : LibcString.memory) (page_size vfs_data argv_buf : Z) (vfs : list Z)
    (new : list (Ustar.path * Vfs.kind)) (params : list (list Z)) (env : Envp.envp) (kvs : list (list Z * list Z)) : Prop :=
  (∃ es, Ustar.archive_at m vfs_data es (vfs_data + Z.of_nat (length vfs)) ∧ Forall2 Ustar.stands_for es new) ∧
  StartParams.contents m vfs_data vfs ∧ Forall is_u8 vfs ∧ Ustar.growable (λ _, None) new ∧
  0 ≤ vfs_data ∧ vfs_data + Z.of_nat (length vfs) ≤ 2 ^ 32 ∧
  argv_buf mod 4 = 0 ∧ 0 ≤ argv_buf ∧ argv_buf + page_size < 2 ^ 32 ∧ StartParams.packed_size params < page_size ∧
  (∀ a, argv_buf ≤ a < argv_buf + StartParams.packed_size params → is_Some (m !! a)) ∧
  Forall (Forall (λ c, 0 < c < 256)) params ∧
  Envp.env_rep env kvs ∧ NoDup kvs.*1 ∧ Forall (λ kv, Forall is_u8 (Envp.entry_text kv)) kvs ∧
  12 + Z.of_nat (length vfs) + Z.of_nat (length (Envp.packed kvs)) + StartParams.packed_size params < 2 ^ 32.

(** What the child has: the literal, and allocations that do not overlap. *)
Definition child_ok (m : LibcString.memory) (lit vfs_buf vfs_size environ_buf environ_size argv_buf buffer_size : Z) : Prop :=
  StartParams.contents m lit Ustar.ustar_bytes ∧ 0 ≤ lit ∧ lit + 6 ≤ 2 ^ 32 ∧
  0 ≤ vfs_buf ∧ vfs_buf + vfs_size ≤ 2 ^ 32 ∧ 0 ≤ environ_buf ∧ environ_buf + environ_size ≤ 2 ^ 32 ∧ environ_size < 2 ^ 32 ∧
  argv_buf mod 4 = 0 ∧ 0 ≤ argv_buf ∧ argv_buf + buffer_size < 2 ^ 32 ∧
  apart lit 6 vfs_buf vfs_size ∧ apart vfs_buf vfs_size environ_buf environ_size ∧ apart vfs_buf vfs_size argv_buf buffer_size.

(** C11: A child starts with what its parent gave it.  Over any channel that keeps the order
    of the bytes, what [LoadElfProgram] sends is received by [__libc_start_main] of the
    child without a read that has to wait: the child's file system is the parent's archive
    (its files where the child has loaded them, with the parent's bytes), its environment has
    the parent's variables, and PATH if that was missing, its working directory is the one
    PWD names, [argv] points to the arguments, and nothing is left in the channel. *)
Theorem startup_hand_over {C} `{!StartChannel C} junk fuel page_size pm c vfs_data argv_buf vfs new params env kvs cs
    m lit vfs_buf environ_buf child_argv :
  (∀ n, (n ≤ length (junk n))%nat) → (0 < fuel)%nat → chan_holds c [] →
  parent_ok pm page_size vfs_data argv_buf vfs new params env kvs →
  starts_in (Ustar.grown (λ _, None) new) kvs cs →
  child_ok m lit vfs_buf (Z.of_nat (length vfs)) environ_buf (environ_size kvs) child_argv (buffer_size kvs params) →
  ∃ pm' c1 p c2,
    send_startup junk page_size vfs_data (Z.of_nat (length vfs)) argv_buf params env pm c = Ok (pm', c1) ∧
    libc_start_main junk fuel lit vfs_buf environ_buf child_argv m c1 =
      Ok ((Z.of_nat (length params), child_argv + 4), p, c2) ∧
    chan_holds c2 [] ∧ Vfs.wf_nodes (Proc.gGlobalFs p) ∧
    (∀ ds, Vfs.kind_at (Proc.gGlobalFs p) ds =
           shift_kind (vfs_buf - vfs_data) <$> Ustar.grown (λ _, None) new ds) ∧
    StartParams.contents (Proc.memory p) vfs_buf vfs ∧
    Vfs.names_at (Proc.gGlobalFs p) (Proc.gCurrentDir p) = Some cs ∧
    Envp.env_rep (Proc.gEnvp p) (with_path kvs) ∧
    ∀ i arg, params !! i = Some arg →
      ∃ a, StartParams.load32 (child_argv + 4 + 4 * Z.of_nat i) (Proc.memory p) = Ok (a, Proc.memory p) ∧
           LibcString.cstr (Proc.memory p) a arg.
Proof.
  intros Hj Hfuel Hq ((es & Har & Hst) & Hv & Hvu & Hg & Hv0 & Hv1 & Ha1 & Ha2 & Ha3 & Ha4 & Hm & Hpar & He & Hnd & Heu & Hlen) Hcs
    (Hl & Hl0 & Hl1 & Hb0 & Hb1 & He0 & He1 & He2 & Hc0 & Hc1 & Hc2 & Hd1 & Hd2 & Hd3).
  unfold apart in *. pose proof (StartParams.length_pack_data params) as Hpl.
  assert (Hpu : Forall (Forall is_u8) params).
  { eapply Forall_impl; [exact Hpar|]. intros p Hp. eapply Forall_impl; [exact Hp|]. intros ch Hch. simpl in Hch. unfold is_u8. lia. }
  destruct (send_startup_Ok junk page_size pm c vfs_data vfs argv_buf params env kvs) as (pm' & c1 & Rs & Cn & P & Q); [done..|].
  rewrite <- !app_assoc in Q.
  destruct (receive_Ok fuel vfs _ c1 Hfuel Q) as (c2 & Rv & Q2); [lia|].
  destruct (receive_Ok fuel (Envp.packed kvs) _ c2 Hfuel Q2) as (c3 & Re & Q3); [lia|].
  destruct (receive_Ok fuel (StartParams.pack_data params) [] c3 Hfuel) as (c4 & Ra & Q4); [by rewrite app_nil_r|lia|].
  destruct (start_fs_Ok pm vfs_data es _ new vfs lit vfs_buf m Har Hv) as (root & m1 & Rf & Hw & Hk & Hvb & K1); [lia|done..|].
  destruct (start_env_Ok junk kvs Hj) as (env' & b & Ren & Hen & Hte & Hbr & Hcap); [lia|done|].
  destruct (Envp.getPlainEnvp_Ok env' kvs m1 environ_buf Hen Heu He0 He1 He2) as (m2 & Rp & _ & _ & K2).
  destruct (start_dirs_Ok root env' kvs m2 cs Hw Hen Hte) as (env2 & pos & Rd & Hpos & Henv2).
  { unfold starts_in in *. destruct (path_value kvs _) as [v|]; [|done]. destruct Hcs as (? & ? & ? & [->|(? & Ht & ?)]);
      (split; [done|]; split; [done|]; split; [done|]); [by left|right]. split; [done|]. split; [|done]. by rewrite Hk, Ht. }
  destruct (start_args_Ok junk pm' argv_buf params (StartParams.pack_data params) child_argv b m2 Hj Hbr Cn P) as (m3 & Rar & Hargs & K3);
    [by apply StartParams.pack_data_contents|done|by apply StartParams.pack_data_u8|done|done|done| |].
  { rewrite Hpl, Hcap. exact Hc2. }
  rewrite Hpl, Hcap in K3. fold (buffer_size kvs params) in K3.
  exists pm', c1, (Proc.mkProc root pos env2 0 m3), c4. split; [exact Rs|]. split.
  { unfold libc_start_main. rewrite Rv. cbn [mbind result_bind]. rewrite Rf. cbn [mbind result_bind]. rewrite Re. cbn [mbind result_bind].
    rewrite Ren. cbn [mbind result_bind]. rewrite Rp. cbn [mbind result_bind]. rewrite Rd. cbn [mbind result_bind]. rewrite Ra.
    cbn [mbind result_bind Proc.memory]. by rewrite Rar. }
  do 3 (split; [done|]). split; [|done]. cbn [Proc.memory].
  eapply StartParams.contents_local; [|exact Hvb]. intros i Hi. rewrite K3, K2; [done|unfold environ_size in *; lia|lia].
Qed.

(** A parent whose archive has the root and the directory [/b], started [ls] in it over the kernel's channel 0. *)
Definition example_parent : LibcString.memory := LibcString.alloc 64 4096 Ustar.example_archive.
Definition example_vfs : list Z := Ustar.example_header [46; 47] ++ Ustar.example_header [46; 47; 98; 47] ++ replicate 1024 0.
Definition example_child : LibcString.memory := list_to_map (zip (seqZ 16 6) Ustar.ustar_bytes).

Lemma example_parent_Ok :
  parent_ok example_parent (2 ^ 22) 1024 4096 example_vfs Ustar.example_new [[108; 115]]
    [(of_cstr [80; 87; 68], of_cstr [47; 98])] [([80; 87; 68], [47; 98])].
Proof.
  assert (Hlow : ∀ a, a < 4096 → example_parent !! a = Ustar.example_archive !! a).
  { intros a Ha. unfold example_parent. rewrite LibcString.alloc_lookup.
    destruct (LibcString.in_range _ _ _) eqn:E; [apply LibcString.in_range_spec in E; lia|done]. }
  assert (Hlen : Z.of_nat (length example_vfs) = 2048) by (vm_compute; reflexivity).
  split; [|split; [|split; [|split]]].
  - exists Ustar.example_entries. split; [|exact Ustar.example_stands].
    rewrite Hlen. apply (archive_shift Ustar.example_archive example_parent 0 3072 1024) with (p := 1024)
      (es := Ustar.example_entries); [|lia|lia|exact Ustar.example_archive_Ok].
    intros a Ha. rewrite Z.add_0_r. apply Hlow. lia.
  - apply Ustar.contents_dec. vm_compute. reflexivity.
  - apply (Forall_impl (λ b, bool_decide (0 ≤ b < 2 ^ 8) = true)); [|intros b; rewrite bool_decide_eq_true; done].
    apply Forall_forall. intros x Hx. apply list_elem_of_In in Hx.
    assert (H : forallb (λ b, bool_decide (0 ≤ b < 2 ^ 8)) example_vfs = true) by (vm_compute; reflexivity).
    rewrite forallb_forall in H. by apply H.
  - exact Ustar.example_growable.
  - rewrite Hlen. repeat (split; [lia || done|]). split.
    { intros a Ha. change (StartParams.packed_size _) with 11 in Ha. unfold example_parent.
      rewrite LibcString.alloc_lookup, (proj2 (LibcString.in_range_spec _ _ _)) by lia. by eexists. }
    split; [by repeat constructor|]. split; [|split; [apply NoDup_singleton|split; [by repeat constructor|by vm_compute]]].
    apply Forall2_cons. split; [|constructor]. split; apply rep_text, of_cstr_rep.
Qed.

Lemma startup_hand_over_witness :
  ∃ pm' c1 p c2,
    @send_startup _ (kernel_channel 0 Channel.First) (λ n, replicate n 7) (2 ^ 22) 1024 2048 4096 [[108; 115]]
      [(of_cstr [80; 87; 68], of_cstr [47; 98])] example_parent Channel.example_state = Ok (pm', c1) ∧
    @libc_start_main _ (kernel_channel 0 Channel.First) (λ n, replicate n 7) 1 16 8192 16384 20480 example_child c1 =
      Ok ((1, 20484), p, c2) ∧
    Vfs.names_at (Proc.gGlobalFs p) (Proc.gCurrentDir p) = Some [[98]].
Proof.
  assert (Hlen : Z.of_nat (length example_vfs) = 2048) by (vm_compute; reflexivity).
  destruct (@startup_hand_over _ (kernel_channel 0 Channel.First) (λ n, replicate n 7) 1 (2 ^ 22) example_parent
    Channel.example_state 1024 4096 example_vfs Ustar.example_new [[108; 115]] [(of_cstr [80; 87; 68], of_cstr [47; 98])]
    [([80; 87; 68], [47; 98])] [[98]] example_child 16 8192 16384 20480)
    as (pm' & c1 & p & c2 & Rs & Rl & _ & _ & _ & _ & Hn & _).
  - intros n. by rewrite length_replicate.
  - lia.
  - exists Channel.example_channels. split; [apply Channel.example_rep|]. split; [apply Channel.example_linked; simpl; lia|].
    vm_compute. reflexivity.
  - apply example_parent_Ok.
  - split; [reflexivity|]. split; [by repeat constructor|]. split; [reflexivity|]. right. split; [done|].
    split; [reflexivity|]. split; [|split; [split; by eexists|done]].
    apply Forall_singleton. split; [apply (bool_decide_unpack _); by vm_compute|by eexists].
  - rewrite Hlen. split; [apply Ustar.contents_dec; vm_compute; reflexivity|]. unfold apart.
    change (environ_size _) with 15. change (buffer_size _ _) with 13. repeat (split; [lia || done|]). lia.
  - rewrite Hlen in Rs. exists pm', c1, p, c2. split; [exact Rs|]. split; [exact Rl|exact Hn].
Defined.

End Startup.
