(* ===== verification/Shell.v ===== *)
(** The interactive shell: userboot/shell.cpp.

    The state is the process, the keys that are still to be typed and what has been printed.
    [getchar] waits for a key; with no key left it would wait for ever, which is [NoFuel].
    Arrays on the stack have addresses, which are arguments; what [printf] prints for the
    formats used here is its argument's text (Printf.v models [printf] itself). *)
From S2P Require Import Prelude LibcString StartParams CxxString Vfs Ustar Envp Proc.
Import CxxString.CxxString.

Module Shell.

Record shell := mkShell { proc : Proc.proc; keys : list Z; screen : list Z }.

Definition set_proc (x : Proc.proc) (s : shell) := mkShell x (keys s) (screen s).
Definition set_keys (x : list Z) (s : shell) := mkShell (proc s) x (screen s).
Definition set_screen (x : list Z) (s : shell) := mkShell (proc s) (keys s) x.

Definition on_proc {A} (m : M Proc.proc A) : M shell A := zoom proc set_proc m.
Definition on_memory {A} (m : M LibcString.memory A) : M shell A := on_proc (Proc.on_memory m).

Definition kBuffSize : Z := 1024.
Definition TAB : Z := 9.
Definition CR : Z := 13.
Definition ESC : Z := 27.
Definition CSI : Z := 91.
Definition DEL : Z := 127.

(** A key is a [char], so that [EOF] is not a key of ASCII. *)
Definition getchar : M shell Z := λ s,
  match keys s with k :: ks => Ok (k, set_keys ks s) | [] => Fault NoFuel end.

Definition print (cs : list Z) : M shell unit := λ s, Ok (tt, set_screen (screen s ++ cs) s).
Definition putchar (c : Z) : M shell unit := print [u8 c].

Definition MoveLeft : M shell unit := putchar ESC;; putchar CSI;; putchar 68.

(** ** Completion *)
Section Complete.
  Context (junk : list Z).     (* the bytes of a new [dirent] *)
  Context (stack : Z).         (* the address of the [char buff[kBuffSize]] *)

Definition GetFilesInDir (dirname : string) : M shell (list string) :=
  name ← liftR (Proc.c_string (data_ dirname));
  mydir ← on_proc (Proc.opendir junk name);
  match mydir with
  | None => mret []
  | Some d => ns ← liftR (Proc.entries d); mret (of_cstr <$> ns)
  end.

(** [strncmp(other.c_str(), c_str(), other.size()) == 0]; [diff] is what [strncmp] returns. *)
Definition starts_with (this other : string) : bool :=
  if size this <? size other then false
  else LibcString.diff (take (Z.to_nat (size other)) (data_ other)) (take (Z.to_nat (size other)) (data_ this)) =? 0.

Definition add_files_in_dir (dirname prefix : string) (cmds : list string) : M shell (list string) :=
  files ← GetFilesInDir dirname;
  mret (cmds ++ filter (λ file, starts_with file prefix = true) files).

Fixpoint path_loop (fuel : nat) (cwd prefix : string) (cmds : list string) : M shell (list string) :=
  match fuel with
  | O => fail NoFuel
  | S fuel =>
      if empty cwd then mret cmds
      else
        sep ← liftR (find cwd 58 0);
        path ← liftR (substr cwd 0 sep);
        cmds ← add_files_in_dir path prefix cmds;
        if sep =? npos then mret cmds
        else cwd ← liftR (erase cwd (u32 (sep + 1)) npos); path_loop fuel cwd prefix cmds
  end.

(** [char buff[kBuffSize]{}] *)
Definition clear_buff : M shell unit :=
  on_memory (LibcString.memset stack 0 kBuffSize);; mret tt.

Definition GetRunnableCommands (prefix : string) : M shell (list string) :=
  env ← gets (λ s, Proc.gEnvp (proc s));
  cwd_ ← liftR (Envp.getenv env Proc.kPATHEnv);
  cmds ← match cwd_ with
         | Some chars =>
             c ← liftR (Proc.c_string chars);
             path_loop (S (length c)) (of_cstr c) prefix []
         | None => mret []
         end;
  clear_buff;;
  r ← on_proc (Proc.getcwd stack kBuffSize);
  if tobool r then
    d ← on_memory (Ustar.read_cstr stack);
    add_files_in_dir (of_cstr d) prefix cmds
  else mret cmds.

(** Every round removes a character. *)
Fixpoint ltrim_loop (fuel : nat) (s : string) : result string :=
  match fuel with
  | O => Fault NoFuel
  | S fuel =>
      if empty s then Ok s
      else c ← at_ s 0;
           if LibcString.isspace c then s ← erase s 0 1; ltrim_loop fuel s else Ok s
  end.

Definition LTrimWhitespace (s : string) : result string := ltrim_loop (S (Z.to_nat (size s))) s.

Definition PrintPS1 : M shell unit :=
  clear_buff;;
  r ← on_proc (Proc.getcwd stack kBuffSize);
  if negb (tobool r) then mret tt
  else d ← on_memory (Ustar.read_cstr stack); print (d ++ [32; 36; 32]).

Fixpoint print_commands (cmds : list string) : M shell unit :=
  match cmds with
  | [] => mret tt
  | cmd :: cmds => c ← liftR (Proc.c_string (data_ cmd)); print (c ++ [32; 32]);; print_commands cmds
  end.

Definition TryAutocomplete (buffer size : Z) : M shell Z :=
  bs ← on_memory (Ustar.read_bytes (Z.to_nat size) buffer);
  prefix ← liftR (of_buffer bs size);
  prefix ← liftR (LTrimWhitespace prefix);
  if empty prefix then mret 0
  else
    cmds ← GetRunnableCommands prefix;
    match cmds with
    | [] => mret 0
    | [cmd] =>
        remaining ← liftR (substr cmd (CxxString.size prefix) npos);
        bs ← liftR (Envp.c_bytes cmd);
        on_memory (StartParams.store_list buffer bs);;
        r ← liftR (Proc.c_string (data_ remaining)); print r;;
        mret (CxxString.size remaining)
    | _ =>
        print [10];; print_commands cmds;; print [10];; PrintPS1;;
        p ← liftR (Proc.c_string (data_ prefix)); print p;;
        mret 0
    end.

(** ** Reading a line *)

(** [start] is [buff_start]; every round takes a key. *)
Fixpoint read_loop (fuel : nat) (start buffer : Z) : M shell unit :=
  match fuel with
  | O => fail NoFuel
  | S fuel =>
      c ← getchar;
      assert_ (negb (c =? -1));;
      if c =? CR then on_memory (LibcString.store buffer 0);; putchar 10
      else if c =? DEL then
        if buffer <=? start then read_loop fuel start buffer
        else MoveLeft;; putchar 32;; MoveLeft;; read_loop fuel start (buffer - 1)
      else if c =? TAB then
        adj ← TryAutocomplete start (buffer - start);
        read_loop fuel start (buffer + adj)
      else
        on_memory (LibcString.store buffer c);;
        putchar c;;
        read_loop fuel start (buffer + 1)
  end.

Definition DebugRead (buffer : Z) : M shell unit :=
  fuel ← gets (λ s, S (length (keys s)));
  read_loop fuel buffer buffer.
End Complete.

(** ** The arguments *)
Fixpoint skip_spaces (fuel : nat) (buff : Z) : M LibcString.memory Z :=
  match fuel with
  | O => fail NoFuel
  | S fuel =>
      c ← LibcString.load buff;
      if tobool c && LibcString.isspace c then skip_spaces fuel (buff + 1) else mret buff
  end.

Fixpoint skip_word (fuel : nat) (buff : Z) : M LibcString.memory Z :=
  match fuel with
  | O => fail NoFuel
  | S fuel =>
      c ← LibcString.load buff;
      if tobool c && negb (LibcString.isspace c) then skip_word fuel (buff + 1) else mret buff
  end.

(** A round ends a word or skips a space, so that the mapped bytes bound their number. *)
Fixpoint argv_loop (fuel : nat) (buff : Z) (argv : list Z) : M LibcString.memory (list Z) :=
  match fuel with
  | O => fail NoFuel
  | S fuel =>
      c ← LibcString.load buff;
      if tobool c then
        if LibcString.isspace c then LibcString.store buff 0;; argv_loop fuel (buff + 1) argv
        else
          n ← gets LibcString.fuel_of;
          e ← skip_word n buff;
          argv_loop fuel e (argv ++ [buff])
      else mret argv
  end.

(** The table, ended by a null pointer, and [path_arg]. *)
Definition TransformIntoArgv (buff : Z) : M LibcString.memory (list Z * Z) :=
  fuel ← gets LibcString.fuel_of;
  buff ← skip_spaces fuel buff;
  argv ← argv_loop fuel buff [];
  mret (argv ++ [0], buff).

(** ** A round of [main] *)
Inductive outcome :=
  | Blank                             (* nothing but white space *)
  | CdIgnored                         (* [cd] without an argument *)
  | CdTooMany
  | Cd (res errno : Z)
  | NotFound
  | Launched (l : Proc.launch).       (* then [wait] *)

Fixpoint read_args (ptrs : list Z) : M LibcString.memory (list (list Z)) :=
  match ptrs with
  | [] => mret []
  | a :: ptrs => if a =? 0 then mret [] else s ← Ustar.read_cstr a; ss ← read_args ptrs; mret (s :: ss)
  end.

Section Main.
  Context (junk : list Z) (stack buff : Z) (ustar_literal raw_vfs aligned : Z).

(** [strcmp(path, "cd") == 0], on the characters. *)
Definition is_cd (path : list Z) : bool := LibcString.diff path [99; 100] =? 0.

Definition run_command (argv : list Z) (path : Z) : M shell outcome :=
  p ← on_memory (Ustar.read_cstr path);
  if is_cd p then
    if (length argv =? 2)%nat then mret CdIgnored
    else if negb (length argv =? 3)%nat then
      print [99; 100; 58; 32; 116; 111; 111; 32; 109; 97; 110; 121; 32; 97; 114; 103; 117; 109; 101; 110; 116; 115; 10];;
      mret CdTooMany
    else
      a ← liftR (aread argv 1);
      arg ← on_memory (Ustar.read_cstr a);
      res ← on_proc (Proc.chdir arg);
      e ← gets (λ s, Proc.errno (proc s));
      (if negb (res =? 0) then
         print ([99; 100; 58; 32] ++ arg ++
                (if e =? Proc.ENOTDIR
                 then [58; 32; 78; 111; 116; 32; 97; 32; 100; 105; 114; 101; 99; 116; 111; 114; 121; 10]
                 else [58; 32; 78; 111; 32; 115; 117; 99; 104; 32; 102; 105; 108; 101; 32; 111; 114; 32;
                       100; 105; 114; 101; 99; 116; 111; 114; 121; 10]))
       else mret tt);;
      mret (Cd res e)
  else
    args ← on_memory (read_args argv);
    r ← on_proc (Proc.execv ustar_literal raw_vfs aligned p args);
    match r with
    | (_, Some l) => mret (Launched l)
    | (_, None) =>
        print (p ++ [58; 32; 99; 111; 109; 109; 97; 110; 100; 32; 110; 111; 116; 32; 102; 111; 117; 110; 100; 10]);;
        mret NotFound
    end.

Definition main_round : M shell outcome :=
  PrintPS1 stack;;
  DebugRead junk stack buff;;
  r ← on_memory (TransformIntoArgv buff);
  let '(argv, path) := r in
  if (length argv =? 1)%nat then mret Blank
  else run_command argv path.
End Main.

(** * Lemmas *)

(** ** Words *)

(** The words of a line; [cur] is the one that has been started. *)
Definition flush (cur : list Z) : list (list Z) := match cur with [] => [] | _ => [cur] end.

Fixpoint words_from (cur l : list Z) : list (list Z) :=
  match l with
  | [] => flush cur
  | c :: l => if LibcString.isspace c then flush cur ++ words_from [] l else words_from (cur ++ [c]) l
  end.

Definition words (l : list Z) : list (list Z) := words_from [] l.

Definition wordly (l : list Z) : Prop := Forall (λ c, LibcString.isspace c = false) l.

(** A line is a word and what follows it. *)
Lemma split_word l : ∃ w rest, l = w ++ rest ∧ wordly w ∧ (rest = [] ∨ ∃ s r, rest = s :: r ∧ LibcString.isspace s = true).
Proof.
  induction l as [|c l (w & rest & -> & Hw & Hr)]; [exists [], []; repeat split; [constructor|by left]|].
  destruct (LibcString.isspace c) eqn:E.
  - exists [], (c :: w ++ rest). repeat split; [constructor|]. right. by eexists _, _.
  - exists (c :: w), rest. repeat split; [by constructor|done].
Qed.

Lemma words_from_word w : ∀ cur rest, wordly w → words_from cur (w ++ rest) = words_from (cur ++ w) rest.
Proof.
  induction w as [|c w IH]; intros cur rest Hw; cbn [app words_from]; [by rewrite app_nil_r|].
  apply Forall_cons in Hw as [-> Hw]. rewrite IH by done. by rewrite <- app_assoc.
Qed.

Lemma words_space s l : LibcString.isspace s = true → words (s :: l) = words l.
Proof. intros H. unfold words. cbn [words_from]. by rewrite H. Qed.

Lemma words_word w rest : wordly w → w ≠ [] → (rest = [] ∨ ∃ s r, rest = s :: r ∧ LibcString.isspace s = true) →
  words (w ++ rest) = w :: words rest.
Proof.
  intros Hw Hne Hr. unfold words. rewrite words_from_word by done. destruct w as [|c w]; [done|]. cbn [app].
  destruct Hr as [->|(s & r & -> & Hs)]; cbn [words_from flush]; [done|]. by rewrite Hs.
Qed.

(** ** Strings in memory *)
Lemma cstr_app m w rest p : LibcString.cstr m p (w ++ rest) → LibcString.cstr m (p + Z.of_nat (length w)) rest.
Proof.
  intros H. pose proof (LibcString.cstr_drop m p (w ++ rest) (length w) H ltac:(rewrite length_app; lia)) as Hd.
  by rewrite drop_app_length in Hd.
Qed.

Lemma cstr_local m m' s : ∀ p, (∀ a, p ≤ a ≤ p + Z.of_nat (length s) → m' !! a = m !! a) →
  LibcString.cstr m p s → LibcString.cstr m' p s.
Proof.
  induction s as [|c s IH]; intros p Ha H; cbn [LibcString.cstr length] in *; destruct H as [Hp H]; (split; [done|]).
  - rewrite Ha by lia. done.
  - destruct H as (Hc & Hr & H). split; [rewrite Ha by lia; done|]. split; [done|]. apply IH; [|done]. intros a Hin. apply Ha. lia.
Qed.

(** The characters are cut off by a zero. *)
Lemma cstr_cut m m' w rest : ∀ p, LibcString.cstr m p (w ++ rest) →
  (∀ a, p ≤ a < p + Z.of_nat (length w) → m' !! a = m !! a) → m' !! (p + Z.of_nat (length w)) = Some 0 →
  LibcString.cstr m' p w.
Proof.
  induction w as [|c w IH]; intros p H Ha Hz; cbn [app length LibcString.cstr] in *.
  - rewrite Z.add_0_r in Hz. split; [by eapply LibcString.cstr_range|done].
  - destruct H as (Hp & Hc & Hr & H). split; [done|]. split; [rewrite Ha by lia; done|]. split; [done|].
    apply IH; [done| |]; [intros a Hin; apply Ha; lia|]. by replace (p + 1 + Z.of_nat (length w)) with (p + Z.of_nat (S (length w))) by lia.
Qed.

Lemma skip_word_Ok m w rest : wordly w → (rest = [] ∨ ∃ s r, rest = s :: r ∧ LibcString.isspace s = true) → ∀ fuel p,
  LibcString.cstr m p (w ++ rest) → (length w < fuel)%nat → skip_word fuel p m = Ok (p + Z.of_nat (length w), m).
Proof.
  intros Hw Hr. induction Hw as [|c w Hc Hw IH]; intros fuel p H Hf; (destruct fuel as [|fuel]; [simpl in Hf; lia|]); cbn [skip_word app] in *.
  - rewrite (bind_Ok _ _ _ _ _ (LibcString.cstr_load _ _ _ H)), Z.add_0_r. destruct Hr as [->|(s & r & -> & Hs)]; [done|].
    change (default 0 (head (s :: r))) with s. rewrite Hs. cbn [negb]. by rewrite andb_false_r.
  - rewrite (bind_Ok _ _ _ _ _ (LibcString.cstr_load _ _ _ H)). change (default 0 (head (c :: w ++ rest))) with c.
    destruct H as (_ & _ & Hr0 & H). rewrite (LibcString.tobool_char c Hr0), Hc. cbn [negb andb length].
    rewrite (IH fuel (p + 1) H) by (simpl in Hf; lia). do 2 f_equal. lia.
Qed.

Lemma skip_spaces_Ok m l : ∀ fuel p, LibcString.cstr m p l → (length l < fuel)%nat →
  ∃ i, (i ≤ length l)%nat ∧ skip_spaces fuel p m = Ok (p + Z.of_nat i, m) ∧ words (drop i l) = words l ∧
       (∀ c, head (drop i l) = Some c → LibcString.isspace c = false).
Proof.
  induction l as [|c l IH]; intros fuel p H Hf; (destruct fuel as [|fuel]; [simpl in Hf; lia|]); cbn [skip_spaces];
    rewrite (bind_Ok _ _ _ _ _ (LibcString.cstr_load _ _ _ H)).
  - exists 0%nat. rewrite Z.add_0_r. done.
  - change (default 0 (head (c :: l))) with c. destruct H as (_ & _ & Hr0 & H). rewrite (LibcString.tobool_char c Hr0). cbn [andb].
    destruct (LibcString.isspace c) eqn:E.
    + destruct (IH fuel (p + 1) H) as (i & Hi & R & Hw & Hh); [simpl in Hf; lia|]. exists (S i). split; [simpl; lia|].
      split; [rewrite R; do 2 f_equal; lia|]. split; [by rewrite words_space|done].
    + exists 0%nat. split; [lia|]. rewrite Z.add_0_r. split; [done|]. split; [done|]. by intros c' [= <-].
Qed.

Lemma store_mapped m p b c : m !! p = Some c → is_u32 p → LibcString.store p b m = Ok (tt, <[p := u8 b]> m).
Proof. intros Hc Hp. unfold LibcString.store. by rewrite u32_id, Hc. Qed.

(** The loop: a pointer for every word, which is a string afterwards. *)
Lemma argv_loop_Ok n : ∀ l fuel m p argv,
  (length l ≤ n)%nat → (length l < fuel)%nat → LibcString.cstr m p l →
  ∃ m' ptrs, argv_loop fuel p argv m = Ok (argv ++ ptrs, m') ∧ Forall2 (LibcString.cstr m') ptrs (words l) ∧
    (∀ c, head l = Some c → LibcString.isspace c = false → head ptrs = Some p) ∧
    (∀ a, ¬ (p ≤ a < p + Z.of_nat (length l)) → m' !! a = m !! a).
Proof.
  induction n as [|n IH]; intros l fuel m p argv Hn Hf H;
    (destruct fuel as [|fuel]; [lia|]); cbn [argv_loop]; rewrite (bind_Ok _ _ _ _ _ (LibcString.cstr_load _ _ _ H)).
  { destruct l; [|simpl in Hn; lia]. exists m, []. rewrite app_nil_r. split; [done|]. split; [constructor|done]. }
  destruct (split_word l) as (w & rest & -> & Hw & Hr).
  assert (Hsp : ∀ s r q argv0 fuel0 m0, LibcString.cstr m0 q (s :: r) → (length r ≤ n)%nat → (length r < fuel0)%nat →
    LibcString.isspace s = true →
    ∃ m' ptrs, (LibcString.store q 0;; argv_loop fuel0 (q + 1) argv0) m0 = Ok (argv0 ++ ptrs, m') ∧
      Forall2 (LibcString.cstr m') ptrs (words r) ∧ m' !! q = Some 0 ∧
      (∀ a, ¬ (q ≤ a < q + 1 + Z.of_nat (length r)) → m' !! a = m0 !! a)).
  { intros s r q argv0 fuel0 m0 (Hq & Hs & Hc & Hcs) Hn0 Hf0 Hsp.
    rewrite (bind_Ok _ _ _ _ _ (store_mapped m0 q 0 s Hs Hq)). change (u8 0) with 0.
    destruct (IH r fuel0 (<[q := 0]> m0) (q + 1) argv0 Hn0 Hf0) as (m' & ptrs & R & Hp & _ & K).
    { eapply cstr_local; [|exact Hcs]. intros a Ha. apply lookup_insert_ne. lia. }
    exists m', ptrs. split; [done|]. split; [done|]. split; [rewrite K by lia; apply lookup_insert_eq|].
    intros a Ha. rewrite K by lia. apply lookup_insert_ne. lia. }
  destruct w as [|c w].
  - cbn [app] in *. destruct Hr as [->|(s & r & -> & Hs)].
    { exists m, []. rewrite app_nil_r. split; [done|]. split; [constructor|done]. }
    change (default 0 (head (s :: r))) with s. pose proof H as (_ & _ & Hc & _). rewrite (LibcString.tobool_char s Hc), Hs.
    cbn [length] in *. destruct (Hsp s r p argv fuel m H) as (m' & ptrs & R & Hp & _ & K); [lia|lia|done|].
    exists m', ptrs. split; [exact R|]. rewrite words_space by done. split; [done|]. split; [by intros ? [= <-]; rewrite Hs|].
    intros a Ha. apply K. lia.
  - change (default 0 (head ((c :: w) ++ rest))) with c. pose proof H as (_ & _ & Hc & _).
    pose proof Hw as Hw'. apply Forall_cons in Hw as [Hcs Hw]. rewrite (LibcString.tobool_char c Hc), Hcs.
    erewrite bind_Ok by done. pose proof (LibcString.cstr_fuel _ _ _ H) as Hfuel. rewrite length_app in Hfuel, Hn, Hf. 
    rewrite (bind_Ok _ _ _ _ _ (skip_word_Ok m (c :: w) rest Hw' Hr (LibcString.fuel_of m) p H ltac:(lia))).
    rewrite words_word by done. pose proof (cstr_app _ _ _ _ H) as Hrest. destruct Hr as [->|(s & r & -> & Hs)].
    + destruct fuel as [|fuel]; [simpl in Hf; lia|]. cbn [argv_loop].
      rewrite (bind_Ok _ _ _ _ _ (LibcString.cstr_load _ _ _ Hrest)). cbn [head default tobool Z.eqb negb].
      exists m, [p]. split; [done|]. split; [|done]. rewrite app_nil_r in H. apply Forall2_cons. split; [done|constructor].
    + destruct fuel as [|fuel]; [simpl in Hf; lia|]. cbn [argv_loop].
      rewrite (bind_Ok _ _ _ _ _ (LibcString.cstr_load _ _ _ Hrest)). change (default 0 (head (s :: r))) with s.
      pose proof Hrest as (_ & _ & Hsc & _). rewrite (LibcString.tobool_char s Hsc), Hs. cbn [length] in *.
      destruct (Hsp s r _ (argv ++ [p]) fuel m Hrest) as (m' & ptrs & R & Hp & Hz & K); [lia|lia|done|].
      exists m', (p :: ptrs). split; [rewrite R, <- app_assoc; done|]. rewrite words_space by done. split; [|split; [done|]].
      * apply Forall2_cons. split; [|done]. apply (cstr_cut m m' (c :: w) (s :: r)); [done| |done].
        intros a Ha. apply K. cbn [length] in *. lia.
      * intros a Ha. apply K. rewrite length_app in Ha. cbn [length] in *. lia.
Qed.

(** The table has a pointer per word; [path_arg] is the first of them. *)
Lemma TransformIntoArgv_Ok m buff l :
  LibcString.cstr m buff l →
  ∃ m' ptrs path, TransformIntoArgv buff m = Ok ((ptrs ++ [0], path), m') ∧
    Forall2 (LibcString.cstr m') ptrs (words l) ∧ (∀ a, head ptrs = Some a → path = a) ∧
    (∀ a, ¬ (buff ≤ a < buff + Z.of_nat (length l)) → m' !! a = m !! a).
Proof.
  intros H. unfold TransformIntoArgv. erewrite bind_Ok by done. pose proof (LibcString.cstr_fuel _ _ _ H) as Hf.
  destruct (skip_spaces_Ok m l (LibcString.fuel_of m) buff H Hf) as (i & Hi & R & Hw & Hh). rewrite (bind_Ok _ _ _ _ _ R).
  pose proof (LibcString.cstr_drop m buff l i H Hi) as Hd.
  destruct (argv_loop_Ok (length (drop i l)) (drop i l) (LibcString.fuel_of m) m (buff + Z.of_nat i) [] ltac:(done)) as (m' & ptrs & Ra & Hp & Hfirst & K);
    [rewrite length_drop; lia|done|].
  rewrite (bind_Ok _ _ _ _ _ Ra). exists m', ptrs, (buff + Z.of_nat i). split; [done|]. rewrite Hw in Hp. split; [done|]. split.
  - intros a Ha. destruct (drop i l) as [|c r] eqn:E.
    + apply Forall2_length in Hp. rewrite <- Hw in Hp. by destruct ptrs.
    + rewrite (Hfirst c eq_refl (Hh c eq_refl)) in Ha. by injection Ha as <-.
  - intros a Ha. apply K. rewrite length_drop. lia.
Qed.

(** ** Typing a line *)

(** What a key does to the line: backspace removes the last character, if there is one. *)
Definition edit (line : list Z) (k : Z) : list Z := if k =? DEL then removelast line else line ++ [k].

(** A character that is not one of the keys with a meaning (a backspace aside). *)
Definition plain_key (k : Z) : Prop := 0 < k < 128 ∧ k ≠ CR ∧ k ≠ TAB.

Lemma store_byte m start n line c :
  StartParams.writable m start n → Z.of_nat (length line) < n → is_u8 c → StartParams.contents m start line →
  ∃ m', LibcString.store (start + Z.of_nat (length line)) c m = Ok (tt, m') ∧
    StartParams.contents m' start (line ++ [c]) ∧ StartParams.changed m m' start n ∧ StartParams.writable m' start n.
Proof.
  intros (H0 & H1 & Hw) Hn Hc Hcon. destruct (Hw (start + Z.of_nat (length line))) as [b Hb]; [lia|].
  eexists. split; [apply (store_mapped m _ c b Hb); unfold is_u32; lia|]. rewrite u8_id by done.
  assert (K : ∀ a, is_Some (m !! a) → is_Some (<[start + Z.of_nat (length line) := c]> m !! a)).
  { intros a Ha. apply lookup_insert_is_Some'. by right. }
  split; [|split; [split; [|done]|split; [done|split; [done|]]]].
  - apply StartParams.contents_app. split.
    + eapply StartParams.contents_local; [|exact Hcon]. intros i Hi. apply lookup_insert_ne. lia.
    + apply StartParams.contents_cons. split; [apply lookup_insert_eq|apply StartParams.contents_nil].
  - intros a Ha. apply lookup_insert_ne. lia.
  - intros a Ha. apply K, Hw, Ha.
Qed.

Lemma changed_trans m m1 m2 p n : StartParams.changed m m1 p n → StartParams.changed m1 m2 p n → StartParams.changed m m2 p n.
Proof. intros [H1 K1] [H2 K2]. split; [intros a Ha; rewrite H2, H1 by done; done|auto]. Qed.

Lemma contents_removelast m p l : StartParams.contents m p l → StartParams.contents m p (removelast l).
Proof.
  destruct l as [|x l _] using rev_ind; [done|]. rewrite removelast_last. intros H. by apply StartParams.contents_app in H as [H _].
Qed.

Lemma removelast_length {A} (l : list A) : l ≠ [] → (length (removelast l) = length l - 1)%nat.
Proof. destruct l as [|x l _] using rev_ind; [done|]. rewrite removelast_last, length_app. simpl. lia. Qed.

Lemma Forall_removelast {A} (P : A → Prop) l : Forall P l → Forall P (removelast l).
Proof.
  destruct l as [|x l _] using rev_ind; [done|]. rewrite removelast_last. intros H. by apply Forall_app in H as [H _].
Qed.

Lemma read_loop_Ok junk stack start n ks : ∀ fuel p scr line rest,
  (length ks < fuel)%nat → Forall plain_key ks → Forall (λ c, 0 < c < 256) line →
  StartParams.contents (Proc.memory p) start line → StartParams.writable (Proc.memory p) start n →
  (∀ i, (i ≤ length ks)%nat → Z.of_nat (length (foldl edit line (take i ks))) < n) →
  ∃ m' scr', read_loop junk stack fuel start (start + Z.of_nat (length line)) (mkShell p (ks ++ CR :: rest) scr) =
      Ok (tt, mkShell (Proc.set_memory m' p) rest scr') ∧
    LibcString.cstr m' start (foldl edit line ks) ∧ StartParams.changed (Proc.memory p) m' start n.
Proof.
  induction ks as [|k ks IH]; intros fuel p scr line rest Hf Hk Hl Hc Hw Hfit; (destruct fuel as [|fuel]; [simpl in Hf; lia|]);
    cbn [read_loop app]; erewrite bind_Ok by done; pose proof (Hfit 0%nat ltac:(lia)) as Hline; cbn [take foldl] in Hline.
  - change (CR =? -1) with false. change (CR =? CR) with true. cbn [negb]. erewrite bind_Ok by done.
    destruct (store_byte (Proc.memory p) start n line 0 Hw Hline ltac:(done) Hc) as (m' & R & Hc' & Hch & _).
    exists m', (scr ++ [10]). split; [|split; [|done]].
    + unfold on_memory, on_proc, Proc.on_memory. munfold. cbn [proc set_keys]. by rewrite R.
    + destruct Hw as (H0 & H1 & _). cbn [foldl]. apply StartParams.contents_cstr; [done|lia|done|done].
  - apply Forall_cons in Hk as [(Hk & Hcr & Htab) Hks]. rewrite (proj2 (Z.eqb_neq k (-1))) by lia. cbn [negb].
    erewrite bind_Ok by done. rewrite (proj2 (Z.eqb_neq k CR) Hcr). cbn [foldl].
    assert (Hfit' : ∀ i, (i ≤ length ks)%nat → Z.of_nat (length (foldl edit (edit line k) (take i ks))) < n).
    { intros i Hi. specialize (Hfit (S i) ltac:(simpl; lia)). exact Hfit. }
    assert (Ed : edit line k = if k =? DEL then removelast line else line ++ [k]) by done. rewrite Ed in Hfit' |- *. clear Ed.
    destruct (Z.eqb_spec k DEL) as [->|Hdel].
    + destruct line as [|x line _] using rev_ind.
      * destruct (Z.leb_spec (start + Z.of_nat (length (@nil Z))) start); [|simpl in *; lia].
        exact (IH fuel p scr [] rest ltac:(simpl in Hf; lia) Hks Hl Hc Hw Hfit').
      * rewrite length_app. cbn [length]. destruct (Z.leb_spec (start + Z.of_nat (length line + 1)) start); [lia|].
        rewrite removelast_last in *. apply StartParams.contents_app in Hc as [Hc _]. apply Forall_app in Hl as [Hl _].
        replace (start + Z.of_nat (length line + 1) - 1) with (start + Z.of_nat (length line)) by lia.
        do 3 (erewrite bind_Ok by done). exact (IH fuel p _ line rest ltac:(simpl in Hf; lia) Hks Hl Hc Hw Hfit').
    + rewrite (proj2 (Z.eqb_neq k TAB) Htab).
      destruct (store_byte (Proc.memory p) start n line k Hw Hline ltac:(unfold is_u8; lia) Hc) as (m1 & R & Hc1 & Hch1 & Hw1).
      erewrite bind_Ok.
      2:{ unfold on_memory, on_proc, Proc.on_memory. munfold. cbn [proc set_keys]. by rewrite R. }
      erewrite bind_Ok by done.
      destruct (IH fuel (Proc.set_memory m1 p) (scr ++ [u8 k]) (line ++ [k]) rest) as (m' & scr' & R' & Hcs & Hch);
        [simpl in Hf; lia|done| |exact Hc1|exact Hw1|done|].
      { apply Forall_app. split; [done|]. apply Forall_singleton. lia. }
      exists m', scr'. split; [|split; [done|by eapply changed_trans]].
      rewrite length_app, Nat2Z.inj_add, Z.add_assoc in R'. exact R'.
Qed.

(** ** Commands *)
Lemma read_args_Ok m ptrs ws : Forall2 (LibcString.cstr m) ptrs ws → Forall (λ a, a ≠ 0) ptrs →
  read_args (ptrs ++ [0]) m = Ok (ws, m).
Proof.
  induction 1 as [|a w ptrs ws Ha H IH]; intros Hn; [done|]. apply Forall_cons in Hn as [Hn0 Hn]. cbn [read_args app].
  rewrite (proj2 (Z.eqb_neq a 0) Hn0), (bind_Ok _ _ _ _ _ (Ustar.read_cstr_Ok _ _ _ Ha)), (bind_Ok _ _ _ _ _ (IH Hn)). done.
Qed.

Lemma on_memory_run {A} (f : M LibcString.memory A) s a : 
  f (Proc.memory (proc s)) = Ok (a, Proc.memory (proc s)) → on_memory f s = Ok (a, s).
Proof.
  intros H. unfold on_memory, on_proc, Proc.on_memory, zoom. rewrite H. by destruct s as [[] ? ?].
Qed.

Lemma on_proc_run {A} (f : M Proc.proc A) s a p : f (proc s) = Ok (a, p) → on_proc f s = Ok (a, set_proc p s).
Proof. intros H. unfold on_proc, zoom. by rewrite H. Qed.

(** [execv] of a path that leads to no file. *)
Lemma execv_fails lit raw aligned path argv p f r :
  Proc.fs_of p = Ok f → Vfs.GetNodeFromPath f (of_cstr path) = Ok r →
  (∀ pos n, r = Some pos → Vfs.node_at (Vfs.root f) pos = Some n → Vfs.isFile n = false) →
  Proc.execv lit raw aligned path argv p = Ok ((-1, None), Proc.set_errno Proc.EACCES p).
Proof.
  intros Hf Hr Hn. unfold Proc.execv, Proc.ExecImpl. erewrite bind_Ok by done.
  rewrite (bind_Ok _ _ _ _ _ (Proc.GetNodeFromPath_run p f path r Hf Hr)). erewrite bind_Ok by done. rewrite Hf.
  erewrite bind_Ok by done. destruct r as [pos|]; [|done]. destruct (Vfs.node_at (Vfs.root f) pos) as [[]|] eqn:E; [|done|done].
  by specialize (Hn pos _ eq_refl E).
Qed.

(** * Properties *)

(** C29: What is typed is what is run.  For any keys that are characters or backspaces,
    ended by return, the shell reads the line that they edit (a backspace takes back the
    last character, on an empty line nothing), leaves the keys behind the return alone, and
    splits the line into the table of its words (maximal runs of characters that are not
    white space): one pointer per word, to the word as a C string, and a null pointer, with
    [path_arg] the first; nothing but the buffer's [n] bytes changes, provided that the
    line never has [n] characters. *)
Theorem typed_line_becomes_argv junk stack buff n ks rest p scr :
  Forall plain_key ks → StartParams.writable (Proc.memory p) buff n →
  (∀ i, (i ≤ length ks)%nat → Z.of_nat (length (foldl edit [] (take i ks))) < n) →
  ∃ m' scr' ptrs path,
    (DebugRead junk stack buff;; on_memory (TransformIntoArgv buff)) (mkShell p (ks ++ CR :: rest) scr) =
      Ok ((ptrs ++ [0], path), mkShell (Proc.set_memory m' p) rest scr') ∧
    Forall2 (LibcString.cstr m') ptrs (words (foldl edit [] ks)) ∧ (∀ a, head ptrs = Some a → path = a) ∧
    (∀ a, ¬ (buff ≤ a < buff + n) → m' !! a = Proc.memory p !! a).
Proof.
  intros Hk Hw Hfit.
  destruct (read_loop_Ok junk stack buff n ks (S (length (ks ++ CR :: rest))) p scr [] rest) as (m1 & scr1 & R & Hc & Hch & _);
    [rewrite length_app; lia|done|constructor|apply StartParams.contents_nil|done|done|].
  destruct (TransformIntoArgv_Ok m1 buff _ Hc) as (m' & ptrs & path & Rt & Hp & Hh & K).
  exists m', scr1, ptrs, path. split; [|split; [done|split; [done|]]].
  - erewrite bind_Ok.
    2:{ unfold DebugRead. erewrite bind_Ok by done. cbn [keys]. cbn [length] in R. rewrite Z.add_0_r in R. exact R. }
    unfold on_memory, on_proc, Proc.on_memory, zoom. cbn [proc Proc.memory Proc.set_memory]. rewrite Rt. done.
  - specialize (Hfit (length ks) ltac:(lia)). rewrite take_ge in Hfit by lia.
    intros a Ha. rewrite K by lia. by apply Hch.
Qed.

(** [" lx<DEL>s /b"] *)
Lemma typed_line_becomes_argv_witness :
  ∃ m' scr' a b,
    (DebugRead [] 0 100;; on_memory (TransformIntoArgv 100))
      (mkShell (Proc.mkProc [] [] [] 0 (LibcString.alloc 16 100 ∅)) ([32; 108; 120; 127; 115; 32; 47; 98] ++ [13; 120]) []) =
      Ok (([a; b; 0], a), mkShell (Proc.mkProc [] [] [] 0 m') [120] scr') ∧
    LibcString.cstr m' a [108; 115] ∧ LibcString.cstr m' b [47; 98].
Proof.
  destruct (typed_line_becomes_argv [] 0 100 16 [32; 108; 120; 127; 115; 32; 47; 98] [120]
    (Proc.mkProc [] [] [] 0 (LibcString.alloc 16 100 ∅)) []) as (m' & scr' & ptrs & path & R & Hp & Hh & _).
  - repeat constructor; unfold CR, TAB; lia.
  - split; [lia|]. split; [lia|]. intros a Ha. cbn [Proc.memory].
    rewrite LibcString.alloc_lookup, (proj2 (LibcString.in_range_spec _ _ _)) by lia. by eexists.
  - intros i Hi. do 9 (destruct i as [|i]; [vm_compute; reflexivity|]). simpl in Hi. lia.
  - change (words _) with [[108; 115]; [47; 98]] in Hp.
    apply Forall2_cons_inv_r in Hp as (a & ptrs' & Ha & Hp & ->). apply Forall2_cons_inv_r in Hp as (b & ptrs2 & Hb & Hp & ->).
    apply Forall2_nil_inv_r in Hp as ->. rewrite (Hh a eq_refl) in R. exists m', scr', a, b. exact (conj R (conj Ha Hb)).
Defined.

Definition msg_too_many : list Z :=
  [99; 100; 58; 32; 116; 111; 111; 32; 109; 97; 110; 121; 32; 97; 114; 103; 117; 109; 101; 110; 116; 115; 10].
Definition msg_not_found : list Z :=
  [58; 32; 99; 111; 109; 109; 97; 110; 100; 32; 110; 111; 116; 32; 102; 111; 117; 110; 100; 10].

(** Commands that cannot be run leave the process as it was.  With the words [w :: args]
    in the table: [cd] alone does nothing; [cd] with more than one argument only prints its message; [cd d]
    does to the process exactly what [chdir d] does, and reports its result; any other word
    that leads to no file prints that the command was not found, and of the process only
    [errno] changes. *)
Lemma commands_are_dispatched lit raw aligned s ptrs w args path f r :
  Forall2 (LibcString.cstr (Proc.memory (proc s))) (path :: ptrs) (w :: args) → Forall (λ a, a ≠ 0) (path :: ptrs) →
  Proc.fs_of (proc s) = Ok f → Vfs.GetNodeFromPath f (of_cstr w) = Ok r →
  let run := run_command lit raw aligned ((path :: ptrs) ++ [0]) path s in
  if decide (w = [99; 100]) then
    match args with
    | [] => run = Ok (CdIgnored, s)
    | [d] => ∀ res p', Proc.chdir d (proc s) = Ok (res, p') →
               ∃ scr, run = Ok (Cd res (Proc.errno p'), mkShell p' (keys s) scr) ∧ (res = 0 → scr = screen s)
    | _ => run = Ok (CdTooMany, set_screen (screen s ++ msg_too_many) s)
    end
  else
    (∀ pos n, r = Some pos → Vfs.node_at (Vfs.root f) pos = Some n → Vfs.isFile n = false) →
    run = Ok (NotFound, mkShell (Proc.set_errno Proc.EACCES (proc s)) (keys s) (screen s ++ w ++ msg_not_found)).
Proof.
  intros H Hn Hf Hr run. pose proof (Forall2_length _ _ _ H) as Hlen. pose proof H as H'. apply Forall2_cons in H' as [Hw Hargs].
  assert (Hcd : is_cd w = bool_decide (w = [99; 100])).
  { unfold is_cd. pose proof (LibcString.diff_zero w [99; 100] (LibcString.cstr_chars _ _ _ Hw) ltac:(repeat constructor)) as Hd.
    destruct (Z.eqb_spec (LibcString.diff w [99; 100]) 0); case_bool_decide; tauto. }
  unfold run, run_command. rewrite (bind_Ok _ _ _ _ _ (on_memory_run _ _ _ (Ustar.read_cstr_Ok _ _ _ Hw))), Hcd.
  destruct (decide (w = [99; 100])) as [->|Hne].
  - rewrite bool_decide_eq_true_2 by done. rewrite length_app. cbn [length] in *.
    destruct args as [|d [|d' args]]; destruct ptrs as [|a [|a' ptrs]]; try (cbn [length] in Hlen; lia); cbn [length].
    + done.
    + cbn [Nat.add Nat.eqb negb]. change (aread ((path :: [a]) ++ [0]) 1) with (Ok a). erewrite bind_Ok by done.
      apply Forall2_cons in Hargs as [Ha _]. intros res p' Hch.
      rewrite (bind_Ok _ _ _ _ _ (on_memory_run _ _ _ (Ustar.read_cstr_Ok _ _ _ Ha))), (bind_Ok _ _ _ _ _ (on_proc_run _ _ _ _ Hch)).
      erewrite bind_Ok by done. cbn [proc set_proc]. destruct (Z.eqb_spec res 0) as [->|Hres]; cbn [negb].
      * erewrite bind_Ok by done. eexists. by split.
      * erewrite bind_Ok by done. eexists. by split.
    + rewrite !(proj2 (Nat.eqb_neq _ _)) by lia. cbn [negb]. by erewrite bind_Ok by done.
  - rewrite bool_decide_eq_false_2 by done. intros Hno.
    rewrite (bind_Ok _ _ _ _ _ (on_memory_run _ _ _ (read_args_Ok _ _ _ H Hn))).
    rewrite (bind_Ok _ _ _ _ _ (on_proc_run _ _ _ _ (execv_fails lit raw aligned w (w :: args) (proc s) f r Hf Hr Hno))).
    by erewrite bind_Ok by done.
Qed.

(** [x] in an empty file system. *)
Definition example_shell : shell :=
  mkShell (Proc.mkProc [] [] [] 0 (list_to_map (zip (seqZ 100 2) [120; 0]))) [] [].

(** The line is stored without regard to the size of the buffer: 1024 characters and the
    return write behind its end. *)
Lemma long_line_overruns :
  DebugRead [] 0 100 (mkShell (Proc.mkProc [] [] [] 0 (LibcString.alloc 1024 100 ∅)) (replicate 1024 97 ++ [CR]) []) = Fault PageFault.
Proof. vm_compute. reflexivity. Qed.

(** With two directories in PATH, [erase] removes all that follows the first, and the next
    round asks to erase nothing, which stops the program. *)
Lemma completion_with_two_directories :
  path_loop (replicate 256 0) 3 (of_cstr [47; 58; 47]) (of_cstr [108]) [] (mkShell (Proc.mkProc [] [] [] 0 ∅) [] []) = Fault AssertFailed.
Proof. vm_compute. reflexivity. Qed.

(** A completion is written to the start of the buffer even if the word it completes is not
    there: for the line [" l"] the buffer becomes [ls] and a third character that was never typed. *)
Lemma completion_after_space :
  match TryAutocomplete (replicate 256 0) 2000 100 2
          (mkShell (Proc.mkProc [Vfs.File (of_cstr [108; 115]) 0 1] [] [] 0
                      (LibcString.alloc 1024 2000 (list_to_map (zip (seqZ 100 4) [32; 108; 120; 0])))) [] []) with
  | Ok (adj, s) => adj = 1 ∧ (λ a, Proc.memory (proc s) !! a) <$> [100; 101; 102] = [Some 108; Some 115; Some 120]
  | Fault _ => False
  end.
Proof. vm_compute. split; reflexivity. Qed.

End Shell.
