(* ===== verification/Vector.v ===== *)
(** [std::vector]: libcxx/include/vector.

    The elements live in an allocation of slots; a slot is [None] while no object lives in
    it.  [sizeT] is [sizeof(T)]: the number of bytes that [malloc] is asked for is computed
    in 32 bits, so that an allocation may have fewer slots than were meant.  The addresses
    of elements play no role here (Channel.v models a vector whose elements are pointed to), and an
    argument is a value: [push_back(const T&)] of an element of the vector itself, which reads it after
    the storage was freed when the vector grows, is outside of the model.  The counter of
    [resize] is an [int] in the source and unbounded here. *)
From S2P Require Import Prelude.

Module Vector.

Section vector.
  Context {T : Type} (sizeT : Z).

Record vector := Vec { _size : Z; _elements : list (option T); _space : Z }.

(** [malloc(sizeof(T) * n)] *)
Definition new_slots (n : Z) : list (option T) := replicate (Z.to_nat (u32 (sizeT * n) / sizeT)) None.

(** The element in a slot; an object that does not live is not to be used. *)
Definition get (v : vector) (i : Z) : result T :=
  x ← aread (_elements v) i;
  match x with Some a => Ok a | None => Fault BadPointer end.

(** [new (&_elements[i]) T(x)], and an assignment to a slot. *)
Definition put (slots : list (option T)) (i : Z) (x : T) : result (list (option T)) := awrite slots i (Some x).

(** [_elements[i].~T()] *)
Definition destroy (slots : list (option T)) (i : Z) : result (list (option T)) :=
  x ← aread slots i;
  match x with Some _ => awrite slots i None | None => Fault BadPointer end.

(** ** Construction *)
Definition new_vector : vector := Vec 0 [] 0.

Definition new_vector_size (s : Z) : vector := Vec s (new_slots s) s.

(** Copying elements [i] to [i + n - 1] of [from] to the same places of [to]. *)
Fixpoint copy_loop (n : nat) (i : Z) (from to : list (option T)) : result (list (option T)) :=
  match n with
  | O => Ok to
  | S n =>
      x ← aread from i;
      match x with
      | Some a => to ← put to i a; copy_loop n (i + 1) from to
      | None => Fault BadPointer
      end
  end.

Definition copy_vector (arg : vector) : result vector :=
  es ← copy_loop (Z.to_nat (_size arg)) 0 (_elements arg) (new_slots (_size arg));
  Ok (Vec (_size arg) es (_space arg)).

(** [operator=] of two different vectors: the loop returns in its first round, and an
    array is "allocated" at the address [sizeof(T) * a._size], which is not an allocation. *)
Definition assign_vector (this a : vector) : result vector :=
  if (_size a <=? _space this) && (0 <? _size a) then
    x ← get a 0;
    es ← put (_elements this) 0 x;
    Ok (Vec (_size a) es (_space this))
  else if 0 <? _size a then Fault BadPointer
  else Ok (Vec (_size a) [] (_size a)).

(** ** Capacity *)
Definition empty (v : vector) : bool := _size v =? 0.
Definition capacity (v : vector) : Z := _space v.
Definition size (v : vector) : Z := _size v.

Definition reserve (newalloc : Z) (v : vector) : result vector :=
  if newalloc <=? _space v then Ok v
  else
    p ← copy_loop (Z.to_nat (_size v)) 0 (_elements v) (new_slots newalloc);
    Ok (Vec (_size v) p newalloc).

Fixpoint fill_loop (n : nat) (i : Z) (val : T) (slots : list (option T)) : result (list (option T)) :=
  match n with
  | O => Ok slots
  | S n => slots ← put slots i val; fill_loop n (i + 1) val slots
  end.

Definition resize (newsize : Z) (val : T) (v : vector) : result vector :=
  v ← reserve newsize v;
  es ← fill_loop (Z.to_nat (newsize - _size v)) (_size v) val (_elements v);
  Ok (Vec newsize es (_space v)).

Definition ReserveMoreIfNeeded (v : vector) : result vector :=
  if _space v =? 0 then reserve 8 v
  else if _size v =? _space v then reserve (u32 (2 * _space v)) v
  else Ok v.

(** ** Modifiers *)
Fixpoint destroy_loop (n : nat) (i : Z) (slots : list (option T)) : result (list (option T)) :=
  match n with
  | O => Ok slots
  | S n => slots ← destroy slots i; destroy_loop n (i + 1) slots
  end.

Definition clear (v : vector) : result vector :=
  es ← destroy_loop (Z.to_nat (_size v)) 0 (_elements v);
  Ok (Vec (_size v) es (_space v)).

(** Both [push_back]s and [emplace_back] construct the element behind the last. *)
Definition push_back (x : T) (v : vector) : result vector :=
  v ← ReserveMoreIfNeeded v;
  es ← put (_elements v) (_size v) x;
  Ok (Vec (u32 (_size v + 1)) es (_space v)).

Definition emplace_back (x : T) (v : vector) : result (T * vector) :=
  v ← push_back x v;
  r ← get v (u32 (_size v - 1));
  Ok (r, v).

Definition pop_back (v : vector) : result vector :=
  es ← destroy (_elements v) (u32 (_size v - 1));
  Ok (Vec (u32 (_size v - 1)) es (_space v)).

(** Moving elements down by a slot: [j] runs from [i + 1], [n] are left. *)
Fixpoint shift_loop (n : nat) (i : Z) (slots : list (option T)) : result (list (option T)) :=
  match n with
  | O => Ok slots
  | S n =>
      x ← aread slots (i + 1);
      match x with
      | Some a => slots ← put slots i a; shift_loop n (i + 1) slots
      | None => Fault BadPointer
      end
  end.

(** [erase]: the loop finds the position if it is one of the vector's; the result is the
    position that is returned and the vector. *)
Definition erase (pos : Z) (v : vector) : result (Z * vector) :=
  if (0 <=? pos) && (pos <? _size v) then
    es ← destroy (_elements v) pos;
    es ← shift_loop (Z.to_nat (_size v - (pos + 1))) pos es;
    Ok (pos + 1, Vec (_size v - 1) es (_space v))
  else Ok (_size v, v).

(** ** Access *)
Definition at_ (v : vector) (n : Z) : result T := if _size v <=? n then Fault Aborted else get v n.
Definition front (v : vector) : result T := get v 0.
Definition back (v : vector) : result T := get v (u32 (_size v - 1)).

(** * Lemmas *)
Hypothesis sizeT_pos : 0 < sizeT.

(** The vector has the elements [l]. *)
Definition holds (v : vector) (l : list T) : Prop :=
  _size v = Z.of_nat (length l) ∧ _space v = Z.of_nat (length (_elements v)) ∧ sizeT * _space v < 2 ^ 32 ∧
  ∃ rest, _elements v = (Some <$> l) ++ rest.

Lemma new_slots_Ok n : 0 ≤ n → sizeT * n < 2 ^ 32 → length (new_slots n) = Z.to_nat n.
Proof using sizeT_pos.
  intros H0 H1. unfold new_slots. rewrite length_replicate, u32_id by (unfold is_u32; nia).
  by rewrite Z.mul_comm, Z.div_mul by lia.
Qed.

Lemma vec_get_Ok v l i x : holds v l → l !! i = Some x → get v (Z.of_nat i) = Ok x.
Proof using.
  intros (_ & _ & _ & rest & Hr) Hi. unfold get. rewrite Hr.
  assert (E : aread ((Some <$> l) ++ rest) (Z.of_nat i) = Ok (Some x)).
  { apply aread_Ok. rewrite nthZ_lookup, Nat2Z.id by lia. apply lookup_app_l_Some. by rewrite list_lookup_fmap, Hi. }
  by rewrite E.
Qed.

(** Filling the slot behind the elements. *)
Lemma put_end l y r x i : i = Z.of_nat (length l) → put ((Some <$> l) ++ y :: r) i x = Ok ((Some <$> (l ++ [x])) ++ r).
Proof using.
  intros ->. unfold put. rewrite awrite_in_range by (rewrite length_app, length_fmap; simpl; lia). f_equal.
  rewrite Nat2Z.id, insert_app_r_alt by (rewrite length_fmap; lia). rewrite length_fmap, Nat.sub_diag, fmap_app, <- app_assoc. done.
Qed.

(** Copying the elements from the [k]-th on, those before being there already. *)
Lemma copy_loop_Ok l2 : ∀ l1 from to,
  (∃ r, from = (Some <$> (l1 ++ l2)) ++ r) → (∃ r, to = (Some <$> l1) ++ r ∧ (length l2 ≤ length r)%nat) →
  ∃ r', copy_loop (length l2) (Z.of_nat (length l1)) from to = Ok ((Some <$> (l1 ++ l2)) ++ r') ∧
        length ((Some <$> (l1 ++ l2)) ++ r') = length to.
Proof using.
  induction l2 as [|x l2 IH]; intros l1 from to [r Hf] (r2 & Ht & Hl); cbn [copy_loop length] in *.
  { exists r2. by rewrite app_nil_r, Ht. }
  assert (E : aread from (Z.of_nat (length l1)) = Ok (Some x)).
  { apply aread_Ok. rewrite nthZ_lookup, Nat2Z.id by lia. rewrite Hf. apply lookup_app_l_Some.
    rewrite list_lookup_fmap, lookup_app_r, Nat.sub_diag by lia. done. }
  rewrite E. cbn [mbind result_bind]. destruct r2 as [|y r2]; [simpl in Hl; lia|]. rewrite Ht, put_end by done.
  cbn [mbind result_bind].
  destruct (IH (l1 ++ [x]) from ((Some <$> (l1 ++ [x])) ++ r2)) as (r' & R & HL).
  { exists r. by rewrite <- app_assoc. }
  { exists r2. split; [done|]. simpl in Hl. lia. }
  rewrite length_app in R. rewrite <- (app_assoc l1) in R, HL. cbn [app length] in R, HL. exists r'.
  replace (Z.of_nat (length l1) + 1) with (Z.of_nat (length l1 + 1)) by lia. split; [exact R|].
  rewrite HL, !length_app, !length_fmap, !length_app. simpl. lia.
Qed.

Lemma reserve_Ok v l n : holds v l → sizeT * n < 2 ^ 32 →
  ∃ v', reserve n v = Ok v' ∧ holds v' l ∧ n ≤ _space v' ∧ _space v ≤ _space v'.
Proof using sizeT_pos.
  intros H Hn. unfold reserve. destruct (Z.leb_spec n (_space v)) as [Hle|Hgt]; [by exists v|].
  destruct H as (Hs & Hsp & Hb & rest & Hr).
  assert (Hlen : Z.of_nat (length l) ≤ _space v) by (rewrite Hsp, Hr, length_app, length_fmap; lia).
  destruct (copy_loop_Ok l [] (_elements v) (new_slots n)) as (r' & R & HL).
  { by exists rest. }
  { exists (new_slots n). split; [done|]. rewrite new_slots_Ok by lia. lia. }
  rewrite Hs, Nat2Z.id. change (Z.of_nat (length [])) with 0 in R. rewrite R. eexists. split; [done|]. cbn [app] in *.
  rewrite new_slots_Ok in HL by lia. split; [|cbn [_space]; lia].
  split; [done|]. cbn [_space _elements]. split; [lia|]. split; [done|]. by exists r'.
Qed.

Lemma vec_grow_Ok v l : holds v l → 2 * sizeT * (_space v + 4) < 2 ^ 32 →
  ∃ v', ReserveMoreIfNeeded v = Ok v' ∧ holds v' l ∧ Z.of_nat (length l) < _space v'.
Proof using sizeT_pos.
  intros H Hb. pose proof H as (Hs & Hsp & _ & rest & Hr).
  assert (Hlen : Z.of_nat (length l) ≤ _space v) by (rewrite Hsp, Hr, length_app, length_fmap; lia).
  unfold ReserveMoreIfNeeded. destruct (Z.eqb_spec (_space v) 0) as [E|E].
  - destruct (reserve_Ok v l 8 H ltac:(nia)) as (v' & R & H' & Hn & _). exists v'. split; [done|]. split; [done|lia].
  - rewrite Hs. destruct (Z.eqb_spec (Z.of_nat (length l)) (_space v)) as [E2|E2]; [|exists v; split; [done|]; split; [done|lia]].
    rewrite u32_id by (unfold is_u32; nia).
    destruct (reserve_Ok v l (2 * _space v) H ltac:(nia)) as (v' & R & H' & Hn & _). exists v'. split; [done|]. split; [done|lia].
Qed.

Lemma push_back_Ok v l x : holds v l → 2 * sizeT * (_space v + 4) < 2 ^ 32 →
  ∃ v', push_back x v = Ok v' ∧ holds v' (l ++ [x]).
Proof using sizeT_pos.
  intros H Hb. destruct (vec_grow_Ok v l H Hb) as (v1 & R & (Hs & Hsp & Hb1 & rest & Hr) & Hlt). unfold push_back. rewrite R.
  cbn [mbind result_bind]. destruct rest as [|y rest].
  { rewrite app_nil_r in Hr. rewrite Hsp, Hr, length_fmap in Hlt. lia. }
  rewrite Hr, Hs, put_end by done. cbn [mbind result_bind]. eexists. split; [done|].
  split; [cbn [_size]; rewrite u32_id, length_app by (unfold is_u32; nia); simpl; lia|].
  cbn [_space _elements]. split; [|split; [done|by exists rest]].
  rewrite Hsp, Hr, !length_app, !length_fmap, length_app. simpl. lia.
Qed.

Lemma destroy_Ok l1 x l2 i : i = Z.of_nat (length l1) → destroy (l1 ++ Some x :: l2) i = Ok (l1 ++ None :: l2).
Proof using.
  intros ->. unfold destroy.
  assert (E : aread (l1 ++ Some x :: l2) (Z.of_nat (length l1)) = Ok (Some x)).
  { apply aread_Ok. rewrite nthZ_lookup, Nat2Z.id by lia. by rewrite list_lookup_middle. }
  rewrite E. cbn [mbind result_bind]. rewrite awrite_in_range by (rewrite length_app; simpl; lia).
  by rewrite Nat2Z.id, insert_app_r_alt, Nat.sub_diag by lia.
Qed.

Lemma pop_back_Ok v l x : holds v (l ++ [x]) → ∃ v', pop_back v = Ok v' ∧ holds v' l.
Proof using sizeT_pos.
  intros (Hs & Hsp & Hb & rest & Hr). rewrite length_app in Hs. cbn [length] in Hs.
  rewrite fmap_app, <- app_assoc in Hr. cbn [fmap list_fmap app] in Hr.
  assert (Hlen : 0 ≤ _size v - 1 < 2 ^ 32).
  { rewrite Hsp, Hr, length_app, length_fmap in Hb. cbn [length] in Hb. nia. }
  unfold pop_back. rewrite u32_id by done. rewrite Hr, destroy_Ok by (rewrite length_fmap; lia). eexists. split; [done|].
  split; [cbn [_size]; lia|]. cbn [_space _elements]. split; [|split; [done|by eexists]].
  rewrite Hsp, Hr, !length_app. done.
Qed.

Lemma shift_loop_Ok l2 : ∀ l1 y rest, ∃ z,
  shift_loop (length l2) (Z.of_nat (length l1)) (l1 ++ y :: (Some <$> l2) ++ rest) = Ok (l1 ++ (Some <$> l2) ++ z :: rest).
Proof using.
  induction l2 as [|x l2 IH]; intros l1 y rest; cbn [shift_loop length fmap list_fmap app]; [by exists y|].
  assert (E : aread (l1 ++ y :: Some x :: (Some <$> l2) ++ rest) (Z.of_nat (length l1) + 1) = Ok (Some x)).
  { apply aread_Ok. rewrite nthZ_lookup by lia. replace (Z.to_nat _) with (length (l1 ++ [y])) by (rewrite length_app; simpl; lia).
    replace (l1 ++ y :: Some x :: _) with ((l1 ++ [y]) ++ Some x :: (Some <$> l2) ++ rest) by (by rewrite <- app_assoc).
    by rewrite list_lookup_middle. }
  rewrite E. cbn [mbind result_bind]. unfold put. rewrite awrite_in_range by (rewrite length_app; simpl; lia).
  cbn [mbind result_bind]. rewrite Nat2Z.id, insert_app_r_alt, Nat.sub_diag by lia. cbn [insert list_insert].
  destruct (IH (l1 ++ [Some x]) (Some x) rest) as [z R]. exists z. rewrite length_app in R. cbn [length] in R.
  rewrite <- !app_assoc in R. cbn [app] in R. replace (Z.of_nat (length l1) + 1) with (Z.of_nat (length l1 + 1)) by lia. exact R.
Qed.

Lemma vec_erase_Ok v l1 x l2 : holds v (l1 ++ x :: l2) →
  ∃ v', erase (Z.of_nat (length l1)) v = Ok (Z.of_nat (length l1) + 1, v') ∧ holds v' (l1 ++ l2).
Proof using.
  intros (Hs & Hsp & Hb & rest & Hr). rewrite length_app in Hs. cbn [length] in Hs. unfold erase.
  rewrite (proj2 (Z.leb_le _ _)), (proj2 (Z.ltb_lt _ _)) by lia. cbn [andb].
  rewrite fmap_app, fmap_cons, <- app_assoc in Hr. cbn [app] in Hr. rewrite Hr, destroy_Ok by (by rewrite length_fmap).
  cbn [mbind result_bind]. replace (Z.to_nat (_size v - (Z.of_nat (length l1) + 1))) with (length l2) by lia.
  destruct (shift_loop_Ok l2 (Some <$> l1) None rest) as [z R]. rewrite length_fmap in R. rewrite R. eexists. split; [done|]. split; [cbn [_size]; rewrite length_app; lia|]. cbn [_space _elements]. split; [|split; [done|]].
  - rewrite Hsp, Hr, !length_app. cbn [length]. rewrite !length_app. cbn [length]. lia.
  - exists (z :: rest). by rewrite fmap_app, <- app_assoc.
Qed.

Lemma fill_loop_Ok n x : ∀ l rest, (n ≤ length rest)%nat →
  ∃ r', fill_loop n (Z.of_nat (length l)) x ((Some <$> l) ++ rest) = Ok ((Some <$> (l ++ replicate n x)) ++ r') ∧
        (n + length r' = length rest)%nat.
Proof using.
  induction n as [|n IH]; intros l rest Hn; cbn [fill_loop replicate]; [exists rest; by rewrite app_nil_r|].
  destruct rest as [|y rest]; [simpl in Hn; lia|]. rewrite put_end by done. cbn [mbind result_bind].
  destruct (IH (l ++ [x]) rest) as (r' & R & HL); [simpl in Hn; lia|]. exists r'. rewrite length_app in R. cbn [length] in R.
  rewrite <- (app_assoc l) in R. cbn [app] in R. replace (Z.of_nat (length l) + 1) with (Z.of_nat (length l + 1)) by lia.
  split; [exact R|simpl; lia].
Qed.

Lemma resize_Ok v l n x : holds v l → sizeT * Z.of_nat n < 2 ^ 32 →
  ∃ v', resize (Z.of_nat n) x v = Ok v' ∧ holds v' (take n l ++ replicate (n - length l) x).
Proof using sizeT_pos.
  intros H Hn. destruct (reserve_Ok v l (Z.of_nat n) H Hn) as (v1 & R & (Hs & Hsp & Hb & rest & Hr) & Hge & _).
  unfold resize. rewrite R. cbn [mbind result_bind]. rewrite Hs, Hr.
  replace (Z.to_nat (Z.of_nat n - Z.of_nat (length l))) with (n - length l)%nat by lia.
  destruct (fill_loop_Ok (n - length l) x l rest) as (r' & Rf & HL).
  { rewrite Hsp, Hr, length_app, length_fmap in Hge. lia. }
  rewrite Rf. cbn [mbind result_bind]. eexists. split; [done|].
  split; [cbn [_size]; rewrite length_app, length_take, length_replicate; lia|]. cbn [_space _elements].
  rewrite fmap_app. split; [|split; [done|]].
  - rewrite Hsp, Hr, !length_app, !length_fmap, length_replicate. lia.
  - destruct (Nat.le_gt_cases n (length l)) as [Hle|Hgt].
    + replace (n - length l)%nat with 0%nat by lia. cbn [replicate fmap list_fmap]. rewrite !app_nil_r.
      exists ((Some <$> drop n l) ++ r'). by rewrite app_assoc, <- fmap_app, take_drop.
    + rewrite take_ge by lia. exists r'. by rewrite fmap_app.
Qed.

(** * Properties *)

(** C40: A vector behaves as a list.  Whatever its capacity, a vector with the elements [l]
    answers [operator[]] and [at] as [l] does ([at] behind the end stops the program);
    [push_back], also when it has to grow, appends; [pop_back] takes the last element away;
    [erase] takes away the one at its position and moves the later ones down; [reserve]
    changes no element; [resize] cuts off or pads.  The sizes are such that the bytes of the
    allocation can be counted in 32 bits. *)
Theorem vector_refines_list v l :
  holds v l →
  (∀ i x, l !! i = Some x → get v (Z.of_nat i) = Ok x ∧ at_ v (Z.of_nat i) = Ok x) ∧
  (∀ i, Z.of_nat (length l) ≤ i → at_ v i = Fault Aborted) ∧
  (∀ x, 2 * sizeT * (_space v + 4) < 2 ^ 32 → ∃ v', push_back x v = Ok v' ∧ holds v' (l ++ [x])) ∧
  (∀ l' x, l = l' ++ [x] → ∃ v', pop_back v = Ok v' ∧ holds v' l') ∧
  (∀ i, (i < length l)%nat → ∃ v', erase (Z.of_nat i) v = Ok (Z.of_nat i + 1, v') ∧ holds v' (delete i l)) ∧
  (∀ n, sizeT * n < 2 ^ 32 → ∃ v', reserve n v = Ok v' ∧ holds v' l ∧ n ≤ capacity v' ∧ capacity v ≤ capacity v') ∧
  (∀ n x, sizeT * Z.of_nat n < 2 ^ 32 → ∃ v', resize (Z.of_nat n) x v = Ok v' ∧ holds v' (take n l ++ replicate (n - length l) x)).
Proof using sizeT_pos.
  intros H. split_and!.
  - intros i x Hi. rewrite (vec_get_Ok v l i x H Hi). split; [done|]. unfold at_. rewrite (proj1 H).
    apply lookup_lt_Some in Hi as Hlt. rewrite (proj2 (Z.leb_gt _ _)) by lia. by eapply vec_get_Ok.
  - intros i Hi. unfold at_. rewrite (proj1 H). by rewrite (proj2 (Z.leb_le _ _)).
  - intros x Hb. by apply push_back_Ok.
  - intros l' x ->. by eapply pop_back_Ok.
  - intros i Hi. destruct (lookup_lt_is_Some_2 l i Hi) as [x Hx]. rewrite delete_take_drop.
    rewrite <- (take_drop_middle l i x Hx) in H. destruct (vec_erase_Ok v _ x _ H) as (v' & R & H').
    rewrite length_take_le in R by lia. by exists v'.
  - intros n Hn. by apply reserve_Ok.
  - intros n x Hn. by apply resize_Ok.
Qed.
End vector.

Lemma vector_refines_list_witness :
  let v := Vec 2 [Some 5; Some 6] 2 in
  (∃ v', push_back 4 7 v = Ok v' ∧ holds 4 v' [5; 6; 7]) ∧ (∃ v', erase 0 v = Ok (1, v') ∧ holds 4 v' [6]) ∧
  at_ v 2 = Fault Aborted.
Proof.
  destruct (vector_refines_list 4 ltac:(lia) (Vec 2 [Some 5; Some 6] 2) [5; 6]) as (_ & Ha & Hp & _ & He & _).
  - split; [reflexivity|]. split; [reflexivity|]. split; [reflexivity|]. by exists [].
  - split; [|split].
    + apply (Hp 7). reflexivity.
    + apply (He 0%nat). simpl. lia.
    + apply (Ha 2). simpl. lia.
Defined.

(** A copy has slots for its elements only but claims the capacity of the original, so that
    the next element is written behind the allocation. *)
Lemma copy_then_push_overruns :
  (v ← copy_vector 4 (Vec 1 [Some 5; None] 2); push_back 4 6 v) = Fault OutOfBounds.
Proof. vm_compute. reflexivity. Qed.

(** An assignment copies the first element only. *)
Lemma assignment_copies_one :
  assign_vector (Vec 2 [Some 1; Some 2] 2) (Vec 2 [Some 5; Some 6] 2) = Ok (Vec 2 [Some 5; Some 2] 2).
Proof. reflexivity. Qed.

(** A cleared vector still has its size, and elements that do not live any more. *)
Lemma clear_keeps_size : ∃ v, clear (Vec 1 [Some 5] 1) = Ok v ∧ empty v = false ∧ front v = Fault BadPointer.
Proof. by eexists. Qed.

End Vector.
