(* ===== verification/UniquePtr.v ===== *)
(** Ownership: [std::unique_ptr] of libcxx/include/memory, for objects and for arrays, and
    [std::swap] of libcxx/include/algorithm on the pointers in it.

    A [unique_ptr] is an object at an address, which holds [data_]; a temporary of a function has
    the address [tmp].  The heap maps the address of an allocated object to its value.  [delete] of
    anything else is what the allocator's assertions stop (Malloc.v).  The destructor of the value
    itself is not part of the model: the components that keep pointers in objects (Vfs.v, Vector.v)
    have those objects as values. *)
From S2P Require Import Prelude.

Module UniquePtr.

Section unique_ptr.
  Context {T : Type}.

Record state := mkState { vars : gmap Z Z; heap : gmap Z T }.

Definition set_vars v (s : state) := mkState v (heap s).
Definition set_heap h (s : state) := mkState (vars s) h.

(** The member [data_] of a live object. *)
Definition data_ (this : Z) : M state Z := λ s, match vars s !! this with Some p => Ok (p, s) | None => Fault BadPointer end.
Definition set_data (this p : Z) : M state unit := data_ this;; modify (λ s, set_vars (<[this := p]> (vars s)) s).

(** [new T(v)], which [malloc] puts at [p], and [delete]. *)
Definition new_ (p : Z) (v : T) : M state Z := modify (λ s, set_heap (<[p := v]> (heap s)) s);; mret p.
Definition delete_ (p : Z) : M state unit := λ s,
  match heap s !! p with Some _ => Ok (tt, set_heap (base.delete p (heap s)) s) | None => Fault AssertFailed end.

(** [unique_ptr(T *data)]; without an argument [data] is null. *)
Definition construct (this data : Z) : M state unit := modify (λ s, set_vars (<[this := data]> (vars s)) s).

(** [std::swap] of the two members. *)
Definition swap (this other : Z) : M state unit :=
  temp ← data_ this;
  d ← data_ other;
  set_data this d;;
  set_data other temp.

(** [released] starts as null and is swapped with [data_]. *)
Definition release (this : Z) : M state Z := released ← data_ this; set_data this 0;; mret released.

(** [~unique_ptr()]; the object is gone afterwards. *)
Definition destroy (this : Z) : M state unit :=
  d ← data_ this;
  (if tobool d then delete_ d else mret tt);;
  modify (λ s, set_vars (base.delete this (vars s)) s).

(** The body of the move operations. *)
Definition take_from (tmp this other : Z) : M state unit :=
  d ← release other;
  construct tmp d;;
  swap tmp this;;
  destroy tmp.

Definition move_construct (tmp this other : Z) : M state unit := construct this 0;; take_from tmp this other.
Definition move_assign (tmp this other : Z) : M state unit := if negb (this =? other) then take_from tmp this other else mret tt.

Definition get (this : Z) : M state Z := data_ this.
Definition as_bool (this : Z) : M state bool := d ← data_ this; mret (tobool d).

(** [operator*] and [operator->] *)
Definition object_at (p : Z) : M state T := λ s, match heap s !! p with Some v => Ok (v, s) | None => Fault BadPointer end.
Definition deref (this : Z) : M state T := d ← data_ this; object_at d.

Definition make_unique (this p : Z) (v : T) : M state unit := q ← new_ p v; construct this q.

(** * Programs that use the class

    [raw] are the pointers that [new] or [release] returned and that nobody has taken since. *)
Inductive op :=
  | ONew (p : Z) (v : T)
  | ODelete (p : Z)
  | OConstruct (this p : Z)
  | OMake (this p : Z) (v : T)
  | OMove (tmp this other : Z)
  | OAssign (tmp this other : Z)
  | OSwap (this other : Z)
  | ORelease (this : Z)
  | ODestroy (this : Z).

Definition run_op (o : op) : M state Z :=
  match o with
  | ONew p v => new_ p v
  | ODelete p => (if tobool p then delete_ p else mret tt);; mret 0
  | OConstruct this p => construct this p;; mret 0
  | OMake this p v => make_unique this p v;; mret 0
  | OMove tmp this other => move_construct tmp this other;; mret 0
  | OAssign tmp this other => move_assign tmp this other;; mret 0
  | OSwap this other => swap this other;; mret 0
  | ORelease this => release this
  | ODestroy this => destroy this;; mret 0
  end.

(** Objects are used while they live, [malloc] returns an unused address, and a raw pointer is
    given away once. *)
Definition allowed (raw : gset Z) (s : state) (o : op) : Prop :=
  let live a := is_Some (vars s !! a) in
  let free a := vars s !! a = None in
  match o with
  | ONew p _ => p ≠ 0 ∧ heap s !! p = None
  | ODelete p => p = 0 ∨ p ∈ raw
  | OConstruct this p => free this ∧ (p = 0 ∨ p ∈ raw)
  | OMake this p _ => free this ∧ p ≠ 0 ∧ heap s !! p = None
  | OMove tmp this other => free tmp ∧ free this ∧ tmp ≠ this ∧ live other
  | OAssign tmp this other => free tmp ∧ live this ∧ live other
  | OSwap this other => live this ∧ live other
  | ORelease this => live this
  | ODestroy this => live this
  end.

Definition non_null (p : Z) : gset Z := if tobool p then {[p]} else ∅.

Definition raw_after (o : op) (v : Z) (raw : gset Z) : gset Z :=
  match o with
  | ONew _ _ | ORelease _ => non_null v ∪ raw
  | ODelete p | OConstruct _ p => raw ∖ {[p]}
  | _ => raw
  end.

Inductive reachable : gset Z → state → Prop :=
  | reach_start : reachable ∅ (mkState ∅ ∅)
  | reach_step raw s o v s' :
      reachable raw s → allowed raw s o → run_op o s = Ok (v, s') → reachable (raw_after o v raw) s'.

(** * Lemmas *)

(** Every object in the heap has one owner: a [unique_ptr], or whoever has the raw pointer. *)
Record inv (raw : gset Z) (s : state) : Prop := {
  inv_one : ∀ a b p, vars s !! a = Some p → vars s !! b = Some p → p ≠ 0 → a = b;
  inv_owned : ∀ a p, vars s !! a = Some p → p ≠ 0 → is_Some (heap s !! p) ∧ p ∉ raw;
  inv_raw : ∀ p, p ∈ raw → is_Some (heap s !! p) ∧ p ≠ 0;
  inv_heap : ∀ p, is_Some (heap s !! p) → p ≠ 0 ∧ (p ∈ raw ∨ ∃ a, vars s !! a = Some p) }.

Lemma elem_non_null p q : q ∈ non_null p ↔ q = p ∧ p ≠ 0.
Proof. unfold non_null, tobool. destruct (Z.eqb_spec p 0); set_solver. Qed.

Lemma data_Ok s a p : vars s !! a = Some p → data_ a s = Ok (p, s).
Proof. intros H. unfold data_. by rewrite H. Qed.

Lemma set_data_Ok s a p q : vars s !! a = Some p → set_data a q s = Ok (tt, set_vars (<[a := q]> (vars s)) s).
Proof. intros H. unfold set_data. by rewrite (bind_Ok _ _ _ _ _ (data_Ok _ _ _ H)). Qed.

Lemma inv_new raw s p v : inv raw s → p ≠ 0 → heap s !! p = None → inv (non_null p ∪ raw) (set_heap (<[p := v]> (heap s)) s).
Proof.
  intros [H1 H2 H3 H4] H0 Hp. split; cbn; [done| | |].
  - intros a q Ha Hq. destruct (H2 a q Ha Hq) as [Hs Hr]. rewrite elem_of_union, elem_non_null, lookup_insert_is_Some'.
    split; [by right|]. intros [[-> _]|?]; [|done]. destruct Hs. congruence.
  - intros q. rewrite elem_of_union, elem_non_null, lookup_insert_is_Some'. intros [[-> Hq]|Hq]; [by split; [left|]|].
    destruct (H3 q Hq). by split; [right|].
  - intros q. rewrite elem_of_union, elem_non_null, lookup_insert_is_Some'. intros [<-|Hq]; [by split; [|left; left]|].
    destruct (H4 q Hq) as [Hq0 [Hr|Hv]]; (split; [done|]); [left; by right|by right].
Qed.

Lemma delete_Ok raw s p : inv raw s → p ∈ raw →
  ∃ s', delete_ p s = Ok (tt, s') ∧ vars s' = vars s ∧ heap s' = base.delete p (heap s) ∧ inv (raw ∖ {[p]}) s'.
Proof.
  intros [H1 H2 H3 H4] Hp. destruct (H3 p Hp) as [[v Hv] H0]. eexists. unfold delete_. rewrite Hv. split; [reflexivity|].
  split; [done|]. split; [done|]. split; cbn; [done| | |].
  - intros a q Ha Hq. destruct (H2 a q Ha Hq) as [Hs Hr]. assert (q ≠ p) by set_solver. rewrite lookup_delete_ne by done. set_solver.
  - intros q Hq. assert (q ≠ p) by set_solver. rewrite lookup_delete_ne by done. apply H3. set_solver.
  - intros q Hq. destruct (decide (q = p)) as [->|Hne]; [by rewrite lookup_delete_eq in Hq; destruct Hq|].
    rewrite lookup_delete_ne in Hq by done. destruct (H4 q Hq) as [Hq0 [Hr|Hv']]; (split; [done|]); [left; set_solver|by right].
Qed.

(** A new pointer takes a raw one. *)
Lemma construct_inv raw s a p : inv raw s → vars s !! a = None → p = 0 ∨ p ∈ raw →
  inv (raw ∖ {[p]}) (set_vars (<[a := p]> (vars s)) s).
Proof.
  intros [H1 H2 H3 H4] Ha Hp. split; cbn.
  - intros b c q Hb Hc Hq. destruct (decide (b = a)) as [->|Hba], (decide (c = a)) as [->|Hca]; [done| | |].
    + rewrite lookup_insert_eq in Hb. rewrite lookup_insert_ne in Hc by done. simplify_eq. destruct Hp as [->|Hp]; [done|].
      by destruct (H2 c q Hc Hq).
    + rewrite lookup_insert_eq in Hc. rewrite lookup_insert_ne in Hb by done. simplify_eq. destruct Hp as [->|Hp]; [done|].
      by destruct (H2 b q Hb Hq).
    + rewrite lookup_insert_ne in Hb, Hc by done. by eapply H1.
  - intros b q Hb Hq. destruct (decide (b = a)) as [->|Hba].
    + rewrite lookup_insert_eq in Hb. simplify_eq. destruct Hp as [->|Hp]; [done|]. destruct (H3 q Hp). set_solver.
    + rewrite lookup_insert_ne in Hb by done. destruct (H2 b q Hb Hq). set_solver.
  - intros q Hq. apply H3. set_solver.
  - intros q Hq. destruct (H4 q Hq) as [Hq0 [Hr|[b Hb]]]; (split; [done|]).
    + destruct (decide (q = p)) as [->|]; [|left; set_solver]. right. exists a. by rewrite lookup_insert_eq.
    + right. exists b. by rewrite lookup_insert_ne by congruence.
Qed.

(** What [release] returns is raw. *)
Lemma release_inv raw s a p : inv raw s → vars s !! a = Some p → inv (non_null p ∪ raw) (set_vars (<[a := 0]> (vars s)) s).
Proof.
  intros [H1 H2 H3 H4] Ha.
  assert (Hl : ∀ b q, <[a := 0]> (vars s) !! b = Some q → q ≠ 0 → b ≠ a ∧ vars s !! b = Some q).
  { intros b q Hb Hq. destruct (decide (b = a)) as [->|]; [rewrite lookup_insert_eq in Hb; by simplify_eq|].
    by rewrite lookup_insert_ne in Hb. }
  split; cbn.
  - intros b c q Hb Hc Hq. destruct (Hl b q Hb Hq), (Hl c q Hc Hq). by eapply H1.
  - intros b q Hb Hq. destruct (Hl b q Hb Hq) as [Hba Hb']. destruct (H2 b q Hb' Hq) as [Hs Hr]. split; [done|].
    rewrite elem_of_union, elem_non_null. intros [[-> _]|?]; [|done]. by apply Hba, (H1 b a p).
  - intros q [[-> Hq]%elem_non_null|Hq]%elem_of_union; [|by apply H3]. by destruct (H2 a p Ha Hq).
  - intros q Hq. destruct (H4 q Hq) as [Hq0 Hw]. split; [done|]. rewrite elem_of_union, elem_non_null.
    destruct Hw as [Hr|[b Hb]]; [by left; right|]. destruct (decide (b = a)) as [->|]; [left; left; by simplify_eq|].
    right. exists b. by rewrite lookup_insert_ne.
Qed.

(** Only the values of two pointers change places. *)
Lemma swap_Ok s a b p q : vars s !! a = Some p → vars s !! b = Some q →
  swap a b s = Ok (tt, set_vars (<[b := p]> (<[a := q]> (vars s))) s).
Proof.
  intros Ha Hb. unfold swap. rewrite (bind_Ok _ _ _ _ _ (data_Ok _ _ _ Ha)), (bind_Ok _ _ _ _ _ (data_Ok _ _ _ Hb)).
  rewrite (bind_Ok _ _ _ _ _ (set_data_Ok _ _ _ q Ha)).
  rewrite (set_data_Ok _ b q); [done|]. cbn. destruct (decide (a = b)) as [->|Hne]; [apply lookup_insert_eq|by rewrite lookup_insert_ne].
Qed.

Definition exchange (a b x : Z) : Z := if decide (x = b) then a else if decide (x = a) then b else x.

Lemma swapped_lookup (v : gmap Z Z) a b p q x : v !! a = Some p → v !! b = Some q → <[b := p]> (<[a := q]> v) !! x = v !! exchange a b x.
Proof.
  intros Ha Hb. unfold exchange. destruct (decide (x = b)) as [->|]; [by rewrite lookup_insert_eq|rewrite lookup_insert_ne by done].
  destruct (decide (x = a)) as [->|]; [by rewrite lookup_insert_eq|by rewrite lookup_insert_ne].
Qed.

Lemma swap_inv raw s a b p q : inv raw s → vars s !! a = Some p → vars s !! b = Some q →
  inv raw (set_vars (<[b := p]> (<[a := q]> (vars s))) s).
Proof.
  intros [H1 H2 H3 H4] Ha Hb. pose proof (λ x, swapped_lookup (vars s) a b p q x Ha Hb) as Hx. split; cbn; [| |exact H3|].
  - intros x y r. rewrite !Hx. intros Hr Hr' H0. pose proof (H1 _ _ _ Hr Hr' H0) as E. unfold exchange in E.
    repeat case_decide; congruence.
  - intros x r. rewrite Hx. apply H2.
  - intros r Hr. destruct (H4 r Hr) as [H0 [?|[y Hy]]]; (split; [done|]); [by left|right]. exists (exchange a b y). rewrite Hx, <- Hy.
    f_equal. unfold exchange. repeat case_decide; congruence.
Qed.

(** A null pointer goes. *)
Lemma drop_inv raw s a : inv raw s → vars s !! a = Some 0 → inv raw (set_vars (base.delete a (vars s)) s).
Proof.
  intros [H1 H2 H3 H4] Ha.
  assert (Hl : ∀ b p, base.delete a (vars s) !! b = Some p → vars s !! b = Some p) by (intros b p Hb; by apply lookup_delete_Some in Hb as [_ ?]).
  split; cbn; [..|exact H3|].
  - intros b c p Hb Hc. apply H1; by apply Hl.
  - intros b p Hb. by apply (H2 b), Hl.
  - intros p Hp. destruct (H4 p Hp) as [H0 [?|[b Hb]]]; (split; [done|]); [by left|right]. exists b. rewrite lookup_delete_ne by congruence. done.
Qed.

Definition heap_without (p : Z) (h : gmap Z T) : gmap Z T := if tobool p then base.delete p h else h.

Lemma own_again raw s a p : inv raw s → vars s !! a = Some p → (non_null p ∪ raw) ∖ {[p]} = raw.
Proof.
  intros [_ H2 H3 _] Ha. apply set_eq. intros q. rewrite elem_of_difference, elem_of_union, elem_non_null, elem_of_singleton. split.
  - intros [[[-> _]|Hq] Hne]; [done|exact Hq].
  - intros Hq. split; [by right|]. intros ->. destruct (H3 _ Hq) as [_ H0]. by destruct (H2 _ _ Ha H0).
Qed.

(** The destructor deletes what the pointer owns. *)
Lemma ptr_destroy_Ok raw s a p : inv raw s → vars s !! a = Some p →
  ∃ s', destroy a s = Ok (tt, s') ∧ vars s' = base.delete a (vars s) ∧ heap s' = heap_without p (heap s) ∧ inv raw s'.
Proof.
  intros Hinv Ha. pose proof (release_inv raw s a p Hinv Ha) as Hr. pose proof (own_again raw s a p Hinv Ha) as Er.
  unfold destroy. rewrite (bind_Ok _ _ _ _ _ (data_Ok _ _ _ Ha)). unfold heap_without, tobool.
  destruct (Z.eqb_spec p 0) as [->|H0]; cbn [negb].
  - eexists. split; [reflexivity|]. split; [done|]. split; [done|]. by apply drop_inv.
  - destruct (delete_Ok _ _ p Hr) as (s1 & Hd & _ & Hh & Hi); [rewrite elem_of_union, elem_non_null; by left; split|].
    rewrite Er in Hi. unfold delete_ in Hd. cbn in Hd. destruct (heap s !! p) as [v|] eqn:Hv; [|done].
    assert (Hd' : delete_ p s = Ok (tt, set_heap (base.delete p (heap s)) s)) by (unfold delete_; by rewrite Hv).
    eexists. split; [rewrite (bind_Ok _ _ _ _ _ Hd'); reflexivity|]. split; [done|]. split; [done|].
    injection Hd as <-. apply (drop_inv _ _ a) in Hi; [|apply lookup_insert_eq]. cbn in Hi. by rewrite delete_insert_eq in Hi.
Qed.

Lemma take_from_Ok raw s tmp this other p q :
  inv raw s → vars s !! tmp = None → vars s !! this = Some q → vars s !! other = Some p → this ≠ other →
  ∃ s', take_from tmp this other s = Ok (tt, s') ∧ vars s' = <[this := p]> (<[other := 0]> (vars s)) ∧
    heap s' = heap_without q (heap s) ∧ inv raw s'.
Proof.
  intros Hinv Ht Hq Hp Hne. assert (this ≠ tmp ∧ other ≠ tmp) as [Hth Hot] by (split; congruence).
  set (s1 := set_vars (<[other := 0]> (vars s)) s). set (s2 := set_vars (<[tmp := p]> (vars s1)) s1).
  assert (I2 : inv raw s2).
  { rewrite <- (own_again raw s other p Hinv Hp). apply construct_inv; [by apply release_inv|cbn; by rewrite lookup_insert_ne|].
    destruct (decide (p = 0)); [by left|right]. apply elem_of_union, or_introl, elem_non_null. done. }
  assert (Lt : vars s2 !! tmp = Some p) by apply lookup_insert_eq.
  assert (Lq : vars s2 !! this = Some q) by (cbn; by rewrite !lookup_insert_ne).
  pose proof (swap_inv raw s2 tmp this p q I2 Lt Lq) as I3. set (s3 := set_vars _ s2) in I3.
  destruct (ptr_destroy_Ok raw s3 tmp q I3) as (s4 & Hd & Hv & Hh & I4); [cbn; rewrite lookup_insert_ne by done; apply lookup_insert_eq|].
  exists s4. split.
  - unfold take_from, release. erewrite bind_Ok by (erewrite bind_Ok by (by apply data_Ok); by erewrite bind_Ok by (by eapply set_data_Ok)).
    erewrite (bind_Ok _ _ _ tt s2) by reflexivity. rewrite (bind_Ok _ _ _ _ _ (swap_Ok _ _ _ _ _ Lt Lq)). exact Hd.
  - split; [|by split]. rewrite Hv. cbn. rewrite delete_insert_ne by done. rewrite !delete_insert_eq.
    rewrite delete_id by (by rewrite lookup_insert_ne). done.
Qed.

Lemma op_Ok raw s o : inv raw s → allowed raw s o → ∃ v s', run_op o s = Ok (v, s') ∧ inv (raw_after o v raw) s'.
Proof.
  intros Hinv. destruct o as [p v|p|this p|this p v|tmp this other|tmp this other|this other|this|this]; cbn [allowed run_op raw_after].
  - intros [H0 Hp]. eexists p, _. split; [reflexivity|]. by apply inv_new.
  - intros Hp. unfold tobool. destruct (Z.eqb_spec p 0) as [->|H0]; cbn [negb].
    + eexists 0, s. split; [reflexivity|]. rewrite difference_disjoint_L; [done|]. intros q Hq ->%elem_of_singleton. by destruct (inv_raw _ _ Hinv 0 Hq).
    + destruct Hp as [?|Hp]; [done|]. destruct (delete_Ok raw s p Hinv Hp) as (s' & Hd & _ & _ & Hi). exists 0, s'.
      by rewrite (bind_Ok _ _ _ _ _ Hd).
  - intros [Hf Hp]. eexists 0, _. split; [reflexivity|]. by apply construct_inv.
  - intros (Hf & H0 & Hp). eexists 0, _. split; [reflexivity|]. pose proof (inv_new raw s p v Hinv H0 Hp) as Hi.
    assert (Hn : p ∈ non_null p ∪ raw) by (apply elem_of_union, or_introl, elem_non_null; done).
    assert (E : (non_null p ∪ raw) ∖ {[p]} = raw).
    { apply set_eq. intros q. rewrite elem_of_difference, elem_of_union, elem_non_null, elem_of_singleton. split; [intros [[[-> _]|?] ?]; done|].
      intros Hq. split; [by right|]. intros ->. destruct (inv_raw _ _ Hinv _ Hq) as [[? ?] _]. congruence. }
    rewrite <- E. apply construct_inv; [exact Hi|done|by right].
  - intros (Ht & Hf & Hne & p & Hp). set (s0 := set_vars (<[this := 0]> (vars s)) s).
    assert (I0 : inv raw s0).
    { pose proof (construct_inv raw s this 0 Hinv Hf (or_introl eq_refl)) as Hi. rewrite difference_disjoint_L in Hi; [done|].
      intros q Hq ->%elem_of_singleton. by destruct (inv_raw _ _ Hinv 0 Hq). }
    destruct (take_from_Ok raw s0 tmp this other p 0 I0) as (s' & Hr & _ & _ & Hi);
      [cbn; by rewrite lookup_insert_ne|apply lookup_insert_eq|cbn; rewrite lookup_insert_ne; congruence|congruence|].
    exists 0, s'. split; [|exact Hi]. erewrite bind_Ok; [reflexivity|]. unfold move_construct. by erewrite bind_Ok by reflexivity.
  - intros (Ht & [q Hq] & p & Hp). unfold move_assign. destruct (Z.eqb_spec this other) as [->|Hne]; cbn [negb].
    + exists 0, s. by split.
    + destruct (take_from_Ok raw s tmp this other p q Hinv Ht Hq Hp Hne) as (s' & Hr & _ & _ & Hi). exists 0, s'.
      by rewrite (bind_Ok _ _ _ _ _ Hr).
  - intros [[p Hp] [q Hq]]. eexists 0, _. rewrite (bind_Ok _ _ _ _ _ (swap_Ok _ _ _ _ _ Hp Hq)). split; [reflexivity|]. by apply swap_inv.
  - intros [p Hp]. exists p, (set_vars (<[this := 0]> (vars s)) s). split; [|by apply release_inv]. unfold release.
    rewrite (bind_Ok _ _ _ _ _ (data_Ok _ _ _ Hp)). by erewrite bind_Ok by (by eapply set_data_Ok).
  - intros [p Hp]. destruct (ptr_destroy_Ok raw s this p Hinv Hp) as (s' & Hr & _ & _ & Hi). exists 0, s'. by rewrite (bind_Ok _ _ _ _ _ Hr).
Qed.

Lemma reachable_inv raw s : reachable raw s → inv raw s.
Proof.
  induction 1 as [|raw s o v s' _ Hinv Ha Hr].
  - split; cbn; [done|done|intros p []%not_elem_of_empty|]. intros p. rewrite lookup_empty. by intros [].
  - destruct (op_Ok raw s o Hinv Ha) as (v' & s'' & Hr' & Hi). rewrite Hr in Hr'. by simplify_eq.
Qed.

(** * Properties *)

(** C37: ownership is unique.  In every state that a program reaches with its [unique_ptr]s: no two
    of them own the same object, what one owns has not been deleted, and whatever the program does
    next the class deletes only what is allocated.  Move assignment gives the object to the other
    pointer and deletes the one that pointer had, and leaves null behind.  When no pointer is left
    and nothing was released, no object is left: nothing is deleted twice, and nothing leaks. *)
Theorem unique_ptr_owns raw s : reachable raw s →
  (∀ a b p, vars s !! a = Some p → vars s !! b = Some p → p ≠ 0 → a = b) ∧
  (∀ a p, vars s !! a = Some p → p ≠ 0 → ∃ v, deref a s = Ok (v, s)) ∧
  (∀ o, allowed raw s o → ∃ v s', run_op o s = Ok (v, s')) ∧
  (∀ tmp this other p q, vars s !! tmp = None → vars s !! this = Some q → vars s !! other = Some p → this ≠ other →
     ∃ s', move_assign tmp this other s = Ok (tt, s') ∧ vars s' = <[this := p]> (<[other := 0]> (vars s)) ∧
       heap s' = heap_without q (heap s)) ∧
  (vars s = ∅ → raw = ∅ → heap s = ∅).
Proof.
  intros Hr. pose proof (reachable_inv raw s Hr) as Hinv. pose proof Hinv as [H1 H2 H3 H4]. split; [exact H1|]. split; [|split; [|split]].
  - intros a p Ha H0. destruct (H2 a p Ha H0) as [[v Hv] _]. exists v. unfold deref. rewrite (bind_Ok _ _ _ _ _ (data_Ok _ _ _ Ha)).
    unfold object_at. by rewrite Hv.
  - intros o Ho. destruct (op_Ok raw s o Hinv Ho) as (v & s' & Hrun & _). eauto.
  - intros tmp this other p q Ht Hq Hp Hne. destruct (take_from_Ok raw s tmp this other p q Hinv Ht Hq Hp Hne) as (s' & Hrun & Hv & Hh & _).
    exists s'. unfold move_assign. rewrite (proj2 (Z.eqb_neq _ _) Hne). by split_and!.
  - intros Hv Hw. apply map_empty. intros p. destruct (heap s !! p) as [v|] eqn:E; [|done].
    destruct (H4 p (mk_is_Some _ _ E)) as [_ [Hp|[a Ha]]]; [set_solver|]. rewrite Hv, lookup_empty in Ha. done.
Qed.

End unique_ptr.
Arguments state : clear implicits.
Arguments op : clear implicits.

(** [operator[]] of [unique_ptr<T[]>]: the object is an array. *)
Definition subscript {A} (this i : Z) : M (state (list A)) A := l ← deref this; liftR (aread l i).

(** An object is made and its owner is moved from one pointer to another. *)
Definition example_moved : state Z := mkState (<[24 := 100]> {[16 := 0]}) {[100 := 7]}.

Lemma example_reachable : reachable ∅ example_moved.
Proof.
  pose proof (reach_step ∅ (mkState ∅ ∅) (OMake 16 100 7) 0 (mkState {[16 := 100]} {[100 := 7]}) (reach_start (T := Z))) as H1.
  specialize (H1 ltac:(by split_and!) eq_refl).
  refine (reach_step ∅ _ (OMove 32 24 16) 0 example_moved H1 _ _); [split_and!; [done|done|done|by eexists]|].
  vm_compute. reflexivity.
Qed.

Lemma unique_ptr_owns_witness : (∃ v, deref 24 example_moved = Ok (v, example_moved)) ∧
  ∃ s', move_assign 32 16 24 example_moved = Ok (tt, s') ∧ heap s' = {[100 := 7]}.
Proof.
  destruct (unique_ptr_owns ∅ example_moved example_reachable) as (_ & Hd & _ & Hm & _). split.
  - apply (Hd 24 100); [reflexivity|discriminate].
  - destruct (Hm 32 16 24 100 0) as (s' & H & _ & Hh); [reflexivity|reflexivity|reflexivity|discriminate|]. exists s'. split; [exact H|exact Hh].
Defined.

End UniquePtr.
