(* ===== verification/Userboot.v ===== *)
(** The first programs: userboot/userboot.cpp.

    Stage 1 is the image that the kernel starts.  The archive follows it in memory; the stage
    looks through it for the ELF file of stage 2 and loads that with the tools of Elf.v and
    Startup.v.  Stage 2 starts the shell.  What [LoadElfProgram] is called with is the result
    here, as in Proc.v. *)
From S2P Require Import Prelude LibcString StartParams CxxString Vfs Ustar Envp Elf Proc.
Import LibcString.LibcString StartParams.StartParams Ustar.Ustar.

Module Userboot.

(** What is used of the [FileInfo] in [Args]: the size and the place of the data. *)
Record FileInfo := mkFile { size : Z; data : Z }.

Definition dircallback (prefix name : Z) (file : FileInfo) : M memory FileInfo := mret file.

Definition filecallback (filename prefix name size data : Z) (file : FileInfo) : M memory FileInfo :=
  r ← strcmp name filename;
  mret (if r =? 0 then mkFile size data else file).

(** [aligned] is what [new] returns for a copy of the file.  The environment is empty. *)
Definition FindAndRunRootElfExe (ustar_literal aligned tar_start filename : Z) (params : list (list Z)) :
    M memory (option Proc.launch) :=
  r ← IterateUSTAR (Some dircallback) (Some (filecallback filename)) ustar_literal tar_start (mkFile 0 0);
  let '(file, tarsize) := r in
  if tobool (data file) then
    let elf_data := data file in
    if negb (elf_data mod Elf.kMinAlign =? 0) then
      modify (alloc (Z.to_nat (size file)) aligned);;
      memcpy aligned (data file) (size file);;
      mret (Some (Proc.mkLaunch aligned params tarsize []))
    else mret (Some (Proc.mkLaunch elf_data params tarsize []))
  else mret None.

(** "./userboot-stage2" *)
Definition stage2_name : list Z := [46; 47; 117; 115; 101; 114; 98; 111; 111; 116; 45; 115; 116; 97; 103; 101; 50].

(** [main] of stage 1: the archive is behind the image; [arg] is the address of the name, which
    is the program's only argument, too. *)
Definition stage1_main (ustar_literal aligned userboot_start userboot_end arg : Z) : M memory (option Proc.launch) :=
  assert_ (0 <? userboot_start);;
  FindAndRunRootElfExe ustar_literal aligned userboot_end arg [stage2_name].

(** "/bin/shell" *)
Definition shell_path : list Z := [47; 98; 105; 110; 47; 115; 104; 101; 108; 108].

(** [main] of stage 2. *)
Definition stage2_main (ustar_literal raw_vfs aligned : Z) : M Proc.proc (Z * option Proc.launch) :=
  Proc.execv ustar_literal raw_vfs aligned shell_path [].

(** * Lemmas *)

(** The files of an archive that have the name. *)
Definition named (name : list Z) (e : entry) : option FileInfo :=
  match e with
  | EDir _ _ => None
  | EFile _ n size data => if decide (n = name) then Some (mkFile size data) else None
  end.

(** The last of them. *)
Definition found (name : list Z) (es : list entry) (f : FileInfo) : FileInfo := default f (last (omap (named name) es)).

Definition pick (name prefix n : list Z) (size data : Z) (f : FileInfo) : result FileInfo :=
  Ok (if decide (n = name) then mkFile size data else f).

Lemma run_entries_found name es : ∀ f,
  run_entries (λ _ _ f, Ok f) (pick name) es f = Ok (found name es f).
Proof.
  unfold found. induction es as [|[pr n|pr n sz d] es IH]; intros f; cbn [run_entries omap list_omap named mbind result_bind]; [done|apply IH|].
  change (pick name pr n sz d f) with (Ok (if decide (n = name) then mkFile sz d else f)). cbn [mbind result_bind]. rewrite IH. destruct (decide (n = name)); [|done].
  rewrite last_cons. by destruct (last (omap (named name) es)).
Qed.

(** What the archive says about a file that was found. *)
Lemma found_in_archive m name es : ∀ p q f, archive_at m p es q → 0 ≤ p → last (omap (named name) es) = Some f →
  0 < size f ∧ p < data f ∧ ∀ a, data f ≤ a < data f + size f → is_Some (m !! a) ∧ a < q.
Proof.
  induction es as [|[pr n|pr n sz d] es IH]; intros p q f H H0 Hl; cbn [archive_at omap list_omap named] in *; [done| |].
  - destruct H as [_ H]. apply (IH _ _ _ H) in Hl; [|unfold kTarBlockSize; lia]. unfold kTarBlockSize in *. destruct Hl as (? & ? & ?). split; [done|]. split; [lia|done].
  - destruct H as (_ & Hs & -> & Hm & H). assert (Hc : sz ≤ kTarBlockSize * chunks sz ∧ 0 ≤ chunks sz) by (unfold chunks, kTarBlockSize; dlia).
    assert (Htl : last (omap (named name) es) = Some f →
      0 < size f ∧ p < data f ∧ ∀ a, data f ≤ a < data f + size f → is_Some (m !! a) ∧ a < q).
    { intros E. apply (IH _ _ _ H) in E; [|unfold kTarBlockSize in *; lia]. destruct E as (? & ? & ?). split; [done|]. split; [unfold kTarBlockSize in *; nia|done]. }
    destruct (decide (n = name)); [|by apply Htl]. rewrite last_cons in Hl. destruct (last (omap (named name) es)) as [f'|] eqn:E; [by apply Htl; simplify_eq|].
    injection Hl as <-. cbn [size data]. split; [lia|]. split; [unfold kTarBlockSize; lia|]. intros a Ha. split; [apply Hm; lia|].
    apply archive_at_end in H. unfold kTarBlockSize in *. lia.
Qed.

(** The walk of the archive with the two callbacks. *)
Lemma find_file_Ok m lit filename name tar es q :
  archive_at m tar es q → 0 ≤ tar → q ≤ 2 ^ 32 → contents m lit ustar_bytes → 0 ≤ lit → lit + 6 ≤ 2 ^ 32 → cstr m filename name →
  IterateUSTAR (Some dircallback) (Some (filecallback filename)) lit tar (mkFile 0 0) m =
    Ok ((found name es (mkFile 0 0), u32 (q - tar)), m).
Proof.
  intros H H0 Hq Hl Hl0 Hl1 Hn.
  rewrite (IterateUSTAR_Ok m lit dircallback (filecallback filename) (λ _ _ f, Ok f) (pick name)) with (es := es) (q := q);
    try done; [by rewrite run_entries_found|].
  intros p n pr nm sz d f Hp Hnm. unfold filecallback. rewrite (bind_Ok _ _ _ _ _ (strcmp_Ok _ _ _ _ _ Hnm Hn)).
  unfold pick, pure_result. munfold. destruct (decide (nm = name)) as [->|Hne].
  - rewrite (proj2 (diff_zero name name (cstr_chars _ _ _ Hn) (cstr_chars _ _ _ Hn)) eq_refl). done.
  - rewrite (proj2 (Z.eqb_neq _ _)); [done|]. intros E. apply Hne. by apply (diff_zero nm name (cstr_chars _ _ _ Hnm) (cstr_chars _ _ _ Hn)).
Qed.

(** The copy of a file whose data is not aligned. *)
Lemma aligned_copy m aligned f q :
  map_Forall (λ _, is_u8) m → 0 ≤ data f → 0 < size f → q ≤ 2 ^ 32 →
  (∀ a, data f ≤ a < data f + size f → is_Some (m !! a) ∧ a < q) →
  0 ≤ aligned → aligned + size f ≤ 2 ^ 32 → (∀ a, aligned ≤ a < aligned + size f → m !! a = None) →
  ∃ m', memcpy aligned (data f) (size f) (alloc (Z.to_nat (size f)) aligned m) = Ok (aligned, m') ∧
    (∀ i, 0 ≤ i < size f → m' !! (aligned + i) = m !! (data f + i)) ∧ ∀ a, is_Some (m !! a) → m' !! a = m !! a.
Proof.
  intros H8 Hd0 Hs0 Hq Hm Ha0 Ha1 Hfree. set (m1 := alloc (Z.to_nat (size f)) aligned m).
  assert (Hm1 : ∀ a, m1 !! a = if in_range a aligned (size f) then Some 0 else m !! a).
  { intros a. unfold m1. rewrite alloc_lookup, Z2Nat.id by lia. done. }
  assert (Hout : ∀ a, is_Some (m !! a) → in_range a aligned (size f) = false).
  { intros a [b Hb]. destruct (in_range a aligned (size f)) eqn:E; [|done]. apply in_range_spec in E. by rewrite Hfree in Hb. }
  assert (Hdis : aligned + size f ≤ data f ∨ data f + size f ≤ aligned).
  { destruct (Z.lt_ge_cases (data f) (aligned + size f)); [|by left]. destruct (Z.lt_ge_cases aligned (data f + size f)); [|by right].
    destruct (Hm (Z.max (data f) aligned)) as [[b Hb] _]; [lia|]. by rewrite Hfree in Hb by lia. }
  destruct (memcpy_copies m1 aligned (data f) (size f)) as (m' & R & Hmv); [lia| | |done|].
  - split; [done|]. split; [done|]. intros a Ha. exists 0. rewrite Hm1, (proj2 (in_range_spec _ _ _) Ha). done.
  - split; [done|]. split; [destruct (Hm (data f + size f - 1)); lia|].
    intros a Ha. destruct (Hm a Ha) as [[b Hb] _]. exists b. rewrite Hm1, Hout by (by eexists). split; [done|]. by apply (H8 a).
  - exists m'. split; [exact R|]. split.
    + intros i Hi. rewrite Hmv, (proj2 (in_range_spec _ _ _)) by lia. replace (data f + (aligned + i - aligned)) with (data f + i) by lia.
      rewrite Hm1, Hout; [done|]. apply Hm. lia.
    + intros a Ha. by rewrite Hmv, (Hout a Ha), Hm1, (Hout a Ha).
Qed.

(** * Properties *)

(** Stage 1 starts stage 2.  If the archive behind the image has a file that is called
    "./userboot-stage2" (whatever its prefix), the loader is called with the last such file, at
    an address that is aligned as ELF files have to be and at which the bytes of the file are,
    with the name as the only argument, the size of the archive and an empty environment; what
    was in memory is unchanged.  If there is none, nothing happens. *)
Lemma stage1_starts_stage2 m lit aligned ustart uend arg es q :
  let files := omap (named stage2_name) es in
  let f := found stage2_name es (mkFile 0 0) in
  archive_at m uend es q → 0 < uend → q ≤ 2 ^ 32 → contents m lit ustar_bytes → 0 ≤ lit → lit + 6 ≤ 2 ^ 32 →
  0 < ustart → cstr m arg stage2_name → map_Forall (λ _, is_u8) m →
  0 ≤ aligned → aligned mod Elf.kMinAlign = 0 → aligned + size f ≤ 2 ^ 32 → (∀ a, aligned ≤ a < aligned + size f → m !! a = None) →
  (files = [] → stage1_main lit aligned ustart uend arg m = Ok (None, m)) ∧
  (files ≠ [] → ∃ p m', stage1_main lit aligned ustart uend arg m = Ok (Some (Proc.mkLaunch p [stage2_name] (q - uend) []), m') ∧
     p mod Elf.kMinAlign = 0 ∧ last files = Some f ∧
     (∀ i, 0 ≤ i < size f → is_Some (m !! (data f + i)) ∧ m' !! (p + i) = m !! (data f + i)) ∧
     ∀ a, is_Some (m !! a) → m' !! a = m !! a).
Proof.
  intros files f H H0 Hq Hl Hl0 Hl1 Hst Hn H8 Ha0 Ha4 Ha1 Hfree.
  assert (Hu : u32 (q - uend) = q - uend).
  { apply u32_id. apply archive_at_end in H. unfold is_u32, kTarBlockSize in *. lia. }
  unfold stage1_main, FindAndRunRootElfExe. rewrite (proj2 (Z.ltb_lt _ _) Hst). erewrite !bind_Ok by done.
  rewrite (bind_Ok _ _ _ _ _ (find_file_Ok m lit arg stage2_name uend es q H ltac:(lia) Hq Hl Hl0 Hl1 Hn)), Hu. fold f. split.
  { intros E. unfold f, found. fold files. by rewrite E. }
  intros Hne. assert (Hlast : last files = Some f).
  { unfold f, found. fold files. destruct (last files) eqn:E; [done|]. by apply last_None in E. }
  destruct (found_in_archive m stage2_name es uend q f H ltac:(lia) Hlast) as (Hs & Hd & Hm).
  unfold tobool. rewrite (proj2 (Z.eqb_neq (data f) 0)) by lia. cbn [negb].
  destruct (Z.eqb_spec (data f mod Elf.kMinAlign) 0) as [E|E]; cbn [negb].
  - exists (data f), m. do 3 (split; [done|]). split; [|done]. intros i Hi. split; [apply Hm; lia|done].
  - destruct (aligned_copy m aligned f q) as (m' & R & Hc & Hk); try done; [lia|]. exists aligned, m'. split.
    { erewrite bind_Ok by done. by rewrite (bind_Ok _ _ _ _ _ R). }
    split; [done|]. split; [done|]. split; [|done]. intros i Hi. split; [apply Hm; lia|by apply Hc].
Qed.

(** An archive with one file, "./userboot-stage2" of five bytes, at 1026: its data is not
    aligned. *)
Definition example_header : list Z :=
  stage2_name ++ replicate 107 0 ++ replicate 10 48 ++ [53] ++ replicate 21 0 ++ [48] ++ replicate 100 0 ++
  ustar_bytes ++ replicate 249 0.

Definition example_boot_archive : memory :=
  list_to_map (zip (seqZ 16 6) ustar_bytes ++ zip (seqZ 32 18) (stage2_name ++ [0]) ++
    zip (seqZ 1026 2048) (example_header ++ [127; 69; 76; 70; 1] ++ replicate 507 0 ++ replicate 1024 0)).

Definition example_entries : list entry := [EFile [] stage2_name 5 1538].

(** A C string, checked by evaluation. *)
Fixpoint cstr_b (m : memory) (p : Z) (s : list Z) : bool :=
  match s with
  | [] => bool_decide (m !! p = Some 0)
  | c :: s => bool_decide (m !! p = Some c) && (0 <? c) && (c <? 256) && cstr_b m (p + 1) s
  end.

Lemma cstr_check m s : ∀ p, 0 ≤ p → p + Z.of_nat (length s) < 2 ^ 32 → cstr_b m p s = true → cstr m p s.
Proof.
  induction s as [|c s IH]; intros p H0 H1 H; cbn [cstr_b cstr length] in *.
  - apply bool_decide_eq_true in H. split; [unfold is_u32; lia|done].
  - apply andb_true_iff in H as [[[Hc H2]%andb_true_iff H3]%andb_true_iff H4]. apply bool_decide_eq_true in Hc.
    apply Z.ltb_lt in H2, H3. split; [unfold is_u32; lia|]. split; [done|]. split; [lia|]. apply IH; [lia|lia|done].
Qed.

Lemma mapped_check (m : memory) p n : forallb (λ a, bool_decide (is_Some (m !! a))) (seqZ p n) = true → ∀ a, p ≤ a < p + n → is_Some (m !! a).
Proof. intros H a Ha. pose proof (check_range _ _ _ H a Ha) as E. by apply bool_decide_eq_true in E. Qed.

Lemma lookup_check (m : memory) v p n : forallb (λ a, bool_decide (m !! a = v)) (seqZ p n) = true → ∀ a, p ≤ a < p + n → m !! a = v.
Proof. intros H a Ha. pose proof (check_range _ _ _ H a Ha) as E. by apply bool_decide_eq_true in E. Qed.

Lemma example_entries_Ok : archive_at example_boot_archive 1026 example_entries 3074.
Proof.
  cbn [archive_at example_entries]. split.
  { exists 48. split; [done|]. split; [|split; [|split; [|split; [|split]]]].
    - apply mapped_check. vm_compute. reflexivity.
    - apply contents_dec. vm_compute. reflexivity.
    - apply cstr_check; [done|done|vm_compute; reflexivity].
    - apply cstr_check; [done|done|vm_compute; reflexivity].
    - vm_compute. reflexivity.
    - exists (replicate 10 48 ++ [53]). split; [done|]. split; [by repeat constructor|]. split; [|done].
      apply contents_dec. vm_compute. reflexivity. }
  split; [lia|]. split; [done|]. split; [apply mapped_check; vm_compute; reflexivity|]. split; [|done].
  apply lookup_check. vm_compute. reflexivity.
Qed.

Lemma example_bytes : map_Forall (λ _, is_u8) example_boot_archive.
Proof.
  apply map_Forall_lookup. intros a b Hb. unfold example_boot_archive in Hb. apply elem_of_list_to_map_2 in Hb.
  assert (Hall : forallb (λ x : Z * Z, (0 <=? x.2) && (x.2 <? 256)) (zip (seqZ 16 6) ustar_bytes ++ zip (seqZ 32 18) (stage2_name ++ [0]) ++
    zip (seqZ 1026 2048) (example_header ++ [127; 69; 76; 70; 1] ++ replicate 507 0 ++ replicate 1024 0)) = true) by (vm_compute; reflexivity).
  rewrite forallb_forall in Hall. specialize (Hall (a, b) (proj1 (list_elem_of_In _ _) Hb)).
  apply andb_true_iff in Hall as [H0%Z.leb_le H1%Z.ltb_lt]. split; [exact H0|exact H1].
Qed.

End Userboot.
