(* ===== verification/Programs.v ===== *)
(** The small programs of userboot, with what the library does around them: the heap that
    [__libc_start_main] (libc/__libc_start_main.cpp) sets up before [main], the table [environ]
    that [setenv] (libc/getenv.cpp) renews through [UpdateEnviron] (libc/globalstate.cpp), and the
    programs hello.cpp, printenv.cpp, page_fault.cpp and tests/malloc.cpp.

    A program's memory and its output are those of Printf.v.  The heap is that of Malloc.v, on the
    words of the page that the kernel gave to the process. *)
From S2P Require Import Prelude Pmm Paging Scheduler Syscalls UserSyscalls Malloc LibcString StartParams Printf CxxString Envp MallocTests.
Import Pmm.Pmm Paging.Paging Scheduler.Scheduler Syscalls.Syscalls UserSyscalls.UserSyscalls.

Module Programs.

(** * The globals of a process *)
Record globals := mkGlobals {
  gEnvp : Envp.Envp.envp;
  gPlainEnv : Z * Z;        (* the table that the [unique_ptr] owns, and its size *)
  environ : Z;
  errno : Z;
  gmem : LibcString.memory;
}.

Definition set_env x (g : globals) := mkGlobals x (gPlainEnv g) (environ g) (errno g) (gmem g).
Definition set_plain x (g : globals) := mkGlobals (gEnvp g) x (environ g) (errno g) (gmem g).
Definition set_environ x (g : globals) := mkGlobals (gEnvp g) (gPlainEnv g) x (errno g) (gmem g).
Definition set_errno x (g : globals) := mkGlobals (gEnvp g) (gPlainEnv g) (environ g) x (gmem g).
Definition set_gmem x (g : globals) := mkGlobals (gEnvp g) (gPlainEnv g) (environ g) (errno g) x.

Definition on_memory {A} (m : M LibcString.memory A) : M globals A := zoom gmem set_gmem m.

(** [delete[]] of a table that [unique_ptr] owned, unless it is null. *)
Definition delete_table (t : Z * Z) : M LibcString.memory unit :=
  if tobool t.1 then modify (LibcString.release (Z.to_nat t.2) t.1) else mret tt.

(** [buff] is the address that [new char[]] returns. *)
Definition UpdateEnviron (buff : Z) : M globals unit :=
  env ← gets gEnvp;
  plain_env ← on_memory (Envp.Envp.getPlainEnvp buff env);
  old ← gets gPlainEnv;
  modify (set_plain (plain_env, Envp.Envp.plain_size env));;
  modify (set_environ plain_env);;
  on_memory (delete_table old).

(** [setenv] with its effect on [environ]; Envp.v has its effect on the variables. *)
Definition setenv (buff : Z) (envname : option (list Z)) (envval : list Z) (overwrite : Z) : M globals Z :=
  match envname with
  | None => modify (set_errno Envp.Envp.EINVAL);; mret (-1)
  | Some name =>
      if bool_decide (name = []) || bool_decide (61 ∈ name) then modify (set_errno Envp.Envp.EINVAL);; mret (-1)
      else
        envp ← gets gEnvp;
        val ← liftR (Envp.Envp.getVal envp (CxxString.CxxString.of_cstr name));
        if bool_decide (is_Some val) && (overwrite =? 0) then mret 0
        else
          envp ← liftR (Envp.Envp.setVal envp (CxxString.CxxString.of_cstr name) (CxxString.CxxString.of_cstr envval));
          modify (set_env envp);;
          UpdateEnviron buff;;
          mret 0
  end.

(** * printenv.cpp, hello.cpp, page_fault.cpp *)
Fixpoint printenv_loop (fuel : nat) (env : Z) : M Printf.Printf.console unit :=
  match fuel with
  | O => fail NoFuel
  | S fuel =>
      p ← Printf.Printf.on_mem (StartParams.StartParams.load32 env);
      if tobool p then Printf.Printf.printf [37; 115; 10] [p];; printenv_loop fuel (u32 (env + 4))
      else mret tt
  end.

Definition printenv_main (fuel : nat) (environ_ : Z) : M Printf.Printf.console Z := printenv_loop fuel environ_;; mret 0.

(** ["Hello %s!\n"] *)
Definition hello_fmt : list Z := [72; 101; 108; 108; 111; 32; 37; 115; 33; 10].

Definition hello_main (argc argv : Z) : M Printf.Printf.console Z :=
  assert_ (argc =? 2);;
  assert_ (tobool argv);;
  p ← Printf.Printf.on_mem (StartParams.StartParams.load32 (u32 (argv + 4)));
  Printf.Printf.printf hello_fmt [p];;
  mret 0.

(** [int y = *x] with a null [x], in the address space of the process. *)
Definition page_fault_main : M machine Z := y ← load32 0; mret 0.

(** tests/malloc.cpp *)
Definition malloc_main : M Malloc.Malloc.heap Z := MallocTests.MallocTests.RunAllMallocTests;; mret 0.

(** * The start of [__libc_start_main]

    [malloc_page] is what the local variable holds before the call, [start_main_loc] the address of
    the function, [words_at a] the words of the page at [a]. *)
Definition start_heap (al al' : allocs) (malloc_page start_main_loc : Z) (words_at : Z → gmap Z Z) : prog Malloc.Malloc.heap :=
  i ← call al (AllocPage malloc_page 0 (Z.lor ALLOC_ANON ALLOC_CURRENT));
  if negb (i.1 =? K_OK) then stop Aborted
  else
    debug_assert (tobool start_main_loc);;
    debug_assert (tobool i.2);;
    pagesize ← call al' PageSize;
    match Malloc.Malloc.Initialize i.2 pagesize None (Malloc.Malloc.mkHeap 0 None (words_at i.2)) with
    | Ok (_, h) => mret h
    | Fault e => stop e
    end.

(** * Lemmas *)

Lemma printf_directives ds st : Forall (Printf.Printf.valid (Printf.Printf.mem st)) ds →
  Printf.Printf.printf (concat (Printf.Printf.fmt_of <$> ds)) (concat (Printf.Printf.args_of <$> ds)) st =
    Ok (0, Printf.Printf.Console (Printf.Printf.out st ++ concat (Printf.Printf.shows <$> ds)) [] (Printf.Printf.mem st)).
Proof.
  intros Hv. unfold Printf.Printf.printf. erewrite bind_Ok by reflexivity. cbn [Printf.Printf.out Printf.Printf.mem].
  pose proof (Printf.Printf.Format_directives ds [] (Printf.Printf.out st) [] (Printf.Printf.mem st) Hv) as HF.
  rewrite !app_nil_r in HF. by rewrite (bind_Ok _ _ _ _ _ HF).
Qed.

Lemma on_mem_read {A} (c : M LibcString.memory A) st a :
  c (Printf.Printf.mem st) = Ok (a, Printf.Printf.mem st) → Printf.Printf.on_mem c st = Ok (a, st).
Proof. intros H. unfold Printf.Printf.on_mem, zoom. rewrite H. by destruct st. Qed.

(** The strings of a table that ends with a null pointer, one per line. *)
Definition lines (ps : list (list Z)) : list Z := concat ((λ p, p ++ [10]) <$> ps).

Lemma env_lines_Ok ps : ∀ fuel slot strs st, (length ps < fuel)%nat → 0 ≤ slot → slot + 4 * Z.of_nat (length ps) + 4 ≤ strs →
  strs + StartParams.StartParams.strs_size ps ≤ 2 ^ 32 → Forall (Forall (λ c, 0 < c < 256)) ps →
  StartParams.StartParams.argv_at (Printf.Printf.mem st) slot strs ps →
  StartParams.StartParams.contents (Printf.Printf.mem st) (slot + 4 * Z.of_nat (length ps)) (StartParams.StartParams.bytes32 0) →
  ∃ st', printenv_loop fuel slot st = Ok (tt, st') ∧ Printf.Printf.out st' = Printf.Printf.out st ++ lines ps ∧
    Printf.Printf.mem st' = Printf.Printf.mem st.
Proof.
  induction ps as [|p ps IH]; intros fuel slot strs st Hf H0 Hd Ht Hc Ha Hn; (destruct fuel as [|fuel]; [cbn in Hf; lia|]);
    cbn [printenv_loop length StartParams.StartParams.argv_at StartParams.StartParams.strs_size] in *.
  - exists st. rewrite Z.add_0_r in Hn. erewrite bind_Ok; [|apply on_mem_read, (StartParams.StartParams.load32_Ok _ _ 0); [unfold is_u32; lia|done|lia|exact Hn]].
    split; [done|]. split; [by rewrite app_nil_r|done].
  - destruct Ha as (Ct & Cs & Ha). apply Forall_cons in Hc as [Hp Hc]. pose proof (StartParams.StartParams.strs_size_nonneg ps).
    erewrite bind_Ok; [|apply on_mem_read, (StartParams.StartParams.load32_Ok _ _ strs); [unfold is_u32; lia|lia|lia|exact Ct]].
    assert (tobool strs = true) as -> by (unfold tobool; destruct (Z.eqb_spec strs 0); [lia|done]).
    assert (Hs : LibcString.LibcString.cstr (Printf.Printf.mem st) strs p)
      by (apply StartParams.StartParams.contents_cstr; [lia|lia|done|done]).
    erewrite bind_Ok; [|apply (printf_directives [Printf.Printf.Str strs p; Printf.Printf.Lit 10] st)].
    2:{ apply Forall_cons. split; [split; [apply Forall_singleton; unfold is_u32; lia|exact Hs]|].
        apply Forall_singleton. split; [by apply Forall_nil|cbn; lia]. }
    rewrite u32_id by (unfold is_u32; lia).
    destruct (IH fuel (slot + 4) (strs + Z.of_nat (length p) + 1)
      (Printf.Printf.Console (Printf.Printf.out st ++ p ++ [10]) [] (Printf.Printf.mem st))) as (st' & R & Ho & Hm);
      [lia|lia|lia|lia|done|done| |].
    { cbn. by replace (slot + 4 + 4 * Z.of_nat (length ps)) with (slot + 4 * Z.of_nat (S (length ps))) by lia. }
    exists st'. cbn. split; [exact R|]. split; [|done]. rewrite Ho. cbn. unfold lines. cbn. by rewrite <- !app_assoc.
Qed.

(** The size of the table of an environment, and the bytes that it takes. *)
Definition table_size (kvs : list (list Z * list Z)) : Z :=
  4 * (Z.of_nat (length kvs) + 1) + StartParams.StartParams.strs_size (Envp.Envp.entry_text <$> kvs).

Definition apart (p n q k : Z) : Prop := p + n ≤ q ∨ q + k ≤ p.

(** Every variable as C strings. *)
Definition printable (kvs : list (list Z * list Z)) : Prop := Forall (λ kv, Forall (λ c, 0 < c < 256) (Envp.Envp.entry_text kv)) kvs.

Lemma UpdateEnviron_Ok buff g kvs : Envp.Envp.env_rep (gEnvp g) kvs → printable kvs →
  0 < buff → buff + table_size kvs < 2 ^ 32 → 0 ≤ (gPlainEnv g).2 → apart (gPlainEnv g).1 (gPlainEnv g).2 buff (table_size kvs) →
  ∃ g', UpdateEnviron buff g = Ok (tt, g') ∧ gEnvp g' = gEnvp g ∧ environ g' = buff ∧ gPlainEnv g' = (buff, table_size kvs) ∧
    StartParams.StartParams.argv_at (gmem g') buff (buff + 4 * (Z.of_nat (length kvs) + 1)) (Envp.Envp.entry_text <$> kvs) ∧
    StartParams.StartParams.contents (gmem g') (buff + 4 * Z.of_nat (length kvs)) (StartParams.StartParams.bytes32 0) ∧
    (∀ a, ¬ (buff ≤ a < buff + table_size kvs) →
       gmem g' !! a = if tobool (gPlainEnv g).1 && LibcString.LibcString.in_range a (gPlainEnv g).1 (gPlainEnv g).2 then None else gmem g !! a).
Proof.
  intros He Hp Hb Hn Hs Hap. pose proof (StartParams.StartParams.strs_size_nonneg (Envp.Envp.entry_text <$> kvs)) as Hnn.
  assert (Hu : Forall (λ kv, Forall is_u8 (Envp.Envp.entry_text kv)) kvs).
  { eapply Forall_impl; [exact Hp|]. intros kv Hkv. eapply Forall_impl; [exact Hkv|]. unfold is_u8. cbn. lia. }
  destruct (Envp.Envp.getPlainEnvp_Ok (gEnvp g) kvs (gmem g) buff He Hu ltac:(lia)) as (m & R & A & Hnull & K);
    [unfold table_size in *; lia..|]. fold (table_size kvs) in K.
  unfold UpdateEnviron. erewrite bind_Ok by reflexivity. erewrite bind_Ok by (unfold on_memory, zoom; rewrite R; reflexivity).
  erewrite bind_Ok by reflexivity. erewrite bind_Ok by reflexivity. erewrite bind_Ok by reflexivity.
  rewrite (Envp.Envp.plain_size_Ok _ kvs He) by (unfold table_size in *; lia). fold (table_size kvs). cbn [set_gmem gPlainEnv].
  assert (Hd : ∃ m', delete_table (gPlainEnv g) m = Ok (tt, m') ∧ ∀ a, m' !! a =
    if tobool (gPlainEnv g).1 && LibcString.LibcString.in_range a (gPlainEnv g).1 (gPlainEnv g).2 then None else m !! a).
  { unfold delete_table. destruct (tobool (gPlainEnv g).1); [|by exists m].
    eexists. split; [done|]. intros a. by rewrite LibcString.LibcString.release_lookup, Z2Nat.id. }
  destruct Hd as (m' & Hd & Hm'). eexists. split; [unfold on_memory, zoom; cbn; rewrite Hd; reflexivity|].
  cbn. split; [done|]. split; [done|]. split; [done|].
  assert (Hin : ∀ a, buff ≤ a < buff + table_size kvs → m' !! a = m !! a).
  { intros a Ha. rewrite Hm'. destruct (LibcString.LibcString.in_range a _ _) eqn:E; [|by rewrite andb_false_r].
    apply LibcString.LibcString.in_range_spec in E. unfold apart in Hap. lia. }
  split; [|split].
  - eapply StartParams.StartParams.argv_at_local; [| |exact A]; intros i Hi; apply Hin; rewrite ?length_fmap in Hi; unfold table_size; lia.
  - eapply StartParams.StartParams.contents_local; [|exact Hnull]. intros i Hi. apply Hin. rewrite Envp.Envp.length_bytes32 in Hi. unfold table_size. lia.
  - intros a Ha. rewrite Hm', K by done. done.
Qed.

(** * Properties *)

(** C32: [setenv] and [printenv].  A name that is empty or has an [=] is refused with [EINVAL], and
    nothing else changes; a variable that exists is left alone unless it is to be overwritten.
    Otherwise the variable gets its value and [environ] a new table, and the old one is freed; a
    program that walks over [environ] then prints the variables of the environment, [KEY=VAL] on a
    line each, in their order, and ends. *)
Theorem setenv_then_printenv buff g kvs k v overwrite fuel o :
  let kvs' := Envp.Envp.set_kv kvs (k, v) in
  Envp.Envp.env_rep (gEnvp g) kvs → printable kvs' → 0 < buff → buff + table_size kvs' < 2 ^ 32 →
  0 ≤ (gPlainEnv g).2 → apart (gPlainEnv g).1 (gPlainEnv g).2 buff (table_size kvs') → (length kvs' < fuel)%nat →
  if bool_decide (k = []) || bool_decide (61 ∈ k) then setenv buff (Some k) v overwrite g = Ok (-1, set_errno Envp.Envp.EINVAL g)
  else if bool_decide (is_Some (Envp.Envp.lookup_kv kvs k)) && (overwrite =? 0) then setenv buff (Some k) v overwrite g = Ok (0, g)
  else ∃ g', setenv buff (Some k) v overwrite g = Ok (0, g') ∧ Envp.Envp.env_rep (gEnvp g') kvs' ∧ gPlainEnv g' = (environ g', table_size kvs') ∧
    (∀ a, tobool (gPlainEnv g).1 = true → (gPlainEnv g).1 ≤ a < (gPlainEnv g).1 + (gPlainEnv g).2 → gmem g' !! a = None) ∧
    ∃ c, printenv_main fuel (environ g') (Printf.Printf.Console o [] (gmem g')) = Ok (0, c) ∧
      Printf.Printf.out c = o ++ lines (Envp.Envp.entry_text <$> kvs') ∧ Printf.Printf.mem c = gmem g'.
Proof.
  intros kvs' He Hp Hb Hn Hs Hap Hf. unfold setenv. destruct (_ || _); [done|]. erewrite bind_Ok by reflexivity.
  assert (Hk : CxxString.CxxString.text (CxxString.CxxString.of_cstr k) k) by apply CxxString.CxxString.rep_text, CxxString.CxxString.of_cstr_rep.
  assert (Hv : CxxString.CxxString.text (CxxString.CxxString.of_cstr v) v) by apply CxxString.CxxString.rep_text, CxxString.CxxString.of_cstr_rep.
  erewrite bind_Ok by (unfold liftR; rewrite (Envp.Envp.getVal_env _ kvs _ k He Hk); reflexivity).
  destruct (_ && _); [done|].
  destruct (Envp.Envp.setVal_env _ kvs _ _ k v He Hk Hv) as (env' & Rset & He'). fold kvs' in He'.
  erewrite bind_Ok by (unfold liftR; rewrite Rset; reflexivity). erewrite bind_Ok by reflexivity.
  destruct (UpdateEnviron_Ok buff (set_env env' g) kvs' He' Hp Hb Hn Hs Hap) as (g' & R & Ee & Eb & Ep & A & Hnull & K).
  rewrite (bind_Ok _ _ _ _ _ R). exists g'. split; [done|]. split; [by rewrite Ee|]. split; [by rewrite Ep, Eb|]. split.
  - intros a Ht Ha. cbn [set_env gPlainEnv gmem] in K. rewrite K by (unfold apart in Hap; lia).
    rewrite Ht, (proj2 (LibcString.LibcString.in_range_spec _ _ _)) by done. done.
  - pose proof (StartParams.StartParams.strs_size_nonneg (Envp.Envp.entry_text <$> kvs')) as Hnn.
    destruct (env_lines_Ok (Envp.Envp.entry_text <$> kvs') fuel buff (buff + 4 * (Z.of_nat (length kvs') + 1))
      (Printf.Printf.Console o [] (gmem g'))) as (c & Rc & Ho & Hm); rewrite ?length_fmap; unfold table_size in *; [done|lia|lia|lia| |done|done|].
    { by apply Forall_fmap. }
    exists c. unfold printenv_main. rewrite Eb, (bind_Ok _ _ _ _ _ Rc). by split_and!.
Qed.

(** [setenv("B", "2", 1)] in a process that has [A=1]. *)
Definition example_globals : globals := mkGlobals [(CxxString.CxxString.of_cstr [65], CxxString.CxxString.of_cstr [49])] (0, 0) 0 0 ∅.

Lemma setenv_then_printenv_witness : ∃ g' c,
  setenv 4096 (Some [66]) [50] 1 example_globals = Ok (0, g') ∧
  printenv_main 3 (environ g') (Printf.Printf.Console [] [] (gmem g')) = Ok (0, c) ∧
  Printf.Printf.out c = [65; 61; 49; 10; 66; 61; 50; 10].
Proof.
  destruct (setenv_then_printenv 4096 example_globals [([65], [49])] [66] [50] 1 3 []) as (g' & R & _ & _ & _ & c & Rc & Ho & _).
  - repeat constructor; apply CxxString.CxxString.rep_text, CxxString.CxxString.of_cstr_rep.
  - repeat constructor; cbn; lia.
  - lia.
  - vm_compute. reflexivity.
  - cbn. lia.
  - left. cbn. lia.
  - apply Nat.ltb_lt. vm_compute. reflexivity.
  - exists g', c. split; [exact R|]. split; [exact Rc|]. rewrite Ho. reflexivity.
Defined.

(** Its argument arrives in the greeting. *)
Lemma hello_greets argv s p st : 0 < argv → argv + 8 ≤ 2 ^ 32 → is_u32 p →
  StartParams.StartParams.contents (Printf.Printf.mem st) (argv + 4) (StartParams.StartParams.bytes32 p) →
  LibcString.LibcString.cstr (Printf.Printf.mem st) p s →
  hello_main 2 argv st = Ok (0, Printf.Printf.Console (Printf.Printf.out st ++ [72; 101; 108; 108; 111; 32] ++ s ++ [33; 10]) [] (Printf.Printf.mem st)).
Proof.
  intros H0 H1 Hp Hc Hs. unfold hello_main. erewrite bind_Ok by reflexivity.
  assert (tobool argv = true) as -> by (unfold tobool; destruct (Z.eqb_spec argv 0); [lia|done]). erewrite bind_Ok by reflexivity.
  rewrite u32_id by (unfold is_u32; lia).
  erewrite bind_Ok; [|apply on_mem_read, (StartParams.StartParams.load32_Ok _ _ p); [done|lia|lia|exact Hc]].
  erewrite bind_Ok; [reflexivity|].
  apply (printf_directives [Printf.Printf.Lit 72; Printf.Printf.Lit 101; Printf.Printf.Lit 108; Printf.Printf.Lit 108; Printf.Printf.Lit 111;
    Printf.Printf.Lit 32; Printf.Printf.Str p s; Printf.Printf.Lit 33; Printf.Printf.Lit 10] st).
  repeat (apply Forall_cons; split); try (split; [by apply Forall_nil|cbn; lia]); [split; [by apply Forall_singleton|exact Hs]|by apply Forall_nil].
Qed.

(** A null pointer is a page fault wherever the first page is not mapped. *)
Lemma page_fault_faults s pd : pds s !! gCurrentPageDir s = Some pd → mapping pd 0 = None → page_fault_main s = Fault PageFault.
Proof.
  intros Hc Hm. unfold page_fault_main. apply bind_Fault. unfold load32, load8. apply bind_Fault, bind_Fault. unfold phys, GetCurrentPageDirectory, get_pd.
  munfold. rewrite Hc. cbn. rewrite translate_mapping. change (0 / kPageSize4M) with 0. by rewrite Hm.
Qed.

(** ** The heap of a process *)

(** [PageSize] changes nothing but the registers. *)
Lemma PageSize_Ok al r s : ∃ r' s', call al PageSize r s = Ok (inl (kPageSize4M, r'), s') ∧
  pds (mach (kern s')) = pds (mach (kern s)) ∧ tasks (kern s') = tasks (kern s).
Proof. eexists _, _. split; [rewrite (call_handler al PageSize r s SYS_PageSize) by reflexivity; reflexivity|]. done. Qed.

(** The constructor of [PageAlloc] is the first call of [start_heap]. *)
Lemma AllocPage_call al a0 r s p xp pd : may_alloc (kern s) p xp pd →
  (∃ j, FREE_PAGE_LOWER_BOUND ≤ j < 511 ∧ mapping pd j = None) →
  (PageAlloc al a0 r s = Fault Aborted ∧ ∀ q, 0 ≤ q < searched_pages (pmm (mach (kern s))) → Pmm.used (pmm (mach (kern s))) q = true) ∨
  ∃ a q r1 s1, PageAlloc al a0 r s = Ok (inl (a, r1), s1) ∧ 0 < a ∧ a mod kPageSize4M = 0 ∧ a + kPageSize4M ≤ 2 ^ 31 ∧
    mapping pd (a / kPageSize4M) = None ∧ Pmm.used (pmm (mach (kern s))) q = false ∧
    vtranslate (mach (kern s1)) (pd_ xp) a = Some (PageToAddr q).
Proof.
  intros Hmay (j & Hj & Hfree). pose proof Hmay as (_ & Hp & _ & Hpd & Hok & _).
  destruct (PageAlloc_Ok al a0 r s p xp pd Hmay)
    as [(H & [Hno|Hno])|(a & q & r1 & s1 & Hnew & (Hheld & _) & Ha & Hm & Hf & Hr & _ & Hch)]; [by left| |right].
  { exfalso. destruct (Hno j) as [x Hx]; [unfold kNumPageDirEntries; lia|]. congruence. }
  unfold chosen in Hch. cbn [tobool] in Hch. change (tobool (Z.land ALLOC_ANON ALLOC_ANON)) with true in Hch. destruct Hch as [Hlow Hfirst].
  destruct Ha as [Ha32 Ham].
  assert (Haj : a / kPageSize4M ≤ j).
  { destruct (Z.le_gt_cases (a / kPageSize4M) j); [done|]. destruct (Hfirst j) as [x Hx]; [lia|congruence]. }
  exists a, q, r1, s1. split; [exact Hnew|]. unfold FREE_PAGE_LOWER_BOUND, is_u32, kPageSize4M in *.
  split; [dlia|]. split; [done|]. split; [dlia|]. split; [done|]. split; [done|].
  destruct Hheld as (Hpds & _). destruct (page_start q) as (Eq & Hal & _); [lia|].
  destruct (new_pde_spec (PageToAddr q) PG_USER) as (_ & Hpr & Hmask & _); [by rewrite Eq|done|].
  unfold vtranslate. rewrite Hpds, lookup_insert_eq, translate_mapping, mapping_upd by (done || by apply page_of_addr).
  unfold kPageSize4M in *. rewrite Z.eqb_refl, Hpr, Hmask, Ham. cbn. f_equal. lia.
Qed.

(** C12: a process has a heap before [main].  [__libc_start_main] aborts only when all
    the physical pages that the kernel's search looks at are in use; these are the pages in whole bytes of
    the bitmap, so that up to seven more may be free.  Otherwise it gets a page that was free, mapped at an address that was not, and makes of all of it one free
    block; on that heap the allocator's tests, which tests/malloc.cpp runs, pass. *)
Theorem process_heap_ready al al' a0 loc words_at r s p xp pd :
  may_alloc (kern s) p xp pd → loc ≠ 0 →
  (∃ j, FREE_PAGE_LOWER_BOUND ≤ j < 511 ∧ mapping pd j = None) →
  (∀ a, a mod kPageSize4M = 0 → Malloc.Malloc.mapped (words_at a) a (a + kPageSize4M)) →
  (start_heap al al' a0 loc words_at r s = Fault Aborted ∧
     ∀ q, 0 ≤ q < searched_pages (pmm (mach (kern s))) → Pmm.used (pmm (mach (kern s))) q = true) ∨
  ∃ a q h r' s', start_heap al al' a0 loc words_at r s = Ok (inl (h, r'), s') ∧
    mapping pd (a / kPageSize4M) = None ∧ Pmm.used (pmm (mach (kern s))) q = false ∧
    vtranslate (mach (kern s')) (pd_ xp) a = Some (PageToAddr q) ∧
    Malloc.Malloc.heap_rep h [Malloc.Malloc.new_region a kPageSize4M] ∧ ∃ h', malloc_main h = Ok (0, h').
Proof.
  intros Hmay Hloc Hfree Hw.
  assert (Hfirst : start_heap al al' a0 loc words_at r s = (PageAlloc al a0 ≫= λ a,
    debug_assert (tobool loc);; debug_assert (tobool a);; pagesize ← call al' PageSize;
    match Malloc.Malloc.Initialize a pagesize None (Malloc.Malloc.mkHeap 0 None (words_at a)) with Ok (_, h) => mret h | Fault e => stop e end) r s).
  { unfold start_heap, PageAlloc, mbind, prog_bind, mbind, M_bind. destruct (call al _ r s) as [[[[i r1]|b] s1]|e]; [|done..].
    by destruct (negb (i.1 =? K_OK)). }
  rewrite Hfirst. destruct (AllocPage_call al a0 r s p xp pd Hmay Hfree) as [[H Hno]|(a & q & r1 & s1 & H & H0 & Ha & H31 & Hm & Hf & Ht)].
  { left. split; [|done]. unfold mbind, prog_bind. by apply bind_Fault. }
  right. rewrite (prog_bind_Ok _ _ _ _ _ _ _ H). assert (tobool loc = true) as -> by (unfold tobool; by destruct (Z.eqb_spec loc 0)).
  assert (tobool a = true) as -> by (unfold tobool; destruct (Z.eqb_spec a 0); [lia|done]).
  destruct (PageSize_Ok al' r1 s1) as (r2 & s2 & Hps & Hpds & Hts).
  destruct (Malloc.Malloc.heap_Initialize_Ok (Malloc.Malloc.mkHeap 0 None (words_at a)) a kPageSize4M None) as (h & Hi & Hh & _); [done| |].
  { split; [done|]. unfold kPageSize4M in *. split; [dlia|]. split; [done|]. split; [by vm_compute|]. split; [exact H31|]. split; [by apply Hw|constructor]. }
  destruct (MallocTests.MallocTests.RunAllMallocTests_Ok a kPageSize4M h ltac:(done) Hh) as (h' & Hrun & _).
  exists a, q, h, r2, s2. split.
  - erewrite prog_bind_Ok by reflexivity. erewrite prog_bind_Ok by reflexivity. rewrite (prog_bind_Ok _ _ _ _ _ _ _ Hps). by rewrite Hi.
  - split; [done|]. split; [done|]. split; [unfold vtranslate in *; by rewrite Hpds|]. split; [done|].
    exists h'. unfold malloc_main. by rewrite (bind_Ok _ _ _ _ _ Hrun).
Qed.

(** Task 200 of the example of Syscalls.v, with a page of zeros. *)
Lemma process_heap_ready_witness :
  ∃ h r' s' h', start_heap example_allocs example_allocs 0 1 (λ a, Malloc.Malloc.zeroes a (2 ^ 20)) example_user_regs (example_sys zero_regs) =
    Ok (inl (h, r'), s') ∧ malloc_main h = Ok (0, h').
Proof.
  destruct example_sys_owned as (Hwf & Hown & H0 & H6).
  destruct (process_heap_ready example_allocs example_allocs 0 1 (λ a, Malloc.Malloc.zeroes a (2 ^ 20)) example_user_regs (example_sys zero_regs)
    200 example_200 example_user_pd) as [(_ & Hno)|(a & q & h & r' & s' & H & _ & _ & _ & _ & h' & Hh)].
  - split; [exists 20, [(30, 300); (10, 100)]; apply (example_inv [])|]. split; [reflexivity|]. split; [reflexivity|].
    split; [reflexivity|]. split; [by apply example_pd_ok|]. split; [exact Hwf|]. split; [exact Hown|].
    split; [apply (bool_decide_unpack _); by vm_compute|exact H0].
  - done.
  - exists 1. split; [unfold FREE_PAGE_LOWER_BOUND; lia|by vm_compute].
  - intros a Ha. apply (Malloc.Malloc.zeroes_mapped a (2 ^ 20)). unfold kPageSize4M in Ha. dlia.
  - exfalso. assert (Hs : 6 < searched_pages (pmm (mach (kern (example_sys zero_regs))))) by (vm_compute; reflexivity).
    assert (E : Pmm.used (pmm (mach (kern (example_sys zero_regs)))) 6 = true) by (apply Hno; split; [lia|exact Hs]).
    change (pmm (mach (kern (example_sys zero_regs)))) with example_sys_pmm in E. rewrite H6 in E. discriminate E.
  - exists h, r', s', h'. split; [exact H|exact Hh].
Defined.

End Programs.
